(* ===== verification/_CoqProject ===== *)
-Q . S2P
Prelude.v
RBTree.v
BinderAlloc.v
BinderAllocPages.v
BinderAllocInv.v
BinderAllocFree.v
BinderAllocTake.v
BinderAllocSpec.v
BinderUapi.v
BinderState.v
BinderKernel.v
BinderObject.v
BinderTransaction.v
BinderWrite.v
BinderRead.v
BinderLifecycle.v
BinderExamples.v
BinderProtocol.v
BinderFrames.v
BinderWriteSpec.v
BinderReadSpec.v
BinderReadEnds.v
BinderBuffers.v
BinderReplySpec.v
BinderObjectInv.v
BinderObjectSpec.v
BinderObjectRuns.v
BinderTranslateSpec.v
UserMem.v
BinderIo.v
BinderIoSpec.v
BinderClient.v
BinderClientSpec.v
ServiceManager.v
SvcRegistry.v
ServiceManagerSpec.v
ServiceManagerAnswers.v
ServiceManagerDemo.v
BinderTestClient.v
BinderSystem.v
Parcel.v
ParcelSpec.v
ParcelRead.v
ParcelRuns.v
ParcelSafety.v
RefBase.v
RefBaseSpec.v
IpcState.v
BpBinder.v
BpBinderSpec.v
BpBinderInv.v
BpBinderRuns.v
BpBinderDeaths.v
BpBinderClient.v
BpBinderDemo.v
IpcThread.v
IpcThreadSpec.v
IpcAnswers.v
IpcSystem.v
MemoryDealer.v
MemoryDealerList.v
MemoryDealerSpec.v
MemoryDealerRuns.v
Unicode.v
UnicodeSpec.v
UnicodeRuns.v
VectorImpl.v
VectorSpec.v
VectorStorage.v
VectorOps.v
VectorRefine.v
VectorPrograms.v
VectorSort.v
VectorSorted.v
VectorRuns.v
BlobCache.v
BlobCacheSpec.v
BlobCacheRead.v
BlobCacheVector.v
BlobCacheRuns.v
