(* ===== verification/Prelude.v ===== *)
(** * cdroid: a verified model of the binder

    cdroid is a port of Android's native services to plain Linux.  Its core is
    the binder, by which its processes call each other: the kernel driver
    [src/driver/binder.c] with its interface [src/driver/binder.h], the service
    manager [src/src/cmds/servicemanager], which gives names to services, and
    the library [src/src/lib/binder], by which C++ programs talk to the driver,
    on top of the support code of [src/src/lib/utils].  This development models
    the driver and the service manager as a whole, the library's messages,
    proxies, threads and shared memory allocator, and of the support code the
    counting of references, the conversions of strings, the vectors and the cache
    of blobs; and it proves what these parts promise to each other.  The theorems of the manifest are marked
    by the number of their claim, [C1], [C2], ..., in the comment in front of
    them.

    ** The parts and how they interact

    A process opens [/dev/binder], maps an area and calls [BINDER_WRITE_READ]
    with a buffer of commands ([BC_*]) and one for answers ([BR_*]).  The driver
    carries out the commands ([binder_thread_write]); a transaction is copied to
    a buffer in the area of the target (the allocator), the binders in it are
    translated between nodes of their owner and descriptors of references of
    everybody else (nodes and references), and a work is queued at the target,
    which [binder_thread_read] hands over.  The service manager is the process
    with descriptor 0; it reads its requests with [bio_get_*], answers with
    [bio_put_*], and keeps references to the services that were published.  C++
    programs use a [Parcel] instead, whose data and list of object positions are
    what the driver copies and translates.  Their process keeps a proxy
    ([BpBinder]) for every descriptor it uses, counted by [RefBase], and its
    threads run the command loop of [IPCThreadState], which sends transactions,
    runs the handlers of those that arrive, and tells the driver about the
    references that the process gained or gave up.

    ** The files

    Shared.  [Prelude]: outcomes, the state monad [ST] ([Ok] of a result and the
    state after, or the reason why the code cannot go on: a failed [BUG_ON], a
    NULL or freed pointer, a broken list, a segmentation fault), its lemmas,
    functional update of records, words and bytes.
    [RBTree]: kernel red-black trees, as their in-order sequence ([RBOps] gives
    the kernel's two operations, [RBLaws] what they do to that sequence), and
    the searches the driver writes out itself.

    The allocator of [driver/binder.c] (lines 450 to 1060 or so).
    [BinderAlloc]: buffers, [binder_alloc_buf], [binder_free_buf],
    [binder_update_page_range] and what they call, over [alloc], the part of
    [struct binder_proc] they use.  [BinderAllocPages], [BinderAllocInv],
    [BinderAllocFree], [BinderAllocTake]: geometry and pages, the invariant
    [alloc_wf], and its preservation by freeing and allocating.
    [BinderAllocSpec]: the abstract allocator, a set of disjoint extents, and
    the refinement.

    The driver.  [BinderUapi]: numbers and records of [binder.h] in the 32 bit
    layout that the tree is configured for.  [BinderState]: global variables,
    the objects by address ([binder_proc], [binder_thread], [binder_node],
    [binder_ref], [binder_transaction], [binder_work], ...), intrusive lists by
    address of their head, counters.  [BinderKernel]: the rest of the kernel as
    a type class [Kernel], access to objects, lists and user memory, small
    helpers.  [BinderObject]: nodes and references.  [BinderTransaction]:
    transactions, their buffers and their errors.  [BinderWrite] and
    [BinderRead]: the two halves of [BINDER_WRITE_READ].  [BinderLifecycle]:
    the file operations, threads, the deferred works and the death of a
    process.  [BinderExamples]: a concrete kernel and a concrete call.

    Theorems on the driver.  [BinderFrames]: postconditions and frames by
    composition, with the interface [UserFrame].  [BinderWriteSpec]: the command
    loop without fuel, and the commands that [*consumed] stands for.  [BinderReadSpec]: reading stays in the
    buffer of the caller; [BinderReadEnds]: it ends.  [BinderProtocol]: the
    protocol of node counts and the one of looper threads.  [BinderBuffers],
    [BinderReplySpec]: failed replies.  [BinderObjectInv], [BinderObjectSpec],
    [BinderObjectRuns]: the invariant of nodes, references and trees, kept by all
    reference counting.  [BinderTranslateSpec]: binders on their way from one
    process to another.

    The service manager.  [UserMem]: memory of a process.  [BinderIo],
    [BinderIoSpec] ([binder.c] of the service manager, [bio_*]): messages.
    [BinderClient], [BinderClientSpec] (same file, [binder_*]): the client of
    the driver, proved against the interface [Driver].  [ServiceManager]
    ([service_manager.c]) with [SvcRegistry], [ServiceManagerSpec],
    [ServiceManagerAnswers] and [ServiceManagerDemo].  [BinderTestClient]
    ([bctest.c]).  [BinderSystem] composes the parts: the interface [Driver] of
    the client library is implemented by the model of the driver, and a
    [BINDER_WRITE_READ] that would sleep lets the service manager run first.

    The library, messages.  [Parcel] ([Parcel.cpp], with the constants of
    [Parcel.h] and [Errors.h] and [IPCThreadState::freeBuffer], the owner of
    received data) with [ParcelSpec] (what a parcel contains, [ParcelRep.rep]),
    [ParcelRead], [ParcelRuns] and [ParcelSafety].

    The library, processes.  [IpcState]: what one thread of a process keeps of
    [ProcessState], [IPCThreadState] and its proxies, and [talkWithDriver] over
    the interface [Device].  [BpBinder] ([BpBinder.cpp] and the table of proxies
    of [ProcessState.cpp]) with [BpBinderSpec] (counting), [BpBinderInv] (the
    invariant), [BpBinderRuns], [BpBinderDeaths], [BpBinderClient] (all a program
    can do with proxies) and [BpBinderDemo].  [IpcThread] ([IPCThreadState.cpp]):
    the command loop; handlers are programs of the free monad [user], whose calls
    into the library the loop carries out.  [IpcThreadSpec] and [IpcAnswers]:
    theorems on it.  [IpcSystem] puts [Parcel], threads, driver and service
    manager together.

    The library, shared memory.  [MemoryDealer] ([MemoryDealer.cpp]): chunks
    linked by pointers, [SimpleBestFitAllocator] and the [Allocation]s.
    [MemoryDealerList]: the list the pointers represent, and what each operation
    of [LinkedList] does to it.  [MemoryDealerSpec]: chunks tile the heap; [alloc]
    and [dealloc].  [MemoryDealerRuns]: runs of clients.

    Support code.  [RefBase] ([RefBase.cpp]): counting references, one step for
    every atomic operation, with [RefBaseSpec].  [Unicode] ([Unicode.cpp]) with
    [UnicodeSpec] (the encodings, and single code points) and [UnicodeRuns]
    (whole strings).

    Vectors.  [VectorImpl] ([VectorImpl.cpp], [SharedBuffer.cpp] and the moves of
    [TypeHelpers.h]): vectors that share counted blocks until one is edited; a cell
    of a block is raw memory or holds an object.  [VectorSpec]: making, destroying
    and moving objects, and the relation between vectors and lists.
    [VectorStorage]: the blocks; after each operation the vector is the only user
    of one.  [VectorOps]: [_grow] and [_shrink].  [VectorRefine]: single operations
    as ones on lists.  [VectorPrograms]: any sequence of them.  [VectorSort] and
    [VectorSorted]: [sort] and [SortedVectorImpl].  [VectorRuns]: runs, and the
    inputs that go wrong.

    The cache of blobs.  [BlobCache] ([BlobCache.cpp]) is a client of the interface
    [SortedVector]; its laws [SortedVectorLaws] are in [BlobCacheSpec], with the
    invariant, [set] and [get].  [BlobCacheRead]: [flatten] and [unflatten].  [BlobCacheVector] implements the interface by the vectors of
    [VectorImpl].  [BlobCacheRuns]: runs.

    ** What the theorems show

    - The allocator: in every run of clients that free what they hold no
      [BUG_ON] fails, buffers in use are disjoint and mapped, allocating returns
      the best fit, and fails only for a reason the code documents.
    - Reference counting of the driver: in every run of the counting calls on
      live objects nothing oopses and nodes, references and trees agree, as long
      as no counter is taken past [INT_MAX]; what a process does by taking one
      there is shown.  A binder that is sent names to the receiver the node it
      named to the sender.
    - Commands and works: the command loop consumes whole commands and stops for
      the reasons it tells; reading writes inside the buffer and ends; the
      announcements to owners of nodes and the states of looper threads follow
      their protocols; a failed reply reaches the nearest sender that is left, the
      search for it ends, and the rest of the state stays as it was.
    - The service manager: whatever arrives, a name is registered only for a
      sender that the table of users lets pass, and it is shown when that lets a
      part of a name pass; well-formed requests are answered as they should be;
      the parser handles what the driver writes; messages read back, and never
      leave their buffer.
    - Parcels: what is written reads back; references are released once,
      wherever memory ran out; the readers of words, C strings, UTF-8 strings,
      objects and bytes stay inside a message of whole words whatever it holds;
      the readers of UTF-16 strings and of exception headers do not, nor C strings
      in other messages, as examples show.
    - [RefBase]: threads that share an object, which got its first strong
      reference before, never use it after it was freed, whatever the
      interleaving, and it is freed once, with the last reference.
    - Proxies: after any calls that the references of a program permit, the table
      of proxies is well formed, the commands written to the driver add up to what
      the live proxies need, and an obituary reaches each linked recipient once.
    - Threads: an answer of the driver is what [transact] returns, a refused call
      loses nothing that was queued, and a thread that served other callers while
      it waited has the identity of its own caller back.
    - The compositions, as runs of concrete programs: a service that was
      published is found and called by another process through the model of the
      driver, and is forgotten when it exits, with the C library of the service manager ([BinderSystem]) and with
      [libbinder] ([IpcSystem]).
    - Shared memory: in a heap that could be mapped, for requests that do not wrap
      around, allocations never overlap, no call touches memory that is kept, and
      what is given back is merged to one chunk again.
    - Strings: well-formed UTF-16 and UTF-32 come back from UTF-8, and a buffer of
      the size that was measured is not left, whatever the bytes.
    - Vectors: in every program of operations that [vop_spec] describes, on items
      of all kinds, each vector
      is a list of its own although copies share storage; objects are made once
      and destroyed once, and no block is left behind; sorting is stable, sorted
      vectors keep one item of each kind, and the binary search ends.  Given are
      the inputs for which the code does not keep this: vectors appended to
      themselves, no items inserted or removed, counts and blocks that wrap around,
      memory that is short.
    - The cache: its size is that of its entries and within the limit, [set] ends
      whatever it evicts, evicts only for a pair that needs it and keeps every
      small pair, [get] finds what is there, a flattened cache reads back, and no bytes make an empty
      cache read outside of its buffer; a cache that had entries, or an error, is
      shown to divide by zero later.

    ** Numbers, bounds and fuel

    A machine integer is a [Z], with its wrap-around written where the code can
    reach it ([size_t], [uint32_t] and user pointers modulo [2 ^ 32]; the [int]
    counters of nodes and references in the driver wrap by [int_inc] and
    [int_dec]; the bytes that [malloc] is asked for in [SharedBuffer] include the
    header and wrap; kernel addresses are not wrapped, the driver only does
    arithmetic within its area).  Not wrapped are the driver's debug ids,
    statistics and counts of threads, which take [2 ^ 31] of the events they
    count, and the lengths that the string converters return, for strings below
    [2 ^ 31] bytes.
    Most loops walk lists or trees and are structural.  Those that are not take
    fuel, and running out is the outcome [Fuel], never a value: a theorem that
    the result is [Ok] says that the fuel is enough.  Page loops have
    [page_fuel], one more than the pages of the range; lists that are emptied
    have the length of the list; the search of [binder_send_failed_reply] has the
    number of transactions, which is proved enough in any state; the command
    loop and the parser have one unit per 4 bytes of their buffer; reading takes
    its fuel as an argument, for it may sleep and be woken again.  A thread of
    the library may serve transactions inside transactions to any depth: its
    functions take a number of levels and of rounds, and an answer that comes
    with some number is the same with every larger one.  Walks along the chunks
    of shared memory have the number of chunks, conversions of strings the
    length of the string, the binary search the number of items, [clean] one more
    than the number of entries, and the loop of [set] two turns, since nothing is
    left to clean after [clean].

    ** Parameters

    [RBOps] (the kernel's trees), [Kernel] (file tables, priorities, user
    identities, pages, the sleep in [wait_event], and what an uninitialised
    variable of the stack holds), [Arch] (4 or 8 byte kernel pointers),
    [Driver] (open, map and ioctl of the client library, implemented in
    [BinderSystem]), [Frames] and [ClientFrame] (where the compiler puts local
    buffers), [Process] (what the allocator leaves in new memory, whether
    [realloc] of 0 bytes frees, and the answers of the table of proxies),
    [Device] ([/dev/binder] as [libbinder] uses it, implemented in [IpcSystem]),
    [Machine] (where objects and their [weakref_impl] are, the room of the table
    of proxies, who the process is), [Reliable] (a driver that takes what it is
    given, for the theorems that count what it was told), the functions of the
    program (what an object answers to a transaction, what it does about a death),
    [operator_new] and [pagesize] of shared memory, whether [char] has a sign,
    [malloc], the size, the traits and the order of the items of a vector, and
    [SortedVector], the vector of the cache (implemented in [BlobCacheVector]).
    A theorem that relies on one of them says so by a hypothesis, and has a
    witness with concrete ones.

    ** Not modelled

    Of the driver: locks (an operation runs as a whole, as it does under
    [binder_main_lock]; the code that gives the lock up while it waits is
    modelled by the steps of [wait_event]), debugfs output and trace points;
    that padding bytes inside a buffer are what was in its page; that
    [copy_from_user] of [BINDER_SET_MAX_THREADS] may copy a part.  Messages that
    are logged are modelled only where computing them reads an object.  Of the
    service manager: its trace output, which is compiled out.

    Of [Parcel.cpp]: [print], and the release of mapped blobs; [realloc] is taken
    to move its block always, the owner of received data is
    [IPCThreadState::freeBuffer], [appendFrom] takes another parcel, and the
    header of a native handle with a negative count is a fault.  Of the rest of
    [libbinder]: printing and dumping, thread-local storage (a thread is given
    its [IPCThreadState]), several threads of one process at a time (they share
    proxies under a lock; the counters they share without one are those of
    [RefBase]), named context objects, the interface descriptor that a proxy
    caches, objects attached to a [BBinder], assertions ([ALOG_ASSERT], which the
    default build compiles out), [BpRefBase], the objects of a reply
    parcel, and the proxies and stubs of single interfaces; the mapping of shared
    memory is system calls.

    Of the vectors: [SharedBuffer::edit] and [reset], which they do not use, the
    templates that only forward, and assertions, which are compiled out; [realloc]
    is taken to move its block, and counts of users do not reach [2 ^ 31].  Of the
    cache: the counts of its blobs, which are those of [RefBase], and the failure
    of their allocation.

    The rest of the repository is not modelled: [liblog], [libcutils],
    [libcorkscrew] and what is left of [libutils], mostly wrappers of system
    calls; the services, the runtime and their tests; the interface compiler
    [aidl]. *)
From stdpp Require Export base tactics numbers list sorting fin_maps gmap.
From Stdlib Require Export ZArith Lia.

Declare Scope cdroid_scope.
Delimit Scope cdroid_scope with cdroid.

(** ** Outcomes: a value, or a kernel oops *)

(** Why a modelled computation cannot go on.  [Bug] is a failed [BUG_ON] or an
    executed [BUG()]; [Null_deref] a dereference of a null or freed object;
    [Bad_list] a corruption of an intrusive list; [Bad_page] a page array used
    out of range or a page freed twice; [Bad_access] an access of user memory
    that is not mapped; [Bad_env] an answer the environment
    cannot give (a fresh address that is in use); [Fuel] an exhausted bound,
    proved impossible where a bound is used. *)
Inductive oops : Type :=
| Bug
| Null_deref
| Bad_list
| Bad_page
| Bad_access
| Bad_env
| Fuel.

Inductive res (A : Type) : Type :=
| Ok (a : A)
| Oops (o : oops).
Arguments Ok {A} a.
Arguments Oops {A} o.

#[export] Instance oops_eq_dec : EqDecision oops.
Proof. solve_decision. Defined.

#[export] Instance res_ret : MRet res := @Ok.
#[export] Instance res_bind : MBind res := λ A B f m,
  match m with Ok a => f a | Oops o => Oops o end.

(** ** State computations over a state type, with oopses *)

Definition ST (S A : Type) : Type := S → res (A * S).

#[export] Instance st_ret {S} : MRet (ST S) := λ A a s, Ok (a, s).
#[export] Instance st_bind {S} : MBind (ST S) := λ A B f m s,
  match m s with Ok (a, s') => f a s' | Oops o => Oops o end.

Definition fail {S A} (o : oops) : ST S A := λ _, Oops o.
Definition gets {S A} (f : S → A) : ST S A := λ s, Ok (f s, s).
Definition modify {S} (f : S → S) : ST S unit := λ s, Ok (tt, f s).

(** [BUG_ON(b)]. *)
Definition bug_on {S} (b : bool) : ST S unit := if b then fail Bug else mret tt.

(** [if (b) m]. *)
Definition when {S} (b : bool) (m : ST S unit) : ST S unit := if b then m else mret tt.

(** The value of an optional, an oops when there is none. *)
Definition the {S A} (o : oops) (x : option A) : ST S A :=
  match x with Some a => mret a | None => fail o end.

(** A loop over a list, in order. *)
Fixpoint for_each {S A} (f : A → ST S unit) (l : list A) : ST S unit :=
  match l with
  | [] => mret tt
  | x :: l' => f x ;; for_each f l'
  end.

(** ** Record updates *)

(** The identity of a record type, field by field. *)
Class Eta (R : Type) : Type := eta : R → R.
(** [update f g r] applies [g] to the field [f] of [r]. *)
Class Field {R T : Type} (f : R → T) : Type := update : (T → T) → R → R.
#[global] Arguments update {R T} f {_} g r.

Ltac derive_field :=
  match goal with
  | |- @Field ?R ?T ?f =>
      let i := constr:(_ : Eta R) in
      let e := eval hnf in i in
      let p := eval pattern f in e in
      match p with
      | ?h f => let t := eval cbv beta in (λ (g : T → T) (r : R), h (λ r', g (f r')) r) in exact t
      end
  end.

Declare Scope update_scope.
Delimit Scope update_scope with upd.
Notation "r <| f := v |>" := (update f (λ _, v) r) (at level 12, f at next level, left associativity).
Notation "r <| f %= g |>" := (update f g r) (at level 12, f at next level, left associativity).

(** ** Running a computation *)

(** The result of a computation that does not oops, the state after it. *)
Definition value_of {S A} (d : A) (m : ST S A) (s : S) : A := match m s with Ok (a, _) => a | Oops _ => d end.
Definition state_after {S A} (m : ST S A) (s : S) : S := match m s with Ok (_, s') => s' | Oops _ => s end.

(** Whether a computation ends without an oops with the value [d]; what it does then. *)
Definition returns {S A} (d : A) `{EqDecision A} (m : ST S A) (s : S) : bool :=
  match m s with Ok (a, _) => bool_decide (a = d) | Oops _ => false end.

Lemma returns_ok {S A} (d : A) `{EqDecision A} (m : ST S A) s : returns d m s = true → m s = Ok (d, state_after m s).
Proof. unfold returns, state_after. destruct (m s) as [[a s']|]; [|done]. by intros ->%bool_decide_eq_true. Qed.

(** Runs that do not exhaust a bound. *)
Definition no_fuel {S A} (m : ST S A) (s : S) : Prop := m s ≠ Oops Fuel.

(** ** Machine integers *)

Definition u32 (x : Z) : Z := x `mod` 2 ^ 32.
Definition u16 (x : Z) : Z := x `mod` 2 ^ 16.
Definition u8 (x : Z) : Z := x `mod` 2 ^ 8.
Definition s32 (x : Z) : Z := (x + 2 ^ 31) `mod` 2 ^ 32 - 2 ^ 31.
Definition is_s32 (x : Z) : Prop := (- 2 ^ 31 ≤ x < 2 ^ 31)%Z.

(** [++] and [--] on an [int], which wraps around. *)
Definition int_inc (x : Z) : Z := s32 (x + 1)%Z.
Definition int_dec (x : Z) : Z := s32 (x - 1)%Z.

(** The kernel macro [ALIGN(x, a)], [a] a power of two. *)
Definition ALIGN (x a : Z) : Z := Z.land (x + (a - 1)) (Z.lnot (a - 1)).

Definition PAGE_SIZE : Z := 4096.
Definition PAGE_SHIFT : Z := 12.
(** [x & PAGE_MASK] and [PAGE_ALIGN(x)]. *)
Definition page_mask (x : Z) : Z := Z.land x (Z.lnot (PAGE_SIZE - 1)).
Definition PAGE_ALIGN (x : Z) : Z := ALIGN x PAGE_SIZE.

(** Page aligned addresses and sizes. *)
Definition aligned (x : Z) : Prop := (x `mod` 4096 = 0)%Z.

(** Flag tests: [x & m] as a C condition. *)
Definition has_flag (x m : Z) : bool := negb (Z.land x m =? 0)%Z.

(** The C conversion of a truth value to an integer. *)
Definition b2z (b : bool) : Z := if b then 1 else 0.

(** ** Bytes: a byte is an integer in [0, 256), memory is little endian *)

Fixpoint le_bytes (n : nat) (x : Z) : list Z :=
  match n with
  | O => []
  | S n' => (x `mod` 256)%Z :: le_bytes n' (x / 256)
  end.

Fixpoint le_value (l : list Z) : Z :=
  match l with
  | [] => 0
  | b :: l' => (b + 256 * le_value l')%Z
  end.

(** [len] bytes of [l] from offset [off]. *)
Definition slice (off len : nat) (l : list Z) : list Z := take len (drop off l).

(** [l] with the bytes [bs] written at offset [off]. *)
Definition splice (off : nat) (bs l : list Z) : list Z :=
  take off l ++ bs ++ drop (off + length bs) l.

Definition get32 (off : nat) (l : list Z) : Z := le_value (slice off 4 l).
Definition put32 (off : nat) (x : Z) (l : list Z) : list Z := splice off (le_bytes 4 x) l.

(** Strings of 16 bit characters as bytes, and back. *)
Definition bytes16 (s : list Z) : list Z := concat (le_bytes 2 <$> s).
Fixpoint words16 (bs : list Z) : list Z :=
  match bs with a :: b :: bs' => le_value [a; b] :: words16 bs' | _ => [] end.

Open Scope Z_scope.

(** ** Lemmas on outcomes *)

Lemma st_bind_ok {S A B} (m : ST S A) (f : A → ST S B) s b s' :
  (m ≫= f) s = Ok (b, s') ↔ ∃ a s1, m s = Ok (a, s1) ∧ f a s1 = Ok (b, s').
Proof.
  unfold mbind, st_bind. destruct (m s) as [[a s1]|o]; split.
  - eauto.
  - intros (? & ? & [= <- <-] & ?). done.
  - done.
  - by intros (? & ? & ? & ?).
Qed.

Lemma st_bind_eq {S A B} (m : ST S A) (f : A → ST S B) s a s1 :
  m s = Ok (a, s1) → (m ≫= f) s = f a s1.
Proof. unfold mbind, st_bind. by intros ->. Qed.

Lemma no_fuel_bind {S A B} (m : ST S A) (f : A → ST S B) s :
  no_fuel m s → (∀ a s', m s = Ok (a, s') → no_fuel (f a) s') → no_fuel (m ≫= f) s.
Proof. unfold no_fuel, mbind, st_bind. destruct (m s) as [[a s']|o]; [auto|]. by intros H _ [= ->]. Qed.

(** ** Lemmas on machine integers *)

Lemma u32_small x : 0 ≤ x < 2 ^ 32 → u32 x = x.
Proof. apply Z.mod_small. Qed.

Lemma u32_range x : 0 ≤ u32 x < 2 ^ 32.
Proof. apply Z.mod_pos_bound. lia. Qed.

Lemma s32_small x : is_s32 x → s32 x = x.
Proof. unfold is_s32, s32. intros. rewrite Z.mod_small; lia. Qed.

Lemma s32_range x : is_s32 (s32 x).
Proof. unfold is_s32, s32. pose proof (Z.mod_pos_bound (x + 2 ^ 31) (2 ^ 32)). lia. Qed.

Lemma int_inc_small x : is_s32 (x + 1) → int_inc x = x + 1.
Proof. apply s32_small. Qed.

Lemma int_dec_small x : is_s32 (x - 1) → int_dec x = x - 1.
Proof. apply s32_small. Qed.

(** Counting up gives 0 from -1 only. *)
Lemma int_inc_zero x : is_s32 x → int_inc x = 0 → x = -1.
Proof.
  intros Hx E. destruct (decide (is_s32 (x + 1))) as [H|H]; [rewrite int_inc_small in E by done; lia|].
  assert (x = 2 ^ 31 - 1) as -> by (unfold is_s32 in *; lia). by compute in E.
Qed.

Lemma land_lnot_ones x k : 0 ≤ k → Z.land x (Z.lnot (2 ^ k - 1)) = 2 ^ k * (x / 2 ^ k).
Proof.
  intros Hk. replace (2 ^ k - 1) with (Z.ones k) by (rewrite Z.ones_equiv; lia).
  rewrite <- Z.ldiff_land, Z.ldiff_ones_r by lia.
  rewrite Z.shiftr_div_pow2, Z.shiftl_mul_pow2 by lia. lia.
Qed.

Lemma ALIGN_pow2 x k : 0 ≤ k → ALIGN x (2 ^ k) = 2 ^ k * ((x + (2 ^ k - 1)) / 2 ^ k).
Proof. intros Hk. unfold ALIGN. by rewrite land_lnot_ones. Qed.

Lemma page_mask_div x : page_mask x = 4096 * (x / 4096).
Proof. exact (land_lnot_ones x 12 ltac:(lia)). Qed.

Lemma PAGE_ALIGN_div x : PAGE_ALIGN x = 4096 * ((x + 4095) / 4096).
Proof. exact (ALIGN_pow2 x 12 ltac:(lia)). Qed.

Lemma ALIGN4_div x : ALIGN x 4 = 4 * ((x + 3) / 4).
Proof. exact (ALIGN_pow2 x 2 ltac:(lia)). Qed.

Lemma ALIGN8_div x : ALIGN x 8 = 8 * ((x + 7) / 8).
Proof. exact (ALIGN_pow2 x 3 ltac:(lia)). Qed.

(** Page arithmetic by [lia]: the masks become divisions by a constant. *)
Ltac page_lia :=
  unfold PAGE_SIZE, aligned in *;
  rewrite ?page_mask_div, ?PAGE_ALIGN_div in *;
  Z.to_euclidean_division_equations; lia.

(** ** Lemmas on bytes *)

Lemma length_le_bytes n x : length (le_bytes n x) = n.
Proof. revert x. induction n; intros; simpl; auto. Qed.

Lemma le_value_bytes n x : 0 ≤ x < 256 ^ Z.of_nat n → le_value (le_bytes n x) = x.
Proof.
  revert x. induction n as [|n IH]; intros x Hx.
  - simpl in *. lia.
  - cbn [le_bytes le_value]. rewrite IH.
    + pose proof (Z.div_mod x 256). lia.
    + rewrite Nat2Z.inj_succ, Z.pow_succ_r in Hx by lia.
      split; [apply Z.div_pos; lia | apply Z.div_lt_upper_bound; lia].
Qed.

Lemma le_value_range l : Forall (λ b, 0 ≤ b < 256) l → 0 ≤ le_value l < 256 ^ Z.of_nat (length l).
Proof.
  induction 1 as [|b l Hb _ IH]; cbn [le_value length]; [simpl; lia|].
  rewrite Nat2Z.inj_succ, Z.pow_succ_r by lia. lia.
Qed.

Lemma length_bytes16 s : length (bytes16 s) = (2 * length s)%nat.
Proof. unfold bytes16. induction s as [|c s IH]; [done|]. rewrite fmap_cons. cbn [concat]. rewrite length_app, length_le_bytes, IH. simpl. lia. Qed.

Lemma bytes16_app s t : bytes16 (s ++ t) = bytes16 s ++ bytes16 t.
Proof. unfold bytes16. by rewrite fmap_app, concat_app. Qed.

Lemma words16_bytes16 s : Forall (λ x, 0 ≤ x < 2 ^ 16) s → words16 (bytes16 s) = s.
Proof.
  induction 1 as [|x s Hx Hs IH]; [done|].
  change (bytes16 (x :: s)) with (x `mod` 256 :: (x / 256) `mod` 256 :: bytes16 s). cbn [words16].
  rewrite IH. f_equal. apply (le_value_bytes 2). simpl. lia.
Qed.

Lemma length_splice off bs l :
  (off + length bs ≤ length l)%nat → length (splice off bs l) = length l.
Proof.
  intros H. unfold splice. rewrite !length_app, length_take, length_drop. lia.
Qed.

Lemma slice_splice off bs l :
  (off + length bs ≤ length l)%nat → slice off (length bs) (splice off bs l) = bs.
Proof.
  intros H. unfold slice, splice.
  rewrite drop_app_ge by (rewrite length_take; lia).
  rewrite length_take, Nat.min_l, Nat.sub_diag, drop_0 by lia.
  by rewrite take_app_length.
Qed.

Lemma get32_put32 off x l :
  (off + 4 ≤ length l)%nat → 0 ≤ x < 2 ^ 32 → get32 off (put32 off x l) = x.
Proof.
  intros Hl Hx. unfold get32, put32.
  pose proof (slice_splice off (le_bytes 4 x) l) as E.
  rewrite length_le_bytes in E. rewrite E by lia.
  by apply le_value_bytes.
Qed.

(** ** Lemmas on lists *)

Lemma list_filter_ext {A} (P Q : A → Prop) `{∀ x, Decision (P x), ∀ x, Decision (Q x)} (l : list A) :
  (∀ x, x ∈ l → P x ↔ Q x) → filter P l = filter Q l.
Proof.
  induction l as [|y l IH]; intros HPQ; [done|]. rewrite !filter_cons.
  rewrite IH by (intros; apply HPQ; by right). destruct (HPQ y ltac:(by left)).
  repeat case_decide; tauto.
Qed.

Lemma list_filter_all {A} (P : A → Prop) `{∀ x, Decision (P x)} (l : list A) :
  (∀ x, x ∈ l → P x) → filter P l = l.
Proof.
  induction l as [|y l IH]; intros HP; [done|].
  rewrite filter_cons_True by (apply HP; by left). f_equal. apply IH. intros. apply HP. by right.
Qed.

Lemma list_filter_none {A} (P : A → Prop) `{∀ x, Decision (P x)} (l : list A) :
  (∀ x, x ∈ l → ¬ P x) → filter P l = [].
Proof.
  induction l as [|y l IH]; intros HP; [done|].
  rewrite filter_cons_False by (apply HP; by left). apply IH. intros. apply HP. by right.
Qed.

Lemma StronglySorted_impl {A} (R R' : A → A → Prop) (l : list A) :
  (∀ x y, x ∈ l → y ∈ l → R x y → R' x y) → StronglySorted R l → StronglySorted R' l.
Proof.
  intros HR. induction 1 as [|a l Hs IH Ha]; constructor.
  - apply IH. intros x y Hx Hy. apply HR; by right.
  - rewrite Forall_forall in *. intros x Hx. apply HR; [by left|by right|auto].
Qed.

Lemma StronglySorted_filter {A} (R : A → A → Prop) (P : A → Prop) `{∀ x, Decision (P x)} (l : list A) :
  StronglySorted R l → StronglySorted R (filter P l).
Proof.
  induction 1 as [|a l Hs IH Ha]; [constructor|]. rewrite filter_cons.
  case_decide; [|done]. constructor; [done|].
  rewrite Forall_forall in *. intros x [_ Hx]%list_elem_of_filter. auto.
Qed.

(** ** Maps *)

Lemma lookup_delete_exists {A} (m : gmap Z A) i j (Q : A → Prop) :
  (∃ x, delete i m !! j = Some x ∧ Q x) ↔ j ≠ i ∧ ∃ x, m !! j = Some x ∧ Q x.
Proof.
  destruct (decide (i = j)) as [->|Hij].
  - rewrite lookup_delete_eq. split; [by intros (? & ? & _)|by intros [? _]].
  - rewrite lookup_delete_ne by done. split; [intros H; split; [congruence|exact H]|by intros [_ H]].
Qed.

Lemma lookup_insert_exists {A} (m : gmap Z A) i j x y (Q : A → Prop) :
  m !! i = Some x → (Q y ↔ Q x) → (∃ z, <[i := y]> m !! j = Some z ∧ Q z) ↔ ∃ z, m !! j = Some z ∧ Q z.
Proof.
  intros Hi HQ. destruct (decide (i = j)) as [->|Hij].
  - rewrite lookup_insert_eq, Hi. split; intros (z & [= <-] & Hz); eexists; (split; [done|tauto]).
  - by rewrite lookup_insert_ne.
Qed.

Lemma lookup_insert_new_exists {A} (m : gmap Z A) i j y (Q : A → Prop) :
  m !! i = None → (∃ z, <[i := y]> m !! j = Some z ∧ Q z) ↔ (j = i ∧ Q y) ∨ ∃ z, m !! j = Some z ∧ Q z.
Proof.
  intros Hi. destruct (decide (i = j)) as [->|Hij].
  - rewrite lookup_insert_eq, Hi. split.
    + intros (z & [= <-] & Hz). by left.
    + intros [[_ Hy]|(z & ? & _)]; [by exists y|done].
  - rewrite lookup_insert_ne by done. split; [by right|]. intros [[-> _]|H]; done.
Qed.

(** ** Sums over the values of a map *)

Section msum.
Context {A : Type}.
Implicit Types (g : A → Z) (m : gmap Z A).

Definition msum g m : Z := map_fold (λ _ x n, g x + n) 0 m.

Lemma msum_empty g : msum g ∅ = 0.
Proof. apply map_fold_empty. Qed.

Lemma msum_insert g m i x : m !! i = None → msum g (<[i := x]> m) = g x + msum g m.
Proof. intros Hi. unfold msum. rewrite map_fold_insert_L; [done|intros; lia|done]. Qed.

Lemma msum_delete g m i x : m !! i = Some x → msum g (delete i m) = msum g m - g x.
Proof.
  intros Hi. unfold msum. rewrite (map_fold_delete_L _ _ i x m); [lia|intros; lia|done].
Qed.

Lemma msum_update g m i x y : m !! i = Some x → msum g (<[i := y]> m) = msum g m - g x + g y.
Proof.
  intros Hi. rewrite <- insert_delete_eq. rewrite msum_insert by apply lookup_delete_eq.
  rewrite (msum_delete g m i x) by done. lia.
Qed.

Lemma msum_nonneg g m : (∀ i x, m !! i = Some x → 0 <= g x) → 0 <= msum g m.
Proof.
  induction m as [|i x m Hi IH] using map_ind; intros Hg; [by rewrite msum_empty|].
  rewrite msum_insert by done. pose proof (Hg i x (lookup_insert_eq _ _ _)).
  assert (0 <= msum g m); [|lia]. apply IH. intros j y Hj. apply (Hg j). rewrite lookup_insert_ne; [done|congruence].
Qed.

Lemma msum_zero g m : (∀ i x, m !! i = Some x → g x = 0) → msum g m = 0.
Proof.
  induction m as [|i x m Hi IH] using map_ind; intros Hg; [by rewrite msum_empty|].
  rewrite msum_insert by done. rewrite (Hg i x (lookup_insert_eq _ _ _)), IH; [done|].
  intros j y Hj. apply (Hg j). rewrite lookup_insert_ne; [done|congruence].
Qed.

Lemma msum_ext g g' m : (∀ i x, m !! i = Some x → g x = g' x) → msum g m = msum g' m.
Proof.
  induction m as [|i x m Hi IH] using map_ind; intros Hg; [by rewrite !msum_empty|].
  rewrite !msum_insert by done. rewrite (Hg i x (lookup_insert_eq _ _ _)), IH; [done|].
  intros j y Hj. apply (Hg j). rewrite lookup_insert_ne; [done|congruence].
Qed.
End msum.

Create HintDb cdroid.
Create Rewrite HintDb cdroid_rw.
#[export] Hint Rewrite @length_le_bytes page_mask_div PAGE_ALIGN_div : cdroid_rw.
#[export] Hint Resolve u32_range : cdroid.
