(* ===== verification/RBTree.v ===== *)
(** Kernel red-black trees ([struct rb_root]).  The driver walks the trees
    itself; rebalancing ([rb_insert_color]) and removal ([rb_erase]) belong to
    the kernel and are parameters of the model, with the documented effect on
    the in-order sequence as laws. *)
From S2P Require Import Prelude.

Inductive tree (A : Type) : Type :=
| leaf
| node (l : tree A) (x : A) (r : tree A).
Arguments leaf {A}.
Arguments node {A} l x r.

(** The sequence [rb_first], [rb_next], ... visits. *)
Fixpoint inorder {A} (t : tree A) : list A :=
  match t with
  | leaf => []
  | node l x r => inorder l ++ x :: inorder r
  end.

(** The kernel library: [rb_insert_color] rebalances after [rb_link_node];
    [rb_erase] unlinks one node. *)
Class RBOps : Type := {
  rb_insert_color : ∀ {A}, A → tree A → tree A;
  rb_erase : ∀ {A} `{EqDecision A}, A → tree A → tree A
}.

Class RBLaws `{RBOps} : Prop := {
  inorder_insert_color : ∀ A (x : A) t, inorder (rb_insert_color x t) = inorder t;
  inorder_erase : ∀ A `{EqDecision A} (x : A) t,
    NoDup (inorder t) → inorder (rb_erase x t) = filter (λ y, y ≠ x) (inorder t)
}.

(** The search loop of the driver: at each node, [cmp x] tells whether to go
    left ([Lt]), right ([Gt]) or stop. *)
Fixpoint rb_find {A} (cmp : A → comparison) (t : tree A) : option A :=
  match t with
  | leaf => None
  | node l x r =>
      match cmp x with
      | Lt => rb_find cmp l
      | Gt => rb_find cmp r
      | Eq => Some x
      end
  end.

(** [rb_link_node] at the null link the insertion loop reaches; [None] when
    the loop finds an equal key. *)
Fixpoint rb_link {A} (cmp : A → comparison) (new : A) (t : tree A) : option (tree A) :=
  match t with
  | leaf => Some (node leaf new leaf)
  | node l x r =>
      match cmp x with
      | Lt => (λ l', node l' x r) <$> rb_link cmp new l
      | Gt => (λ r', node l x r') <$> rb_link cmp new r
      | Eq => None
      end
  end.

(** The nodes a search or insertion loop visits, in order. *)
Fixpoint rb_path {A} (cmp : A → comparison) (t : tree A) : list A :=
  match t with
  | leaf => []
  | node l x r =>
      x :: match cmp x with
           | Lt => rb_path cmp l
           | Gt => rb_path cmp r
           | Eq => []
           end
  end.

(** [rb_first]. *)
Definition rb_first {A} (t : tree A) : option A := head (inorder t).

(** ** Searching *)

Section search.
Context {A : Type}.
Implicit Types (cmp : A → comparison) (t : tree A) (l : list A) (x y : A).

(** The rank of an answer: elements to the left answer [Gt] ("go right"). *)
Definition rank (c : comparison) : Z := match c with Gt => 1 | Eq => 0 | Lt => -1 end.

(** [cmp] cuts a sequence in three: [Gt], then [Eq], then [Lt]. *)
Definition monotone cmp l : Prop := StronglySorted (λ x y, rank (cmp y) <= rank (cmp x)) l.

Lemma rb_path_inorder cmp t x : x ∈ rb_path cmp t → x ∈ inorder t.
Proof.
  induction t as [|l IHl y r IHr]; simpl; [done|]. rewrite elem_of_app, !elem_of_cons.
  destruct (cmp y); rewrite ?elem_of_nil; tauto.
Qed.

Lemma rb_find_Some cmp t x : rb_find cmp t = Some x → x ∈ inorder t ∧ cmp x = Eq.
Proof.
  induction t as [|l IHl y r IHr]; simpl; [done|]. rewrite elem_of_app, elem_of_cons.
  destruct (cmp y) eqn:E; intros H; [simplify_eq; eauto| |].
  - apply IHl in H. tauto.
  - apply IHr in H. tauto.
Qed.

Lemma rb_find_None cmp t :
  monotone cmp (inorder t) → rb_find cmp t = None → ∀ x, x ∈ inorder t → cmp x ≠ Eq.
Proof.
  unfold monotone. induction t as [|l IHl y r IHr]; simpl; [intros ?? x Hx; by apply not_elem_of_nil in Hx|].
  intros (Hlr & Hl & [Hy Hr]%StronglySorted_cons)%StronglySorted_app.
  rewrite Forall_forall in Hy; cbv beta in Hy.
  intros Hf x [Hx|[->|Hx]%elem_of_cons]%elem_of_app; destruct (cmp y) eqn:E; try done; eauto.
  - specialize (Hlr x y Hx (list_elem_of_here _ _)). cbv beta in Hlr. rewrite E in Hlr.
    intros Ex. rewrite Ex in Hlr. simpl in Hlr. lia.
  - specialize (Hy x Hx). intros Ex. rewrite Ex in Hy. simpl in Hy. lia.
Qed.

Lemma rb_link_Some cmp new t t' :
  rb_link cmp new t = Some t' →
  ∃ l1 l2, inorder t = l1 ++ l2 ∧ inorder t' = l1 ++ new :: l2 ∧
    (monotone cmp (inorder t) → (∀ x, x ∈ l1 → cmp x = Gt) ∧ (∀ x, x ∈ l2 → cmp x = Lt)).
Proof.
  unfold monotone. revert t'. induction t as [|l IHl y r IHr]; simpl; intros t' H.
  - simplify_eq. exists [], []. split_and!; [done..|].
    intros _. split; intros x Hx; by apply not_elem_of_nil in Hx.
  - destruct (cmp y) eqn:E; [done| |];
      apply fmap_Some in H as (u & H & ->); simpl.
    + destruct (IHl _ H) as (l1 & l2 & El & Eu & Hm). rewrite El, Eu in *.
      exists l1, (l2 ++ y :: inorder r). split_and!; [by rewrite <- app_assoc..|].
      intros (Hlr & Hl & [Hy Hr]%StronglySorted_cons)%StronglySorted_app.
      destruct (Hm Hl) as [Hm1 Hm2]. split; [done|].
      intros x [Hx|[->|Hx]%elem_of_cons]%elem_of_app; [auto..|].
      rewrite Forall_forall in Hy. specialize (Hy x Hx). cbv beta in Hy. rewrite E in Hy.
      destruct (cmp x); simpl in Hy; try done; lia.
    + destruct (IHr _ H) as (l1 & l2 & El & Eu & Hm). rewrite El, Eu in *.
      exists (inorder l ++ y :: l1), l2. split_and!; [by rewrite <- app_assoc..|].
      intros (Hlr & Hl & [Hy Hr]%StronglySorted_cons)%StronglySorted_app.
      destruct (Hm Hr) as [Hm1 Hm2]. split; [|done].
      intros x [Hx|[->|Hx]%elem_of_cons]%elem_of_app; [|done|auto].
      specialize (Hlr x y Hx (list_elem_of_here _ _)). cbv beta in Hlr. rewrite E in Hlr.
      destruct (cmp x); simpl in Hlr; try done; lia.
Qed.

Lemma rb_link_None cmp new t : rb_link cmp new t = None → ∃ x, x ∈ inorder t ∧ cmp x = Eq.
Proof.
  induction t as [|l IHl y r IHr]; simpl; [done|]. intros H.
  destruct (cmp y) eqn:E.
  - exists y. rewrite elem_of_app, elem_of_cons. tauto.
  - apply fmap_None in H. destruct (IHl H) as (x & ? & ?). exists x.
    rewrite elem_of_app. tauto.
  - apply fmap_None in H. destruct (IHr H) as (x & ? & ?). exists x.
    rewrite elem_of_app, elem_of_cons. tauto.
Qed.
End search.

(** ** Trees sorted by an integer key *)

Section keyed.
Context {A : Type} (key : A → Z).
Implicit Types (t : tree A) (l : list A) (x y : A).

(** The comparison of the driver's loops: [if (k < key) left; else if (k > key)
    right; else found]. *)
Definition by_key (k : Z) (x : A) : comparison :=
  if k <? key x then Lt else if k >? key x then Gt else Eq.

Definition sorted_by l : Prop := StronglySorted (λ x y, key x < key y) l.

Lemma by_key_eq k x : by_key k x = Eq ↔ key x = k.
Proof. unfold by_key. destruct (Z.ltb_spec k (key x)); [split; [done|lia]|]. rewrite Z.gtb_ltb. destruct (Z.ltb_spec (key x) k); split; try done; lia. Qed.

Lemma by_key_lt k x : by_key k x = Lt ↔ k < key x.
Proof. unfold by_key. destruct (Z.ltb_spec k (key x)); [done|]. rewrite Z.gtb_ltb. destruct (Z.ltb_spec (key x) k); split; try done; lia. Qed.

Lemma by_key_gt k x : by_key k x = Gt ↔ key x < k.
Proof. unfold by_key. destruct (Z.ltb_spec k (key x)); [split; [done|lia]|]. rewrite Z.gtb_ltb. destruct (Z.ltb_spec (key x) k); split; try done; lia. Qed.

Lemma sorted_by_monotone k l : sorted_by l → monotone (by_key k) l.
Proof.
  intros H. induction H as [|x l _ IH Hx]; constructor; [done|].
  eapply Forall_impl; [exact Hx|]. intros y Hy. cbv beta in *.
  destruct (by_key k x) eqn:E1, (by_key k y) eqn:E2; simpl; try lia;
    rewrite ?by_key_eq, ?by_key_lt, ?by_key_gt in *; lia.
Qed.

Lemma sorted_by_inj l x y : sorted_by l → x ∈ l → y ∈ l → key x = key y → x = y.
Proof.
  induction 1 as [|a l _ IH Ha]; [by intros ?%not_elem_of_nil|].
  rewrite Forall_forall in Ha.
  intros [->|Hx]%elem_of_cons [->|Hy]%elem_of_cons E; auto.
  - specialize (Ha y Hy). lia.
  - specialize (Ha x Hx). lia.
Qed.

Lemma sorted_by_NoDup l : sorted_by l → NoDup l.
Proof.
  induction 1 as [|a l _ IH Ha]; constructor; [|done].
  rewrite Forall_forall in Ha. intros Hin. specialize (Ha a Hin). lia.
Qed.

Lemma sorted_by_filter (P : A → Prop) `{∀ x, Decision (P x)} l : sorted_by l → sorted_by (filter P l).
Proof. apply StronglySorted_filter. Qed.

(** Searching a sorted tree finds exactly the element with the key. *)
Lemma rb_find_key k t x :
  sorted_by (inorder t) → rb_find (by_key k) t = Some x ↔ x ∈ inorder t ∧ key x = k.
Proof.
  intros Hs. split.
  - intros [? ?%by_key_eq]%rb_find_Some. done.
  - intros [Hx Hk]. destruct (rb_find (by_key k) t) as [y|] eqn:E.
    + apply rb_find_Some in E as [Hy E%by_key_eq]. f_equal.
      eapply sorted_by_inj; eauto. by rewrite Hk.
    + exfalso. eapply (rb_find_None (by_key k)); [by apply sorted_by_monotone|done|exact Hx|].
      by apply by_key_eq.
Qed.

Lemma rb_find_key_None k t :
  sorted_by (inorder t) → rb_find (by_key k) t = None ↔ ∀ x, x ∈ inorder t → key x ≠ k.
Proof.
  intros Hs. split.
  - intros E x Hx Hk. pose proof (proj2 (rb_find_key k t x Hs) (conj Hx Hk)). congruence.
  - intros H. destruct (rb_find (by_key k) t) as [y|] eqn:E; [|done].
    apply rb_find_key in E as [? ?]; [|done]. exfalso. by eapply H.
Qed.

(** Linking a new key keeps the tree sorted. *)
Lemma rb_link_key new t t' :
  sorted_by (inorder t) → rb_link (by_key (key new)) new t = Some t' →
  sorted_by (inorder t') ∧ inorder t' ≡ₚ new :: inorder t.
Proof.
  intros Hs H. apply rb_link_Some in H as (l1 & l2 & E & E' & Hm).
  destruct (Hm (sorted_by_monotone _ _ Hs)) as [H1 H2]. rewrite E in Hs. rewrite E, E'.
  split; [|by rewrite Permutation_middle].
  apply StronglySorted_app in Hs as (Hs12 & Hs1 & Hs2).
  apply StronglySorted_app. split_and!; [|done|].
  - intros x y Hx [->|Hy]%elem_of_cons; [|by apply Hs12]. by apply by_key_gt, H1.
  - apply StronglySorted_cons. split; [|done]. apply Forall_forall. intros x Hx. by apply by_key_lt, H2.
Qed.

Lemma rb_link_key_total new t :
  (∀ x, x ∈ inorder t → key x ≠ key new) → is_Some (rb_link (by_key (key new)) new t).
Proof.
  intros H. destruct (rb_link _ _ _) eqn:E; [by eexists|].
  apply rb_link_None in E as (x & Hx & ?%by_key_eq). exfalso. by eapply H.
Qed.
End keyed.

#[export] Hint Resolve sorted_by_NoDup sorted_by_filter : cdroid.

(** ** A concrete library, for the examples of the development *)

Fixpoint tree_of_list {A} (l : list A) : tree A :=
  match l with
  | [] => leaf
  | x :: l' => node leaf x (tree_of_list l')
  end.

Lemma inorder_tree_of_list {A} (l : list A) : inorder (tree_of_list l) = l.
Proof. induction l as [|x l IH]; simpl; congruence. Qed.

Definition list_rb : RBOps := {|
  rb_insert_color := λ A x t, t;
  rb_erase := λ A _ x t, tree_of_list (filter (λ y, y ≠ x) (inorder t))
|}.

Lemma list_rb_laws : @RBLaws list_rb.
Proof. split; [done|]. intros A H x t _. apply inorder_tree_of_list. Qed.
