(* ===== verification/BinderAlloc.v ===== *)
(** The transaction buffer allocator of [driver/binder.c]: the buffers of a
    process tile its mapped area, free buffers are found by best fit, pages are
    mapped and unmapped as buffers need them. *)
From S2P Require Import Prelude RBTree.

(** ** The machine *)

(** [sizeof(void * )] of the kernel, 4 or 8; the user-space ABI of this tree is
    32 bit in both cases ([CONFIG_ANDROID_BINDER_IPC_COMPAT_32]). *)
Class Arch : Type := { word : Z; word_ok : word = 4 ∨ word = 8 }.

(** Arithmetic of [size_t]. *)
Definition usz `{Arch} (x : Z) : Z := x `mod` 2 ^ (8 * word).

(** [sizeof(binder_ptr)], a [__u32]. *)
Definition sizeof_binder_ptr : Z := 4.

(** [sizeof(struct binder_buffer)], also the offset of its [data]. *)
Definition HDR `{Arch} : Z := 10 * word.

(** ** Data *)

Record binder_buffer : Type := mk_buffer {
  b_free : bool;
  b_allow_user_free : bool;
  b_async_transaction : bool;
  b_debug_id : Z;
  b_transaction : Z;
  b_target_node : Z;
  b_data_size : Z;
  b_offsets_size : Z;
  b_data : list Z
}.

Definition zero_buffer : binder_buffer := mk_buffer false false false 0 0 0 0 0 [].

(** The fields of [struct binder_proc] the allocator works on.  A buffer is
    known by the address of its header; [a_heap] holds the headers. *)
Record alloc : Type := mk_alloc {
  a_vma : bool;
  a_vma_vm_mm : Z;
  a_files : option Z;
  a_buffer : Z;
  a_user_buffer_offset : Z;
  a_buffers : list Z;
  a_heap : gmap Z binder_buffer;
  a_free_buffers : tree Z;
  a_allocated_buffers : tree Z;
  a_free_async_space : Z;
  a_pages : list bool;
  a_buffer_size : Z;
  a_stop_on_user_error : Z
}.

(** Setters, one per field the allocator writes. *)
Definition set_buffers (l : list Z) (p : alloc) : alloc :=
  mk_alloc (a_vma p) (a_vma_vm_mm p) (a_files p) (a_buffer p) (a_user_buffer_offset p) l
    (a_heap p) (a_free_buffers p) (a_allocated_buffers p) (a_free_async_space p) (a_pages p)
    (a_buffer_size p) (a_stop_on_user_error p).
Definition set_heap (h : gmap Z binder_buffer) (p : alloc) : alloc :=
  mk_alloc (a_vma p) (a_vma_vm_mm p) (a_files p) (a_buffer p) (a_user_buffer_offset p) (a_buffers p)
    h (a_free_buffers p) (a_allocated_buffers p) (a_free_async_space p) (a_pages p)
    (a_buffer_size p) (a_stop_on_user_error p).
Definition set_free_buffers (t : tree Z) (p : alloc) : alloc :=
  mk_alloc (a_vma p) (a_vma_vm_mm p) (a_files p) (a_buffer p) (a_user_buffer_offset p) (a_buffers p)
    (a_heap p) t (a_allocated_buffers p) (a_free_async_space p) (a_pages p)
    (a_buffer_size p) (a_stop_on_user_error p).
Definition set_allocated_buffers (t : tree Z) (p : alloc) : alloc :=
  mk_alloc (a_vma p) (a_vma_vm_mm p) (a_files p) (a_buffer p) (a_user_buffer_offset p) (a_buffers p)
    (a_heap p) (a_free_buffers p) t (a_free_async_space p) (a_pages p)
    (a_buffer_size p) (a_stop_on_user_error p).
Definition set_free_async_space (n : Z) (p : alloc) : alloc :=
  mk_alloc (a_vma p) (a_vma_vm_mm p) (a_files p) (a_buffer p) (a_user_buffer_offset p) (a_buffers p)
    (a_heap p) (a_free_buffers p) (a_allocated_buffers p) n (a_pages p)
    (a_buffer_size p) (a_stop_on_user_error p).
Definition set_pages (l : list bool) (p : alloc) : alloc :=
  mk_alloc (a_vma p) (a_vma_vm_mm p) (a_files p) (a_buffer p) (a_user_buffer_offset p) (a_buffers p)
    (a_heap p) (a_free_buffers p) (a_allocated_buffers p) (a_free_async_space p) l
    (a_buffer_size p) (a_stop_on_user_error p).
Definition set_stop (n : Z) (p : alloc) : alloc :=
  mk_alloc (a_vma p) (a_vma_vm_mm p) (a_files p) (a_buffer p) (a_user_buffer_offset p) (a_buffers p)
    (a_heap p) (a_free_buffers p) (a_allocated_buffers p) (a_free_async_space p) (a_pages p)
    (a_buffer_size p) n.

Definition set_free (v : bool) (b : binder_buffer) : binder_buffer :=
  mk_buffer v (b_allow_user_free b) (b_async_transaction b) (b_debug_id b) (b_transaction b)
    (b_target_node b) (b_data_size b) (b_offsets_size b) (b_data b).

(** What the kernel answers while pages are mapped: the memory map of the task
    ([get_task_mm]), the outcome for each page of [alloc_page], [map_vm_area]
    and [vm_insert_page], and what memory holds where a new header is placed. *)
Inductive page_outcome : Type :=
| Page_ok
| Alloc_page_fails
| Map_kernel_fails
| Insert_user_fails.

Record page_env : Type := mk_env {
  e_task_mm : option Z;
  e_page : Z → page_outcome;
  e_stale : Z → binder_buffer
}.

(** Setters for [binder_mmap] and the callbacks of the mapping. *)
Definition set_area (buffer offset : Z) (p : alloc) : alloc :=
  mk_alloc (a_vma p) (a_vma_vm_mm p) (a_files p) buffer offset (a_buffers p)
    (a_heap p) (a_free_buffers p) (a_allocated_buffers p) (a_free_async_space p) (a_pages p)
    (a_buffer_size p) (a_stop_on_user_error p).
Definition set_buffer_size (n : Z) (p : alloc) : alloc :=
  mk_alloc (a_vma p) (a_vma_vm_mm p) (a_files p) (a_buffer p) (a_user_buffer_offset p) (a_buffers p)
    (a_heap p) (a_free_buffers p) (a_allocated_buffers p) (a_free_async_space p) (a_pages p)
    n (a_stop_on_user_error p).
Definition set_mapped (files mm : Z) (p : alloc) : alloc :=
  mk_alloc true mm (Some files) (a_buffer p) (a_user_buffer_offset p) (a_buffers p)
    (a_heap p) (a_free_buffers p) (a_allocated_buffers p) (a_free_async_space p) (a_pages p)
    (a_buffer_size p) (a_stop_on_user_error p).

Definition EPERM : Z := 1.
Definition EINTR : Z := 4.
Definition EBADF : Z := 9.
Definition EAGAIN : Z := 11.
Definition ENOMEM : Z := 12.
Definition EFAULT : Z := 14.
Definition EBUSY : Z := 16.
Definition EINVAL : Z := 22.
Definition EMFILE : Z := 24.
Definition ESRCH : Z := 3.
Definition ERESTARTSYS : Z := 512.

Definition SZ_4M : Z := 4194304.
(** [VM_WRITE]. *)
Definition FORBIDDEN_MMAP_FLAGS : Z := 2.

(** ** Doubly linked lists, in order *)

Definition list_is_last (x : Z) (l : list Z) : bool := bool_decide (last l = Some x).

Fixpoint list_next (x : Z) (l : list Z) : option Z :=
  match l with
  | y :: ((z :: _) as l') => if y =? x then Some z else list_next x l'
  | _ => None
  end.

Fixpoint list_prev (x : Z) (l : list Z) : option Z :=
  match l with
  | y :: ((z :: _) as l') => if z =? x then Some y else list_prev x l'
  | _ => None
  end.

(** [list_add(&new->entry, &at->entry)]. *)
Fixpoint list_add (new at_ : Z) (l : list Z) : list Z :=
  match l with
  | [] => []
  | y :: l' => if y =? at_ then y :: new :: l' else y :: list_add new at_ l'
  end.

Definition list_del (x : Z) (l : list Z) : list Z := filter (λ y, y ≠ x) l.

Section alloc.
Context {AR : Arch} {RB : RBOps}.

(** [binder_user_error]. *)
Definition alloc_user_error : ST alloc unit :=
  modify (λ p, if a_stop_on_user_error p =? 0 then p else set_stop 2 p).

Definition buf (b : Z) : ST alloc binder_buffer :=
  gets (λ p, a_heap p !! b) ≫= the Null_deref.

Definition upd_buf (b : Z) (f : binder_buffer → binder_buffer) : ST alloc unit :=
  x ← buf b; modify (λ p, set_heap (<[b := f x]> (a_heap p)) p).

Definition binder_buffer_size (p : alloc) (b : Z) : Z :=
  if list_is_last b (a_buffers p) then usz (a_buffer p + a_buffer_size p - (b + HDR))
  else usz (default 0 (list_next b (a_buffers p)) - (b + HDR)).

(** [BUG_ON(!buffer->free)] or [BUG_ON(buffer->free)] at each node of a walk. *)
Definition check_free (v : bool) (b : Z) : ST alloc unit :=
  x ← buf b; bug_on (negb (eqb (b_free x) v)).

Definition free_cmp (p : alloc) (new_buffer_size : Z) (b : Z) : comparison :=
  if new_buffer_size <? binder_buffer_size p b then Lt else Gt.

Definition binder_insert_free_buffer (new_buffer : Z) : ST alloc unit :=
  check_free true new_buffer ;;
  p ← gets id;
  let cmp := free_cmp p (binder_buffer_size p new_buffer) in
  for_each (check_free true) (rb_path cmp (a_free_buffers p)) ;;
  t ← the Bug (rb_link cmp new_buffer (a_free_buffers p));
  modify (set_free_buffers (rb_insert_color new_buffer t)).

Definition binder_insert_allocated_buffer (new_buffer : Z) : ST alloc unit :=
  check_free false new_buffer ;;
  p ← gets id;
  let cmp := by_key id new_buffer in
  for_each (check_free false) (rb_path cmp (a_allocated_buffers p)) ;;
  t ← the Bug (rb_link cmp new_buffer (a_allocated_buffers p));
  modify (set_allocated_buffers (rb_insert_color new_buffer t)).

Definition binder_buffer_lookup (user_ptr : Z) : ST alloc (option Z) :=
  p ← gets id;
  let kern_ptr := user_ptr - a_user_buffer_offset p - HDR in
  let cmp := by_key id kern_ptr in
  for_each (check_free false) (rb_path cmp (a_allocated_buffers p)) ;;
  mret (rb_find cmp (a_allocated_buffers p)).

(** ** Pages *)

(** [proc->pages[(page_addr - proc->buffer) / PAGE_SIZE]]. *)
Definition page_index (p : alloc) (page_addr : Z) : nat :=
  Z.to_nat ((page_addr - a_buffer p) / PAGE_SIZE).

Definition page_at (page_addr : Z) : ST alloc bool :=
  p ← gets id;
  if page_addr <? a_buffer p then fail Bad_page
  else the Bad_page (a_pages p !! page_index p page_addr).

Definition set_page (page_addr : Z) (v : bool) : ST alloc unit :=
  modify (λ p, set_pages (<[page_index p page_addr := v]> (a_pages p)) p).

(** [__free_page( *page); *page = NULL]. *)
Definition free_page (page_addr : Z) : ST alloc unit :=
  b ← page_at page_addr; if (b : bool) then set_page page_addr false else fail Bad_page.

(** The loop at [free_range], from [page_addr] down to [start]. *)
Fixpoint free_range (fuel : nat) (start page_addr : Z) : ST alloc unit :=
  match fuel with
  | O => fail Fuel
  | S fuel' =>
      if page_addr >=? start then
        free_page page_addr ;; free_range fuel' start (page_addr - PAGE_SIZE)
      else mret tt
  end.

(** The loop that maps pages; a failure at a page jumps into the body of the
    loop above, which goes on with the page before. *)
Fixpoint alloc_range (e : page_env) (fuel : nat) (start page_addr end_ : Z) : ST alloc bool :=
  match fuel with
  | O => fail Fuel
  | S fuel' =>
      if page_addr <? end_ then
        b ← page_at page_addr; bug_on b ;;
        let undo := free_range (S (Z.to_nat ((page_addr - start) / PAGE_SIZE))) start
                      (page_addr - PAGE_SIZE) ;; mret false in
        match e_page e page_addr with
        | Alloc_page_fails => undo
        | Map_kernel_fails | Insert_user_fails =>
            set_page page_addr true ;; free_page page_addr ;; undo
        | Page_ok =>
            set_page page_addr true ;; alloc_range e fuel' start (page_addr + PAGE_SIZE) end_
        end
      else mret true
  end.

Definition page_fuel (start end_ : Z) : nat := S (S (Z.to_nat ((end_ - start) / PAGE_SIZE))).

(** [vma] is whether the caller passes one. *)
Definition binder_update_page_range (e : page_env) (allocate : bool) (start end_ : Z) (vma : bool) :
    ST alloc Z :=
  if end_ <=? start then mret 0
  else
    p ← gets id;
    let vma :=
      if vma then true
      else match e_task_mm e with
           | None => false
           | Some mm => a_vma p && (mm =? a_vma_vm_mm p)
           end in
    if allocate then
      if negb vma then mret (- ENOMEM)
      else
        ok ← alloc_range e (page_fuel start end_) start start end_;
        mret (if (ok : bool) then 0 else - ENOMEM)
    else
      free_range (page_fuel start end_) start (end_ - PAGE_SIZE) ;;
      mret (- ENOMEM).

(** ** Allocation *)

(** The best fit loop: the best node so far, and whether the loop stopped at an
    exact fit ([n != NULL]). *)
Fixpoint best_fit (p : alloc) (size : Z) (n : tree Z) (best : option Z) : option Z * bool :=
  match n with
  | leaf => (best, false)
  | node l b r =>
      let buffer_size := binder_buffer_size p b in
      if size <? buffer_size then best_fit p size l (Some b)
      else if size >? buffer_size then best_fit p size r best
      else (Some b, true)
  end.

Definition fit_cmp (p : alloc) (size : Z) (b : Z) : comparison :=
  if size <? binder_buffer_size p b then Lt
  else if size >? binder_buffer_size p b then Gt else Eq.

(** The aligned size of a request, in [size_t]; [a] is the alignment. *)
Definition request_size (a data_size offsets_size : Z) : Z :=
  usz (usz (ALIGN data_size a) + usz (ALIGN offsets_size a)).

(** The part of [binder_alloc_buf] after the pages are mapped: move the buffer
    to the allocated tree and split off what is left. *)
Definition binder_take_buffer (e : page_env) (buffer size buffer_size : Z) : ST alloc unit :=
  modify (λ p, set_free_buffers (rb_erase buffer (a_free_buffers p)) p) ;;
  upd_buf buffer (set_free false) ;;
  binder_insert_allocated_buffer buffer ;;
  when (negb (buffer_size =? size))
    (let new_buffer := buffer + HDR + size in
     modify (λ p, set_buffers (list_add new_buffer buffer (a_buffers p)) p) ;;
     modify (λ p, set_heap (<[new_buffer := set_free true (e_stale e new_buffer)]> (a_heap p)) p) ;;
     binder_insert_free_buffer new_buffer).

Definition set_sizes (data_size offsets_size : Z) (is_async : bool) (b : binder_buffer) : binder_buffer :=
  mk_buffer (b_free b) (b_allow_user_free b) is_async (b_debug_id b) (b_transaction b)
    (b_target_node b) data_size offsets_size (b_data b).

(** The new buffer, or 0 for NULL. *)
Definition binder_alloc_buf (e : page_env) (data_size offsets_size : Z) (is_async : bool) : ST alloc Z :=
  p ← gets id;
  if negb (a_vma p) then mret 0
  else
  let size := request_size word data_size offsets_size in
  if (size <? data_size) || (size <? offsets_size) then alloc_user_error ;; mret 0
  else if is_async && (a_free_async_space p <? usz (size + HDR)) then mret 0
  else
  for_each (check_free true) (rb_path (fit_cmp p size) (a_free_buffers p)) ;;
  match best_fit p size (a_free_buffers p) None with
  | (None, _) => mret 0
  | (Some buffer, exact) =>
      let buffer_size := binder_buffer_size p buffer in
      let data := buffer + HDR in
      let has_page_addr := page_mask (data + buffer_size) in
      let buffer_size :=
        if exact then buffer_size
        else if usz (size + HDR + 4) >=? buffer_size then size else usz (size + HDR) in
      let end_page_addr := PAGE_ALIGN (data + buffer_size) in
      let end_page_addr := if end_page_addr >? has_page_addr then has_page_addr else end_page_addr in
      ret ← binder_update_page_range e true (PAGE_ALIGN data) end_page_addr false;
      if negb (ret =? 0) then mret 0
      else
        binder_take_buffer e buffer size buffer_size ;;
        upd_buf buffer (set_sizes data_size offsets_size is_async) ;;
        when is_async
          (modify (λ p, set_free_async_space (usz (a_free_async_space p - usz (size + HDR))) p)) ;;
        mret buffer
  end.

(** ** Freeing *)

Definition buffer_start_page (b : Z) : Z := page_mask b.
Definition buffer_end_page (b : Z) : Z := page_mask (b + HDR - 1).

Definition binder_delete_free_buffer (e : page_env) (buffer : Z) : ST alloc unit :=
  p ← gets id;
  bug_on (bool_decide (head (a_buffers p) = Some buffer)) ;;
  prev ← the Null_deref (list_prev buffer (a_buffers p));
  check_free true prev ;;
  let '(free_page_start, free_page_end) :=
    if buffer_end_page prev =? buffer_start_page buffer
    then (false, negb (buffer_end_page prev =? buffer_end_page buffer))
    else (true, true) in
  let '(free_page_start, free_page_end) :=
    match list_next buffer (a_buffers p) with
    | Some next =>
        if buffer_start_page next =? buffer_end_page buffer
        then (if buffer_start_page next =? buffer_start_page buffer then false else free_page_start, false)
        else (free_page_start, free_page_end)
    | None => (free_page_start, free_page_end)
    end in
  modify (λ p, set_heap (delete buffer (a_heap p)) (set_buffers (list_del buffer (a_buffers p)) p)) ;;
  when (free_page_start || free_page_end)
    (binder_update_page_range e false
       (if free_page_start then buffer_start_page buffer else buffer_end_page buffer)
       ((if free_page_end then buffer_end_page buffer else buffer_start_page buffer) + PAGE_SIZE)
       false ;; mret tt).

(** Merging with the neighbours, once [buffer] is marked free. *)
Definition binder_merge_next (e : page_env) (buffer : Z) : ST alloc unit :=
  p ← gets id;
  match list_next buffer (a_buffers p) with
  | None => mret tt
  | Some next =>
      x ← buf next;
      when (b_free x)
        (modify (λ p, set_free_buffers (rb_erase next (a_free_buffers p)) p) ;;
         binder_delete_free_buffer e next)
  end.

(** The buffer to put in the free tree: the previous one when it absorbs [buffer]. *)
Definition binder_merge_prev (e : page_env) (buffer : Z) : ST alloc Z :=
  p ← gets id;
  match list_prev buffer (a_buffers p) with
  | None => mret buffer
  | Some prev =>
      x ← buf prev;
      if b_free x then
        binder_delete_free_buffer e buffer ;;
        modify (λ p, set_free_buffers (rb_erase prev (a_free_buffers p)) p) ;;
        mret prev
      else mret buffer
  end.

Definition binder_free_buf (e : page_env) (buffer : Z) : ST alloc unit :=
  p ← gets id;
  b ← buf buffer;
  let buffer_size := binder_buffer_size p buffer in
  let size := request_size sizeof_binder_ptr (b_data_size b) (b_offsets_size b) in
  bug_on (b_free b) ;;
  bug_on (size >? buffer_size) ;;
  bug_on (negb (b_transaction b =? 0)) ;;
  bug_on (buffer <? a_buffer p) ;;
  bug_on (buffer >? a_buffer p + a_buffer_size p) ;;
  when (b_async_transaction b)
    (modify (λ p, set_free_async_space (usz (a_free_async_space p + usz (size + HDR))) p)) ;;
  binder_update_page_range e false (PAGE_ALIGN (buffer + HDR))
    (page_mask (buffer + HDR + buffer_size)) false ;;
  modify (λ p, set_allocated_buffers (rb_erase buffer (a_allocated_buffers p)) p) ;;
  upd_buf buffer (set_free true) ;;
  binder_merge_next e buffer ;;
  buffer ← binder_merge_prev e buffer;
  binder_insert_free_buffer buffer.

(** ** Mapping the area *)

(** [struct vm_area_struct], as the driver uses it. *)
Record vm_area : Type := mk_vm_area { vm_start : Z; vm_end : Z; vm_flags : Z; vm_mm : Z }.

(** [binder_mmap].  [is_owner] is [proc->tsk == current]; [area] the address
    [get_vm_area] returns (0 for NULL); [pages_ok] whether the page array can be
    allocated; [files] the table of files of the task. *)
Definition binder_mmap (e : page_env) (is_owner : bool) (vma : vm_area) (area : Z) (pages_ok : bool)
    (files : Z) : ST alloc Z :=
  if negb is_owner then mret (- EINVAL)
  else
  let vm_end := if vm_end vma - vm_start vma >? SZ_4M then vm_start vma + SZ_4M else vm_end vma in
  if has_flag (vm_flags vma) FORBIDDEN_MMAP_FLAGS then mret (- EPERM)
  else
  p ← gets id;
  if negb (a_buffer p =? 0) then mret (- EBUSY)
  else if area =? 0 then mret (- ENOMEM)
  else
  modify (λ p, set_area area (vm_start vma - area) p) ;;
  if negb pages_ok then
    modify (λ p, set_area 0 (a_user_buffer_offset p) (set_pages [] p)) ;; mret (- ENOMEM)
  else
  modify (set_pages (replicate (Z.to_nat ((vm_end - vm_start vma) / PAGE_SIZE)) false)) ;;
  modify (set_buffer_size (vm_end - vm_start vma)) ;;
  ret ← binder_update_page_range e true area (area + PAGE_SIZE) true;
  if negb (ret =? 0) then
    modify (λ p, set_area 0 (a_user_buffer_offset p) (set_pages [] p)) ;; mret (- ENOMEM)
  else
  modify (set_buffers [area]) ;;
  modify (λ p, set_heap (<[area := set_free true (e_stale e area)]> (a_heap p)) p) ;;
  binder_insert_free_buffer area ;;
  modify (λ p, set_free_async_space (a_buffer_size p / 2) p) ;;
  modify (set_mapped files (vm_mm vma)) ;;
  mret 0.

(** The fields of a [binder_proc] that [binder_open] has just allocated. *)
Definition zero_alloc : alloc :=
  mk_alloc false 0 None 0 0 [] ∅ leaf leaf 0 [] 0 0.
End alloc.
