(* ===== verification/BinderAllocPages.v ===== *)
(** Layout and pages of a process's buffer area: the geometry of the buffers
    ([gaps]), the pages they need ([covered]), and the effect of
    [binder_update_page_range] on the page array. *)
From S2P Require Import Prelude RBTree BinderAlloc.

(** ** Geometry *)

Section geometry.
Context {AR : Arch}.
Implicit Types (l : list Z) (b e q : Z).

(** Each header fits before the next one, the last before [e]. *)
Fixpoint gaps l e : Prop :=
  match l with
  | [] => True
  | b :: l' => b + HDR <= hd e l' ∧ gaps l' e
  end.

(** The pages of a header, and those of the body of a buffer ending at [e]. *)
Definition hdr_pages b q : Prop := page_mask b <= q <= page_mask (b + HDR - 1).
Definition body_pages b e q : Prop := PAGE_ALIGN (b + HDR) <= q < page_mask e.

(** The pages that must be mapped: those of every header, and those of the body
    of every buffer in use. *)
Fixpoint covered (fr : Z → bool) l e q : Prop :=
  match l with
  | [] => False
  | b :: l' => hdr_pages b q ∨ (fr b = false ∧ body_pages b (hd e l') q) ∨ covered fr l' e q
  end.

(** No two neighbours are both free. *)
Fixpoint coalesced (fr : Z → bool) l : Prop :=
  match l with
  | x :: ((y :: _) as l') => ¬ (fr x = true ∧ fr y = true) ∧ coalesced fr l'
  | _ => True
  end.
End geometry.

(** Whether the page at [q] is mapped. *)
Definition present (p : alloc) (q : Z) : bool := default false (a_pages p !! page_index p q).

(** The end of the area. *)
Definition limit (p : alloc) : Z := a_buffer p + a_buffer_size p.

(** The area: page aligned, at most 4 MB ([SZ_4M] in [binder_mmap]), with one
    entry of [pages] per page. *)
Record area_ok `{Arch} (p : alloc) : Prop := {
  ar_base : 0 < a_buffer p;
  ar_base_aligned : aligned (a_buffer p);
  ar_size : 0 < a_buffer_size p <= 4194304;
  ar_size_aligned : aligned (a_buffer_size p);
  ar_limit : limit p < 2 ^ (8 * word);
  ar_pages : Z.of_nat (length (a_pages p)) = a_buffer_size p / 4096
}.

(** States that differ in [pages] only. *)
Definition same_but_pages (p p' : alloc) : Prop :=
  ∃ pg, p' = set_pages pg p ∧ length pg = length (a_pages p).

(** ** Lemmas *)

Section geometry_facts.
Context {AR : Arch}.
Implicit Types (l : list Z) (b e q : Z).

Lemma HDR_range : 40 <= HDR <= 80.
Proof. unfold HDR. destruct word_ok; lia. Qed.

Lemma gaps_app l1 b l2 e : gaps (l1 ++ b :: l2) e ↔ gaps l1 b ∧ gaps (b :: l2) e.
Proof.
  induction l1 as [|x l1 IH]; [simpl; tauto|].
  change (gaps ((x :: l1) ++ b :: l2) e) with
    (x + HDR <= hd e (l1 ++ b :: l2) ∧ gaps (l1 ++ b :: l2) e).
  change (gaps (x :: l1) b) with (x + HDR <= hd b l1 ∧ gaps l1 b).
  rewrite IH. replace (hd e (l1 ++ b :: l2)) with (hd b l1) by by destruct l1. tauto.
Qed.

Lemma gaps_cons b l e : gaps (b :: l) e ↔ b + HDR <= hd e l ∧ gaps l e.
Proof. done. Qed.

Lemma gaps_le l e b : gaps l e → b ∈ l → b + HDR <= e.
Proof.
  pose proof HDR_range. revert b. induction l as [|x l IH]; intros b Hg Hb; [by apply not_elem_of_nil in Hb|].
  destruct Hg as [H1 H2]. apply elem_of_cons in Hb as [->|Hb]; [|auto].
  destruct l as [|y l]; simpl in H1; [done|].
  specialize (IH y H2 (list_elem_of_here _ _)). lia.
Qed.

Lemma gaps_hd l e b : gaps l e → b ∈ l → hd e l <= b.
Proof.
  pose proof HDR_range. revert b. induction l as [|x l IH]; intros b Hg Hb; [by apply not_elem_of_nil in Hb|].
  destruct Hg as [H1 H2]. apply elem_of_cons in Hb as [->|Hb]; simpl; [done|].
  specialize (IH b H2 Hb). lia.
Qed.

Lemma gaps_sorted l e : gaps l e → sorted_by id l.
Proof.
  pose proof HDR_range. induction l as [|x l IH]; intros Hg; [constructor|].
  destruct Hg as [H1 H2]. constructor; [by apply IH|]. apply Forall_forall. intros y Hy.
  pose proof (gaps_hd l e y H2 Hy). unfold id. lia.
Qed.

Lemma gaps_NoDup l e : gaps l e → NoDup l.
Proof. intros. eapply sorted_by_NoDup, gaps_sorted; eauto. Qed.

(** Neighbours of the middle of a split. *)
Lemma gaps_split_before l1 b l2 e x : gaps (l1 ++ b :: l2) e → x ∈ l1 → x + HDR <= b.
Proof. intros [H1 _]%gaps_app. by apply gaps_le. Qed.

Lemma gaps_split_after l1 b l2 e x : gaps (l1 ++ b :: l2) e → x ∈ l2 → b + HDR <= x.
Proof.
  intros [_ [H1 H2]]%gaps_app Hx. pose proof (gaps_hd _ _ _ H2 Hx). lia.
Qed.

Lemma gaps_remove l1 b l2 e :
  gaps (l1 ++ b :: l2) e → l1 ≠ [] → gaps (l1 ++ l2) e.
Proof.
  pose proof HDR_range. induction l1 as [|x l1 IH]; [done|]. intros Hg _.
  destruct Hg as [H1 H2]. destruct l1 as [|y l1].
  - simpl in *. destruct H2 as [H2 H3]. split; [|done]. destruct l2; simpl in *; lia.
  - split; [exact H1|]. by apply IH.
Qed.

Lemma gaps_insert l1 b n l2 e :
  gaps (l1 ++ b :: l2) e → b + HDR <= n → n + HDR <= hd e l2 → gaps (l1 ++ b :: n :: l2) e.
Proof.
  intros Hg Hb Hn. apply gaps_app in Hg as [H1 H2]. apply gaps_app. split; [done|].
  destruct H2 as [_ H2]. simpl. done.
Qed.

(** ** Covered pages *)

Lemma covered_app fr l1 b l2 e q :
  covered fr (l1 ++ b :: l2) e q ↔ covered fr l1 b q ∨ covered fr (b :: l2) e q.
Proof.
  induction l1 as [|x l1 IH]; [simpl; tauto|].
  change (covered fr ((x :: l1) ++ b :: l2) e q) with
    (hdr_pages x q ∨ (fr x = false ∧ body_pages x (hd e (l1 ++ b :: l2)) q) ∨
     covered fr (l1 ++ b :: l2) e q).
  change (covered fr (x :: l1) b q) with
    (hdr_pages x q ∨ (fr x = false ∧ body_pages x (hd b l1) q) ∨ covered fr l1 b q).
  rewrite IH. replace (hd e (l1 ++ b :: l2)) with (hd b l1) by by destruct l1. tauto.
Qed.

Lemma covered_ext fr fr' l e q :
  (∀ b, b ∈ l → fr b = fr' b) → covered fr l e q ↔ covered fr' l e q.
Proof.
  induction l as [|b l IH]; intros Hf; simpl; [done|].
  rewrite (Hf b) by left. rewrite IH; [done|]. intros. apply Hf. by right.
Qed.

Lemma covered_lower fr l e q : gaps l e → covered fr l e q → page_mask (hd e l) <= q.
Proof.
  pose proof HDR_range. induction l as [|b l IH]; [done|].
  intros [Hb Hg] [Hq|[[_ Hq]|Hq]]; simpl.
  - by destruct Hq.
  - unfold body_pages in Hq. page_lia.
  - specialize (IH Hg Hq). page_lia.
Qed.

Lemma covered_upper fr l e q : aligned q → gaps l e → covered fr l e q → q <= page_mask (e - 1).
Proof.
  intros Ha. pose proof HDR_range. induction l as [|b l IH]; [done|].
  intros [Hb Hg] [Hq|[[_ Hq]|Hq]]; simpl.
  - assert (b + HDR <= e) by (apply (gaps_le (b :: l) e); [done|left]).
    unfold hdr_pages in Hq. page_lia.
  - assert (hd e l <= e).
    { destruct l as [|c l]; simpl; [done|]. pose proof (gaps_le (c :: l) e c Hg (list_elem_of_here _ _)). lia. }
    unfold body_pages in Hq. page_lia.
  - auto.
Qed.

(** The body of a buffer shares no page with the other buffers. *)
Lemma body_exclusive fr l1 b l2 e q :
  aligned q → gaps (l1 ++ b :: l2) e → body_pages b (hd e l2) q →
  ¬ (covered fr l1 b q ∨ hdr_pages b q ∨ covered fr l2 e q).
Proof.
  pose proof HDR_range. intros Ha Hg [Hq1 Hq2]. apply gaps_app in Hg as [Hg1 [Hg2 Hg3]].
  intros [Hc|[Hc|Hc]].
  - apply covered_upper in Hc; [|done..]. page_lia.
  - unfold hdr_pages in Hc. page_lia.
  - destruct l2 as [|n l2]; [done|]. apply covered_lower in Hc; [|done]. simpl in *. lia.
Qed.

Lemma coalesced_app fr l1 x l2 :
  coalesced fr (l1 ++ x :: l2) ↔
  coalesced fr (l1 ++ [x]) ∧ coalesced fr (x :: l2).
Proof.
  induction l1 as [|y l1 IH]; [simpl; tauto|]. destruct l1 as [|z l1].
  - simpl. tauto.
  - change (coalesced fr ((y :: z :: l1) ++ x :: l2)) with
      (¬ (fr y = true ∧ fr z = true) ∧ coalesced fr ((z :: l1) ++ x :: l2)).
    change (coalesced fr ((y :: z :: l1) ++ [x])) with
      (¬ (fr y = true ∧ fr z = true) ∧ coalesced fr ((z :: l1) ++ [x])).
    rewrite IH. tauto.
Qed.

Lemma coalesced_cons fr x l :
  coalesced fr (x :: l) ↔ (∀ n, head l = Some n → ¬ (fr x = true ∧ fr n = true)) ∧ coalesced fr l.
Proof.
  destruct l as [|y l]; simpl; [naive_solver|]. split; [intros [H1 H2]; split; [by intros n [= <-]|done]|].
  intros [H1 H2]. split; [by apply H1|done].
Qed.

Lemma coalesced_snoc fr l x :
  coalesced fr (l ++ [x]) ↔ coalesced fr l ∧ (∀ n, last l = Some n → ¬ (fr n = true ∧ fr x = true)).
Proof.
  induction l as [|y l IH]; [simpl; naive_solver|].
  rewrite <- app_comm_cons, !coalesced_cons, IH. destruct l as [|z l]; simpl; naive_solver.
Qed.

Lemma coalesced_mid fr l1 x l2 :
  coalesced fr (l1 ++ x :: l2) ↔
  coalesced fr l1 ∧ coalesced fr l2 ∧
  (∀ n, last l1 = Some n → ¬ (fr n = true ∧ fr x = true)) ∧
  (∀ n, head l2 = Some n → ¬ (fr x = true ∧ fr n = true)).
Proof. rewrite coalesced_app, coalesced_cons, coalesced_snoc. tauto. Qed.

Lemma coalesced_ext fr fr' l :
  (∀ b, b ∈ l → fr b = fr' b) → coalesced fr l ↔ coalesced fr' l.
Proof.
  induction l as [|b l IH]; intros Hf; [done|]. destruct l as [|c l]; [done|].
  change (coalesced fr (b :: c :: l)) with (¬ (fr b = true ∧ fr c = true) ∧ coalesced fr (c :: l)).
  change (coalesced fr' (b :: c :: l)) with (¬ (fr' b = true ∧ fr' c = true) ∧ coalesced fr' (c :: l)).
  rewrite IH by (intros; apply Hf; by right).
  rewrite (Hf b), (Hf c) by set_solver. done.
Qed.
End geometry_facts.

(** ** The page array *)

Section pages.
Context {AR : Arch}.
Implicit Types (p : alloc) (q : Z).

Definition in_area p q : Prop := aligned q ∧ a_buffer p <= q < limit p.

Lemma in_area_index p q : area_ok p → in_area p q → (page_index p q < length (a_pages p))%nat.
Proof.
  intros [? ? ? ? ? Hp] [Hq1 Hq2]. unfold page_index, limit in *.
  apply Nat2Z.inj_lt. rewrite Hp. page_lia.
Qed.

Lemma page_index_inj p q q' :
  area_ok p → in_area p q → in_area p q' → page_index p q = page_index p q' → q = q'.
Proof.
  intros [? Hb ? ? ? ?] [Hq1 Hq2] [Hq1' Hq2'] E. unfold page_index in E.
  apply Z2Nat.inj in E; page_lia.
Qed.

Lemma same_but_pages_refl p : same_but_pages p p.
Proof. exists (a_pages p). by destruct p. Qed.

Lemma same_but_pages_trans p1 p2 p3 :
  same_but_pages p1 p2 → same_but_pages p2 p3 → same_but_pages p1 p3.
Proof. intros (pg & -> & E) (pg' & -> & E'). exists pg'. simpl in *. split; [done|congruence]. Qed.

Lemma same_but_pages_area p p' : same_but_pages p p' → area_ok p → area_ok p'.
Proof. intros (pg & -> & E) [? ? ? ? ? ?]. split; simpl; try done. by rewrite E. Qed.

Lemma same_but_pages_in p p' q : same_but_pages p p' → in_area p' q ↔ in_area p q.
Proof. by intros (pg & -> & E). Qed.

Definition pset q v p : alloc := set_pages (<[page_index p q := v]> (a_pages p)) p.

Lemma pset_same q v p : same_but_pages p (pset q v p).
Proof. eexists. split; [done|]. by rewrite length_insert. Qed.

Lemma present_pset p q v q' :
  area_ok p → in_area p q → in_area p q' →
  present (pset q v p) q' = if decide (q = q') then v else present p q'.
Proof.
  intros Ha Hq Hq'. unfold present, pset. simpl.
  change (page_index (set_pages _ p) q') with (page_index p q').
  case_decide as E.
  - subst. rewrite list_lookup_insert_eq; [done|by apply in_area_index].
  - rewrite list_lookup_insert_ne; [done|]. intros E'. apply E. by eapply page_index_inj.
Qed.

Lemma page_at_ok p q : area_ok p → in_area p q → page_at q p = Ok (present p q, p).
Proof.
  intros Ha Hq. unfold page_at, gets, mbind, st_bind, id.
  destruct Hq as [Hq1 Hq2]. destruct (Z.ltb_spec q (a_buffer p)); [lia|].
  destruct (lookup_lt_is_Some_2 (a_pages p) (page_index p q)) as [v Hv].
  { apply in_area_index; [done|by split]. }
  unfold present. rewrite Hv. done.
Qed.

Lemma free_page_ok p q :
  area_ok p → in_area p q → present p q = true → free_page q p = Ok (tt, pset q false p).
Proof.
  intros Ha Hq Hp. unfold free_page.
  rewrite (st_bind_eq _ _ _ _ _ (page_at_ok p q Ha Hq)), Hp. done.
Qed.

(** Freeing the pages of [start .. q] (downwards), all of them mapped. *)
Lemma free_range_ok fuel p start q :
  area_ok p → aligned start → a_buffer p <= start → aligned q → q < limit p →
  (Z.to_nat ((q - start) / 4096 + 1) < fuel)%nat →
  (∀ x, aligned x → start <= x <= q → present p x = true) →
  ∃ p', free_range fuel start q p = Ok (tt, p') ∧ same_but_pages p p' ∧
    ∀ x, in_area p x → present p' x = present p x && negb (bool_decide (start <= x <= q)).
Proof.
  revert p q. induction fuel as [|fuel IH]; intros p q Ha Hs1 Hs2 Hq1 Hq2 Hf Hp; [lia|].
  simpl. rewrite Z.geb_leb. destruct (Z.leb_spec start q) as [Hle|Hgt].
  - assert (Hin : in_area p q) by (split; [done|lia]).
    rewrite (st_bind_eq _ _ _ _ _ (free_page_ok p q Ha Hin (Hp q Hq1 ltac:(lia)))).
    pose proof (pset_same q false p) as Hsame.
    destruct (IH (pset q false p) (q - PAGE_SIZE)) as (p' & E & Hs & Hpr).
    + by eapply same_but_pages_area.
    + done.
    + done.
    + page_lia.
    + unfold PAGE_SIZE. change (limit (pset q false p)) with (limit p). lia.
    + page_lia.
    + intros x Hx1 Hx2. rewrite present_pset; [|done|done|].
      * unfold PAGE_SIZE in *. rewrite decide_False by lia. apply Hp; [done|lia].
      * unfold PAGE_SIZE in *. split; [done|lia].
    + exists p'. split; [exact E|]. split; [by eapply same_but_pages_trans|].
      intros x Hx. rewrite Hpr by by apply (same_but_pages_in _ _ _ Hsame).
      rewrite present_pset by done.
      case_decide as Exq; subst.
      * rewrite andb_false_l. rewrite (bool_decide_true (_ <= x <= x)) by lia. by rewrite andb_false_r.
      * f_equal. f_equal. apply bool_decide_ext. destruct Hx as [Hx _]. page_lia.
  - exists p. split; [done|]. split; [apply same_but_pages_refl|].
    intros x Hx. rewrite bool_decide_false by lia. by rewrite andb_true_r.
Qed.

(** Mapping the pages of [addr .. end_), none of them mapped, when those of
    [start .. addr) were mapped before by the same call. *)
Lemma alloc_range_ok e fuel p start addr end_ :
  area_ok p → aligned start → a_buffer p <= start → aligned addr → start <= addr →
  aligned end_ → addr <= end_ → end_ <= limit p →
  (Z.to_nat ((end_ - addr) / 4096) < fuel)%nat →
  (∀ x, aligned x → start <= x < addr → present p x = true) →
  (∀ x, aligned x → addr <= x < end_ → present p x = false) →
  ∃ ok p', alloc_range e fuel start addr end_ p = Ok (ok, p') ∧ same_but_pages p p' ∧
    ∀ x, in_area p x →
      present p' x = if bool_decide (start <= x < end_) then ok else present p x.
Proof.
  revert p addr. induction fuel as [|fuel IH]; intros p addr Ha Hs1 Hs2 Had1 Had2 He1 He2 He3 Hf Hp1 Hp2; [lia|].
  simpl. destruct (Z.ltb_spec addr end_) as [Hlt|Hge].
  - assert (Hin : in_area p addr) by (split; [done|lia]).
    rewrite (st_bind_eq _ _ _ _ _ (page_at_ok p addr Ha Hin)), (Hp2 addr Had1) by lia.
    rewrite (st_bind_eq _ _ p tt p) by done.
    assert (Hundo : ∀ p1, same_but_pages p p1 → (∀ x, in_area p x → present p1 x = present p x) →
      ∃ ok p', (free_range (S (Z.to_nat ((addr - start) / PAGE_SIZE))) start (addr - PAGE_SIZE) ;;
                mret false) p1 = Ok (ok, p') ∧ same_but_pages p p' ∧
        ∀ x, in_area p x → present p' x = if bool_decide (start <= x < end_) then ok else present p x).
    { intros p1 Hsame Hpr.
      assert (limit p1 = limit p ∧ a_buffer p1 = a_buffer p) as [El Eb] by (destruct Hsame as (?&->&?); done).
      destruct (free_range_ok (S (Z.to_nat ((addr - start) / PAGE_SIZE))) p1 start (addr - PAGE_SIZE))
        as (p' & E & Hs & Hpr'); try done.
      - by eapply same_but_pages_area.
      - lia.
      - page_lia.
      - unfold PAGE_SIZE. lia.
      - page_lia.
      - intros x Hx1 Hx2. unfold PAGE_SIZE in *. rewrite Hpr by (split; [done|lia]). apply Hp1; [done|lia].
      - exists false, p'. rewrite (st_bind_eq _ _ _ _ _ E). split; [done|].
        split; [by eapply same_but_pages_trans|]. intros x Hx.
        rewrite Hpr' by by apply (same_but_pages_in _ _ _ Hsame). rewrite Hpr by done.
        destruct Hx as [Hx1 Hx2]. unfold PAGE_SIZE.
        destruct (decide (start <= x < addr)) as [Hc|Hc].
        + rewrite (bool_decide_true (start <= x <= _)) by page_lia.
          rewrite (bool_decide_true (start <= x < end_)) by lia. by rewrite andb_false_r.
        + rewrite (bool_decide_false (start <= x <= _)) by lia. rewrite andb_true_r.
          case_bool_decide as Hd; [|done]. apply Hp2; [done|lia]. }
    assert (Hfail : ∃ ok p',
      (set_page addr true ;; free_page addr ;;
       free_range (S (Z.to_nat ((addr - start) / PAGE_SIZE))) start (addr - PAGE_SIZE) ;; mret false) p
      = Ok (ok, p') ∧ same_but_pages p p' ∧
        ∀ x, in_area p x → present p' x = if bool_decide (start <= x < end_) then ok else present p x).
    { rewrite (st_bind_eq _ _ p tt (pset addr true p)) by done.
      pose proof (pset_same addr true p) as S1. pose proof (pset_same addr false (pset addr true p)) as S2.
      assert (Ha1 : area_ok (pset addr true p)) by by eapply same_but_pages_area.
      rewrite (st_bind_eq _ _ _ tt (pset addr false (pset addr true p))).
      2:{ apply free_page_ok; [done..|]. rewrite present_pset by done. by rewrite decide_True. }
      apply Hundo; [by eapply same_but_pages_trans|].
      intros x Hx. rewrite !present_pset by done.
      case_decide; [|done]. subst. symmetry. apply Hp2; [done|lia]. }
    destruct (e_page e addr).
    + rewrite (st_bind_eq _ _ p tt (pset addr true p)) by done.
      pose proof (pset_same addr true p) as S1.
      destruct (IH (pset addr true p) (addr + PAGE_SIZE)) as (ok & p' & E & Hs & Hpr); try done.
      * by eapply same_but_pages_area.
      * page_lia.
      * unfold PAGE_SIZE. lia.
      * page_lia.
      * page_lia.
      * intros x Hx1 Hx2. rewrite present_pset; [|done|done|split; [done|page_lia]].
        case_decide; [done|]. apply Hp1; [done|page_lia].
      * intros x Hx1 Hx2. rewrite present_pset; [|done|done|split; [done|unfold PAGE_SIZE in *; lia]].
        unfold PAGE_SIZE in *. rewrite decide_False by lia. apply Hp2; [done|lia].
      * exists ok, p'. split; [exact E|]. split; [by eapply same_but_pages_trans|].
        intros x Hx. rewrite Hpr by by apply (same_but_pages_in _ _ _ S1).
        rewrite present_pset by done. case_bool_decide; [done|].
        case_decide; [|done]. subst. lia.
    + by apply Hundo; [apply same_but_pages_refl|].
    + done.
    + done.
  - exists true, p. split; [done|]. split; [apply same_but_pages_refl|].
    intros x Hx. case_bool_decide; [|done]. destruct Hx. apply Hp1; [done|lia].
Qed.

(** [binder_update_page_range] with [allocate = 0] unmaps the pages of the
    range, which must be mapped. *)
Lemma update_free_ok e p start end_ vma :
  area_ok p → aligned start → aligned end_ → a_buffer p <= start → end_ <= limit p →
  (∀ x, aligned x → start <= x < end_ → present p x = true) →
  ∃ r p', binder_update_page_range e false start end_ vma p = Ok (r, p') ∧ same_but_pages p p' ∧
    ∀ x, in_area p x → present p' x = present p x && negb (bool_decide (start <= x < end_)).
Proof.
  intros Ha Hs1 He1 Hs2 He2 Hp. unfold binder_update_page_range.
  destruct (Z.leb_spec end_ start) as [Hle|Hlt].
  - exists 0, p. split; [done|]. split; [apply same_but_pages_refl|].
    intros x Hx. rewrite bool_decide_false by lia. by rewrite andb_true_r.
  - rewrite (st_bind_eq _ _ p p p) by done. cbv beta.
    destruct (free_range_ok (page_fuel start end_) p start (end_ - PAGE_SIZE)) as (p' & E & Hs & Hpr); try done.
    + page_lia.
    + unfold PAGE_SIZE. lia.
    + unfold page_fuel. page_lia.
    + intros x Hx1 Hx2. unfold PAGE_SIZE in *. apply Hp; [done|lia].
    + exists (- ENOMEM), p'. rewrite (st_bind_eq _ _ _ _ _ E). split; [done|]. split; [done|].
      intros x Hx. rewrite Hpr by done. f_equal. f_equal. apply bool_decide_ext.
      destruct Hx. page_lia.
Qed.

(** [binder_update_page_range] with [allocate = 1] maps the pages of the range,
    none of which is mapped, or changes nothing and returns an error. *)
Lemma update_alloc_ok e p start end_ vma :
  area_ok p → aligned start → aligned end_ → a_buffer p <= start → end_ <= limit p →
  (∀ x, aligned x → start <= x < end_ → present p x = false) →
  ∃ r p', binder_update_page_range e true start end_ vma p = Ok (r, p') ∧ same_but_pages p p' ∧
    ∀ x, in_area p x →
      present p' x = present p x || (bool_decide (r = 0) && bool_decide (start <= x < end_)).
Proof.
  intros Ha Hs1 He1 Hs2 He2 Hp. unfold binder_update_page_range.
  destruct (Z.leb_spec end_ start) as [Hle|Hlt].
  - exists 0, p. split; [done|]. split; [apply same_but_pages_refl|].
    intros x Hx. rewrite (bool_decide_false (start <= x < end_)) by lia. by rewrite andb_false_r, orb_false_r.
  - rewrite (st_bind_eq _ _ p p p) by done. cbv beta. destruct (negb _).
    { exists (- ENOMEM), p. split; [done|]. split; [apply same_but_pages_refl|].
      intros x Hx. rewrite bool_decide_false by done. by rewrite orb_false_r. }
    destruct (alloc_range_ok e (page_fuel start end_) p start start end_) as (ok & p' & E & Hs & Hpr); try done.
    + lia.
    + unfold page_fuel. page_lia.
    + lia.
    + exists (if ok then 0 else - ENOMEM), p'. rewrite (st_bind_eq _ _ _ _ _ E). split; [done|]. split; [done|].
      intros x Hx. rewrite Hpr by done.
      destruct (decide (start <= x < end_)) as [Hr|Hr].
      * rewrite !(bool_decide_true (start <= x < end_)) by lia.
        rewrite Hp by (by destruct Hx). by destruct ok.
      * rewrite !(bool_decide_false (start <= x < end_)) by lia. by rewrite andb_false_r, orb_false_r.
Qed.
End pages.
