(* ===== verification/BinderAllocInv.v ===== *)
(** The invariant of the buffer allocator, kept by [binder_alloc_buf] and
    [binder_free_buf]: the buffers tile the area, the two trees hold the free
    and the allocated ones, no two free neighbours, and exactly the pages in
    use are mapped. *)
From S2P Require Import Prelude RBTree BinderAlloc BinderAllocPages.

(** Whether the buffer at [b] is free. *)
Definition isf (p : alloc) (b : Z) : bool :=
  match a_heap p !! b with Some x => b_free x | None => false end.

Record geo `{Arch} (p : alloc) : Prop := {
  geo_area : area_ok p;
  geo_hd : head (a_buffers p) = Some (a_buffer p);
  geo_gaps : gaps (a_buffers p) (limit p);
  geo_heap : ∀ b, b ∈ a_buffers p ↔ is_Some (a_heap p !! b);
  geo_pages : ∀ q, in_area p q →
    present p q = true ↔ covered (isf p) (a_buffers p) (limit p) q
}.

(** Every allocated buffer has room for what it holds. *)
Definition fits `{Arch} (p : alloc) : Prop :=
  ∀ b x, a_heap p !! b = Some x → b_free x = false →
    0 <= b_data_size x ∧ 0 <= b_offsets_size x ∧
    ALIGN (b_data_size x) word + ALIGN (b_offsets_size x) word <= binder_buffer_size p b.

Definition size_sorted `{Arch} (p : alloc) (l : list Z) : Prop :=
  StronglySorted (λ x y, binder_buffer_size p x <= binder_buffer_size p y) l.

(** The invariant but for the free buffer [skip], which is out of the free tree
    and may have free neighbours. *)
Record inv_but `{Arch} (skip : option Z) (p : alloc) : Prop := {
  inv_geo : geo p;
  inv_free : inorder (a_free_buffers p) ≡ₚ
    filter (λ b, isf p b = true ∧ Some b ≠ skip) (a_buffers p);
  inv_free_sorted : size_sorted p (inorder (a_free_buffers p));
  inv_allocated : inorder (a_allocated_buffers p) ≡ₚ
    filter (λ b, isf p b = false) (a_buffers p);
  inv_allocated_sorted : sorted_by id (inorder (a_allocated_buffers p));
  inv_fits : fits p
}.

Record Inv `{Arch} (p : alloc) : Prop := {
  inv_all : inv_but None p;
  inv_coalesced : coalesced (isf p) (a_buffers p)
}.

(** What the operations leave alone. *)
Record same_area (p p' : alloc) : Prop := {
  sa_vma : a_vma p' = a_vma p;
  sa_mm : a_vma_vm_mm p' = a_vma_vm_mm p;
  sa_files : a_files p' = a_files p;
  sa_buffer : a_buffer p' = a_buffer p;
  sa_offset : a_user_buffer_offset p' = a_user_buffer_offset p;
  sa_size : a_buffer_size p' = a_buffer_size p
}.

Lemma same_area_refl p : same_area p p.
Proof. by split. Qed.

Lemma same_area_trans p1 p2 p3 : same_area p1 p2 → same_area p2 p3 → same_area p1 p3.
Proof. intros [] []. split; congruence. Qed.

#[export] Hint Resolve same_area_refl : cdroid.

(** The buffers in use: what the allocator's clients see. *)
Definition live (p : alloc) : gmap Z binder_buffer := filter (λ kv, b_free kv.2 = false) (a_heap p).

Lemma live_lookup p b x : live p !! b = Some x ↔ a_heap p !! b = Some x ∧ b_free x = false.
Proof. unfold live. by rewrite map_lookup_filter_Some. Qed.

Lemma live_eq p p' :
  (∀ b x, b_free x = false → a_heap p' !! b = Some x ↔ a_heap p !! b = Some x) → live p' = live p.
Proof.
  intros Hl. apply map_eq. intros b. apply option_eq. intros x. rewrite !live_lookup.
  destruct (b_free x) eqn:E; [naive_solver|]. by rewrite Hl.
Qed.

(** Steps that leave the buffers in use and the accounting alone. *)
Record frame (p p' : alloc) : Prop := {
  fr_area : same_area p p';
  fr_live : live p' = live p;
  fr_async : a_free_async_space p' = a_free_async_space p;
  fr_stop : a_stop_on_user_error p' = a_stop_on_user_error p
}.

Lemma frame_refl p : frame p p.
Proof. by split. Qed.

Lemma frame_trans p1 p2 p3 : frame p1 p2 → frame p2 p3 → frame p1 p3.
Proof. intros [? ? ? ?] [? ? ? ?]. split; [by eapply same_area_trans|congruence..]. Qed.

#[export] Hint Resolve frame_refl : cdroid.

(** ** Sizes of buffers *)

Section sizes.
Context {AR : Arch}.
Implicit Types (l : list Z) (b e x : Z) (p : alloc).

(** The size of buffer [x] of a list of buffers ending at [e]. *)
Fixpoint sz l e x : Z :=
  match l with
  | [] => 0
  | b :: l' => if decide (x = b) then hd e l' - (b + HDR) else sz l' e x
  end.

Lemma sz_split l1 b l2 e : b ∉ l1 → sz (l1 ++ b :: l2) e b = hd e l2 - (b + HDR).
Proof.
  induction l1 as [|y l1 IH]; intros Hn; simpl.
  - by rewrite decide_True.
  - rewrite decide_False by set_solver. apply IH. set_solver.
Qed.

Lemma sz_app_l l1 b l2 e x : x ∈ l1 → sz (l1 ++ b :: l2) e x = sz l1 b x.
Proof.
  induction l1 as [|y l1 IH]; intros Hx; [by apply not_elem_of_nil in Hx|].
  simpl. case_decide; [by destruct l1|]. apply IH. set_solver.
Qed.

Lemma sz_app_r l1 l2 e x : x ∉ l1 → sz (l1 ++ l2) e x = sz l2 e x.
Proof.
  induction l1 as [|y l1 IH]; intros Hx; [done|].
  simpl. rewrite decide_False by set_solver. apply IH. set_solver.
Qed.

Lemma sz_range l e x : gaps l e → x ∈ l → 0 <= sz l e x <= e - (x + HDR).
Proof.
  induction l as [|y l IH]; intros Hg Hx; [by apply not_elem_of_nil in Hx|]. simpl.
  destruct Hg as [H1 H2]. case_decide.
  - subst. split; [lia|]. destruct l as [|z l]; simpl; [lia|].
    pose proof (gaps_le (z :: l) e z H2 (list_elem_of_here _ _)). pose proof HDR_range. lia.
  - apply IH; [done|set_solver].
Qed.

Lemma list_next_split l1 b l2 : b ∉ l1 → list_next b (l1 ++ b :: l2) = head l2.
Proof.
  induction l1 as [|y l1 IH]; intros Hn; simpl.
  - destruct l2; [done|]. by rewrite Z.eqb_refl.
  - destruct (l1 ++ b :: l2) as [|z l] eqn:E; [by destruct l1|].
    destruct (Z.eqb_spec y b) as [->|]; [set_solver|]. rewrite <- IH by set_solver. done.
Qed.

Lemma list_prev_split l1 b l2 : b ∉ l1 → b ∉ l2 → list_prev b (l1 ++ b :: l2) = last l1.
Proof.
  intros Hn1 Hn2. induction l1 as [|y l1 IH].
  - clear Hn1. simpl. destruct l2 as [|z l2]; [done|]. destruct (Z.eqb_spec z b); [set_solver|].
    assert (Hg : ∀ l, b ∉ l → list_prev b l = None).
    { clear. induction l as [|u l IH]; intros Hb; [done|]. simpl. destruct l as [|v l]; [done|].
      destruct (Z.eqb_spec v b); [set_solver|]. apply IH. set_solver. }
    by apply Hg.
  - destruct l1 as [|z l1].
    + simpl. by rewrite Z.eqb_refl.
    + change (list_prev b ((y :: z :: l1) ++ b :: l2)) with
        (if z =? b then Some y else list_prev b ((z :: l1) ++ b :: l2)).
      destruct (Z.eqb_spec z b); [set_solver|]. rewrite IH by set_solver. done.
Qed.

Lemma list_is_last_split l1 b l2 : b ∉ l2 → list_is_last b (l1 ++ b :: l2) = bool_decide (l2 = []).
Proof.
  intros Hn. unfold list_is_last. apply bool_decide_ext. rewrite last_app_cons.
  destruct l2 as [|y l2]; [done|]. split; [|done]. intros E.
  rewrite last_cons_cons in E. apply last_Some_elem_of in E. done.
Qed.

Lemma list_add_split l1 n b l2 : b ∉ l1 → list_add n b (l1 ++ b :: l2) = l1 ++ b :: n :: l2.
Proof.
  induction l1 as [|y l1 IH]; intros Hn; simpl.
  - by rewrite Z.eqb_refl.
  - destruct (Z.eqb_spec y b); [set_solver|]. rewrite IH by set_solver. done.
Qed.

Lemma list_del_split l1 b l2 : b ∉ l1 → b ∉ l2 → list_del b (l1 ++ b :: l2) = l1 ++ l2.
Proof.
  intros H1 H2. unfold list_del. rewrite filter_app, filter_cons_False by naive_solver.
  f_equal; apply list_filter_all; intros x Hx ->; done.
Qed.

Lemma area_bounds p b :
  area_ok p → head (a_buffers p) = Some (a_buffer p) → gaps (a_buffers p) (limit p) →
  b ∈ a_buffers p → a_buffer p <= b ∧ b + HDR <= limit p.
Proof.
  intros Ha Hh Hg Hb. split; [|by eapply gaps_le].
  pose proof (gaps_hd _ _ _ Hg Hb) as Hle. destruct (a_buffers p); [done|].
  simpl in *. by simplify_eq.
Qed.

Lemma usz_small x : 0 <= x < 2 ^ (8 * word) → usz x = x.
Proof. apply Z.mod_small. Qed.

Lemma size_sz p b :
  area_ok p → head (a_buffers p) = Some (a_buffer p) → gaps (a_buffers p) (limit p) →
  b ∈ a_buffers p → binder_buffer_size p b = sz (a_buffers p) (limit p) b.
Proof.
  intros Ha Hh Hg Hb. pose proof (sz_range _ _ _ Hg Hb) as Hr.
  pose proof (area_bounds p b Ha Hh Hg Hb) as Hab. destruct Ha as [H0 _ _ _ Hl _].
  pose proof (gaps_NoDup _ _ Hg) as Hnd.
  apply list_elem_of_split in Hb as (l1 & l2 & E). rewrite E in *.
  apply NoDup_app in Hnd as (_ & Hn1 & [Hn2 _]%NoDup_cons).
  assert (b ∉ l1) by (intros ?; by eapply Hn1; [|left]).
  rewrite sz_split in * by done. unfold binder_buffer_size. rewrite E.
  rewrite list_is_last_split, list_next_split by done.
  pose proof HDR_range. case_bool_decide as Hl2.
  - subst. simpl in *. unfold limit in *. rewrite usz_small by lia. lia.
  - destruct l2 as [|y l2]; [done|]. simpl in *. rewrite usz_small by lia. done.
Qed.
End sizes.

(** ** Tree insertions *)

Section insertions.
Context {AR : Arch} {RB : RBOps} {RL : RBLaws}.
Implicit Types (l : list Z) (b : Z) (p : alloc).

Lemma isf_lookup p b x : a_heap p !! b = Some x → isf p b = b_free x.
Proof. unfold isf. by intros ->. Qed.

Lemma isf_Some p b : isf p b = true → is_Some (a_heap p !! b).
Proof. unfold isf. destruct (_ !! _); [eauto|done]. Qed.

Lemma buf_ok p b x : a_heap p !! b = Some x → buf b p = Ok (x, p).
Proof. unfold buf, mbind, st_bind, gets. by intros ->. Qed.

Lemma upd_buf_ok p b f x :
  a_heap p !! b = Some x → upd_buf b f p = Ok (tt, set_heap (<[b := f x]> (a_heap p)) p).
Proof. intros E. unfold upd_buf. by rewrite (st_bind_eq _ _ _ _ _ (buf_ok _ _ _ E)). Qed.

Lemma check_free_ok p b v :
  is_Some (a_heap p !! b) → isf p b = v → check_free v b p = Ok (tt, p).
Proof.
  intros [x E] Hv. unfold check_free. rewrite (st_bind_eq _ _ _ _ _ (buf_ok _ _ _ E)).
  rewrite (isf_lookup _ _ _ E) in Hv. rewrite Hv, eqb_reflx. done.
Qed.

Lemma for_each_check_ok p v l :
  (∀ b, b ∈ l → is_Some (a_heap p !! b) ∧ isf p b = v) →
  for_each (check_free v) l p = Ok (tt, p).
Proof.
  induction l as [|b l IH]; intros Hl; [done|]. simpl.
  destruct (Hl b ltac:(by left)) as [H1 H2].
  rewrite (st_bind_eq _ _ _ _ _ (check_free_ok _ _ _ H1 H2)).
  apply IH. intros. apply Hl. by right.
Qed.

Lemma free_cmp_monotone p n l : size_sorted p l → monotone (free_cmp p n) l.
Proof.
  apply StronglySorted_impl. intros x y _ _ Hxy. unfold free_cmp.
  destruct (Z.ltb_spec n (binder_buffer_size p x)), (Z.ltb_spec n (binder_buffer_size p y)); simpl; lia.
Qed.

Lemma fit_cmp_monotone p n l : size_sorted p l → monotone (fit_cmp p n) l.
Proof.
  apply StronglySorted_impl. intros x y _ _ Hxy. unfold fit_cmp. rewrite !Z.gtb_ltb.
  repeat match goal with |- context [?a <? ?b] => destruct (Z.ltb_spec a b) end; simpl; lia.
Qed.

Lemma insert_free_ok p b :
  isf p b = true → size_sorted p (inorder (a_free_buffers p)) →
  (∀ x, x ∈ inorder (a_free_buffers p) → isf p x = true) →
  ∃ t, binder_insert_free_buffer b p = Ok (tt, set_free_buffers t p) ∧
    inorder t ≡ₚ b :: inorder (a_free_buffers p) ∧ size_sorted p (inorder t).
Proof.
  intros Hb Hs Hf. unfold binder_insert_free_buffer.
  rewrite (st_bind_eq _ _ _ _ _ (check_free_ok p b true (isf_Some _ _ Hb) Hb)).
  rewrite (st_bind_eq _ _ p p p) by done. cbv zeta.
  rewrite (st_bind_eq _ _ p tt p).
  2:{ apply for_each_check_ok. intros x Hx%rb_path_inorder. split; [apply isf_Some|]; auto. }
  set (cmp := free_cmp p (binder_buffer_size p b)).
  destruct (rb_link cmp b (a_free_buffers p)) as [t|] eqn:E.
  - rewrite (st_bind_eq _ _ p t p) by done. exists (rb_insert_color b t). split; [done|].
    rewrite inorder_insert_color. apply rb_link_Some in E as (l1 & l2 & E1 & E2 & Hm).
    destruct (Hm (free_cmp_monotone _ _ _ Hs)) as [H1 H2]. rewrite E1 in *. rewrite E2.
    split; [by rewrite Permutation_middle|].
    apply StronglySorted_app in Hs as (Hs12 & Hs1 & Hs2).
    apply StronglySorted_app. split_and!; [|done|].
    + intros x y Hx [->|Hy]%elem_of_cons; [|by apply Hs12].
      specialize (H1 x Hx). unfold cmp, free_cmp in H1. destruct (Z.ltb_spec (binder_buffer_size p b) (binder_buffer_size p x)); [done|lia].
    + apply StronglySorted_cons. split; [|done]. apply Forall_forall. intros x Hx.
      specialize (H2 x Hx). unfold cmp, free_cmp in H2. destruct (Z.ltb_spec (binder_buffer_size p b) (binder_buffer_size p x)); [lia|done].
  - exfalso. apply rb_link_None in E as (x & _ & E). unfold cmp, free_cmp in E. by destruct (_ <? _).
Qed.

Lemma insert_allocated_ok p b :
  is_Some (a_heap p !! b) → isf p b = false → sorted_by id (inorder (a_allocated_buffers p)) →
  (∀ x, x ∈ inorder (a_allocated_buffers p) → is_Some (a_heap p !! x) ∧ isf p x = false) →
  b ∉ inorder (a_allocated_buffers p) →
  ∃ t, binder_insert_allocated_buffer b p = Ok (tt, set_allocated_buffers t p) ∧
    inorder t ≡ₚ b :: inorder (a_allocated_buffers p) ∧ sorted_by id (inorder t).
Proof.
  intros Hb1 Hb2 Hs Hf Hn. unfold binder_insert_allocated_buffer.
  rewrite (st_bind_eq _ _ _ _ _ (check_free_ok p b false Hb1 Hb2)).
  rewrite (st_bind_eq _ _ p p p) by done. cbv zeta.
  rewrite (st_bind_eq _ _ p tt p).
  2:{ apply for_each_check_ok. intros x Hx%rb_path_inorder. auto. }
  destruct (rb_link_key_total id b (a_allocated_buffers p)) as [t E].
  { unfold id. intros x Hx ->. done. }
  change (by_key id (id b)) with (by_key id b) in E. rewrite E.
  rewrite (st_bind_eq _ _ p t p) by done. exists (rb_insert_color b t). split; [done|].
  rewrite inorder_insert_color. apply and_comm. by apply (rb_link_key id b).
Qed.

(** Erasing one element of a tree that is a filter of the buffers. *)
Lemma erase_perm (P : Z → Prop) `{∀ x, Decision (P x)} l t b :
  NoDup l → inorder t ≡ₚ filter P l →
  inorder (rb_erase b t) = filter (λ y, y ≠ b) (inorder t) ∧
  inorder (rb_erase b t) ≡ₚ filter (λ x, P x ∧ x ≠ b) l.
Proof.
  intros Hnd Hp.
  assert (E : inorder (rb_erase b t) = filter (λ y, y ≠ b) (inorder t)).
  { apply inorder_erase. rewrite Hp. by apply NoDup_filter. }
  split; [done|]. rewrite E, Hp, list_filter_filter.
  erewrite list_filter_ext; [done|]. intros. tauto.
Qed.
End insertions.
