(* ===== verification/BinderAllocFree.v ===== *)
(** Freeing: unlinking a free buffer's header, merging with the neighbours, and
    [binder_free_buf] as a whole. *)
From S2P Require Import Prelude RBTree BinderAlloc BinderAllocPages BinderAllocInv.

Section delete.
Context {AR : Arch} {RB : RBOps} {RL : RBLaws}.
Implicit Types (l : list Z) (b : Z) (p : alloc).

Lemma geo_NoDup p : geo p → NoDup (a_buffers p).
Proof. intros []. by eapply gaps_NoDup. Qed.

Lemma geo_split p l1 b l2 : geo p → a_buffers p = l1 ++ b :: l2 → b ∉ l1 ∧ b ∉ l2.
Proof.
  intros Hg E. pose proof (geo_NoDup p Hg) as Hnd. rewrite E in Hnd.
  apply NoDup_app in Hnd as (_ & H1 & [H2 _]%NoDup_cons). split; [|done].
  intros ?. by eapply H1; [|left].
Qed.

Lemma geo_bounds p b : geo p → b ∈ a_buffers p → a_buffer p <= b ∧ b + HDR <= limit p.
Proof. intros []. by apply area_bounds. Qed.

Lemma geo_size p b : geo p → b ∈ a_buffers p → binder_buffer_size p b = sz (a_buffers p) (limit p) b.
Proof. intros []. by apply size_sz. Qed.

Lemma geo_size_split p l1 b l2 :
  geo p → a_buffers p = l1 ++ b :: l2 → binder_buffer_size p b = hd (limit p) l2 - (b + HDR).
Proof.
  intros Hg E. rewrite geo_size by (rewrite ?E; set_solver). rewrite E.
  apply sz_split. by destruct (geo_split _ _ _ _ Hg E).
Qed.

(** The page range [binder_delete_free_buffer] unmaps, as a function of the end
    page of the previous buffer, the start page of the next one if any, and the
    pages of the header. *)
Definition dead_pages (eP sX eX : Z) (sN : option Z) : option (Z * Z) :=
  let '(fs, fe) := if eP =? sX then (false, negb (eP =? eX)) else (true, true) in
  let '(fs, fe) :=
    match sN with
    | Some sN => if sN =? eX then (if sN =? sX then false else fs, false) else (fs, fe)
    | None => (fs, fe)
    end in
  if fs || fe then Some (if fs then sX else eX, (if fe then eX else sX) + PAGE_SIZE) else None.

Lemma aligned_mult x : aligned x → ∃ k, x = 4096 * k.
Proof. intros Ha. exists (x / 4096). page_lia. Qed.

(** These are the pages of the header that no neighbour shares. *)
Lemma dead_pages_spec eP sX eX sN q :
  aligned eP → aligned sX → aligned eX → aligned q →
  eP <= sX → sX <= eX <= sX + 4096 → (∀ n, sN = Some n → aligned n ∧ eX <= n) →
  (∃ s e, dead_pages eP sX eX sN = Some (s, e) ∧ s <= q < e) ↔
  sX <= q <= eX ∧ q ≠ eP ∧ sN ≠ Some q.
Proof.
  intros [kP ->]%aligned_mult [kX ->]%aligned_mult [kE ->]%aligned_mult [k ->]%aligned_mult H1 H2 Hn.
  assert (Hn' : ∀ n, sN = Some n → ∃ kn, n = 4096 * kn ∧ kE <= kn).
  { intros n ->. destruct (Hn n eq_refl) as [[kn ->]%aligned_mult ?]. exists kn. split; [done|lia]. }
  clear Hn. unfold dead_pages, PAGE_SIZE.
  destruct sN as [n|]; [destruct (Hn' n eq_refl) as (kn & -> & Hle)|]; clear Hn';
    repeat match goal with |- context [?a =? ?b] => destruct (Z.eqb_spec a b) end;
    cbn [negb orb]; split;
    first [intros (s & e' & [= <- <-] & Hq) | intros (Hq & Hq1 & Hq2)];
    try (split; [lia | split; [lia | first [done | intros [= ?]; lia]]]);
    try (assert (4096 * k ≠ 4096 * kn) by congruence);
    try (eexists _, _; split; [reflexivity|]); lia.
Qed.

Lemma dead_pages_bounds eP sX eX sN s e :
  aligned sX → aligned eX → sX <= eX → dead_pages eP sX eX sN = Some (s, e) →
  aligned s ∧ aligned e ∧ sX <= s ∧ e <= eX + 4096.
Proof.
  intros Ha1 Ha2 Hle. unfold dead_pages.
  destruct sN; repeat match goal with |- context [?a =? ?b] => destruct (Z.eqb_spec a b) end;
    simpl; intros [= <- <-]; page_lia.
Qed.

Lemma aligned_mask x : aligned (page_mask x).
Proof. page_lia. Qed.

Lemma aligned_PAGE_ALIGN x : aligned (PAGE_ALIGN x).
Proof. page_lia. Qed.

(** A page of the header of [X] is needed by another buffer only when it is the
    end page of the previous one or the start page of the next one. *)
Lemma header_shared fr l1 P X l2 e q :
  aligned q → gaps (l1 ++ P :: X :: l2) e → fr P = true → hdr_pages X q →
  covered fr (l1 ++ P :: l2) e q ↔
  q = buffer_end_page P ∨ (buffer_start_page <$> head l2) = Some q.
Proof.
  intros Ha Hg HP [Hq1 Hq2]. pose proof HDR_range as Hr.
  rewrite covered_app. cbn [covered]. apply gaps_app in Hg as [Hg1 [Hg2 [Hg3 Hg4]]]. cbn [hd] in Hg2.
  unfold hdr_pages, buffer_end_page, buffer_start_page. split.
  - intros [Hc|[Hc|[[? _]|Hc]]].
    + left. apply covered_upper in Hc; [|done..]. page_lia.
    + left. page_lia.
    + congruence.
    + right. destruct l2 as [|N l2]; [done|]. apply covered_lower in Hc; [|done].
      simpl in *. f_equal. page_lia.
  - intros [->|Hn].
    + right. left. page_lia.
    + right. right. right. destruct l2 as [|N l2]; [done|]. simpl in Hn. simplify_eq.
      left. unfold hdr_pages. page_lia.
Qed.

Lemma covered_unlink fr l1 P X l2 e q :
  fr P = true → fr X = true →
  covered fr (l1 ++ P :: X :: l2) e q ↔ hdr_pages X q ∨ covered fr (l1 ++ P :: l2) e q.
Proof.
  intros HP HX. rewrite !covered_app. cbn [covered]. rewrite HP, HX.
  assert (Hf : true = false ↔ False) by done. rewrite Hf. tauto.
Qed.

Lemma covered_dec fr l1 P X l2 e q :
  aligned q → gaps (l1 ++ P :: X :: l2) e → fr P = true →
  (hdr_pages X q ∧ ¬ covered fr (l1 ++ P :: l2) e q) ∨ ¬ hdr_pages X q ∨ covered fr (l1 ++ P :: l2) e q.
Proof.
  intros Ha Hg HP. destruct (decide (page_mask X <= q ∧ q <= page_mask (X + HDR - 1))) as [Hh|]; [|by right; left].
  assert (Hh' : hdr_pages X q) by exact Hh. clear Hh.
  rewrite (header_shared fr l1 P X l2 e q) by done.
  destruct (decide (q = buffer_end_page P)); [tauto|].
  destruct (decide ((buffer_start_page <$> head l2) = Some q)); tauto.
Qed.

(** The state after unlinking [X], before its pages go. *)
Definition unlinked (X : Z) l p : alloc := set_heap (delete X (a_heap p)) (set_buffers l p).

Lemma isf_unlinked X l p b : b ≠ X → isf (unlinked X l p) b = isf p b.
Proof. intros. unfold isf. simpl. by rewrite lookup_delete_ne. Qed.

Lemma delete_free_ok e p l1 P X l2 :
  geo p → a_buffers p = l1 ++ P :: X :: l2 → isf p P = true → isf p X = true →
  ∃ p', binder_delete_free_buffer e X p = Ok (tt, p') ∧
    same_but_pages (unlinked X (l1 ++ P :: l2) p) p' ∧ geo p'.
Proof.
  intros Hg E HP HX. set (p1 := unlinked X (l1 ++ P :: l2) p).
  assert (E' : a_buffers p = (l1 ++ [P]) ++ X :: l2) by by rewrite E, <- app_assoc.
  destruct (geo_split _ _ _ _ Hg E') as [HX1 HX2]. destruct (geo_split _ _ _ _ Hg E) as [HP1 HP2].
  destruct (geo_bounds p X Hg ltac:(rewrite E; set_solver)) as [Hb1 Hb2].
  pose proof (geo_area p Hg) as Har. pose proof HDR_range as Hr.
  pose proof (geo_gaps p Hg) as Hgaps. rewrite E in Hgaps.
  assert (Hge : gaps (l1 ++ P :: l2) (limit p)).
  { replace (l1 ++ P :: l2) with ((l1 ++ [P]) ++ l2) by by rewrite <- app_assoc.
    apply gaps_remove with (b := X); [|by destruct l1]. by rewrite <- app_assoc. }
  assert (Hpg : P + HDR <= X ∧ X + HDR <= hd (limit p) l2).
  { apply gaps_app in Hgaps as [_ (H1 & H2 & _)]. done. }
  unfold binder_delete_free_buffer. rewrite (st_bind_eq _ _ p p p) by done.
  rewrite bool_decide_false.
  2:{ rewrite E. destruct l1; simpl; intros [= ->]; [set_solver|]. apply HX1. set_solver. }
  rewrite (st_bind_eq _ _ p tt p) by done.
  replace (list_prev X (a_buffers p)) with (Some P) by (by rewrite E', list_prev_split, last_snoc).
  rewrite (st_bind_eq _ _ p P p) by done.
  rewrite (st_bind_eq _ _ _ _ _ (check_free_ok p P true (isf_Some _ _ HP) HP)).
  replace (list_next X (a_buffers p)) with (head l2) by (by rewrite E', list_next_split).
  (* the flags, as [dead_pages] *)
  set (m := λ r : option (Z * Z), match r with
    | Some (s, e') => (binder_update_page_range e false s e' false ;; mret tt) : ST alloc unit
    | None => mret tt end).
  match goal with |- ∃ p', ?rhs = _ ∧ _ => assert (Em : rhs =
    (modify (λ p, set_heap (delete X (a_heap p)) (set_buffers (list_del X (a_buffers p)) p)) ;;
     m (dead_pages (buffer_end_page P) (buffer_start_page X) (buffer_end_page X)
        (buffer_start_page <$> head l2))) p) end.
  { unfold dead_pages, m. destruct (head l2) as [n|]; simpl;
      repeat match goal with |- context [?a =? ?b] => destruct (Z.eqb_spec a b) end; try done. }
  rewrite Em. rewrite (st_bind_eq _ _ p tt p1).
  2:{ unfold modify, p1, unlinked. rewrite E', list_del_split by done. by rewrite <- app_assoc. }
  clear Em.
  assert (Ha1 : area_ok p1) by (destruct Har; by split).
  assert (Hpres : ∀ q, in_area p q → present p1 q = true ↔
            covered (isf p) (l1 ++ P :: X :: l2) (limit p) q).
  { intros q Hq. change (present p1 q) with (present p q). rewrite (geo_pages p Hg q Hq). by rewrite E. }
  set (D := dead_pages (buffer_end_page P) (buffer_start_page X) (buffer_end_page X)
        (buffer_start_page <$> head l2)).
  assert (HD : ∀ q, aligned q → (∃ s e, D = Some (s, e) ∧ s <= q < e) ↔
      hdr_pages X q ∧ ¬ covered (isf p) (l1 ++ P :: l2) (limit p) q).
  { intros q Hq. unfold D. rewrite dead_pages_spec.
    - unfold hdr_pages, buffer_start_page. split.
      + intros (H1 & H2 & H3). split; [done|]. rewrite header_shared by done. naive_solver.
      + intros (H1 & H2). rewrite header_shared in H2 by done. naive_solver.
    - apply aligned_mask.
    - apply aligned_mask.
    - apply aligned_mask.
    - done.
    - unfold buffer_end_page, buffer_start_page. page_lia.
    - unfold buffer_end_page, buffer_start_page. page_lia.
    - unfold buffer_end_page, buffer_start_page. intros n Hn. destruct l2 as [|N l2]; [done|].
      simpl in *. simplify_eq. split; [apply aligned_mask|]. page_lia. }
  assert (Hfin : ∀ p', same_but_pages p1 p' →
    (∀ q, in_area p q → present p' q = true ↔ present p1 q = true ∧ ¬ ∃ s e, D = Some (s, e) ∧ s <= q < e) →
    geo p').
  { intros p' Hs Hpr. pose proof Hs as (pg & -> & El). split.
    - by eapply same_but_pages_area.
    - pose proof (geo_hd p Hg) as Hh. rewrite E in Hh. simpl. by destruct l1.
    - done.
    - intros b. simpl. pose proof (geo_heap p Hg b) as Hh. rewrite E in Hh.
      destruct (decide (b = X)) as [->|Hne].
      + rewrite lookup_delete_eq. split; [set_solver|]. by intros [? ?].
      + rewrite lookup_delete_ne by done. rewrite <- Hh. set_solver.
    - intros q Hq. rewrite Hpr by done. rewrite Hpres by done. rewrite HD by (by destruct Hq).
      change (limit (set_pages pg p1)) with (limit p).
      rewrite (covered_ext (isf (set_pages pg p1)) (isf p)).
      2:{ intros b Hb. apply (isf_unlinked X (l1 ++ P :: l2) p). intros ->. set_solver. }
      change (a_buffers (set_pages pg p1)) with (l1 ++ P :: l2).
      rewrite (covered_unlink (isf p) l1 P X) by done.
      destruct (covered_dec (isf p) l1 P X l2 (limit p) q ltac:(by destruct Hq) Hgaps HP); tauto. }
  destruct D as [[s e']|] eqn:ED; simpl.
  - unfold D in ED. apply dead_pages_bounds in ED as (Hs1 & Hs2 & Hs3 & Hs4);
      [|apply aligned_mask|apply aligned_mask|unfold buffer_end_page, buffer_start_page; page_lia].
    destruct Har as [HA HB HC HDd HE HF].
    destruct (update_free_ok e p1 s e' false Ha1 Hs1 Hs2) as (r & p' & Er & Hs & Hpr).
    + change (a_buffer p1) with (a_buffer p). unfold buffer_start_page in *. page_lia.
    + change (limit p1) with (limit p). unfold buffer_end_page, limit in *. page_lia.
    + intros x Hx1 Hx2. apply Hpres.
      * split; [done|]. unfold buffer_end_page, buffer_start_page, limit in *. page_lia.
      * destruct (proj1 (HD x Hx1)) as [Hh _]; [by eexists _, _|].
        rewrite (covered_unlink (isf p) l1 P X) by done. by left.
    + exists p'. unfold m. rewrite (st_bind_eq _ _ _ _ _ Er). split; [done|]. split; [done|].
      apply Hfin; [done|]. intros q Hq. rewrite Hpr by done.
      rewrite andb_true_iff, negb_true_iff, bool_decide_eq_false. naive_solver.
  - exists p1. split; [done|]. split; [apply same_but_pages_refl|].
    apply Hfin; [apply same_but_pages_refl|]. naive_solver.
Qed.
End delete.

Section merge.
Context {AR : Arch} {RB : RBOps} {RL : RBLaws}.
Implicit Types (l : list Z) (b : Z) (p : alloc).

Lemma same_but_pages_size p p' x : same_but_pages p p' → binder_buffer_size p' x = binder_buffer_size p x.
Proof. by intros (pg & -> & _). Qed.

(** Unlinking [X] changes the size of its predecessor only. *)
Lemma size_unlinked p p' l1 P X l2 x :
  geo p → a_buffers p = l1 ++ P :: X :: l2 → geo p' → a_buffers p' = l1 ++ P :: l2 →
  limit p' = limit p → x ∈ a_buffers p' → x ≠ P → binder_buffer_size p' x = binder_buffer_size p x.
Proof.
  intros Hg E Hg' E' El Hx Hne. rewrite !geo_size; [|done| |done|done].
  2:{ rewrite E. rewrite E' in Hx. set_solver. }
  rewrite E, E', El. rewrite E' in Hx.
  destruct (geo_split _ _ _ _ Hg' E') as [H1 H2].
  pose proof (geo_NoDup _ Hg') as Hnd. rewrite E' in Hnd. apply NoDup_app in Hnd as (_ & Hd & _).
  apply elem_of_app in Hx as [Hx|Hx].
  - by rewrite !sz_app_l.
  - assert (x ∉ l1) by (intros Hx'; by eapply Hd).
    rewrite !sz_app_r by done. apply elem_of_cons in Hx as [->|Hx]; [done|].
    simpl. rewrite !decide_False by done. rewrite decide_False; [done|].
    intros ->. pose proof (geo_NoDup _ Hg) as Hnd. rewrite E in Hnd.
    apply NoDup_app in Hnd as (_ & _ & [_ [Hnx _]%NoDup_cons]%NoDup_cons). done.
Qed.

Lemma filter_unlinked (P : Z → Prop) `{∀ x, Decision (P x)} l1 x y l2 :
  ¬ P y → filter P (l1 ++ x :: y :: l2) = filter P (l1 ++ x :: l2).
Proof.
  intros. rewrite !filter_app, !(filter_cons _ x).
  by rewrite (filter_cons_False _ y) by done.
Qed.

(** The invariant after unlinking the free [X] behind the free [P]. *)
Lemma unlink_inv p p' t l1 P X l2 :
  geo p → a_buffers p = l1 ++ P :: X :: l2 → isf p P = true → isf p X = true →
  inorder (a_allocated_buffers p) ≡ₚ filter (λ b, isf p b = false) (a_buffers p) →
  sorted_by id (inorder (a_allocated_buffers p)) → fits p →
  inorder t ≡ₚ filter (λ b, (isf p b = true ∧ b ≠ X) ∧ b ≠ P) (a_buffers p) →
  size_sorted p (inorder t) →
  same_but_pages (unlinked X (l1 ++ P :: l2) (set_free_buffers t p)) p' → geo p' →
  inv_but (Some P) p' ∧ frame p p'.
Proof.
  intros Hg E HP HX Hal1 Hal2 Hf Ht1 Ht2 Hs Hg'.
  pose proof Hs as (pg & Ep' & _).
  assert (Eb : a_buffers p' = l1 ++ P :: l2) by by rewrite Ep'.
  assert (El : limit p' = limit p) by by rewrite Ep'.
  assert (Eh : a_heap p' = delete X (a_heap p)) by by rewrite Ep'.
  assert (Ei : ∀ b, b ≠ X → isf p' b = isf p b).
  { intros b Hb. unfold isf. rewrite Eh. by rewrite lookup_delete_ne. }
  assert (HXn : ∀ b, b ∈ l1 ++ P :: l2 → b ≠ X).
  { assert (E2 : a_buffers p = (l1 ++ [P]) ++ X :: l2) by by rewrite E, <- app_assoc.
    destruct (geo_split _ _ _ _ Hg E2). set_solver. }
  assert (Hsz : ∀ b, b ∈ l1 ++ P :: l2 → b ≠ P → binder_buffer_size p' b = binder_buffer_size p b).
  { intros b Hb Hn. apply (size_unlinked p p' l1 P X l2); rewrite ?Eb; done. }
  split; [split; [done|..]|split].
  - replace (a_free_buffers p') with t by by rewrite Ep'.
    rewrite Ht1, E, Eb, filter_unlinked by naive_solver.
    erewrite list_filter_ext; [done|]. intros x Hx. cbv beta. rewrite Ei by auto.
    specialize (HXn x Hx). naive_solver.
  - unfold size_sorted in *. replace (a_free_buffers p') with t by by rewrite Ep'.
    eapply StronglySorted_impl; [|exact Ht2]. intros x y Hx Hy.
    rewrite Ht1 in Hx, Hy. apply list_elem_of_filter in Hx as [Hx1 Hx2], Hy as [Hy1 Hy2].
    rewrite E in Hx2, Hy2. rewrite !Hsz; [done|set_solver..].
  - replace (a_allocated_buffers p') with (a_allocated_buffers p) by by rewrite Ep'.
    rewrite Hal1, E, Eb, filter_unlinked by (rewrite HX; done).
    erewrite list_filter_ext; [done|]. intros x Hx. cbv beta. by rewrite Ei by auto.
  - by rewrite Ep'.
  - intros b x Hb Hx. rewrite Eh in Hb. apply lookup_delete_Some in Hb as [Hne Hb].
    rewrite Hsz.
    + by apply (Hf b x).
    + assert (Hin : b ∈ a_buffers p) by (apply (geo_heap p Hg); eauto). rewrite E in Hin. set_solver.
    + intros ->. rewrite (isf_lookup _ _ _ Hb) in HP. congruence.
  - by rewrite Ep'.
  - apply live_eq. intros b x Hx. rewrite Eh. rewrite lookup_delete_Some.
    split; [tauto|]. intros Hb. split; [|done]. intros ->. rewrite (isf_lookup _ _ _ Hb) in HX. congruence.
  - by rewrite Ep'.
  - by rewrite Ep'.
Qed.

Lemma geo_set_free_buffers t p : geo p → geo (set_free_buffers t p).
Proof. intros [[? ? ? ? ? ?] ? ? ? ?]. split; [by split|done..]. Qed.

Lemma merge_next_ok e p l1 b l2 :
  inv_but (Some b) p → a_buffers p = l1 ++ b :: l2 → isf p b = true →
  ∃ p' l2', binder_merge_next e b p = Ok (tt, p') ∧ inv_but (Some b) p' ∧ frame p p' ∧
    a_buffers p' = l1 ++ b :: l2' ∧ (∀ x, x ∈ l1 ++ b :: l2' → isf p' x = isf p x) ∧
    ((l2' = l2 ∧ ∀ n, head l2 = Some n → isf p n = false) ∨
     ∃ n, l2 = n :: l2' ∧ isf p n = true).
Proof.
  intros HI0 E Hb. pose proof HI0 as [Hg Hf Hfs Ha Has Hfit]. unfold binder_merge_next.
  rewrite (st_bind_eq _ _ p p p) by done.
  destruct (geo_split _ _ _ _ Hg E) as [Hb1 Hb2].
  replace (list_next b (a_buffers p)) with (head l2) by (by rewrite E, list_next_split).
  destruct l2 as [|n l2]; simpl.
  { exists p, []. split_and!; try done. left. naive_solver. }
  assert (Hn : is_Some (a_heap p !! n)) by (apply (geo_heap p Hg); rewrite E; set_solver).
  destruct Hn as [x Hn]. rewrite (st_bind_eq _ _ _ _ _ (buf_ok _ _ _ Hn)).
  destruct (b_free x) eqn:Ex; simpl.
  2:{ exists p, (n :: l2). split_and!; try done.
      left. split; [done|]. intros n' [= <-]. by rewrite (isf_lookup _ _ _ Hn). }
  assert (Hnf : isf p n = true) by by rewrite (isf_lookup _ _ _ Hn).
  set (t := rb_erase n (a_free_buffers p)).
  rewrite (st_bind_eq _ _ p tt (set_free_buffers t p)) by done.
  destruct (delete_free_ok e (set_free_buffers t p) l1 b n l2) as (p' & Er & Hs & Hg');
    [by apply geo_set_free_buffers|done..|].
  destruct (erase_perm (λ x, isf p x = true ∧ Some x ≠ Some b) (a_buffers p) (a_free_buffers p) n) as [E1 E2];
    [by apply geo_NoDup|done|].
  destruct (unlink_inv p p' t l1 b n l2) as [HI HF]; try done.
  - unfold t. rewrite E2. erewrite list_filter_ext; [done|]. intros y _. cbv beta. naive_solver.
  - unfold t. rewrite E1. by apply StronglySorted_filter.
  - exists p', l2. pose proof Hs as (pg & -> & _). split_and!; try done.
    + intros y Hy. apply (isf_unlinked n (l1 ++ b :: l2) (set_free_buffers t p)).
      intros ->. assert (E3 : a_buffers p = (l1 ++ [b]) ++ n :: l2) by by rewrite E, <- app_assoc.
      destruct (geo_split _ _ _ _ Hg E3). set_solver.
    + right. by exists n.
Qed.

Lemma merge_prev_ok e p l1 b l2 :
  inv_but (Some b) p → a_buffers p = l1 ++ b :: l2 → isf p b = true →
  ∃ p' b' l1', binder_merge_prev e b p = Ok (b', p') ∧ inv_but (Some b') p' ∧ frame p p' ∧
    isf p' b' = true ∧ a_buffers p' = l1' ++ b' :: l2 ∧ (∀ x, x ∈ l1' ++ b' :: l2 → isf p' x = isf p x) ∧
    ((l1' = l1 ∧ b' = b ∧ ∀ n, last l1 = Some n → isf p n = false) ∨
     (l1 = l1' ++ [b'] ∧ isf p b' = true)).
Proof.
  intros HI0 E Hb. pose proof HI0 as [Hg Hf Hfs Ha Has Hfit]. unfold binder_merge_prev.
  rewrite (st_bind_eq _ _ p p p) by done.
  destruct (geo_split _ _ _ _ Hg E) as [Hb1 Hb2].
  replace (list_prev b (a_buffers p)) with (last l1) by (by rewrite E, list_prev_split).
  destruct l1 as [|P l1 _] using rev_ind; simpl.
  { exists p, b, []. split_and!; try done. left. naive_solver. }
  rewrite last_snoc. rewrite <- app_assoc in E. simpl in E.
  assert (HP : is_Some (a_heap p !! P)) by (apply (geo_heap p Hg); rewrite E; set_solver).
  destruct HP as [x HP]. rewrite (st_bind_eq _ _ _ _ _ (buf_ok _ _ _ HP)).
  destruct (b_free x) eqn:Ex; simpl.
  2:{ exists p, b, (l1 ++ [P]). split_and!; try done; [by rewrite <- app_assoc|].
      left. split_and!; try done. intros n [= <-]. by rewrite (isf_lookup _ _ _ HP). }
  assert (HPf : isf p P = true) by by rewrite (isf_lookup _ _ _ HP).
  destruct (delete_free_ok e p l1 P b l2) as (p1 & Er & Hs & Hg1); [done..|].
  rewrite (st_bind_eq _ _ _ _ _ Er). clear Er.
  pose proof Hs as (pg & Ep1 & El). set (t := rb_erase P (a_free_buffers p1)).
  rewrite (st_bind_eq _ _ p1 tt (set_free_buffers t p1)) by done.
  destruct (erase_perm (λ x, isf p x = true ∧ Some x ≠ Some b) (a_buffers p) (a_free_buffers p) P) as [E1 E2];
    [by apply geo_NoDup|done|].
  assert (Et : t = rb_erase P (a_free_buffers p)) by (unfold t; by rewrite Ep1).
  destruct (unlink_inv p (set_free_buffers t p1) t l1 P b l2) as [HI HF]; try done.
  - rewrite Et, E2. erewrite list_filter_ext; [done|]. intros y _. cbv beta. naive_solver.
  - rewrite Et, E1. by apply StronglySorted_filter.
  - exists pg. split; [by rewrite Ep1|done].
  - by apply geo_set_free_buffers.
  - assert (Hi : ∀ y, y ∈ l1 ++ P :: l2 → isf (set_free_buffers t p1) y = isf p y).
    { intros y Hy. rewrite Ep1. apply (isf_unlinked b (l1 ++ P :: l2) p).
      intros ->. assert (E3 : a_buffers p = (l1 ++ [P]) ++ b :: l2) by by rewrite E, <- app_assoc.
      destruct (geo_split _ _ _ _ Hg E3). set_solver. }
    exists (set_free_buffers t p1), P, l1. split_and!; try done.
    + rewrite Hi; [done|set_solver].
    + by rewrite Ep1.
    + by right.
Qed.
End merge.

Section free.
Context {AR : Arch} {RB : RBOps} {RL : RBLaws}.
Implicit Types (l : list Z) (b : Z) (p : alloc).

Lemma ALIGN_range x : 0 <= x → x <= ALIGN x 4 <= ALIGN x word ∧ ALIGN x word < x + word.
Proof.
  intros Hx. destruct word_ok as [->| ->]; rewrite ?ALIGN4_div, ?ALIGN8_div;
    Z.to_euclidean_division_equations; lia.
Qed.

(** What [binder_free_buf] recomputes as the size is no more than what was
    reserved. *)
Lemma request_size_fits p b x :
  geo p → b ∈ a_buffers p → 0 <= b_data_size x → 0 <= b_offsets_size x →
  ALIGN (b_data_size x) word + ALIGN (b_offsets_size x) word <= binder_buffer_size p b →
  request_size sizeof_binder_ptr (b_data_size x) (b_offsets_size x) =
    ALIGN (b_data_size x) 4 + ALIGN (b_offsets_size x) 4 ∧
  0 <= ALIGN (b_data_size x) 4 + ALIGN (b_offsets_size x) 4 <= binder_buffer_size p b.
Proof.
  intros Hg Hb Hd Ho Hs. pose proof (ALIGN_range _ Hd). pose proof (ALIGN_range _ Ho).
  pose proof (geo_bounds p b Hg Hb). pose proof (geo_size p b Hg Hb) as Es.
  pose proof (sz_range _ _ _ (geo_gaps p Hg) Hb) as Hr. pose proof HDR_range.
  destruct (geo_area p Hg) as [A1 _ _ _ A2 _].
  unfold request_size, sizeof_binder_ptr.
  rewrite !(usz_small (ALIGN _ _)), usz_small by lia. lia.
Qed.

Definition set_async_if (c : bool) (n : Z) (p : alloc) : alloc :=
  if c then set_free_async_space n p else p.

(** The state once the pages are gone and [b] is marked free. *)
Lemma free_mark_inv p p1 p2 l1 b l2 x n :
  Inv p → a_buffers p = l1 ++ b :: l2 → a_heap p !! b = Some x → b_free x = false →
  p1 = set_async_if (b_async_transaction x) n p →
  same_but_pages p1 p2 →
  (∀ q, in_area p q → present p2 q = present p q &&
     negb (bool_decide (PAGE_ALIGN (b + HDR) <= q < page_mask (hd (limit p) l2)))) →
  let p3 := set_heap (<[b := set_free true x]> (a_heap p2))
              (set_allocated_buffers (rb_erase b (a_allocated_buffers p2)) p2) in
  inv_but (Some b) p3 ∧ same_area p p3 ∧ a_buffers p3 = l1 ++ b :: l2 ∧
  (∀ y, isf p3 y = if decide (y = b) then true else isf p y) ∧
  live p3 = delete b (live p).
Proof.
  intros [[Hg Hf Hfs Ha Has Hfit] _] E Hx Hxf -> Hs Hpr p3.
  assert (Hs' : ∃ pg, p3 = set_heap (<[b := set_free true x]> (a_heap p))
     (set_allocated_buffers (rb_erase b (a_allocated_buffers p)) (set_pages pg (set_async_if (b_async_transaction x) n p))) ∧
     length pg = length (a_pages p)).
  { destruct Hs as (pg & -> & El). exists pg. unfold p3, set_async_if in *.
    destruct (b_async_transaction x); (split; [reflexivity|exact El]). }
  destruct Hs' as (pg & Ep3 & El).
  assert (Ei : ∀ y, isf p3 y = if decide (y = b) then true else isf p y).
  { intros y. unfold isf. rewrite Ep3. simpl. destruct (decide (y = b)) as [->|Hn].
    - by rewrite lookup_insert_eq.
    - by rewrite lookup_insert_ne. }
  assert (Hb : isf p b = false) by by rewrite (isf_lookup _ _ _ Hx).
  destruct (geo_split _ _ _ _ Hg E) as [Hb1 Hb2].
  assert (Hsz : ∀ y, binder_buffer_size p3 y = binder_buffer_size p y).
  { intros y. rewrite Ep3. unfold set_async_if. by destruct (b_async_transaction x). }
  assert (Eb : a_buffers p3 = a_buffers p ∧ limit p3 = limit p ∧ a_free_buffers p3 = a_free_buffers p ∧
     a_allocated_buffers p3 = rb_erase b (a_allocated_buffers p) ∧
     a_heap p3 = <[b := set_free true x]> (a_heap p) ∧ same_area p p3).
  { rewrite Ep3. unfold set_async_if. destruct (b_async_transaction x); split_and!; first [done|by split]. }
  destruct Eb as (Eb & Elim & Ef & Eal & Eh & Hsa).
  assert (Hgeo : geo p3).
  { destruct Hg as [[] Hh Hgp Hheap Hpg]. split.
    - rewrite Ep3. unfold set_async_if. destruct (b_async_transaction x); split; simpl; rewrite ?El; done.
    - rewrite Eb. by rewrite (sa_buffer _ _ Hsa).
    - by rewrite Eb, Elim.
    - intros y. rewrite Eb, Hheap, Eh. destruct (decide (y = b)) as [->|Hn].
      + rewrite lookup_insert_eq, Hx. split; eauto.
      + by rewrite lookup_insert_ne.
    - intros q Hq.
      assert (Hq' : in_area p q).
      { unfold in_area in *. by rewrite <- Elim, <- (sa_buffer _ _ Hsa). }
      replace (present p3 q) with (present p2 q).
      2:{ destruct Hs as (? & -> & _). done. }
      rewrite Hpr, andb_true_iff, negb_true_iff, bool_decide_eq_false, (Hpg q Hq') by done.
      rewrite Eb, Elim, E, !covered_app. cbn [covered]. rewrite Ei, Hb, decide_True by done.
      rewrite (covered_ext (isf p3) (isf p) l1), (covered_ext (isf p3) (isf p) l2).
      2,3: intros y Hy; rewrite Ei, decide_False; [done|intros ->; done].
      rewrite E in Hgp.
      pose proof (body_exclusive (isf p) l1 b l2 (limit p) q (proj1 Hq') Hgp) as Hex.
      unfold body_pages in *. assert (true = false ↔ False) as -> by done.
      assert (false = false ↔ True) as -> by done. tauto. }
  split; [split; [done|..]|split_and!].
  - rewrite Ef, Hf, Eb. erewrite list_filter_ext; [done|]. intros y _. cbv beta. rewrite Ei.
    destruct (decide (y = b)) as [->|]; [rewrite Hb|]; naive_solver.
  - unfold size_sorted in *. rewrite Ef. eapply StronglySorted_impl; [|exact Hfs].
    intros y z _ _. by rewrite !Hsz.
  - rewrite Eal, Eb. destruct (erase_perm (λ y, isf p y = false) (a_buffers p) (a_allocated_buffers p) b) as [_ ->];
      [by apply geo_NoDup|done|].
    erewrite list_filter_ext; [done|]. intros y _. cbv beta. rewrite Ei.
    destruct (decide (y = b)); naive_solver.
  - rewrite Eal. destruct (erase_perm (λ y, isf p y = false) (a_buffers p) (a_allocated_buffers p) b) as [-> _];
      [by apply geo_NoDup|done|]. by apply sorted_by_filter.
  - intros y z Hy Hz. rewrite Hsz. rewrite Eh in Hy. destruct (decide (y = b)) as [->|Hn].
    + rewrite lookup_insert_eq in Hy. by simplify_eq.
    + rewrite lookup_insert_ne in Hy by done. by apply Hfit.
  - done.
  - by rewrite Eb.
  - done.
  - apply map_eq. intros y. apply option_eq. intros z. rewrite lookup_delete_Some, !live_lookup, Eh.
    destruct (decide (y = b)) as [->|Hn].
    + rewrite lookup_insert_eq. split; [|naive_solver]. intros [[= <-] ?]. done.
    + rewrite lookup_insert_ne by done. naive_solver.
Qed.

(** Putting the last free buffer in the tree completes the invariant. *)
Lemma insert_inv p b l1 l2 :
  inv_but (Some b) p → isf p b = true → a_buffers p = l1 ++ b :: l2 →
  coalesced (isf p) (a_buffers p) →
  ∃ t, binder_insert_free_buffer b p = Ok (tt, set_free_buffers t p) ∧ Inv (set_free_buffers t p).
Proof.
  intros [Hg Hf Hfs Ha Has Hfit] Hb E Hc.
  destruct (insert_free_ok p b Hb Hfs) as (t & Er & Ht1 & Ht2).
  { intros x Hx. rewrite Hf in Hx. apply list_elem_of_filter in Hx. tauto. }
  exists t. split; [done|]. split; [|done]. split; try done.
  - by apply geo_set_free_buffers.
  - cbn [a_free_buffers a_buffers set_free_buffers]. change (isf (set_free_buffers t p)) with (isf p).
    rewrite Ht1, Hf, E. rewrite !filter_app, !filter_cons.
    rewrite decide_False, decide_True by naive_solver. rewrite Permutation_middle.
    destruct (geo_split _ _ _ _ Hg E) as [Hb1 Hb2].
    f_equiv; [|f_equiv]; erewrite list_filter_ext; try done; intros x Hx; cbv beta;
      (split; [naive_solver|intros [? _]; split; [done|intros [= ->]; done]]).
Qed.

Lemma coalesced_merged (fr fr' : Z → bool) l1 b l2 l1' b' l2' :
  coalesced fr (l1 ++ b :: l2) → b ∉ l1 → b ∉ l2 →
  (∀ x, x ∈ l1 ++ l2 → fr' x = fr x) →
  ((l2' = l2 ∧ ∀ n, head l2 = Some n → fr' n = false) ∨ (∃ n, l2 = n :: l2' ∧ fr' n = true)) →
  ((l1' = l1 ∧ b' = b ∧ ∀ n, last l1 = Some n → fr' n = false) ∨ (l1 = l1' ++ [b'] ∧ fr' b' = true)) →
  coalesced fr' (l1' ++ b' :: l2').
Proof.
  intros Hc Hb1 Hb2 Hext Hn Hp.
  apply coalesced_mid in Hc as (H1 & H2 & _).
  rewrite (coalesced_ext fr fr' l1) in H1 by (intros; symmetry; apply Hext; set_solver).
  rewrite (coalesced_ext fr fr' l2) in H2 by (intros; symmetry; apply Hext; set_solver).
  apply coalesced_mid.
  assert (R : coalesced fr' l2' ∧ ∀ n, head l2' = Some n → fr' n = false).
  { destruct Hn as [(-> & Hn)|(n & -> & Hn)]; [done|].
    apply coalesced_cons in H2 as [H2 H3]. split; [done|]. intros m Hm.
    destruct (fr' m) eqn:Em; [|done]. exfalso. by eapply H2. }
  assert (L : coalesced fr' l1' ∧ ∀ n, last l1' = Some n → fr' n = false).
  { destruct Hp as [(-> & -> & Hp)|(-> & Hp)]; [done|].
    apply coalesced_snoc in H1 as [H1 H3]. split; [done|]. intros m Hm.
    destruct (fr' m) eqn:Em; [|done]. exfalso. by eapply H3. }
  destruct R as [R1 R2], L as [L1 L2]. split_and!; [done..| |].
  - intros n Hn' [Hx _]. rewrite (L2 n Hn') in Hx. done.
  - intros n Hn' [_ Hx]. rewrite (R2 n Hn') in Hx. done.
Qed.

(** Marking, merging and inserting: the second half of [binder_free_buf]. *)
Lemma merge_insert_ok e p0 p l1 b l2 :
  inv_but (Some b) p → a_buffers p = l1 ++ b :: l2 → isf p b = true →
  coalesced (isf p0) (l1 ++ b :: l2) → (∀ y, isf p y = if decide (y = b) then true else isf p0 y) →
  ∃ p', (binder_merge_next e b ;; b' ← binder_merge_prev e b; binder_insert_free_buffer b') p = Ok (tt, p') ∧
    Inv p' ∧ frame p p'.
Proof.
  intros HI E Hb Hc Hi. destruct (geo_split _ _ _ _ (inv_geo _ _ HI) E) as [Hb1 Hb2].
  destruct (merge_next_ok e p l1 b l2 HI E Hb) as (p1 & l2' & E1 & HI1 & F1 & Eb1 & Hi1 & Hm1).
  rewrite (st_bind_eq _ _ _ _ _ E1).
  destruct (merge_prev_ok e p1 l1 b l2' HI1 Eb1) as (p2 & b' & l1' & E2 & HI2 & F2 & Hb' & Eb2 & Hi2 & Hm2).
  { rewrite Hi1; [done|set_solver]. }
  rewrite (st_bind_eq _ _ _ _ _ E2).
  assert (Hsub2 : ∀ x, x ∈ l2' → x ∈ l2).
  { destruct Hm1 as [(-> & _)|(n & -> & _)]; set_solver. }
  assert (Hsub1 : ∀ x, x ∈ l1' ++ b' :: l2' → x ∈ l1 ++ b :: l2').
  { destruct Hm2 as [(-> & -> & _)|(-> & _)]; set_solver. }
  assert (Hall : ∀ x, x ∈ l1' ++ b' :: l2' → isf p2 x = isf p x).
  { intros x Hx. rewrite Hi2, Hi1 by auto. done. }
  destruct (insert_inv p2 b' l1' l2' HI2 Hb' Eb2) as (t & E3 & HI3).
  { rewrite Eb2. rewrite (coalesced_ext _ (isf p)) by done.
    apply (coalesced_merged (isf p0) (isf p) l1 b l2 l1' b' l2'); try done.
    - intros x Hx. rewrite Hi, decide_False; [done|]. intros ->. set_solver.
    - assert (Hl1 : ∀ n, last l1 = Some n → n ∈ l1 ++ b :: l2').
      { intros n ?%last_Some_elem_of. set_solver. }
      destruct Hm2 as [(-> & -> & Hl)|(-> & Hl)]; [left|right].
      + split_and!; [done..|]. intros n Hn. rewrite <- Hi1 by auto. by apply Hl.
      + split; [done|]. rewrite <- Hi1; [done|set_solver]. }
  exists (set_free_buffers t p2). split; [done|]. split; [done|].
  eapply frame_trans; [exact F1|]. eapply frame_trans; [exact F2|]. by split.
Qed.

(** [binder_free_buf] frees a buffer in use: no oops, the invariant holds again,
    and nothing else changes for the other buffers in use. *)
Lemma free_buf_ok e p b x :
  Inv p → live p !! b = Some x → b_transaction x = 0 →
  ∃ p', binder_free_buf e b p = Ok (tt, p') ∧ Inv p' ∧ same_area p p' ∧
    live p' = delete b (live p) ∧ a_stop_on_user_error p' = a_stop_on_user_error p ∧
    a_free_async_space p' =
      if b_async_transaction x
      then usz (a_free_async_space p + usz (request_size sizeof_binder_ptr (b_data_size x) (b_offsets_size x) + HDR))
      else a_free_async_space p.
Proof.
  intros HI [Hx Hxf]%live_lookup Ht. pose proof HI as [[Hg _ _ _ _ Hfit] Hc].
  assert (Hin : b ∈ a_buffers p) by (apply (geo_heap p Hg); eauto).
  destruct (list_elem_of_split _ _ Hin) as (l1 & l2 & E).
  destruct (geo_bounds p b Hg Hin) as [B1 B2].
  destruct (Hfit b x Hx Hxf) as (D1 & D2 & D3).
  destruct (request_size_fits p b x Hg Hin D1 D2 D3) as [Rs Rr].
  pose proof HDR_range as Hr. pose proof (geo_size_split p l1 b l2 Hg E) as Hsz.
  unfold binder_free_buf. rewrite (st_bind_eq _ _ p p p) by done.
  rewrite (st_bind_eq _ _ _ _ _ (buf_ok _ _ _ Hx)). cbv zeta.
  rewrite Hxf, Ht. rewrite (st_bind_eq _ _ p tt p) by done.
  rewrite (st_bind_eq _ _ p tt p).
  2:{ rewrite Rs, Z.gtb_ltb. destruct (Z.ltb_spec (binder_buffer_size p b) (ALIGN (b_data_size x) 4 + ALIGN (b_offsets_size x) 4)); [lia|done]. }
  rewrite (st_bind_eq _ _ p tt p) by done.
  rewrite (st_bind_eq _ _ p tt p) by (destruct (Z.ltb_spec b (a_buffer p)); [lia|done]).
  rewrite (st_bind_eq _ _ p tt p).
  2:{ rewrite Z.gtb_ltb. unfold limit in *. destruct (Z.ltb_spec (a_buffer p + a_buffer_size p) b); [lia|done]. }
  set (n := usz (a_free_async_space p + usz (request_size sizeof_binder_ptr (b_data_size x) (b_offsets_size x) + HDR))).
  set (p1 := set_async_if (b_async_transaction x) n p).
  rewrite (st_bind_eq _ _ p tt p1) by (unfold p1, set_async_if; by destruct (b_async_transaction x)).
  assert (Esame : area_ok p1 ∧ a_buffer p1 = a_buffer p ∧ limit p1 = limit p ∧ a_heap p1 = a_heap p ∧
     (∀ q, present p1 q = present p q) ∧ a_stop_on_user_error p1 = a_stop_on_user_error p).
  { pose proof (geo_area p Hg) as [? ? ? ? ? ?].
    unfold p1, set_async_if. destruct (b_async_transaction x); split_and!; first [done|by split]. }
  destruct Esame as (Ha1 & Eb1 & El1 & Eh1 & Epr1 & Est1).
  replace (page_mask (b + HDR + binder_buffer_size p b)) with (page_mask (hd (limit p) l2)) by (f_equal; lia).
  assert (Hgaps : gaps (l1 ++ b :: l2) (limit p)) by (rewrite <- E; apply Hg).
  assert (Hend : b + HDR <= hd (limit p) l2 <= limit p).
  { apply gaps_app in Hgaps as [_ [? Hg2]]. split; [done|]. destruct l2 as [|y l2]; simpl; [done|].
    pose proof (gaps_le _ _ y Hg2 (list_elem_of_here _ _)). lia. }
  destruct (geo_area p Hg) as [A1 A2 A3 A4 A5 A6].
  destruct (update_free_ok e p1 (PAGE_ALIGN (b + HDR)) (page_mask (hd (limit p) l2)) false Ha1)
    as (r & p2 & Er & Hs & Hpr).
  { apply aligned_PAGE_ALIGN. } { apply aligned_mask. }
  { rewrite Eb1. page_lia. } { rewrite El1. unfold limit in *. page_lia. }
  { intros q Hq1 Hq2. rewrite Epr1. apply (geo_pages p Hg).
    - split; [done|]. unfold limit in *. page_lia.
    - rewrite E, covered_app. cbn [covered]. rewrite (isf_lookup _ _ _ Hx), Hxf. right. right. left. done. }
  rewrite (st_bind_eq _ _ _ _ _ Er).
  assert (Hpr' : ∀ q, in_area p q → present p2 q = present p q &&
     negb (bool_decide (PAGE_ALIGN (b + HDR) <= q < page_mask (hd (limit p) l2)))).
  { intros q Hq. rewrite Hpr; [by rewrite Epr1|]. unfold in_area in *. by rewrite Eb1, El1. }
  pose proof (free_mark_inv p p1 p2 l1 b l2 x n HI E Hx Hxf eq_refl Hs Hpr') as Hm.
  set (p3 := set_heap (<[b := set_free true x]> (a_heap p2))
              (set_allocated_buffers (rb_erase b (a_allocated_buffers p2)) p2)) in Hm.
  destruct Hm as (HI3 & Hsa & Eb3 & Ei3 & El3).
  rewrite (st_bind_eq _ _ p2 tt (set_allocated_buffers (rb_erase b (a_allocated_buffers p2)) p2)) by done.
  assert (Eu : upd_buf b (set_free true)
      (set_allocated_buffers (rb_erase b (a_allocated_buffers p2)) p2) = Ok (tt, p3)).
  { rewrite (upd_buf_ok _ b _ x); [done|]. simpl. destruct Hs as (pg & -> & _). by rewrite <- Hx, <- Eh1. }
  rewrite (st_bind_eq _ _ _ _ _ Eu).
  destruct (merge_insert_ok e p p3 l1 b l2 HI3 Eb3) as (p' & E' & HI' & [F1 F2 F3 F4]).
  { by rewrite Ei3, decide_True. } { by rewrite <- E. } { done. }
  exists p'. split; [exact E'|]. split; [done|]. split; [by eapply same_area_trans|].
  split; [congruence|]. destruct Hs as (pg & Ep2 & _).
  rewrite F3, F4. unfold p3. rewrite Ep2. simpl. split; [done|].
  unfold p1, set_async_if. by destruct (b_async_transaction x).
Qed.
End free.
