(* ===== verification/BinderAllocTake.v ===== *)
(** Allocating: the best fit search, splitting, and [binder_alloc_buf] as a
    whole. *)
From S2P Require Import Prelude RBTree BinderAlloc BinderAllocPages BinderAllocInv BinderAllocFree.

(** ** The search *)

Section search.
Context {AR : Arch} {RB : RBOps} {RL : RBLaws}.
Implicit Types (l : list Z) (b : Z) (p : alloc).

(** What the best fit loop finds in a sorted tree: an exact fit, or the smallest
    of the buffers larger than the request, or the best known before. *)
Lemma best_fit_ok p size t best r exact :
  size_sorted p (inorder t) → best_fit p size t best = (r, exact) →
  match exact, r with
  | true, Some b => b ∈ inorder t ∧ binder_buffer_size p b = size
  | true, None => False
  | false, Some b =>
      (b ∈ inorder t ∧ size < binder_buffer_size p b ∧
       ∀ c, c ∈ inorder t → binder_buffer_size p c < size ∨ binder_buffer_size p b <= binder_buffer_size p c) ∨
      (best = Some b ∧ ∀ c, c ∈ inorder t → binder_buffer_size p c < size)
  | false, None => best = None ∧ ∀ c, c ∈ inorder t → binder_buffer_size p c < size
  end.
Proof.
  revert best r exact. induction t as [|l IHl b u IHu]; intros best r exact Hs E; simpl in *.
  - simplify_eq. destruct r; [right|]; split; try done; intros c Hc; by apply not_elem_of_nil in Hc.
  - apply StronglySorted_app in Hs as (Hlu & Hl & [Hb Hu]%StronglySorted_cons).
    rewrite Forall_forall in Hb.
    assert (Hbb : ∀ c, c ∈ inorder l → binder_buffer_size p c <= binder_buffer_size p b).
    { intros c Hc. apply Hlu; [done|left]. }
    destruct (Z.ltb_spec size (binder_buffer_size p b)) as [Hlt|Hge].
    + specialize (IHl _ _ _ Hl E). destruct exact, r as [b'|]; try done.
      * destruct IHl. split; [set_solver|done].
      * destruct IHl as [(H1 & H2 & H3)|([= <-] & H3)]; left.
        -- split_and!; [set_solver|done|]. intros c [Hc|[->|Hc]%elem_of_cons]%elem_of_app; [auto|..].
           ++ right. by apply Hbb.
           ++ right. specialize (Hb c Hc). cbv beta in Hb. specialize (Hbb b' H1). lia.
        -- split_and!; [set_solver|done|]. intros c [Hc|[->|Hc]%elem_of_cons]%elem_of_app; [auto|right; lia|].
           right. by apply Hb.
      * by destruct IHl as [? _].
    + rewrite Z.gtb_ltb in E. destruct (Z.ltb_spec (binder_buffer_size p b) size) as [Hlt|Hge'].
      * specialize (IHu _ _ _ Hu E).
        assert (Hsm : ∀ c, c ∈ inorder l ∨ c = b → binder_buffer_size p c < size).
        { intros c [Hc| ->]; [specialize (Hbb c Hc); lia|done]. }
        destruct exact, r as [b'|]; try done.
        -- destruct IHu. split; [set_solver|done].
        -- destruct IHu as [(H1 & H2 & H3)|(H1 & H3)]; [left|right].
           ++ split_and!; [set_solver|done|]. intros c [Hc|[->|Hc]%elem_of_cons]%elem_of_app; auto.
           ++ split; [done|]. intros c [Hc|[->|Hc]%elem_of_cons]%elem_of_app; auto.
        -- destruct IHu as [H1 H3]. split; [done|].
           intros c [Hc|[->|Hc]%elem_of_cons]%elem_of_app; auto.
      * simplify_eq. split; [set_solver|lia].
Qed.

(** When the size check of [binder_alloc_buf] passes, nothing wrapped around. *)
Lemma request_size_exact ds os :
  0 <= ds < 2 ^ (8 * word) → 0 <= os < 2 ^ (8 * word) →
  ds <= request_size word ds os → os <= request_size word ds os →
  request_size word ds os = ALIGN ds word + ALIGN os word.
Proof.
  intros Hd Ho. unfold request_size, usz.
  destruct word_ok as [E|E]; rewrite E in *; rewrite ?ALIGN4_div, ?ALIGN8_div;
    Z.to_euclidean_division_equations; lia.
Qed.

Lemma request_size_bounds ds os : 0 <= request_size word ds os < 2 ^ (8 * word).
Proof. unfold request_size, usz. apply Z.mod_pos_bound. destruct word_ok as [-> | ->]; lia. Qed.

(** ** Pages of a split *)

(** [binder_alloc_buf] maps exactly the pages the new layout needs, without a
    split: the slack of at most [HDR + 4] bytes holds no whole page. *)
Lemma whole_pages b size e q :
  aligned q → 0 <= size → b + HDR + size <= e → e <= b + HDR + size + HDR + 4 →
  (PAGE_ALIGN (b + HDR) <= q < Z.min (PAGE_ALIGN (b + HDR + size)) (page_mask e)) ↔ body_pages b e q.
Proof.
  intros [k ->]%aligned_mult ? ? ?. pose proof HDR_range. unfold body_pages. page_lia.
Qed.

(** With a split at [n]: the rest of the body and the header of the new buffer. *)
Lemma split_pages fr b n e l2 lim q :
  aligned q → aligned lim → q < lim → e = hd lim l2 → b + HDR <= n → n + HDR + 4 < e →
  (PAGE_ALIGN (b + HDR) <= q < Z.min (PAGE_ALIGN (n + HDR)) (page_mask e)) ∨ hdr_pages b q ∨ covered fr l2 lim q ↔
  body_pages b n q ∨ hdr_pages n q ∨ hdr_pages b q ∨ covered fr l2 lim q.
Proof.
  intros [k ->]%aligned_mult [kl ->]%aligned_mult Hq He Hn1 Hn2. pose proof HDR_range.
  assert (Hnext : page_mask e = 4096 * k → e < 4096 * kl → covered fr l2 (4096 * kl) (4096 * k)).
  { destruct l2 as [|m l2]; simpl in He; [lia|]. intros Hk _. left. unfold hdr_pages. subst m. page_lia. }
  assert (Hlast : e < 4096 * kl ∨ l2 = [] ∨ 4096 * kl <= e) by lia.
  assert (Hle : l2 = [] → e = 4096 * kl) by (intros ->; done).
  unfold body_pages, hdr_pages. split.
  - intros [Hr|[Hh|Hc]]; [|tauto|tauto]. destruct (decide (4096 * k < page_mask n)); [left|right; left]; page_lia.
  - intros [Hr|[Hh|[Hh|Hc]]]; [left; page_lia| |tauto|tauto].
    destruct (decide (PAGE_ALIGN (b + HDR) <= 4096 * k)) as [H1|H1]; [|right; left; page_lia].
    destruct (decide (4096 * k < page_mask e)) as [H2|H2]; [left; page_lia|].
    right. right. apply Hnext; page_lia.
Qed.
End search.

(** ** The state after a buffer is taken *)

Section take.
Context {AR : Arch} {RB : RBOps} {RL : RBLaws}.
Implicit Types (l : list Z) (b : Z) (p : alloc) (new : option Z).

(** The buffers once [b] is taken, with a new one split off or not. *)
Definition taken l1 b new l2 : list Z := l1 ++ b :: option_list new ++ l2.

Lemma elem_of_option_list' {A} (o : option A) c : c ∈ option_list o ↔ o = Some c.
Proof. destruct o; simpl; [rewrite list_elem_of_singleton; naive_solver|]. rewrite elem_of_nil. naive_solver. Qed.

(** Where a split may be. *)
Definition split_ok p b new l2 : Prop :=
  ∀ n, new = Some n → b + HDR <= n ∧ n + HDR <= hd (limit p) l2.

Lemma taken_gaps p l1 b new l2 :
  gaps (l1 ++ b :: l2) (limit p) → split_ok p b new l2 → gaps (taken l1 b new l2) (limit p).
Proof.
  intros Hg Hn. unfold taken. destruct new as [n|]; simpl; [|done].
  destruct (Hn n eq_refl). by apply gaps_insert.
Qed.

Lemma taken_fresh p l1 b n l2 :
  gaps (l1 ++ b :: l2) (limit p) → split_ok p b (Some n) l2 → n ∉ l1 ++ b :: l2.
Proof.
  intros Hg Hn Hin. destruct (Hn n eq_refl) as [H1 H2]. pose proof HDR_range.
  apply elem_of_app in Hin as [Hin|[->|Hin]%elem_of_cons].
  - pose proof (gaps_split_before _ _ _ _ _ Hg Hin). lia.
  - lia.
  - apply gaps_app in Hg as [_ [_ Hg]]. pose proof (gaps_hd _ _ _ Hg Hin). lia.
Qed.

(** Sizes of the other buffers do not change. *)
Lemma size_taken p p' l1 b new l2 y :
  geo p → a_buffers p = l1 ++ b :: l2 → split_ok p b new l2 →
  a_buffers p' = taken l1 b new l2 → same_area p p' → length (a_pages p') = length (a_pages p) →
  y ∈ a_buffers p → y ≠ b → binder_buffer_size p' y = binder_buffer_size p y.
Proof.
  intros Hg E Hn E' Hsa Hlp Hy Hne. destruct (geo_area p Hg) as [? ? ? ? ? ?].
  assert (Elim : limit p' = limit p) by (unfold limit; by rewrite (sa_buffer _ _ Hsa), (sa_size _ _ Hsa)).
  assert (Hgaps : gaps (taken l1 b new l2) (limit p)) by (apply taken_gaps; [rewrite <- E; apply Hg|done]).
  rewrite (geo_size p y Hg Hy), size_sz; cycle 1.
  { split; rewrite ?(sa_buffer _ _ Hsa), ?(sa_size _ _ Hsa), ?Elim, ?Hlp; done. }
  { pose proof (geo_hd p Hg) as Hh. rewrite E in Hh. rewrite E', (sa_buffer _ _ Hsa).
    unfold taken. by destruct l1. }
  { by rewrite E', Elim. }
  { rewrite E' . rewrite E in Hy. unfold taken. set_solver. }
  rewrite E', Elim, E. rewrite E in Hy. unfold taken in *.
  pose proof (gaps_NoDup _ _ Hgaps) as Hnd. apply NoDup_app in Hnd as (_ & Hd & Hnd).
  apply elem_of_app in Hy as [Hy|Hy]; [by rewrite !sz_app_l|].
  assert (y ∉ l1) by (intros Hy'; eapply Hd; [done|]; set_solver).
  rewrite !sz_app_r by done. apply elem_of_cons in Hy as [->|Hy]; [done|].
  simpl. rewrite !decide_False by done. destruct new as [n|]; simpl; [|done].
  rewrite decide_False; [done|]. intros ->.
  apply NoDup_cons in Hnd as [_ [Hnx _]%NoDup_cons]. done.
Qed.

Definition heap_taken (h : gmap Z binder_buffer) b x new y : gmap Z binder_buffer :=
  match new with None => <[b := x]> h | Some n => <[n := y]> (<[b := x]> h) end.

Lemma isf_taken p p' b x new y c :
  a_heap p' = heap_taken (a_heap p) b x new y → b_free x = false → b_free y = true → new ≠ Some b →
  isf p' c = if decide (c = b) then false else if decide (new = Some c) then true else isf p c.
Proof.
  intros Eh Hx Hy Hnb. unfold isf. rewrite Eh. unfold heap_taken.
  destruct new as [n|].
  - destruct (decide (n = c)) as [->|Hn].
    + rewrite lookup_insert_eq, Hy. rewrite decide_False by congruence. by rewrite decide_True.
    + rewrite lookup_insert_ne by done. destruct (decide (c = b)) as [->|Hc].
      * by rewrite lookup_insert_eq.
      * rewrite lookup_insert_ne by done. rewrite decide_False by congruence. done.
  - destruct (decide (c = b)) as [->|Hc]; [by rewrite lookup_insert_eq|by rewrite lookup_insert_ne].
Qed.

End take.

(** The state [p'] after the free buffer [b] of [p] is taken, [new] being split
    off it, field by field; each lemma gives one part of the invariant. *)
Section taken_state.
Context {AR : Arch} {RB : RBOps} {RL : RBLaws}.
Variables (p p' : alloc) (l1 l2 : list Z) (b : Z) (x x' y : binder_buffer) (new : option Z).
Hypothesis HI : Inv p.
Hypothesis E : a_buffers p = l1 ++ b :: l2.
Hypothesis Hx : a_heap p !! b = Some x.
Hypothesis Hxf : b_free x = true.
Hypothesis Hn : split_ok p b new l2.
Hypothesis E' : a_buffers p' = taken l1 b new l2.
Hypothesis Eh : a_heap p' = heap_taken (a_heap p) b x' new y.
Hypothesis Hx' : b_free x' = false.
Hypothesis Hy : b_free y = true.
Hypothesis Hsa : same_area p p'.
Hypothesis Hlp : length (a_pages p') = length (a_pages p).

Lemma ts_gaps : gaps (l1 ++ b :: l2) (limit p).
Proof. rewrite <- E. apply HI. Qed.

Lemma ts_fresh n : new = Some n → n ∉ a_buffers p.
Proof. intros Hnew. rewrite E. eapply taken_fresh; [apply ts_gaps|]. by rewrite <- Hnew. Qed.

Lemma ts_new_ne : new ≠ Some b.
Proof. intros Hnew. eapply ts_fresh; [done|]. rewrite E. set_solver. Qed.

Lemma ts_isf c : isf p' c = if decide (c = b) then false else if decide (new = Some c) then true else isf p c.
Proof. eapply isf_taken; eauto using ts_new_ne. Qed.

Lemma ts_isf_old c : c ∈ a_buffers p → isf p' c = if decide (c = b) then false else isf p c.
Proof.
  intros Hc. rewrite ts_isf. destruct (decide (c = b)); [done|].
  rewrite decide_False; [done|]. intros Hnew. by eapply ts_fresh.
Qed.

Lemma ts_limit : limit p' = limit p.
Proof. unfold limit. by rewrite (sa_buffer _ _ Hsa), (sa_size _ _ Hsa). Qed.

(** Lookups in the new heap. *)
Lemma ts_heap c : a_heap p' !! c =
  if decide (new = Some c) then Some y else if decide (c = b) then Some x' else a_heap p !! c.
Proof.
  pose proof ts_new_ne as Hne. rewrite Eh. unfold heap_taken. destruct new as [n|].
  - destruct (decide (n = c)) as [->|Hnc].
    + by rewrite lookup_insert_eq, decide_True.
    + rewrite lookup_insert_ne, (decide_False (P := Some n = Some c)) by congruence.
      destruct (decide (c = b)) as [->|]; [by rewrite lookup_insert_eq|by rewrite lookup_insert_ne].
  - rewrite decide_False by done.
    destruct (decide (c = b)) as [->|]; [by rewrite lookup_insert_eq|by rewrite lookup_insert_ne].
Qed.

Lemma ts_geo :
  (∀ q, in_area p q → present p' q = true ↔ covered (isf p') (taken l1 b new l2) (limit p) q) → geo p'.
Proof.
  intros Hpg. pose proof (inv_geo _ _ (inv_all _ HI)) as Hg. destruct (geo_area p Hg) as [? ? ? ? ? ?]. split.
  - split; rewrite ?(sa_buffer _ _ Hsa), ?(sa_size _ _ Hsa), ?ts_limit, ?Hlp; done.
  - pose proof (geo_hd p Hg) as Hh. rewrite E in Hh. rewrite E', (sa_buffer _ _ Hsa).
    unfold taken. by destruct l1.
  - rewrite E', ts_limit. apply taken_gaps; [apply ts_gaps|done].
  - intros c. rewrite ts_heap, E'. unfold taken.
    assert (Hold : c ∈ l1 ++ b :: l2 ↔ is_Some (a_heap p !! c)) by (rewrite <- E; apply (geo_heap p Hg)).
    destruct (decide (new = Some c)) as [->|Hnc]; [simpl; split; [eauto|set_solver]|].
    destruct (decide (c = b)) as [->|Hcb]; [split; [eauto|set_solver]|].
    rewrite <- Hold. destruct new as [n|]; simpl; set_solver.
  - intros q Hq. rewrite E', ts_limit. apply Hpg.
    unfold in_area in *. by rewrite <- ts_limit, <- (sa_buffer _ _ Hsa).
Qed.

(** Elements of the new list other than the new buffer and [b]. *)
Lemma ts_filter (P Q : Z → Prop) `{∀ c, Decision (P c), ∀ c, Decision (Q c)} (l : list Z) :
  (∀ c, c ∈ l → c ∈ a_buffers p) → (∀ c, c ∈ a_buffers p → P c ↔ Q c) → filter P l = filter Q l.
Proof. intros Hl Hpq. apply list_filter_ext. intros c Hc. by apply Hpq, Hl. Qed.

Lemma ts_free_perm :
  option_list new ++ filter (λ c, isf p c = true ∧ c ≠ b) (a_buffers p) ≡ₚ
  filter (λ c, isf p' c = true ∧ Some c ≠ None) (a_buffers p').
Proof.
  rewrite E', E. unfold taken. rewrite !filter_app, !filter_cons, filter_app.
  rewrite (decide_False (P := _ ∧ b ≠ b)) by naive_solver.
  rewrite decide_False by (rewrite ts_isf, decide_True by done; naive_solver).
  rewrite (list_filter_all _ (option_list new)).
  2:{ intros c Hc%elem_of_option_list'. rewrite ts_isf, decide_False, decide_True; [done..|].
      intros ->. by apply ts_new_ne. }
  rewrite Permutation_app_swap_app.
  f_equiv; [|f_equiv]; (erewrite ts_filter; [done|rewrite E; set_solver|]);
    intros c Hc; cbv beta; rewrite ts_isf_old by done; destruct (decide (c = b)); naive_solver.
Qed.

Lemma ts_allocated_perm :
  b :: filter (λ c, isf p c = false) (a_buffers p) ≡ₚ filter (λ c, isf p' c = false) (a_buffers p').
Proof.
  assert (Hb : isf p b = true) by by rewrite (isf_lookup _ _ _ Hx).
  rewrite E', E. unfold taken. rewrite !filter_app, !filter_cons, filter_app.
  rewrite (decide_False (P := isf p b = false)) by congruence.
  rewrite decide_True by (by rewrite ts_isf, decide_True).
  rewrite (list_filter_none _ (option_list new)).
  2:{ intros c Hc%elem_of_option_list'. rewrite ts_isf, decide_False, decide_True; [done..|].
      intros ->. by apply ts_new_ne. }
  destruct (geo_split _ _ _ _ (inv_geo _ _ (inv_all _ HI)) E) as [Hb1 Hb2].
  rewrite app_nil_l, Permutation_middle.
  f_equiv; [|f_equiv]; (erewrite list_filter_ext; [done|]);
    intros c Hc; cbv beta; (rewrite ts_isf_old by (rewrite E; set_solver));
    (rewrite decide_False; [done|intros ->; done]).
Qed.

Lemma ts_fits :
  (0 <= b_data_size x' ∧ 0 <= b_offsets_size x' ∧
   ALIGN (b_data_size x') word + ALIGN (b_offsets_size x') word <= binder_buffer_size p' b) → fits p'.
Proof.
  intros Hfx c z Hc Hz. rewrite ts_heap in Hc.
  destruct (decide (new = Some c)) as [|Hnc]; [congruence|].
  destruct (decide (c = b)) as [->|Hcb]; [by simplify_eq|].
  pose proof (inv_all _ HI) as [Hg _ _ _ _ Hfit].
  rewrite (size_taken p p' l1 b new l2); try done; [by apply Hfit|].
  apply (geo_heap p Hg). eauto.
Qed.

Lemma ts_coalesced : coalesced (isf p') (a_buffers p').
Proof.
  assert (Hb : isf p b = true) by by rewrite (isf_lookup _ _ _ Hx).
  destruct (geo_split _ _ _ _ (inv_geo _ _ (inv_all _ HI)) E) as [Hb1 Hb2].
  pose proof (inv_coalesced _ HI) as Hc. rewrite E in Hc.
  apply coalesced_mid in Hc as (H7 & H8 & H9 & H10).
  assert (Hext : ∀ c, c ∈ l1 ++ l2 → isf p' c = isf p c).
  { intros c Hcin. rewrite ts_isf_old by (rewrite E; set_solver). rewrite decide_False; [done|].
    intros ->. set_solver. }
  rewrite (coalesced_ext _ (isf p')) in H7 by (intros; symmetry; apply Hext; set_solver).
  rewrite (coalesced_ext _ (isf p')) in H8 by (intros; symmetry; apply Hext; set_solver).
  assert (Hbf : isf p' b = false) by by rewrite ts_isf, decide_True.
  rewrite E'. unfold taken. apply coalesced_mid. split; [done|].
  destruct new as [n|]; [change (option_list (Some n) ++ l2) with (n :: l2)|
    change (option_list (@None Z) ++ l2) with l2].
  - rewrite coalesced_cons. split_and!; try done; try (intros m _; rewrite Hbf; naive_solver).
    intros m Hm [_ Hm']. apply (H10 m Hm). split; [done|].
    rewrite <- Hext; [done|]. apply head_Some_elem_of in Hm. set_solver.
  - split_and!; [done|intros m _; rewrite Hbf; naive_solver..].
Qed.

Lemma ts_live : live p' = <[b := x']> (live p).
Proof.
  apply map_eq. intros c. apply option_eq. intros z. rewrite live_lookup, ts_heap.
  destruct (decide (c = b)) as [->|Hcb].
  - rewrite lookup_insert_eq, decide_False by apply ts_new_ne. naive_solver.
  - rewrite lookup_insert_ne by done. rewrite live_lookup.
    destruct (decide (new = Some c)) as [Hnc|]; [|done].
    assert (Hnone : a_heap p !! c = None).
    { apply eq_None_not_Some. intros Hs. eapply ts_fresh; [exact Hnc|].
      by apply (geo_heap _ (inv_geo _ _ (inv_all _ HI))). }
    rewrite Hnone. split; [intros [[= <-] ?]; congruence|intros [? _]; done].
Qed.

(** The invariant and the view of the clients after a buffer is taken. *)
Lemma take_inv :
  inorder (a_free_buffers p') ≡ₚ
    option_list new ++ filter (λ c, isf p c = true ∧ c ≠ b) (a_buffers p) →
  size_sorted p' (inorder (a_free_buffers p')) →
  inorder (a_allocated_buffers p') ≡ₚ b :: inorder (a_allocated_buffers p) →
  sorted_by id (inorder (a_allocated_buffers p')) →
  (∀ q, in_area p q → present p' q = true ↔ covered (isf p') (taken l1 b new l2) (limit p) q) →
  (0 <= b_data_size x' ∧ 0 <= b_offsets_size x' ∧
   ALIGN (b_data_size x') word + ALIGN (b_offsets_size x') word <= binder_buffer_size p' b) →
  Inv p' ∧ live p' = <[b := x']> (live p).
Proof.
  intros Ht1 Ht2 Ht3 Ht4 Hpg Hfx. split; [|exact ts_live].
  split; [split|exact ts_coalesced]; try done.
  - by apply ts_geo.
  - rewrite Ht1, ts_free_perm. erewrite list_filter_ext; done.
  - rewrite Ht3, (inv_allocated _ _ (inv_all _ HI)). exact ts_allocated_perm.
  - by apply ts_fits.
Qed.
End taken_state.

(** ** Running [binder_take_buffer] and [binder_alloc_buf] *)

Section run.
Context {AR : Arch} {RB : RBOps} {RL : RBLaws}.
Implicit Types (l : list Z) (b : Z) (p : alloc).

Definition split_new b size buffer_size : option Z :=
  if buffer_size =? size then None else Some (b + HDR + size).

(** The fields of the state [binder_take_buffer] reaches from [p1], which has
    the fields of [p] but for the pages. *)
Record taken_run e p p1 p2 l1 b l2 x new : Prop := {
  tr_buffers : a_buffers p2 = taken l1 b new l2;
  tr_heap : a_heap p2 = heap_taken (a_heap p) b (set_free false x) new
              (set_free true (e_stale e (default 0 new)));
  tr_area : same_area p p2;
  tr_pages : a_pages p2 = a_pages p1;
  tr_free : inorder (a_free_buffers p2) ≡ₚ
    option_list new ++ filter (λ c, isf p c = true ∧ c ≠ b) (a_buffers p);
  tr_sorted : size_sorted p2 (inorder (a_free_buffers p2));
  tr_allocated : inorder (a_allocated_buffers p2) ≡ₚ b :: inorder (a_allocated_buffers p);
  tr_allocated_sorted : sorted_by id (inorder (a_allocated_buffers p2));
  tr_async : a_free_async_space p2 = a_free_async_space p;
  tr_stop : a_stop_on_user_error p2 = a_stop_on_user_error p
}.

(** Up to the insertion in the allocated tree. *)
Lemma take_first_ok p p1 l1 b l2 x :
  Inv p → a_buffers p = l1 ++ b :: l2 → a_heap p !! b = Some x → b_free x = true →
  same_but_pages p p1 →
  ∃ t1 t2 p2,
    (modify (λ p, set_free_buffers (rb_erase b (a_free_buffers p)) p) ;;
     upd_buf b (set_free false) ;; binder_insert_allocated_buffer b) p1 = Ok (tt, p2) ∧
    p2 = set_allocated_buffers t2 (set_heap (<[b := set_free false x]> (a_heap p)) (set_free_buffers t1 p1)) ∧
    inorder t1 ≡ₚ filter (λ c, isf p c = true ∧ c ≠ b) (a_buffers p) ∧ size_sorted p (inorder t1) ∧
    inorder t2 ≡ₚ b :: inorder (a_allocated_buffers p) ∧ sorted_by id (inorder t2).
Proof.
  intros [[Hg Hf Hfs Ha Has _] _] E Hx Hxf (pg & -> & _). set (t1 := rb_erase b (a_free_buffers p)).
  assert (Hf' : inorder (a_free_buffers p) ≡ₚ filter (λ c, isf p c = true) (a_buffers p)).
  { rewrite Hf. erewrite list_filter_ext; [done|]. intros c _. naive_solver. }
  destruct (erase_perm (λ c, isf p c = true) (a_buffers p) (a_free_buffers p) b) as [E1 E2];
    [by apply geo_NoDup|done|].
  set (q := set_heap (<[b := set_free false x]> (a_heap p)) (set_free_buffers t1 (set_pages pg p))).
  assert (Hq : ∀ c, isf q c = if decide (c = b) then false else isf p c).
  { intros c. unfold isf. simpl. destruct (decide (c = b)) as [->|];
      [by rewrite lookup_insert_eq|by rewrite lookup_insert_ne]. }
  destruct (insert_allocated_ok q b) as (t2 & Er & Ht1 & Ht2).
  - simpl. rewrite lookup_insert_eq. eauto.
  - by rewrite Hq, decide_True.
  - done.
  - intros c Hc. change (c ∈ inorder (a_allocated_buffers p)) in Hc. rewrite Ha in Hc.
    apply list_elem_of_filter in Hc as [Hc1 Hc2]. rewrite Hq. split; [|by case_decide].
    simpl. rewrite lookup_insert_is_Some'. right. by apply (geo_heap p Hg).
  - change (b ∉ inorder (a_allocated_buffers p)). rewrite Ha. intros [Hb _]%list_elem_of_filter.
    rewrite (isf_lookup _ _ _ Hx) in Hb. congruence.
  - exists t1, t2, (set_allocated_buffers t2 q).
    rewrite (st_bind_eq _ _ (set_pages pg p) tt (set_free_buffers t1 (set_pages pg p))) by done.
    assert (Eu : upd_buf b (set_free false) (set_free_buffers t1 (set_pages pg p)) = Ok (tt, q))
      by by rewrite (upd_buf_ok _ b _ x).
    rewrite (st_bind_eq _ _ _ _ _ Eu). split_and!; try done.
    + unfold t1. rewrite E1. by apply StronglySorted_filter.
Qed.

Lemma take_buffer_ok e p p1 l1 b l2 x size buffer_size :
  Inv p → a_buffers p = l1 ++ b :: l2 → a_heap p !! b = Some x → b_free x = true →
  same_but_pages p p1 → split_ok p b (split_new b size buffer_size) l2 →
  ∃ p2, binder_take_buffer e b size buffer_size p1 = Ok (tt, p2) ∧
    taken_run e p p1 p2 l1 b l2 x (split_new b size buffer_size).
Proof.
  intros HI E Hx Hxf Hs Hn. pose proof (inv_geo _ _ (inv_all _ HI)) as Hg.
  destruct (take_first_ok p p1 l1 b l2 x HI E Hx Hxf Hs) as (t1 & t2 & p2 & Er & Ep2 & Ht1 & Ht2 & Ht3 & Ht4).
  pose proof Hs as (pg & Ep1 & Hpg).
  unfold binder_take_buffer, split_new in *.
  assert (Eseq : ∀ k : ST alloc unit,
    (modify (λ p, set_free_buffers (rb_erase b (a_free_buffers p)) p) ;;
     upd_buf b (set_free false) ;; binder_insert_allocated_buffer b ;; k) p1 = k p2).
  { intros k. revert Er. unfold mbind, st_bind, modify.
    destruct (upd_buf b (set_free false) _) as [[u q]|]; [|done].
    destruct (binder_insert_allocated_buffer b q) as [[u' q']|]; [|done]. by intros [= -> ->]. }
  rewrite Eseq. destruct (Z.eqb_spec buffer_size size) as [Heq|Hne]; simpl.
  - exists p2. split; [done|]. subst p2 p1. split; try done.
  - set (n := b + HDR + size) in *.
    set (p3 := set_buffers (list_add n b (a_buffers p2)) p2).
    set (p4 := set_heap (<[n := set_free true (e_stale e n)]> (a_heap p3)) p3).
    rewrite (st_bind_eq _ _ p2 tt p3) by done. rewrite (st_bind_eq _ _ p3 tt p4) by done.
    destruct (geo_split _ _ _ _ Hg E) as [Hb1 Hb2].
    assert (E4 : a_buffers p4 = taken l1 b (Some n) l2).
    { subst p4 p3 p2 p1. simpl. by rewrite E, list_add_split. }
    assert (Hgaps : gaps (l1 ++ b :: l2) (limit p)) by (rewrite <- E; apply Hg).
    assert (Hnf : n ∉ a_buffers p) by (rewrite E; by eapply taken_fresh).
    assert (Hnb : n ≠ b) by (intros Hnb; apply Hnf; rewrite Hnb, E; set_solver).
    assert (Hsz : ∀ c, c ∈ a_buffers p → c ≠ b → binder_buffer_size p4 c = binder_buffer_size p c).
    { intros c Hc1 Hc2. apply (size_taken p p4 l1 b (Some n) l2); try done; by subst p4 p3 p2 p1. }
    assert (Hin : ∀ c, c ∈ inorder t1 → isf p c = true ∧ c ∈ a_buffers p ∧ c ≠ b).
    { intros c Hc. rewrite Ht1 in Hc. apply list_elem_of_filter in Hc. tauto. }
    assert (Hss : size_sorted p4 (inorder t1)).
    { eapply StronglySorted_impl; [|exact Ht2]. intros c d Hc Hd.
      destruct (Hin c Hc) as (_ & ? & ?), (Hin d Hd) as (_ & ? & ?). by rewrite !Hsz. }
    assert (Ef4 : a_free_buffers p4 = t1) by by subst p4 p3 p2 p1.
    assert (Hi4 : ∀ c, c ∈ a_buffers p → c ≠ b → isf p4 c = isf p c).
    { intros c Hc Hcb. unfold isf. subst p4 p3 p2 p1. simpl.
      rewrite !lookup_insert_ne; [done|done|]. intros ->. done. }
    destruct (insert_free_ok p4 n) as (t & Ei & Hp & Hso).
    + unfold isf. simpl. by rewrite lookup_insert_eq.
    + by rewrite Ef4.
    + rewrite Ef4. intros c Hc. destruct (Hin c Hc) as (? & ? & ?). by rewrite Hi4.
    + exists (set_free_buffers t p4). rewrite Ei. split; [done|]. rewrite Ef4 in Hp.
      split; try (by subst p4 p3 p2 p1).
      cbn [a_free_buffers set_free_buffers]. by rewrite Hp, Ht1.
Qed.

(** The size of the buffer after the split decision of [binder_alloc_buf]. *)
Definition carve (exact : bool) (size buffer_size : Z) : Z :=
  if exact then buffer_size
  else if usz (size + HDR + 4) >=? buffer_size then size else usz (size + HDR).

(** The pages [binder_alloc_buf] asks for. *)
Definition carve_end b (buffer_size cut : Z) : Z :=
  let has_page_addr := page_mask (b + HDR + buffer_size) in
  let end_page_addr := PAGE_ALIGN (b + HDR + cut) in
  if end_page_addr >? has_page_addr then has_page_addr else end_page_addr.

Lemma carve_end_min b bs cut : carve_end b bs cut = Z.min (PAGE_ALIGN (b + HDR + cut)) (page_mask (b + HDR + bs)).
Proof.
  unfold carve_end. rewrite Z.gtb_ltb.
  destruct (Z.ltb_spec (page_mask (b + HDR + bs)) (PAGE_ALIGN (b + HDR + cut))); lia.
Qed.

(** The two ways to cut. *)
Lemma carve_cases b size bs (exact : bool) :
  0 <= size → bs <= 4194304 → (if exact then bs = size else size < bs) →
  (carve exact size bs = size ∧ split_new b size (carve exact size bs) = None ∧ size <= bs <= size + HDR + 4) ∨
  (carve exact size bs = size + HDR ∧ split_new b size (carve exact size bs) = Some (b + HDR + size) ∧
   size + HDR + 4 < bs).
Proof.
  intros H1 H2 H3. pose proof HDR_range. unfold carve, split_new.
  assert (H232 : 2 ^ 32 <= 2 ^ (8 * word)) by (destruct word_ok as [-> | ->]; lia).
  destruct exact.
  - left. subst. rewrite Z.eqb_refl. split_and!; try done; lia.
  - rewrite Z.geb_leb, !usz_small by lia. destruct (Z.leb_spec bs (size + HDR + 4)).
    + left. rewrite Z.eqb_refl. split_and!; try done; lia.
    + right. destruct (Z.eqb_spec (size + HDR) size); [lia|]. done.
Qed.

Lemma split_shuffle (A H F C R B N F' : Prop) :
  (R ∨ H ∨ C ↔ B ∨ N ∨ H ∨ C) →
  (A ∨ H ∨ (False ∧ F) ∨ C) ∨ R ↔ A ∨ H ∨ (True ∧ B) ∨ N ∨ (False ∧ F') ∨ C.
Proof.
  intros [H1 H2]. split.
  - intros [[Ha|[Hh|[[[] _]|Hc]]]|Hr]; [by left|destruct H1 as [?|[?|[?|?]]]; auto 10..].
  - intros [Ha|[Hh|[[_ Hb]|[Hn|[[[] _]|Hc]]]]]; [by do 2 left|destruct H2 as [?|[?|?]]; auto 10..].
Qed.

(** The pages after mapping are those the new layout needs. *)
Lemma taken_pages p p' l1 b l2 size bs (exact : bool) (fr : Z → bool) q :
  geo p → a_buffers p = l1 ++ b :: l2 → isf p b = true → bs = hd (limit p) l2 - (b + HDR) →
  0 <= size → bs <= 4194304 → (if exact then bs = size else size < bs) →
  let new := split_new b size (carve exact size bs) in
  (∀ c, c ∈ l1 ++ l2 → fr c = isf p c) → fr b = false → (∀ n, new = Some n → fr n = true) →
  in_area p q →
  present p' q = present p q || bool_decide (PAGE_ALIGN (b + HDR) <= q < carve_end b bs (carve exact size bs)) →
  present p' q = true ↔ covered fr (taken l1 b new l2) (limit p) q.
Proof.
  intros Hg E Hb Ebs Hs1 Hs2 Hs3 new Hfr Hfb Hfn Hq Hpr.
  rewrite Hpr, orb_true_iff, bool_decide_eq_true, (geo_pages p Hg q Hq), E, carve_end_min.
  destruct Hq as [Hq1 Hq2]. pose proof (geo_area p Hg) as [_ HAb _ HAs _ _].
  assert (HAl : aligned (limit p)) by (unfold limit; page_lia).
  rewrite (covered_app (isf p)). cbn [covered]. rewrite Hb.
  rewrite (covered_ext (isf p) fr l1), (covered_ext (isf p) fr l2) by (intros c Hc; symmetry; apply Hfr; set_solver).
  assert (true = false ↔ False) as -> by done.
  replace (b + HDR + bs) with (hd (limit p) l2) by lia.
  destruct (carve_cases b size bs exact Hs1 Hs2 Hs3) as [(Ec & En & Hc)|(Ec & En & Hc)]; unfold new in *; rewrite En, Ec in *;
    unfold taken; simpl.
  - rewrite covered_app. cbn [covered]. rewrite Hfb. assert (false = false ↔ True) as -> by done.
    assert (He : b + HDR + size <= hd (limit p) l2 <= b + HDR + size + HDR + 4) by lia.
    pose proof (whole_pages b size (hd (limit p) l2) q Hq1 Hs1 (proj1 He) (proj2 He)) as Hw. clear - Hw. tauto.
  - rewrite covered_app. cbn [covered hd]. rewrite Hfb, (Hfn _ eq_refl).
    assert (false = false ↔ True) as -> by done. assert (true = false ↔ False) as -> by done.
    assert (He : b + HDR <= b + HDR + size ∧ b + HDR + size + HDR + 4 < hd (limit p) l2) by lia.
    pose proof (split_pages fr b (b + HDR + size) (hd (limit p) l2) l2 (limit p) q Hq1 HAl (proj2 Hq2)
      eq_refl (proj1 He) (proj2 He)) as Hw.
    replace (b + HDR + (size + HDR)) with (b + HDR + size + HDR) by lia. by apply split_shuffle.
Qed.

(** ** The result of an allocation *)

Record alloc_taken p p' ds os (is_async : bool) b : Prop := {
  at_free : isf p b = true;
  at_buffer : ∃ x, a_heap p !! b = Some x ∧
    live p' = <[b := set_sizes ds os is_async (set_free false x)]> (live p);
  at_room : ALIGN ds word + ALIGN os word <= binder_buffer_size p' b <= binder_buffer_size p b;
  at_best : ∀ c, isf p c = true →
    binder_buffer_size p c < ALIGN ds word + ALIGN os word ∨ binder_buffer_size p b <= binder_buffer_size p c;
  at_async : is_async = true → ALIGN ds word + ALIGN os word + HDR <= a_free_async_space p;
  at_async_space : a_free_async_space p' =
    if is_async then a_free_async_space p - (ALIGN ds word + ALIGN os word + HDR) else a_free_async_space p
}.

(** Why no buffer is returned. *)
Inductive alloc_refused e p ds os (is_async : bool) : Prop :=
| refused_vma : a_vma p = false → alloc_refused e p ds os is_async
| refused_overflow : request_size word ds os < ds ∨ request_size word ds os < os → alloc_refused e p ds os is_async
| refused_async : is_async = true → a_free_async_space p < request_size word ds os + HDR →
    alloc_refused e p ds os is_async
| refused_space : (∀ c, isf p c = true → binder_buffer_size p c < request_size word ds os) →
    alloc_refused e p ds os is_async
| refused_pages : (e_task_mm e ≠ Some (a_vma_vm_mm p) ∨
     ∃ q, a_buffer p <= q < limit p ∧ e_page e q ≠ Page_ok) →
    alloc_refused e p ds os is_async.

Lemma alloc_range_false e fuel p start addr end_ p' :
  alloc_range e fuel start addr end_ p = Ok (false, p') →
  ∃ k, 0 <= k ∧ addr + 4096 * k < end_ ∧ e_page e (addr + 4096 * k) ≠ Page_ok.
Proof.
  revert p addr. induction fuel as [|fuel IH]; intros p addr Hr; simpl in Hr; [done|].
  destruct (Z.ltb_spec addr end_) as [Ha|]; [|by injection Hr].
  destruct (e_page e addr) eqn:Hp; [|exists 0; rewrite Z.mul_0_r, Z.add_0_r; split_and!; [lia|lia|congruence]..].
  apply st_bind_ok in Hr as (v & q1 & _ & Hr).
  apply st_bind_ok in Hr as (? & q2 & _ & Hr). apply st_bind_ok in Hr as (? & q3 & _ & Hr).
  destruct (IH _ _ Hr) as (k & Hk1 & Hk2 & Hk3). unfold PAGE_SIZE in *. exists (k + 1).
  replace (addr + 4096 * (k + 1)) with (addr + 4096 + 4096 * k) by lia. split_and!; [lia|lia|done].
Qed.

(** Mapping pages only fails for a page, or for want of the memory map. *)
Lemma update_alloc_fails e p start end_ r p' :
  a_vma p = true → binder_update_page_range e true start end_ false p = Ok (r, p') → r ≠ 0 →
  e_task_mm e ≠ Some (a_vma_vm_mm p) ∨ ∃ q, start <= q < end_ ∧ e_page e q ≠ Page_ok.
Proof.
  intros Hv. unfold binder_update_page_range. destruct (end_ <=? start); [by intros [= <-]|].
  rewrite (st_bind_eq _ _ p p p) by done. cbv beta. rewrite Hv.
  destruct (decide (e_task_mm e = Some (a_vma_vm_mm p))) as [Hm|]; [|by left]. rewrite Hm, Z.eqb_refl. cbn [negb andb].
  intros (ok & q & Hr & Hret)%st_bind_ok Hr0. right. destruct ok; [by injection Hret as <-|].
  destruct (alloc_range_false _ _ _ _ _ _ _ Hr) as (k & Hk1 & Hk2 & Hk3).
  exists (start + 4096 * k). split; [lia|done].
Qed.

(** The search of [binder_alloc_buf] and what it finds. *)
Lemma alloc_search_ok p size r exact :
  Inv p → best_fit p size (a_free_buffers p) None = (r, exact) →
  for_each (check_free true) (rb_path (fit_cmp p size) (a_free_buffers p)) p = Ok (tt, p) ∧
  match r with
  | None => ∀ c, isf p c = true → binder_buffer_size p c < size
  | Some b =>
      isf p b = true ∧ (if exact then binder_buffer_size p b = size else size < binder_buffer_size p b) ∧
      ∀ c, isf p c = true → binder_buffer_size p c < size ∨ binder_buffer_size p b <= binder_buffer_size p c
  end.
Proof.
  intros [[Hg Hf Hfs _ _ _] _] Hbf.
  assert (Hin : ∀ c, c ∈ inorder (a_free_buffers p) ↔ isf p c = true).
  { intros c. rewrite Hf, list_elem_of_filter. split; [tauto|]. intros Hc. split_and!; [done|done|].
    apply (geo_heap p Hg). by apply isf_Some. }
  split.
  - apply for_each_check_ok. intros c Hc%rb_path_inorder%Hin. split; [by apply isf_Some|done].
  - apply best_fit_ok in Hbf; [|done]. destruct r as [b|], exact; try done.
    + destruct Hbf as [H1 H2]. rewrite Hin in H1. split_and!; [done..|]. intros c Hc. lia.
    + destruct Hbf as [(H1 & H2 & H3)|[? _]]; [|done]. rewrite Hin in H1.
      split_and!; [done..|]. intros c Hc. by apply H3, Hin.
    + destruct Hbf as [_ H3]. intros c Hc. by apply H3, Hin.
Qed.

Definition taken_buffer ds os is_async x : binder_buffer := set_sizes ds os is_async (set_free false x).

(** The pages asked for are those of the area. *)
Lemma carve_range p b cut :
  Inv p → isf p b = true →
  a_buffer p <= PAGE_ALIGN (b + HDR) ∧ carve_end b (binder_buffer_size p b) cut <= limit p.
Proof.
  intros HI Hb. pose proof (inv_geo _ _ (inv_all _ HI)) as Hg.
  assert (Hin : b ∈ a_buffers p) by (apply (geo_heap p Hg); by apply isf_Some).
  destruct (geo_bounds p b Hg Hin) as [B1 B2]. pose proof HDR_range.
  assert (binder_buffer_size p b <= limit p - (b + HDR)).
  { rewrite (geo_size p b Hg Hin). apply sz_range; [by apply Hg|done]. }
  rewrite carve_end_min. page_lia.
Qed.

Lemma Inv_set_free_async_space p n : Inv p → Inv (set_free_async_space n p).
Proof.
  intros [[[[? ? ? ? ? ?] ? ? ? ?] ? ? ? ? ?] ?]. by do 4 (split; try done).
Qed.

Lemma size_le_area p b : Inv p → isf p b = true → b ≠ 0 ∧ binder_buffer_size p b <= 4194304.
Proof.
  intros HI Hb. pose proof (inv_geo _ _ (inv_all _ HI)) as Hg.
  assert (Hin : b ∈ a_buffers p) by (apply (geo_heap p Hg); by apply isf_Some).
  destruct (geo_bounds p b Hg Hin) as [B1 B2]. destruct (geo_area p Hg) as [? _ ? _ _ _]. pose proof HDR_range.
  assert (binder_buffer_size p b <= limit p - (b + HDR)).
  { rewrite (geo_size p b Hg Hin). apply sz_range; [by apply Hg|done]. }
  unfold limit in *. lia.
Qed.

Lemma Inv_set_stop p n : Inv p → Inv (set_stop n p).
Proof.
  intros [[[[? ? ? ? ? ?] ? ? ? ?] ? ? ? ? ?] ?]. by do 4 (split; try done).
Qed.

(** From the search to the buffer, pages included. *)
Lemma alloc_commit_ok e p b ds os is_async (exact : bool) :
  Inv p → isf p b = true → 0 <= ds → 0 <= os →
  let size := ALIGN ds word + ALIGN os word in
  let bs := binder_buffer_size p b in
  (if exact then bs = size else size < bs) →
  ∃ r p1, binder_update_page_range e true (PAGE_ALIGN (b + HDR)) (carve_end b bs (carve exact size bs)) false p = Ok (r, p1) ∧
    same_but_pages p p1 ∧
    (r ≠ 0 → Inv p1) ∧
    (r = 0 → ∃ x p2, a_heap p !! b = Some x ∧
      (binder_take_buffer e b size (carve exact size bs) ;; upd_buf b (set_sizes ds os is_async)) p1 = Ok (tt, p2) ∧
      Inv p2 ∧ same_area p p2 ∧ live p2 = <[b := taken_buffer ds os is_async x]> (live p) ∧
      size <= binder_buffer_size p2 b <= bs ∧
      a_free_async_space p2 = a_free_async_space p ∧ a_stop_on_user_error p2 = a_stop_on_user_error p).
Proof.
  intros HI Hb Hd Ho size bs Hbs. pose proof HI as [[Hg _ _ _ _ _] _].
  destruct (isf_Some p b Hb) as [x Hx]. assert (Hxf : b_free x = true) by by rewrite <- (isf_lookup _ _ _ Hx).
  assert (Hin : b ∈ a_buffers p) by (apply (geo_heap p Hg); eauto).
  destruct (list_elem_of_split _ _ Hin) as (l1 & l2 & E).
  pose proof (geo_size_split p l1 b l2 Hg E) as Hsz.
  destruct (geo_bounds p b Hg Hin) as [B1 B2]. destruct (geo_area p Hg) as [A1 A2 A3 A4 A5 A6].
  pose proof (geo_gaps p Hg) as Hgaps. rewrite E in Hgaps.
  assert (Hhd : b + HDR <= hd (limit p) l2 <= limit p).
  { apply gaps_app in Hgaps as [_ [? Hg2]]. split; [done|]. destruct l2 as [|y l2]; simpl; [done|].
    pose proof (gaps_le _ _ y Hg2 (list_elem_of_here _ _)). pose proof HDR_range. lia. }
  pose proof HDR_range as Hr.
  assert (Hs1 : 0 <= size) by (pose proof (ALIGN_range _ Hd); pose proof (ALIGN_range _ Ho); unfold size; lia).
  assert (Hs2 : bs <= 4194304) by (unfold bs, limit in *; lia).
  set (cut := carve exact size bs).
  assert (Hcut : size <= cut <= bs).
  { destruct (carve_cases b size bs exact Hs1 Hs2 Hbs) as [(Ec & _ & Hc)|(Ec & _ & Hc)]; unfold cut; rewrite Ec; lia. }
  destruct (update_alloc_ok e p (PAGE_ALIGN (b + HDR)) (carve_end b bs cut) false) as (r & p1 & Er & Hs & Hpr).
  { by apply Hg. } { apply aligned_PAGE_ALIGN. }
  { rewrite carve_end_min. destruct (Z.min_spec (PAGE_ALIGN (b + HDR + cut)) (page_mask (b + HDR + bs))) as [[_ ->]|[_ ->]];
      [apply aligned_PAGE_ALIGN|apply aligned_mask]. }
  { page_lia. }
  { rewrite carve_end_min. assert (page_mask (b + HDR + bs) <= limit p) by (unfold bs; rewrite Hsz; page_lia). lia. }
  { intros q Hq1 Hq2. apply not_true_is_false. rewrite (geo_pages p Hg), E, covered_app.
    - cbn [covered]. rewrite Hb. pose proof (body_exclusive (isf p) l1 b l2 (limit p) q Hq1 Hgaps) as Hex.
      rewrite carve_end_min in Hq2. unfold body_pages in Hex.
      assert (Hbd : PAGE_ALIGN (b + HDR) <= q < page_mask (hd (limit p) l2)).
      { replace (hd (limit p) l2) with (b + HDR + bs) by (unfold bs; lia). lia. }
      specialize (Hex Hbd). naive_solver.
    - rewrite carve_end_min in Hq2. split; [done|]. unfold bs in *. rewrite Hsz in Hq2. unfold limit in *. page_lia. }
  exists r, p1. split; [exact Er|]. split; [exact Hs|]. split.
  - intros Hr0. pose proof Hs as (pg & Ep1 & Hpg). destruct HI as [[_ ? ? ? ? ?] ?].
    subst p1. split; [split|]; try done. destruct Hg as [? ? ? ? Hp]. split; try done.
    + by eapply same_but_pages_area.
    + intros q Hq. rewrite Hpr by done. rewrite (bool_decide_false (r = 0)) by done. simpl. rewrite orb_false_r. by apply Hp.
  - intros ->. exists x.
    assert (Hn : split_ok p b (split_new b size cut) l2).
    { intros n Hn. destruct (carve_cases b size bs exact Hs1 Hs2 Hbs) as [(Ec & En & Hc)|(Ec & En & Hc)];
        unfold cut in Hn; rewrite En in Hn; simplify_eq. unfold bs in *. lia. }
    destruct (take_buffer_ok e p p1 l1 b l2 x size cut HI E Hx Hxf Hs Hn) as (p2 & Et & HT).
    set (new := split_new b size cut) in *. destruct HT as [T1 T2 T3 T4 T5 T6 T7 T8 T9 T10].
    set (p3 := set_heap (<[b := taken_buffer ds os is_async x]> (a_heap p2)) p2).
    assert (Hnb : new ≠ Some b).
    { intros Hnb. rewrite Hnb in Hn. eapply taken_fresh; [exact Hgaps|exact Hn|]. set_solver. }
    assert (Eu : upd_buf b (set_sizes ds os is_async) p2 = Ok (tt, p3)).
    { rewrite (upd_buf_ok _ b _ (set_free false x)); [done|]. rewrite T2. unfold heap_taken.
      destruct new as [n|]; [rewrite lookup_insert_ne by congruence|]; by rewrite lookup_insert_eq. }
    exists p3. split; [done|]. split; [by rewrite (st_bind_eq _ _ _ _ _ Et)|].
    pose proof Hs as (pg & Ep1 & Hpg).
    assert (Eh3 : a_heap p3 = heap_taken (a_heap p) b (taken_buffer ds os is_async x) new
              (set_free true (e_stale e (default 0 new)))).
    { unfold p3. simpl. rewrite T2. unfold heap_taken. destruct new as [n|].
      - rewrite insert_insert_ne by congruence. f_equal. by rewrite insert_insert_eq.
      - by rewrite insert_insert_eq. }
    assert (Hlp : length (a_pages p3) = length (a_pages p)) by (change (a_pages p3) with (a_pages p2); rewrite T4, Ep1; done).
    assert (T3' : same_area p p3) by (destruct T3; by split).
    assert (Hsz3 : size <= binder_buffer_size p3 b <= bs).
    { assert (Elim : limit p3 = limit p) by (unfold limit; by rewrite (sa_buffer _ _ T3'), (sa_size _ _ T3')).
      rewrite size_sz; cycle 1.
      { split; rewrite ?(sa_buffer _ _ T3'), ?(sa_size _ _ T3'), ?Elim, ?Hlp; done. }
      { pose proof (geo_hd p Hg) as Hh. rewrite E in Hh. change (a_buffers p3) with (a_buffers p2).
        rewrite T1, (sa_buffer _ _ T3'). unfold taken. by destruct l1. }
      { change (a_buffers p3) with (a_buffers p2). rewrite T1, Elim. by apply taken_gaps. }
      { change (a_buffers p3) with (a_buffers p2). rewrite T1. unfold taken. set_solver. }
      change (a_buffers p3) with (a_buffers p2). rewrite T1, Elim. unfold taken.
      rewrite sz_split by by destruct (geo_split _ _ _ _ Hg E).
      destruct (carve_cases b size bs exact Hs1 Hs2 Hbs) as [(Ec & En & Hc)|(Ec & En & Hc)];
        unfold new, cut; rewrite En; simpl; unfold bs in *; lia. }
    destruct (take_inv p p3 l1 l2 b x (taken_buffer ds os is_async x) (set_free true (e_stale e (default 0 new))) new
      HI E Hx Hxf Hn T1 Eh3 eq_refl eq_refl T3' Hlp T5 T6 T7 T8) as [HI3 HL3].
    + intros q Hq. apply (taken_pages p p3 l1 b l2 size bs exact (isf p3) q); try done.
      * intros c Hc. rewrite (isf_taken p p3 b _ new _ c Eh3); [|done|done|done].
        destruct (geo_split _ _ _ _ Hg E) as [Hb1 Hb2].
        rewrite decide_False by (intros ->; set_solver). rewrite decide_False; [done|].
        intros Hnew. rewrite Hnew in Hn. eapply taken_fresh; [exact Hgaps|exact Hn|]. set_solver.
      * rewrite (isf_taken p p3 b _ new _ b Eh3); [|done|done|done]. by rewrite decide_True.
      * intros n Hnew. rewrite (isf_taken p p3 b _ new _ n Eh3); [|done|done|done].
        rewrite decide_False by (intros ->; by apply Hnb). by rewrite decide_True.
      * replace (present p3 q) with (present p1 q).
        2:{ assert (Eb3 : a_buffer p3 = a_buffer p1) by (rewrite Ep1; exact (sa_buffer _ _ T3)).
            assert (Ep3 : a_pages p3 = a_pages p1) by exact T4.
            unfold present, page_index. by rewrite Eb3, Ep3. }
        rewrite Hpr by done. by rewrite (bool_decide_true (0 = 0)).
    + split_and!; [done..|]. simpl. fold size. lia.
    + split_and!; try done; lia.
Qed.

(** [binder_alloc_buf] never oopses and keeps the invariant; it returns 0 for a
    reason, or a buffer that was free and fits best. *)
Lemma alloc_buf_ok e p ds os is_async :
  Inv p → 0 <= ds < 2 ^ (8 * word) → 0 <= os < 2 ^ (8 * word) → 0 <= a_free_async_space p < 2 ^ (8 * word) →
  ∃ r p', binder_alloc_buf e ds os is_async p = Ok (r, p') ∧ Inv p' ∧ same_area p p' ∧
    (r = 0 ∧ live p' = live p ∧ a_free_async_space p' = a_free_async_space p ∧
       alloc_refused e p ds os is_async ∨
     r ≠ 0 ∧ alloc_taken p p' ds os is_async r).
Proof.
  intros HI Hd Ho Has. unfold binder_alloc_buf. rewrite (st_bind_eq _ _ p p p) by done. cbv beta.
  destruct (a_vma p) eqn:Hv; simpl.
  2:{ exists 0, p. split_and!; try done. left. split_and!; try done. by apply refused_vma. }
  destruct ((request_size word ds os <? ds) || (request_size word ds os <? os)) eqn:Hov.
  { assert (Hor : request_size word ds os < ds ∨ request_size word ds os < os) by lia.
    exists 0. unfold alloc_user_error, modify, mbind, st_bind. eexists. split; [done|].
    destruct (a_stop_on_user_error p =? 0); (split_and!; [by try apply Inv_set_stop|done|left]);
      (split_and!; [done..|by apply refused_overflow]). }
  assert (Hge : ds <= request_size word ds os ∧ os <= request_size word ds os) by lia.
  pose proof (request_size_exact ds os Hd Ho (proj1 Hge) (proj2 Hge)) as Ers.
  destruct (is_async && _) eqn:Has1.
  { apply andb_true_iff in Has1 as [Ha1 Ha2%Z.ltb_lt].
    exists 0, p. split_and!; try done. left. split_and!; try done. apply refused_async; [done|].
    eapply Z.lt_le_trans; [exact Ha2|]. unfold usz. apply Z.mod_le; [|destruct word_ok as [-> | ->]; lia].
    pose proof (request_size_bounds ds os). pose proof HDR_range. lia. }
  destruct (best_fit p (request_size word ds os) (a_free_buffers p) None) as [r exact] eqn:Hbf.
  destruct (alloc_search_ok p _ r exact HI Hbf) as [Hchk Hr].
  rewrite (st_bind_eq _ _ _ _ _ Hchk). destruct r as [b|].
  2:{ exists 0, p. split_and!; try done. left. split_and!; try done. by apply refused_space. }
  destruct Hr as (Hb & Hbs & Hbest). rewrite Ers in *.
  destruct (alloc_commit_ok e p b ds os is_async exact HI Hb ltac:(lia) ltac:(lia) Hbs)
    as (r & p1 & Er & Hs & Hfail & Hok).
  unfold carve_end, carve in Er. cbv zeta in Er. unfold mbind at 1, st_bind at 1. rewrite Er.
  assert (Hsa1 : same_area p p1) by (destruct Hs as (pg & -> & _); by split).
  destruct (Z.eqb_spec r 0) as [Hr0|Hr0]; simpl.
  2:{ exists 0, p1. split_and!; try done; [by apply Hfail|]. left.
      destruct Hs as (pg & -> & _). split_and!; try done. apply refused_pages.
      destruct (update_alloc_fails _ _ _ _ _ _ Hv Er Hr0) as [?|(q & Hq & ?)]; [by left|right].
      exists q. split; [|done]. pose proof (carve_range p b (carve exact (ALIGN ds word + ALIGN os word)
        (binder_buffer_size p b)) HI Hb). unfold carve_end, carve in *. cbv zeta in *. lia. }
  destruct (Hok Hr0) as (x & p2 & Hx & Et & HI2 & Hsa2 & HL & Hsz & Hfa & Hst).
  fold (carve exact (ALIGN ds word + ALIGN os word) (binder_buffer_size p b)).
  apply st_bind_ok in Et as ([] & q & Et1 & Et2).
  rewrite (st_bind_eq _ _ _ _ _ Et1), (st_bind_eq _ _ _ _ _ Et2).
  destruct (size_le_area p b HI Hb) as [Hb0 Hbs4]. pose proof HDR_range.
  pose proof (ALIGN_range ds ltac:(lia)) as Hal1. pose proof (ALIGN_range os ltac:(lia)) as Hal2.
  assert (Eus : usz (ALIGN ds word + ALIGN os word + HDR) = ALIGN ds word + ALIGN os word + HDR).
  { assert (2 ^ 32 <= 2 ^ (8 * word)) by (destruct word_ok as [-> | ->]; lia). apply usz_small. lia. }
  rewrite Eus in *. destruct is_async; simpl in Has1.
  - apply Z.ltb_ge in Has1. eexists b, _. split; [done|]. rewrite Hfa.
    split; [by apply Inv_set_free_async_space|]. split; [by destruct Hsa2; split|]. right. split; [done|].
    split; simpl; try done; [by exists x|by rewrite usz_small by lia].
  - exists b, p2. split_and!; try done. right. split; [done|]. split; try done. by exists x.
Qed.
End run.
