(* ===== verification/BinderAllocSpec.v ===== *)
(** What the allocator promises: setting up the area, where buffers in use lie,
    lookups, and the refinement of an abstract allocator. *)
From S2P Require Import Prelude RBTree BinderAlloc BinderAllocPages BinderAllocInv BinderAllocFree BinderAllocTake.

Section facts.
Context {AR : Arch} {RB : RBOps} {RL : RBLaws}.
Implicit Types (b : Z) (p : alloc) (x : binder_buffer).

(** ** Buffers in use *)

(** The bytes of a buffer in use, header included. *)
Definition span b x : Z := b + HDR + ALIGN (b_data_size x) word + ALIGN (b_offsets_size x) word.

Lemma live_in p b x : Inv p → live p !! b = Some x → b ∈ a_buffers p ∧ a_heap p !! b = Some x ∧ isf p b = false.
Proof.
  intros HI [Hx Hf]%live_lookup. split_and!; [|done|by rewrite (isf_lookup _ _ _ Hx)].
  apply (geo_heap _ (inv_geo _ _ (inv_all _ HI))). eauto.
Qed.

(** A buffer in use ends before the next buffer. *)
Lemma span_next p l1 b l2 x :
  Inv p → a_buffers p = l1 ++ b :: l2 → live p !! b = Some x → b + HDR <= span b x <= hd (limit p) l2.
Proof.
  intros HI E Hl. destruct (live_in p b x HI Hl) as (Hin & Hx & Hf).
  pose proof HI as [[Hg _ _ _ _ Hfit] _]. apply live_lookup in Hl as [_ Hxf].
  destruct (Hfit b x Hx Hxf) as (H1 & H2 & H3). rewrite (geo_size_split p l1 b l2 Hg E) in H3.
  pose proof (ALIGN_range _ H1). pose proof (ALIGN_range _ H2). unfold span. lia.
Qed.

Lemma spans_ordered p b1 b2 x1 :
  Inv p → live p !! b1 = Some x1 → b2 ∈ a_buffers p → b1 < b2 → span b1 x1 <= b2.
Proof.
  intros HI H1 H2 Hlt. destruct (live_in p b1 x1 HI H1) as (Hin & _ & _).
  pose proof (geo_gaps _ (inv_geo _ _ (inv_all _ HI))) as Hg.
  apply list_elem_of_split in Hin as (l1 & l2 & E). pose proof (span_next p l1 b1 l2 x1 HI E H1) as [_ Hs].
  rewrite E in *. pose proof HDR_range.
  apply elem_of_app in H2 as [H2|[->|H2]%elem_of_cons]; [|lia|].
  - pose proof (gaps_split_before _ _ _ _ _ Hg H2). lia.
  - apply gaps_app in Hg as [_ [_ Hg]]. pose proof (gaps_hd _ _ _ Hg H2).
    destruct l2 as [|n l2]; [by apply not_elem_of_nil in H2|]. simpl in *. lia.
Qed.

Lemma span_limit p b x : Inv p → live p !! b = Some x → a_buffer p <= b ∧ span b x <= limit p.
Proof.
  intros HI H1. destruct (live_in p b x HI H1) as (Hin & _ & _).
  pose proof (inv_geo _ _ (inv_all _ HI)) as Hg. destruct (geo_bounds p b Hg Hin) as [B1 _].
  split; [done|]. pose proof (geo_gaps _ Hg) as Hgs.
  apply list_elem_of_split in Hin as (l1 & l2 & E). pose proof (span_next p l1 b l2 x HI E H1) as [_ Hs].
  rewrite E in Hgs. apply gaps_app in Hgs as [_ [_ Hgs]].
  destruct l2 as [|n l2]; simpl in *; [done|]. pose proof (gaps_le (n :: l2) _ n Hgs (list_elem_of_here _ _)).
  pose proof HDR_range. lia.
Qed.

(** Every byte of a buffer in use is on a mapped page. *)
Lemma span_mapped p b x a :
  Inv p → live p !! b = Some x → b <= a < span b x → present p (page_mask a) = true.
Proof.
  intros HI Hl Ha. destruct (live_in p b x HI Hl) as (Hin & Hx & Hf).
  pose proof (inv_geo _ _ (inv_all _ HI)) as Hg. pose proof (geo_area p Hg) as [A1 A2 A3 A4 A5 A6].
  pose proof (span_limit p b x HI Hl) as [B1 B2]. pose proof HDR_range.
  apply list_elem_of_split in Hin as (l1 & l2 & E). pose proof (span_next p l1 b l2 x HI E Hl) as [_ Hs].
  apply (geo_pages p Hg).
  - split; [apply aligned_mask|]. unfold limit in *. page_lia.
  - rewrite E, covered_app. right. cbn [covered]. unfold hdr_pages, body_pages.
    destruct (decide (page_mask a <= page_mask (b + HDR - 1))); [left; page_lia|].
    destruct (decide (page_mask a < page_mask (hd (limit p) l2))); [right; left; split; [done|page_lia]|].
    right. right. destruct l2 as [|nb l2]; simpl in *; [exfalso; unfold limit in *; page_lia|].
    left. unfold hdr_pages. page_lia.
Qed.

(** [binder_buffer_lookup] finds exactly the buffers in use, by the user
    address of their data. *)
Lemma lookup_ok p u :
  Inv p → ∃ r, binder_buffer_lookup u p = Ok (r, p) ∧
    ∀ b, r = Some b ↔ is_Some (live p !! b) ∧ u = b + HDR + a_user_buffer_offset p.
Proof.
  intros HI. pose proof HI as [[Hg _ _ Ha Has _] _].
  assert (Hin : ∀ b, b ∈ inorder (a_allocated_buffers p) ↔ is_Some (live p !! b)).
  { intros b. rewrite Ha, list_elem_of_filter, (geo_heap p Hg). split.
    - intros [Hf [x Hx]]. exists x. apply live_lookup. rewrite (isf_lookup _ _ _ Hx) in Hf. done.
    - intros [x [Hx Hf]%live_lookup]. rewrite (isf_lookup _ _ _ Hx). eauto. }
  unfold binder_buffer_lookup. rewrite (st_bind_eq _ _ p p p) by done. cbv zeta beta.
  eexists. rewrite (st_bind_eq _ _ p tt p).
  2:{ apply for_each_check_ok. intros b Hb%rb_path_inorder%Hin. destruct Hb as [x Hx].
      destruct (live_in p b x HI Hx) as (_ & ? & ?). eauto. }
  split; [done|]. intros b. rewrite (rb_find_key id) by done. rewrite Hin. unfold id.
  split; intros [? ?]; (split; [done|lia]).
Qed.

(** ** What clients write in a buffer *)

(** The driver fills in the other fields of a buffer it was given. *)
Definition keeps_shape (f : binder_buffer → binder_buffer) : Prop :=
  ∀ x, b_free (f x) = b_free x ∧ b_data_size (f x) = b_data_size x ∧
    b_offsets_size (f x) = b_offsets_size x ∧ b_async_transaction (f x) = b_async_transaction x.

Lemma isf_write p b f x c :
  keeps_shape f → a_heap p !! b = Some x → isf (set_heap (<[b := f x]> (a_heap p)) p) c = isf p c.
Proof.
  intros Hk Hx. unfold isf. simpl. destruct (decide (c = b)) as [->|]; [|by rewrite lookup_insert_ne].
  rewrite lookup_insert_eq, Hx. apply Hk.
Qed.

Lemma write_ok p b f x :
  Inv p → keeps_shape f → live p !! b = Some x →
  ∃ p', upd_buf b f p = Ok (tt, p') ∧ Inv p' ∧ frame (set_heap (<[b := f x]> (a_heap p)) p) p' ∧
    live p' = <[b := f x]> (live p).
Proof.
  intros HI Hk Hl. destruct (live_in p b x HI Hl) as (Hin & Hx & Hf).
  eexists. split; [by apply upd_buf_ok|]. split; [|split; [apply frame_refl|]].
  - set (p' := set_heap _ p).
    assert (Hi : ∀ c, isf p' c = isf p c) by (intros c; by apply isf_write).
    destruct HI as [[[? ? ? Hh Hpg] Hfr ? Hal ? Hfit] Hc]. destruct geo_area. split; [split|]; try done.
    + split; [by split|done|done| |].
      * intros c. simpl. destruct (decide (c = b)) as [->|]; [rewrite lookup_insert_eq; split; [eauto|done]|].
        by rewrite lookup_insert_ne.
      * intros q Hq. change (a_buffers p') with (a_buffers p).
        rewrite (covered_ext (isf p') (isf p)) by (intros; apply Hi). by apply Hpg.
    + etrans; [exact Hfr|]. apply Permutation_refl', list_filter_ext. intros c _. by rewrite Hi.
    + etrans; [exact Hal|]. apply Permutation_refl', list_filter_ext. intros c _. by rewrite Hi.
    + intros c y Hy Hyf. simpl in Hy. change (binder_buffer_size p' c) with (binder_buffer_size p c).
      destruct (decide (c = b)) as [->|]; [|rewrite lookup_insert_ne in Hy by done; by apply Hfit].
      rewrite lookup_insert_eq in Hy. injection Hy as <-. destruct (Hk x) as (E1 & -> & -> & _).
      apply Hfit; [done|congruence].
    + change (a_buffers p') with (a_buffers p). rewrite (coalesced_ext (isf p') (isf p)) by (intros; apply Hi). done.
  - apply map_eq. intros c. apply option_eq. intros y. rewrite live_lookup. simpl.
    destruct (decide (c = b)) as [->|].
    + rewrite !lookup_insert_eq. destruct (Hk x) as (E1 & _). apply live_lookup in Hl as [_ Hxf].
      split; [tauto|]. intros [= <-]. split; [done|congruence].
    + rewrite !lookup_insert_ne by done. by rewrite live_lookup.
Qed.
End facts.

(** ** Setting up the area *)

Section mapping.
Context {AR : Arch} {RB : RBOps} {RL : RBLaws}.
Implicit Types (p : alloc).

(** A process whose area is not mapped yet, as [binder_open] leaves it. *)
Definition unmapped p : Prop :=
  a_buffer p = 0 ∧ a_heap p = ∅ ∧ a_free_buffers p = leaf ∧ a_allocated_buffers p = leaf.

(** The size of the area [binder_mmap] sets up: at most 4 MB. *)
Definition area_size (vma : vm_area) : Z := Z.min (vm_end vma - vm_start vma) SZ_4M.

(** What the kernel guarantees of a [vm_area_struct] and of [get_vm_area]. *)
Record vma_ok (vma : vm_area) (area : Z) : Prop := {
  vo_start : aligned (vm_start vma);
  vo_end : aligned (vm_end vma);
  vo_size : vm_start vma < vm_end vma;
  vo_area : aligned area;
  vo_area_pos : 0 < area;
  vo_limit : area + area_size vma < 2 ^ (8 * word)
}.

(** The state with one free buffer on one mapped page satisfies the invariant. *)
Lemma one_buffer_inv p x :
  area_ok p → a_buffers p = [a_buffer p] → a_heap p = {[a_buffer p := x]} → b_free x = true →
  inorder (a_free_buffers p) = [a_buffer p] → a_allocated_buffers p = leaf →
  (∀ q, in_area p q → present p q = bool_decide (q = a_buffer p)) → Inv p.
Proof.
  intros Ha Eb Eh Hx Ef Eal Hp. pose proof HDR_range.
  assert (Hi : isf p (a_buffer p) = true) by (unfold isf; by rewrite Eh, lookup_singleton_eq).
  destruct Ha as [A1 A2 A3 A4 A5 A6].
  split; [split|]; rewrite ?Eb, ?Ef, ?Eal; try done.
  - split; [by split|by rewrite Eb|..]; rewrite ?Eb, ?Eh.
    + simpl. unfold limit. split; [page_lia|done].
    + intros c. rewrite list_elem_of_singleton. destruct (decide (c = a_buffer p)) as [->|];
        [rewrite lookup_singleton_eq|rewrite lookup_singleton_ne by done]; split; try done.
    + intros q Hq. rewrite Hp, bool_decide_eq_true by done. destruct Hq as [Hq _]. cbn [covered hd].
      rewrite Hi. unfold hdr_pages. split; [intros ->; left; page_lia|].
      intros [Hh|[[? _]|[]]]; [page_lia|done].
  - rewrite filter_cons_True by done. done.
  - repeat constructor.
  - rewrite filter_cons_False by congruence. done.
  - constructor.
  - intros b y Hb Hy. rewrite Eh in Hb. apply lookup_singleton_Some in Hb as [<- <-]. congruence.
Qed.

(** [binder_mmap] of a fresh process sets up an area with one free buffer. *)
Lemma mmap_ok e vma area files p :
  unmapped p → vma_ok vma area → has_flag (vm_flags vma) FORBIDDEN_MMAP_FLAGS = false →
  e_page e area = Page_ok →
  ∃ p', binder_mmap e true vma area true files p = Ok (0, p') ∧ Inv p' ∧ live p' = ∅ ∧
    a_buffers p' = [area] ∧ binder_buffer_size p' area = area_size vma - HDR ∧
    a_vma p' = true ∧ a_vma_vm_mm p' = vm_mm vma ∧ a_buffer p' = area ∧
    a_user_buffer_offset p' = vm_start vma - area ∧ a_free_async_space p' = area_size vma / 2.
Proof.
  intros (U1 & U2 & U3 & U4) [V1 V2 V3 V4 V5 V6] Hf He. pose proof HDR_range.
  assert (Esize : (if vm_end vma - vm_start vma >? SZ_4M then vm_start vma + SZ_4M else vm_end vma) -
    vm_start vma = area_size vma).
  { unfold area_size. rewrite Z.gtb_ltb. destruct (Z.ltb_spec SZ_4M (vm_end vma - vm_start vma)); lia. }
  assert (Hsz : 4096 <= area_size vma <= 4194304 ∧ aligned (area_size vma)).
  { unfold area_size, SZ_4M. destruct (Z.min_spec (vm_end vma - vm_start vma) 4194304) as [[? ->]|[? ->]]; [page_lia|done]. }
  destruct Hsz as [Hsz1 Hsz2]. unfold binder_mmap. cbn [negb]. rewrite Hf, Esize.
  rewrite (st_bind_eq _ _ p p p) by done. cbv beta. rewrite U1, Z.eqb_refl. cbn [negb].
  destruct (Z.eqb_spec area 0); [lia|].
  set (p1 := set_buffer_size (area_size vma) (set_pages (replicate (Z.to_nat (area_size vma / PAGE_SIZE)) false)
    (set_area area (vm_start vma - area) p))).
  rewrite (st_bind_eq _ _ p tt (set_area area (vm_start vma - area) p)) by done.
  rewrite (st_bind_eq _ _ _ tt (set_pages (replicate (Z.to_nat (area_size vma / PAGE_SIZE)) false)
    (set_area area (vm_start vma - area) p))) by done.
  rewrite (st_bind_eq _ _ _ tt p1) by done.
  assert (Ha1 : area_ok p1).
  { split; simpl; try done; [lia|]. rewrite length_replicate. unfold PAGE_SIZE. page_lia. }
  assert (Hp1 : ∀ q, present p1 q = false).
  { intros q. unfold present. simpl. destruct (replicate _ false !! _) eqn:E; [|done].
    by apply lookup_replicate in E as [-> _]. }
  destruct (update_alloc_ok e p1 area (area + PAGE_SIZE) true Ha1) as (r & p2 & Er & Hs & Hpr).
  { done. } { page_lia. } { simpl. lia. } { unfold limit. simpl. unfold PAGE_SIZE. lia. } { auto. }
  assert (r = 0) as ->.
  { unfold binder_update_page_range in Er. destruct (Z.leb_spec (area + PAGE_SIZE) area); [by injection Er|].
    rewrite (st_bind_eq _ _ p1 p1 p1) in Er by done. cbn [negb] in Er.
    apply st_bind_ok in Er as (ok & q & Hr & Hret). destruct ok; [by injection Hret|].
    destruct (alloc_range_false _ _ _ _ _ _ _ Hr) as (k & Hk1 & Hk2 & Hk3). unfold PAGE_SIZE in *.
    assert (k = 0) as -> by lia. by rewrite Z.mul_0_r, Z.add_0_r in Hk3. }
  rewrite (st_bind_eq _ _ _ _ _ Er). cbn [Z.eqb negb].
  destruct Hs as (pg & -> & Hpg).
  set (x := set_free true (e_stale e area)).
  set (p3 := set_heap {[area := x]} (set_buffers [area] (set_pages pg p1))).
  rewrite (st_bind_eq _ _ _ tt (set_buffers [area] (set_pages pg p1))) by done.
  rewrite (st_bind_eq _ _ _ tt p3) by (unfold modify, p3, x; simpl; by rewrite U2).
  destruct (insert_free_ok p3 area) as (t & Ei & Hperm & _).
  { unfold isf. simpl. by rewrite lookup_singleton_eq. } { simpl. rewrite U3. constructor. }
  { simpl. rewrite U3. intros c Hc. by apply not_elem_of_nil in Hc. }
  rewrite (st_bind_eq _ _ _ _ _ Ei). simpl in Hperm. rewrite U3 in Hperm.
  apply Permutation_singleton_r in Hperm.
  set (p4 := set_free_async_space (area_size vma / 2) (set_free_buffers t p3)).
  rewrite (st_bind_eq _ _ _ tt p4) by done.
  eexists. split; [done|]. split.
  - destruct Ha1 as [A1 A2 A3 A4 A5 A6]. apply (one_buffer_inv _ x); try done.
    + split; try done. simpl. by rewrite Hpg.
    + intros q Hq. transitivity (present (set_pages pg p1) q); [done|]. rewrite Hpr by done. rewrite Hp1.
      destruct Hq as [Hq _]. simpl. apply bool_decide_ext. unfold PAGE_SIZE. page_lia.
  - split_and!; try done.
    + apply map_eq. intros b. apply option_eq. intros y. rewrite live_lookup, lookup_empty. simpl.
      destruct (decide (b = area)) as [->|]; [rewrite lookup_singleton_eq|rewrite lookup_singleton_ne by done]; [|naive_solver].
      split; [|done]. by intros [[= <-] ?].
    + unfold binder_buffer_size, list_is_last. simpl. rewrite bool_decide_true by done.
      rewrite usz_small; [lia|]. destruct Ha1. simpl in *. lia.
Qed.
End mapping.

(** ** The abstract allocator *)

(** A client asks for a buffer, writes in one it holds, or gives one back. *)
Inductive request : Type :=
| Req_alloc (e : page_env) (data_size offsets_size : Z) (is_async : bool)
| Req_write (b : Z) (f : binder_buffer → binder_buffer)
| Req_free (e : page_env) (b : Z).

Section refinement.
Context {AR : Arch} {RB : RBOps} {RL : RBLaws}.
Implicit Types (b : Z) (p : alloc) (x : binder_buffer) (s : gmap Z binder_buffer).

Definition serve (r : request) : ST alloc Z :=
  match r with
  | Req_alloc e ds os a => binder_alloc_buf e ds os a
  | Req_write b f => upd_buf b f ;; mret 0
  | Req_free e b => binder_free_buf e b ;; mret 0
  end.

(** The buffer [x] at [b] is inside [lo, hi) and touches no buffer of [s]. *)
Definition apart (lo hi : Z) s b x : Prop :=
  lo <= b ∧ span b x <= hi ∧ ∀ c y, s !! c = Some y → span c y <= b ∨ span b x <= c.

(** The specification: the state is the set of buffers in use. *)
Inductive spec_step (lo hi : Z) s : request → Z → gmap Z binder_buffer → Prop :=
| spec_refuse e ds os a : spec_step lo hi s (Req_alloc e ds os a) 0 s
| spec_alloc e ds os a b x :
    b ≠ 0 → s !! b = None → apart lo hi s b x →
    b_data_size x = ds → b_offsets_size x = os → b_async_transaction x = a →
    spec_step lo hi s (Req_alloc e ds os a) b (<[b := x]> s)
| spec_write b f x : s !! b = Some x → spec_step lo hi s (Req_write b f) 0 (<[b := f x]> s)
| spec_free e b : is_Some (s !! b) → spec_step lo hi s (Req_free e b) 0 (delete b s).

(** What clients owe: sizes are of type [size_t]; only buffers in use are
    written, keeping their shape, or freed, without a transaction. *)
Definition allowed s (r : request) : Prop :=
  match r with
  | Req_alloc _ ds os _ => 0 <= ds < 2 ^ (8 * word) ∧ 0 <= os < 2 ^ (8 * word)
  | Req_write b f => keeps_shape f ∧ is_Some (s !! b)
  | Req_free _ b => ∃ x, s !! b = Some x ∧ b_transaction x = 0
  end.

Definition async_ok p : Prop := 0 <= a_free_async_space p < 2 ^ (8 * word).

Lemma usz_range (n : Z) : 0 <= usz n < 2 ^ (8 * word).
Proof. apply Z.mod_pos_bound. destruct word_ok as [-> | ->]; lia. Qed.

(** A buffer just taken is apart from the others. *)
Lemma taken_apart p p' b x :
  Inv p → Inv p' → same_area p p' → isf p b = true → live p' = <[b := x]> (live p) →
  live p !! b = None ∧ apart (a_buffer p) (limit p) (live p) b x.
Proof.
  intros HI HI' Hsa Hf HL.
  assert (Hn : live p !! b = None).
  { destruct (live p !! b) as [y|] eqn:E; [|done]. destruct (live_in p b y HI E) as (_ & _ & ?). congruence. }
  assert (Hb : live p' !! b = Some x) by by rewrite HL, lookup_insert_eq.
  destruct (span_limit p' b x HI' Hb) as [B1 B2]. rewrite (sa_buffer _ _ Hsa) in B1.
  split; [done|]. split_and!; [done|unfold limit in *; by rewrite (sa_buffer _ _ Hsa), (sa_size _ _ Hsa) in B2|].
  intros c y Hc. assert (Hcb : c ≠ b) by (intros ->; congruence).
  assert (Hc' : live p' !! c = Some y) by by rewrite HL, lookup_insert_ne.
  destruct (live_in p' c y HI' Hc') as (Hc2 & _ & _), (live_in p' b x HI' Hb) as (Hb2 & _ & _).
  destruct (Z.lt_total c b) as [Hlt|[->|Hlt]]; [left|done|right]; by eapply spans_ordered.
Qed.

(** Each operation of the driver is a step of the specification, and none
    oopses. *)
Lemma serve_refines p r :
  Inv p → async_ok p → allowed (live p) r →
  ∃ v p', serve r p = Ok (v, p') ∧ Inv p' ∧ async_ok p' ∧ same_area p p' ∧
    spec_step (a_buffer p) (limit p) (live p) r v (live p').
Proof.
  intros HI Has Hal. destruct r as [e ds os a|b f|e b]; simpl in *.
  - destruct Hal as [Hd Ho]. destruct (alloc_buf_ok e p ds os a HI Hd Ho Has) as (v & p' & Er & HI' & Hsa & Hr).
    exists v, p'. split; [done|]. split; [done|].
    destruct Hr as [(-> & EL & Ea & _)|(Hv & [F1 (x & Hx & EL) F3 F4 F5 F6])].
    + rewrite EL. unfold async_ok in *. rewrite Ea. split_and!; [lia..|done|constructor].
    + split; [|split; [done|]].
      * unfold async_ok in *. rewrite F6. destruct a; [|done]. specialize (F5 eq_refl). pose proof HDR_range.
        pose proof (ALIGN_range ds ltac:(lia)). pose proof (ALIGN_range os ltac:(lia)). lia.
      * rewrite EL. destruct (taken_apart p p' v _ HI HI' Hsa F1 EL). by apply spec_alloc.
  - destruct Hal as [Hk [x Hx]]. destruct (write_ok p b f x HI Hk Hx) as (p' & Er & HI' & [G1 _ G3 _] & EL).
    exists 0, p'. rewrite (st_bind_eq _ _ _ _ _ Er), EL. split_and!; try done; [by unfold async_ok; rewrite G3..| |by constructor].
    destruct G1. by split.
  - destruct Hal as (x & Hx & Ht). destruct (free_buf_ok e p b x HI Hx Ht) as (p' & Er & HI' & Hsa & EL & _ & Ea).
    exists 0, p'. rewrite (st_bind_eq _ _ _ _ _ Er), EL. split; [done|]. split; [done|]. split; [|split; [done|constructor; eauto]].
    unfold async_ok. rewrite Ea. destruct (b_async_transaction x); [apply usz_range|done].
Qed.

(** Runs of a client that keeps its side. *)
Inductive driver_run p : list (request * Z) → alloc → Prop :=
| driver_start : driver_run p [] p
| driver_step tr p1 r v p2 :
    driver_run p tr p1 → allowed (live p1) r → serve r p1 = Ok (v, p2) → driver_run p (tr ++ [(r, v)]) p2.

Inductive spec_run (lo hi : Z) s : list (request * Z) → gmap Z binder_buffer → Prop :=
| spec_start : spec_run lo hi s [] s
| spec_next tr s1 r v s2 :
    spec_run lo hi s tr s1 → spec_step lo hi s1 r v s2 → spec_run lo hi s (tr ++ [(r, v)]) s2.

Lemma driver_run_refines p tr p' :
  Inv p → async_ok p → driver_run p tr p' →
  (Inv p' ∧ async_ok p' ∧ same_area p p') ∧ spec_run (a_buffer p) (limit p) (live p) tr (live p').
Proof.
  intros HI Has. induction 1 as [|tr p1 r v p2 _ [(HI1 & Has1 & Hsa1) IH] Hal Hr].
  - split; [done|constructor].
  - destruct (serve_refines p1 r HI1 Has1 Hal) as (v' & p2' & Er & HI2 & Has2 & Hsa2 & Hst).
    rewrite Hr in Er. injection Er as <- <-. split; [split_and!; [done..|by eapply same_area_trans]|].
    econstructor; [exact IH|]. unfold limit in *. by rewrite (sa_buffer _ _ Hsa1), (sa_size _ _ Hsa1) in Hst.
Qed.

(** ** Space for asynchronous transactions *)

(** What [binder_alloc_buf] charges and what [binder_free_buf] gives back. *)
Definition charged x : Z := ALIGN (b_data_size x) word + ALIGN (b_offsets_size x) word + HDR.
Definition given_back x : Z :=
  ALIGN (b_data_size x) sizeof_binder_ptr + ALIGN (b_offsets_size x) sizeof_binder_ptr + HDR.

(** The size of a request that fits is no more than the area. *)
Lemma live_size_bound p b x : Inv p → live p !! b = Some x → 0 <= given_back x <= 4194304 ∧ charged x <= 4194304.
Proof.
  intros HI Hl. destruct (live_in p b x HI Hl) as (Hin & Hx & Hf). destruct (span_limit p b x HI Hl) as [B1 B2].
  pose proof HI as [[Hg _ _ _ _ Hfit] _]. apply live_lookup in Hl as [_ Hxf]. destruct (Hfit b x Hx Hxf) as (H1 & H2 & _).
  destruct (geo_area p Hg) as [? _ ? _ _ _]. pose proof HDR_range.
  pose proof (ALIGN_range _ H1). pose proof (ALIGN_range _ H2). unfold given_back, charged, span, limit, sizeof_binder_ptr in *. lia.
Qed.
End refinement.

Lemma alloc_buf_ok' {AR : Arch} {RB : RBOps} {RL : RBLaws} e p ds os a :
  Inv p → async_ok p → 0 <= ds < 2 ^ (8 * word) → 0 <= os < 2 ^ (8 * word) →
  ∃ r p', binder_alloc_buf e ds os a p = Ok (r, p') ∧ Inv p' ∧ async_ok p' ∧ same_area p p' ∧
    (r = 0 ∧ live p' = live p ∧ a_free_async_space p' = a_free_async_space p ∧
       alloc_refused e p ds os a ∨
     r ≠ 0 ∧ alloc_taken p p' ds os a r).
Proof.
  intros HI Has Hd Ho. destruct (serve_refines p (Req_alloc e ds os a) HI Has (conj Hd Ho))
    as (v & p1 & Er & _ & Has' & _).
  destruct (alloc_buf_ok e p ds os a HI Hd Ho Has) as (r & p' & Er' & HI' & Hsa & Hr).
  simpl in Er. rewrite Er in Er'. injection Er' as -> ->. by exists r, p'.
Qed.

(** ** The properties *)

Section properties.
Context {AR : Arch} {RB : RBOps} {RL : RBLaws}.
Implicit Types (b : Z) (p : alloc) (x : binder_buffer).

(** C23: [binder_alloc_buf], called with sizes of type [size_t] on a well-formed
    area, never hits a [BUG_ON] and keeps the area well formed.  It returns NULL
    for one of the reasons of [alloc_refused], and then no buffer in use has
    changed; or a buffer that was free, the best fit, with room for the request,
    and nothing else is in use that was not before. *)
Theorem binder_alloc_buf_correct e p ds os is_async :
  Inv p → async_ok p → 0 <= ds < 2 ^ (8 * word) → 0 <= os < 2 ^ (8 * word) →
  ∃ r p', binder_alloc_buf e ds os is_async p = Ok (r, p') ∧ Inv p' ∧ async_ok p' ∧ same_area p p' ∧
    (r = 0 ∧ live p' = live p ∧ a_free_async_space p' = a_free_async_space p ∧
       alloc_refused e p ds os is_async ∨
     r ≠ 0 ∧ alloc_taken p p' ds os is_async r).
Proof. apply alloc_buf_ok'. Qed.

(** When a large enough buffer is free, the request does not overflow, the
    asynchronous quota suffices and no page is refused, [binder_alloc_buf]
    returns a buffer. *)
Theorem binder_alloc_buf_complete e p ds os is_async c :
  Inv p → async_ok p → 0 <= ds < 2 ^ (8 * word) → 0 <= os < 2 ^ (8 * word) →
  a_vma p = true → ALIGN ds word + ALIGN os word < 2 ^ (8 * word) →
  (is_async = true → ALIGN ds word + ALIGN os word + HDR <= a_free_async_space p) →
  isf p c = true → ALIGN ds word + ALIGN os word <= binder_buffer_size p c →
  e_task_mm e = Some (a_vma_vm_mm p) → (∀ q, e_page e q = Page_ok) →
  ∃ r p', binder_alloc_buf e ds os is_async p = Ok (r, p') ∧ r ≠ 0.
Proof.
  intros HI Has Hd Ho Hv Hov Hq Hc Hcs Hm He.
  pose proof (ALIGN_range ds ltac:(lia)). pose proof (ALIGN_range os ltac:(lia)).
  assert (Ers : request_size word ds os = ALIGN ds word + ALIGN os word).
  { unfold request_size. fold (usz (ALIGN ds word)). rewrite (usz_small (ALIGN ds word)), (usz_small (ALIGN os word)) by lia.
    apply usz_small. lia. }
  destruct (alloc_buf_ok e p ds os is_async HI Hd Ho Has) as (r & p' & Er & _ & _ & Hr).
  exists r, p'. split; [done|]. destruct Hr as [(_ & _ & _ & Href)|[Hr _]]; [exfalso|done].
  destruct Href as [?|[?|?]|Ha ?|Hs|[?|(q & _ & Hp)]]; try congruence; try lia.
  - specialize (Hq Ha). lia.
  - specialize (Hs c Hc). lia.
Qed.

(** C24: [binder_free_buf] of a buffer in use without a transaction never hits a
    [BUG_ON], keeps the area well formed (the freed buffer is merged with its
    free neighbours, its pages are unmapped), and takes just that buffer out of
    use. *)
Theorem binder_free_buf_correct e p b x :
  Inv p → live p !! b = Some x → b_transaction x = 0 →
  ∃ p', binder_free_buf e b p = Ok (tt, p') ∧ Inv p' ∧ same_area p p' ∧ live p' = delete b (live p) ∧
    a_free_async_space p' =
      if b_async_transaction x then usz (a_free_async_space p + given_back x) else a_free_async_space p.
Proof.
  intros HI Hl Ht. destruct (free_buf_ok e p b x HI Hl Ht) as (p' & Er & HI' & Hsa & EL & _ & Ea).
  exists p'. do 4 (split; [done|]). rewrite Ea. destruct (b_async_transaction x); [|done].
  destruct (live_size_bound p b x HI Hl) as [Hgb _].
  destruct (live_in p b x HI Hl) as (Hin & Hx & Hf). pose proof HI as [[Hg _ _ _ _ Hfit] _].
  apply live_lookup in Hl as [_ Hxf]. destruct (Hfit b x Hx Hxf) as (D1 & D2 & D3).
  destruct (request_size_fits p b x Hg Hin D1 D2 D3) as [-> _].
  assert (2 ^ 32 <= 2 ^ (8 * word)) by (destruct word_ok as [-> | ->]; lia).
  rewrite (usz_small (_ + HDR)); [done|]. unfold given_back, sizeof_binder_ptr in Hgb. lia.
Qed.

(** No buffers in use overlap, headers included; each lies in the mapped
    area of the process, and every byte of it is on a page that is mapped. *)
Theorem buffers_in_use_disjoint_mapped p b x :
  Inv p → live p !! b = Some x →
  a_buffer p <= b ∧ span b x <= limit p ∧
  (∀ a, b <= a < span b x → present p (page_mask a) = true) ∧
  (∀ c y, live p !! c = Some y → c ≠ b → span c y <= b ∨ span b x <= c).
Proof.
  intros HI Hl. destruct (span_limit p b x HI Hl) as [B1 B2]. split_and!; [done..| |].
  - intros a Ha. by eapply span_mapped.
  - intros c y Hc Hcb. destruct (live_in p b x HI Hl) as (Hb & _), (live_in p c y HI Hc) as (Hc' & _).
    destruct (Z.lt_total c b) as [?|[?|?]]; [left|done|right]; by eapply spans_ordered.
Qed.

(** [binder_buffer_lookup] answers a user address with the buffer in use
    whose data is there, and with NULL when there is none; it changes nothing. *)
Theorem binder_buffer_lookup_correct p u :
  Inv p → ∃ r, binder_buffer_lookup u p = Ok (r, p) ∧
    ∀ b, r = Some b ↔ is_Some (live p !! b) ∧ u = b + HDR + a_user_buffer_offset p.
Proof. apply lookup_ok. Qed.

(** [binder_mmap] of a process that has no area, when nothing is refused,
    returns 0 and sets up a well-formed area of at most 4 MB: one free buffer,
    nothing in use, half of the area for asynchronous transactions. *)
Theorem binder_mmap_correct e vma area files p :
  unmapped p → vma_ok vma area → has_flag (vm_flags vma) FORBIDDEN_MMAP_FLAGS = false →
  e_page e area = Page_ok →
  ∃ p', binder_mmap e true vma area true files p = Ok (0, p') ∧ Inv p' ∧ live p' = ∅ ∧
    a_buffers p' = [area] ∧ binder_buffer_size p' area = area_size vma - HDR ∧
    a_free_async_space p' = area_size vma / 2.
Proof.
  intros. destruct (mmap_ok e vma area files p) as (p' & Hr); [done..|]. exists p'. tauto.
Qed.

(** C1: the driver's allocator implements the abstract one.  As long as clients
    only write and free buffers they hold, no call oopses, every reachable area
    is well formed, and the calls with their results are a run of the
    specification, in which a new buffer is apart from those in use. *)
Theorem allocator_refines_specification p tr p' :
  Inv p → async_ok p → driver_run p tr p' →
  Inv p' ∧ spec_run (a_buffer p) (limit p) (live p) tr (live p') ∧
  ∀ r, allowed (live p') r → ∃ v p2, serve r p' = Ok (v, p2).
Proof.
  intros HI Has Hrun. destruct (driver_run_refines p tr p' HI Has Hrun) as [(HI' & Has' & _) Hs].
  split_and!; [done..|]. intros r Hr. destruct (serve_refines p' r HI' Has' Hr) as (v & p2 & E & _). eauto.
Qed.

(** An asynchronous buffer that is allocated and freed gives back what it
    was charged less the alignment slack: nothing is lost when pointers of the
    kernel are 4 bytes wide, but with 8 byte pointers the quota shrinks for good
    (sizes are aligned to [sizeof(void * )] when charged and to
    [sizeof(binder_ptr)], 4, when given back). *)
Theorem async_space_roundtrip e e' p ds os r p1 p2 :
  Inv p → async_ok p → 0 <= ds < 2 ^ (8 * word) → 0 <= os < 2 ^ (8 * word) →
  binder_alloc_buf e ds os true p = Ok (r, p1) → r ≠ 0 →
  (upd_buf r (λ x, mk_buffer (b_free x) true (b_async_transaction x) (b_debug_id x) 0 0
     (b_data_size x) (b_offsets_size x) (b_data x)) ;; binder_free_buf e' r) p1 = Ok (tt, p2) →
  live p2 = live p ∧
  a_free_async_space p2 = a_free_async_space p -
    ((ALIGN ds word - ALIGN ds 4) + (ALIGN os word - ALIGN os 4)).
Proof.
  intros HI Has Hd Ho Er Hr0 Ef.
  destruct (alloc_buf_ok e p ds os true HI Hd Ho Has) as (r' & p1' & Er' & HI1 & Hsa & Hr).
  rewrite Er in Er'. injection Er' as <- <-. destruct Hr as [(? & _)|(_ & [F1 (x & Hx & EL) F3 F4 F5 F6])]; [done|].
  destruct (taken_apart p p1 r _ HI HI1 Hsa F1 EL) as [Hn _]. specialize (F5 eq_refl).
  assert (Hl : live p1 !! r = Some (set_sizes ds os true (set_free false x))) by by rewrite EL, lookup_insert_eq.
  set (f := λ x, _) in Ef.
  destruct (write_ok p1 r f _ HI1 ltac:(by intros ?) Hl) as (p1' & Eu & HI1' & [_ _ G3 _] & EL1).
  rewrite (st_bind_eq _ _ _ _ _ Eu) in Ef.
  destruct (binder_free_buf_correct e' p1' r (f (set_sizes ds os true (set_free false x))) HI1') as (p2' & Ef' & _ & _ & EL2 & Ea).
  { by rewrite EL1, lookup_insert_eq. } { done. }
  rewrite Ef in Ef'. injection Ef' as <-. split.
  - rewrite EL2, EL1, delete_insert_eq, EL, delete_insert_id; done.
  - rewrite Ea. cbn [f b_async_transaction set_sizes]. rewrite G3. change (a_free_async_space (set_heap _ p1)) with (a_free_async_space p1).
    rewrite F6. unfold given_back, sizeof_binder_ptr. simpl.
    pose proof (ALIGN_range ds ltac:(lia)). pose proof (ALIGN_range os ltac:(lia)). unfold async_ok in *.
    pose proof HDR_range. rewrite usz_small; lia.
Qed.
End properties.

(** ** Witnesses: a concrete area, on both kernels *)

Definition arch32 : Arch := {| word := 4; word_ok := or_introl eq_refl |}.
Definition arch64 : Arch := {| word := 8; word_ok := or_intror eq_refl |}.

Module Demo.
#[local] Existing Instances list_rb list_rb_laws.

Definition env : page_env := mk_env (Some 7) (λ _, Page_ok) (λ _, zero_buffer).
Definition vma : vm_area := mk_vm_area 1073741824 1073750016 1 7.
Definition area : Z := 268435456.

Definition state_of {A} (r : res (A * alloc)) : alloc :=
  match r with Ok (_, p) => p | Oops _ => zero_alloc end.
Definition value_of {A} (d : A) (r : res (A * alloc)) : A :=
  match r with Ok (v, _) => v | Oops _ => d end.

Definition mapped (AR : Arch) : alloc := state_of (binder_mmap env true vma area true 5 zero_alloc).
(** One asynchronous buffer of 100 bytes with two offsets. *)
Definition used (AR : Arch) : alloc := state_of (binder_alloc_buf env 100 8 true (mapped AR)).

Lemma vma_demo (AR : Arch) : vma_ok vma area.
Proof.
  split; try done. unfold area_size, SZ_4M. simpl.
  assert (2 ^ 32 <= 2 ^ (8 * word)) by (destruct word_ok as [-> | ->]; lia). unfold area. lia.
Qed.

Lemma mapped_eq (AR : Arch) p : binder_mmap env true vma area true 5 zero_alloc = Ok (0, p) → mapped AR = p.
Proof. intros E. exact (f_equal state_of E). Qed.

Lemma mapped_async (AR : Arch) p : a_free_async_space p = area_size vma / 2 → async_ok p.
Proof.
  intros Ea. unfold async_ok. rewrite Ea.
  assert (2 ^ 32 <= 2 ^ (8 * word)) by (destruct word_ok as [-> | ->]; lia).
  assert (area_size vma / 2 = 4096) as -> by reflexivity. lia.
Qed.

Lemma mapped_inv (AR : Arch) : Inv (mapped AR) ∧ async_ok (mapped AR).
Proof.
  destruct (mmap_ok env vma area 5 zero_alloc) as (p' & E & HI & _ & _ & _ & _ & _ & _ & _ & Ea);
    [done|apply vma_demo|done|done|].
  rewrite (mapped_eq AR p' E). split; [exact HI|exact (mapped_async AR p' Ea)].
Qed.

Lemma alloc_inv (AR : Arch) e p ds os a :
  Inv p → async_ok p → 0 <= ds < 2 ^ 32 → 0 <= os < 2 ^ 32 →
  Inv (state_of (binder_alloc_buf e ds os a p)) ∧ async_ok (state_of (binder_alloc_buf e ds os a p)).
Proof.
  intros HI Has Hd Ho. assert (2 ^ 32 <= 2 ^ (8 * word)) by (destruct word_ok as [-> | ->]; lia).
  destruct (alloc_buf_ok' e p ds os a HI Has) as (v & p' & -> & HI' & Has' & _); [lia|lia|done].
Qed.

Lemma used_inv (AR : Arch) : Inv (used AR) ∧ async_ok (used AR).
Proof. destruct (mapped_inv AR) as [HI Has]. exact (alloc_inv AR env (mapped AR) 100 8 true HI Has ltac:(lia) ltac:(lia)). Qed.

Lemma binder_mmap_correct_witness :
  ∃ p', binder_mmap (AR := arch32) env true vma area true 5 zero_alloc = Ok (0, p').
Proof.
  destruct (binder_mmap_correct (AR := arch32) env vma area 5 zero_alloc) as (p' & E & _);
    [by split_and!|apply vma_demo|reflexivity|reflexivity|]. exact (ex_intro _ p' E).
Defined.

Lemma binder_alloc_buf_correct_witness :
  ∃ r p', binder_alloc_buf (AR := arch32) env 100 8 true (mapped arch32) = Ok (r, p') ∧ @Inv arch32 p'.
Proof.
  destruct (binder_alloc_buf_correct (AR := arch32) env (mapped arch32) 100 8 true) as (r & p' & E & HI & _);
    [apply mapped_inv|apply mapped_inv|simpl; lia|simpl; lia|]. exact (ex_intro _ r (ex_intro _ p' (conj E HI))).
Defined.

Lemma binder_alloc_buf_complete_witness :
  ∃ r p', binder_alloc_buf (AR := arch32) env 100 8 true (mapped arch32) = Ok (r, p') ∧ r ≠ 0.
Proof.
  apply (binder_alloc_buf_complete (AR := arch32) env (mapped arch32) 100 8 true area);
    [apply mapped_inv|apply mapped_inv|simpl; lia|simpl; lia|vm_compute; reflexivity|vm_compute; reflexivity
    |vm_compute; discriminate|vm_compute; reflexivity|vm_compute; discriminate|vm_compute; reflexivity|reflexivity].
Defined.

Lemma binder_free_buf_correct_witness :
  ∃ x p', live (used arch32) !! area = Some x ∧ binder_free_buf (AR := arch32) env area (used arch32) = Ok (tt, p').
Proof.
  destruct (binder_free_buf_correct (AR := arch32) env (used arch32) area
    (mk_buffer false false true 0 0 0 100 8 [])) as (p' & E & _); [apply used_inv|vm_compute; reflexivity|reflexivity|].
  exists (mk_buffer false false true 0 0 0 100 8 []), p'. split; [vm_compute; reflexivity|exact E].
Defined.

Lemma buffers_in_use_disjoint_mapped_witness : present (used arch32) (page_mask (area + 100)) = true.
Proof.
  destruct (buffers_in_use_disjoint_mapped (AR := arch32) (used arch32) area
    (mk_buffer false false true 0 0 0 100 8 [])) as (_ & _ & Hp & _); [apply used_inv|vm_compute; reflexivity|].
  apply Hp. vm_compute. split; [discriminate|reflexivity].
Defined.

Lemma binder_buffer_lookup_correct_witness :
  ∃ r, binder_buffer_lookup (AR := arch32) (1073741824 + 40) (used arch32) = Ok (r, used arch32) ∧ r = Some area.
Proof.
  destruct (binder_buffer_lookup_correct (AR := arch32) (used arch32) (1073741824 + 40)) as (r & E & Hr);
    [apply used_inv|]. exists r. split; [exact E|]. apply Hr. split; [vm_compute; eauto|vm_compute; reflexivity].
Defined.

Lemma allocator_refines_specification_witness :
  @Inv arch32 (used arch32) ∧ ∃ v p2, serve (AR := arch32) (Req_free env area) (used arch32) = Ok (v, p2).
Proof.
  destruct (allocator_refines_specification (AR := arch32) (mapped arch32)
    ([] ++ [(Req_alloc env 100 8 true, area)]) (used arch32)) as (HI & _ & Hp); [apply mapped_inv|apply mapped_inv| |].
  - eapply driver_step; [constructor|simpl; lia|vm_compute; reflexivity].
  - split; [exact HI|]. apply Hp. exists (mk_buffer false false true 0 0 0 100 8 []).
    split; [vm_compute; reflexivity|reflexivity].
Defined.

(** On a 64 bit kernel, 4 bytes of the quota are lost. *)
Lemma async_space_roundtrip_witness :
  let p2 := state_of ((upd_buf area (λ x, mk_buffer (b_free x) true (b_async_transaction x) (b_debug_id x) 0 0
    (b_data_size x) (b_offsets_size x) (b_data x)) ;; binder_free_buf (AR := arch64) env area) (used arch64)) in
  a_free_async_space p2 = a_free_async_space (mapped arch64) - 4.
Proof.
  refine (proj2 (async_space_roundtrip (AR := arch64) env env (mapped arch64) 100 8 area (used arch64) _ _ _ _ _ _ _ _));
    [apply mapped_inv|apply mapped_inv|simpl; lia|simpl; lia|vm_compute; reflexivity|discriminate|vm_compute; reflexivity].
Defined.
End Demo.
