(* ===== verification/BinderUapi.v ===== *)
(** [driver/binder.h]: object types, ioctl and protocol numbers, the layout of
    the structures user space passes.  The tree is built with
    [CONFIG_ANDROID_BINDER_IPC_COMPAT_32], so pointers and sizes of the
    interface are 32 bits wide on every kernel. *)
From S2P Require Import Prelude.

(** ** Numbers *)

Definition B_PACK_CHARS (c1 c2 c3 c4 : Z) : Z :=
  Z.lor (Z.lor (Z.shiftl c1 24) (Z.shiftl c2 16)) (Z.lor (Z.shiftl c3 8) c4).
Definition B_TYPE_LARGE : Z := 133.

Definition BINDER_TYPE_BINDER : Z := B_PACK_CHARS 115 98 42 B_TYPE_LARGE.
Definition BINDER_TYPE_WEAK_BINDER : Z := B_PACK_CHARS 119 98 42 B_TYPE_LARGE.
Definition BINDER_TYPE_HANDLE : Z := B_PACK_CHARS 115 104 42 B_TYPE_LARGE.
Definition BINDER_TYPE_WEAK_HANDLE : Z := B_PACK_CHARS 119 104 42 B_TYPE_LARGE.
Definition BINDER_TYPE_FD : Z := B_PACK_CHARS 102 100 42 B_TYPE_LARGE.

Definition FLAT_BINDER_FLAG_PRIORITY_MASK : Z := 255.
Definition FLAT_BINDER_FLAG_ACCEPTS_FDS : Z := 256.

Definition TF_ONE_WAY : Z := 1.
Definition TF_ACCEPT_FDS : Z := 16.

(** [_IOC(dir, type, nr, size)] of [linux/ioctl.h]; [_IO], [_IOW] and [_IOR]. *)
Definition IOC (dir type nr size : Z) : Z :=
  Z.lor (Z.lor (Z.shiftl dir 30) (Z.shiftl size 16)) (Z.lor (Z.shiftl type 8) nr).
Definition IO (type nr : Z) : Z := IOC 0 type nr 0.
Definition IOW (type nr size : Z) : Z := IOC 1 type nr size.
Definition IOR (type nr size : Z) : Z := IOC 2 type nr size.
Definition IOWR (type nr size : Z) : Z := IOC 3 type nr size.
Definition IOC_NR (cmd : Z) : Z := Z.land cmd 255.
Definition IOC_SIZE (cmd : Z) : Z := Z.land (Z.shiftr cmd 16) 16383.

(** Sizes of the structures of the interface. *)
Definition sizeof_write_read : Z := 24.
Definition sizeof_version : Z := 4.
Definition sizeof_transaction_data : Z := 40.
Definition sizeof_ptr_cookie : Z := 8.
Definition sizeof_flat_object : Z := 16.

Definition BINDER_WRITE_READ : Z := IOWR 98 1 sizeof_write_read.
Definition BINDER_SET_IDLE_TIMEOUT : Z := IOW 98 3 8.
Definition BINDER_SET_MAX_THREADS : Z := IOW 98 5 4.
Definition BINDER_SET_IDLE_PRIORITY : Z := IOW 98 6 4.
Definition BINDER_SET_CONTEXT_MGR : Z := IOW 98 7 4.
Definition BINDER_THREAD_EXIT : Z := IOW 98 8 4.
Definition BINDER_VERSION : Z := IOWR 98 9 sizeof_version.
Definition BINDER_CURRENT_PROTOCOL_VERSION : Z := 7.

Definition BR_ERROR : Z := IOR 114 0 4.
Definition BR_OK : Z := IO 114 1.
Definition BR_TRANSACTION : Z := IOR 114 2 sizeof_transaction_data.
Definition BR_REPLY : Z := IOR 114 3 sizeof_transaction_data.
Definition BR_DEAD_REPLY : Z := IO 114 5.
Definition BR_TRANSACTION_COMPLETE : Z := IO 114 6.
Definition BR_INCREFS : Z := IOR 114 7 sizeof_ptr_cookie.
Definition BR_ACQUIRE : Z := IOR 114 8 sizeof_ptr_cookie.
Definition BR_RELEASE : Z := IOR 114 9 sizeof_ptr_cookie.
Definition BR_DECREFS : Z := IOR 114 10 sizeof_ptr_cookie.
Definition BR_NOOP : Z := IO 114 12.
Definition BR_SPAWN_LOOPER : Z := IO 114 13.
Definition BR_DEAD_BINDER : Z := IOR 114 15 4.
Definition BR_CLEAR_DEATH_NOTIFICATION_DONE : Z := IOR 114 16 4.
Definition BR_FAILED_REPLY : Z := IO 114 17.

Definition BC_TRANSACTION : Z := IOW 99 0 sizeof_transaction_data.
Definition BC_REPLY : Z := IOW 99 1 sizeof_transaction_data.
Definition BC_ACQUIRE_RESULT : Z := IOW 99 2 4.
Definition BC_FREE_BUFFER : Z := IOW 99 3 4.
Definition BC_INCREFS : Z := IOW 99 4 4.
Definition BC_ACQUIRE : Z := IOW 99 5 4.
Definition BC_RELEASE : Z := IOW 99 6 4.
Definition BC_DECREFS : Z := IOW 99 7 4.
Definition BC_INCREFS_DONE : Z := IOW 99 8 sizeof_ptr_cookie.
Definition BC_ACQUIRE_DONE : Z := IOW 99 9 sizeof_ptr_cookie.
Definition BC_ATTEMPT_ACQUIRE : Z := IOW 99 10 8.
Definition BC_REGISTER_LOOPER : Z := IO 99 11.
Definition BC_ENTER_LOOPER : Z := IO 99 12.
Definition BC_EXIT_LOOPER : Z := IO 99 13.
Definition BC_REQUEST_DEATH_NOTIFICATION : Z := IOW 99 14 sizeof_ptr_cookie.
Definition BC_CLEAR_DEATH_NOTIFICATION : Z := IOW 99 15 sizeof_ptr_cookie.
Definition BC_DEAD_BINDER_DONE : Z := IOW 99 16 4.

(** ** [struct flat_binder_object] in memory: 4 words *)

Record flat_binder_object : Type := mk_flat {
  fp_type : Z;
  fp_flags : Z;
  fp_binder : Z;    (* the union: [binder], or [handle] *)
  fp_cookie : Z
}.

Definition decode_flat (bs : list Z) : flat_binder_object :=
  mk_flat (get32 0 bs) (get32 4 bs) (get32 8 bs) (get32 12 bs).

Definition encode_flat (fp : flat_binder_object) : list Z :=
  le_bytes 4 (fp_type fp) ++ le_bytes 4 (fp_flags fp) ++ le_bytes 4 (fp_binder fp) ++
  le_bytes 4 (fp_cookie fp).

(** ** [struct binder_transaction_data]: 10 words *)

Record binder_transaction_data : Type := mk_tr {
  tr_target : Z;    (* the union: [handle], or [ptr] *)
  tr_cookie : Z;
  tr_code : Z;
  tr_flags : Z;
  tr_sender_pid : Z;
  tr_sender_euid : Z;
  tr_data_size : Z;
  tr_offsets_size : Z;
  tr_buffer : Z;
  tr_offsets : Z
}.

Definition decode_tr (bs : list Z) : binder_transaction_data :=
  mk_tr (get32 0 bs) (get32 4 bs) (get32 8 bs) (get32 12 bs) (get32 16 bs) (get32 20 bs)
    (get32 24 bs) (get32 28 bs) (get32 32 bs) (get32 36 bs).

Definition encode_tr (tr : binder_transaction_data) : list Z :=
  concat (le_bytes 4 <$> [tr_target tr; tr_cookie tr; tr_code tr; tr_flags tr; tr_sender_pid tr;
    tr_sender_euid tr; tr_data_size tr; tr_offsets_size tr; tr_buffer tr; tr_offsets tr]).

(** ** [struct binder_write_read]: 6 words *)

Record binder_write_read : Type := mk_bwr {
  bwr_write_size : Z;
  bwr_write_consumed : Z;
  bwr_write_buffer : Z;
  bwr_read_size : Z;
  bwr_read_consumed : Z;
  bwr_read_buffer : Z
}.

(** Sizes are [binder_long], signed; buffers are [binder_ulong]. *)
Definition decode_bwr (bs : list Z) : binder_write_read :=
  mk_bwr (s32 (get32 0 bs)) (s32 (get32 4 bs)) (get32 8 bs) (s32 (get32 12 bs)) (s32 (get32 16 bs))
    (get32 20 bs).

Definition encode_bwr (b : binder_write_read) : list Z :=
  concat ((λ x, le_bytes 4 (u32 x)) <$> [bwr_write_size b; bwr_write_consumed b; bwr_write_buffer b;
    bwr_read_size b; bwr_read_consumed b; bwr_read_buffer b]).

(** ** Decoding what was encoded *)

Definition is_u32 (x : Z) : Prop := 0 <= x < 2 ^ 32.

(** Reading a word behind a prefix of whole words. *)
Lemma get32_app (l1 l2 : list Z) off :
  (length l1 ≤ off)%nat → get32 off (l1 ++ l2) = get32 (off - length l1) l2.
Proof. intros H. unfold get32, slice. by rewrite drop_app_ge. Qed.

Lemma get32_le_bytes x l : is_u32 x → get32 0 (le_bytes 4 x ++ l) = x.
Proof.
  intros Hx. unfold get32, slice. rewrite drop_0.
  pose proof (length_le_bytes 4 x) as E. rewrite <- E at 1. rewrite take_app_length. by apply le_value_bytes.
Qed.

Lemma get32_word_list (xs : list Z) i x :
  Forall is_u32 xs → xs !! i = Some x → get32 (4 * i) (concat (le_bytes 4 <$> xs)) = x.
Proof.
  revert i. induction xs as [|y xs IH]; intros i Hxs Hi; [done|].
  inversion Hxs as [|? ? Hy Hxs']; subst. rewrite fmap_cons. cbn [concat].
  destruct i as [|i]; simpl in Hi.
  - injection Hi as ->. by apply get32_le_bytes.
  - rewrite get32_app by (rewrite length_le_bytes; lia). rewrite length_le_bytes.
    replace (4 * S i - 4)%nat with (4 * i)%nat by lia. by apply IH.
Qed.

Lemma u32_s32 x : u32 (s32 x) = u32 x.
Proof. unfold u32, s32. rewrite Zminus_mod, Zmod_mod, <- Zminus_mod. f_equal. lia. Qed.

Lemma s32_u32 x : - 2 ^ 31 <= x < 2 ^ 31 → s32 (u32 x) = x.
Proof.
  intros Hx. unfold u32, s32. rewrite Zplus_mod_idemp_l, Z.mod_small by lia. lia.
Qed.

Lemma flat_object_roundtrip fp :
  Forall is_u32 [fp_type fp; fp_flags fp; fp_binder fp; fp_cookie fp] → decode_flat (encode_flat fp) = fp.
Proof.
  destruct fp as [t f b c]. cbn [fp_type fp_flags fp_binder fp_cookie]. intros H. unfold decode_flat, encode_flat.
  cbn [fp_type fp_flags fp_binder fp_cookie].
  replace (_ ++ _) with (concat (le_bytes 4 <$> [t; f; b; c])) by (cbn [fmap list_fmap concat]; by rewrite app_nil_r).
  assert (E : ∀ i off x, off = (4 * i)%nat → [t; f; b; c] !! i = Some x → get32 off (concat (le_bytes 4 <$> [t; f; b; c])) = x)
    by (intros ? ? ? ->; by apply get32_word_list).
  by rewrite (E 0%nat 0%nat t), (E 1%nat 4%nat f), (E 2%nat 8%nat b), (E 3%nat 12%nat c).
Qed.

(** What the driver copies to user space as a [binder_transaction_data] reads
    back as the same record, field by field (the layout is that of the C
    structure). *)
Theorem transaction_data_roundtrip tr :
  Forall is_u32 [tr_target tr; tr_cookie tr; tr_code tr; tr_flags tr; tr_sender_pid tr;
    tr_sender_euid tr; tr_data_size tr; tr_offsets_size tr; tr_buffer tr; tr_offsets tr] →
  decode_tr (encode_tr tr) = tr.
Proof.
  destruct tr as [f0 f1 f2 f3 f4 f5 f6 f7 f8 f9].
  cbn [tr_target tr_cookie tr_code tr_flags tr_sender_pid tr_sender_euid tr_data_size tr_offsets_size tr_buffer tr_offsets].
  intros H. unfold decode_tr, encode_tr. set (l := concat _).
  assert (E : ∀ i off x, off = (4 * i)%nat → [f0; f1; f2; f3; f4; f5; f6; f7; f8; f9] !! i = Some x → get32 off l = x)
    by (intros ? ? ? ->; by apply get32_word_list).
  by rewrite (E 0%nat 0%nat f0), (E 1%nat 4%nat f1), (E 2%nat 8%nat f2), (E 3%nat 12%nat f3), (E 4%nat 16%nat f4), (E 5%nat 20%nat f5), (E 6%nat 24%nat f6),
    (E 7%nat 28%nat f7), (E 8%nat 32%nat f8), (E 9%nat 36%nat f9) by done.
Qed.

Lemma transaction_data_roundtrip_witness :
  decode_tr (encode_tr (mk_tr 1 2 3 16 77 1000 12 4 4096 8192)) = mk_tr 1 2 3 16 77 1000 12 4 4096 8192.
Proof. apply transaction_data_roundtrip. repeat (constructor; [vm_compute; split; [discriminate|reflexivity]|]). constructor. Defined.

Lemma get32_word_list_u32 (xs : list Z) i x :
  xs !! i = Some x → get32 (4 * i) (concat ((λ x, le_bytes 4 (u32 x)) <$> xs)) = u32 x.
Proof.
  intros Hi. change (λ x, le_bytes 4 (u32 x)) with (le_bytes 4 ∘ u32). rewrite list_fmap_compose.
  apply get32_word_list; [|by rewrite list_lookup_fmap, Hi].
  apply Forall_fmap, Forall_true. intros y. apply u32_range.
Qed.

(** The [binder_write_read] the driver copies back after the ioctl reads as
    the record it worked on: signed sizes survive the trip through unsigned
    words. *)
Theorem write_read_roundtrip b :
  Forall (λ x, - 2 ^ 31 <= x < 2 ^ 31)
    [bwr_write_size b; bwr_write_consumed b; bwr_read_size b; bwr_read_consumed b] →
  is_u32 (bwr_write_buffer b) → is_u32 (bwr_read_buffer b) →
  decode_bwr (encode_bwr b) = b.
Proof.
  destruct b as [ws wc wb rs rc rb]. cbn [bwr_write_size bwr_write_consumed bwr_write_buffer bwr_read_size
    bwr_read_consumed bwr_read_buffer]. rewrite !Forall_cons. intros (H1 & H2 & H3 & H4 & _) H5 H6.
  unfold decode_bwr, encode_bwr.
  set (l := concat _).
  assert (E : ∀ i off x, off = (4 * i)%nat → [ws; wc; wb; rs; rc; rb] !! i = Some x → get32 off l = u32 x)
    by (intros ? ? ? ->; by apply get32_word_list_u32).
  rewrite (E 0%nat 0%nat ws), (E 1%nat 4%nat wc), (E 2%nat 8%nat wb), (E 3%nat 12%nat rs), (E 4%nat 16%nat rc), (E 5%nat 20%nat rb) by done.
  rewrite !s32_u32 by done. unfold is_u32 in *. by rewrite !u32_small by done.
Qed.

Lemma write_read_roundtrip_witness :
  decode_bwr (encode_bwr (mk_bwr 44 0 4096 256 (-1) 8192)) = mk_bwr 44 0 4096 256 (-1) 8192.
Proof.
  apply write_read_roundtrip; [repeat (constructor; [vm_compute; split; [discriminate|reflexivity]|]); constructor| |];
    vm_compute; (split; [discriminate|reflexivity]).
Defined.
