(* ===== verification/BinderState.v ===== *)
(** The state of the driver: its global variables, the objects it allocates,
    the intrusive lists, and what it sees of the calling task.  An object is
    known by its address, 0 is NULL; an object that is not in its map has been
    freed, and using it is a [Null_deref]. *)
From S2P Require Import Prelude RBTree BinderAlloc BinderUapi.

(** ** Lists and works *)

(** A [struct binder_work], known by the object that contains it; one that
    stands alone reports a completed transaction. *)
Inductive work : Type :=
| work_transaction (t : Z)
| work_complete (w : Z)
| work_node (n : Z)
| work_death (d : Z).

(** The list heads that hold works. *)
Inductive lhead : Type :=
| proc_todo (p : Z)
| thread_todo (t : Z)
| proc_delivered_death (p : Z)
| node_async_todo (n : Z)
| incoming_refs.  (* the local list head of a release *)

#[export] Instance work_eq_dec : EqDecision work.
Proof. solve_decision. Defined.
#[export] Instance lhead_eq_dec : EqDecision lhead.
Proof. solve_decision. Defined.
#[export] Instance lhead_countable : Countable lhead.
Proof.
  refine (inj_countable'
    (λ h, match h with
          | proc_todo p => inl (inl p)
          | thread_todo t => inl (inr t)
          | proc_delivered_death p => inr (inl (inl p))
          | node_async_todo n => inr (inl (inr n))
          | incoming_refs => inr (inr tt)
          end)
    (λ x, match x with
          | inl (inl p) => proc_todo p
          | inl (inr t) => thread_todo t
          | inr (inl (inl p)) => proc_delivered_death p
          | inr (inl (inr n)) => node_async_todo n
          | inr (inr tt) => incoming_refs
          end) _).
  by intros [].
Defined.

(** Wait queues. *)
Inductive wait_queue : Type :=
| proc_wait (p : Z)
| thread_wait (t : Z)
| user_error_wait.
#[export] Instance wait_queue_eq_dec : EqDecision wait_queue.
Proof. solve_decision. Defined.

(** [enum binder_work::type] of the works whose type changes. *)
Inductive death_type : Type :=
| death_no_type  (* as [kzalloc] leaves it *)
| BINDER_WORK_DEAD_BINDER
| BINDER_WORK_DEAD_BINDER_AND_CLEAR
| BINDER_WORK_CLEAR_DEATH_NOTIFICATION.
#[export] Instance death_type_eq_dec : EqDecision death_type.
Proof. solve_decision. Defined.

(** ** Statistics and logs *)

(** [binder_stats]: counters by command number and by object type. *)
Record stats : Type := mk_stats {
  st_br : gmap Z Z;
  st_bc : gmap Z Z;
  st_created : gmap Z Z;
  st_deleted : gmap Z Z
}.
#[export] Instance eta_stats : Eta stats :=
  λ r, mk_stats (st_br r) (st_bc r) (st_created r) (st_deleted r).
#[export] Instance field_st_br : Field st_br := ltac:(derive_field).
#[export] Instance field_st_bc : Field st_bc := ltac:(derive_field).
#[export] Instance field_st_created : Field st_created := ltac:(derive_field).
#[export] Instance field_st_deleted : Field st_deleted := ltac:(derive_field).
Definition zero_stats : stats := mk_stats ∅ ∅ ∅ ∅.

Definition BINDER_STAT_PROC : Z := 0.
Definition BINDER_STAT_THREAD : Z := 1.
Definition BINDER_STAT_NODE : Z := 2.
Definition BINDER_STAT_REF : Z := 3.
Definition BINDER_STAT_DEATH : Z := 4.
Definition BINDER_STAT_TRANSACTION : Z := 5.
Definition BINDER_STAT_TRANSACTION_COMPLETE : Z := 6.

Record log_entry : Type := mk_log_entry {
  le_debug_id : Z; le_call_type : Z; le_from_proc : Z; le_from_thread : Z; le_target_handle : Z;
  le_to_proc : Z; le_to_thread : Z; le_to_node : Z; le_data_size : Z; le_offsets_size : Z
}.
#[export] Instance eta_log_entry : Eta log_entry :=
  λ r, mk_log_entry (le_debug_id r) (le_call_type r) (le_from_proc r) (le_from_thread r)
    (le_target_handle r) (le_to_proc r) (le_to_thread r) (le_to_node r) (le_data_size r) (le_offsets_size r).
#[export] Instance field_le_debug_id : Field le_debug_id := ltac:(derive_field).
#[export] Instance field_le_call_type : Field le_call_type := ltac:(derive_field).
#[export] Instance field_le_from_proc : Field le_from_proc := ltac:(derive_field).
#[export] Instance field_le_from_thread : Field le_from_thread := ltac:(derive_field).
#[export] Instance field_le_target_handle : Field le_target_handle := ltac:(derive_field).
#[export] Instance field_le_to_proc : Field le_to_proc := ltac:(derive_field).
#[export] Instance field_le_to_thread : Field le_to_thread := ltac:(derive_field).
#[export] Instance field_le_to_node : Field le_to_node := ltac:(derive_field).
#[export] Instance field_le_data_size : Field le_data_size := ltac:(derive_field).
#[export] Instance field_le_offsets_size : Field le_offsets_size := ltac:(derive_field).
Definition zero_log_entry : log_entry := mk_log_entry 0 0 0 0 0 0 0 0 0 0.

Record transaction_log : Type := mk_log { lg_next : nat; lg_full : bool; lg_entry : list log_entry }.
#[export] Instance eta_log : Eta transaction_log := λ r, mk_log (lg_next r) (lg_full r) (lg_entry r).
#[export] Instance field_lg_next : Field lg_next := ltac:(derive_field).
#[export] Instance field_lg_full : Field lg_full := ltac:(derive_field).
#[export] Instance field_lg_entry : Field lg_entry := ltac:(derive_field).
Definition LOG_SIZE : nat := 32.
Definition zero_log : transaction_log := mk_log 0 false (replicate LOG_SIZE zero_log_entry).

(** ** Objects *)

Record binder_node : Type := mk_node {
  n_debug_id : Z;
  n_proc : Z;
  n_refs : list Z;
  n_internal_strong_refs : Z;
  n_local_weak_refs : Z;
  n_local_strong_refs : Z;
  n_ptr : Z;
  n_cookie : Z;
  n_has_strong_ref : bool;
  n_pending_strong_ref : bool;
  n_has_weak_ref : bool;
  n_pending_weak_ref : bool;
  n_has_async_transaction : bool;
  n_accept_fds : bool;
  n_min_priority : Z
}.
#[export] Instance eta_node : Eta binder_node :=
  λ r, mk_node (n_debug_id r) (n_proc r) (n_refs r) (n_internal_strong_refs r) (n_local_weak_refs r)
    (n_local_strong_refs r) (n_ptr r) (n_cookie r) (n_has_strong_ref r) (n_pending_strong_ref r)
    (n_has_weak_ref r) (n_pending_weak_ref r) (n_has_async_transaction r) (n_accept_fds r) (n_min_priority r).
#[export] Instance field_n_debug_id : Field n_debug_id := ltac:(derive_field).
#[export] Instance field_n_proc : Field n_proc := ltac:(derive_field).
#[export] Instance field_n_refs : Field n_refs := ltac:(derive_field).
#[export] Instance field_n_internal_strong_refs : Field n_internal_strong_refs := ltac:(derive_field).
#[export] Instance field_n_local_weak_refs : Field n_local_weak_refs := ltac:(derive_field).
#[export] Instance field_n_local_strong_refs : Field n_local_strong_refs := ltac:(derive_field).
#[export] Instance field_n_ptr : Field n_ptr := ltac:(derive_field).
#[export] Instance field_n_cookie : Field n_cookie := ltac:(derive_field).
#[export] Instance field_n_has_strong_ref : Field n_has_strong_ref := ltac:(derive_field).
#[export] Instance field_n_pending_strong_ref : Field n_pending_strong_ref := ltac:(derive_field).
#[export] Instance field_n_has_weak_ref : Field n_has_weak_ref := ltac:(derive_field).
#[export] Instance field_n_pending_weak_ref : Field n_pending_weak_ref := ltac:(derive_field).
#[export] Instance field_n_has_async_transaction : Field n_has_async_transaction := ltac:(derive_field).
#[export] Instance field_n_accept_fds : Field n_accept_fds := ltac:(derive_field).
#[export] Instance field_n_min_priority : Field n_min_priority := ltac:(derive_field).

Record binder_ref_death : Type := mk_death { d_type : death_type; d_cookie : Z }.
#[export] Instance eta_death : Eta binder_ref_death := λ r, mk_death (d_type r) (d_cookie r).
#[export] Instance field_d_type : Field d_type := ltac:(derive_field).
#[export] Instance field_d_cookie : Field d_cookie := ltac:(derive_field).

Record binder_ref : Type := mk_ref {
  r_debug_id : Z;
  r_proc : Z;
  r_node : Z;
  r_desc : Z;
  r_strong : Z;
  r_weak : Z;
  r_death : Z
}.
#[export] Instance eta_ref : Eta binder_ref :=
  λ r, mk_ref (r_debug_id r) (r_proc r) (r_node r) (r_desc r) (r_strong r) (r_weak r) (r_death r).
#[export] Instance field_r_debug_id : Field r_debug_id := ltac:(derive_field).
#[export] Instance field_r_proc : Field r_proc := ltac:(derive_field).
#[export] Instance field_r_node : Field r_node := ltac:(derive_field).
#[export] Instance field_r_desc : Field r_desc := ltac:(derive_field).
#[export] Instance field_r_strong : Field r_strong := ltac:(derive_field).
#[export] Instance field_r_weak : Field r_weak := ltac:(derive_field).
#[export] Instance field_r_death : Field r_death := ltac:(derive_field).

Record binder_proc : Type := mk_proc {
  p_threads : tree Z;
  p_nodes : tree Z;
  p_refs_by_desc : tree Z;
  p_refs_by_node : tree Z;
  p_pid : Z;
  p_tsk : Z;
  p_deferred_work : Z;
  p_alloc : alloc;
  p_stats : stats;
  p_max_threads : Z;
  p_requested_threads : Z;
  p_requested_threads_started : Z;
  p_ready_threads : Z;
  p_default_priority : Z
}.
#[export] Instance eta_proc : Eta binder_proc :=
  λ r, mk_proc (p_threads r) (p_nodes r) (p_refs_by_desc r) (p_refs_by_node r) (p_pid r) (p_tsk r)
    (p_deferred_work r) (p_alloc r) (p_stats r) (p_max_threads r) (p_requested_threads r)
    (p_requested_threads_started r) (p_ready_threads r) (p_default_priority r).
#[export] Instance field_p_threads : Field p_threads := ltac:(derive_field).
#[export] Instance field_p_nodes : Field p_nodes := ltac:(derive_field).
#[export] Instance field_p_refs_by_desc : Field p_refs_by_desc := ltac:(derive_field).
#[export] Instance field_p_refs_by_node : Field p_refs_by_node := ltac:(derive_field).
#[export] Instance field_p_pid : Field p_pid := ltac:(derive_field).
#[export] Instance field_p_tsk : Field p_tsk := ltac:(derive_field).
#[export] Instance field_p_deferred_work : Field p_deferred_work := ltac:(derive_field).
#[export] Instance field_p_alloc : Field p_alloc := ltac:(derive_field).
#[export] Instance field_p_stats : Field p_stats := ltac:(derive_field).
#[export] Instance field_p_max_threads : Field p_max_threads := ltac:(derive_field).
#[export] Instance field_p_requested_threads : Field p_requested_threads := ltac:(derive_field).
#[export] Instance field_p_requested_threads_started : Field p_requested_threads_started := ltac:(derive_field).
#[export] Instance field_p_ready_threads : Field p_ready_threads := ltac:(derive_field).
#[export] Instance field_p_default_priority : Field p_default_priority := ltac:(derive_field).

Record binder_thread : Type := mk_thread {
  t_proc : Z;
  t_pid : Z;
  t_looper : Z;
  t_transaction_stack : Z;
  t_return_error : Z;
  t_return_error2 : Z;
  t_stats : stats
}.
#[export] Instance eta_thread : Eta binder_thread :=
  λ r, mk_thread (t_proc r) (t_pid r) (t_looper r) (t_transaction_stack r) (t_return_error r)
    (t_return_error2 r) (t_stats r).
#[export] Instance field_t_proc : Field t_proc := ltac:(derive_field).
#[export] Instance field_t_pid : Field t_pid := ltac:(derive_field).
#[export] Instance field_t_looper : Field t_looper := ltac:(derive_field).
#[export] Instance field_t_transaction_stack : Field t_transaction_stack := ltac:(derive_field).
#[export] Instance field_t_return_error : Field t_return_error := ltac:(derive_field).
#[export] Instance field_t_return_error2 : Field t_return_error2 := ltac:(derive_field).
#[export] Instance field_t_stats : Field t_stats := ltac:(derive_field).

Record binder_transaction_t : Type := mk_transaction {
  x_debug_id : Z;
  x_from : Z;
  x_from_parent : Z;
  x_to_proc : Z;
  x_to_thread : Z;
  x_to_parent : Z;
  x_need_reply : bool;
  x_buffer : Z;
  x_code : Z;
  x_flags : Z;
  x_priority : Z;
  x_saved_priority : Z;
  x_sender_euid : Z
}.
#[export] Instance eta_transaction : Eta binder_transaction_t :=
  λ r, mk_transaction (x_debug_id r) (x_from r) (x_from_parent r) (x_to_proc r) (x_to_thread r)
    (x_to_parent r) (x_need_reply r) (x_buffer r) (x_code r) (x_flags r) (x_priority r)
    (x_saved_priority r) (x_sender_euid r).
#[export] Instance field_x_debug_id : Field x_debug_id := ltac:(derive_field).
#[export] Instance field_x_from : Field x_from := ltac:(derive_field).
#[export] Instance field_x_from_parent : Field x_from_parent := ltac:(derive_field).
#[export] Instance field_x_to_proc : Field x_to_proc := ltac:(derive_field).
#[export] Instance field_x_to_thread : Field x_to_thread := ltac:(derive_field).
#[export] Instance field_x_to_parent : Field x_to_parent := ltac:(derive_field).
#[export] Instance field_x_need_reply : Field x_need_reply := ltac:(derive_field).
#[export] Instance field_x_buffer : Field x_buffer := ltac:(derive_field).
#[export] Instance field_x_code : Field x_code := ltac:(derive_field).
#[export] Instance field_x_flags : Field x_flags := ltac:(derive_field).
#[export] Instance field_x_priority : Field x_priority := ltac:(derive_field).
#[export] Instance field_x_saved_priority : Field x_saved_priority := ltac:(derive_field).
#[export] Instance field_x_sender_euid : Field x_sender_euid := ltac:(derive_field).

(** What the driver reads of a [task_struct]. *)
Record task : Type := mk_task {
  tk_pid : Z;
  tk_tgid : Z;
  tk_euid : Z;
  tk_nice : Z;
  tk_mm : option Z;
  tk_files : Z
}.
#[export] Instance eta_task : Eta task :=
  λ r, mk_task (tk_pid r) (tk_tgid r) (tk_euid r) (tk_nice r) (tk_mm r) (tk_files r).
#[export] Instance field_tk_pid : Field tk_pid := ltac:(derive_field).
#[export] Instance field_tk_tgid : Field tk_tgid := ltac:(derive_field).
#[export] Instance field_tk_euid : Field tk_euid := ltac:(derive_field).
#[export] Instance field_tk_nice : Field tk_nice := ltac:(derive_field).
#[export] Instance field_tk_mm : Field tk_mm := ltac:(derive_field).
#[export] Instance field_tk_files : Field tk_files := ltac:(derive_field).

(** ** The whole state *)

Record kernel : Type := mk_kernel {
  k_procs : gmap Z binder_proc;
  k_threads : gmap Z binder_thread;
  k_nodes : gmap Z binder_node;
  k_refs : gmap Z binder_ref;
  k_deaths : gmap Z binder_ref_death;
  k_transactions : gmap Z binder_transaction_t;
  k_completes : gset Z;
  k_lists : gmap lhead (list work);
  k_binder_procs : list Z;
  k_dead_nodes : list Z;
  k_deferred_list : list Z;
  k_deferred_queued : bool;
  k_context_mgr_node : Z;
  k_context_mgr_uid : option Z;
  k_last_id : Z;
  k_stop_on_user_error : Z;
  k_stats : stats;
  k_log : transaction_log;
  k_log_failed : transaction_log;
  (* the rest of the kernel *)
  k_fresh : list Z;                 (* what [kzalloc] returns, in order *)
  k_user : gmap Z Z;                (* user memory of the calling task *)
  k_tasks : gmap Z task;
  k_current : Z;
  k_fdtables : gmap Z (gmap Z Z);   (* files of each [files_struct]; 0 is reserved *)
  k_woken : list wait_queue         (* wake ups, the latest first *)
}.
#[export] Instance eta_kernel : Eta kernel :=
  λ r, mk_kernel (k_procs r) (k_threads r) (k_nodes r) (k_refs r) (k_deaths r) (k_transactions r)
    (k_completes r) (k_lists r) (k_binder_procs r) (k_dead_nodes r) (k_deferred_list r) (k_deferred_queued r)
    (k_context_mgr_node r) (k_context_mgr_uid r) (k_last_id r) (k_stop_on_user_error r) (k_stats r) (k_log r)
    (k_log_failed r) (k_fresh r) (k_user r) (k_tasks r) (k_current r) (k_fdtables r) (k_woken r).
#[export] Instance field_k_procs : Field k_procs := ltac:(derive_field).
#[export] Instance field_k_threads : Field k_threads := ltac:(derive_field).
#[export] Instance field_k_nodes : Field k_nodes := ltac:(derive_field).
#[export] Instance field_k_refs : Field k_refs := ltac:(derive_field).
#[export] Instance field_k_deaths : Field k_deaths := ltac:(derive_field).
#[export] Instance field_k_transactions : Field k_transactions := ltac:(derive_field).
#[export] Instance field_k_completes : Field k_completes := ltac:(derive_field).
#[export] Instance field_k_lists : Field k_lists := ltac:(derive_field).
#[export] Instance field_k_binder_procs : Field k_binder_procs := ltac:(derive_field).
#[export] Instance field_k_dead_nodes : Field k_dead_nodes := ltac:(derive_field).
#[export] Instance field_k_deferred_list : Field k_deferred_list := ltac:(derive_field).
#[export] Instance field_k_deferred_queued : Field k_deferred_queued := ltac:(derive_field).
#[export] Instance field_k_context_mgr_node : Field k_context_mgr_node := ltac:(derive_field).
#[export] Instance field_k_context_mgr_uid : Field k_context_mgr_uid := ltac:(derive_field).
#[export] Instance field_k_last_id : Field k_last_id := ltac:(derive_field).
#[export] Instance field_k_stop_on_user_error : Field k_stop_on_user_error := ltac:(derive_field).
#[export] Instance field_k_stats : Field k_stats := ltac:(derive_field).
#[export] Instance field_k_log : Field k_log := ltac:(derive_field).
#[export] Instance field_k_log_failed : Field k_log_failed := ltac:(derive_field).
#[export] Instance field_k_fresh : Field k_fresh := ltac:(derive_field).
#[export] Instance field_k_user : Field k_user := ltac:(derive_field).
#[export] Instance field_k_tasks : Field k_tasks := ltac:(derive_field).
#[export] Instance field_k_current : Field k_current := ltac:(derive_field).
#[export] Instance field_k_fdtables : Field k_fdtables := ltac:(derive_field).
#[export] Instance field_k_woken : Field k_woken := ltac:(derive_field).

Definition zero_node : binder_node :=
  mk_node 0 0 [] 0 0 0 0 0 false false false false false false 0.
Definition zero_ref : binder_ref := mk_ref 0 0 0 0 0 0 0.
Definition zero_death : binder_ref_death := mk_death death_no_type 0.
Definition zero_proc : binder_proc :=
  mk_proc leaf leaf leaf leaf 0 0 0 zero_alloc zero_stats 0 0 0 0 0.
Definition zero_thread : binder_thread := mk_thread 0 0 0 0 0 0 zero_stats.
Definition zero_transaction : binder_transaction_t := mk_transaction 0 0 0 0 0 0 false 0 0 0 0 0 0.

Definition K (A : Type) : Type := ST kernel A.
