(* ===== verification/BinderKernel.v ===== *)
(** What the driver calls of the rest of the kernel, its access to objects,
    lists and user memory, and its own small helpers. *)
From S2P Require Import Prelude RBTree BinderAlloc BinderUapi BinderState.

(** The kernel outside the driver.  Tables of files: [__alloc_fd], [__fd_install],
    [__close_fd] and [fget] (0 for NULL); limits and priorities of tasks
    ([lock_task_sighand], [task_rlimit], [can_nice], [set_user_nice]); users and
    groups as the caller sees them ([from_kuid], [task_tgid_nr_ns]); pages; and
    waiting: [wait_event] runs the rest of the system until the caller is woken,
    and answers 0, or an error when a signal arrived.  [stack_garbage] is what an
    uninitialised local variable holds. *)
Definition fdtable : Type := gmap Z Z.

Class Kernel : Type := {
  alloc_fd : fdtable → Z → Z → Z * fdtable;
  fd_install : fdtable → Z → Z → fdtable;
  close_fd : fdtable → Z → Z * fdtable;
  fget : fdtable → Z → Z;
  task_sighand : Z → bool;
  rlimit_nofile : Z → Z;
  can_nice : task → Z → bool;
  set_user_nice : task → Z → task;
  rlimit_nice : task → Z;
  from_kuid : Z → Z;
  task_tgid_nr : task → Z;
  pages_env : page_env;
  stack_garbage : Z;
  wait_event : bool → wait_queue → K Z
}.

(** ** Objects *)

Section objects.
Context {T : Type}.

Definition obj (m : kernel → gmap Z T) (a : Z) : K T := gets (λ k, m k !! a) ≫= the Null_deref.

Definition set_obj (m : kernel → gmap Z T) `{!Field m} (a : Z) (f : T → T) : K unit :=
  x ← obj m a; modify (update m (<[a := f x]>)).

Definition put_obj (m : kernel → gmap Z T) `{!Field m} (a : Z) (x : T) : K unit :=
  modify (update m (<[a := x]>)).

(** [kfree]. *)
Definition free_obj (m : kernel → gmap Z T) `{!Field m} (a : Z) : K unit :=
  obj m a ;; modify (update m (delete a)).
End objects.

(** Whether an address is that of a live object. *)
Definition in_use (a : Z) (k : kernel) : bool :=
  bool_decide (is_Some (k_procs k !! a)) || bool_decide (is_Some (k_threads k !! a)) ||
  bool_decide (is_Some (k_nodes k !! a)) || bool_decide (is_Some (k_refs k !! a)) ||
  bool_decide (is_Some (k_deaths k !! a)) || bool_decide (is_Some (k_transactions k !! a)) ||
  bool_decide (a ∈ k_completes k).

(** [kzalloc]: an address that is not in use, or 0. *)
Definition kzalloc : K Z := λ k,
  match k_fresh k with
  | [] => Ok (0, k)
  | a :: l =>
      if a =? 0 then Ok (0, k <| k_fresh := l |>)
      else if in_use a k then Oops Bad_env
      else Ok (a, k <| k_fresh := l |>)
  end.

Definition free_complete (w : Z) : K unit :=
  k ← gets id; if bool_decide (w ∈ k_completes k) then modify (λ k, k <| k_completes %= (.∖ {[w]}) |>)
  else fail Null_deref.

(** Fresh numbers for debugging, [++binder_last_id]. *)
Definition next_id : K Z :=
  modify (λ k, k <| k_last_id %= Z.add 1 |>) ;; gets k_last_id.

(** ** Lists *)

Definition works (h : lhead) (k : kernel) : list work := default [] (k_lists k !! h).

(** Whether the entry of a work is on some list ([!list_empty(&w->entry)]). *)
Definition linked (w : work) (k : kernel) : bool :=
  existsb (λ hl : lhead * list work, bool_decide (w ∈ hl.2)) (map_to_list (k_lists k)).

Definition list_add_tail (w : work) (h : lhead) : K unit :=
  k ← gets id;
  if linked w k then fail Bad_list
  else modify (λ k, k <| k_lists %= <[h := works h k ++ [w]]> |>).

(** [list_del] and [list_del_init]. *)
Definition list_del_init (w : work) : K unit :=
  modify (λ k, k <| k_lists %= fmap (filter (λ v, v ≠ w)) |>).

Definition list_empty (h : lhead) (k : kernel) : bool := bool_decide (works h k = []).

Definition wake_up (q : wait_queue) : K unit := modify (λ k, k <| k_woken %= cons q |>).

(** ** Statistics and errors *)

Definition count (i : Z) (m : gmap Z Z) : gmap Z Z := <[i := default 0 (m !! i) + 1]> m.

Definition binder_stats_created (type : Z) : K unit :=
  modify (λ k, k <| k_stats %= λ s, s <| st_created %= count type |> |>).
Definition binder_stats_deleted (type : Z) : K unit :=
  modify (λ k, k <| k_stats %= λ s, s <| st_deleted %= count type |> |>).

Definition binder_user_error : K unit :=
  modify (λ k, if k_stop_on_user_error k =? 0 then k else k <| k_stop_on_user_error := 2 |>).

(** [binder_transaction_log_add]: clears the next entry, and returns its index. *)
Definition binder_transaction_log_add (f : kernel → transaction_log) `{!Field f} : K nat :=
  l ← gets f;
  let next := S (lg_next l) in
  modify (update f (λ l, l <| lg_entry %= <[lg_next l := zero_log_entry]> |>
    <| lg_next := if (next =? LOG_SIZE)%nat then 0%nat else next |>
    <| lg_full %= orb (next =? LOG_SIZE)%nat |>)) ;;
  mret (lg_next l).

Definition log_entry_set (f : kernel → transaction_log) `{!Field f} (e : nat) (g : log_entry → log_entry) : K unit :=
  modify (update f (λ l, l <| lg_entry %= alter g e |>)).

(** ** User memory of the calling task *)

Section user.
Context {AR : Arch}.

(** Pointer arithmetic wraps around. *)
Definition uadd (p n : Z) : Z := usz (p + n).

Fixpoint read_user (m : gmap Z Z) (addr : Z) (n : nat) : option (list Z) :=
  match n with
  | O => Some []
  | S n' => b ← m !! addr; bs ← read_user m (uadd addr 1) n'; mret (b :: bs)
  end.

(** [copy_from_user]: the bytes, or [None] when some are not mapped. *)
Definition copy_from_user (addr n : Z) : K (option (list Z)) :=
  gets (λ k, read_user (k_user k) addr (Z.to_nat n)).

(** [get_user] of a 32 bit word. *)
Definition get_user (addr : Z) : K (option Z) :=
  gets (λ k, le_value <$> read_user (k_user k) addr 4).

(** [copy_to_user]: writes up to the first byte that is not mapped; whether all
    were written. *)
Fixpoint write_user (m : gmap Z Z) (addr : Z) (bs : list Z) : gmap Z Z * bool :=
  match bs with
  | [] => (m, true)
  | b :: bs' =>
      if bool_decide (is_Some (m !! addr)) then write_user (<[addr := b]> m) (uadd addr 1) bs'
      else (m, false)
  end.

Definition copy_to_user (addr : Z) (bs : list Z) : K bool := λ k,
  let '(m, ok) := write_user (k_user k) addr bs in Ok (ok, k <| k_user := m |>).

(** [put_user] of a 32 bit word: all or nothing. *)
Definition put_user (x addr : Z) : K bool := λ k,
  let '(m, ok) := write_user (k_user k) addr (le_bytes 4 x) in
  if ok : bool then Ok (true, k <| k_user := m |>) else Ok (false, k).
End user.

(** ** Buffers *)

(** Running an operation of the allocator on the area of process [p]. *)
Definition on_alloc {A} (p : Z) (m : ST alloc A) : K A :=
  pr ← obj k_procs p;
  k ← gets id;
  match m (set_stop (k_stop_on_user_error k) (p_alloc pr)) with
  | Ok (a, al) =>
      modify (λ k, k <| k_stop_on_user_error := a_stop_on_user_error al |>
        <| k_procs %= <[p := pr <| p_alloc := al |>]> |>) ;;
      mret a
  | Oops o => fail o
  end.

(** The process whose area holds the buffer at [b]. *)
Definition buffer_owner (b : Z) (k : kernel) : option Z :=
  fst <$> head (filter (λ pp, is_Some (a_heap (p_alloc pp.2) !! b)) (map_to_list (k_procs k))).

Definition get_buffer (b : Z) : K binder_buffer :=
  p ← gets (buffer_owner b) ≫= the Null_deref; on_alloc p (buf b).
Definition set_buffer (b : Z) (f : binder_buffer → binder_buffer) : K unit :=
  p ← gets (buffer_owner b) ≫= the Null_deref; on_alloc p (upd_buf b f).

#[export] Instance eta_buffer : Eta binder_buffer :=
  λ r, mk_buffer (b_free r) (b_allow_user_free r) (b_async_transaction r) (b_debug_id r) (b_transaction r)
    (b_target_node r) (b_data_size r) (b_offsets_size r) (b_data r).
#[export] Instance field_b_free : Field b_free := ltac:(derive_field).
#[export] Instance field_b_allow_user_free : Field b_allow_user_free := ltac:(derive_field).
#[export] Instance field_b_async_transaction : Field b_async_transaction := ltac:(derive_field).
#[export] Instance field_b_debug_id : Field b_debug_id := ltac:(derive_field).
#[export] Instance field_b_transaction : Field b_transaction := ltac:(derive_field).
#[export] Instance field_b_target_node : Field b_target_node := ltac:(derive_field).
#[export] Instance field_b_data_size : Field b_data_size := ltac:(derive_field).
#[export] Instance field_b_offsets_size : Field b_offsets_size := ltac:(derive_field).
#[export] Instance field_b_data : Field b_data := ltac:(derive_field).
#[export] Instance eta_alloc : Eta alloc :=
  λ p, mk_alloc (a_vma p) (a_vma_vm_mm p) (a_files p) (a_buffer p) (a_user_buffer_offset p) (a_buffers p)
    (a_heap p) (a_free_buffers p) (a_allocated_buffers p) (a_free_async_space p) (a_pages p)
    (a_buffer_size p) (a_stop_on_user_error p).
#[export] Instance field_a_vma : Field a_vma := ltac:(derive_field).
#[export] Instance field_a_vma_vm_mm : Field a_vma_vm_mm := ltac:(derive_field).
#[export] Instance field_a_files : Field a_files := ltac:(derive_field).
#[export] Instance field_a_buffer : Field a_buffer := ltac:(derive_field).
#[export] Instance field_a_user_buffer_offset : Field a_user_buffer_offset := ltac:(derive_field).
#[export] Instance field_a_buffers : Field a_buffers := ltac:(derive_field).
#[export] Instance field_a_heap : Field a_heap := ltac:(derive_field).
#[export] Instance field_a_free_buffers : Field a_free_buffers := ltac:(derive_field).
#[export] Instance field_a_allocated_buffers : Field a_allocated_buffers := ltac:(derive_field).
#[export] Instance field_a_free_async_space : Field a_free_async_space := ltac:(derive_field).
#[export] Instance field_a_pages : Field a_pages := ltac:(derive_field).
#[export] Instance field_a_buffer_size : Field a_buffer_size := ltac:(derive_field).
#[export] Instance field_a_stop_on_user_error : Field a_stop_on_user_error := ltac:(derive_field).

(** ** Searching the trees of the driver *)

(** The nodes a loop visits must be live objects. *)
Definition touch {T} (m : kernel → gmap Z T) (a : Z) : K unit := obj m a ;; mret tt.

Definition key_of {T} (m : gmap Z T) (key : T → Z) (a : Z) : Z := default 0 (key <$> m !! a).

Section keyed.
Context {T : Type} (m : kernel → gmap Z T) (key : T → Z).

Definition tree_find (x : Z) (t : tree Z) : K (option Z) :=
  k ← gets id;
  let cmp := by_key (key_of (m k) key) x in
  for_each (touch m) (rb_path cmp t) ;;
  mret (rb_find cmp t).

(** The loop before [rb_link_node]; [None] when an equal key is found. *)
Definition tree_link (x new : Z) (t : tree Z) : K (option (tree Z)) :=
  k ← gets id;
  let cmp := by_key (key_of (m k) key) x in
  for_each (touch m) (rb_path cmp t) ;;
  mret (rb_link cmp new t).
End keyed.

(** ** Files and priorities of tasks *)

Section tasks.
Context {KR : Kernel}.

Definition O_CLOEXEC : Z := 524288.
Definition ERESTARTNOINTR : Z := 513.
Definition ERESTARTNOHAND : Z := 514.
Definition ERESTART_RESTARTBLOCK : Z := 516.

(** [binder_proc::files]. *)
Definition proc_files (p : Z) : K (option Z) :=
  pr ← obj k_procs p; mret (a_files (p_alloc pr)).

Definition get_fdtable (files : Z) (k : kernel) : fdtable := default ∅ (k_fdtables k !! files).
Definition set_fdtable (files : Z) (t : fdtable) : K unit :=
  modify (λ k, k <| k_fdtables %= <[files := t]> |>).

Definition task_get_unused_fd_flags (p flags : Z) : K Z :=
  files ← proc_files p;
  match files with
  | None => mret (- ESRCH)
  | Some files =>
      pr ← obj k_procs p;
      if negb (task_sighand (p_tsk pr)) then mret (- EMFILE)
      else
        t ← gets (get_fdtable files);
        let '(fd, t) := alloc_fd t (rlimit_nofile (p_tsk pr)) flags in
        set_fdtable files t ;; mret fd
  end.

Definition task_fd_install (p fd file : Z) : K unit :=
  files ← proc_files p;
  match files with
  | None => mret tt
  | Some files => t ← gets (get_fdtable files); set_fdtable files (fd_install t fd file)
  end.

Definition task_close_fd (p fd : Z) : K Z :=
  files ← proc_files p;
  match files with
  | None => mret (- ESRCH)
  | Some files =>
      t ← gets (get_fdtable files);
      let '(retval, t) := close_fd t fd in
      set_fdtable files t ;;
      mret (if (retval =? - ERESTARTSYS) || (retval =? - ERESTARTNOINTR) || (retval =? - ERESTARTNOHAND) ||
               (retval =? - ERESTART_RESTARTBLOCK) then - EINTR else retval)
  end.

Definition current : K task := k ← gets id; obj k_tasks (k_current k).

(** [fget] in the calling task. *)
Definition fget_current (fd : Z) : K Z :=
  t ← current; tab ← gets (get_fdtable (tk_files t)); mret (fget tab fd).

Definition set_nice (nice : Z) : K unit :=
  k ← gets id; set_obj k_tasks (k_current k) (λ t, set_user_nice t nice).

Definition binder_set_nice (nice : Z) : K unit :=
  t ← current;
  if can_nice t nice then set_nice nice
  else
    let min_nice := 20 - rlimit_nice t in
    set_nice min_nice ;;
    if min_nice <? 20 then mret tt else binder_user_error.
End tasks.

(** ** Running single steps *)

Section steps.
Context {T : Type} (m : kernel → gmap Z T).
Implicit Types (k : kernel) (a : Z).

Lemma obj_ok k a x : m k !! a = Some x → obj m a k = Ok (x, k).
Proof. intros E. unfold obj, mbind, st_bind, gets. by rewrite E. Qed.

Lemma obj_inv k a x k' : obj m a k = Ok (x, k') → m k !! a = Some x ∧ k' = k.
Proof.
  unfold obj, mbind, st_bind, gets, the. destruct (m k !! a); [|done]. by intros [= -> ->].
Qed.

Lemma touch_ok k a : is_Some (m k !! a) → touch m a k = Ok (tt, k).
Proof. intros [x Hx]. unfold touch. by rewrite (st_bind_eq _ _ _ _ _ (obj_ok k a x Hx)). Qed.

Lemma for_each_touch_ok k l : (∀ a, a ∈ l → is_Some (m k !! a)) → for_each (touch m) l k = Ok (tt, k).
Proof.
  induction l as [|a l IH]; intros Hl; [done|]. simpl.
  rewrite (st_bind_eq _ _ _ _ _ (touch_ok k a (Hl a (list_elem_of_here _ _)))).
  apply IH. intros. apply Hl. by right.
Qed.

Context `{!Field m}.

Lemma set_obj_ok k a f x : m k !! a = Some x → set_obj m a f k = Ok (tt, update m (<[a := f x]>) k).
Proof. intros E. unfold set_obj. by rewrite (st_bind_eq _ _ _ _ _ (obj_ok k a x E)). Qed.

Lemma free_obj_ok k a x : m k !! a = Some x → free_obj m a k = Ok (tt, update m (delete a) k).
Proof. intros E. unfold free_obj. by rewrite (st_bind_eq _ _ _ _ _ (obj_ok k a x E)). Qed.
End steps.

Lemma alter_insert_lookup {T} (f : T → T) (mp : gmap Z T) a x : mp !! a = Some x → alter f a mp = <[a := f x]> mp.
Proof.
  intros E. apply map_eq. intros b. destruct (decide (a = b)) as [->|].
  - by rewrite lookup_alter_eq, lookup_insert_eq, E.
  - by rewrite lookup_alter_ne, lookup_insert_ne.
Qed.

(** ** Lists *)

Lemma linked_spec w k : linked w k = true ↔ ∃ h l, k_lists k !! h = Some l ∧ w ∈ l.
Proof.
  unfold linked. rewrite existsb_exists. split.
  - intros ([h l] & Hin & Hw). apply bool_decide_eq_true in Hw. exists h, l. split; [|done].
    by apply elem_of_map_to_list, list_elem_of_In.
  - intros (h & l & Hl & Hw). exists (h, l). split; [|by apply bool_decide_eq_true].
    by apply list_elem_of_In, elem_of_map_to_list.
Qed.

Lemma linked_false w k : linked w k = false ↔ ∀ h, w ∉ works h k.
Proof.
  rewrite <- not_true_iff_false, linked_spec. unfold works. split.
  - intros Hn h Hw. apply Hn. destruct (k_lists k !! h) as [l|] eqn:E; [by exists h, l|].
    by apply not_elem_of_nil in Hw.
  - intros Hn (h & l & Hl & Hw). apply (Hn h). by rewrite Hl.
Qed.

Lemma works_del w h k :
  works h (k <| k_lists %= fmap (filter (λ v, v ≠ w)) |>) = filter (λ v, v ≠ w) (works h k).
Proof. unfold works. simpl. rewrite lookup_fmap. by destruct (k_lists k !! h). Qed.

Lemma linked_del w k : linked w (k <| k_lists %= fmap (filter (λ v, v ≠ w)) |>) = false.
Proof. apply linked_false. intros h. rewrite works_del, list_elem_of_filter. naive_solver. Qed.

Lemma list_add_tail_ok w h k :
  linked w k = false → list_add_tail w h k = Ok (tt, k <| k_lists %= <[h := works h k ++ [w]]> |>).
Proof. intros E. unfold list_add_tail. rewrite (st_bind_eq _ _ k k k) by done. cbv beta. by rewrite E. Qed.

Lemma works_add w h h' k :
  works h' (k <| k_lists %= <[h := works h k ++ [w]]> |>) = if decide (h = h') then works h k ++ [w] else works h' k.
Proof.
  unfold works at 1. simpl. case_decide as E; [by rewrite <- E, lookup_insert_eq|by rewrite lookup_insert_ne].
Qed.

(** ** Trees *)

Section tree_ok.
Context {T : Type} (key : T → Z).
Implicit Types (m : gmap Z T) (t : tree Z).

(** A tree of live objects, sorted by a key of theirs. *)
Definition tree_ok m t : Prop :=
  sorted_by (key_of m key) (inorder t) ∧ ∀ a, a ∈ inorder t → is_Some (m !! a).

Lemma tree_ok_ext m m' t :
  tree_ok m t → (∀ a, a ∈ inorder t → key <$> m' !! a = key <$> m !! a) → tree_ok m' t.
Proof.
  intros [Hs Hl] Hk. split.
  - eapply StronglySorted_impl; [|exact Hs]. intros a b Ha Hb. unfold key_of. by rewrite !Hk.
  - intros a Ha. destruct (Hl a Ha) as [x Hx]. specialize (Hk a Ha). rewrite Hx in Hk.
    destruct (m' !! a); [eauto|done].
Qed.

Lemma tree_ok_erase {RB : RBOps} {RL : RBLaws} m t a :
  tree_ok m t → tree_ok m (rb_erase a t) ∧ inorder (rb_erase a t) = filter (λ b, b ≠ a) (inorder t).
Proof.
  intros [Hs Hl]. assert (E : inorder (rb_erase a t) = filter (λ b, b ≠ a) (inorder t)).
  { apply inorder_erase. by eapply sorted_by_NoDup. }
  split; [|done]. split; rewrite E; [by apply sorted_by_filter|].
  intros b [_ Hb]%list_elem_of_filter. auto.
Qed.
End tree_ok.

Section tree_steps.
Context {T : Type} (m : kernel → gmap Z T) (key : T → Z).
Implicit Types (k : kernel) (t : tree Z).

Lemma tree_find_ok k t x :
  tree_ok key (m k) t → ∃ r, tree_find m key x t k = Ok (r, k) ∧
    ∀ a, r = Some a ↔ a ∈ inorder t ∧ key <$> m k !! a = Some x.
Proof.
  intros [Hs Hl]. unfold tree_find. rewrite (st_bind_eq _ _ k k k) by done. cbv beta zeta.
  rewrite (st_bind_eq _ _ k tt k).
  2:{ apply for_each_touch_ok. intros a Ha%rb_path_inorder. auto. }
  eexists. split; [done|]. intros a. rewrite rb_find_key by done. unfold key_of.
  split; intros [Ha Hk]; (split; [done|]); destruct (Hl a Ha) as [y Hy]; rewrite Hy in *; simpl in *; congruence.
Qed.

Lemma tree_link_ok k t x new :
  tree_ok key (m k) t → (∀ a y, a ∈ inorder t → m k !! a = Some y → key y ≠ x) →
  ∃ t', tree_link m key x new t k = Ok (Some t', k) ∧
    inorder t' ≡ₚ new :: inorder t ∧
    ∀ m', (∀ a, a ∈ inorder t → m' !! a = m k !! a) → key <$> m' !! new = Some x → tree_ok key m' t'.
Proof.
  intros [Hs Hl] Hx. unfold tree_link. rewrite (st_bind_eq _ _ k k k) by done. cbv beta zeta.
  rewrite (st_bind_eq _ _ k tt k).
  2:{ apply for_each_touch_ok. intros a Ha%rb_path_inorder. auto. }
  destruct (rb_link (by_key (key_of (m k) key) x) new t) as [t'|] eqn:E.
  2:{ exfalso. apply rb_link_None in E as (a & Ha & Hk%by_key_eq). destruct (Hl a Ha) as [y Hy].
      unfold key_of in Hk. rewrite Hy in Hk. by apply (Hx a y). }
  exists t'. split; [done|]. apply rb_link_Some in E as (l1 & l2 & E & E' & Hm). rewrite E'.
  split; [by rewrite E, Permutation_middle|].
  intros m' Hk' Hnew. destruct (Hm (sorted_by_monotone _ _ _ Hs)) as [H1 H2].
  rewrite E in *. assert (Hkey : ∀ a, a ∈ l1 ++ l2 → key_of m' key a = key_of (m k) key a).
  { intros a Ha. unfold key_of. by rewrite Hk'. }
  assert (Hn : key_of m' key new = x) by (unfold key_of; by rewrite Hnew).
  apply StronglySorted_app in Hs as (Hs12 & Hs1 & Hs2). split.
  - rewrite E'. apply StronglySorted_app. split_and!.
    + intros a b Ha [->|Hb]%elem_of_cons.
      * rewrite Hn, Hkey by set_solver. by apply by_key_gt, H1.
      * rewrite !Hkey by set_solver. by apply Hs12.
    + eapply StronglySorted_impl; [|exact Hs1]. intros a b Ha Hb. by rewrite !Hkey by set_solver.
    + apply StronglySorted_cons. split.
      * apply Forall_forall. intros a Ha. rewrite Hn, Hkey by set_solver. by apply by_key_lt, H2.
      * eapply StronglySorted_impl; [|exact Hs2]. intros a b Ha Hb. by rewrite !Hkey by set_solver.
  - intros a. rewrite E', elem_of_app, elem_of_cons. intros [Ha|[->|Ha]].
    + rewrite Hk' by set_solver. apply Hl. set_solver.
    + destruct (m' !! new); [eauto|done].
    + rewrite Hk' by set_solver. apply Hl. set_solver.
Qed.

End tree_steps.

(** ** Addresses *)

Lemma kzalloc_fresh k a l :
  k_fresh k = a :: l → a ≠ 0 → in_use a k = false → kzalloc k = Ok (a, k <| k_fresh := l |>).
Proof. intros E Ha Hu. unfold kzalloc. rewrite E. destruct (Z.eqb_spec a 0); [done|]. by rewrite Hu. Qed.
