(* ===== verification/BinderObject.v ===== *)
(** Nodes and references of [driver/binder.c]: [binder_get_node] to
    [binder_dec_ref].  A function that returns a pointer returns an address, 0
    for NULL; one that returns an [int] returns that. *)
From S2P Require Import Prelude RBTree BinderAlloc BinderUapi BinderState BinderKernel.

Section objects.
Context {AR : Arch} {RB : RBOps}.

(** ** Nodes *)

Definition binder_get_node (p ptr : Z) : K Z :=
  pr ← obj k_procs p;
  n ← tree_find k_nodes n_ptr ptr (p_nodes pr);
  mret (default 0 n).

Definition binder_new_node (p ptr cookie : Z) : K Z :=
  pr ← obj k_procs p;
  found ← tree_find k_nodes n_ptr ptr (p_nodes pr);
  if bool_decide (is_Some found) then mret 0
  else
    n ← kzalloc;
    if n =? 0 then mret 0
    else
      binder_stats_created BINDER_STAT_NODE ;;
      t ← tree_link k_nodes n_ptr ptr n (p_nodes pr) ≫= the Bug;
      set_obj k_procs p (λ pr, pr <| p_nodes := rb_insert_color n t |>) ;;
      did ← next_id;
      put_obj k_nodes n (zero_node <| n_debug_id := did |> <| n_proc := p |> <| n_ptr := ptr |>
        <| n_cookie := cookie |>) ;;
      mret n.

(** [target_list] is [None] for NULL. *)
Definition binder_inc_node (n : Z) (strong internal : bool) (target_list : option lhead) : K Z :=
  x ← obj k_nodes n;
  k ← gets id;
  if strong then
    if internal && bool_decide (target_list = None) && (n_internal_strong_refs x =? 0) &&
       negb ((n =? k_context_mgr_node k) && n_has_strong_ref x)
    then mret (- EINVAL)
    else
      set_obj k_nodes n (λ x, if internal then x <| n_internal_strong_refs %= int_inc |>
                              else x <| n_local_strong_refs %= int_inc |>) ;;
      match target_list with
      | Some h => when (negb (n_has_strong_ref x)) (list_del_init (work_node n) ;; list_add_tail (work_node n) h)
      | None => mret tt
      end ;;
      mret 0
  else
    when (negb internal) (set_obj k_nodes n (λ x, x <| n_local_weak_refs %= int_inc |>)) ;;
    if negb (n_has_weak_ref x) && negb (linked (work_node n) k) then
      match target_list with
      | None => mret (- EINVAL)
      | Some h => list_add_tail (work_node n) h ;; mret 0
      end
    else mret 0.

(** What follows when no counter keeps the node: tell its process, or free it. *)
Definition binder_node_unreferenced (n : Z) : K unit :=
  x ← obj k_nodes n;
  k ← gets id;
  if negb (n_proc x =? 0) && (n_has_strong_ref x || n_has_weak_ref x) then
    when (negb (linked (work_node n) k))
      (list_add_tail (work_node n) (proc_todo (n_proc x)) ;; wake_up (proc_wait (n_proc x)))
  else
    when (bool_decide (n_refs x = []) && (n_local_strong_refs x =? 0) && (n_local_weak_refs x =? 0))
      (list_del_init (work_node n) ;;
       (if negb (n_proc x =? 0) then
          set_obj k_procs (n_proc x) (λ pr, pr <| p_nodes %= rb_erase n |>)
        else modify (λ k, k <| k_dead_nodes %= list_del n |>)) ;;
       free_obj k_nodes n ;;
       binder_stats_deleted BINDER_STAT_NODE).

Definition binder_dec_node (n : Z) (strong internal : bool) : K Z :=
  (if strong then
     set_obj k_nodes n (λ x, if internal then x <| n_internal_strong_refs %= int_dec |>
                             else x <| n_local_strong_refs %= int_dec |>)
   else when (negb internal) (set_obj k_nodes n (λ x, x <| n_local_weak_refs %= int_dec |>))) ;;
  x ← obj k_nodes n;
  let kept :=
    if strong then negb (n_local_strong_refs x =? 0) || negb (n_internal_strong_refs x =? 0)
    else negb (n_local_weak_refs x =? 0) || negb (bool_decide (n_refs x = [])) in
  if kept then mret 0 else binder_node_unreferenced n ;; mret 0.

(** ** References *)

Definition binder_get_ref (p desc : Z) : K Z :=
  pr ← obj k_procs p;
  r ← tree_find k_refs r_desc desc (p_refs_by_desc pr);
  mret (default 0 r).

(** The loop over [refs_by_desc] that picks a descriptor, from [d]. *)
Fixpoint free_desc (descs : list Z) (d : Z) : Z :=
  match descs with
  | [] => d
  | x :: descs' => if x >? d then d else free_desc descs' (u32 (x + 1))
  end.

Definition binder_get_ref_for_node (p n : Z) : K Z :=
  pr ← obj k_procs p;
  found ← tree_find k_refs r_node n (p_refs_by_node pr);
  match found with
  | Some r => mret r
  | None =>
      r ← kzalloc;
      if r =? 0 then mret 0
      else
        binder_stats_created BINDER_STAT_REF ;;
        did ← next_id;
        t ← tree_link k_refs r_node n r (p_refs_by_node pr) ≫= the Bug;
        set_obj k_procs p (λ pr, pr <| p_refs_by_node := rb_insert_color r t |>) ;;
        k ← gets id;
        for_each (touch k_refs) (inorder (p_refs_by_desc pr)) ;;
        let desc := free_desc (key_of (k_refs k) r_desc <$> inorder (p_refs_by_desc pr))
                      (if n =? k_context_mgr_node k then 0 else 1) in
        t ← tree_link k_refs r_desc desc r (p_refs_by_desc pr) ≫= the Bug;
        set_obj k_procs p (λ pr, pr <| p_refs_by_desc := rb_insert_color r t |>) ;;
        put_obj k_refs r (zero_ref <| r_debug_id := did |> <| r_proc := p |> <| r_node := n |> <| r_desc := desc |>) ;;
        when (negb (n =? 0)) (set_obj k_nodes n (λ x, x <| n_refs %= cons r |>)) ;;
        mret r
  end.

Definition binder_delete_ref (r : Z) : K unit :=
  x ← obj k_refs r;
  set_obj k_procs (r_proc x) (λ pr, pr <| p_refs_by_desc %= rb_erase r |>) ;;
  set_obj k_procs (r_proc x) (λ pr, pr <| p_refs_by_node %= rb_erase r |>) ;;
  when (negb (r_strong x =? 0)) (binder_dec_node (r_node x) true true ;; mret tt) ;;
  set_obj k_nodes (r_node x) (λ y, y <| n_refs %= list_del r |>) ;;
  binder_dec_node (r_node x) false true ;;
  when (negb (r_death x =? 0))
    (list_del_init (work_death (r_death x)) ;;
     free_obj k_deaths (r_death x) ;;
     binder_stats_deleted BINDER_STAT_DEATH) ;;
  free_obj k_refs r ;;
  binder_stats_deleted BINDER_STAT_REF.

Definition binder_inc_ref (r : Z) (strong : bool) (target_list : option lhead) : K Z :=
  x ← obj k_refs r;
  ret ← (if (if strong then r_strong x else r_weak x) =? 0 then binder_inc_node (r_node x) strong true target_list
         else mret 0);
  if negb (ret =? 0) then mret ret
  else
    set_obj k_refs r (λ x, if strong then x <| r_strong %= int_inc |> else x <| r_weak %= int_inc |>) ;;
    mret 0.

Definition binder_dec_ref (r : Z) (strong : bool) : K Z :=
  x ← obj k_refs r;
  if (if strong then r_strong x else r_weak x) =? 0 then binder_user_error ;; mret (- EINVAL)
  else
    set_obj k_refs r (λ x, if strong then x <| r_strong %= int_dec |> else x <| r_weak %= int_dec |>) ;;
    ret ← (if strong && (r_strong x =? 1) then binder_dec_node (r_node x) strong true else mret 0);
    if negb (ret =? 0) then mret ret
    else
      x ← obj k_refs r;
      when ((r_strong x =? 0) && (r_weak x =? 0)) (binder_delete_ref r) ;;
      mret 0.
End objects.
