(* ===== verification/BinderTransaction.v ===== *)
(** Transactions of [driver/binder.c]: [binder_pop_transaction] to
    [binder_transaction].  The error exits of [binder_transaction], labels of
    one function, are values here: [inl] or [Some] of what [return_error]
    holds. *)
From S2P Require Import Prelude RBTree BinderAlloc BinderUapi BinderState BinderKernel BinderObject.

Section transactions.
Context {AR : Arch} {RB : RBOps} {KR : Kernel}.

(** ** Ending a transaction *)

(** [target_thread] is 0 for NULL. *)
Definition binder_pop_transaction (target_thread t : Z) : K unit :=
  when (negb (target_thread =? 0))
    (th ← obj k_threads target_thread;
     bug_on (negb (t_transaction_stack th =? t)) ;;
     x ← obj k_transactions t;
     bug_on (negb (x_from x =? target_thread)) ;;
     set_obj k_threads target_thread (λ th, th <| t_transaction_stack := x_from_parent x |>) ;;
     set_obj k_transactions t (λ x, x <| x_from := 0 |>)) ;;
  set_obj k_transactions t (λ x, x <| x_need_reply := false |>) ;;
  x ← obj k_transactions t;
  when (negb (x_buffer x =? 0)) (set_buffer (x_buffer x) (λ b, b <| b_transaction := 0 |>)) ;;
  free_obj k_transactions t ;;
  binder_stats_deleted BINDER_STAT_TRANSACTION.

(** The loop of [binder_send_failed_reply]. *)
Fixpoint send_failed_reply_loop (fuel : nat) (t error_code : Z) : K unit :=
  match fuel with
  | O => fail Fuel
  | S fuel' =>
      x ← obj k_transactions t;
      if negb (x_from x =? 0) then
        let target_thread := x_from x in
        th ← obj k_threads target_thread;
        when (negb (t_return_error th =? BR_OK) && (t_return_error2 th =? BR_OK))
          (set_obj k_threads target_thread
             (λ th, th <| t_return_error2 := t_return_error th |> <| t_return_error := BR_OK |>)) ;;
        th ← obj k_threads target_thread;
        when (t_return_error th =? BR_OK)
          (binder_pop_transaction target_thread t ;;
           set_obj k_threads target_thread (λ th, th <| t_return_error := error_code |>) ;;
           wake_up (thread_wait target_thread))
      else
        let next := x_from_parent x in
        binder_pop_transaction 0 t ;;
        if next =? 0 then mret tt else send_failed_reply_loop fuel' next error_code
  end.

Definition binder_send_failed_reply (t error_code : Z) : K unit :=
  x ← obj k_transactions t;
  bug_on (has_flag (x_flags x) TF_ONE_WAY) ;;
  k ← gets id;
  send_failed_reply_loop (S (size (k_transactions k))) t error_code.

(** ** The objects in a buffer *)

(** [ *offp > data_size - sizeof( *fp) || data_size < sizeof( *fp) ||
    !IS_ALIGNED( *offp, sizeof(binder_size_t))], in [size_t]. *)
Definition bad_offset (data_size off : Z) : bool :=
  (off >? usz (data_size - sizeof_flat_object)) || (data_size <? sizeof_flat_object) ||
  negb (off `mod` 4 =? 0).

(** The [i]th offset, behind the aligned data. *)
Definition nth_offset (b : binder_buffer) (i : nat) : Z :=
  get32 (Z.to_nat (ALIGN (b_data_size b) 4) + 4 * i) (b_data b).

Definition flat_at (b : binder_buffer) (off : Z) : flat_binder_object :=
  decode_flat (slice (Z.to_nat off) 16 (b_data b)).

Definition set_flat (off : Z) (fp : flat_binder_object) (b : binder_buffer) : binder_buffer :=
  b <| b_data %= splice (Z.to_nat off) (encode_flat fp) |>.

Definition release_object (p : Z) (failed : bool) (fp : flat_binder_object) : K unit :=
  if (fp_type fp =? BINDER_TYPE_BINDER) || (fp_type fp =? BINDER_TYPE_WEAK_BINDER) then
    node ← binder_get_node p (fp_binder fp);
    when (negb (node =? 0)) (binder_dec_node node (fp_type fp =? BINDER_TYPE_BINDER) false ;; mret tt)
  else if (fp_type fp =? BINDER_TYPE_HANDLE) || (fp_type fp =? BINDER_TYPE_WEAK_HANDLE) then
    ref ← binder_get_ref p (fp_binder fp);
    when (negb (ref =? 0)) (binder_dec_ref ref (fp_type fp =? BINDER_TYPE_HANDLE) ;; mret tt)
  else if fp_type fp =? BINDER_TYPE_FD then
    when failed (task_close_fd p (fp_binder fp) ;; mret tt)
  else mret tt.

(** The offsets [i], ..., [i + n - 1]. *)
Fixpoint release_objects (p b : Z) (failed : bool) (i n : nat) : K unit :=
  match n with
  | O => mret tt
  | S n' =>
      buffer ← get_buffer b;
      let off := nth_offset buffer i in
      when (negb (bad_offset (b_data_size buffer) off)) (release_object p failed (flat_at buffer off)) ;;
      release_objects p b failed (S i) n'
  end.

(** [failed_at], as the number of offsets before it; [None] for NULL. *)
Definition binder_transaction_buffer_release (p b : Z) (failed_at : option nat) : K unit :=
  buffer ← get_buffer b;
  when (negb (b_target_node buffer =? 0)) (binder_dec_node (b_target_node buffer) true false ;; mret tt) ;;
  let n := match failed_at with Some i => i | None => Z.to_nat ((b_offsets_size buffer + 3) / 4) end in
  release_objects p b (bool_decide (is_Some failed_at)) 0 n.

(** ** Finding the target *)

Record txn_target : Type := mk_target {
  tg_proc : Z;
  tg_thread : Z;
  tg_node : Z;
  tg_in_reply_to : Z
}.

(** The branch of a reply; an error is [(return_error, in_reply_to)]. *)
Definition reply_target (thread : Z) : K ((Z * Z) + txn_target) :=
  th ← obj k_threads thread;
  let in_reply_to := t_transaction_stack th in
  if in_reply_to =? 0 then binder_user_error ;; mret (inl (BR_FAILED_REPLY, 0))
  else
    x ← obj k_transactions in_reply_to;
    binder_set_nice (x_saved_priority x) ;;
    if negb (x_to_thread x =? thread) then binder_user_error ;; mret (inl (BR_FAILED_REPLY, 0))
    else
      set_obj k_threads thread (λ th, th <| t_transaction_stack := x_to_parent x |>) ;;
      let target_thread := x_from x in
      if target_thread =? 0 then mret (inl (BR_DEAD_REPLY, in_reply_to))
      else
        tth ← obj k_threads target_thread;
        if negb (t_transaction_stack tth =? in_reply_to) then
          binder_user_error ;; mret (inl (BR_FAILED_REPLY, 0))
        else mret (inr (mk_target (t_proc tth) target_thread 0 in_reply_to)).

(** [while (tmp)]: the thread of the target process that waits, deepest in the
    stack, for this call. *)
Fixpoint find_waiting_thread (fuel : nat) (tmp target_proc target_thread : Z) : K Z :=
  if tmp =? 0 then mret target_thread
  else
    match fuel with
    | O => fail Fuel
    | S fuel' =>
        x ← obj k_transactions tmp;
        target_thread ←
          (if x_from x =? 0 then mret target_thread
           else
             th ← obj k_threads (x_from x);
             mret (if t_proc th =? target_proc then x_from x else target_thread));
        find_waiting_thread fuel' (x_from_parent x) target_proc target_thread
    end.

Definition call_target_node (p handle : Z) : K (Z + Z) :=
  if negb (handle =? 0) then
    ref ← binder_get_ref p handle;
    if ref =? 0 then binder_user_error ;; mret (inl BR_FAILED_REPLY)
    else r ← obj k_refs ref; mret (inr (r_node r))
  else
    k ← gets id;
    if k_context_mgr_node k =? 0 then mret (inl BR_DEAD_REPLY) else mret (inr (k_context_mgr_node k)).

(** The branch of a call; [e] is the log entry. *)
Definition call_target (p thread : Z) (tr : binder_transaction_data) (e : nat) : K ((Z * Z) + txn_target) :=
  r ← call_target_node p (tr_target tr);
  match r with
  | inl err => mret (inl (err, 0))
  | inr target_node =>
      n ← obj k_nodes target_node;
      log_entry_set k_log e (λ e, e <| le_to_node := n_debug_id n |>) ;;
      if n_proc n =? 0 then mret (inl (BR_DEAD_REPLY, 0))
      else
        th ← obj k_threads thread;
        if negb (has_flag (tr_flags tr) TF_ONE_WAY) && negb (t_transaction_stack th =? 0) then
          x ← obj k_transactions (t_transaction_stack th);
          if negb (x_to_thread x =? thread) then binder_user_error ;; mret (inl (BR_FAILED_REPLY, 0))
          else
            k ← gets id;
            target_thread ← find_waiting_thread (size (k_transactions k)) (t_transaction_stack th) (n_proc n) 0;
            mret (inr (mk_target (n_proc n) target_thread target_node 0))
        else mret (inr (mk_target (n_proc n) 0 target_node 0))
  end.

(** ** Translating the objects *)

(** [BINDER_TYPE_BINDER] and [BINDER_TYPE_WEAK_BINDER]: the node becomes a
    reference of the target. *)
Definition translate_binder (p thread target_proc b off : Z) (fp : flat_binder_object) : K (option Z) :=
  node ← binder_get_node p (fp_binder fp);
  node ←
    (if node =? 0 then
       node ← binder_new_node p (fp_binder fp) (fp_cookie fp);
       when (negb (node =? 0))
         (set_obj k_nodes node (λ n,
            n <| n_min_priority := Z.land (fp_flags fp) FLAT_BINDER_FLAG_PRIORITY_MASK |>
              <| n_accept_fds := has_flag (fp_flags fp) FLAT_BINDER_FLAG_ACCEPTS_FDS |>)) ;;
       mret node
     else mret node);
  if node =? 0 then mret (Some BR_FAILED_REPLY)
  else
    n ← obj k_nodes node;
    if negb (fp_cookie fp =? n_cookie n) then binder_user_error ;; mret (Some stack_garbage)
    else
      ref ← binder_get_ref_for_node target_proc node;
      if ref =? 0 then mret (Some BR_FAILED_REPLY)
      else
        r ← obj k_refs ref;
        let type := if fp_type fp =? BINDER_TYPE_BINDER then BINDER_TYPE_HANDLE else BINDER_TYPE_WEAK_HANDLE in
        set_buffer b (set_flat off (mk_flat type (fp_flags fp) (r_desc r) (fp_cookie fp))) ;;
        binder_inc_ref ref (type =? BINDER_TYPE_HANDLE) (Some (thread_todo thread)) ;;
        mret None.

(** [BINDER_TYPE_HANDLE] and [BINDER_TYPE_WEAK_HANDLE]. *)
Definition translate_handle (p target_proc b off : Z) (fp : flat_binder_object) : K (option Z) :=
  ref ← binder_get_ref p (fp_binder fp);
  if ref =? 0 then binder_user_error ;; mret (Some BR_FAILED_REPLY)
  else
    r ← obj k_refs ref;
    n ← obj k_nodes (r_node r);
    if n_proc n =? target_proc then
      let type := if fp_type fp =? BINDER_TYPE_HANDLE then BINDER_TYPE_BINDER else BINDER_TYPE_WEAK_BINDER in
      set_buffer b (set_flat off (mk_flat type (fp_flags fp) (n_ptr n) (n_cookie n))) ;;
      binder_inc_node (r_node r) (type =? BINDER_TYPE_BINDER) false None ;;
      mret None
    else
      new_ref ← binder_get_ref_for_node target_proc (r_node r);
      if new_ref =? 0 then mret (Some BR_FAILED_REPLY)
      else
        r' ← obj k_refs new_ref;
        set_buffer b (set_flat off (mk_flat (fp_type fp) (fp_flags fp) (r_desc r') (fp_cookie fp))) ;;
        binder_inc_ref new_ref (fp_type fp =? BINDER_TYPE_HANDLE) None ;;
        mret None.

(** [BINDER_TYPE_FD]. *)
Definition translate_fd (reply : bool) (tg : txn_target) (b off : Z) (fp : flat_binder_object) : K (option Z) :=
  allowed ←
    (if reply then x ← obj k_transactions (tg_in_reply_to tg); mret (has_flag (x_flags x) TF_ACCEPT_FDS)
     else n ← obj k_nodes (tg_node tg); mret (n_accept_fds n));
  if negb allowed then binder_user_error ;; mret (Some BR_FAILED_REPLY)
  else
    file ← fget_current (fp_binder fp);
    if file =? 0 then binder_user_error ;; mret (Some BR_FAILED_REPLY)
    else
      target_fd ← task_get_unused_fd_flags (tg_proc tg) O_CLOEXEC;
      if target_fd <? 0 then mret (Some BR_FAILED_REPLY)
      else
        task_fd_install (tg_proc tg) target_fd file ;;
        set_buffer b (set_flat off (mk_flat (fp_type fp) (fp_flags fp) (u32 target_fd) (fp_cookie fp))) ;;
        mret None.

Definition translate_object (p thread : Z) (reply : bool) (tg : txn_target) (b off : Z)
    (fp : flat_binder_object) : K (option Z) :=
  if (fp_type fp =? BINDER_TYPE_BINDER) || (fp_type fp =? BINDER_TYPE_WEAK_BINDER) then
    translate_binder p thread (tg_proc tg) b off fp
  else if (fp_type fp =? BINDER_TYPE_HANDLE) || (fp_type fp =? BINDER_TYPE_WEAK_HANDLE) then
    translate_handle p (tg_proc tg) b off fp
  else if fp_type fp =? BINDER_TYPE_FD then translate_fd reply tg b off fp
  else binder_user_error ;; mret (Some BR_FAILED_REPLY).

(** The loop over the offsets; an error is [return_error] with the number of
    objects before the offset it stopped at. *)
Fixpoint translate_objects (p thread : Z) (reply : bool) (tg : txn_target) (b : Z) (i n : nat) :
    K (option (Z * nat)) :=
  match n with
  | O => mret None
  | S n' =>
      buffer ← get_buffer b;
      let off := nth_offset buffer i in
      if bad_offset (b_data_size buffer) off then binder_user_error ;; mret (Some (BR_FAILED_REPLY, i))
      else
        err ← translate_object p thread reply tg b off (flat_at buffer off);
        match err with
        | Some e => mret (Some (e, i))
        | None => translate_objects p thread reply tg b (S i) n'
        end
  end.

(** ** The transaction *)

(** Copying the data and the offsets, then the objects. *)
Definition fill_buffer (p thread : Z) (tr : binder_transaction_data) (reply : bool) (tg : txn_target) (b : Z) :
    K (option (Z * nat)) :=
  data ← copy_from_user (tr_buffer tr) (tr_data_size tr);
  match data with
  | None => binder_user_error ;; mret (Some (BR_FAILED_REPLY, 0%nat))
  | Some data =>
      set_buffer b (λ x, x <| b_data %= splice 0 data |>) ;;
      offsets ← copy_from_user (tr_offsets tr) (tr_offsets_size tr);
      match offsets with
      | None => binder_user_error ;; mret (Some (BR_FAILED_REPLY, 0%nat))
      | Some offsets =>
          set_buffer b (λ x, x <| b_data %= splice (Z.to_nat (ALIGN (tr_data_size tr) 4)) offsets |>) ;;
          if negb (tr_offsets_size tr `mod` 4 =? 0) then
            binder_user_error ;; mret (Some (BR_FAILED_REPLY, 0%nat))
          else translate_objects p thread reply tg b 0 (Z.to_nat (tr_offsets_size tr / 4))
      end
  end.

(** Queueing [t] once its buffer is ready. *)
Definition finish_transaction (thread : Z) (reply : bool) (tg : txn_target) (t tcomplete b : Z) : K unit :=
  let target_list := if tg_thread tg =? 0 then proc_todo (tg_proc tg) else thread_todo (tg_thread tg) in
  let target_wait := if tg_thread tg =? 0 then proc_wait (tg_proc tg) else thread_wait (tg_thread tg) in
  x ← obj k_transactions t;
  buffer ← get_buffer b;
  target ←
    (if reply then
       bug_on (b_async_transaction buffer) ;;
       binder_pop_transaction (tg_thread tg) (tg_in_reply_to tg) ;;
       mret (target_list, Some target_wait)
     else if negb (has_flag (x_flags x) TF_ONE_WAY) then
       bug_on (b_async_transaction buffer) ;;
       th ← obj k_threads thread;
       set_obj k_transactions t (λ x, x <| x_need_reply := true |> <| x_from_parent := t_transaction_stack th |>) ;;
       set_obj k_threads thread (λ th, th <| t_transaction_stack := t |>) ;;
       mret (target_list, Some target_wait)
     else
       bug_on (tg_node tg =? 0) ;;
       bug_on (negb (b_async_transaction buffer)) ;;
       n ← obj k_nodes (tg_node tg);
       if n_has_async_transaction n then mret (node_async_todo (tg_node tg), None)
       else
         set_obj k_nodes (tg_node tg) (λ n, n <| n_has_async_transaction := true |>) ;;
         mret (target_list, Some target_wait));
  list_add_tail (work_transaction t) target.1 ;;
  list_add_tail (work_complete tcomplete) (thread_todo thread) ;;
  match target.2 with Some q => wake_up q | None => mret tt end.

(** What the labels from [err_dead_binder] on do. *)
Definition transaction_failed (thread : Z) (e : nat) (return_error in_reply_to : Z) : K unit :=
  fe ← binder_transaction_log_add k_log_failed;
  l ← gets k_log;
  log_entry_set k_log_failed fe (λ _, default zero_log_entry (lg_entry l !! e)) ;;
  th ← obj k_threads thread;
  bug_on (negb (t_return_error th =? BR_OK)) ;;
  if negb (in_reply_to =? 0) then
    set_obj k_threads thread (λ th, th <| t_return_error := BR_TRANSACTION_COMPLETE |>) ;;
    binder_send_failed_reply in_reply_to return_error
  else set_obj k_threads thread (λ th, th <| t_return_error := return_error |>).

(** The fields of the new transaction. *)
Definition init_transaction (p thread : Z) (tr : binder_transaction_data) (reply : bool) (tg : txn_target)
    (t did : Z) : K unit :=
  pr ← obj k_procs p;
  tsk ← obj k_tasks (p_tsk pr);
  cur ← current;
  set_obj k_transactions t (λ x, x <| x_debug_id := did |>
    <| x_from := if negb reply && negb (has_flag (tr_flags tr) TF_ONE_WAY) then thread else 0 |>
    <| x_sender_euid := tk_euid tsk |>
    <| x_to_proc := tg_proc tg |>
    <| x_to_thread := tg_thread tg |>
    <| x_code := tr_code tr |>
    <| x_flags := tr_flags tr |>
    <| x_priority := tk_nice cur |>).

(** From the buffer to the queue; an error is what [return_error] holds, the
    buffer having been released. *)
Definition send_transaction (p thread : Z) (tr : binder_transaction_data) (reply : bool) (tg : txn_target)
    (t tcomplete did : Z) : K (option Z) :=
  b ← on_alloc (tg_proc tg) (binder_alloc_buf pages_env (tr_data_size tr) (tr_offsets_size tr)
        (negb reply && has_flag (tr_flags tr) TF_ONE_WAY));
  set_obj k_transactions t (λ x, x <| x_buffer := b |>) ;;
  if b =? 0 then mret (Some BR_FAILED_REPLY)
  else
    set_buffer b (λ x, x <| b_allow_user_free := false |> <| b_debug_id := did `mod` 2 ^ 29 |>
      <| b_transaction := t |> <| b_target_node := tg_node tg |>
      <| b_data := replicate (Z.to_nat (ALIGN (tr_data_size tr) 4 + tr_offsets_size tr)) 0 |>) ;;
    when (negb (tg_node tg =? 0)) (binder_inc_node (tg_node tg) true false None ;; mret tt) ;;
    err ← fill_buffer p thread tr reply tg b;
    match err with
    | None => finish_transaction thread reply tg t tcomplete b ;; mret None
    | Some (return_error, failed_at) =>
        binder_transaction_buffer_release (tg_proc tg) b (Some failed_at) ;;
        set_buffer b (λ x, x <| b_transaction := 0 |>) ;;
        on_alloc (tg_proc tg) (binder_free_buf pages_env b) ;;
        mret (Some return_error)
    end.

Definition log_transaction (p thread : Z) (tr : binder_transaction_data) (reply : bool) : K nat :=
  e ← binder_transaction_log_add k_log;
  pr ← obj k_procs p;
  th ← obj k_threads thread;
  log_entry_set k_log e (λ e, e
    <| le_call_type := if reply then 2 else b2z (has_flag (tr_flags tr) TF_ONE_WAY) |>
    <| le_from_proc := p_pid pr |> <| le_from_thread := t_pid th |>
    <| le_target_handle := tr_target tr |>
    <| le_data_size := tr_data_size tr |> <| le_offsets_size := tr_offsets_size tr |>) ;;
  mret e.

Definition log_target (e : nat) (tg : txn_target) : K unit :=
  when (negb (tg_thread tg =? 0))
    (th ← obj k_threads (tg_thread tg); log_entry_set k_log e (λ e, e <| le_to_thread := t_pid th |>)) ;;
  tpr ← obj k_procs (tg_proc tg);
  log_entry_set k_log e (λ e, e <| le_to_proc := p_pid tpr |>).

Definition binder_transaction (p thread : Z) (tr : binder_transaction_data) (reply : bool) : K unit :=
  e ← log_transaction p thread tr reply;
  r ← (if reply then reply_target thread else call_target p thread tr e);
  match r with
  | inl (return_error, in_reply_to) => transaction_failed thread e return_error in_reply_to
  | inr tg =>
      log_target e tg ;;
      t ← kzalloc;
      if t =? 0 then transaction_failed thread e BR_FAILED_REPLY (tg_in_reply_to tg)
      else
        put_obj k_transactions t zero_transaction ;;
        binder_stats_created BINDER_STAT_TRANSACTION ;;
        tcomplete ← kzalloc;
        err ←
          (if tcomplete =? 0 then mret (Some BR_FAILED_REPLY)
           else
             modify (λ k, k <| k_completes %= ({[tcomplete]} ∪.) |>) ;;
             binder_stats_created BINDER_STAT_TRANSACTION_COMPLETE ;;
             did ← next_id;
             log_entry_set k_log e (λ e, e <| le_debug_id := did |>) ;;
             init_transaction p thread tr reply tg t did ;;
             err ← send_transaction p thread tr reply tg t tcomplete did;
             match err with
             | None => mret None
             | Some return_error =>
                 free_complete tcomplete ;;
                 binder_stats_deleted BINDER_STAT_TRANSACTION_COMPLETE ;;
                 mret (Some return_error)
             end);
        match err with
        | None => mret tt
        | Some return_error =>
            free_obj k_transactions t ;;
            binder_stats_deleted BINDER_STAT_TRANSACTION ;;
            transaction_failed thread e return_error (tg_in_reply_to tg)
        end
  end.
End transactions.
