(* ===== verification/BinderWrite.v ===== *)
(** [binder_thread_write]: one definition per group of commands, the command
    loop, and its looper and death notification bookkeeping. *)
From S2P Require Import Prelude RBTree BinderAlloc BinderUapi BinderState BinderKernel BinderObject BinderTransaction.

Definition BINDER_LOOPER_STATE_REGISTERED : Z := 1.
Definition BINDER_LOOPER_STATE_ENTERED : Z := 2.
Definition BINDER_LOOPER_STATE_EXITED : Z := 4.
Definition BINDER_LOOPER_STATE_INVALID : Z := 8.
Definition BINDER_LOOPER_STATE_WAITING : Z := 16.
Definition BINDER_LOOPER_STATE_NEED_RETURN : Z := 32.

Definition set_looper (th : Z) (f : Z → Z) : K unit := set_obj k_threads th (λ t, t <| t_looper %= f |>).

Section write.
Context {AR : Arch} {RB : RBOps} {KR : Kernel}.

(** A word read at [ptr], or the answer [-EFAULT] of the whole call. *)
Definition with_user (ptr : Z) (f : Z → K (Z + unit)) : K (Z + unit) :=
  w ← get_user ptr;
  match w with Some w => f w | None => mret (inl (- EFAULT)) end.

(** [break]: on to the next command. *)
Definition next_command : K (Z + unit) := mret (inr tt).

(** [BC_INCREFS], [BC_ACQUIRE], [BC_RELEASE], [BC_DECREFS]. *)
Definition write_refs (p cmd ptr : Z) : K (Z + unit) :=
  with_user ptr (λ target,
    k ← gets id;
    ref ←
      (if (target =? 0) && negb (k_context_mgr_node k =? 0) && ((cmd =? BC_INCREFS) || (cmd =? BC_ACQUIRE)) then
         ref ← binder_get_ref_for_node p (k_context_mgr_node k);
         r ← obj k_refs ref;
         when (negb (r_desc r =? target)) binder_user_error ;;
         mret ref
       else binder_get_ref p target);
    if ref =? 0 then binder_user_error ;; next_command
    else
      (if cmd =? BC_INCREFS then binder_inc_ref ref false None
       else if cmd =? BC_ACQUIRE then binder_inc_ref ref true None
       else if cmd =? BC_RELEASE then binder_dec_ref ref true
       else binder_dec_ref ref false) ;;
      next_command).

(** [BC_INCREFS_DONE], [BC_ACQUIRE_DONE]. *)
Definition write_refs_done (p cmd ptr : Z) : K (Z + unit) :=
  with_user ptr (λ node_ptr,
  with_user (uadd ptr 4) (λ cookie,
    node ← binder_get_node p node_ptr;
    if node =? 0 then binder_user_error ;; next_command
    else
      n ← obj k_nodes node;
      if negb (cookie =? n_cookie n) then binder_user_error ;; next_command
      else
        let acquire := cmd =? BC_ACQUIRE_DONE in
        if negb (if acquire then n_pending_strong_ref n else n_pending_weak_ref n) then
          binder_user_error ;; next_command
        else
          set_obj k_nodes node (λ n, if acquire then n <| n_pending_strong_ref := false |>
                                     else n <| n_pending_weak_ref := false |>) ;;
          binder_dec_node node acquire false ;;
          next_command)).

(** [list_move_tail] of the first work of a list. *)
Definition move_first (from to : lhead) : K unit :=
  k ← gets id;
  match works from k with
  | [] => fail Bad_list
  | w :: _ => list_del_init w ;; list_add_tail w to
  end.

(** [BC_FREE_BUFFER]. *)
Definition write_free_buffer (p thread ptr : Z) : K (Z + unit) :=
  with_user ptr (λ data_ptr,
    found ← on_alloc p (binder_buffer_lookup data_ptr);
    match found with
    | None => binder_user_error ;; next_command
    | Some b =>
        buffer ← get_buffer b;
        if negb (b_allow_user_free buffer) then binder_user_error ;; next_command
        else
          when (negb (b_transaction buffer =? 0))
            (set_obj k_transactions (b_transaction buffer) (λ x, x <| x_buffer := 0 |>) ;;
             set_buffer b (λ x, x <| b_transaction := 0 |>)) ;;
          when (b_async_transaction buffer && negb (b_target_node buffer =? 0))
            (n ← obj k_nodes (b_target_node buffer);
             bug_on (negb (n_has_async_transaction n)) ;;
             k ← gets id;
             if list_empty (node_async_todo (b_target_node buffer)) k then
               set_obj k_nodes (b_target_node buffer) (λ n, n <| n_has_async_transaction := false |>)
             else move_first (node_async_todo (b_target_node buffer)) (thread_todo thread)) ;;
          binder_transaction_buffer_release p b None ;;
          on_alloc p (binder_free_buf pages_env b) ;;
          next_command
    end).

(** [BC_TRANSACTION], [BC_REPLY]. *)
Definition write_transaction (p thread cmd ptr : Z) : K (Z + unit) :=
  bs ← copy_from_user ptr sizeof_transaction_data;
  match bs with
  | None => mret (inl (- EFAULT))
  | Some bs => binder_transaction p thread (decode_tr bs) (cmd =? BC_REPLY) ;; next_command
  end.

Definition write_register_looper (p thread : Z) : K (Z + unit) :=
  th ← obj k_threads thread;
  pr ← obj k_procs p;
  (if has_flag (t_looper th) BINDER_LOOPER_STATE_ENTERED then
     set_looper thread (Z.lor BINDER_LOOPER_STATE_INVALID) ;; binder_user_error
   else if p_requested_threads pr =? 0 then
     set_looper thread (Z.lor BINDER_LOOPER_STATE_INVALID) ;; binder_user_error
   else
     set_obj k_procs p (λ pr, pr <| p_requested_threads %= Z.pred |> <| p_requested_threads_started %= Z.add 1 |>)) ;;
  set_looper thread (Z.lor BINDER_LOOPER_STATE_REGISTERED) ;;
  next_command.

Definition write_enter_looper (thread : Z) : K (Z + unit) :=
  th ← obj k_threads thread;
  when (has_flag (t_looper th) BINDER_LOOPER_STATE_REGISTERED)
    (set_looper thread (Z.lor BINDER_LOOPER_STATE_INVALID) ;; binder_user_error) ;;
  set_looper thread (Z.lor BINDER_LOOPER_STATE_ENTERED) ;;
  next_command.

Definition write_exit_looper (thread : Z) : K (Z + unit) :=
  set_looper thread (Z.lor BINDER_LOOPER_STATE_EXITED) ;; next_command.

(** Where a death notification goes: to the thread when it is a looper, else to
    its process. *)
Definition queue_death (p thread d : Z) : K unit :=
  th ← obj k_threads thread;
  if has_flag (t_looper th) (Z.lor BINDER_LOOPER_STATE_REGISTERED BINDER_LOOPER_STATE_ENTERED) then
    list_add_tail (work_death d) (thread_todo thread)
  else list_add_tail (work_death d) (proc_todo p) ;; wake_up (proc_wait p).

Definition request_death_notification (p thread ref cookie : Z) : K (Z + unit) :=
  r ← obj k_refs ref;
  if negb (r_death r =? 0) then binder_user_error ;; next_command
  else
    death ← kzalloc;
    if death =? 0 then set_obj k_threads thread (λ th, th <| t_return_error := BR_ERROR |>) ;; next_command
    else
      binder_stats_created BINDER_STAT_DEATH ;;
      put_obj k_deaths death (zero_death <| d_cookie := cookie |>) ;;
      set_obj k_refs ref (λ r, r <| r_death := death |>) ;;
      n ← obj k_nodes (r_node r);
      when (n_proc n =? 0)
        (set_obj k_deaths death (λ d, d <| d_type := BINDER_WORK_DEAD_BINDER |>) ;; queue_death p thread death) ;;
      next_command.

Definition clear_death_notification (p thread ref cookie : Z) : K (Z + unit) :=
  r ← obj k_refs ref;
  if r_death r =? 0 then binder_user_error ;; next_command
  else
    let death := r_death r in
    d ← obj k_deaths death;
    if negb (d_cookie d =? cookie) then binder_user_error ;; next_command
    else
      set_obj k_refs ref (λ r, r <| r_death := 0 |>) ;;
      k ← gets id;
      (if negb (linked (work_death death) k) then
         set_obj k_deaths death (λ d, d <| d_type := BINDER_WORK_CLEAR_DEATH_NOTIFICATION |>) ;;
         queue_death p thread death
       else
         bug_on (negb (bool_decide (d_type d = BINDER_WORK_DEAD_BINDER))) ;;
         set_obj k_deaths death (λ d, d <| d_type := BINDER_WORK_DEAD_BINDER_AND_CLEAR |>)) ;;
      next_command.

(** [BC_REQUEST_DEATH_NOTIFICATION], [BC_CLEAR_DEATH_NOTIFICATION]. *)
Definition write_death_notification (p thread cmd ptr : Z) : K (Z + unit) :=
  with_user ptr (λ target,
  with_user (uadd ptr 4) (λ cookie,
    ref ← binder_get_ref p target;
    if ref =? 0 then binder_user_error ;; next_command
    else if cmd =? BC_REQUEST_DEATH_NOTIFICATION then request_death_notification p thread ref cookie
    else clear_death_notification p thread ref cookie)).

(** The first delivered death with the cookie. *)
Fixpoint find_delivered (k : kernel) (l : list work) (cookie : Z) : option Z :=
  match l with
  | [] => None
  | work_death d :: l' =>
      if bool_decide (d_cookie <$> k_deaths k !! d = Some cookie) then Some d else find_delivered k l' cookie
  | _ :: l' => find_delivered k l' cookie
  end.

(** [BC_DEAD_BINDER_DONE]. *)
Definition write_dead_binder_done (p thread ptr : Z) : K (Z + unit) :=
  with_user ptr (λ cookie,
    k ← gets id;
    match find_delivered k (works (proc_delivered_death p) k) cookie with
    | None => binder_user_error ;; next_command
    | Some death =>
        list_del_init (work_death death) ;;
        d ← obj k_deaths death;
        when (bool_decide (d_type d = BINDER_WORK_DEAD_BINDER_AND_CLEAR))
          (set_obj k_deaths death (λ d, d <| d_type := BINDER_WORK_CLEAR_DEATH_NOTIFICATION |>) ;;
           queue_death p thread death) ;;
        next_command
    end).

(** The bytes of the arguments of a command; the [switch] advances [ptr] by as
    many. *)
Definition command_size (cmd : Z) : Z :=
  if (cmd =? BC_INCREFS) || (cmd =? BC_ACQUIRE) || (cmd =? BC_RELEASE) || (cmd =? BC_DECREFS) then 4
  else if (cmd =? BC_INCREFS_DONE) || (cmd =? BC_ACQUIRE_DONE) then 8
  else if cmd =? BC_FREE_BUFFER then 4
  else if (cmd =? BC_TRANSACTION) || (cmd =? BC_REPLY) then sizeof_transaction_data
  else if (cmd =? BC_REQUEST_DEATH_NOTIFICATION) || (cmd =? BC_CLEAR_DEATH_NOTIFICATION) then 8
  else if cmd =? BC_DEAD_BINDER_DONE then 4
  else 0.

(** The [switch]: [inl] returns from the function. *)
Definition write_command (p thread cmd ptr : Z) : K (Z + unit) :=
  if (cmd =? BC_INCREFS) || (cmd =? BC_ACQUIRE) || (cmd =? BC_RELEASE) || (cmd =? BC_DECREFS) then
    write_refs p cmd ptr
  else if (cmd =? BC_INCREFS_DONE) || (cmd =? BC_ACQUIRE_DONE) then write_refs_done p cmd ptr
  else if cmd =? BC_ATTEMPT_ACQUIRE then mret (inl (- EINVAL))
  else if cmd =? BC_ACQUIRE_RESULT then mret (inl (- EINVAL))
  else if cmd =? BC_FREE_BUFFER then write_free_buffer p thread ptr
  else if (cmd =? BC_TRANSACTION) || (cmd =? BC_REPLY) then write_transaction p thread cmd ptr
  else if cmd =? BC_REGISTER_LOOPER then write_register_looper p thread
  else if cmd =? BC_ENTER_LOOPER then write_enter_looper thread
  else if cmd =? BC_EXIT_LOOPER then write_exit_looper thread
  else if (cmd =? BC_REQUEST_DEATH_NOTIFICATION) || (cmd =? BC_CLEAR_DEATH_NOTIFICATION) then
    write_death_notification p thread cmd ptr
  else if cmd =? BC_DEAD_BINDER_DONE then write_dead_binder_done p thread ptr
  else mret (inl (- EINVAL)).

(** Counting a command in the three tables; [n] is the size of the table. *)
Definition stat_command (f : stats → gmap Z Z) `{!Field f} (n : Z) (p thread cmd : Z) : K unit :=
  when (IOC_NR cmd <? n)
    (modify (λ k, k <| k_stats %= update f (count (IOC_NR cmd)) |>) ;;
     set_obj k_procs p (λ pr, pr <| p_stats %= update f (count (IOC_NR cmd)) |>) ;;
     set_obj k_threads thread (λ th, th <| t_stats %= update f (count (IOC_NR cmd)) |>)).

Definition bc_count : Z := IOC_NR BC_DEAD_BINDER_DONE + 1.
Definition br_count : Z := IOC_NR BR_FAILED_REPLY + 1.

(** The loop; [consumed] is [*consumed], returned with the answer. *)
Fixpoint write_loop (fuel : nat) (p thread buffer end_ ptr consumed : Z) : K (Z * Z) :=
  match fuel with
  | O => fail Fuel
  | S fuel' =>
      th ← obj k_threads thread;
      if (ptr <? end_) && (t_return_error th =? BR_OK) then
        w ← get_user ptr;
        match w with
        | None => mret (- EFAULT, consumed)
        | Some cmd =>
            let ptr := uadd ptr 4 in
            stat_command st_bc bc_count p thread cmd ;;
            r ← write_command p thread cmd ptr;
            match r with
            | inl err => mret (err, consumed)
            | inr _ =>
                let ptr := uadd ptr (command_size cmd) in
                write_loop fuel' p thread buffer end_ ptr (ptr - buffer)
            end
        end
      else mret (0, consumed)
  end.

(** The answer and [*consumed] after it. *)
Definition binder_thread_write (p thread buffer size consumed : Z) : K (Z * Z) :=
  let ptr := uadd buffer consumed in
  let end_ := uadd buffer size in
  write_loop (S (Z.to_nat (end_ - ptr))) p thread buffer end_ ptr consumed.
End write.
