(* ===== verification/BinderRead.v ===== *)
(** [binder_thread_read]: waiting for work, then handing works to user space
    until the buffer is full, a transaction is delivered, or none is left. *)
From S2P Require Import Prelude RBTree BinderAlloc BinderUapi BinderState BinderKernel BinderObject BinderTransaction BinderWrite.

Section read.
Context {AR : Arch} {RB : RBOps} {KR : Kernel}.

Definition binder_stat_br (p thread cmd : Z) : K unit := stat_command st_br br_count p thread cmd.

Definition need_return (th : binder_thread) : bool := has_flag (t_looper th) BINDER_LOOPER_STATE_NEED_RETURN.

Definition binder_has_proc_work (p thread : Z) : K bool :=
  th ← obj k_threads thread; k ← gets id;
  mret (negb (list_empty (proc_todo p) k) || need_return th).

Definition binder_has_thread_work (thread : Z) : K bool :=
  th ← obj k_threads thread; k ← gets id;
  mret (negb (list_empty (thread_todo thread) k) || negb (t_return_error th =? BR_OK) || need_return th).

(** [put_user] of words one after the other: the address behind them, or
    [None] at the first fault. *)
Fixpoint put_words (ws : list Z) (ptr : Z) : K (option Z) :=
  match ws with
  | [] => mret (Some ptr)
  | w :: ws' =>
      ok ← put_user w ptr;
      if ok : bool then put_words ws' (uadd ptr 4) else mret None
  end.

(** [wait_event_interruptible]: sleeps only when the condition does not hold. *)
Definition wait_event_interruptible (exclusive : bool) (q : wait_queue) (cond : K bool) : K Z :=
  c ← cond; if c : bool then mret 0 else wait_event exclusive q.

(** ** Waiting *)

Definition wait_for_work (p thread : Z) (wait_for_proc_work non_block : bool) : K Z :=
  set_looper thread (Z.lor BINDER_LOOPER_STATE_WAITING) ;;
  when wait_for_proc_work (set_obj k_procs p (λ pr, pr <| p_ready_threads %= Z.add 1 |>)) ;;
  ret ←
    (if wait_for_proc_work then
       th ← obj k_threads thread;
       when (negb (has_flag (t_looper th) (Z.lor BINDER_LOOPER_STATE_REGISTERED BINDER_LOOPER_STATE_ENTERED)))
         (binder_user_error ;;
          wait_event_interruptible false user_error_wait (gets (λ k, k_stop_on_user_error k <? 2)) ;;
          mret tt) ;;
       pr ← obj k_procs p;
       binder_set_nice (p_default_priority pr) ;;
       if non_block then
         work ← binder_has_proc_work p thread; mret (if (work : bool) then 0 else - EAGAIN)
       else wait_event_interruptible true (proc_wait p) (binder_has_proc_work p thread)
     else
       if non_block then
         work ← binder_has_thread_work thread; mret (if (work : bool) then 0 else - EAGAIN)
       else wait_event_interruptible false (thread_wait thread) (binder_has_thread_work thread));
  when wait_for_proc_work (set_obj k_procs p (λ pr, pr <| p_ready_threads %= Z.pred |>)) ;;
  set_looper thread (λ l, Z.land l (Z.lnot BINDER_LOOPER_STATE_WAITING)) ;;
  mret ret.

(** ** Works *)

Definition deliver_complete (p thread w ptr : Z) : K (option Z) :=
  r ← put_words [BR_TRANSACTION_COMPLETE] ptr;
  match r with
  | None => mret None
  | Some ptr =>
      binder_stat_br p thread BR_TRANSACTION_COMPLETE ;;
      list_del_init (work_complete w) ;;
      free_complete w ;;
      binder_stats_deleted BINDER_STAT_TRANSACTION_COMPLETE ;;
      mret (Some ptr)
  end.

Definition node_strong (n : binder_node) : bool :=
  negb (n_internal_strong_refs n =? 0) || negb (n_local_strong_refs n =? 0).
Definition node_weak (n : binder_node) : bool :=
  negb (bool_decide (n_refs n = [])) || negb (n_local_weak_refs n =? 0) || node_strong n.

(** The command for a node, with the node after it; [BR_NOOP] when user space
    knows its state already. *)
Definition node_command (n : binder_node) : Z * binder_node :=
  if node_weak n && negb (n_has_weak_ref n) then
    (BR_INCREFS, n <| n_has_weak_ref := true |> <| n_pending_weak_ref := true |> <| n_local_weak_refs %= int_inc |>)
  else if node_strong n && negb (n_has_strong_ref n) then
    (BR_ACQUIRE, n <| n_has_strong_ref := true |> <| n_pending_strong_ref := true |>
       <| n_local_strong_refs %= int_inc |>)
  else if negb (node_strong n) && n_has_strong_ref n then (BR_RELEASE, n <| n_has_strong_ref := false |>)
  else if negb (node_weak n) && n_has_weak_ref n then (BR_DECREFS, n <| n_has_weak_ref := false |>)
  else (BR_NOOP, n).

Definition deliver_node (p thread node ptr : Z) : K (option Z) :=
  n ← obj k_nodes node;
  let '(cmd, n') := node_command n in
  if negb (cmd =? BR_NOOP) then
    set_obj k_nodes node (λ _, n') ;;
    r ← put_words [cmd; n_ptr n; n_cookie n] ptr;
    match r with
    | None => mret None
    | Some ptr => binder_stat_br p thread cmd ;; mret (Some ptr)
    end
  else
    list_del_init (work_node node) ;;
    when (negb (node_weak n) && negb (node_strong n))
      (set_obj k_procs p (λ pr, pr <| p_nodes %= rb_erase node |>) ;;
       free_obj k_nodes node ;;
       binder_stats_deleted BINDER_STAT_NODE) ;;
    mret (Some ptr).

(** The flag is [goto done]. *)
Definition deliver_death (p thread death ptr : Z) : K (option (Z * bool)) :=
  d ← obj k_deaths death;
  let clear := bool_decide (d_type d = BINDER_WORK_CLEAR_DEATH_NOTIFICATION) in
  let cmd := if clear then BR_CLEAR_DEATH_NOTIFICATION_DONE else BR_DEAD_BINDER in
  r ← put_words [cmd; d_cookie d] ptr;
  match r with
  | None => mret None
  | Some ptr =>
      binder_stat_br p thread cmd ;;
      (if clear then
         list_del_init (work_death death) ;; free_obj k_deaths death ;; binder_stats_deleted BINDER_STAT_DEATH
       else
         list_del_init (work_death death) ;;
         modify (λ k, k <| k_lists %=
           <[proc_delivered_death p := work_death death :: works (proc_delivered_death p) k]> |>)) ;;
      mret (Some (ptr, cmd =? BR_DEAD_BINDER))
  end.

(** The priority the receiving thread runs at, for a call. *)
Definition set_call_priority (t : Z) (n : binder_node) : K unit :=
  cur ← current;
  set_obj k_transactions t (λ x, x <| x_saved_priority := tk_nice cur |>) ;;
  x ← obj k_transactions t;
  let one_way := has_flag (x_flags x) TF_ONE_WAY in
  if (x_priority x <? n_min_priority n) && negb one_way then binder_set_nice (x_priority x)
  else when (negb one_way || (x_saved_priority x >? n_min_priority n)) (binder_set_nice (n_min_priority n)).

(** The command and the record for a transaction. *)
Definition transaction_record (p t : Z) : K (Z * binder_transaction_data) :=
  x ← obj k_transactions t;
  bug_on (x_buffer x =? 0) ;;
  buffer ← get_buffer (x_buffer x);
  head ←
    (if negb (b_target_node buffer =? 0) then
       n ← obj k_nodes (b_target_node buffer);
       set_call_priority t n ;;
       mret (BR_TRANSACTION, n_ptr n, n_cookie n)
     else mret (BR_REPLY, 0, 0));
  sender_pid ←
    (if negb (x_from x =? 0) then
       th ← obj k_threads (x_from x); pr ← obj k_procs (t_proc th); tsk ← obj k_tasks (p_tsk pr);
       mret (task_tgid_nr tsk)
     else mret 0);
  pr ← obj k_procs p;
  let '(cmd, target, cookie) := head in
  let data := u32 (x_buffer x + HDR + a_user_buffer_offset (p_alloc pr)) in
  mret (cmd, mk_tr target cookie (x_code x) (x_flags x) sender_pid (from_kuid (x_sender_euid x))
    (u32 (b_data_size buffer)) (u32 (b_offsets_size buffer)) data (u32 (data + ALIGN (b_data_size buffer) 4))).

(** What happens to a transaction once it is in user space. *)
Definition transaction_received (thread t cmd : Z) : K unit :=
  list_del_init (work_transaction t) ;;
  x ← obj k_transactions t;
  set_buffer (x_buffer x) (λ b, b <| b_allow_user_free := true |>) ;;
  if (cmd =? BR_TRANSACTION) && negb (has_flag (x_flags x) TF_ONE_WAY) then
    th ← obj k_threads thread;
    set_obj k_transactions t (λ x, x <| x_to_parent := t_transaction_stack th |> <| x_to_thread := thread |>) ;;
    set_obj k_threads thread (λ th, th <| t_transaction_stack := t |>)
  else
    set_buffer (x_buffer x) (λ b, b <| b_transaction := 0 |>) ;;
    free_obj k_transactions t ;;
    binder_stats_deleted BINDER_STAT_TRANSACTION.

Definition deliver_transaction (p thread t ptr : Z) : K (option Z) :=
  r ← transaction_record p t;
  let '(cmd, tr) := r in
  r ← put_words [cmd] ptr;
  match r with
  | None => mret None
  | Some ptr =>
      ok ← copy_to_user ptr (encode_tr tr);
      if negb ok then mret None
      else
        binder_stat_br p thread cmd ;;
        transaction_received thread t cmd ;;
        mret (Some (uadd ptr sizeof_transaction_data))
  end.

(** ** The loop over the works *)

(** How the loop is left: [return -EFAULT], to [done], or to [retry]. *)
Inductive read_next : Type :=
| read_fault
| read_done (ptr : Z)
| read_retry (ptr : Z).

(** The next work: the thread's own, then the process's if it waits for those. *)
Definition next_work (p thread : Z) (wait_for_proc_work : bool) (k : kernel) : option work :=
  match works (thread_todo thread) k with
  | w :: _ => Some w
  | [] => if wait_for_proc_work then head (works (proc_todo p) k) else None
  end.

(** [end - ptr < sizeof(tr) + 4]: the comparison is of unsigned integers. *)
Definition no_room (end_ ptr : Z) : bool := usz (end_ - ptr) <? sizeof_transaction_data + 4.

Fixpoint read_works (fuel : nat) (p thread : Z) (wait_for_proc_work : bool) (buffer end_ ptr : Z) : K read_next :=
  match fuel with
  | O => fail Fuel
  | S fuel' =>
      k ← gets id;
      match next_work p thread wait_for_proc_work k with
      | None =>
          th ← obj k_threads thread;
          mret (if (ptr - buffer =? 4) && negb (need_return th) then read_retry ptr else read_done ptr)
      | Some w =>
          if no_room end_ ptr then mret (read_done ptr)
          else
            let continue r :=
              match r with
              | None => mret read_fault
              | Some ptr => read_works fuel' p thread wait_for_proc_work buffer end_ ptr
              end in
            match w with
            | work_complete c => r ← deliver_complete p thread c ptr; continue r
            | work_node n => r ← deliver_node p thread n ptr; continue r
            | work_death d =>
                r ← deliver_death p thread d ptr;
                match r with
                | None => mret read_fault
                | Some (ptr, true) => mret (read_done ptr)
                | Some (ptr, false) => continue (Some ptr)
                end
            | work_transaction t =>
                r ← deliver_transaction p thread t ptr;
                mret (match r with None => read_fault | Some ptr => read_done ptr end)
            end
      end
  end.

(** Pending errors of the thread, when there is room; [None] when there are none. *)
Definition report_errors (p thread end_ ptr : Z) : K (option read_next) :=
  th ← obj k_threads thread;
  if negb (t_return_error th =? BR_OK) && (ptr <? end_) then
    r ←
      (if negb (t_return_error2 th =? BR_OK) then
         r ← put_words [t_return_error2 th] ptr;
         match r with
         | None => mret (inl read_fault)
         | Some ptr =>
             binder_stat_br p thread (t_return_error2 th) ;;
             if ptr =? end_ then mret (inl (read_done ptr))
             else
               set_obj k_threads thread (λ th, th <| t_return_error2 := BR_OK |>) ;;
               mret (inr ptr)
         end
       else mret (inr ptr));
    match r with
    | inl next => mret (Some next)
    | inr ptr =>
        r ← put_words [t_return_error th] ptr;
        match r with
        | None => mret (Some read_fault)
        | Some ptr =>
            binder_stat_br p thread (t_return_error th) ;;
            set_obj k_threads thread (λ th, th <| t_return_error := BR_OK |>) ;;
            mret (Some (read_done ptr))
        end
    end
  else mret None.

(** All works the loop can see; a node is visited three times at most, its
    process told twice, before it leaves the list. *)
Definition work_count (p thread : Z) (k : kernel) : nat :=
  length (works (thread_todo thread) k) + length (works (proc_todo p) k).

(** From the label [retry]: the way the loop is left, or the error of a wait. *)
Fixpoint read_retries (fuel : nat) (p thread buffer end_ ptr : Z) (non_block : bool) : K (Z + read_next) :=
  match fuel with
  | O => fail Fuel
  | S fuel' =>
      th ← obj k_threads thread;
      k ← gets id;
      let wait_for_proc_work := (t_transaction_stack th =? 0) && list_empty (thread_todo thread) k in
      r ← report_errors p thread end_ ptr;
      match r with
      | Some next => mret (inr next)
      | None =>
          ret ← wait_for_work p thread wait_for_proc_work non_block;
          if negb (ret =? 0) then mret (inl (if ret =? - ERESTARTSYS then 0 else ret))
          else
            k ← gets id;
            r ← read_works (S (3 * work_count p thread k)) p thread wait_for_proc_work
                  buffer end_ ptr;
            match r with
            | read_retry ptr => read_retries fuel' p thread buffer end_ ptr non_block
            | next => mret (inr next)
            end
      end
  end.

(** Asking for another looper thread; whether the word could be written. *)
Definition spawn_looper (p thread buffer : Z) : K Z :=
  pr ← obj k_procs p;
  th ← obj k_threads thread;
  if (p_requested_threads pr + p_ready_threads pr =? 0) && (p_requested_threads_started pr <? p_max_threads pr) &&
     has_flag (t_looper th) (Z.lor BINDER_LOOPER_STATE_REGISTERED BINDER_LOOPER_STATE_ENTERED) then
    set_obj k_procs p (λ pr, pr <| p_requested_threads %= Z.add 1 |>) ;;
    ok ← put_user BR_SPAWN_LOOPER buffer;
    if negb ok then mret (- EFAULT) else binder_stat_br p thread BR_SPAWN_LOOPER ;; mret 0
  else mret 0.

(** The answer and [*consumed]; [fuel] bounds how often the thread goes back to
    sleep without anything to report. *)
Definition binder_thread_read (fuel : nat) (p thread buffer size consumed : Z) (non_block : bool) : K (Z * Z) :=
  let ptr := uadd buffer consumed in
  let end_ := uadd buffer size in
  r ← (if consumed =? 0 then put_words [BR_NOOP] ptr else mret (Some ptr));
  match r with
  | None => mret (- EFAULT, consumed)
  | Some ptr =>
      r ← read_retries fuel p thread buffer end_ ptr non_block;
      match r with
      | inl ret => mret (ret, consumed)
      | inr (read_done ptr) => ret ← spawn_looper p thread buffer; mret (ret, ptr - buffer)
      | inr _ => mret (- EFAULT, consumed)
      end
  end.
End read.
