(* ===== verification/BinderLifecycle.v ===== *)
(** Threads, files and processes of [driver/binder.c]: [binder_release_work] to
    [binder_defer_work]: the file operations of the device and what is put off
    to the work queue. *)
From S2P Require Import Prelude RBTree BinderAlloc BinderUapi BinderState BinderKernel BinderObject BinderTransaction BinderWrite BinderRead.

Definition BINDER_DEFERRED_PUT_FILES : Z := 1.
Definition BINDER_DEFERRED_FLUSH : Z := 2.
Definition BINDER_DEFERRED_RELEASE : Z := 4.
Definition POLLIN : Z := 1.

Section lifecycle.
Context {AR : Arch} {RB : RBOps} {KR : Kernel}.

(** ** Undelivered works *)

Definition release_one_work (w : work) : K unit :=
  match w with
  | work_transaction t =>
      x ← obj k_transactions t;
      buffer ← get_buffer (x_buffer x);
      if negb (b_target_node buffer =? 0) && negb (has_flag (x_flags x) TF_ONE_WAY) then
        binder_send_failed_reply t BR_DEAD_REPLY
      else
        set_buffer (x_buffer x) (λ b, b <| b_transaction := 0 |>) ;;
        free_obj k_transactions t ;;
        binder_stats_deleted BINDER_STAT_TRANSACTION
  | work_complete w => free_complete w ;; binder_stats_deleted BINDER_STAT_TRANSACTION_COMPLETE
  | work_death death =>
      d ← obj k_deaths death;
      when (bool_decide (d_type d = BINDER_WORK_DEAD_BINDER_AND_CLEAR) ||
            bool_decide (d_type d = BINDER_WORK_CLEAR_DEATH_NOTIFICATION))
        (free_obj k_deaths death ;; binder_stats_deleted BINDER_STAT_DEATH)
  | work_node _ => mret tt
  end.

Fixpoint release_work_loop (fuel : nat) (h : lhead) : K unit :=
  k ← gets id;
  match works h k with
  | [] => mret tt
  | w :: _ =>
      match fuel with
      | O => fail Fuel
      | S fuel' => list_del_init w ;; release_one_work w ;; release_work_loop fuel' h
      end
  end.

Definition binder_release_work (h : lhead) : K unit :=
  k ← gets id; release_work_loop (length (works h k)) h.

(** ** Threads *)

(** The address of the calling thread's record, 0 for NULL. *)
Definition binder_get_thread (p : Z) : K Z :=
  pr ← obj k_procs p;
  cur ← current;
  found ← tree_find k_threads t_pid (tk_pid cur) (p_threads pr);
  match found with
  | Some th => mret th
  | None =>
      th ← kzalloc;
      if th =? 0 then mret 0
      else
        binder_stats_created BINDER_STAT_THREAD ;;
        t ← tree_link k_threads t_pid (tk_pid cur) th (p_threads pr) ≫= the Bug;
        set_obj k_procs p (λ pr, pr <| p_threads := rb_insert_color th t |>) ;;
        put_obj k_threads th (zero_thread <| t_proc := p |> <| t_pid := tk_pid cur |>
          <| t_looper := BINDER_LOOPER_STATE_NEED_RETURN |> <| t_return_error := BR_OK |>
          <| t_return_error2 := BR_OK |>) ;;
        mret th
  end.

(** The loop over the transactions of a dying thread: how many there are. *)
Fixpoint detach_transactions (fuel : nat) (thread t : Z) (n : Z) : K Z :=
  if t =? 0 then mret n
  else
    match fuel with
    | O => fail Fuel
    | S fuel' =>
        x ← obj k_transactions t;
        if x_to_thread x =? thread then
          set_obj k_transactions t (λ x, x <| x_to_proc := 0 |> <| x_to_thread := 0 |>) ;;
          when (negb (x_buffer x =? 0))
            (set_buffer (x_buffer x) (λ b, b <| b_transaction := 0 |>) ;;
             set_obj k_transactions t (λ x, x <| x_buffer := 0 |>)) ;;
          detach_transactions fuel' thread (x_to_parent x) (n + 1)
        else if x_from x =? thread then
          set_obj k_transactions t (λ x, x <| x_from := 0 |>) ;;
          detach_transactions fuel' thread (x_from_parent x) (n + 1)
        else fail Bug
    end.

Definition binder_free_thread (p thread : Z) : K Z :=
  set_obj k_procs p (λ pr, pr <| p_threads %= rb_erase thread |>) ;;
  th ← obj k_threads thread;
  let t := t_transaction_stack th in
  send_reply ←
    (if t =? 0 then mret 0
     else x ← obj k_transactions t; mret (if x_to_thread x =? thread then t else 0));
  k ← gets id;
  active_transactions ← detach_transactions (size (k_transactions k)) thread t 0;
  when (negb (send_reply =? 0)) (binder_send_failed_reply send_reply BR_DEAD_REPLY) ;;
  binder_release_work (thread_todo thread) ;;
  free_obj k_threads thread ;;
  binder_stats_deleted BINDER_STAT_THREAD ;;
  mret active_transactions.

(** ** The file operations *)

(** [binder_poll]; [poll_wait] only registers the caller. *)
Definition binder_poll (p : Z) : K Z :=
  thread ← binder_get_thread p;
  th ← obj k_threads thread;
  k ← gets id;
  let wait_for_proc_work :=
    (t_transaction_stack th =? 0) && list_empty (thread_todo thread) k && (t_return_error th =? BR_OK) in
  work ← (if wait_for_proc_work then binder_has_proc_work p thread else binder_has_thread_work thread);
  mret (if (work : bool) then POLLIN else 0).

Definition wait_user_error : K Z :=
  wait_event_interruptible false user_error_wait (gets (λ k, k_stop_on_user_error k <? 2)).

(** Copying the record back; [ret] unless it faults. *)
Definition copy_bwr (arg : Z) (bwr : binder_write_read) (ret : Z) : K Z :=
  ok ← copy_to_user arg (encode_bwr bwr); mret (if (ok : bool) then ret else - EFAULT).

(** [BINDER_WRITE_READ]. *)
Definition ioctl_write_read (fuel : nat) (p thread size arg : Z) (non_block : bool) : K Z :=
  if negb (size =? sizeof_write_read) then mret (- EINVAL)
  else
    bs ← copy_from_user arg sizeof_write_read;
    match bs with
    | None => mret (- EFAULT)
    | Some bs =>
        let bwr := decode_bwr bs in
        r ←
          (if bwr_write_size bwr >? 0 then
             w ← binder_thread_write p thread (bwr_write_buffer bwr) (bwr_write_size bwr) 0;
             let '(ret, consumed) := w in
             mret (ret, mk_bwr (bwr_write_size bwr) (s32 consumed) (bwr_write_buffer bwr) (bwr_read_size bwr)
                     (if ret <? 0 then 0 else bwr_read_consumed bwr) (bwr_read_buffer bwr))
           else mret (0, bwr));
        let '(ret, bwr) := r in
        if ret <? 0 then copy_bwr arg bwr ret
        else
          r ←
            (if bwr_read_size bwr >? 0 then
               w ← binder_thread_read fuel p thread (bwr_read_buffer bwr) (bwr_read_size bwr) 0 non_block;
               let '(ret, consumed) := w in
               k ← gets id;
               when (negb (list_empty (proc_todo p) k)) (wake_up (proc_wait p)) ;;
               mret (ret, mk_bwr (bwr_write_size bwr) (bwr_write_consumed bwr) (bwr_write_buffer bwr)
                       (bwr_read_size bwr) (s32 consumed) (bwr_read_buffer bwr))
             else mret (0, bwr));
          let '(ret, bwr) := r in
          if ret <? 0 then copy_bwr arg bwr ret else copy_bwr arg bwr 0
    end.

(** [BINDER_SET_CONTEXT_MGR]. *)
Definition ioctl_set_context_mgr (p : Z) : K Z :=
  k ← gets id;
  cur ← current;
  if negb (k_context_mgr_node k =? 0) then mret (- EBUSY)
  else if bool_decide (is_Some (k_context_mgr_uid k)) && negb (bool_decide (k_context_mgr_uid k = Some (tk_euid cur)))
  then mret (- EPERM)
  else
    modify (λ k, k <| k_context_mgr_uid := Some (tk_euid cur) |>) ;;
    node ← binder_new_node p 0 0;
    modify (λ k, k <| k_context_mgr_node := node |>) ;;
    if node =? 0 then mret (- ENOMEM)
    else
      set_obj k_nodes node (λ n, n <| n_local_weak_refs %= int_inc |> <| n_local_strong_refs %= int_inc |>
        <| n_has_strong_ref := true |> <| n_has_weak_ref := true |>) ;;
      mret 0.

(** The [switch]: the answer, and whether [thread] is still there. *)
Definition ioctl_command (fuel : nat) (p thread cmd arg : Z) (non_block : bool) : K (Z * bool) :=
  let size := IOC_SIZE cmd in
  if cmd =? BINDER_WRITE_READ then ret ← ioctl_write_read fuel p thread size arg non_block; mret (ret, true)
  else if cmd =? BINDER_SET_MAX_THREADS then
    bs ← copy_from_user arg 4;
    match bs with
    | None => mret (- EINVAL, true)
    | Some bs => set_obj k_procs p (λ pr, pr <| p_max_threads := s32 (le_value bs) |>) ;; mret (0, true)
    end
  else if cmd =? BINDER_SET_CONTEXT_MGR then ret ← ioctl_set_context_mgr p; mret (ret, true)
  else if cmd =? BINDER_THREAD_EXIT then binder_free_thread p thread ;; mret (0, false)
  else if cmd =? BINDER_VERSION then
    if negb (size =? sizeof_version) then mret (- EINVAL, true)
    else ok ← put_user BINDER_CURRENT_PROTOCOL_VERSION arg; mret (if (ok : bool) then 0 else - EINVAL, true)
  else mret (- EINVAL, true).

Definition binder_ioctl (fuel : nat) (p cmd arg : Z) (non_block : bool) : K Z :=
  ret ← wait_user_error;
  if negb (ret =? 0) then mret ret
  else
    thread ← binder_get_thread p;
    ret ←
      (if thread =? 0 then mret (- ENOMEM)
       else
         r ← ioctl_command fuel p thread cmd arg non_block;
         let '(ret, alive) := r in
         when alive (set_looper thread (λ l, Z.land l (Z.lnot BINDER_LOOPER_STATE_NEED_RETURN))) ;;
         mret ret);
    wait_user_error ;;
    mret ret.

Definition binder_defer_work (p defer : Z) : K unit :=
  set_obj k_procs p (λ pr, pr <| p_deferred_work %= (λ d, Z.lor d defer) |>) ;;
  k ← gets id;
  when (negb (bool_decide (p ∈ k_deferred_list k)))
    (modify (λ k, k <| k_deferred_list %= cons p |> <| k_deferred_queued := true |>)).

(** [binder_vma_close]. *)
Definition binder_vma_close (p : Z) : K unit :=
  set_obj k_procs p (λ pr, pr <| p_alloc %= λ a, a <| a_vma := false |> <| a_vma_vm_mm := 0 |> |>) ;;
  binder_defer_work p BINDER_DEFERRED_PUT_FILES.

(** [binder_mmap] of the file of process [p]; see [BinderAlloc.binder_mmap]. *)
Definition proc_mmap (p : Z) (vma : vm_area) (area : Z) (pages_ok : bool) : K Z :=
  pr ← obj k_procs p;
  k ← gets id;
  cur ← current;
  on_alloc p (binder_mmap pages_env (p_tsk pr =? k_current k) vma area pages_ok (tk_files cur)).

(** [binder_open]: the answer and [filp->private_data]. *)
Definition binder_open : K (Z * Z) :=
  p ← kzalloc;
  if p =? 0 then mret (- ENOMEM, 0)
  else
    k ← gets id;
    cur ← current;
    put_obj k_procs p (zero_proc <| p_tsk := k_current k |> <| p_default_priority := tk_nice cur |>
      <| p_pid := tk_tgid cur |>) ;;
    binder_stats_created BINDER_STAT_PROC ;;
    modify (λ k, k <| k_binder_procs %= cons p |>) ;;
    mret (0, p).

Definition binder_flush (p : Z) : K Z := binder_defer_work p BINDER_DEFERRED_FLUSH ;; mret 0.
Definition binder_release (p : Z) : K Z := binder_defer_work p BINDER_DEFERRED_RELEASE ;; mret 0.

(** ** Deferred work *)

Definition flush_thread (th : Z) : K unit :=
  set_looper th (Z.lor BINDER_LOOPER_STATE_NEED_RETURN) ;;
  t ← obj k_threads th;
  when (has_flag (t_looper t) BINDER_LOOPER_STATE_WAITING) (wake_up (thread_wait th)).

Definition binder_deferred_flush (p : Z) : K unit :=
  pr ← obj k_procs p;
  for_each flush_thread (inorder (p_threads pr)) ;;
  wake_up (proc_wait p).

(** The loop over the references of a dead node: how many are visited.  It stops
    at the first one without a death notification. *)
Fixpoint notify_deaths (refs : list Z) : K Z :=
  match refs with
  | [] => mret 0
  | ref :: refs' =>
      r ← obj k_refs ref;
      if r_death r =? 0 then mret 1
      else
        k ← gets id;
        bug_on (linked (work_death (r_death r)) k) ;;
        set_obj k_deaths (r_death r) (λ d, d <| d_type := BINDER_WORK_DEAD_BINDER |>) ;;
        list_add_tail (work_death (r_death r)) (proc_todo (r_proc r)) ;;
        wake_up (proc_wait (r_proc r)) ;;
        n ← notify_deaths refs';
        mret (n + 1)
  end.

Definition binder_node_release (node refs : Z) : K Z :=
  list_del_init (work_node node) ;;
  binder_release_work (node_async_todo node) ;;
  n ← obj k_nodes node;
  if bool_decide (n_refs n = []) then
    free_obj k_nodes node ;; binder_stats_deleted BINDER_STAT_NODE ;; mret refs
  else
    set_obj k_nodes node (λ n, n <| n_proc := 0 |> <| n_local_strong_refs := 0 |> <| n_local_weak_refs := 0 |>) ;;
    modify (λ k, k <| k_dead_nodes %= cons node |>) ;;
    v ← notify_deaths (n_refs n);
    mret (refs + v).

(** [while ((n = rb_first(...)))] on a tree of process [p]. *)
Fixpoint while_first (fuel : nat) (p : Z) (root : binder_proc → tree Z) (body : Z → K unit) : K unit :=
  pr ← obj k_procs p;
  match rb_first (root pr) with
  | None => mret tt
  | Some n =>
      match fuel with
      | O => fail Fuel
      | S fuel' => body n ;; while_first fuel' p root body
      end
  end.

Definition drain (p : Z) (root : binder_proc → tree Z) (body : Z → K unit) : K unit :=
  pr ← obj k_procs p; while_first (length (inorder (root pr))) p root body.

(** Freeing one buffer that is still in use. *)
Definition release_buffer (p b : Z) : K unit :=
  buffer ← get_buffer b;
  when (negb (b_transaction buffer =? 0))
    (set_obj k_transactions (b_transaction buffer) (λ x, x <| x_buffer := 0 |>) ;;
     set_buffer b (λ b, b <| b_transaction := 0 |>)) ;;
  on_alloc p (binder_free_buf pages_env b).

(** The pages still mapped, and the area. *)
Definition release_area (p : Z) : K unit :=
  set_obj k_procs p (λ pr, pr <| p_alloc %= λ a, a <| a_pages %= fmap (λ _, false) |> |>).

Definition binder_deferred_release (p : Z) : K unit :=
  pr ← obj k_procs p;
  bug_on (a_vma (p_alloc pr)) ;;
  bug_on (bool_decide (is_Some (a_files (p_alloc pr)))) ;;
  modify (λ k, k <| k_binder_procs %= list_del p |>) ;;
  k ← gets id;
  when (negb (k_context_mgr_node k =? 0))
    (n ← obj k_nodes (k_context_mgr_node k);
     when (n_proc n =? p) (modify (λ k, k <| k_context_mgr_node := 0 |>))) ;;
  drain p p_threads (λ th, binder_free_thread p th ;; mret tt) ;;
  drain p p_nodes (λ n,
    set_obj k_procs p (λ pr, pr <| p_nodes %= rb_erase n |>) ;; binder_node_release n 0 ;; mret tt) ;;
  drain p p_refs_by_desc binder_delete_ref ;;
  binder_release_work (proc_todo p) ;;
  binder_release_work (proc_delivered_death p) ;;
  drain p (λ pr, a_allocated_buffers (p_alloc pr)) (release_buffer p) ;;
  binder_stats_deleted BINDER_STAT_PROC ;;
  release_area p ;;
  free_obj k_procs p.

(** One round of [binder_deferred_func]; whether there was a process. *)
Definition deferred_round : K bool :=
  k ← gets id;
  match k_deferred_list k with
  | [] => mret false
  | p :: l =>
      modify (λ k, k <| k_deferred_list := l |>) ;;
      pr ← obj k_procs p;
      let defer := p_deferred_work pr in
      set_obj k_procs p (λ pr, pr <| p_deferred_work := 0 |>) ;;
      when (has_flag defer BINDER_DEFERRED_PUT_FILES)
        (set_obj k_procs p (λ pr, pr <| p_alloc %= λ a, a <| a_files := None |> |>)) ;;
      when (has_flag defer BINDER_DEFERRED_FLUSH) (binder_deferred_flush p) ;;
      when (has_flag defer BINDER_DEFERRED_RELEASE) (binder_deferred_release p) ;;
      mret true
  end.

Fixpoint deferred_loop (fuel : nat) : K unit :=
  more ← deferred_round;
  if more : bool then match fuel with O => fail Fuel | S fuel' => deferred_loop fuel' end else mret tt.

Definition binder_deferred_func : K unit :=
  modify (λ k, k <| k_deferred_queued := false |>) ;;
  k ← gets id; deferred_loop (length (k_deferred_list k)).
End lifecycle.
