(* ===== verification/BinderExamples.v ===== *)
(** A concrete kernel, on which the definitions run: two tasks, each with the
    driver open and an area mapped; the first is the context manager.  The
    states of a call from the second to the first, with a binder in it. *)
From S2P Require Import Prelude RBTree BinderAlloc BinderAllocSpec BinderUapi BinderState BinderKernel BinderObject BinderTransaction BinderWrite BinderRead BinderLifecycle.

Module Example.
#[export] Existing Instances list_rb list_rb_laws arch32.

(** File tables give out descriptor 7; nothing is refused; nothing sleeps. *)
#[export] Instance kern : Kernel := {|
  alloc_fd t lim fl := (7, <[7:=0]> t); fd_install t fd f := <[fd:=f]> t; close_fd t fd := (0, delete fd t);
  fget t fd := default 0 (t !! fd); task_sighand _ := true; rlimit_nofile _ := 1024; can_nice _ _ := true;
  set_user_nice t n := t <| tk_nice := n |>; rlimit_nice _ := 0; from_kuid u := u; task_tgid_nr t := tk_tgid t;
  pages_env := Demo.env; stack_garbage := 12345; wait_event _ _ := fail Bad_env |}.

(** The driver loaded, two tasks. *)
Definition boot : kernel :=
  mk_kernel ∅ ∅ ∅ ∅ ∅ ∅ ∅ ∅ [] [] [] false 0 None 0 0 zero_stats zero_log zero_log (seqZ 100000 100) ∅
    {[ 1 := mk_task 11 11 1000 0 (Some 7) 1; 2 := mk_task 22 22 2000 0 (Some 7) 2 ]} 1 ∅ [].

(** What the tasks do outside the driver. *)
Definition as_task (t : Z) : K unit := modify (λ k, k <| k_current := t |>).
Definition poke (addr : Z) (bs : list Z) : K unit :=
  modify (λ k, k <| k_user %= λ m, list_to_map (zip (seqZ addr (Z.of_nat (length bs))) bs) ∪ m |>).
Definition bytes (l : list Z) : list Z := concat (le_bytes 4 <$> l).
Fixpoint to_words (l : list Z) : list Z :=
  match l with a :: b :: c :: d :: l => le_value [a; b; c; d] :: to_words l | _ => [] end.

(** [BINDER_WRITE_READ] with a write buffer at 4096, a read buffer at 8192: the
    answer, and the words read. *)
Definition talk (p : Z) (cmds : list Z) (rsize : Z) : K (Z * list Z) :=
  poke 4096 cmds ;; poke 8192 (replicate 512 0) ;;
  poke 1000 (encode_bwr (mk_bwr (Z.of_nat (length cmds)) 0 4096 rsize 0 8192)) ;;
  r ← binder_ioctl 5 p BINDER_WRITE_READ 1000 true;
  bs ← copy_from_user 1000 24;
  out ← copy_from_user 8192 (bwr_read_consumed (decode_bwr (default [] bs)));
  mret (r, to_words (default [] out)).

(** The addresses of the two processes in the driver. *)
Definition server : Z := 100000.
Definition client : Z := 100003.

Definition start : K unit :=
  binder_open ;; proc_mmap server Demo.vma Demo.area true ;;
  binder_ioctl 5 server BINDER_SET_CONTEXT_MGR 0 true ;;
  talk server (bytes [BC_ENTER_LOOPER]) 0 ;;
  as_task 2 ;;
  binder_open ;; proc_mmap client Demo.vma (Demo.area + 1048576) true ;; mret tt.

(** The client sends three words, the first of them a binder object. *)
Definition send_call : K (Z * list Z) :=
  poke 3000 (encode_flat (mk_flat BINDER_TYPE_BINDER 0 777 888)) ;; poke 3500 (bytes [0]) ;;
  talk client (bytes [BC_TRANSACTION] ++ encode_tr (mk_tr 0 0 5 0 0 0 16 4 3000 3500)) 256.
Definition receive_call : K (Z * list Z) := as_task 1 ;; talk server [] 256.

Definition started : kernel := state_after start boot.
Definition called : kernel := state_after send_call started.
Definition received : kernel := state_after receive_call called.
End Example.
