(* ===== verification/BinderProtocol.v ===== *)
(** Two protocols between the driver and a process: the commands that tell it
    who holds its nodes, and the states of its looper threads. *)
From S2P Require Import Prelude RBTree BinderAlloc BinderAllocSpec BinderUapi BinderState BinderKernel BinderObject BinderTransaction BinderWrite BinderRead BinderLifecycle BinderExamples.

(** ** Flags *)

Lemma has_flag_bit x i : 0 <= i → has_flag x (2 ^ i) = Z.testbit x i.
Proof.
  intros Hi. unfold has_flag. destruct (Z.eqb_spec (Z.land x (2 ^ i)) 0) as [E|E]; simpl.
  - apply (f_equal (λ z, Z.testbit z i)) in E. rewrite Z.land_spec, Z.pow2_bits_true, Z.bits_0, andb_true_r in E by done.
    by rewrite E.
  - destruct (Z.testbit x i) eqn:Eb; [done|]. exfalso. apply E. apply Z.bits_inj'. intros j Hj.
    rewrite Z.land_spec, Z.bits_0. destruct (decide (i = j)) as [<-|Hij]; [by rewrite Eb|].
    by rewrite Z.pow2_bits_false, andb_false_r.
Qed.

Lemma has_flag_lor x i j : 0 <= i → 0 <= j → has_flag (Z.lor (2 ^ j) x) (2 ^ i) = (i =? j) || has_flag x (2 ^ i).
Proof.
  intros Hi Hj. rewrite !has_flag_bit, Z.lor_spec by done. f_equal.
  destruct (Z.eqb_spec i j) as [->|]; [by apply Z.pow2_bits_true|by apply Z.pow2_bits_false].
Qed.

(** Single flags. *)
Definition is_flag (f : Z) : Prop := f = 2 ^ Z.log2 f.

Lemma flag_lor m f x : is_flag m → is_flag f → has_flag (Z.lor m x) f = (m =? f) || has_flag x f.
Proof.
  unfold is_flag. intros Em Ef. rewrite Em, Ef at 1. rewrite has_flag_lor, <- Ef by apply Z.log2_nonneg. f_equal.
  destruct (Z.eqb_spec (Z.log2 f) (Z.log2 m)), (Z.eqb_spec m f); congruence.
Qed.

(** ** What a process is told about a node *)

(** The counts the process knows it holds: weak, strong. *)
Definition told (n : binder_node) : bool * bool := (n_has_weak_ref n, n_has_strong_ref n).

(** What a process makes of a command about its node; [None] when it comes out
    of order. *)
Definition obey (cmd : Z) (v : bool * bool) : option (bool * bool) :=
  match v with
  | (weak, strong) =>
      if cmd =? BR_INCREFS then if weak then None else Some (true, strong)
      else if cmd =? BR_ACQUIRE then if weak && negb strong then Some (weak, true) else None
      else if cmd =? BR_RELEASE then if strong then Some (weak, false) else None
      else if cmd =? BR_DECREFS then if weak && negb strong then Some (false, strong) else None
      else None
  end.

(** The commands [binder_thread_read] sends for a node until it has nothing to
    say, at most [fuel], and the node then. *)
Fixpoint settle (fuel : nat) (n : binder_node) : list Z * binder_node :=
  let '(cmd, n') := node_command n in
  if cmd =? BR_NOOP then ([], n)
  else match fuel with
       | O => ([], n)
       | S fuel' => let '(cmds, n'') := settle fuel' n' in (cmd :: cmds, n'')
       end.

Definition obey_all (cmds : list Z) (v : bool * bool) : option (bool * bool) :=
  foldl (λ v cmd, v ≫= obey cmd) (Some v) cmds.

(** A process that holds a strong count was told of a weak one first; a count
    that telling it raises does not become 0. *)
Definition node_told_ok (n : binder_node) : Prop :=
  (n_has_strong_ref n = true → n_has_weak_ref n = true) ∧
  is_s32 (n_local_weak_refs n) ∧ is_s32 (n_local_strong_refs n) ∧
  (n_has_weak_ref n = false → n_local_weak_refs n ≠ -1) ∧
  (n_has_strong_ref n = false → n_local_strong_refs n ≠ -1).

Ltac split_or_done := solve [by split_and! | left; by split_and! | right; split_or_done].

Lemma node_command_told n : node_told_ok n → node_told_ok (snd (node_command n)).
Proof.
  intros (Hsw & Hlw & Hls & Hw & Hs). unfold node_command.
  assert (Hnw : node_weak n = false → n_local_weak_refs n ≠ -1 ∧ node_strong n = false).
  { unfold node_weak. rewrite !orb_false_iff, !negb_false_iff, Z.eqb_eq. intros [[_ ->] ->]. by split. }
  assert (Hns : node_strong n = false → n_local_strong_refs n ≠ -1).
  { unfold node_strong. rewrite orb_false_iff, !negb_false_iff, !Z.eqb_eq. by intros [_ ->]. }
  destruct (node_weak n) eqn:W, (n_has_weak_ref n) eqn:HW, (node_strong n) eqn:S, (n_has_strong_ref n) eqn:HS; simpl;
    unfold node_told_ok; simpl; rewrite ?HW, ?HS; split_and!; try done; try apply s32_range; naive_solver.
Qed.

Lemma node_command_flags n :
  node_told_ok n →
  let '(cmd, n') := node_command n in
  node_told_ok n' ∧ node_weak n' = node_weak n ∧ node_strong n' = node_strong n ∧
  (cmd = BR_NOOP ∧ n' = n ∧ told n = (node_weak n, node_strong n) ∨
   cmd = BR_INCREFS ∧ node_weak n = true ∧ told n = (false, false) ∧ told n' = (true, false) ∨
   cmd = BR_ACQUIRE ∧ node_strong n = true ∧ told n = (true, false) ∧ told n' = (true, true) ∨
   cmd = BR_RELEASE ∧ node_strong n = false ∧ told n = (true, true) ∧ told n' = (true, false) ∨
   cmd = BR_DECREFS ∧ node_weak n = false ∧ node_strong n = false ∧ told n = (true, false) ∧ told n' = (false, false)).
Proof.
  intros Hn. pose proof (node_command_told n Hn) as Hn'. destruct (node_command n) as [cmd m] eqn:Em.
  split; [exact Hn'|]. revert Em. clear Hn'. destruct Hn as (Hsw & Hlw & Hls & Hmw & Hms).
  assert (Hws : node_strong n = true → node_weak n = true) by (unfold node_weak; intros ->; apply orb_true_r).
  assert (Ew : n_has_weak_ref n = false → node_weak (n <| n_has_weak_ref := true |> <| n_pending_weak_ref := true |> <| n_local_weak_refs %= int_inc |>) = true).
  { intros HW. unfold node_weak. simpl. destruct (Z.eqb_spec (int_inc (n_local_weak_refs n)) 0) as [E|]; [|by rewrite orb_true_r].
    by destruct (Hmw HW (int_inc_zero _ Hlw E)). }
  assert (Es : n_has_strong_ref n = false → node_strong (n <| n_has_strong_ref := true |> <| n_pending_strong_ref := true |> <| n_local_strong_refs %= int_inc |>) = true).
  { intros HS. unfold node_strong. simpl. destruct (Z.eqb_spec (int_inc (n_local_strong_refs n)) 0) as [E|]; [|by rewrite orb_true_r].
    by destruct (Hms HS (int_inc_zero _ Hls E)). }
  assert (Ews : n_has_strong_ref n = false → node_weak (n <| n_has_strong_ref := true |> <| n_pending_strong_ref := true |> <| n_local_strong_refs %= int_inc |>) = true)
    by (intros HS; unfold node_weak; rewrite (Es HS); apply orb_true_r).
  unfold node_command, told.
  destruct (n_has_strong_ref n) eqn:HS; [pose proof (Hsw eq_refl) as HW|destruct (n_has_weak_ref n) eqn:HW]; rewrite ?HW;
    (destruct (node_strong n) eqn:S; [pose proof (Hws eq_refl) as W|destruct (node_weak n) eqn:W]); rewrite ?W; simpl;
    intros [= <- <-]; (split; [auto|]); (split; [auto|]); simpl; rewrite ?HS, ?HW; split_or_done.
Qed.

(** How many counts the process is wrong about. *)
Definition untold (n : binder_node) : nat :=
  (if bool_decide (n_has_weak_ref n = node_weak n) then 0 else 1) +
  (if bool_decide (n_has_strong_ref n = node_strong n) then 0 else 1).

(** A command about a node comes in order, and leaves one thing less untold. *)
Lemma node_command_untold n cmd n' :
  node_told_ok n → node_command n = (cmd, n') →
  cmd = BR_NOOP ∧ n' = n ∧ told n = (node_weak n, node_strong n) ∨
  (cmd =? BR_NOOP) = false ∧ obey cmd (told n) = Some (told n') ∧ S (untold n') = untold n.
Proof.
  intros Hn Ec. pose proof (node_command_flags n Hn) as Hc. rewrite Ec in Hc. destruct Hc as (Hn' & Ew & Es & Hcases).
  destruct Hcases as [H|Hcases]; [by left|right]. unfold untold. rewrite Ew, Es. unfold told in *.
  destruct Hcases as [(-> & W & T & T')|[(-> & W & T & T')|[(-> & W & T & T')|(-> & W & W' & T & T')]]];
    rewrite T, T'; injection T as -> ->; injection T' as -> ->; rewrite W, ?W'; split_and!; try done;
    destruct (node_weak n), (node_strong n); done.
Qed.

Lemma settle_ok fuel n :
  node_told_ok n → (untold n <= fuel)%nat →
  let '(cmds, n') := settle fuel n in
  node_told_ok n' ∧ obey_all cmds (told n) = Some (told n') ∧ told n' = (node_weak n, node_strong n) ∧
  node_weak n' = node_weak n ∧ node_strong n' = node_strong n ∧ (length cmds <= fuel)%nat ∧
  node_command n' = (BR_NOOP, n').
Proof.
  revert n. induction fuel as [|fuel IH]; intros n Hn Hu; simpl; pose proof (node_command_flags n Hn) as Hc;
    destruct (node_command n) as [cmd n'] eqn:Ec; destruct Hc as (Hn' & Ew & Es & Hcases).
  - assert (told n = (node_weak n, node_strong n)) as Ht.
    { unfold untold, told in *. repeat case_bool_decide; (lia || congruence). }
    destruct Hcases as [(-> & -> & _)|Hcases]; [rewrite Z.eqb_refl; by split_and!|exfalso].
    rewrite Ht in Hcases. destruct (node_weak n), (node_strong n); naive_solver.
  - destruct (node_command_untold n cmd n' Hn Ec) as [(-> & -> & Ht)|(-> & Eo & Eu)];
      [rewrite Z.eqb_refl; split_and!; try done; simpl; lia|].
    specialize (IH n' Hn' ltac:(lia)). destruct (settle fuel n') as [cmds n''].
    destruct IH as (I1 & I2 & I3 & I4 & I5 & I6 & I7). split_and!; try done; try congruence; [|simpl; lia].
    change (foldl (λ v cmd, v ≫= obey cmd) (obey cmd (told n)) cmds = Some (told n'')). rewrite Eo. exact I2.
Qed.

(** For a node whose process knows of a weak count whenever it knows of a
    strong one, [binder_thread_read] sends at most two commands before it has
    nothing more to say.  Each comes in an order the process can obey
    ([BR_INCREFS] before [BR_ACQUIRE], [BR_RELEASE] before [BR_DECREFS], none
    repeated), and then the process holds a weak, a strong count exactly when
    the node is referenced weakly, strongly. *)
Theorem node_command_protocol n :
  node_told_ok n →
  let '(cmds, n') := settle 2 n in
  node_command n' = (BR_NOOP, n') ∧ (length cmds <= 2)%nat ∧
  obey_all cmds (told n) = Some (node_weak n, node_strong n) ∧
  told n' = (node_weak n', node_strong n') ∧ node_told_ok n'.
Proof.
  intros Hn. assert (Hu : (untold n <= 2)%nat) by (unfold untold; repeat case_bool_decide; lia).
  pose proof (settle_ok 2 n Hn Hu) as H. destruct (settle 2 n) as [cmds n'].
  destruct H as (I1 & I2 & I3 & I4 & I5 & I6 & I7). split_and!; try done; congruence.
Qed.

(** A node that has just got its first reference, a strong one. *)
Definition new_strong_node : binder_node := zero_node <| n_refs := [1] |> <| n_internal_strong_refs := 1 |>.

Lemma node_command_protocol_witness :
  fst (settle 2 new_strong_node) = [BR_INCREFS; BR_ACQUIRE] ∧
  obey_all (fst (settle 2 new_strong_node)) (false, false) = Some (true, true).
Proof.
  split; [reflexivity|].
  pose proof (node_command_protocol new_strong_node ltac:(unfold node_told_ok, is_s32; split_and!; simpl; done)) as H.
  destruct (settle 2 new_strong_node) as [cmds n'] eqn:E. destruct H as (_ & _ & H & _). exact H.
Defined.

(** ** Looper threads *)

(** What the driver records of a thread that serves its process, and of the
    threads it asked the process for. *)
Record looper : Type := mk_looper {
  lp_registered : bool;
  lp_entered : bool;
  lp_exited : bool;
  lp_invalid : bool;
  lp_requested : Z;
  lp_started : Z
}.

Inductive looper_cmd : Type := register_looper | enter_looper | exit_looper.

(** The rules: a thread enters by itself, or registers because it was asked for;
    never both, and each request is answered by one thread. *)
Definition looper_rule (s : looper) (c : looper_cmd) : looper :=
  match c with
  | register_looper =>
      let welcome := negb (lp_entered s) && negb (lp_requested s =? 0) in
      mk_looper true (lp_entered s) (lp_exited s) (lp_invalid s || negb welcome)
        (if welcome then lp_requested s - 1 else lp_requested s) (if welcome then lp_started s + 1 else lp_started s)
  | enter_looper =>
      mk_looper (lp_registered s) true (lp_exited s) (lp_invalid s || lp_registered s) (lp_requested s) (lp_started s)
  | exit_looper => mk_looper (lp_registered s) (lp_entered s) true (lp_invalid s) (lp_requested s) (lp_started s)
  end.

Definition looper_of (th : binder_thread) (pr : binder_proc) : looper :=
  mk_looper (has_flag (t_looper th) BINDER_LOOPER_STATE_REGISTERED)
    (has_flag (t_looper th) BINDER_LOOPER_STATE_ENTERED) (has_flag (t_looper th) BINDER_LOOPER_STATE_EXITED)
    (has_flag (t_looper th) BINDER_LOOPER_STATE_INVALID) (p_requested_threads pr) (p_requested_threads_started pr).

Section looper.
Context {AR : Arch} {RB : RBOps} {KR : Kernel}.

Definition looper_code (c : looper_cmd) : Z :=
  match c with
  | register_looper => BC_REGISTER_LOOPER
  | enter_looper => BC_ENTER_LOOPER
  | exit_looper => BC_EXIT_LOOPER
  end.

(** The thread and its process in state [s], everything else as in [k]. *)
Definition looper_state (p thread : Z) (s : looper) (k : kernel) : Prop :=
  ∃ th pr, k_threads k !! thread = Some th ∧ k_procs k !! p = Some pr ∧ looper_of th pr = s.

Ltac flags :=
  unfold looper_of, looper_rule; simpl;
  repeat match goal with
  | |- context [has_flag (Z.lor ?m ?x) ?f] =>
      rewrite (flag_lor m f x) by reflexivity; let b := eval vm_compute in (m =? f) in change (m =? f) with b
  end; rewrite ?orb_true_l, ?orb_false_l.

Lemma set_looper_ok thread f k th :
  k_threads k !! thread = Some th →
  set_looper thread f k = Ok (tt, k <| k_threads := <[thread := th <| t_looper %= f |>]> (k_threads k) |>).
Proof. intros Ht. exact (set_obj_ok k_threads k thread (λ t, t <| t_looper %= f |>) th Ht). Qed.

(** An error of user space changes neither threads nor processes. *)
Lemma user_error_ok k : ∃ e, binder_user_error k = Ok (tt, k <| k_stop_on_user_error := e |>).
Proof.
  exists (if k_stop_on_user_error k =? 0 then k_stop_on_user_error k else 2). unfold binder_user_error, modify.
  by destruct (_ =? 0); destruct k.
Qed.

Lemma set_looper_state p thread f k th pr :
  k_threads k !! thread = Some th → k_procs k !! p = Some pr →
  ∃ k', (set_looper thread f ;; next_command) k = Ok (inr tt, k') ∧
    looper_state p thread (looper_of (th <| t_looper %= f |>) pr) k'.
Proof.
  intros Ht Hp. rewrite (st_bind_eq _ _ _ _ _ (set_looper_ok thread f k th Ht)). eexists. split; [done|].
  eexists _, pr. split; [apply lookup_insert_eq|done].
Qed.

Lemma looper_command_ok p thread ptr c s k :
  looper_state p thread s k →
  ∃ k', write_command p thread (looper_code c) ptr k = Ok (inr tt, k') ∧ looper_state p thread (looper_rule s c) k'.
Proof.
  intros (th & pr & Ht & Hp & <-).
  assert (Herr : ∀ f g, ∃ k', ((set_looper thread f ;; binder_user_error) ;; set_looper thread g ;; next_command) k
      = Ok (inr tt, k') ∧ looper_state p thread (looper_of (th <| t_looper %= λ l, g (f l) |>) pr) k').
  { intros f g. set (k1 := k <| k_threads := <[thread := th <| t_looper %= f |>]> (k_threads k) |>).
    destruct (user_error_ok k1) as [e Ee]. set (k2 := k1 <| k_stop_on_user_error := e |>).
    rewrite (st_bind_eq _ _ k tt k2) by by rewrite (st_bind_eq _ _ _ _ _ (set_looper_ok thread f k th Ht)).
    destruct (set_looper_state p thread g k2 (th <| t_looper %= f |>) pr (lookup_insert_eq _ _ _) Hp) as (k' & E & Hs).
    exists k'. split; [exact E|exact Hs]. }
  destruct c; simpl looper_code.
  - change (write_command p thread BC_REGISTER_LOOPER ptr) with (write_register_looper p thread).
    unfold write_register_looper. rewrite (st_bind_eq _ _ _ _ _ (obj_ok k_threads k thread th Ht)).
    rewrite (st_bind_eq _ _ _ _ _ (obj_ok k_procs k p pr Hp)).
    destruct (has_flag (t_looper th) BINDER_LOOPER_STATE_ENTERED) eqn:He;
      [|destruct (Z.eqb_spec (p_requested_threads pr) 0) as [Hr|Hr]].
    + destruct (Herr (Z.lor BINDER_LOOPER_STATE_INVALID) (Z.lor BINDER_LOOPER_STATE_REGISTERED)) as (k' & E & Hs).
      exists k'. split; [exact E|]. revert Hs. flags. by rewrite He, orb_true_r.
    + destruct (Herr (Z.lor BINDER_LOOPER_STATE_INVALID) (Z.lor BINDER_LOOPER_STATE_REGISTERED)) as (k' & E & Hs).
      exists k'. split; [exact E|]. revert Hs. flags. by rewrite He, Hr, orb_true_r.
    + set (pr' := pr <| p_requested_threads %= Z.pred |> <| p_requested_threads_started %= Z.add 1 |>).
      set (k1 := k <| k_procs := <[p := pr']> (k_procs k) |>).
      rewrite (st_bind_eq _ _ k tt k1) by exact (set_obj_ok k_procs k p
        (λ pr, pr <| p_requested_threads %= Z.pred |> <| p_requested_threads_started %= Z.add 1 |>) pr Hp).
      destruct (set_looper_state p thread (Z.lor BINDER_LOOPER_STATE_REGISTERED) k1 th pr' Ht (lookup_insert_eq _ _ _)) as (k' & E & Hs).
      exists k'. split; [exact E|]. revert Hs. flags. destruct (Z.eqb_spec (p_requested_threads pr) 0); [done|].
      rewrite He, orb_false_r. simpl. by rewrite Z.sub_1_r, Z.add_comm.
  - change (write_command p thread BC_ENTER_LOOPER ptr) with (write_enter_looper thread).
    unfold write_enter_looper. rewrite (st_bind_eq _ _ _ _ _ (obj_ok k_threads k thread th Ht)).
    destruct (has_flag (t_looper th) BINDER_LOOPER_STATE_REGISTERED) eqn:He; simpl.
    + destruct (Herr (Z.lor BINDER_LOOPER_STATE_INVALID) (Z.lor BINDER_LOOPER_STATE_ENTERED)) as (k' & E & Hs).
      exists k'. split; [exact E|]. revert Hs. flags. by rewrite He, orb_true_r.
    + destruct (set_looper_state p thread (Z.lor BINDER_LOOPER_STATE_ENTERED) k th pr Ht Hp) as (k' & E & Hs).
      exists k'. split; [exact E|]. revert Hs. flags. by rewrite He, orb_false_r.
  - change (write_command p thread BC_EXIT_LOOPER ptr) with (write_exit_looper thread).
    destruct (set_looper_state p thread (Z.lor BINDER_LOOPER_STATE_EXITED) k th pr Ht Hp) as (k' & E & Hs).
    exists k'. split; [exact E|]. revert Hs. by flags.
Qed.

(** A thread sending commands one after the other. *)
Fixpoint looper_commands (p thread ptr : Z) (cmds : list looper_cmd) : K (list (Z + unit)) :=
  match cmds with
  | [] => mret []
  | c :: cmds' =>
      r ← write_command p thread (looper_code c) ptr;
      rs ← looper_commands p thread ptr cmds';
      mret (r :: rs)
  end.

(** What holds of every thread that starts without flags. *)
Definition looper_consistent (s : looper) : Prop :=
  (lp_registered s = true → lp_entered s = true → lp_invalid s = true) ∧ 0 <= lp_requested s.

Lemma looper_rule_consistent s c :
  looper_consistent s →
  looper_consistent (looper_rule s c) ∧ lp_requested (looper_rule s c) + lp_started (looper_rule s c) = lp_requested s + lp_started s.
Proof.
  intros [H1 H2]. unfold looper_consistent.
  destruct c, (lp_registered s) eqn:R, (lp_entered s) eqn:E; simpl; rewrite ?R, ?E, ?orb_true_r; simpl;
    destruct (Z.eqb_spec (lp_requested s) 0); simpl; rewrite ?orb_true_r, ?orb_false_r; split_and!; try done; try lia; auto.
Qed.

Lemma looper_rules_consistent cmds s :
  looper_consistent s →
  let s' := foldl looper_rule s cmds in
  looper_consistent s' ∧ lp_requested s' + lp_started s' = lp_requested s + lp_started s.
Proof.
  revert s. induction cmds as [|c cmds IH]; intros s Hs; simpl; [done|].
  destruct (looper_rule_consistent s c Hs) as [Hs' E]. destruct (IH _ Hs') as [? ?]. split; [done|lia].
Qed.

(** C29: the looper commands, in any order, are always accepted and move the
    flags and the counters of the thread and its process by the rules above.  A
    thread that both registered and entered is marked invalid; a request for a
    thread is never answered twice: requested and started threads add up to the
    same number, and the requested ones never drop below zero. *)
Theorem looper_protocol p thread ptr cmds s k :
  looper_state p thread s k → looper_consistent s →
  ∃ k' s', looper_commands p thread ptr cmds k = Ok (replicate (length cmds) (inr tt), k') ∧
    looper_state p thread s' k' ∧ s' = foldl looper_rule s cmds ∧ looper_consistent s' ∧
    lp_requested s' + lp_started s' = lp_requested s + lp_started s.
Proof.
  intros Hk Hs. destruct (looper_rules_consistent cmds s Hs) as [H1 H2].
  assert (H : ∃ k', looper_commands p thread ptr cmds k = Ok (replicate (length cmds) (inr tt), k') ∧
    looper_state p thread (foldl looper_rule s cmds) k'); [|destruct H as (k' & ? & ?); by eexists k', _].
  clear Hs H1 H2. revert s k Hk. induction cmds as [|c cmds IH]; intros s k Hk; simpl; [by exists k|].
  destruct (looper_command_ok p thread ptr c s k Hk) as (k1 & E1 & Hk1). rewrite (st_bind_eq _ _ _ _ _ E1).
  destruct (IH _ _ Hk1) as (k2 & E2 & Hk2). rewrite (st_bind_eq _ _ _ _ _ E2). by exists k2.
Qed.
End looper.

Module LooperDemo.
Import Example.

Lemma server_thread : looper_state server 100001 (mk_looper false true false false 0 0) started.
Proof.
  destruct (k_threads started !! 100001) as [th|] eqn:Et; [|vm_compute in Et; discriminate].
  destruct (k_procs started !! server) as [pr|] eqn:Ep; [|vm_compute in Ep; discriminate].
  exists th, pr. split_and!; [done|done|]. vm_compute in Et, Ep. injection Et as <-. injection Ep as <-. reflexivity.
Qed.

(** A thread that entered and then registers is invalid. *)
Lemma looper_protocol_witness :
  ∃ k', looper_commands server 100001 4096 [register_looper; exit_looper] started = Ok ([inr tt; inr tt], k') ∧
    looper_state server 100001 (mk_looper true true true true 0 0) k'.
Proof.
  destruct (looper_protocol server 100001 4096 [register_looper; exit_looper] _ started server_thread) as
    (k' & s' & E & Hs & -> & _); [split; simpl; [discriminate|lia]|].
  exists k'. split; [exact E|exact Hs].
Defined.
End LooperDemo.
