(* ===== verification/BinderFrames.v ===== *)
(** What computations answer and what they leave alone: postconditions and
    frames of the driver's functions, by composition. *)
From S2P Require Import Prelude RBTree BinderAlloc BinderUapi BinderState BinderKernel BinderObject BinderTransaction BinderWrite BinderRead BinderLifecycle.

(** ** Answers *)

(** Whatever [m] returns satisfies [Q]. *)
Definition answers {S A} (Q : A → Prop) (m : ST S A) : Prop := ∀ s a s', m s = Ok (a, s') → Q a.

Section answers.
Context {S : Type}.

Lemma answers_ret {A} (Q : A → Prop) a : Q a → answers (S := S) Q (mret a).
Proof. by intros Ha s b s' [= <- _]. Qed.

Lemma answers_fail {A} (Q : A → Prop) o : answers (S := S) Q (fail o).
Proof. by intros s a s'. Qed.

Lemma answers_bind {A B} (Q : B → Prop) (m : ST S A) f : (∀ a, answers Q (f a)) → answers Q (m ≫= f).
Proof. intros Hf s b s' (a & s1 & _ & E)%st_bind_ok. by apply (Hf a s1 b s'). Qed.

(** With what is known of the first answer. *)
Lemma answers_bind_with {A B} (P : A → Prop) (Q : B → Prop) (m : ST S A) f :
  answers P m → (∀ a, P a → answers Q (f a)) → answers Q (m ≫= f).
Proof. intros Hm Hf s b s' (a & s1 & E1 & E)%st_bind_ok. apply (Hf a (Hm _ _ _ E1) s1 b s' E). Qed.
End answers.

(** Walks through a computation to what it returns. *)
Ltac answer_step :=
  match goal with
  | |- answers _ (mret _) => apply answers_ret
  | |- answers _ (fail _) => apply answers_fail
  | |- answers _ (mbind _ _) => apply answers_bind; intro
  | |- answers _ (if ?b then _ else _) => destruct b
  | |- answers _ (match ?x with _ => _ end) => destruct x
  | |- answers _ (let _ := _ in _) => cbv zeta
  end.

(** ** Frames *)

(** Every run of [m] goes from a state to one that [R] relates to it, and
    returns what satisfies [Q]. *)
Definition runs {S A} (R : S → S → Prop) (Q : A → Prop) (m : ST S A) : Prop :=
  ∀ s a s', m s = Ok (a, s') → R s s' ∧ Q a.
Notation keeps R m := (runs R (λ _, True) m).

Section runs.
Context {S : Type} (R : S → S → Prop) `{!PreOrder R}.

Lemma runs_ret {A} (Q : A → Prop) a : Q a → runs R Q (mret a).
Proof. by intros Ha s b s' [= <- <-]. Qed.

Lemma runs_fail {A} (Q : A → Prop) o : runs R Q (fail o : ST S A).
Proof. by intros s a s'. Qed.

Lemma runs_bind {A B} (P : A → Prop) (Q : B → Prop) (m : ST S A) f :
  runs R P m → (∀ a, P a → runs R Q (f a)) → runs R Q (m ≫= f).
Proof.
  intros Hm Hf s b s' (a & s1 & E1 & E2)%st_bind_ok. destruct (Hm _ _ _ E1) as [H1 Ha].
  destruct (Hf a Ha _ _ _ E2) as [H2 Hb]. split; [by etrans|done].
Qed.

(** A step whose answer does not matter. *)
Lemma runs_step {A B} (Q : B → Prop) (m : ST S A) f : keeps R m → (∀ a, runs R Q (f a)) → runs R Q (m ≫= f).
Proof. intros Hm Hf. by apply (runs_bind (λ _, True)). Qed.

Lemma runs_impl {A} (P Q : A → Prop) (m : ST S A) : runs R P m → (∀ a, P a → Q a) → runs R Q m.
Proof. intros Hm HPQ s a s' E. destruct (Hm _ _ _ E). auto. Qed.

Lemma keeps_gets {A} (f : S → A) : keeps R (gets f).
Proof. by intros s b s' [= _ <-]. Qed.

Lemma keeps_modify f : (∀ s, R s (f s)) → keeps R (modify f).
Proof. intros Hf s b s' [= _ <-]. by split. Qed.

Lemma keeps_bug_on b : keeps R (bug_on b).
Proof. destruct b; [apply runs_fail|by apply runs_ret]. Qed.

Lemma keeps_when b m : keeps R m → keeps R (when b m).
Proof. intros Hm. destruct b; [done|by apply runs_ret]. Qed.

Lemma keeps_the {A} o (x : option A) : keeps R (the o x).
Proof. destruct x; [by apply runs_ret|apply runs_fail]. Qed.

Lemma keeps_for_each {A} (f : A → ST S unit) l : (∀ a, keeps R (f a)) → keeps R (for_each f l).
Proof. intros Hf. induction l; simpl; [by apply runs_ret|]. apply runs_step; auto. Qed.
End runs.

Create HintDb keeps.

(** Walks through a computation; the leaves are those of the database [keeps]. *)
Ltac keep_step :=
  match goal with
  | |- True => exact I
  | |- PreOrder _ => tc_solve
  | |- runs _ _ (mret _) => apply runs_ret
  | |- runs _ _ (fail _) => apply runs_fail
  | |- keeps _ (gets _) => apply keeps_gets
  | |- keeps _ (bug_on _) => apply keeps_bug_on
  | |- keeps _ (when _ _) => apply keeps_when
  | |- keeps _ (the _ _) => apply keeps_the
  | |- keeps _ (for_each _ _) => apply keeps_for_each; intro
  | |- keeps _ _ => solve [auto with keeps nocore]
  | |- runs _ _ (mbind _ _) => apply runs_step; [tc_solve| |intro]
  | |- runs _ _ (if ?b then _ else _) => destruct b
  | |- runs _ _ (match ?x with _ => _ end) => destruct x
  | |- runs _ _ (let _ := _ in _) => cbv zeta
  end.
Ltac keep := repeat keep_step.

(** ** Steps of the driver that leave user memory alone *)

(** Relations that do not see the rest of the state. *)
Class UserFrame (R : kernel → kernel → Prop) : Prop := {
  user_frame_order :: PreOrder R;
  user_frame k k' : k_user k' = k_user k → R k k'
}.

Section user.
Context {AR : Arch} {RB : RBOps} {KR : Kernel} (R : kernel → kernel → Prop) `{!UserFrame R}.

Lemma uf_modify f : (∀ k, k_user (f k) = k_user k) → keeps R (modify f).
Proof. intros Hf. apply keeps_modify. intros k. by apply user_frame. Qed.

Lemma uf_obj {T} (m : kernel → gmap Z T) a : keeps R (obj m a).
Proof. unfold obj. keep. Qed.

Lemma uf_set_obj {T} (m : kernel → gmap Z T) `{!Field m} a f :
  (∀ g k, k_user (update m g k) = k_user k) → keeps R (set_obj m a f).
Proof. intros Hm. unfold set_obj. apply (runs_step R); [apply uf_obj|]. intros x. apply uf_modify. intros k. apply Hm. Qed.

Lemma uf_free_obj {T} (m : kernel → gmap Z T) `{!Field m} a :
  (∀ g k, k_user (update m g k) = k_user k) → keeps R (free_obj m a).
Proof. intros Hm. unfold free_obj. apply (runs_step R); [apply uf_obj|]. intros x. apply uf_modify. intros k. apply Hm. Qed.
End user.

(** The single updates of the driver; any other function of it is unfolded. *)
Ltac user_update :=
  match goal with
  | |- UserFrame _ => tc_solve
  | |- keeps _ (obj _ _) => apply uf_obj; tc_solve
  | |- keeps _ (modify _) => apply uf_modify; [tc_solve|intros; repeat case_match; reflexivity]
  | |- keeps _ (set_obj _ _ _) => apply uf_set_obj; [tc_solve|reflexivity]
  | |- keeps _ (free_obj _ _) => apply uf_free_obj; [tc_solve|reflexivity]
  end.
Ltac user_unfold := match goal with |- keeps _ ?m => let h := get_head m in unfold h end.
Ltac user_keep := repeat first [keep_step|user_update|user_unfold].

Section user_calls.
Context {AR : Arch} {RB : RBOps} {KR : Kernel} (R : kernel → kernel → Prop) `{!UserFrame R}.

Lemma uf_on_alloc {A} p (m : ST alloc A) : keeps R (on_alloc p m).
Proof. user_keep. Qed.

Lemma uf_stat_br p thread cmd : keeps R (binder_stat_br p thread cmd).
Proof. user_keep. Qed.

Lemma uf_get_buffer b : keeps R (get_buffer b).
Proof. unfold get_buffer. repeat first [keep_step|apply uf_on_alloc]; tc_solve. Qed.

Lemma uf_set_buffer b f : keeps R (set_buffer b f).
Proof. unfold set_buffer. repeat first [keep_step|apply uf_on_alloc]; tc_solve. Qed.

Lemma uf_transaction_record p t : keeps R (transaction_record p t).
Proof. unfold transaction_record. repeat first [keep_step|apply uf_get_buffer|user_update|user_unfold]. Qed.

Lemma uf_transaction_received th t cmd : keeps R (transaction_received th t cmd).
Proof. unfold transaction_received. repeat first [keep_step|apply uf_set_buffer|user_update|user_unfold]. Qed.

(** Waiting, when what happens meanwhile leaves the memory alone. *)
Lemma uf_wait e q c : keeps R (wait_event e q) → keeps R c → keeps R (wait_event_interruptible e q c).
Proof. intros Hw Hc. unfold wait_event_interruptible. repeat first [keep_step|exact Hc|exact Hw]. Qed.

Lemma uf_wait_for_work p th w nb : (∀ e q, keeps R (wait_event e q)) → keeps R (wait_for_work p th w nb).
Proof. intros Hw. unfold wait_for_work. repeat first [keep_step|apply uf_wait; [tc_solve|by apply Hw|]|user_update|user_unfold]. Qed.
End user_calls.

(** ** Steps that end *)

(** In no state does [m] run out of fuel. *)
Definition ends {S A} (m : ST S A) : Prop := ∀ s, no_fuel m s.

Section ends.
Context {S : Type}.

Lemma ends_ret {A} (a : A) : ends (S := S) (mret a).
Proof. done. Qed.

Lemma ends_fail {A} o : o ≠ Fuel → ends (S := S) (A := A) (fail o).
Proof. intros Ho s E. by injection E. Qed.

Lemma ends_bind {A B} (m : ST S A) (f : A → ST S B) : ends m → (∀ a, ends (f a)) → ends (m ≫= f).
Proof. intros Hm Hf s. apply no_fuel_bind; [apply Hm|]. intros a s' _. apply Hf. Qed.

Lemma ends_gets {A} (f : S → A) : ends (gets f).
Proof. done. Qed.

Lemma ends_modify (f : S → S) : ends (modify f).
Proof. done. Qed.

Lemma ends_the {A} o (x : option A) : o ≠ Fuel → ends (S := S) (the o x).
Proof. intros Ho. destruct x; [apply ends_ret|by apply ends_fail]. Qed.

Lemma ends_bug_on b : ends (S := S) (bug_on b).
Proof. destruct b; [by apply ends_fail|apply ends_ret]. Qed.

Lemma ends_when b (m : ST S unit) : ends m → ends (when b m).
Proof. by destruct b. Qed.

Lemma ends_for_each {A} (f : A → ST S unit) l : (∀ a, ends (f a)) → ends (for_each f l).
Proof. intros Hf. induction l; simpl; [apply ends_ret|]. apply ends_bind; auto. Qed.
End ends.

Lemma ends_on_alloc {A} p (m : ST alloc A) : ends m → ends (on_alloc p m).
Proof.
  intros Hm. unfold on_alloc, obj. repeat first [apply ends_bind; [|intro]|apply ends_gets|by apply ends_the].
  intros s. match goal with |- no_fuel (match m ?x with _ => _ end) _ => specialize (Hm x); unfold no_fuel in *; destruct (m x) as [[y al]|o] end.
  - done.
  - unfold fail. intros [= ->]. by apply Hm.
Qed.

Lemma obj_ends {T} (m : kernel → gmap Z T) a : ends (obj m a).
Proof. unfold obj. apply ends_bind; [apply ends_gets|intro; by apply ends_the]. Qed.

Create HintDb ends.

(** Walks through a computation without loops. *)
Ltac end_step :=
  match goal with
  | |- ∀ _, ends _ => intro
  | |- ends (mret _) => apply ends_ret
  | |- ends (fail _) => by apply ends_fail
  | |- ends (mbind _ _) => apply ends_bind
  | |- ends (gets _) => apply ends_gets
  | |- ends (modify _) => apply ends_modify
  | |- ends (the _ _) => by apply ends_the
  | |- ends (bug_on _) => apply ends_bug_on
  | |- ends (when _ _) => apply ends_when
  | |- ends (for_each _ _) => apply ends_for_each
  | |- ends (on_alloc _ _) => apply ends_on_alloc
  | |- ends (if ?b then _ else _) => destruct b
  | |- ends (match ?x with _ => _ end) => destruct x
  | |- ends (let _ := _ in _) => cbv zeta
  | |- ends ?m => first [solve [auto with ends nocore]|let h := get_head m in unfold h]
  end.
Ltac end_steps := repeat end_step.
