(* ===== verification/BinderWriteSpec.v ===== *)
(** [binder_thread_write]: a semantics without fuel, in which commands are
    carried out one after the other, and what [*consumed] says of the commands
    that stand in the buffer. *)
From S2P Require Import Prelude RBTree BinderAlloc BinderUapi BinderState BinderKernel BinderObject BinderTransaction BinderWrite BinderRead BinderLifecycle BinderExamples BinderFrames.

(** ** The commands leave user memory alone *)

Section memory.
Context {AR : Arch} {RB : RBOps} {KR : Kernel} (R : kernel → kernel → Prop) `{!UserFrame R}.

Ltac call :=
  match goal with
  | |- PreOrder _ => tc_solve
  | |- UserFrame _ => tc_solve
  | |- keeps _ (for_each _ _) => apply (keeps_for_each R); intro
  | |- keeps _ (on_alloc _ _) => apply uf_on_alloc
  | |- keeps _ (get_buffer _) => apply uf_get_buffer
  | |- keeps _ (set_buffer _ _) => apply uf_set_buffer
  end.
Ltac walk := repeat first [call|keep_step|user_update|user_unfold].

Lemma uf_kzalloc : keeps R kzalloc.
Proof.
  intros k a k' E. split; [|done]. apply user_frame. unfold kzalloc in E.
  repeat case_match; try done; by injection E as _ <-.
Qed.

Lemma uf_get_node p ptr : keeps R (binder_get_node p ptr).
Proof. walk. Qed.
Lemma uf_get_ref p desc : keeps R (binder_get_ref p desc).
Proof. walk. Qed.
Lemma uf_inc_node n strong internal l : keeps R (binder_inc_node n strong internal l).
Proof. walk. Qed.
Lemma uf_dec_node n strong internal : keeps R (binder_dec_node n strong internal).
Proof. walk. Qed.
Lemma uf_inc_ref r strong l : keeps R (binder_inc_ref r strong l).
Proof. unfold binder_inc_ref. repeat first [call|keep_step|apply uf_inc_node|user_update|user_unfold]. Qed.
Lemma uf_dec_ref r strong : keeps R (binder_dec_ref r strong).
Proof. unfold binder_dec_ref, binder_delete_ref. repeat first [call|keep_step|apply uf_dec_node|user_update|user_unfold]. Qed.
Lemma uf_new_node p ptr cookie : keeps R (binder_new_node p ptr cookie).
Proof. unfold binder_new_node. repeat first [call|keep_step|apply uf_kzalloc|user_update|user_unfold]. Qed.
Lemma uf_get_ref_for_node p n : keeps R (binder_get_ref_for_node p n).
Proof. unfold binder_get_ref_for_node. repeat first [call|keep_step|apply uf_kzalloc|user_update|user_unfold]. Qed.

Lemma uf_release_object p failed fp : keeps R (release_object p failed fp).
Proof.
  unfold release_object.
  repeat first [call|keep_step|apply uf_get_node|apply uf_get_ref|apply uf_dec_node|apply uf_dec_ref|user_update|user_unfold].
Qed.

Lemma uf_buffer_release p b failed_at : keeps R (binder_transaction_buffer_release p b failed_at).
Proof.
  assert (∀ f n i, keeps R (release_objects p b f i n)) as H.
  { intros f n. induction n as [|n IH]; intros i; cbn [release_objects]; [walk|].
    repeat first [call|apply uf_release_object|apply IH|keep_step]. }
  unfold binder_transaction_buffer_release. repeat first [call|apply H|apply uf_dec_node|keep_step].
Qed.

Lemma uf_pop_transaction th t : keeps R (binder_pop_transaction th t).
Proof. walk. Qed.

Lemma uf_send_failed_reply t e : keeps R (binder_send_failed_reply t e).
Proof.
  assert (∀ fuel t, keeps R (send_failed_reply_loop fuel t e)) as H.
  { induction fuel as [|fuel IH]; intros t'; cbn [send_failed_reply_loop]; [walk|].
    repeat first [call|apply uf_pop_transaction|apply IH|keep_step|user_update|user_unfold]. }
  unfold binder_send_failed_reply. repeat first [call|apply H|keep_step|user_update].
Qed.

Lemma uf_find_waiting_thread fuel tmp p th : keeps R (find_waiting_thread fuel tmp p th).
Proof.
  revert tmp th. induction fuel as [|fuel IH]; intros tmp th; simpl;
    repeat first [call|apply IH|keep_step|user_update].
Qed.

Lemma uf_translate_object p thread reply tg b off fp : keeps R (translate_object p thread reply tg b off fp).
Proof.
  unfold translate_object, translate_binder, translate_handle, translate_fd.
  repeat first [call|apply uf_get_node|apply uf_new_node|apply uf_get_ref|apply uf_get_ref_for_node|apply uf_inc_ref
               |apply uf_inc_node|keep_step|user_update|user_unfold].
Qed.

Lemma uf_translate_objects p thread reply tg b i n : keeps R (translate_objects p thread reply tg b i n).
Proof.
  revert i. induction n as [|n IH]; intros i; cbn [translate_objects]; [walk|].
  repeat first [call|apply uf_translate_object|apply IH|keep_step|user_update|user_unfold].
Qed.

Lemma uf_transaction p thread tr reply : keeps R (binder_transaction p thread tr reply).
Proof.
  unfold binder_transaction, send_transaction, fill_buffer.
  repeat first [call|apply uf_kzalloc|apply uf_find_waiting_thread|apply uf_get_ref|apply uf_send_failed_reply
               |apply uf_pop_transaction|apply uf_translate_objects|apply uf_buffer_release|apply uf_inc_node
               |keep_step|user_update|user_unfold].
Qed.

Lemma uf_stat_command f `{!Field f} n p thread cmd : keeps R (stat_command f n p thread cmd).
Proof. walk. Qed.

Lemma uf_write_command p thread cmd ptr : keeps R (write_command p thread cmd ptr).
Proof.
  unfold write_command.
  repeat first [call|apply uf_kzalloc|apply uf_get_node|apply uf_get_ref|apply uf_get_ref_for_node|apply uf_inc_ref
               |apply uf_dec_ref|apply uf_dec_node|apply uf_buffer_release|apply uf_transaction
               |keep_step|user_update|user_unfold].
Qed.
End memory.

Section spec.
Context {AR : Arch} {RB : RBOps} {KR : Kernel}.

(** A run of the command loop: from [ptr], with [consumed] bytes behind, to an
    answer and a number of bytes. *)
Inductive writes (p thread buffer end_ : Z) : Z → Z → kernel → Z * Z → kernel → Prop :=
| writes_done ptr consumed k th :
    k_threads k !! thread = Some th → (ptr <? end_) && (t_return_error th =? BR_OK) = false →
    writes p thread buffer end_ ptr consumed k (0, consumed) k
| writes_fault ptr consumed k th :
    k_threads k !! thread = Some th → ptr < end_ → t_return_error th = BR_OK →
    get_user ptr k = Ok (None, k) →
    writes p thread buffer end_ ptr consumed k (- EFAULT, consumed) k
| writes_error ptr consumed k th cmd k1 err k2 :
    k_threads k !! thread = Some th → ptr < end_ → t_return_error th = BR_OK →
    get_user ptr k = Ok (Some cmd, k) →
    stat_command st_bc bc_count p thread cmd k = Ok (tt, k1) →
    write_command p thread cmd (uadd ptr 4) k1 = Ok (inl err, k2) →
    writes p thread buffer end_ ptr consumed k (err, consumed) k2
| writes_next ptr consumed k th cmd k1 k2 r k' :
    k_threads k !! thread = Some th → ptr < end_ → t_return_error th = BR_OK →
    get_user ptr k = Ok (Some cmd, k) →
    stat_command st_bc bc_count p thread cmd k = Ok (tt, k1) →
    write_command p thread cmd (uadd ptr 4) k1 = Ok (inr tt, k2) →
    let ptr' := uadd (uadd ptr 4) (command_size cmd) in
    writes p thread buffer end_ ptr' (ptr' - buffer) k2 r k' →
    writes p thread buffer end_ ptr consumed k r k'.

Lemma get_user_state addr k w k' : get_user addr k = Ok (w, k') → k' = k.
Proof. by intros [= _ ->]. Qed.

Lemma command_size_range cmd : 0 <= command_size cmd <= 40.
Proof. unfold command_size, sizeof_transaction_data. repeat case_match; lia. Qed.

Lemma write_loop_sound fuel p thread buffer end_ ptr consumed k r k' :
  write_loop fuel p thread buffer end_ ptr consumed k = Ok (r, k') → writes p thread buffer end_ ptr consumed k r k'.
Proof.
  revert ptr consumed k. induction fuel as [|fuel IH]; intros ptr consumed k; simpl; [done|].
  intros (th & k0 & [Ht ->]%obj_inv & E)%st_bind_ok.
  destruct ((ptr <? end_) && (t_return_error th =? BR_OK)) eqn:Ec; [|injection E as <- <-; by eapply writes_done].
  apply andb_true_iff in Ec as [Hp%Z.ltb_lt He%Z.eqb_eq].
  apply st_bind_ok in E as (w & k0 & Ew & E). pose proof (get_user_state _ _ _ _ Ew) as ->.
  destruct w as [cmd|]; [|injection E as <- <-; by eapply writes_fault].
  apply st_bind_ok in E as ([] & k1 & Es & (r1 & k2 & Er & E)%st_bind_ok).
  destruct r1 as [err|[]]; [injection E as <- <-; by eapply writes_error|].
  eapply writes_next; eauto.
Qed.

Lemma write_loop_complete fuel p thread buffer end_ ptr consumed k r k' :
  writes p thread buffer end_ ptr consumed k r k' →
  (0 <= ptr)%Z → end_ + 44 <= 2 ^ (8 * word) → (Z.to_nat (end_ - ptr) < fuel)%nat →
  write_loop fuel p thread buffer end_ ptr consumed k = Ok (r, k').
Proof.
  intros Hw. revert fuel.
  induction Hw as [ptr c k th Ht Hc|ptr c k th Ht Hp He Hu|ptr c k th cmd k1 err k2 Ht Hp He Hu Hs Hc
                  |ptr c k th cmd k1 k2 r k' Ht Hp He Hu Hs Hc ptr' _ IH];
    intros [|fuel] H0 Hend Hf; try lia; simpl; rewrite (st_bind_eq _ _ _ _ _ (obj_ok k_threads k thread th Ht)).
  - by rewrite Hc.
  - rewrite (proj2 (Z.ltb_lt _ _) Hp), He, Z.eqb_refl. simpl. by rewrite (st_bind_eq _ _ _ _ _ Hu).
  - rewrite (proj2 (Z.ltb_lt _ _) Hp), He, Z.eqb_refl. simpl.
    by rewrite (st_bind_eq _ _ _ _ _ Hu), (st_bind_eq _ _ _ _ _ Hs), (st_bind_eq _ _ _ _ _ Hc).
  - rewrite (proj2 (Z.ltb_lt _ _) Hp), He, Z.eqb_refl. simpl.
    rewrite (st_bind_eq _ _ _ _ _ Hu), (st_bind_eq _ _ _ _ _ Hs), (st_bind_eq _ _ _ _ _ Hc).
    pose proof (command_size_range cmd).
    assert (Ep : ptr' = ptr + 4 + command_size cmd).
    { unfold ptr', uadd, usz. rewrite (Z.mod_small (ptr + 4)) by lia. apply Z.mod_small. lia. }
    apply IH; [lia|done|]. rewrite Ep. lia.
Qed.

(** ** Errors *)

Definition write_answer (r : Z + unit) : Prop := r = inr tt ∨ r = inl (- EFAULT) ∨ r = inl (- EINVAL).

Lemma answers_with_user ptr f : (∀ w, answers write_answer (f w)) → answers write_answer (with_user ptr f).
Proof. intros Hf. unfold with_user. repeat answer_step; [done|]. right. by left. Qed.

Lemma answers_next : answers write_answer next_command.
Proof. apply answers_ret. by left. Qed.

Lemma answers_request_death p thread ref cookie : answers write_answer (request_death_notification p thread ref cookie).
Proof. unfold request_death_notification. repeat answer_step; apply answers_next. Qed.

Lemma answers_clear_death p thread ref cookie : answers write_answer (clear_death_notification p thread ref cookie).
Proof. unfold clear_death_notification. repeat answer_step; apply answers_next. Qed.

Lemma write_command_answer p thread cmd ptr : answers write_answer (write_command p thread cmd ptr).
Proof.
  unfold write_command. repeat case_match; unfold write_refs, write_refs_done, write_free_buffer, write_transaction,
    write_register_looper, write_enter_looper, write_exit_looper, write_death_notification, write_dead_binder_done;
    repeat first [apply answers_with_user; intro|apply answers_next|apply answers_request_death
                 |apply answers_clear_death|answer_step]; unfold write_answer; tauto.
Qed.

(** The offsets between commands: behind [n] of them, starting at [o]. *)
Lemma writes_answer p thread buffer end_ ptr consumed k r k' :
  writes p thread buffer end_ ptr consumed k r k' → r.1 = 0 ∨ r.1 = - EFAULT ∨ r.1 = - EINVAL.
Proof.
  induction 1 as [ | |ptr c k th cmd k1 err k2 Ht Hp He Hu Hs Hc| ]; simpl; try tauto.
  destruct (write_command_answer _ _ _ _ _ _ _ Hc) as [?|[[= ->]|[= ->]]]; [done|tauto..].
Qed.

Lemma writes_zero p thread buffer end_ ptr consumed k r k' :
  writes p thread buffer end_ ptr consumed k r k' → r.1 = 0 → consumed = ptr - buffer →
  ∃ th, k_threads k' !! thread = Some th ∧ (end_ <= buffer + r.2 ∨ t_return_error th ≠ BR_OK).
Proof.
  induction 1 as [ptr c k th Ht Hc| |ptr c k th cmd k1 err k2 Ht Hp He Hu Hs Hc|ptr c k th cmd k1 k2 r k' Ht Hp He Hu Hs Hc ptr' Hw IH];
    intros Hz Hcons; simpl in *.
  - exists th. split; [done|]. apply andb_false_iff in Hc as [?%Z.ltb_ge|?%Z.eqb_neq]; [left; lia|by right].
  - done.
  - destruct (write_command_answer _ _ _ _ _ _ _ Hc) as [?|[[= ->]|[= ->]]]; done.
  - by apply IH.
Qed.

Lemma write_addresses buffer size consumed :
  0 <= buffer → 0 <= consumed <= size → buffer + size + 44 <= 2 ^ (8 * word) →
  uadd buffer consumed = buffer + consumed ∧ uadd buffer size = buffer + size.
Proof. intros H1 H2 H3. unfold uadd, usz. rewrite !Z.mod_small by lia. done. Qed.

(** [binder_thread_write] carries out the commands of the buffer one after
    the other, as the reference semantics [writes] says, which has no bound on
    the number of commands: every run of it is computed, so the loop ends, and
    every result is that of a run. *)
Theorem binder_thread_write_refines p thread buffer size consumed k r k' :
  0 <= buffer → 0 <= consumed <= size → buffer + size + 44 <= 2 ^ (8 * word) →
  binder_thread_write p thread buffer size consumed k = Ok (r, k') ↔
  writes p thread buffer (buffer + size) (buffer + consumed) consumed k r k'.
Proof.
  intros H1 H2 H3. unfold binder_thread_write. destruct (write_addresses buffer size consumed H1 H2 H3) as [-> ->].
  split; [apply write_loop_sound|]. intros Hw. apply write_loop_complete; (done || lia).
Qed.

(** [binder_thread_write] returns 0, [-EFAULT] or [-EINVAL].  It returns 0
    only when the whole buffer is consumed or the thread has an error to report,
    which keeps the rest of the commands for later. *)
Theorem binder_thread_write_outcome p thread buffer size consumed k ret consumed' k' :
  0 <= buffer → 0 <= consumed <= size → buffer + size + 44 <= 2 ^ (8 * word) →
  binder_thread_write p thread buffer size consumed k = Ok ((ret, consumed'), k') →
  (ret = 0 ∨ ret = - EFAULT ∨ ret = - EINVAL) ∧
  (ret = 0 → ∃ th, k_threads k' !! thread = Some th ∧ (size <= consumed' ∨ t_return_error th ≠ BR_OK)).
Proof.
  intros H1 H2 H3 E. unfold binder_thread_write in E. destruct (write_addresses buffer size consumed H1 H2 H3) as [E1 E2].
  rewrite E1, E2 in E. apply write_loop_sound in E. split; [exact (writes_answer _ _ _ _ _ _ _ _ _ E)|].
  intros ->. destruct (writes_zero _ _ _ _ _ _ _ _ _ E eq_refl) as (th & Ht & [?|?]); [lia| |]; exists th; (split; [done|]).
  - left. simpl in *. lia.
  - by right.
Qed.
End spec.

(** ** What [*consumed] counts *)

Section consumed.
Context {AR : Arch} {RB : RBOps} {KR : Kernel}.

(** The commands that a process may write. *)
Definition write_codes : list Z :=
  [BC_TRANSACTION; BC_REPLY; BC_FREE_BUFFER; BC_INCREFS; BC_ACQUIRE; BC_RELEASE; BC_DECREFS; BC_INCREFS_DONE;
   BC_ACQUIRE_DONE; BC_REGISTER_LOOPER; BC_ENTER_LOOPER; BC_EXIT_LOOPER; BC_REQUEST_DEATH_NOTIFICATION;
   BC_CLEAR_DEATH_NOTIFICATION; BC_DEAD_BINDER_DONE].

(** The word at an address of user memory, and whether the arguments of a
    command, of the size its number says, can be read there. *)
Definition command_at (m : gmap Z Z) (a : Z) : option Z := le_value <$> read_user m a 4.
Definition args_at (m : gmap Z Z) (a cmd : Z) : Prop := is_Some (read_user m a (Z.to_nat (IOC_SIZE cmd))).

(** The commands [cmds], with their arguments, stand between two addresses. *)
Inductive commands_between (m : gmap Z Z) : Z → list Z → Z → Prop :=
| between_nil a : commands_between m a [] a
| between_cons a cmd cmds b :
    command_at m a = Some cmd → cmd ∈ write_codes → args_at m (a + 4) cmd →
    commands_between m (a + 4 + IOC_SIZE cmd) cmds b → commands_between m a (cmd :: cmds) b.

(** The command at [a] is one that [binder_thread_write] refuses with [ret]:
    it or its arguments cannot be read, or its number is not known. *)
Definition refused_at (m : gmap Z Z) (a ret : Z) : Prop :=
  match command_at m a with
  | None => ret = - EFAULT
  | Some cmd => cmd ∉ write_codes ∧ ret = - EINVAL ∨ cmd ∈ write_codes ∧ ¬ args_at m (a + 4) cmd ∧ ret = - EFAULT
  end.

Definition same_user (k k' : kernel) : Prop := k_user k' = k_user k.
#[local] Instance same_user_frame : UserFrame same_user.
Proof. split; [|done]. split; [by intros k|]. intros k1 k2 k3 H1 H2. unfold same_user in *. congruence. Qed.

Lemma read_user_app m a n1 n2 :
  0 <= a < 2 ^ (8 * word) →
  read_user m a (n1 + n2) =
    (bs1 ← read_user m a n1; bs2 ← read_user m (uadd a (Z.of_nat n1)) n2; mret (bs1 ++ bs2)).
Proof.
  revert a. induction n1 as [|n1 IH]; intros a Ha.
  - simpl. unfold uadd, usz. rewrite Z.add_0_r, Z.mod_small by done. by destruct (read_user m a n2).
  - cbn [read_user Nat.add]. destruct (m !! a); [|done]. simpl. unfold uadd at 1 2, usz.
    rewrite IH by (apply Z.mod_pos_bound; lia). unfold uadd, usz. rewrite Zplus_mod_idemp_l.
    replace (a + 1 + Z.of_nat n1) with (a + Z.of_nat (S n1)) by lia.
    destruct (read_user m _ n1); [|done]. simpl. by destruct (read_user m _ n2).
Qed.

#[local] Arguments read_user : simpl never.

Lemma gets_ok {S A} (f : S → A) s a s' : gets f s = Ok (a, s') → a = f s ∧ s' = s.
Proof. unfold gets. split; congruence. Qed.

Lemma with_user_ok ptr f k r k' :
  with_user ptr f k = Ok (r, k') →
  read_user (k_user k) ptr 4 = None ∧ r = inl (- EFAULT) ∨
  is_Some (read_user (k_user k) ptr 4) ∧ ∃ w, f w k = Ok (r, k').
Proof.
  unfold with_user. intros (w & k1 & [-> ->]%gets_ok & E)%st_bind_ok.
  destruct (read_user (k_user k) ptr 4); simpl in E; [right|left].
  - split; [eauto|]. eexists. exact E.
  - by injection E as <- _.
Qed.

(** Reading the [n] bytes of the arguments decides between the next command
    and [-EFAULT]. *)
Definition reads_args (n : nat) (m : Z → K (Z + unit)) : Prop := ∀ ptr k r k',
  0 <= ptr < 2 ^ (8 * word) → m ptr k = Ok (r, k') →
  r = inr tt ∧ is_Some (read_user (k_user k) ptr n) ∨ r = inl (- EFAULT) ∧ read_user (k_user k) ptr n = None.

Definition goes_on (m : K (Z + unit)) : Prop := answers (eq (inr tt)) m.

Lemma reads_word f : (∀ ptr w, goes_on (f ptr w)) → reads_args 4 (λ ptr, with_user ptr (f ptr)).
Proof.
  intros Hf ptr k r k' _ [[? ?]|[? (w & Hw)]]%with_user_ok; [by right|left]. split; [|done]. by rewrite (Hf _ _ _ _ _ Hw).
Qed.

Lemma reads_words f :
  (∀ ptr w v, goes_on (f ptr w v)) → reads_args 8 (λ ptr, with_user ptr (λ w, with_user (uadd ptr 4) (f ptr w))).
Proof.
  intros Hf ptr k r k' Hp. rewrite (read_user_app _ ptr 4 4 Hp). change (Z.of_nat 4) with 4.
  intros [[-> ?]|[[bs ->] (w & [[E ?]|[[bs' E] (v & Hv)]]%with_user_ok)]]%with_user_ok; [by right|right|left].
  - split; [done|]. simpl in *. by rewrite E.
  - split; [by rewrite (Hf _ _ _ _ _ _ Hv)|]. simpl in *. rewrite E. by eexists.
Qed.

Lemma reads_record p thread cmd : reads_args 40 (write_transaction p thread cmd).
Proof.
  intros ptr k r k' _ E. unfold write_transaction in E. apply st_bind_ok in E as (bs & k1 & [Eb ->]%gets_ok & E).
  change (Z.to_nat sizeof_transaction_data) with 40%nat in Eb. rewrite <- Eb. destruct bs as [bs|]; [left|right].
  - apply st_bind_ok in E as ([] & k2 & _ & E). injection E as <- _. split; [done|by eexists].
  - by injection E as <- _.
Qed.

Ltac go_on := unfold goes_on; repeat first [apply answers_ret; reflexivity|answer_step].

Lemma reads_nothing m : (∀ ptr, goes_on (m ptr)) → reads_args 0 m.
Proof. intros Hm ptr k r k' _ E. left. split; [by rewrite (Hm _ _ _ _ E)|by eexists]. Qed.

Lemma refs_read p cmd : reads_args 4 (write_refs p cmd).
Proof. unfold write_refs. apply reads_word. intros ptr w. go_on. Qed.
Lemma refs_done_read p cmd : reads_args 8 (write_refs_done p cmd).
Proof. unfold write_refs_done. apply reads_words. intros ptr w v. go_on. Qed.
Lemma free_buffer_reads p thread : reads_args 4 (write_free_buffer p thread).
Proof. unfold write_free_buffer. apply reads_word. intros ptr w. go_on. Qed.
Lemma death_notification_reads p thread cmd : reads_args 8 (write_death_notification p thread cmd).
Proof.
  unfold write_death_notification, request_death_notification, clear_death_notification. apply reads_words.
  intros ptr w v. go_on.
Qed.
Lemma dead_binder_done_reads p thread : reads_args 4 (write_dead_binder_done p thread).
Proof. unfold write_dead_binder_done. apply reads_word. intros ptr w. go_on. Qed.
Lemma looper_reads p thread :
  reads_args 0 (λ _, write_register_looper p thread) ∧ reads_args 0 (λ _, write_enter_looper thread) ∧
  reads_args 0 (λ _, write_exit_looper thread).
Proof.
  unfold write_register_looper, write_enter_looper, write_exit_looper. repeat split; apply reads_nothing; intros _; go_on.
Qed.

Ltac which_command :=
  unfold write_command;
  repeat match goal with |- context [?a =? ?b] => let v := eval vm_compute in (a =? b) in change (a =? b) with v end;
  cbn [orb];
  match goal with |- reads_args ?n _ => let v := eval vm_compute in n in change n with v end.

Lemma command_reads p thread cmd : cmd ∈ write_codes → reads_args (Z.to_nat (IOC_SIZE cmd)) (write_command p thread cmd).
Proof.
  pose proof (looper_reads p thread) as (Hr & He & Hx). unfold write_codes. intros H.
  repeat (apply elem_of_cons in H as [->|H];
    [which_command;
     lazymatch goal with
     | |- context [write_refs] => apply refs_read
     | |- context [write_refs_done] => apply refs_done_read
     | |- context [write_free_buffer] => apply free_buffer_reads
     | |- context [write_transaction] => apply reads_record
     | |- context [write_death_notification] => apply death_notification_reads
     | |- context [write_dead_binder_done] => apply dead_binder_done_reads
     | |- _ => assumption
     end|]).
  by apply not_elem_of_nil in H.
Qed.

Lemma command_unknown p thread cmd ptr : cmd ∉ write_codes → write_command p thread cmd ptr = mret (inl (- EINVAL)).
Proof.
  intros H. assert (Forall (λ c, (cmd =? c) = false) write_codes) as Hc.
  { apply Forall_forall. intros c Hc. apply Z.eqb_neq. congruence. }
  unfold write_codes in Hc. repeat (apply Forall_cons in Hc as [? Hc]).
  unfold write_command. repeat match goal with E : (cmd =? _) = false |- _ => rewrite E; clear E end.
  cbn [orb]. by repeat case_match.
Qed.

Lemma command_size_IOC cmd : cmd ∈ write_codes → command_size cmd = IOC_SIZE cmd.
Proof.
  intros H. repeat (apply elem_of_cons in H as [->|H]; [vm_compute; reflexivity|]). by apply not_elem_of_nil in H.
Qed.

Lemma next_word ptr : 0 <= ptr → ptr + 4 < 2 ^ (8 * word) → uadd ptr 4 = ptr + 4.
Proof. intros. unfold uadd, usz. apply Z.mod_small. lia. Qed.

(** One turn of the loop, on its memory. *)
Lemma write_command_turn p thread cmd ptr k r k' :
  0 <= ptr < 2 ^ (8 * word) → write_command p thread cmd ptr k = Ok (r, k') →
  match r with
  | inr _ => cmd ∈ write_codes ∧ args_at (k_user k) ptr cmd
  | inl e => cmd ∉ write_codes ∧ e = - EINVAL ∨ cmd ∈ write_codes ∧ ¬ args_at (k_user k) ptr cmd ∧ e = - EFAULT
  end.
Proof.
  intros Hp E. destruct (decide (cmd ∈ write_codes)) as [H|H].
  - destruct (command_reads p thread cmd H ptr k r k' Hp E) as [[-> ?]|[-> Hn]]; [done|right].
    unfold args_at. rewrite Hn. split; [done|]. by split; [intros [? ?]|].
  - rewrite (command_unknown p thread cmd ptr H) in E. injection E as <- _. by left.
Qed.

Lemma writes_consume p thread buffer size ptr consumed k ret consumed' k' :
  writes p thread buffer (buffer + size) ptr consumed k (ret, consumed') k' →
  0 <= ptr → buffer + size + 44 <= 2 ^ (8 * word) → ptr = buffer + consumed →
  k_user k' = k_user k ∧ ∃ cmds,
    commands_between (k_user k) ptr cmds (buffer + consumed') ∧
    (ret = 0 ∧ (size <= consumed' ∨ ∃ th, k_threads k' !! thread = Some th ∧ t_return_error th ≠ BR_OK) ∨
     consumed' < size ∧ refused_at (k_user k) (buffer + consumed') ret).
Proof.
  intros Hw. remember (ret, consumed') as r eqn:Er.
  induction Hw as [ptr c k th Ht Hc|ptr c k th Ht Hp He Hu|ptr c k th cmd k1 err k2 Ht Hp He Hu Hs Hc
                  |ptr c k th cmd k1 k2 r k' Ht Hp He Hu Hs Hc ptr' Hw IH];
    intros H0 Hend Hptr.
  - injection Er as <- <-. split; [done|]. exists []. rewrite Hptr. split; [constructor|]. left. split; [done|].
    apply andb_false_iff in Hc as [?%Z.ltb_ge|?%Z.eqb_neq]; [left; lia|right; eauto].
  - injection Er as <- <-. split; [done|]. exists []. rewrite <- Hptr. split; [constructor|]. right. split; [lia|].
    apply gets_ok in Hu as [Hu _]. unfold refused_at, command_at. by rewrite <- Hu.
  - injection Er as <- <-. destruct (uf_stat_command same_user st_bc bc_count p thread cmd _ _ _ Hs) as [M1 _].
    destruct (uf_write_command same_user p thread cmd _ _ _ _ Hc) as [M2 _]. unfold same_user in *.
    split; [congruence|]. exists []. rewrite <- Hptr. split; [constructor|]. right. split; [lia|].
    apply gets_ok in Hu as [Hu _]. unfold refused_at, command_at. rewrite <- Hu.
    pose proof (next_word ptr) as Hn. rewrite Hn in Hc by lia.
    apply write_command_turn in Hc; [|lia]. by rewrite M1 in Hc.
  - destruct (uf_stat_command same_user st_bc bc_count p thread cmd _ _ _ Hs) as [M1 _].
    destruct (uf_write_command same_user p thread cmd _ _ _ _ Hc) as [M2 _]. unfold same_user in *.
    apply gets_ok in Hu as [Hu _]. pose proof (next_word ptr) as Hn. rewrite Hn in Hc by lia.
    apply write_command_turn in Hc as [Hin Ha]; [|lia]. rewrite M1 in Ha.
    pose proof (command_size_range cmd). pose proof (command_size_IOC cmd Hin) as Hz.
    assert (Ep : ptr' = ptr + 4 + IOC_SIZE cmd).
    { unfold ptr'. rewrite Hn, <- Hz by lia. unfold uadd, usz. apply Z.mod_small. lia. }
    rewrite M2, M1 in IH. destruct (IH Er) as (Hm & cmds & Hb & Hr); [lia|done|lia|].
    split; [done|]. exists (cmd :: cmds). split; [|done]. econstructor; [by unfold command_at; rewrite <- Hu|done|done|].
    by rewrite <- Ep.
Qed.

(** C13: [binder_thread_write] leaves user memory alone, and the commands with
    their arguments, each as long as its number says, stand one behind the
    other from [consumed] to the new [consumed].  It answers 0 only when the
    whole buffer is consumed or the thread has an error to report; else there is
    a command at the new [consumed] that it refuses: with [-EINVAL] exactly when
    the number is not that of a command, and with [-EFAULT] exactly when the
    command or its arguments cannot be read. *)
Theorem binder_thread_write_consumes p thread buffer size consumed k ret consumed' k' :
  0 <= buffer → 0 <= consumed <= size → buffer + size + 44 <= 2 ^ (8 * word) →
  binder_thread_write p thread buffer size consumed k = Ok ((ret, consumed'), k') →
  k_user k' = k_user k ∧ ∃ cmds,
    commands_between (k_user k) (buffer + consumed) cmds (buffer + consumed') ∧
    (ret = 0 ∧ (size <= consumed' ∨ ∃ th, k_threads k' !! thread = Some th ∧ t_return_error th ≠ BR_OK) ∨
     consumed' < size ∧ refused_at (k_user k) (buffer + consumed') ret).
Proof.
  intros H1 H2 H3 E. unfold binder_thread_write in E. destruct (write_addresses buffer size consumed H1 H2 H3) as [E1 E2].
  rewrite E1, E2 in E. apply write_loop_sound in E. apply (writes_consume p thread _ _ _ _ _ _ _ _ E); lia.
Qed.
End consumed.

Module WriteDemo.
Import Example.

(** The server's thread leaves, and then sends a command that is not one. *)
Definition leaving : kernel := state_after (poke 4096 (bytes [BC_EXIT_LOOPER; 7])) started.
Definition left_it : kernel := state_after (binder_thread_write server 100001 4096 8 0) leaving.

Lemma writes_leaving : binder_thread_write server 100001 4096 8 0 leaving = Ok ((- EINVAL, 4), left_it).
Proof. vm_compute. reflexivity. Qed.

Lemma binder_thread_write_refines_witness : writes server 100001 4096 4104 4096 0 leaving (- EINVAL, 4) left_it.
Proof.
  apply (binder_thread_write_refines server 100001 4096 8 0 leaving (- EINVAL, 4) left_it);
    [done|done|done|apply writes_leaving].
Defined.

Lemma binder_thread_write_consumes_witness :
  commands_between (k_user leaving) 4096 [BC_EXIT_LOOPER] 4100 ∧ refused_at (k_user leaving) 4100 (- EINVAL).
Proof.
  destruct (binder_thread_write_consumes server 100001 4096 8 0 leaving (- EINVAL) 4 left_it)
    as (_ & cmds & Hb & [[H _]|[_ Hr]]); [done|done|done|apply writes_leaving|discriminate H|].
  split; [|exact Hr]. inversion Hb as [|? cmd cmds' ? Hw _ _ Hb']; subst. vm_compute in Hw. injection Hw as <-.
  enough (cmds' = []) as -> by exact Hb. inversion Hb' as [|? cmd' ? ? Hw' Hk]; subst; [done|].
  vm_compute in Hw'. injection Hw' as <-. exfalso. revert Hk. apply (bool_decide_eq_false_1 _). vm_compute. reflexivity.
Defined.

Lemma binder_thread_write_outcome_witness : - EINVAL = 0 ∨ - EINVAL = - EFAULT ∨ - EINVAL = - EINVAL.
Proof.
  apply (binder_thread_write_outcome server 100001 4096 8 0 leaving (- EINVAL) 4 left_it);
    [done|done|done|apply writes_leaving].
Defined.
End WriteDemo.
