(* ===== verification/BinderReadSpec.v ===== *)
(** [binder_thread_read] stays in the buffer it was given, when the size of
    that is a positive multiple of 4; and does not otherwise. *)
From S2P Require Import Prelude RBTree BinderAlloc BinderUapi BinderState BinderKernel BinderObject BinderTransaction BinderWrite BinderRead BinderLifecycle BinderExamples BinderFrames.

(** User memory changes only from [lo] to [hi]. *)
Definition user_only (lo hi : Z) (k k' : kernel) : Prop :=
  ∀ a, ¬ lo <= a < hi → k_user k' !! a = k_user k !! a.

#[export] Instance user_only_preorder lo hi : PreOrder (user_only lo hi).
Proof. split; [by intros k a|]. intros k1 k2 k3 H1 H2 a Ha. by rewrite H2, H1. Qed.

Section read.
Context {AR : Arch} {RB : RBOps} {KR : Kernel} (lo hi : Z).
Hypothesis lo_nonneg : 0 <= lo.
Hypothesis hi_address : hi < 2 ^ (8 * word).
(** Whatever happens while the thread sleeps leaves its memory alone. *)
Hypothesis wait_memory : ∀ e q k a k', wait_event e q k = Ok (a, k') → k_user k' = k_user k.

Notation only := (user_only lo hi).

#[local] Instance only_user_frame : UserFrame only.
Proof. split; [tc_solve|]. intros k k' E a _. by rewrite E. Qed.

Lemma only_wait e q : keeps only (wait_event e q).
Proof. intros k a k' E. split; [|done]. by apply (user_frame k k'), (wait_memory e q k a). Qed.

Ltac leaf :=
  match goal with
  | |- keeps _ (on_alloc _ _) => apply uf_on_alloc; tc_solve
  | |- keeps _ (binder_stat_br _ _ _) => apply uf_stat_br; tc_solve
  | |- keeps _ (get_buffer _) => apply uf_get_buffer; tc_solve
  | |- keeps _ (set_buffer _ _) => apply uf_set_buffer; tc_solve
  | |- keeps _ (transaction_record _ _) => apply uf_transaction_record; tc_solve
  | |- keeps _ (transaction_received _ _ _) => apply uf_transaction_received; tc_solve
  | |- keeps _ (wait_for_work _ _ _ _) => apply uf_wait_for_work; [tc_solve|exact only_wait]
  | |- keeps _ (list_del_init _) => unfold list_del_init
  | |- keeps _ (binder_stats_deleted _) => unfold binder_stats_deleted
  | |- keeps _ (free_complete _) => unfold free_complete
  | |- keeps _ _ => user_update
  end.
Ltac ret := apply runs_ret; [tc_solve|done].
Ltac walk := repeat first [keep_step|leaf].

(** ** Writing *)

Lemma uadd_small a n : lo <= a → a + n <= hi → 0 <= n → uadd a n = a + n.
Proof. intros H1 H2 H3. unfold uadd, usz. apply Z.mod_small. lia. Qed.

Lemma write_user_only bs m addr :
  lo <= addr → addr + Z.of_nat (length bs) <= hi →
  ∀ a, ¬ lo <= a < hi → (write_user m addr bs).1 !! a = m !! a.
Proof.
  revert m addr. induction bs as [|b bs IH]; intros m addr H1 H2 a Ha; [done|].
  cbn [length] in H2. cbn [write_user]. case_bool_decide; [|done]. rewrite uadd_small by lia.
  rewrite IH by (done || lia). apply lookup_insert_ne. intros ->. lia.
Qed.

Lemma put_user_only x ptr : lo <= ptr → ptr + 4 <= hi → keeps only (put_user x ptr).
Proof.
  intros H1 H2 k b k' E. split; [|done]. unfold put_user in E.
  pose proof (write_user_only (le_bytes 4 x) (k_user k) ptr H1 H2) as Hw.
  destruct (write_user (k_user k) ptr (le_bytes 4 x)) as [m ok]. destruct ok; injection E as _ <-; [exact Hw|by intros a].
Qed.

Lemma copy_to_user_only bs ptr : lo <= ptr → ptr + Z.of_nat (length bs) <= hi → keeps only (copy_to_user ptr bs).
Proof.
  intros H1 H2 k b k' E. split; [|done]. unfold copy_to_user in E. pose proof (write_user_only bs (k_user k) ptr H1 H2) as Hw.
  destruct (write_user (k_user k) ptr bs) as [m ok]. injection E as _ <-. exact Hw.
Qed.

(** The next place to write, [n] bytes on at most. *)
Definition next_ptr (ptr n q : Z) : Prop := ptr <= q <= ptr + n ∧ (q - ptr) `mod` 4 = 0.
Definition next_ptr' (ptr n : Z) (r : option Z) : Prop := ∀ q, r = Some q → next_ptr ptr n q.

Lemma put_words_only ws ptr :
  lo <= ptr → ptr + 4 * Z.of_nat (length ws) <= hi →
  runs only (λ r, ∀ q, r = Some q → q = ptr + 4 * Z.of_nat (length ws)) (put_words ws ptr).
Proof.
  revert ptr. induction ws as [|w ws IH]; intros ptr H1 H2; cbn [put_words length] in *.
  - apply runs_ret; [tc_solve|]. intros q [= <-]. lia.
  - eapply runs_step; [tc_solve|apply put_user_only; lia|]. intros [|]; [|ret].
    rewrite uadd_small by lia. eapply runs_impl; [apply IH; lia|]. simpl. intros r Hr q E. rewrite (Hr q E). lia.
Qed.

(** ** Delivering works *)

Lemma deliver_complete_only p th w ptr :
  lo <= ptr → ptr + 44 <= hi → runs only (next_ptr' ptr 44) (deliver_complete p th w ptr).
Proof.
  intros H1 H2. unfold deliver_complete. eapply runs_bind; [tc_solve|apply put_words_only; simpl; lia|].
  intros r Hr. destruct r as [q|]; [|ret]. specialize (Hr q eq_refl).
  walk. intros q' [= <-]. rewrite Hr. split; [simpl; lia|].
  by replace (ptr + 4 * Z.of_nat (length [BR_TRANSACTION_COMPLETE]) - ptr) with 4 by (simpl; lia).
Qed.

Lemma deliver_node_only p th n ptr :
  lo <= ptr → ptr + 44 <= hi → runs only (next_ptr' ptr 44) (deliver_node p th n ptr).
Proof.
  intros H1 H2. unfold deliver_node. apply runs_step; [tc_solve|walk|]. intros x. destruct (node_command x) as [cmd x'].
  destruct (negb (cmd =? BR_NOOP)).
  - apply runs_step; [tc_solve|walk|]. intros _. eapply runs_bind; [tc_solve|apply put_words_only; simpl; lia|].
    intros r Hr. destruct r as [q|]; [|ret]. specialize (Hr q eq_refl).
    walk. intros q' [= <-]. rewrite Hr. split; [simpl; lia|].
    by replace (ptr + 4 * Z.of_nat (length [cmd; n_ptr x; n_cookie x]) - ptr) with 12 by (simpl; lia).
  - walk. intros q [= <-]. split; [lia|]. by rewrite Z.sub_diag.
Qed.

Lemma deliver_death_only p th d ptr :
  lo <= ptr → ptr + 44 <= hi →
  runs only (λ r, ∀ q done, r = Some (q, done) → next_ptr ptr 44 q) (deliver_death p th d ptr).
Proof.
  intros H1 H2. unfold deliver_death. apply runs_step; [tc_solve|walk|]. intros x. cbv zeta.
  eapply runs_bind; [tc_solve|apply put_words_only; simpl; lia|]. intros r Hr.
  destruct r as [q|]; [|ret]. specialize (Hr q eq_refl).
  walk; intros q' dn [= <- _]; rewrite Hr; (split; [simpl; lia|]);
    by match goal with |- ?x `mod` 4 = 0 => replace x with 8 by (simpl; lia) end.
Qed.

Lemma length_encode_tr tr : length (encode_tr tr) = 40%nat.
Proof. reflexivity. Qed.

Lemma deliver_transaction_only p th t ptr :
  lo <= ptr → ptr + 44 <= hi → runs only (next_ptr' ptr 44) (deliver_transaction p th t ptr).
Proof.
  intros H1 H2. unfold deliver_transaction. apply runs_step; [tc_solve|walk|]. intros [cmd tr].
  eapply runs_bind; [tc_solve|apply put_words_only; simpl; lia|]. intros r Hr.
  destruct r as [q|]; [|ret]. specialize (Hr q eq_refl). simpl in Hr. subst q.
  apply runs_step; [tc_solve|apply copy_to_user_only; rewrite ?length_encode_tr; lia|]. intros ok.
  destruct (negb ok); [ret|]. walk. intros q [= <-].
  rewrite uadd_small by (unfold sizeof_transaction_data; simpl; lia). unfold next_ptr, sizeof_transaction_data. simpl.
  split; [lia|]. by match goal with |- ?x `mod` 4 = 0 => replace x with 44 by lia end.
Qed.

(** ** The loops *)

(** Where the loops write: inside the buffer, a multiple of 4 from its end. *)
Definition in_buffer (ptr : Z) : Prop := lo <= ptr <= hi ∧ (hi - ptr) `mod` 4 = 0.

Lemma in_buffer_next ptr n q : in_buffer ptr → ptr + n <= hi → next_ptr ptr n q → in_buffer q.
Proof.
  intros [H1 H2] Hn [H3 H4]. split; [lia|]. apply Z.mod_divide in H2 as [a Ha], H4 as [b Hb]; try lia.
  replace (hi - q) with ((a - b) * 4) by lia. apply Z.mod_mul. lia.
Qed.

Definition next_ok (r : read_next) : Prop :=
  match r with read_fault => True | read_done ptr => in_buffer ptr | read_retry ptr => in_buffer ptr end.

Lemma room ptr : in_buffer ptr → no_room hi ptr = false → ptr + 44 <= hi.
Proof.
  intros [H _]. unfold no_room, usz, sizeof_transaction_data. rewrite Z.mod_small by lia. intros E%Z.ltb_ge. lia.
Qed.

Lemma read_works_only fuel p th w buffer ptr :
  in_buffer ptr → runs only next_ok (read_works fuel p th w buffer hi ptr).
Proof.
  revert ptr. induction fuel as [|fuel IH]; intros ptr Hp; simpl; [apply runs_fail|].
  apply runs_step; [tc_solve|walk|]. intros k. destruct (next_work p th w k) as [v|].
  2:{ apply runs_step; [tc_solve|walk|]. intros x. apply runs_ret; [tc_solve|]. by case_match. }
  destruct (no_room hi ptr) eqn:Er; [ret|]. pose proof (room ptr Hp Er) as Hroom. destruct Hp as [Hp1 Hp2].
  assert (Hnext : ∀ q, next_ptr ptr 44 q → in_buffer q) by (intros q; by apply in_buffer_next).
  destruct v as [t|c|n|d].
  - eapply runs_bind; [tc_solve|apply deliver_transaction_only; lia|]. intros r Hr. apply runs_ret; [tc_solve|].
    destruct r as [q|]; [apply Hnext, Hr|]; done.
  - eapply runs_bind; [tc_solve|apply deliver_complete_only; lia|]. intros r Hr.
    destruct r as [q|]; [apply IH, Hnext, Hr; done|ret].
  - eapply runs_bind; [tc_solve|apply deliver_node_only; lia|]. intros r Hr.
    destruct r as [q|]; [apply IH, Hnext, Hr; done|ret].
  - eapply runs_bind; [tc_solve|apply deliver_death_only; lia|]. intros r Hr.
    destruct r as [[q [|]]|]; [|apply IH; by eapply Hnext, Hr|ret].
    apply runs_ret; [tc_solve|]. by eapply Hnext, Hr.
Qed.

Lemma in_buffer_word ptr : in_buffer ptr → ptr ≠ hi → ptr + 4 <= hi ∧ in_buffer (ptr + 4).
Proof.
  intros [H1 H2] Hne. apply Z.mod_divide in H2 as [a Ha]; [|done]. split; [lia|]. split; [lia|].
  replace (hi - (ptr + 4)) with ((a - 1) * 4) by lia. apply Z.mod_mul. lia.
Qed.

Lemma put_word_only w ptr :
  in_buffer ptr → ptr ≠ hi → runs only (λ r, ∀ q, r = Some q → in_buffer q) (put_words [w] ptr).
Proof.
  intros Hp Hne. destruct (in_buffer_word ptr Hp Hne) as [Hw Hn]. destruct Hp as [H1 _].
  eapply runs_impl; [apply put_words_only; simpl; lia|]. simpl. intros r Hr q E. by rewrite (Hr q E).
Qed.

Lemma report_errors_only p th ptr :
  in_buffer ptr → runs only (λ r, ∀ n, r = Some n → next_ok n) (report_errors p th hi ptr).
Proof.
  intros Hp. unfold report_errors. apply runs_step; [tc_solve|walk|]. intros x.
  destruct (negb (t_return_error x =? BR_OK) && (ptr <? hi)) eqn:Ec; [|ret].
  apply andb_true_iff in Ec as [_ Ec%Z.ltb_lt].
  eapply (runs_bind _ (λ r, match r with inl n => next_ok n | inr q => in_buffer q ∧ q ≠ hi end)).
  - destruct (negb (t_return_error2 x =? BR_OK)); [|apply runs_ret; [tc_solve|]; split; [done|lia]].
    eapply runs_bind; [tc_solve|apply put_word_only; [done|lia]|]. intros r Hr. destruct r as [q|]; [|ret].
    apply runs_step; [tc_solve|walk|]. intros _. destruct (Z.eqb_spec q hi); [apply runs_ret; [tc_solve|]; by apply Hr|].
    apply runs_step; [tc_solve|walk|]. intros _. apply runs_ret; [tc_solve|]. split; [by apply Hr|done].
  - intros [n|q]; [intros Hn; apply runs_ret; [tc_solve|]; by intros ? [= <-]|]. intros [Hq Hne].
    eapply runs_bind; [tc_solve|by apply put_word_only|]. intros r Hr.
    destruct r as [q'|]; [|apply runs_ret; [tc_solve|]; by intros ? [= <-]].
    walk. intros n [= <-]. by apply Hr.
Qed.

Lemma read_retries_only fuel p th buffer ptr nb :
  in_buffer ptr → runs only (λ r, match r with inl _ => True | inr n => next_ok n end)
    (read_retries fuel p th buffer hi ptr nb).
Proof.
  revert ptr. induction fuel as [|fuel IH]; intros ptr Hp; cbn [read_retries]; [apply runs_fail|].
  apply runs_step; [tc_solve|walk|]. intros x. apply runs_step; [tc_solve|walk|]. intros k.
  eapply runs_bind; [tc_solve|by apply report_errors_only|]. intros [n|] Hn; [apply runs_ret; [tc_solve|]; by apply Hn|].
  apply runs_step; [tc_solve|walk|]. intros ret. destruct (negb (ret =? 0)); [by apply runs_ret; [tc_solve|]|].
  apply runs_step; [tc_solve|walk|]. intros k'. eapply runs_bind; [tc_solve|by apply read_works_only|].
  intros [|q|q] Hq; [by apply runs_ret; [tc_solve|]..|by apply IH].
Qed.

Lemma spawn_looper_only p th : lo + 4 <= hi → keeps only (spawn_looper p th lo).
Proof.
  intros H. unfold spawn_looper. repeat first [keep_step|apply put_user_only; lia|leaf].
Qed.

Lemma thread_read_only fuel p th size consumed nb :
  hi = lo + size → size `mod` 4 = 0 → consumed `mod` 4 = 0 → 0 <= consumed <= size → 0 < size →
  runs only (λ r, 0 <= r.2 <= size) (binder_thread_read fuel p th lo size consumed nb).
Proof.
  intros Eh Hs Hc Hr Hpos. unfold binder_thread_read. rewrite !uadd_small by lia. rewrite <- Eh.
  apply Z.mod_divide in Hs as [a Ha], Hc as [b Hb]; try done.
  assert (Hp : in_buffer (lo + consumed)).
  { split; [lia|]. replace (hi - (lo + consumed)) with ((a - b) * 4) by lia. by apply Z.mod_mul. }
  eapply (runs_bind _ (λ r, ∀ q, r = Some q → in_buffer q)).
  { destruct (Z.eqb_spec consumed 0) as [->|]; [apply put_word_only; [done|lia]|].
    apply runs_ret; [tc_solve|]. by intros q [= <-]. }
  intros [q|] Hq; [|by apply runs_ret; [tc_solve|]]. eapply runs_bind; [tc_solve|by apply read_retries_only, Hq|].
  intros [ret|[|q'|q']] Hn; [by apply runs_ret; [tc_solve|]..| |by apply runs_ret; [tc_solve|]].
  apply runs_step; [tc_solve|apply spawn_looper_only; lia|]. intros ret. apply runs_ret; [tc_solve|].
  destruct Hn as [? _]. simpl. lia.
Qed.
End read.

(** C14: when the size of the read buffer is a positive multiple of 4, every
    byte of user memory outside it keeps its value whatever works and errors
    [binder_thread_read] delivers, and the number of bytes it reports is at most
    the size. *)
Theorem read_stays_in_buffer {AR : Arch} {RB : RBOps} {KR : Kernel} fuel p thread buffer size consumed non_block
    k ret consumed' k' :
  (∀ e q k a k', wait_event e q k = Ok (a, k') → k_user k' = k_user k) →
  0 <= buffer → buffer + size < 2 ^ (8 * word) → 0 < size → size `mod` 4 = 0 →
  0 <= consumed <= size → consumed `mod` 4 = 0 →
  binder_thread_read fuel p thread buffer size consumed non_block k = Ok ((ret, consumed'), k') →
  (∀ a, ¬ buffer <= a < buffer + size → k_user k' !! a = k_user k !! a) ∧ 0 <= consumed' <= size.
Proof.
  intros Hw H0 Hb Hs Hs4 Hc Hc4 E.
  exact (thread_read_only buffer (buffer + size) H0 Hb Hw fuel p thread size consumed non_block eq_refl Hs4 Hc4 Hc Hs _ _ _ E).
Qed.

Module ReadDemo.
Import Example.

(** What the server's thread reads of the call, into 256 bytes at 8192. *)
Definition ready : kernel := state_after (as_task 1 ;; poke 8192 (replicate 512 0)) called.
Definition read_256 : kernel := state_after (binder_thread_read 5 server 100001 8192 256 0 true) ready.

Lemma read_256_run : binder_thread_read 5 server 100001 8192 256 0 true ready = Ok ((0, 48), read_256).
Proof. unfold read_256. refine (returns_ok _ _ _ _). vm_compute. reflexivity. Qed.

Lemma read_stays_in_buffer_witness : k_user read_256 !! 8448 = k_user ready !! 8448.
Proof.
  apply (read_stays_in_buffer 5 server 100001 8192 256 0 true ready 0 48 read_256);
    [done|done|done|done|done|done|done|exact read_256_run|lia].
Defined.

Definition read_1 : kernel := state_after (binder_thread_read 5 server 100001 8192 1 0 true) ready.

(** With a read buffer of 1 byte the driver writes past it: first [BR_NOOP],
    4 bytes; then the room, an unsigned difference, seems unlimited, and a whole
    transaction of 44 bytes follows. *)
Theorem short_read_overflows :
  binder_thread_read 5 server 100001 8192 1 0 true ready = Ok ((0, 48), read_1) ∧
  (λ a, k_user ready !! a) <$> [8193; 8196; 8216; 8239] = [Some 0; Some 0; Some 0; Some 0] ∧
  (λ a, k_user read_1 !! a) <$> [8193; 8196; 8216; 8239] = [Some 114; Some 2; Some 22; Some 64].
Proof. unfold read_1. split; [refine (returns_ok _ _ _ _); vm_compute; reflexivity|]. split; vm_compute; reflexivity. Qed.
End ReadDemo.
