(* ===== verification/BinderReadEnds.v ===== *)
(** The loop of [binder_thread_read] over the works ends: each round takes a
    work off a list, or tells the process about a node, which it does at most
    twice for a node. *)
From S2P Require Import Prelude RBTree BinderAlloc BinderUapi BinderState BinderKernel BinderObject BinderTransaction BinderWrite BinderRead BinderLifecycle BinderExamples BinderFrames BinderProtocol BinderReadSpec.

(** ** How much there is to do *)

(** The rounds a work takes: a node is told what its process does not know. *)
Definition work_weight (k : kernel) (w : work) : nat :=
  match w with
  | work_node n => match k_nodes k !! n with Some x => S (untold x) | None => 1 end
  | _ => 1
  end.

Definition weight (k : kernel) (l : list work) : nat := sum_list (work_weight k <$> l).

(** Every process knows of a weak count when it knows of a strong one. *)
Definition all_told (k : kernel) : Prop := ∀ n x, k_nodes k !! n = Some x → node_told_ok x.

Lemma work_weight_pos k w : (1 <= work_weight k w)%nat.
Proof. unfold work_weight. destruct w; try lia. destruct (k_nodes k !! n); lia. Qed.

Lemma work_weight_le k w : (work_weight k w <= 3)%nat.
Proof.
  unfold work_weight, untold. destruct w; try lia. destruct (k_nodes k !! n); [|lia].
  repeat case_bool_decide; lia.
Qed.

Lemma weight_le k l : (weight k l <= 3 * length l)%nat.
Proof.
  unfold weight. induction l as [|w l IH]; [done|]. rewrite fmap_cons. simpl. pose proof (work_weight_le k w). lia.
Qed.

Lemma weight_filter k w l : (weight k (filter (λ v, v ≠ w) l) <= weight k l)%nat.
Proof.
  unfold weight. induction l as [|v l IH]; [done|]. rewrite filter_cons. case_decide; rewrite ?fmap_cons; simpl; lia.
Qed.

(** Taking a work away takes its weight away. *)
Lemma weight_remove k w l : w ∈ l → (weight k (filter (λ v, v ≠ w) l) < weight k l)%nat.
Proof.
  intros Hw. induction l as [|v l IH]; [by apply not_elem_of_nil in Hw|].
  pose proof (work_weight_pos k v). pose proof (weight_filter k w l) as Hl. unfold weight in *.
  rewrite filter_cons. apply elem_of_cons in Hw as [->|Hw].
  - rewrite decide_False by (intros H'; by apply H'). rewrite fmap_cons. simpl. lia.
  - case_decide; rewrite ?fmap_cons; simpl; [specialize (IH Hw)|]; lia.
Qed.

Lemma weight_mono k k' l :
  (∀ w, w ∈ l → (work_weight k' w <= work_weight k w)%nat) → (weight k' l <= weight k l)%nat.
Proof.
  unfold weight. induction l as [|v l IH]; intros H; [done|]. rewrite !fmap_cons. simpl.
  pose proof (H v (list_elem_of_here _ _)). assert (H' := IH (λ w Hw, H w (list_elem_of_further _ _ _ Hw))). lia.
Qed.

Lemma weight_told k k' w l :
  w ∈ l → (∀ v, (work_weight k' v <= work_weight k v)%nat) → (work_weight k' w < work_weight k w)%nat →
  (weight k' l < weight k l)%nat.
Proof.
  intros Hw Hle Hlt. induction l as [|v l IH]; [by apply not_elem_of_nil in Hw|].
  pose proof (weight_mono k k' l (λ v _, Hle v)) as Hl. pose proof (Hle v). unfold weight in *. rewrite !fmap_cons. simpl.
  apply elem_of_cons in Hw as [->|Hw]; [lia|]. specialize (IH Hw). lia.
Qed.

(** ** The steps *)

Section steps.
Context {AR : Arch} {RB : RBOps} {KR : Kernel}.

(** What neither the works nor the nodes see. *)
Definition same_works (k k' : kernel) : Prop := k_lists k' = k_lists k ∧ k_nodes k' = k_nodes k.
#[local] Instance same_works_preorder : PreOrder same_works.
Proof. split; [by intros k|]. intros k1 k2 k3 [A1 B1] [A2 B2]. split; congruence. Qed.

Lemma put_user_same x ptr : keeps same_works (put_user x ptr).
Proof.
  intros k b k'. unfold put_user. destruct (write_user _ _ _) as [m [|]]; by intros [= <- <-].
Qed.

Lemma put_words_same ws ptr : keeps same_works (put_words ws ptr).
Proof.
  revert ptr. induction ws as [|w ws IH]; intros ptr; simpl; [by apply runs_ret; [tc_solve|]|].
  apply runs_step; [tc_solve|apply put_user_same|]. intros [|]; [apply IH|by apply runs_ret; [tc_solve|]].
Qed.

Ltac same :=
  repeat first
    [keep_step
    |match goal with
     | |- keeps _ (modify _) => apply keeps_modify; intros; by repeat case_match
     | |- keeps _ ?m => let h := get_head m in unfold h
     end].

Lemma stat_br_same p th cmd : keeps same_works (binder_stat_br p th cmd).
Proof. same. Qed.

(** A work is done with: it leaves the lists. *)
Definition done_with (w : work) (k k' : kernel) : Prop :=
  k_lists k' = filter (λ v, v ≠ w) <$> k_lists k ∧
  (k_nodes k' = k_nodes k ∨ ∃ n, k_nodes k' = delete n (k_nodes k)).

Lemma deliver_complete_done p th c ptr k q k' :
  deliver_complete p th c ptr k = Ok (Some q, k') → done_with (work_complete c) k k'.
Proof.
  unfold deliver_complete. intros (r & k1 & E1 & E)%st_bind_ok. destruct (put_words_same _ _ _ _ _ E1) as [[L1 N1] _].
  destruct r as [q1|]; [|done]. apply st_bind_ok in E as ([] & k2 & E2 & E). destruct (stat_br_same _ _ _ _ _ _ E2) as [[L2 N2] _].
  apply st_bind_ok in E as ([] & k3 & [= <-] & E).
  assert (Hs : keeps same_works (free_complete c ;; binder_stats_deleted BINDER_STAT_TRANSACTION_COMPLETE ;; mret (Some q1))) by same.
  destruct (Hs _ _ _ E) as [[L3 N3] _]. simpl in L3, N3. split; [by rewrite L3, L2, L1|left; congruence].
Qed.

Lemma deliver_death_done p th d ptr k q k' :
  deliver_death p th d ptr k = Ok (Some (q, false), k') → done_with (work_death d) k k'.
Proof.
  unfold deliver_death. intros (x & k0 & [Hx ->]%obj_inv & E)%st_bind_ok.
  apply st_bind_ok in E as (r & k1 & E1 & E). destruct (put_words_same _ _ _ _ _ E1) as [[L1 N1] _].
  destruct r as [q1|]; [|done]. apply st_bind_ok in E as ([] & k2 & E2 & E). destruct (stat_br_same _ _ _ _ _ _ E2) as [[L2 N2] _].
  destruct (bool_decide _).
  - apply st_bind_ok in E as ([] & k3 & E3 & [= <- <-]). apply st_bind_ok in E3 as ([] & k4 & [= <-] & E3).
    assert (Hs : keeps same_works (free_obj k_deaths d ;; binder_stats_deleted BINDER_STAT_DEATH)) by same.
    destruct (Hs _ _ _ E3) as [[L3 N3] _]. simpl in L3, N3. split; [by rewrite L3, L2, L1|left; congruence].
  - apply st_bind_ok in E as ([] & k3 & _ & [= _ ?]).
Qed.

Lemma deliver_node_done p th n ptr k q k' :
  all_told k → deliver_node p th n ptr k = Ok (Some q, k') →
  done_with (work_node n) k k' ∨
  ∃ x x', k_nodes k !! n = Some x ∧ k_lists k' = k_lists k ∧ k_nodes k' = <[n := x']> (k_nodes k) ∧
    node_told_ok x' ∧ S (untold x') = untold x.
Proof.
  intros Hk. unfold deliver_node. intros (x & k0 & [Hx ->]%obj_inv & E)%st_bind_ok.
  destruct (node_command x) as [cmd x'] eqn:Ec. destruct (cmd =? BR_NOOP) eqn:Hcmd; cbn [negb] in E.
  - left. apply st_bind_ok in E as ([] & k1 & [= <-] & E). apply st_bind_ok in E as ([] & k2 & E2 & [= <- <-]).
    unfold when in E2. destruct (_ && _); [|injection E2 as <-; split; [done|by left]].
    apply st_bind_ok in E2 as ([] & k3 & E3 & E2).
    assert (Hs : keeps same_works (set_obj k_procs p (λ pr, pr <| p_nodes %= rb_erase n |>))) by same.
    destruct (Hs _ _ _ E3) as [[L3 N3] _]. apply st_bind_ok in E2 as ([] & k4 & E4 & [= <-]).
    unfold free_obj in E4. apply st_bind_ok in E4 as (y & k5 & [_ ->]%obj_inv & [= <-]). simpl in *.
    split; [simpl; by rewrite L3|right; exists n; simpl; by rewrite N3].
  - right. apply st_bind_ok in E as ([] & k1 & E1 & E). rewrite (set_obj_ok k_nodes k n _ x Hx) in E1. injection E1 as <-.
    apply st_bind_ok in E as (r & k2 & E2 & E). destruct (put_words_same _ _ _ _ _ E2) as [[L2 N2] _].
    destruct r as [q1|]; [|done]. apply st_bind_ok in E as ([] & k3 & E3 & [= <- <-]).
    destruct (stat_br_same _ _ _ _ _ _ E3) as [[L3 N3] _]. simpl in *.
    destruct (node_command_untold x cmd x' (Hk n x Hx) Ec) as [(-> & _)|(_ & _ & Hu)]; [done|].
    pose proof (node_command_flags x (Hk n x Hx)) as Hf. rewrite Ec in Hf. destruct Hf as (Ht & _). exists x, x'.
    split_and!; [done|congruence|congruence|done|done].
Qed.

(** ** The loop *)

Definition read_weight (p thread : Z) (k : kernel) : nat :=
  weight k (works (thread_todo thread) k ++ works (proc_todo p) k).

Lemma works_done w k k' h : done_with w k k' → works h k' = filter (λ v, v ≠ w) (works h k).
Proof. intros [E _]. unfold works. rewrite E, lookup_fmap. by destruct (k_lists k !! h). Qed.

Lemma done_with_less p thread w k k' :
  all_told k → w ∈ works (thread_todo thread) k ++ works (proc_todo p) k → done_with w k k' →
  all_told k' ∧ (read_weight p thread k' < read_weight p thread k)%nat.
Proof.
  intros Hk Hw Hd. pose proof Hd as [_ HN]. split.
  - intros n x Hx. destruct HN as [E|[m E]]; rewrite E in Hx; [by apply (Hk n)|]. apply lookup_delete_Some in Hx as [_ Hx]. by apply (Hk n).
  - unfold read_weight. rewrite !(works_done w k k') by done. rewrite <- filter_app.
    eapply Nat.le_lt_trans; [apply (weight_mono k k')|by apply weight_remove]. intros v _. unfold work_weight.
    destruct v; try lia. destruct HN as [->|[m ->]]; [done|]. destruct (decide (m = n)) as [->|];
      [rewrite lookup_delete_eq; destruct (k_nodes k !! n); lia|by rewrite lookup_delete_ne].
Qed.

Lemma told_less p thread n x x' k k' :
  all_told k → work_node n ∈ works (thread_todo thread) k ++ works (proc_todo p) k → k_nodes k !! n = Some x →
  k_lists k' = k_lists k → k_nodes k' = <[n := x']> (k_nodes k) → node_told_ok x' → S (untold x') = untold x →
  all_told k' ∧ (read_weight p thread k' < read_weight p thread k)%nat.
Proof.
  intros Hk Hw Hx EL EN Ht Hu. split.
  - intros m y Hy. rewrite EN in Hy. apply lookup_insert_Some in Hy as [[_ <-]|[_ Hy]]; [done|by apply (Hk m)].
  - unfold read_weight, works. rewrite EL. apply (weight_told k k' (work_node n)); [exact Hw| |].
    + intros v. unfold work_weight. destruct v as [| |m|]; try lia. rewrite EN. destruct (decide (n = m)) as [<-|].
      * rewrite lookup_insert_eq, Hx. lia.
      * by rewrite lookup_insert_ne.
    + unfold work_weight. rewrite EN, lookup_insert_eq, Hx. lia.
Qed.

Lemma next_work_queued p thread b k w :
  next_work p thread b k = Some w → w ∈ works (thread_todo thread) k ++ works (proc_todo p) k.
Proof.
  unfold next_work. destruct (works (thread_todo thread) k) as [|v l]; [|intros [= ->]; by left].
  destruct b; [|done]. destruct (works (proc_todo p) k) as [|v l]; [done|]. intros [= ->]. by left.
Qed.

Lemma put_words_ends ws ptr : ends (put_words ws ptr).
Proof.
  revert ptr. induction ws as [|w ws IH]; intros ptr; simpl; [apply ends_ret|]. apply ends_bind; [|by intros [|]].
  intros k. unfold no_fuel, put_user. destruct (write_user _ _ _) as [m [|]]; done.
Qed.

Lemma copy_to_user_ends addr bs : ends (copy_to_user addr bs).
Proof. intros k. unfold no_fuel, copy_to_user. by destruct (write_user _ _ _). Qed.

#[local] Hint Resolve put_words_ends copy_to_user_ends : ends.

Lemma deliver_complete_ends p th c ptr : ends (deliver_complete p th c ptr).
Proof. end_steps. Qed.
Lemma deliver_node_ends p th n ptr : ends (deliver_node p th n ptr).
Proof. end_steps. Qed.
Lemma deliver_death_ends p th d ptr : ends (deliver_death p th d ptr).
Proof. end_steps. Qed.
Lemma deliver_transaction_ends p th t ptr : ends (deliver_transaction p th t ptr).
Proof. end_steps. Qed.

Lemma read_works_enough fuel p thread b buffer end_ ptr k :
  all_told k → (read_weight p thread k < fuel)%nat → no_fuel (read_works fuel p thread b buffer end_ ptr) k.
Proof.
  revert ptr k. induction fuel as [|fuel IH]; intros ptr k Hk Hf; [lia|]. cbn [read_works].
  apply no_fuel_bind; [apply ends_gets|]. intros k0 k1 [= <- <-]. unfold id.
  destruct (next_work p thread b k) as [w|] eqn:Hw; [|apply no_fuel_bind; [apply obj_ends|done]].
  apply next_work_queued in Hw. destruct (no_room end_ ptr); [done|]. cbv zeta.
  assert (Hnext : ∀ k' ptr', all_told k' ∧ (read_weight p thread k' < read_weight p thread k)%nat →
    no_fuel (read_works fuel p thread b buffer end_ ptr') k') by (intros k' ptr' [Hk' Hlt]; apply IH; [done|lia]).
  destruct w as [t|c|n|d].
  - apply no_fuel_bind; [apply deliver_transaction_ends|]. by intros [q|] k' _.
  - apply no_fuel_bind; [apply deliver_complete_ends|]. intros [q|] k' E; [|done]. apply Hnext.
    by eapply done_with_less, deliver_complete_done.
  - apply no_fuel_bind; [apply deliver_node_ends|]. intros [q|] k' E; [|done]. apply Hnext.
    destruct (deliver_node_done p thread n ptr k q k' Hk E) as [Hd|(x & x' & Hx & EL & EN & Ht & Hu)];
      [by eapply done_with_less|by eapply told_less].
  - apply no_fuel_bind; [apply deliver_death_ends|]. intros [[q [|]]|] k' E; [done| |done]. apply Hnext.
    by eapply done_with_less, deliver_death_done.
Qed.
End steps.

(** C30: the loop of [binder_thread_read] over the works ends: with three rounds
    for each work that is queued at the thread or its process, and one more, it
    never runs out of rounds, whatever the works are and wherever the read
    buffer ends.  A node stays on its list while its process is told about it,
    but there are at most two things to tell. *)
Theorem read_works_ends {AR : Arch} {RB : RBOps} {KR : Kernel} p thread wait_for_proc_work buffer end_ ptr k :
  (∀ n x, k_nodes k !! n = Some x → node_told_ok x) →
  read_works (S (3 * work_count p thread k)) p thread wait_for_proc_work buffer end_ ptr k ≠ Oops Fuel.
Proof.
  intros Hk. apply read_works_enough; [exact Hk|]. unfold read_weight, work_count.
  pose proof (weight_le k (works (thread_todo thread) k ++ works (proc_todo p) k)) as H. rewrite length_app in H. lia.
Qed.

Module ReadEndsDemo.
Import Example ReadDemo.

#[local] Instance node_told_ok_dec x : Decision (node_told_ok x).
Proof. unfold node_told_ok. tc_solve. Defined.

Lemma ready_told : map_Forall (λ _, node_told_ok) (k_nodes ready).
Proof. apply (bool_decide_unpack _). vm_compute. exact I. Qed.

(** The server's call of [ReadDemo], with the rounds of the theorem. *)
Lemma read_works_ends_witness :
  work_count server 100001 ready = 1%nat ∧
  read_works 4 server 100001 true 8192 (8192 + 256) 8196 ready ≠ Oops Fuel.
Proof.
  assert (E : work_count server 100001 ready = 1%nat) by (vm_compute; reflexivity). split; [exact E|].
  pose proof (read_works_ends server 100001 true 8192 (8192 + 256) 8196 ready) as H. rewrite E in H. apply H.
  exact ready_told.
Defined.
End ReadEndsDemo.
