(* ===== verification/BinderBuffers.v ===== *)
(** Buffers in the driver's state: reading and writing the record of a buffer,
    and what neither touches. *)
From S2P Require Import Prelude RBTree BinderAlloc BinderUapi BinderState BinderKernel BinderObject BinderTransaction.

Section buffers.
Context {AR : Arch}.
Implicit Types (k : kernel) (x : binder_buffer) (pr : binder_proc).

(** The record at [b], in the area of [p] and no other. *)
Definition buffer_at k (b p : Z) x : Prop :=
  ∃ pr, k_procs k !! p = Some pr ∧ a_heap (p_alloc pr) !! b = Some x ∧
    ∀ q qr, k_procs k !! q = Some qr → is_Some (a_heap (p_alloc qr) !! b) → q = p.

Definition no_area pr : binder_proc := pr <| p_alloc := zero_alloc |>.

(** Only areas differ, and of these only what is at [b]. *)
Definition area_step (b : Z) k k' : Prop :=
  ∃ P, k' = k <| k_procs := P |> ∧ (∀ q, no_area <$> P !! q = no_area <$> k_procs k !! q) ∧
    ∀ c q y, c ≠ b → buffer_at k c q y → buffer_at k' c q y.

Lemma buffer_at_owner k b p x : buffer_at k b p x → buffer_owner b k = Some p.
Proof.
  intros (pr & Hp & Hx & Hu). unfold buffer_owner.
  set (P := λ pp : Z * binder_proc, is_Some (a_heap (p_alloc pp.2) !! b)).
  assert (Hin : (p, pr) ∈ filter P (map_to_list (k_procs k))).
  { apply list_elem_of_filter. split; [unfold P; simpl; eauto|by apply elem_of_map_to_list]. }
  assert (Hall : ∀ pp, pp ∈ filter P (map_to_list (k_procs k)) → pp.1 = p).
  { intros [q qr] [Hq Hl]%list_elem_of_filter. apply elem_of_map_to_list in Hl. by apply (Hu q qr). }
  destruct (filter P (map_to_list (k_procs k))) as [|pp l]; [by apply not_elem_of_nil in Hin|].
  simpl. f_equal. apply Hall. by left.
Qed.

(** A step on the area of [p] that changes the record at [b] only. *)
Lemma area_update k b p pr x al :
  k_procs k !! p = Some pr → buffer_at k b p x → (∃ y, a_heap al = <[b := y]> (a_heap (p_alloc pr))) →
  area_step b k (k <| k_procs := <[p := pr <| p_alloc := al |>]> (k_procs k) |>).
Proof.
  intros Hp (pr' & Hp' & Hx & Hu) [y Hy]. rewrite Hp in Hp'. injection Hp' as <-.
  eexists. split; [done|]. split.
  - intros q. destruct (decide (p = q)) as [<-|]; [by rewrite lookup_insert_eq, Hp|by rewrite lookup_insert_ne].
  - intros c q z Hc (qr & Hq & Hz & Huq). simpl.
    assert (Hl : ∀ r rr, <[p := pr <| p_alloc := al |>]> (k_procs k) !! r = Some rr →
      ∃ rr0, k_procs k !! r = Some rr0 ∧ a_heap (p_alloc rr) !! c = a_heap (p_alloc rr0) !! c).
    { intros r rr. destruct (decide (p = r)) as [<-|]; [rewrite lookup_insert_eq|rewrite lookup_insert_ne by done; by exists rr].
      intros [= <-]. exists pr. split; [done|]. simpl. by rewrite Hy, lookup_insert_ne. }
    destruct (decide (p = q)) as [<-|Hpq].
    + exists (pr <| p_alloc := al |>). rewrite Hp in Hq. injection Hq as <-. split; [apply lookup_insert_eq|].
      split; [simpl; by rewrite Hy, lookup_insert_ne|]. intros r rr (rr0 & Hr & E)%Hl. rewrite E. by apply Huq.
    + exists qr. split; [simpl; by rewrite lookup_insert_ne|]. split; [done|].
      intros r rr (rr0 & Hr & E)%Hl. rewrite E. by apply Huq.
Qed.

Lemma buffer_at_update k b p pr x y al :
  k_procs k !! p = Some pr → buffer_at k b p x → a_heap al = <[b := y]> (a_heap (p_alloc pr)) →
  buffer_at (k <| k_procs := <[p := pr <| p_alloc := al |>]> (k_procs k) |>) b p y.
Proof.
  intros Hp (pr' & Hp' & Hx & Hu) Hal. rewrite Hp in Hp'. injection Hp' as <-.
  exists (pr <| p_alloc := al |>). split; [apply lookup_insert_eq|]. split; [simpl; by rewrite Hal, lookup_insert_eq|].
  intros q qr. simpl. destruct (decide (p = q)) as [<-|]; [done|]. rewrite lookup_insert_ne by done. apply Hu.
Qed.

Lemma get_buffer_ok k b p x :
  buffer_at k b p x → ∃ k', get_buffer b k = Ok (x, k') ∧ area_step b k k' ∧ buffer_at k' b p x.
Proof.
  intros Hb. pose proof Hb as (pr & Hp & Hx & Hu). unfold get_buffer.
  rewrite (st_bind_eq _ _ k p k) by (unfold mbind, st_bind, gets, the; by rewrite (buffer_at_owner k b p x Hb)).
  unfold on_alloc. rewrite (st_bind_eq _ _ _ _ _ (obj_ok k_procs k p pr Hp)), (st_bind_eq _ _ k k k) by done.
  set (al := set_stop (k_stop_on_user_error k) (p_alloc pr)).
  assert (E : buf b al = Ok (x, al)) by (unfold buf, mbind, st_bind, gets, the, al; simpl; by rewrite Hx).
  rewrite E. rewrite (st_bind_eq _ _ k tt (k <| k_procs := <[p := pr <| p_alloc := al |>]> (k_procs k) |>)).
  2:{ unfold modify. by destruct k. }
  assert (Hal : a_heap al = <[b := x]> (a_heap (p_alloc pr))) by (unfold al; simpl; by rewrite insert_id).
  eexists. split; [done|]. split; [eapply area_update; eauto|by eapply buffer_at_update].
Qed.

Lemma set_buffer_ok k b p x f :
  buffer_at k b p x → ∃ k', set_buffer b f k = Ok (tt, k') ∧ area_step b k k' ∧ buffer_at k' b p (f x).
Proof.
  intros Hb. pose proof Hb as (pr & Hp & Hx & Hu). unfold set_buffer.
  rewrite (st_bind_eq _ _ k p k) by (unfold mbind, st_bind, gets, the; by rewrite (buffer_at_owner k b p x Hb)).
  unfold on_alloc. rewrite (st_bind_eq _ _ _ _ _ (obj_ok k_procs k p pr Hp)), (st_bind_eq _ _ k k k) by done.
  set (al0 := set_stop (k_stop_on_user_error k) (p_alloc pr)).
  set (al := set_heap (<[b := f x]> (a_heap al0)) al0).
  assert (E : upd_buf b f al0 = Ok (tt, al)).
  { unfold upd_buf, buf, mbind, st_bind, gets, the, modify, al0. simpl. by rewrite Hx. }
  rewrite E. rewrite (st_bind_eq _ _ k tt (k <| k_procs := <[p := pr <| p_alloc := al |>]> (k_procs k) |>)).
  2:{ unfold modify. by destruct k. }
  assert (Hal : a_heap al = <[b := f x]> (a_heap (p_alloc pr))) by done.
  eexists. split; [done|]. split; [eapply area_update; eauto|by eapply buffer_at_update].
Qed.

Lemma area_step_fields b k k' : area_step b k k' →
  k_threads k' = k_threads k ∧ k_nodes k' = k_nodes k ∧ k_refs k' = k_refs k ∧ k_transactions k' = k_transactions k ∧
  k_lists k' = k_lists k ∧ k_woken k' = k_woken k ∧ k_deaths k' = k_deaths k.
Proof. by intros (P & -> & _). Qed.
End buffers.
