(* ===== verification/BinderReplySpec.v ===== *)
(** Failed replies: [binder_send_failed_reply] ends, and the error reaches the
    nearest sender that is still there. *)
From S2P Require Import Prelude RBTree BinderAlloc BinderUapi BinderState BinderKernel BinderObject BinderTransaction BinderWrite BinderRead BinderLifecycle BinderExamples BinderFrames BinderBuffers.

Section reply.
Context {AR : Arch} {RB : RBOps} {KR : Kernel}.
Implicit Types (k : kernel) (x : binder_transaction_t) (th : binder_thread).

(** ** Ending *)

(** The steps below a transaction's end that say nothing of transactions. *)
Definition same_transactions k k' : Prop := k_transactions k' = k_transactions k.
#[local] Instance same_transactions_preorder : PreOrder same_transactions.
Proof. split; [by intros k|]. intros k1 k2 k3 H1 H2. unfold same_transactions in *. congruence. Qed.

Lemma set_buffer_transactions b f : keeps same_transactions (set_buffer b f).
Proof.
  unfold set_buffer, on_alloc, obj. repeat first [keep_step|apply keeps_modify; intros; reflexivity].
Qed.

Lemma pop_ends target_thread t : ends (binder_pop_transaction target_thread t).
Proof. end_steps. Qed.

(** The end of a transaction frees one. *)
Lemma pop_dead_frees t k k' :
  binder_pop_transaction 0 t k = Ok (tt, k') → (size (k_transactions k') < size (k_transactions k))%nat.
Proof.
  unfold binder_pop_transaction. simpl. intros (_ & k0 & [= <-] & E)%st_bind_ok.
  apply st_bind_ok in E as ([] & k2 & E2 & E). unfold set_obj in E2.
  apply st_bind_ok in E2 as (x & k1 & [Hx ->]%obj_inv & [= <-]).
  apply st_bind_ok in E as (x2 & k3 & [Hx2 ->]%obj_inv & E).
  apply st_bind_ok in E as ([] & k4 & E4 & E).
  subst k0.
  assert (H4 : k_transactions k4 = <[t := x <| x_need_reply := false |>]> (k_transactions k)).
  { unfold when in E4. case_match; [|by injection E4 as <-].
    destruct (set_buffer_transactions _ _ _ _ _ E4) as [Hs _]. exact Hs. }
  apply st_bind_ok in E as ([] & k5 & E5 & [= <-]). unfold free_obj in E5.
  apply st_bind_ok in E5 as (x5 & k6 & [Hx5 ->]%obj_inv & [= <-]). simpl. rewrite H4.
  rewrite delete_insert_eq. rewrite map_size_delete_Some by (exists x; exact Hx).
  assert (size (k_transactions k) ≠ 0)%nat; [|lia]. intros E0%map_size_empty_inv. rewrite E0 in Hx. by rewrite lookup_empty in Hx.
Qed.

Lemma send_failed_reply_loop_ends fuel t e k :
  (size (k_transactions k) < fuel)%nat → no_fuel (send_failed_reply_loop fuel t e) k.
Proof.
  revert t k. induction fuel as [|fuel IH]; intros t k Hf; [lia|]. cbn [send_failed_reply_loop].
  apply no_fuel_bind; [apply obj_ends|].
  intros x k0 [Hx ->]%obj_inv. destruct (negb (x_from x =? 0)).
  - match goal with |- no_fuel ?m _ => cut (ends m); [intros H; apply H|] end.
    pose proof pop_ends. end_steps; auto.
  - apply no_fuel_bind; [apply pop_ends|]. intros [] k1 E1%pop_dead_frees.
    destruct (x_from_parent x =? 0); [done|]. apply IH. lia.
Qed.

(** ** What a failed reply does *)

(** A buffer that is in the area of one process. *)
Definition located k b : Prop := ∃ p y, buffer_at k b p y.
Definition buffers_located k : Prop := ∀ t x, k_transactions k !! t = Some x → x_buffer x = 0 ∨ located k (x_buffer x).

(** The process whose area holds the buffer at [b], when the buffer's
    transaction is gone; [stop] is the driver's [binder_stop_on_user_error],
    which the area reads. *)
Definition forget_buffer (stop b : Z) (pr : binder_proc) : binder_proc :=
  match a_heap (p_alloc pr) !! b with
  | Some y => pr <| p_alloc %= λ al, set_heap (<[b := y <| b_transaction := 0 |>]> (a_heap al)) (set_stop stop al) |>
  | None => pr
  end.

(** The state without the transaction [t]: its buffer has no transaction, and
    one more transaction is counted as deleted. *)
Definition freed t k : kernel :=
  match k_transactions k !! t with
  | Some x =>
      k <| k_transactions %= delete t |>
        <| k_procs %= (if x_buffer x =? 0 then id else fmap (forget_buffer (k_stop_on_user_error k) (x_buffer x))) |>
        <| k_stats %= λ s, s <| st_deleted %= count BINDER_STAT_TRANSACTION |> |>
  | None => k
  end.

Lemma forget_heap stop b pr c : is_Some (a_heap (p_alloc (forget_buffer stop b pr)) !! c) ↔ is_Some (a_heap (p_alloc pr) !! c).
Proof.
  unfold forget_buffer. destruct (a_heap (p_alloc pr) !! b) as [y|] eqn:E; [|done]. simpl.
  destruct (decide (b = c)) as [<-|]; [rewrite lookup_insert_eq, E|by rewrite lookup_insert_ne].
  split; intros _; by eexists.
Qed.

Lemma located_forget k stop b c P :
  P = fmap (forget_buffer stop b) (k_procs k) → located k c → located (k <| k_procs := P |>) c.
Proof.
  intros -> (p & y & pr & Hp & Hy & Hu).
  assert (is_Some (a_heap (p_alloc (forget_buffer stop b pr)) !! c)) as [z Hz] by (apply forget_heap; by eexists).
  exists p, z, (forget_buffer stop b pr). simpl. split; [by rewrite lookup_fmap, Hp|]. split; [done|].
  intros q qr. intros (q0 & <- & Hq)%lookup_fmap_Some Hs. apply forget_heap in Hs. by apply (Hu q q0).
Qed.

Lemma located_freed t k c : located k c → located (freed t k) c.
Proof.
  unfold freed. destruct (k_transactions k !! t) as [x|]; [|done]. intros Hl.
  destruct (x_buffer x =? 0); [exact Hl|].
  exact (located_forget k (k_stop_on_user_error k) (x_buffer x) c _ eq_refl Hl).
Qed.

(** The record of a buffer is reset where it is. *)
Lemma set_buffer_forgets k b :
  located k b → set_buffer b (λ y, y <| b_transaction := 0 |>) k =
    Ok (tt, k <| k_procs %= fmap (forget_buffer (k_stop_on_user_error k) b) |>).
Proof.
  intros (p & y & Hb). pose proof Hb as (pr & Hp & Hy & Hu). unfold set_buffer.
  rewrite (st_bind_eq _ _ k p k) by (unfold mbind, st_bind, gets, the; by rewrite (buffer_at_owner k b p y Hb)).
  unfold on_alloc. rewrite (st_bind_eq _ _ _ _ _ (obj_ok k_procs k p pr Hp)), (st_bind_eq _ _ k k k) by done.
  set (al0 := set_stop (k_stop_on_user_error k) (p_alloc pr)).
  assert (E : upd_buf b (λ y, y <| b_transaction := 0 |>) al0 = Ok (tt, set_heap (<[b := y <| b_transaction := 0 |>]> (a_heap al0)) al0)).
  { unfold upd_buf, buf, mbind, st_bind, gets, the, modify, al0. simpl. by rewrite Hy. }
  rewrite E. unfold modify, mbind, st_bind, mret, st_ret. do 2 f_equal.
  assert (Ef : <[p := pr <| p_alloc := set_heap (<[b := y <| b_transaction := 0 |>]> (a_heap al0)) al0 |>]> (k_procs k) =
    fmap (forget_buffer (k_stop_on_user_error k) b) (k_procs k)).
  { apply map_eq. intros q. rewrite lookup_fmap. destruct (decide (p = q)) as [<-|Hq].
    - rewrite lookup_insert_eq, Hp. simpl. unfold forget_buffer. by rewrite Hy.
    - rewrite lookup_insert_ne by done. destruct (k_procs k !! q) as [qr|] eqn:Eq; [|done]. simpl. unfold forget_buffer.
      destruct (a_heap (p_alloc qr) !! b) eqn:Eb; [|done]. destruct Hq. symmetry. apply (Hu q qr Eq). by eexists. }
  unfold update, field_k_procs. rewrite <- Ef. by destruct k.
Qed.

(** The end of a transaction of which no thread waits. *)
Lemma pop_dead_ok t x k :
  k_transactions k !! t = Some x → x_buffer x = 0 ∨ located k (x_buffer x) →
  binder_pop_transaction 0 t k = Ok (tt, freed t k).
Proof.
  intros Hx Hb. unfold binder_pop_transaction, freed. rewrite Hx, (st_bind_eq _ _ k tt k) by done.
  rewrite (st_bind_eq _ _ _ _ _ (set_obj_ok k_transactions k t _ x Hx)).
  set (x1 := x <| x_need_reply := false |>). set (k1 := update k_transactions _ k).
  assert (H1 : k_transactions k1 !! t = Some x1) by apply lookup_insert_eq.
  rewrite (st_bind_eq _ _ _ _ _ (obj_ok k_transactions k1 t x1 H1)).
  set (k2 := k1 <| k_procs %= (if x_buffer x =? 0 then id else fmap (forget_buffer (k_stop_on_user_error k) (x_buffer x))) |>).
  rewrite (st_bind_eq _ _ k1 tt k2).
  2:{ replace (x_buffer x1) with (x_buffer x) by done. unfold k2. destruct (Z.eqb_spec (x_buffer x) 0) as [E0|E0].
      - unfold mret, st_ret, when. by destruct k.
      - destruct Hb as [?|Hb]; [done|]. exact (set_buffer_forgets k1 _ Hb). }
  rewrite (st_bind_eq _ _ _ _ _ (free_obj_ok k_transactions k2 t x1 H1)).
  unfold binder_stats_deleted, modify. do 2 f_equal. unfold k2, k1.
  unfold update, field_k_transactions, field_k_procs, field_k_stats. destruct k. cbn. by rewrite delete_insert_eq.
Qed.

(** The thread that waits for a reply it will not get. *)
Definition failed_thread (e next : Z) th : binder_thread :=
  th <| t_transaction_stack := next |>
     <| t_return_error2 := if t_return_error th =? BR_OK then t_return_error2 th else t_return_error th |>
     <| t_return_error := e |>.

(** The senders from [t] on: [dead] are the transactions whose sender is gone,
    [r] the first that has one, if there is one. *)
Inductive senders k : Z → list Z → option Z → Prop :=
| senders_found t x : k_transactions k !! t = Some x → x_from x ≠ 0 → senders k t [] (Some t)
| senders_none t x : k_transactions k !! t = Some x → x_from x = 0 → x_from_parent x = 0 → senders k t [t] None
| senders_dead t x dead r :
    k_transactions k !! t = Some x → x_from x = 0 → x_from_parent x ≠ 0 → t ∉ dead →
    senders k (x_from_parent x) dead r → senders k t (t :: dead) r.

(** The state in which the error [e] has reached the sender of [r]: with both
    its error slots taken it is lost. *)
Definition told (e : Z) (r : option Z) (dead : list Z) k k' : Prop :=
  let k1 := foldl (λ k t, freed t k) k dead in
  match r with
  | None => k' = k1
  | Some r =>
      ∃ x th, k_transactions k !! r = Some x ∧ k_threads k !! x_from x = Some th ∧
      k' = if (t_return_error th =? BR_OK) || (t_return_error2 th =? BR_OK) then
             freed r k1 <| k_threads %= <[x_from x := failed_thread e (x_from_parent x) th]> |>
                        <| k_woken %= cons (thread_wait (x_from x)) |>
           else k1
  end.

(** The sender waits for [r] and no other transaction. *)
Definition sender_waits k (r : option Z) : Prop :=
  ∀ t x, r = Some t → k_transactions k !! t = Some x → ∃ th, k_threads k !! x_from x = Some th ∧ t_transaction_stack th = t.

Lemma freed_threads t k : k_threads (freed t k) = k_threads k.
Proof. unfold freed. by destruct (k_transactions k !! t). Qed.
Lemma freed_transactions t k : k_transactions (freed t k) = delete t (k_transactions k).
Proof. unfold freed. destruct (k_transactions k !! t) eqn:E; [done|]. by rewrite delete_id. Qed.

(** [freed] does not look at the threads, and of its transaction only at the
    buffer. *)
Lemma freed_after_threads t f k : freed t (update k_threads f k) = update k_threads f (freed t k).
Proof. unfold freed. cbn. by destruct (k_transactions k !! t). Qed.

Lemma freed_after_set t x y k :
  k_transactions k !! t = Some x → x_buffer y = x_buffer x → freed t (update k_transactions (<[t := y]>) k) = freed t k.
Proof.
  intros Hx Hy. unfold freed. cbn. rewrite lookup_insert_eq, Hx, Hy.
  unfold update, field_k_transactions, field_k_procs, field_k_stats. cbn. by rewrite delete_insert_eq.
Qed.

Lemma update_threads_twice tid th th' k :
  update k_threads (<[tid := th']>) (update k_threads (<[tid := th]>) k) = update k_threads (<[tid := th']>) k.
Proof. unfold update, field_k_threads. cbn. by rewrite insert_insert_eq. Qed.

Lemma pop_live_ok tid th t x k :
  tid ≠ 0 → k_threads k !! tid = Some th → t_transaction_stack th = t → k_transactions k !! t = Some x → x_from x = tid →
  x_buffer x = 0 ∨ located k (x_buffer x) →
  binder_pop_transaction tid t k =
    Ok (tt, freed t k <| k_threads %= <[tid := th <| t_transaction_stack := x_from_parent x |>]> |>).
Proof.
  intros Ht Hth Hs Hx Hf Hb.
  set (k1 := update k_threads (<[tid := th <| t_transaction_stack := x_from_parent x |>]>) k).
  set (k2 := update k_transactions (<[t := x <| x_from := 0 |>]>) k1).
  assert (Hx2 : k_transactions k2 !! t = Some (x <| x_from := 0 |>)) by apply lookup_insert_eq.
  transitivity (binder_pop_transaction 0 t k2).
  - unfold binder_pop_transaction at 1. apply Z.eqb_neq in Ht as Ht'. rewrite Ht'. cbn [negb when].
    rewrite (st_bind_eq _ _ k tt k2); [reflexivity|].
    rewrite (st_bind_eq _ _ _ _ _ (obj_ok k_threads k tid th Hth)), Hs, Z.eqb_refl. cbn [negb bug_on].
    rewrite (st_bind_eq _ _ k tt k) by done. rewrite (st_bind_eq _ _ _ _ _ (obj_ok k_transactions k t x Hx)), Hf, Z.eqb_refl.
    cbn [negb bug_on]. rewrite (st_bind_eq _ _ k tt k) by done.
    rewrite (st_bind_eq _ _ _ _ _ (set_obj_ok k_threads k tid _ th Hth)).
    exact (set_obj_ok k_transactions k1 t _ x Hx).
  - rewrite (pop_dead_ok t _ k2 Hx2 Hb). do 2 f_equal. unfold k2.
    rewrite (freed_after_set t x) by done. apply freed_after_threads.
Qed.

Lemma senders_freed k s x t dead r :
  k_transactions k !! s = Some x → x_from x = 0 → s ∉ dead → senders k t dead r → senders (freed s k) t dead r.
Proof.
  intros Hs Hf Hd HS. revert Hd.
  assert (Hl : ∀ a y, a ≠ s → k_transactions k !! a = Some y → k_transactions (freed s k) !! a = Some y).
  { intros a y Ha Hy. by rewrite freed_transactions, lookup_delete_ne. }
  induction HS as [a y Ha Hn|a y Ha Hn Hp|a y dead r Ha Hn Hp Hi HS IH]; intros Hd.
  - apply (senders_found _ _ y); [|done]. apply Hl; [|done]. intros ->. congruence.
  - apply (senders_none _ _ y); [|done..]. apply Hl; [|done]. intros ->. apply Hd. by left.
  - apply (senders_dead _ _ y); [|done..|apply IH; intros ?; apply Hd; by right]. apply Hl; [|done]. intros ->. apply Hd. by left.
Qed.

(** The turn of the loop at a transaction with a sender. *)
Definition tell_sender (tid t e : Z) : K unit :=
  th ← obj k_threads tid;
  when (negb (t_return_error th =? BR_OK) && (t_return_error2 th =? BR_OK))
    (set_obj k_threads tid (λ th, th <| t_return_error2 := t_return_error th |> <| t_return_error := BR_OK |>)) ;;
  th ← obj k_threads tid;
  when (t_return_error th =? BR_OK)
    (binder_pop_transaction tid t ;;
     set_obj k_threads tid (λ th, th <| t_return_error := e |>) ;;
     wake_up (thread_wait tid)).

Lemma tell_sender_ok t x th e k :
  x_from x ≠ 0 → k_transactions k !! t = Some x → k_threads k !! x_from x = Some th → t_transaction_stack th = t →
  x_buffer x = 0 ∨ located k (x_buffer x) →
  ∃ k', tell_sender (x_from x) t e k = Ok (tt, k') ∧ told e (Some t) [] k k'.
Proof.
  intros Hn Hx Hth Hst Hb. unfold tell_sender. rewrite (st_bind_eq _ _ _ _ _ (obj_ok k_threads k _ th Hth)).
  set (room := (t_return_error th =? BR_OK) || (t_return_error2 th =? BR_OK)).
  set (th1 := if negb (t_return_error th =? BR_OK) && (t_return_error2 th =? BR_OK)
              then th <| t_return_error2 := t_return_error th |> <| t_return_error := BR_OK |> else th).
  set (k1 := update k_threads (<[x_from x := th1]>) k).
  rewrite (st_bind_eq _ _ k tt k1).
  2:{ unfold k1, th1, when. case_match; [by rewrite (set_obj_ok k_threads k _ _ th Hth)|].
      unfold mret, st_ret. do 2 f_equal. clear -Hth. unfold update, field_k_threads. rewrite insert_id by done. by destruct k. }
  assert (H1 : k_threads k1 !! x_from x = Some th1) by apply lookup_insert_eq.
  rewrite (st_bind_eq _ _ _ _ _ (obj_ok k_threads k1 _ th1 H1)).
  assert (Er : (t_return_error th1 =? BR_OK) = room).
  { unfold th1, room. destruct (t_return_error th =? BR_OK) eqn:E1; cbn [negb andb orb]; [done|].
    destruct (t_return_error2 th =? BR_OK) eqn:E2; [done|]. exact E1. }
  rewrite Er. exists (if room then freed t k <| k_threads %= <[x_from x := failed_thread e (x_from_parent x) th]> |>
    <| k_woken %= cons (thread_wait (x_from x)) |> else k).
  split; [|exists x, th; split; [done|]; split; [done|]; unfold room; by case_match].
  destruct room eqn:Hr; cbn [when].
  - assert (S1 : t_transaction_stack th1 = t) by (unfold th1; by case_match).
    rewrite (st_bind_eq _ _ _ _ _ (pop_live_ok (x_from x) th1 t x k1 Hn H1 S1 Hx eq_refl Hb)).
    set (th2 := th1 <| t_transaction_stack := x_from_parent x |>).
    set (k2 := update k_threads (<[x_from x := th2]>) (freed t k1)).
    assert (H2 : k_threads k2 !! x_from x = Some th2) by apply lookup_insert_eq.
    rewrite (st_bind_eq _ _ _ _ _ (set_obj_ok k_threads k2 _ _ th2 H2)).
    assert (Et : th2 <| t_return_error := e |> = failed_thread e (x_from_parent x) th).
    { unfold th2, th1, failed_thread. unfold room in Hr. destruct th as [??????? ]. cbn in *.
      destruct (t_return_error =? BR_OK); cbn in *; [done|]. by rewrite Hr. }
    rewrite Et. unfold wake_up, modify, k2, k1. rewrite freed_after_threads, !update_threads_twice. done.
  - unfold room in Hr. apply orb_false_elim in Hr as [E1 E2]. unfold mret, st_ret. do 2 f_equal.
    unfold k1, th1. rewrite E1, E2. cbn. unfold update, field_k_threads. rewrite insert_id by done. by destruct k.
Qed.

(** The loop, by the senders. *)
Lemma send_failed_reply_loop_ok e fuel t dead r k :
  senders k t dead r → buffers_located k → sender_waits k r → (length dead < fuel)%nat →
  ∃ k', send_failed_reply_loop fuel t e k = Ok (tt, k') ∧ told e r dead k k'.
Proof.
  revert t dead k. induction fuel as [|fuel IH]; intros t dead k HS HB HW Hf; [lia|]. cbn [send_failed_reply_loop].
  inversion HS as [t' x Hx Hn|t' x Hx Hn Hp|t' x dead' r' Hx Hn Hp Hi HS']; subst t'; subst;
    rewrite (st_bind_eq _ _ _ _ _ (obj_ok k_transactions k t x Hx)).
  - destruct (HW t x eq_refl Hx) as (th & Hth & Hst). apply Z.eqb_neq in Hn as Hn'. rewrite Hn'. cbn [negb]. cbv zeta.
    exact (tell_sender_ok t x th e k Hn Hx Hth Hst (HB t x Hx)).
  - rewrite Hn. cbn [negb Z.eqb]. cbv zeta. rewrite (st_bind_eq _ _ _ _ _ (pop_dead_ok t x k Hx (HB t x Hx))), Hp.
    by exists (freed t k).
  - rewrite Hn. cbn [negb Z.eqb]. cbv zeta. rewrite (st_bind_eq _ _ _ _ _ (pop_dead_ok t x k Hx (HB t x Hx))).
    apply Z.eqb_neq in Hp as Hp'. rewrite Hp'.
    destruct (IH (x_from_parent x) dead' (freed t k)) as (k' & E' & Ht).
    + by eapply senders_freed.
    + intros a y. rewrite freed_transactions. intros [Ha Hy]%lookup_delete_Some.
      destruct (HB a y Hy); [by left|right; by apply located_freed].
    + intros a y Ea. rewrite freed_transactions, freed_threads. intros [Ha Hy]%lookup_delete_Some. by apply HW.
    + simpl in Hf. lia.
    + exists k'. split; [done|]. unfold told in *. destruct r as [r|]; [|exact Ht].
      destruct Ht as (y & th & Hy & Hth & Ht). rewrite freed_transactions in Hy. rewrite freed_threads in Hth.
      apply lookup_delete_Some in Hy as [? Hy]. by exists y, th.
Qed.

(** No more of the senders than there are transactions. *)
Lemma senders_bounded k t dead r :
  senders k t dead r → NoDup dead ∧ ∀ d, d ∈ dead → is_Some (k_transactions k !! d).
Proof.
  induction 1 as [| |t x dead r Hx Hn Hp Hi HS [IH1 IH2]].
  - split; [constructor|]. by intros d ?%not_elem_of_nil.
  - split; [apply NoDup_singleton|]. intros d ->%list_elem_of_singleton. by eexists.
  - split; [by constructor|]. intros d [->|Hd]%elem_of_cons; [by eexists|by apply IH2].
Qed.

Lemma keys_length {A} (m : gmap Z A) (l : list Z) : NoDup l → (∀ d, d ∈ l → is_Some (m !! d)) → (length l ≤ size m)%nat.
Proof.
  intros Hn Hl. rewrite <- size_dom, <- (size_list_to_set (C := gset Z) l Hn). apply subseteq_size.
  intros d Hd. apply elem_of_dom, Hl. set_solver.
Qed.

(** [binder_send_failed_reply] ends: whatever the transactions and their
    parents are, its loop runs at most once for each of them. *)
Theorem binder_send_failed_reply_ends t e k : binder_send_failed_reply t e k ≠ Oops Fuel.
Proof.
  apply no_fuel_bind; [apply obj_ends|]. intros x k1 [_ ->]%obj_inv.
  apply no_fuel_bind; [apply ends_bug_on|]. intros [] k2 E2.
  assert (k2 = k) as -> by (unfold bug_on in E2; case_match; [done|by injection E2]).
  apply no_fuel_bind; [done|]. intros k3 k4 [= <- <-]. apply send_failed_reply_loop_ends. unfold id. lia.
Qed.

(** C18: A failed reply reaches the nearest sender that is still there: the
    transactions below it whose sender is gone are freed, then that sender's
    transaction, and its thread gets the error, is woken, and waits for the
    transaction it waited for before; the sender's transaction stays, and its
    thread is not told, only when the thread still has two other errors to
    report.  A freed transaction's buffer no longer names it, and it counts as
    deleted.  The whole state is given: nothing else of it changes. *)
Theorem binder_send_failed_reply_correct t e dead r k :
  senders k t dead r → buffers_located k → sender_waits k r →
  (∀ x, k_transactions k !! t = Some x → has_flag (x_flags x) TF_ONE_WAY = false) →
  ∃ k', binder_send_failed_reply t e k = Ok (tt, k') ∧ told e r dead k k'.
Proof.
  intros HS HB HW Hf. assert (∃ x, k_transactions k !! t = Some x) as [x Hx] by (inversion HS; eauto).
  unfold binder_send_failed_reply. rewrite (st_bind_eq _ _ _ _ _ (obj_ok k_transactions k t x Hx)), (Hf x Hx).
  rewrite (st_bind_eq _ _ k tt k), (st_bind_eq _ _ k k k) by done.
  apply send_failed_reply_loop_ok; [done..|]. destruct (senders_bounded k t dead r HS) as [Hn Hd].
  pose proof (keys_length (k_transactions k) dead Hn Hd). unfold id. lia.
Qed.
End reply.

(** ** On the example: the client waits for the server, or has left *)

Module ReplyDemo.
Import Example.

(** What a run can check of [located] and of [buffers_located]. *)
Definition located_b (k : kernel) (b : Z) : bool :=
  match filter (λ pp : Z * binder_proc, is_Some (a_heap (p_alloc pp.2) !! b)) (map_to_list (k_procs k)) with
  | [_] => true
  | _ => false
  end.
Definition buffers_located_b (k : kernel) : bool :=
  forallb (λ tx : Z * binder_transaction_t, (x_buffer tx.2 =? 0) || located_b k (x_buffer tx.2)) (map_to_list (k_transactions k)).

Lemma located_b_ok k b : located_b k b = true → located k b.
Proof.
  unfold located_b. intros H.
  destruct (filter _ _) as [|[p pr] [|]] eqn:E; [done| |done].
  assert (Hp : (p, pr) ∈ [(p, pr)]) by by left. rewrite <- E in Hp.
  apply list_elem_of_filter in Hp as [[y Hy] Hp%elem_of_map_to_list]. exists p, y, pr. split; [done|]. split; [exact Hy|].
  intros q qr Hq Hs. assert (Hin : (q, qr) ∈ [(p, pr)]).
  { rewrite <- E. apply list_elem_of_filter. split; [exact Hs|by apply elem_of_map_to_list]. }
  apply list_elem_of_singleton in Hin. by injection Hin.
Qed.

Lemma buffers_located_b_ok k : buffers_located_b k = true → buffers_located k.
Proof.
  intros H t x Hx. apply elem_of_map_to_list in Hx.
  unfold buffers_located_b in H. rewrite forallb_forall in H. specialize (H (t, x)). rewrite <- list_elem_of_In in H.
  specialize (H Hx). apply orb_prop in H as [H%Z.eqb_eq|H]; [by left|right; by apply located_b_ok].
Qed.

(** The server has the client's call; then the client's thread exits. *)
Definition left : kernel := state_after (as_task 2 ;; binder_ioctl 6 client BINDER_THREAD_EXIT 0 true) received.

Definition call_in (k : kernel) : binder_transaction_t := default zero_transaction (k_transactions k !! 100005).

Lemma some_is {A} (o : option A) (a x : A) : o = Some a → o = Some x → x = a.
Proof. by intros -> [= ->]. Qed.

Lemma call_received : k_transactions received !! 100005 = Some (call_in received).
Proof. vm_compute. reflexivity. Qed.
Lemma call_left : k_transactions left !! 100005 = Some (call_in left).
Proof. vm_compute. reflexivity. Qed.

Theorem binder_send_failed_reply_correct_witness :
  (∃ k', binder_send_failed_reply 100005 BR_DEAD_REPLY received = Ok (tt, k') ∧
    told BR_DEAD_REPLY (Some 100005) [] received k') ∧
  (∃ k', binder_send_failed_reply 100005 BR_DEAD_REPLY left = Ok (tt, k') ∧
    told BR_DEAD_REPLY None [100005] left k').
Proof.
  split; apply binder_send_failed_reply_correct.
  - apply (senders_found _ _ _ call_received). vm_compute. discriminate.
  - apply buffers_located_b_ok. vm_compute. reflexivity.
  - intros t x Et Hx. injection Et as <-. rewrite (some_is _ _ _ call_received Hx).
    exists (default zero_thread (k_threads received !! 100004)). split; vm_compute; reflexivity.
  - intros x Hx. rewrite (some_is _ _ _ call_received Hx). vm_compute. reflexivity.
  - apply (senders_none _ _ _ call_left); vm_compute; reflexivity.
  - apply buffers_located_b_ok. vm_compute. reflexivity.
  - intros t x Et. discriminate Et.
  - intros x Hx. rewrite (some_is _ _ _ call_left Hx). vm_compute. reflexivity.
Defined.
End ReplyDemo.
