(* ===== verification/BinderObjectInv.v ===== *)
(** The invariant of nodes and references, and its preservation by the single
    updates the driver makes: counting, creating and deleting them. *)
From S2P Require Import Prelude RBTree BinderAlloc BinderUapi BinderState BinderKernel BinderObject.

Section inv.
Context {RB : RBOps} {RL : RBLaws}.
Implicit Types (N : gmap Z binder_node) (R : gmap Z binder_ref) (P : gmap Z binder_proc)
  (D : gmap Z binder_ref_death) (dead : list Z) (x : binder_node) (y : binder_ref) (pr : binder_proc).

(** What a reference adds to [internal_strong_refs] of node [n]. *)
Definition strong_of (n : Z) y : Z := if (r_node y =? n) && negb (r_strong y =? 0) then 1 else 0.

(** The trees of a process hold its nodes, by [ptr], and its references, by
    [desc] and by [node]. *)
Record proc_trees N R (p : Z) pr : Prop := {
  pt_nodes : tree_ok n_ptr N (p_nodes pr);
  pt_nodes_in : ∀ n, n ∈ inorder (p_nodes pr) ↔ ∃ x, N !! n = Some x ∧ n_proc x = p;
  pt_desc : tree_ok r_desc R (p_refs_by_desc pr);
  pt_desc_in : ∀ r, r ∈ inorder (p_refs_by_desc pr) ↔ ∃ y, R !! r = Some y ∧ r_proc y = p;
  pt_node : tree_ok r_node R (p_refs_by_node pr);
  pt_node_in : ∀ r, r ∈ inorder (p_refs_by_node pr) ↔ ∃ y, R !! r = Some y ∧ r_proc y = p
}.

Record ref_wf N P D y : Prop := {
  rw_node : is_Some (N !! r_node y);
  rw_proc : is_Some (P !! r_proc y);
  rw_strong : 0 <= r_strong y < 2 ^ 31;
  rw_weak : 0 <= r_weak y < 2 ^ 31;
  rw_death : r_death y ≠ 0 → is_Some (D !! r_death y);
  rw_desc : 0 <= r_desc y < 2 ^ 32
}.

Record obj_inv N R P D dead : Prop := {
  oi_strong : ∀ n x, N !! n = Some x → n_internal_strong_refs x = msum (strong_of n) R;
  oi_refs : ∀ n x r, N !! n = Some x → r ∈ n_refs x ↔ ∃ y, R !! r = Some y ∧ r_node y = n;
  oi_ref : ∀ r y, R !! r = Some y → ref_wf N P D y;
  oi_death : ∀ r1 r2 y1 y2, R !! r1 = Some y1 → R !! r2 = Some y2 →
    r_death y1 = r_death y2 → r_death y1 ≠ 0 → r1 = r2;
  oi_trees : ∀ p pr, P !! p = Some pr → proc_trees N R p pr;
  oi_node : ∀ n x, N !! n = Some x → n_proc x ≠ 0 → is_Some (P !! n_proc x);
  oi_dead : ∀ n, n ∈ dead ↔ ∃ x, N !! n = Some x ∧ n_proc x = 0;
  oi_null : N !! 0 = None ∧ R !! 0 = None ∧ P !! 0 = None;
  oi_count : ∀ n x, N !! n = Some x → n_internal_strong_refs x < 2 ^ 31
}.

Definition objects_ok (k : kernel) : Prop :=
  obj_inv (k_nodes k) (k_refs k) (k_procs k) (k_deaths k) (k_dead_nodes k).

(** ** Counting *)

(** Trees do not see the counters. *)
Lemma proc_trees_ext N R N' R' p pr :
  proc_trees N R p pr →
  (∀ n, (λ x, (n_ptr x, n_proc x)) <$> N' !! n = (λ x, (n_ptr x, n_proc x)) <$> N !! n) →
  (∀ r, (λ y, (r_desc y, r_node y, r_proc y)) <$> R' !! r = (λ y, (r_desc y, r_node y, r_proc y)) <$> R !! r) →
  proc_trees N' R' p pr.
Proof.
  intros [H1 H2 H3 H4 H5 H6] HN HR.
  assert (Hr : ∀ r, (∃ y, R' !! r = Some y ∧ r_proc y = p) ↔ ∃ y, R !! r = Some y ∧ r_proc y = p).
  { intros r. specialize (HR r). destruct (R' !! r), (R !! r); simpl in HR; naive_solver congruence. }
  split.
  - eapply tree_ok_ext; [exact H1|]. intros a _. specialize (HN a). destruct (N' !! a), (N !! a); simpl in *; congruence.
  - intros n. rewrite H2. specialize (HN n). destruct (N' !! n), (N !! n); simpl in HN; naive_solver congruence.
  - eapply tree_ok_ext; [exact H3|]. intros a _. specialize (HR a). destruct (R' !! a), (R !! a); simpl in *; congruence.
  - intros r. by rewrite H4, Hr.
  - eapply tree_ok_ext; [exact H5|]. intros a _. specialize (HR a). destruct (R' !! a), (R !! a); simpl in *; congruence.
  - intros r. by rewrite H6, Hr.
Qed.

(** A reference counted, and its node with it. *)
Lemma count_inv N R P D dead r y y' x x' :
  obj_inv N R P D dead → R !! r = Some y → N !! r_node y = Some x →
  r_node y' = r_node y → r_proc y' = r_proc y → r_desc y' = r_desc y → r_death y' = r_death y →
  0 <= r_strong y' < 2 ^ 31 → 0 <= r_weak y' < 2 ^ 31 → n_internal_strong_refs x' < 2 ^ 31 →
  n_ptr x' = n_ptr x → n_proc x' = n_proc x → n_refs x' = n_refs x →
  n_internal_strong_refs x' = n_internal_strong_refs x - strong_of (r_node y) y + strong_of (r_node y) y' →
  obj_inv (<[r_node y := x']> N) (<[r := y']> R) P D dead.
Proof.
  intros [Hs Hr Hw Hd Ht Hn Hde (N0 & R0 & P0) Hc] Hy Hx E1 E2 E3 E4 E5 E6 Hlt F1 F2 F3 F4.
  assert (HN : ∀ n, <[r_node y := x']> N !! n = if decide (r_node y = n) then Some x' else N !! n).
  { intros n. case_decide; [subst; by rewrite lookup_insert_eq|by rewrite lookup_insert_ne]. }
  assert (HR : ∀ q, <[r := y']> R !! q = if decide (r = q) then Some y' else R !! q).
  { intros q. case_decide; [subst; by rewrite lookup_insert_eq|by rewrite lookup_insert_ne]. }
  split.
  - intros n z. rewrite HN, (msum_update _ R r y y' Hy). case_decide as En.
    + intros [= <-]. subst n. rewrite F4, (Hs _ x Hx). lia.
    + intros Hz. rewrite (Hs n z Hz). unfold strong_of. rewrite E1.
      destruct (Z.eqb_spec (r_node y) n); [done|]. simpl. lia.
  - intros n z q. rewrite HN, (lookup_insert_exists _ _ _ y) by (done || by rewrite E1). case_decide as En.
    + intros [= <-]. subst n. by rewrite F3, (Hr _ x q Hx).
    + intros Hz. by rewrite (Hr n z q Hz).
  - intros q z. rewrite HR. intros Hq. assert (Hz : ref_wf N P D z).
    { case_decide; [|by apply (Hw q)]. injection Hq as <-. destruct (Hw r y Hy) as [? ? ? ? ? ?].
      split; rewrite ?E1, ?E2, ?E3, ?E4; done. }
    destruct Hz as [G1 ? ? ? ? ?]. split; try done. rewrite HN. destruct (decide (r_node y = r_node z)); [eauto|done].
  - assert (G : ∀ q z, (if decide (r = q) then Some y' else R !! q) = Some z →
      ∃ z', R !! q = Some z' ∧ r_death z' = r_death z).
    { intros q z. case_decide; [subst; intros [= <-]; by exists y|by exists z]. }
    intros r1 r2 y1 y2. rewrite !HR. intros H1 H2. destruct (G _ _ H1) as (z1 & Z1 & <-), (G _ _ H2) as (z2 & Z2 & <-). by apply (Hd r1 r2 z1 z2).
  - intros p pr Hp. eapply proc_trees_ext; [by apply Ht| |].
    + intros n. rewrite HN. case_decide; [subst; rewrite Hx; simpl; congruence|done].
    + intros q. rewrite HR. case_decide; [subst; rewrite Hy; simpl; congruence|done].
  - intros n z. rewrite HN. case_decide; [intros [= <-]; rewrite F2; by apply (Hn _ x Hx)|apply Hn].
  - intros n. rewrite Hde. symmetry. apply (lookup_insert_exists _ _ _ x); [done|by rewrite F2].
  - rewrite HN, HR. split_and!; [case_decide; congruence|case_decide; congruence|done].
  - intros n z. rewrite HN. case_decide; [by intros [= <-]|apply Hc].
Qed.

(** Counters and flags of a node that no reference sees. *)
Lemma node_local_inv N R P D dead n x x' :
  obj_inv N R P D dead → N !! n = Some x →
  n_ptr x' = n_ptr x → n_proc x' = n_proc x → n_refs x' = n_refs x →
  n_internal_strong_refs x' = n_internal_strong_refs x →
  obj_inv (<[n := x']> N) R P D dead.
Proof.
  intros [Hs Hr Hw Hd Ht Hn Hde (N0 & R0 & P0) Hc] Hx F1 F2 F3 F4.
  assert (HN : ∀ m, <[n := x']> N !! m = if decide (n = m) then Some x' else N !! m).
  { intros m. case_decide; [subst; by rewrite lookup_insert_eq|by rewrite lookup_insert_ne]. }
  split; try done.
  - intros m z. rewrite HN. case_decide; [subst; intros [= <-]; rewrite F4; by apply Hs|apply Hs].
  - intros m z q. rewrite HN. case_decide; [subst; intros [= <-]; rewrite F3; by apply Hr|apply Hr].
  - intros q z Hq. destruct (Hw q z Hq) as [G1 ? ? ? ? ?]. split; try done. rewrite HN. case_decide; [eauto|done].
  - intros p pr Hp. eapply proc_trees_ext; [by apply Ht| |done].
    intros m. rewrite HN. case_decide; [subst; rewrite Hx; simpl; congruence|done].
  - intros m z. rewrite HN. case_decide; [intros [= <-]; rewrite F2; by apply (Hn n x Hx)|apply Hn].
  - intros m. rewrite Hde. symmetry. apply (lookup_insert_exists _ _ _ x); [done|by rewrite F2].
  - rewrite HN. split_and!; [case_decide; congruence|done..].
  - intros m z. rewrite HN. case_decide; [subst; intros [= <-]; rewrite F4; by eapply Hc|apply Hc].
Qed.

(** ** Deleting *)

Definition without_node (n : Z) pr : binder_proc := pr <| p_nodes %= rb_erase n |>.
Definition without_ref (r : Z) pr : binder_proc :=
  pr <| p_refs_by_desc %= rb_erase r |> <| p_refs_by_node %= rb_erase r |>.

(** A node without references goes. *)
Lemma delete_node_inv N R P D dead n x :
  obj_inv N R P D dead → N !! n = Some x → n_refs x = [] →
  obj_inv (delete n N) R (if n_proc x =? 0 then P else alter (without_node n) (n_proc x) P) D
    (if n_proc x =? 0 then list_del n dead else dead).
Proof.
  intros [Hs Hr Hw Hd Ht Hn Hde (N0 & R0 & P0) Hc] Hx Hrefs.
  assert (Hno : ∀ r y, R !! r = Some y → r_node y ≠ n).
  { intros r y Hy Hyn. assert (r ∈ n_refs x) by (apply (Hr n x r Hx); eauto). rewrite Hrefs in *. set_solver. }
  set (P' := if n_proc x =? 0 then P else _).
  assert (HP : ∀ p, is_Some (P' !! p) ↔ is_Some (P !! p)).
  { intros p. unfold P'. destruct (_ =? _); [done|]. by rewrite lookup_alter_is_Some. }
  assert (HN : ∀ m, delete n N !! m = if decide (n = m) then None else N !! m).
  { intros m. case_decide; [subst; by rewrite lookup_delete_eq|by rewrite lookup_delete_ne]. }
  split.
  - intros m z. rewrite HN. case_decide; [done|apply Hs].
  - intros m z r. rewrite HN. case_decide; [done|apply Hr].
  - intros r y Hy. destruct (Hw r y Hy) as [G1 G2 ? ? ? ?]. split; try done; [|by apply HP].
    rewrite HN. rewrite decide_False; [done|]. intros En. by destruct (Hno r y Hy).
  - done.
  - intros p pr Hp.
    assert (Hpr : ∃ pr0, P !! p = Some pr0 ∧
      (pr = if decide (n_proc x = p) then without_node n pr0 else pr0)).
    { unfold P' in Hp. destruct (Z.eqb_spec (n_proc x) 0) as [E0|E0].
      - exists pr. rewrite decide_False; [done|]. intros <-. rewrite E0 in Hp. congruence.
      - destruct (decide (n_proc x = p)) as [Ep|].
        + rewrite Ep, lookup_alter_eq in Hp. apply fmap_Some in Hp as (pr0 & ? & ->). by exists pr0.
        + rewrite lookup_alter_ne in Hp by done. by exists pr. }
    destruct Hpr as (pr0 & Hp0 & ->). destruct (Ht p pr0 Hp0) as [T1 T2 T3 T4 T5 T6].
    destruct (tree_ok_erase _ _ _ n T1) as [T1' E1].
    assert (Hin : ∀ m, m ∈ inorder (p_nodes (if decide (n_proc x = p) then without_node n pr0 else pr0)) ↔
      m ≠ n ∧ m ∈ inorder (p_nodes pr0)).
    { intros m. case_decide as Ep; simpl.
      - by rewrite E1, list_elem_of_filter.
      - split; [|tauto]. intros Hm. split; [|done]. intros ->. apply T2 in Hm as (? & ? & ?). congruence. }
    split; try (by case_decide).
    + assert (T : tree_ok n_ptr N (p_nodes (if decide (n_proc x = p) then without_node n pr0 else pr0)))
        by by case_decide.
      eapply tree_ok_ext; [exact T|]. intros m Hm. apply Hin in Hm as [Hm _]. by rewrite HN, decide_False by done.
    + intros m. by rewrite Hin, T2, lookup_delete_exists.
  - intros m z. rewrite HN. case_decide; [done|]. intros Hz Hz0. apply HP. by apply (Hn m z).
  - intros m. rewrite lookup_delete_exists. destruct (Z.eqb_spec (n_proc x) 0) as [E0|E0].
    + unfold list_del. by rewrite list_elem_of_filter, Hde.
    + rewrite Hde. split; [|by intros [_ ?]]. intros Hm. split; [|done]. intros ->. destruct Hm as (? & ? & ?). congruence.
  - rewrite HN. split_and!; [by case_decide|done|].
    apply eq_None_not_Some. rewrite HP, P0. by intros [? ?].
  - intros m z. rewrite HN. case_decide; [done|apply Hc].
Qed.

(** A reference goes: out of its trees, its node's list and count; so does its
    death notification. *)
Lemma delete_ref_inv N R P D dead r y x x' :
  obj_inv N R P D dead → R !! r = Some y → N !! r_node y = Some x →
  n_ptr x' = n_ptr x → n_proc x' = n_proc x → n_refs x' = list_del r (n_refs x) →
  n_internal_strong_refs x' = n_internal_strong_refs x - strong_of (r_node y) y →
  obj_inv (<[r_node y := x']> N) (delete r R) (alter (without_ref r) (r_proc y) P)
    (if r_death y =? 0 then D else delete (r_death y) D) dead.
Proof.
  intros [Hs Hr Hw Hd Ht Hn Hde (N0 & R0 & P0) Hc] Hy Hx F1 F2 F3 F4.
  assert (HN : ∀ n, <[r_node y := x']> N !! n = if decide (r_node y = n) then Some x' else N !! n).
  { intros n. case_decide; [subst; by rewrite lookup_insert_eq|by rewrite lookup_insert_ne]. }
  assert (HR : ∀ q, delete r R !! q = if decide (r = q) then None else R !! q).
  { intros q. case_decide; [subst; by rewrite lookup_delete_eq|by rewrite lookup_delete_ne]. }
  assert (HP : ∀ p, is_Some (alter (without_ref r) (r_proc y) P !! p) ↔ is_Some (P !! p)).
  { intros p. by rewrite lookup_alter_is_Some. }
  split.
  - intros n z. rewrite HN, (msum_delete _ R r y Hy). case_decide as En.
    + intros [= <-]. subst n. rewrite F4, (Hs _ x Hx). lia.
    + intros Hz. rewrite (Hs n z Hz). unfold strong_of. destruct (Z.eqb_spec (r_node y) n); [done|]. simpl. lia.
  - intros n z q. rewrite HN, lookup_delete_exists. case_decide as En.
    + intros [= <-]. subst n. rewrite F3. unfold list_del. by rewrite list_elem_of_filter, (Hr _ x q Hx).
    + intros Hz. rewrite (Hr n z q Hz). split; [|by intros [_ ?]]. intros Hq. split; [|done]. intros ->.
      destruct Hq as (? & ? & ?). congruence.
  - intros q z. rewrite HR. case_decide as Eq; [done|]. intros Hq. destruct (Hw q z Hq) as [G1 G2 ? ? G5 ?].
    split; try done; [rewrite HN; case_decide; [eauto|done]|by apply HP|].
    intros Hz. destruct (Z.eqb_spec (r_death y) 0) as [E0|E0]; [by apply G5|].
    rewrite lookup_delete_ne; [by apply G5|]. intros Edd. apply Eq. by apply (Hd r q y z).
  - intros r1 r2 y1 y2. rewrite !HR. repeat case_decide; try done. apply Hd.
  - intros p pr Hp.
    assert (Hpr : ∃ pr0, P !! p = Some pr0 ∧ pr = if decide (r_proc y = p) then without_ref r pr0 else pr0).
    { destruct (decide (r_proc y = p)) as [Ep|].
      - rewrite Ep, lookup_alter_eq in Hp. apply fmap_Some in Hp as (pr0 & ? & ->). by exists pr0.
      - rewrite lookup_alter_ne in Hp by done. by exists pr. }
    destruct Hpr as (pr0 & Hp0 & ->). destruct (Ht p pr0 Hp0) as [T1 T2 T3 T4 T5 T6].
    destruct (tree_ok_erase _ _ _ r T3) as [T3' E3], (tree_ok_erase _ _ _ r T5) as [T5' E5].
    assert (Hq : ∀ q, (∃ z, delete r R !! q = Some z ∧ r_proc z = p) ↔ q ≠ r ∧ ∃ z, R !! q = Some z ∧ r_proc z = p).
    { intros q. apply lookup_delete_exists. }
    assert (Hin : ∀ (root : binder_proc → tree Z), (∀ q, q ∈ inorder (root pr0) ↔ ∃ y, R !! q = Some y ∧ r_proc y = p) →
      (root (without_ref r pr0) = rb_erase r (root pr0)) →
      inorder (rb_erase r (root pr0)) = filter (λ b, b ≠ r) (inorder (root pr0)) →
      ∀ q, q ∈ inorder (root (if decide (r_proc y = p) then without_ref r pr0 else pr0)) ↔
        q ≠ r ∧ ∃ z, R !! q = Some z ∧ r_proc z = p).
    { intros root Hroot Ew Ee q. case_decide as Ep.
      - by rewrite Ew, Ee, list_elem_of_filter, Hroot.
      - rewrite Hroot. split; [|by intros [_ ?]]. intros Hz. split; [|done]. intros ->. destruct Hz as (? & ? & ?). congruence. }
    split.
    + assert (T : tree_ok n_ptr N (p_nodes (if decide (r_proc y = p) then without_ref r pr0 else pr0)))
        by by case_decide.
      eapply tree_ok_ext; [exact T|]. intros m _. rewrite HN.
      destruct (decide (r_node y = m)) as [<-|]; [rewrite Hx; simpl; congruence|done].
    + intros m. replace (p_nodes _) with (p_nodes pr0) by by case_decide. rewrite T2. symmetry.
      apply (lookup_insert_exists _ _ _ x); [done|by rewrite F2].
    + assert (T : tree_ok r_desc R (p_refs_by_desc (if decide (r_proc y = p) then without_ref r pr0 else pr0)))
        by by case_decide.
      eapply tree_ok_ext; [exact T|]. intros q Hq'. rewrite (Hin p_refs_by_desc) in Hq' by done. destruct Hq' as [Hq' _]. by rewrite HR, decide_False by done.
    + intros q. by rewrite Hq, (Hin p_refs_by_desc).
    + assert (T : tree_ok r_node R (p_refs_by_node (if decide (r_proc y = p) then without_ref r pr0 else pr0)))
        by by case_decide.
      eapply tree_ok_ext; [exact T|]. intros q Hq'. rewrite (Hin p_refs_by_node) in Hq' by done. destruct Hq' as [Hq' _]. by rewrite HR, decide_False by done.
    + intros q. by rewrite Hq, (Hin p_refs_by_node).
  - intros n z. rewrite HN. intros Hz Hz0. apply HP. case_decide; [simplify_eq; rewrite F2 in *; by apply (Hn _ x Hx)|by apply (Hn n z)].
  - intros n. rewrite Hde. symmetry. apply (lookup_insert_exists _ _ _ x); [done|by rewrite F2].
  - rewrite HN, HR. split_and!; [case_decide; congruence|by case_decide|].
    apply eq_None_not_Some. rewrite HP, P0. by intros [? ?].
  - intros n z. rewrite HN. case_decide as En; [|apply Hc]. intros [= <-]. rewrite F4. subst n.
    pose proof (Hc _ x Hx). unfold strong_of. destruct (_ && _); lia.
Qed.

(** ** Creating *)

Lemma new_node_inv N R P D dead n x p pr t :
  obj_inv N R P D dead → N !! n = None → n ≠ 0 → P !! p = Some pr →
  n_proc x = p → n_refs x = [] → n_internal_strong_refs x = 0 →
  tree_ok n_ptr (<[n := x]> N) t → inorder t ≡ₚ n :: inorder (p_nodes pr) →
  obj_inv (<[n := x]> N) R (<[p := pr <| p_nodes := t |>]> P) D dead.
Proof.
  intros [Hs Hr Hw Hd Ht Hn Hde (N0 & R0 & P0) Hc] Hnn Hn0 Hp E1 E2 E3 Hto Htp.
  assert (Hno : ∀ r y, R !! r = Some y → r_node y ≠ n).
  { intros r y Hy Hyn. subst n. destruct (rw_node _ _ _ _ (Hw r y Hy)) as [? ?]. congruence. }
  assert (Hp0 : p ≠ 0) by (intros ->; congruence).
  assert (HN : ∀ m, <[n := x]> N !! m = if decide (n = m) then Some x else N !! m).
  { intros m. case_decide; [subst; by rewrite lookup_insert_eq|by rewrite lookup_insert_ne]. }
  assert (HP : ∀ q, is_Some (<[p := pr <| p_nodes := t |>]> P !! q) ↔ is_Some (P !! q)).
  { intros q. rewrite lookup_insert_is_Some'. split; [intros [<-|]; eauto|by right]. }
  split.
  - intros m z. rewrite HN. case_decide as Em; [|apply Hs]. intros [= <-]. subst m. rewrite E3. symmetry.
    apply msum_zero. intros r y Hy. unfold strong_of. by destruct (Z.eqb_spec (r_node y) n); [destruct (Hno r y Hy)|].
  - intros m z r. rewrite HN. case_decide as Em; [|apply Hr]. intros [= <-]. subst m. rewrite E2.
    split; [by intros ?%not_elem_of_nil|]. intros (y & Hy & Hyn). by destruct (Hno r y Hy).
  - intros r y Hy. destruct (Hw r y Hy) as [G1 G2 ? ? ? ?]. split; try done; [|by apply HP].
    rewrite HN. case_decide; [eauto|done].
  - done.
  - intros q qr Hq.
    assert (Hqr : ∃ qr0, P !! q = Some qr0 ∧ qr = if decide (p = q) then qr0 <| p_nodes := t |> else qr0).
    { destruct (decide (p = q)) as [<-|].
      - rewrite lookup_insert_eq in Hq. exists pr. split; [done|congruence].
      - rewrite lookup_insert_ne in Hq by done. by exists qr. }
    destruct Hqr as (qr0 & Hq0 & ->). destruct (Ht q qr0 Hq0) as [T1 T2 T3 T4 T5 T6].
    split; try by case_decide.
    + case_decide as Eq; [exact Hto|]. eapply tree_ok_ext; [exact T1|]. intros m Hm.
      rewrite HN, decide_False; [done|]. intros <-. apply T2 in Hm as (? & ? & ?). congruence.
    + intros m. rewrite lookup_insert_new_exists by done. rewrite <- T2. case_decide as Eq.
      * subst q. simpl. rewrite Htp, elem_of_cons. simplify_eq. tauto.
      * split; [by right|]. intros [[_ ?]|?]; [congruence|done].
  - intros m z. rewrite HN. case_decide as Em; [intros [= <-] _; apply HP; rewrite E1; eauto|].
    intros Hz Hz0. apply HP. by apply (Hn m z).
  - intros m. rewrite lookup_insert_new_exists by done. rewrite Hde. split; [by right|]. intros [[_ ?]|?]; [congruence|done].
  - rewrite HN, decide_False by done. split_and!; [done..|]. by rewrite lookup_insert_ne.
  - intros m z. rewrite HN. case_decide as Em; [intros [= <-]; lia|apply Hc].
Qed.

Lemma new_ref_inv N R P D dead r y n x p pr td tn :
  obj_inv N R P D dead → R !! r = None → r ≠ 0 → N !! n = Some x → P !! p = Some pr →
  r_node y = n → r_proc y = p → r_strong y = 0 → r_weak y = 0 → r_death y = 0 → 0 <= r_desc y < 2 ^ 32 →
  tree_ok r_desc (<[r := y]> R) td → inorder td ≡ₚ r :: inorder (p_refs_by_desc pr) →
  tree_ok r_node (<[r := y]> R) tn → inorder tn ≡ₚ r :: inorder (p_refs_by_node pr) →
  obj_inv (<[n := x <| n_refs %= cons r |>]> N) (<[r := y]> R)
    (<[p := pr <| p_refs_by_node := tn |> <| p_refs_by_desc := td |>]> P) D dead.
Proof.
  intros [Hs Hr Hw Hd Ht Hn Hde (N0 & R0 & P0) Hc] Hrr Hr0 Hx Hp E1 E2 E3 E4 E5 E6 Ho1 Hp1 Ho2 Hp2.
  set (x' := x <| n_refs %= cons r |>).
  assert (HN : ∀ m, <[n := x']> N !! m = if decide (n = m) then Some x' else N !! m).
  { intros m. case_decide; [subst; by rewrite lookup_insert_eq|by rewrite lookup_insert_ne]. }
  assert (HR : ∀ q, <[r := y]> R !! q = if decide (r = q) then Some y else R !! q).
  { intros q. case_decide; [subst; by rewrite lookup_insert_eq|by rewrite lookup_insert_ne]. }
  assert (Hold : ∀ q z, <[r := y]> R !! q = Some z → (q = r ∧ z = y) ∨ R !! q = Some z).
  { intros q z. rewrite HR. case_decide; [intros [= <-]; by left|by right]. }
  set (P' := <[p := _]> P).
  assert (HP : ∀ q, is_Some (P' !! q) ↔ is_Some (P !! q)).
  { intros q. unfold P'. rewrite lookup_insert_is_Some'. split; [intros [<-|]; eauto|by right]. }
  split.
  - intros m z. rewrite HN, msum_insert by done.
    assert (strong_of m y = 0) as -> by (unfold strong_of; rewrite E3, andb_false_r; done).
    case_decide as Em; [intros [= <-]; subst m; apply (Hs _ x Hx)|apply Hs].
  - intros m z q. rewrite HN, lookup_insert_new_exists by done. case_decide as Em.
    + intros [= <-]. subst m. simpl. rewrite elem_of_cons, (Hr _ x q Hx). rewrite E1. tauto.
    + intros Hz. rewrite (Hr m z q Hz). split; [by right|]. intros [[_ ?]|?]; [congruence|done].
  - intros q z Hq. apply Hold in Hq as [[-> ->]|Hq].
    + split; [rewrite HN, E1, decide_True; eauto|apply HP; rewrite E2; eauto|lia|lia|congruence|done].
    + destruct (Hw q z Hq) as [G1 G2 ? ? ? ?]. split; try done; [|by apply HP]. rewrite HN. case_decide; [eauto|done].
  - intros r1 r2 y1 y2 H1 H2 Ed Hne. apply Hold in H1 as [[-> ->]|H1]; [congruence|].
    apply Hold in H2 as [[-> ->]|H2]; [congruence|]. by apply (Hd r1 r2 y1 y2).
  - intros q qr Hq.
    assert (Hqr : ∃ qr0, P !! q = Some qr0 ∧
      qr = if decide (p = q) then qr0 <| p_refs_by_node := tn |> <| p_refs_by_desc := td |> else qr0).
    { unfold P' in Hq. destruct (decide (p = q)) as [<-|].
      - rewrite lookup_insert_eq in Hq. exists pr. split; [done|congruence].
      - rewrite lookup_insert_ne in Hq by done. by exists qr. }
    destruct Hqr as (qr0 & Hq0 & ->). destruct (Ht q qr0 Hq0) as [T1 T2 T3 T4 T5 T6].
    assert (HTN : tree_ok n_ptr (<[n := x']> N) (p_nodes qr0)).
    { eapply tree_ok_ext; [exact T1|]. intros m _. rewrite HN.
      destruct (decide (n = m)) as [<-|]; [by rewrite Hx|done]. }
    assert (HTI : ∀ m, m ∈ inorder (p_nodes qr0) ↔ ∃ z, <[n := x']> N !! m = Some z ∧ n_proc z = q).
    { intros m. rewrite T2. symmetry. by apply (lookup_insert_exists _ _ _ x). }
    assert (Hext : ∀ key t, tree_ok key R t → (∀ a, a ∈ inorder t ↔ ∃ y, R !! a = Some y ∧ r_proc y = q) →
      tree_ok key (<[r := y]> R) t).
    { intros key t Hok Hin. eapply tree_ok_ext; [exact Hok|]. intros a Ha.
      rewrite HR, decide_False; [done|]. intros <-. apply Hin in Ha as (? & ? & ?). congruence. }
    assert (Hin : ∀ t t', (∀ a, a ∈ inorder t ↔ ∃ y, R !! a = Some y ∧ r_proc y = q) →
      (p = q → inorder t' ≡ₚ r :: inorder t) →
      ∀ a, a ∈ inorder (if decide (p = q) then t' else t) ↔ ∃ z, <[r := y]> R !! a = Some z ∧ r_proc z = q).
    { intros t t' Hin Hpm a. rewrite lookup_insert_new_exists by done. rewrite <- Hin. case_decide as Eq.
      - rewrite Hpm by done. rewrite elem_of_cons. subst. tauto.
      - split; [by right|]. intros [[_ ?]|?]; [congruence|done]. }
    assert (Eqr : p = q → qr0 = pr) by (intros <-; congruence).
    split.
    + by case_decide.
    + by case_decide.
    + case_decide as Eq; [exact Ho1|by apply Hext].
    + intros a. rewrite <- (Hin (p_refs_by_desc qr0) td T4); [by case_decide|]. intros Eq. by rewrite (Eqr Eq).
    + case_decide as Eq; [exact Ho2|by apply Hext].
    + intros a. rewrite <- (Hin (p_refs_by_node qr0) tn T6); [by case_decide|]. intros Eq. by rewrite (Eqr Eq).
  - intros m z. rewrite HN. intros Hz Hz0. apply HP. case_decide; [simplify_eq; by apply (Hn _ x Hx)|by apply (Hn m z)].
  - intros m. rewrite Hde. symmetry. by apply (lookup_insert_exists _ _ _ x).
  - rewrite HN, HR. split_and!; [case_decide; congruence|by rewrite decide_False|].
    apply eq_None_not_Some. rewrite HP, P0. by intros [? ?].
  - intros m z. rewrite HN. case_decide as Em; [intros [= <-]; exact (Hc n x Hx)|apply Hc].
Qed.
End inv.
