(* ===== verification/BinderObjectSpec.v ===== *)
(** What the operations on nodes and references do: counting, freeing exactly
    what nothing refers to any more, descriptors, and the invariant of
    [BinderObjectInv]. *)
From S2P Require Import Prelude RBTree BinderAlloc BinderUapi BinderState BinderKernel BinderObject BinderObjectInv.

(** ** Bookkeeping *)

(** States that differ in the lists of works, the wake ups, the statistics and
    the error switch only. *)
Definition quiet (k k' : kernel) : Prop :=
  ∃ l w s e, k' = k <| k_lists := l |> <| k_woken := w |> <| k_stats := s |> <| k_stop_on_user_error := e |>.

Lemma quiet_refl k : quiet k k.
Proof. exists (k_lists k), (k_woken k), (k_stats k), (k_stop_on_user_error k). by destruct k. Qed.

Lemma quiet_trans k1 k2 k3 : quiet k1 k2 → quiet k2 k3 → quiet k1 k3.
Proof. intros (l & w & s & e & ->) (l' & w' & s' & e' & ->). by exists l', w', s', e'. Qed.

Lemma quiet_objects k k' : quiet k k' → objects_ok k → objects_ok k'.
Proof. by intros (l & w & s & e & ->). Qed.

Lemma quiet_lists k f : quiet k (k <| k_lists %= f |>).
Proof. exists (f (k_lists k)), (k_woken k), (k_stats k), (k_stop_on_user_error k). by destruct k. Qed.
Lemma quiet_woken k f : quiet k (k <| k_woken %= f |>).
Proof. exists (k_lists k), (f (k_woken k)), (k_stats k), (k_stop_on_user_error k). by destruct k. Qed.
Lemma quiet_stats k f : quiet k (k <| k_stats %= f |>).
Proof. exists (k_lists k), (k_woken k), (f (k_stats k)), (k_stop_on_user_error k). by destruct k. Qed.
Lemma quiet_stop k f : quiet k (k <| k_stop_on_user_error %= f |>).
Proof. exists (k_lists k), (k_woken k), (k_stats k), (f (k_stop_on_user_error k)). by destruct k. Qed.

#[export] Hint Resolve quiet_refl quiet_lists quiet_woken quiet_stats quiet_stop : cdroid.

Lemma user_error_quiet k : ∃ k', binder_user_error k = Ok (tt, k') ∧ quiet k k'.
Proof.
  unfold binder_user_error, modify. eexists. split; [done|].
  destruct (_ =? 0); eauto with cdroid.
Qed.

(** A change of the objects commutes with bookkeeping. *)
Lemma quiet_nodes k k' N : quiet k k' → quiet (k <| k_nodes := N |>) (k' <| k_nodes := N |>).
Proof. intros (l & w & s & e & ->). by exists l, w, s, e. Qed.

(** Moving a work to the end of a list. *)
Lemma relink_ok w h k : ∃ k', (list_del_init w ;; list_add_tail w h) k = Ok (tt, k') ∧ quiet k k'.
Proof.
  set (k1 := k <| k_lists %= fmap (filter (λ v, v ≠ w)) |>). eexists. split.
  - rewrite (st_bind_eq _ _ k tt k1) by done. apply list_add_tail_ok, linked_del.
  - eapply quiet_trans; apply quiet_lists.
Qed.

Lemma nodes_id k : k <| k_nodes := k_nodes k |> = k.
Proof. by destruct k. Qed.

Section spec.
Context {AR : Arch} {RB : RBOps} {RL : RBLaws}.
Implicit Types (n r p : Z) (x : binder_node) (y : binder_ref).

(** ** Nodes *)

Definition inc_counts (strong internal : bool) x : binder_node :=
  if strong then if internal then x <| n_internal_strong_refs %= int_inc |> else x <| n_local_strong_refs %= int_inc |>
  else if internal then x else x <| n_local_weak_refs %= int_inc |>.

Definition dec_counts (strong internal : bool) x : binder_node :=
  if strong then if internal then x <| n_internal_strong_refs %= int_dec |> else x <| n_local_strong_refs %= int_dec |>
  else if internal then x else x <| n_local_weak_refs %= int_dec |>.

Lemma update_nodes_insert k (f : gmap Z binder_node → gmap Z binder_node) :
  update k_nodes f k = k <| k_nodes := f (k_nodes k) |>.
Proof. by destruct k. Qed.

Lemma inc_node_ok n strong internal target k x :
  k_nodes k !! n = Some x →
  ∃ ret k', binder_inc_node n strong internal target k = Ok (ret, k') ∧
    (ret = 0 ∧ quiet (k <| k_nodes := <[n := inc_counts strong internal x]> (k_nodes k) |>) k' ∨
     ret = - EINVAL ∧ target = None ∧
       quiet (if internal then k else k <| k_nodes := <[n := inc_counts strong internal x]> (k_nodes k) |>) k').
Proof.
  intros Hx. unfold binder_inc_node. rewrite (st_bind_eq _ _ _ _ _ (obj_ok k_nodes k n x Hx)).
  rewrite (st_bind_eq _ _ k k k) by done. cbv beta. destruct strong.
  - destruct (internal && _ && _ && _) eqn:Hbad.
    { exists (- EINVAL), k. split; [done|]. right. split; [done|].
      destruct internal, target; try discriminate. split; [done|apply quiet_refl]. }
    rewrite (st_bind_eq _ _ _ _ _ (set_obj_ok k_nodes k n _ x Hx)). rewrite update_nodes_insert.
    set (k1 := k <| k_nodes := _ |>). replace (inc_counts true internal x) with
      (if internal then x <| n_internal_strong_refs %= int_inc |> else x <| n_local_strong_refs %= int_inc |>) by done.
    fold k1. destruct target as [h|]; [destruct (n_has_strong_ref x); simpl|].
    + exists 0, k1. split; [done|]. left. split; [done|apply quiet_refl].
    + destruct (relink_ok (work_node n) h k1) as (k' & Er & Hq). rewrite (st_bind_eq _ _ _ _ _ Er).
      exists 0, k'. split; [done|]. by left.
    + exists 0, k1. split; [done|]. left. split; [done|apply quiet_refl].
  - set (k1 := k <| k_nodes := <[n := inc_counts false internal x]> (k_nodes k) |>).
    rewrite (st_bind_eq _ _ k tt k1).
    2:{ unfold k1, inc_counts. destruct internal; simpl.
        - rewrite insert_id by done. unfold mret, st_ret. by destruct k.
        - rewrite (set_obj_ok k_nodes k n _ x Hx). by rewrite update_nodes_insert. }
    assert (Hk : internal = true → k1 = k).
    { intros ->. unfold k1. simpl. rewrite insert_id by done. by destruct k. }
    destruct (negb _ && negb (linked (work_node n) k)) eqn:Hl.
    2:{ exists 0, k1. split; [done|]. left. split; [done|apply quiet_refl]. }
    apply andb_true_iff in Hl as [_ Hl%negb_true_iff]. destruct target as [h|].
    + rewrite (st_bind_eq _ _ _ _ _ (list_add_tail_ok (work_node n) h k1 Hl)).
      eexists 0, _. split; [done|]. left. split; [done|apply quiet_lists].
    + exists (- EINVAL), k1. split; [done|]. right. split; [done|]. split; [done|].
      destruct internal; [rewrite (Hk eq_refl)|]; apply quiet_refl.
Qed.

(** The node [n] taken out of the objects. *)
Definition removed n x k : kernel :=
  k <| k_nodes %= delete n |>
    <| k_procs := if n_proc x =? 0 then k_procs k else alter (without_node n) (n_proc x) (k_procs k) |>
    <| k_dead_nodes := if n_proc x =? 0 then list_del n (k_dead_nodes k) else k_dead_nodes k |>.

(** When a node that was given up is freed. *)
Definition node_free x : bool :=
  negb (negb (n_proc x =? 0) && (n_has_strong_ref x || n_has_weak_ref x)) &&
  (bool_decide (n_refs x = []) && (n_local_strong_refs x =? 0) && (n_local_weak_refs x =? 0)).

Lemma node_unreferenced_ok n k x :
  k_nodes k !! n = Some x → (n_proc x ≠ 0 → is_Some (k_procs k !! n_proc x)) →
  ∃ k', binder_node_unreferenced n k = Ok (tt, k') ∧ quiet (if node_free x then removed n x k else k) k'.
Proof.
  intros Hx Hp. unfold binder_node_unreferenced, node_free.
  rewrite (st_bind_eq _ _ _ _ _ (obj_ok k_nodes k n x Hx)).
  rewrite (st_bind_eq _ _ k k k) by done. cbv beta.
  destruct (negb (n_proc x =? 0) && (n_has_strong_ref x || n_has_weak_ref x)); simpl.
  - destruct (linked (work_node n) k) eqn:Hl; simpl; [exists k; split; [done|apply quiet_refl]|].
    rewrite (st_bind_eq _ _ _ _ _ (list_add_tail_ok _ _ _ Hl)). eexists. split; [done|].
    eapply quiet_trans; [apply quiet_lists|apply quiet_woken].
  - destruct (bool_decide (n_refs x = []) && _ && _); simpl; [|exists k; split; [done|apply quiet_refl]].
    set (k1 := k <| k_lists %= fmap (filter (λ v, v ≠ work_node n)) |>).
    rewrite (st_bind_eq _ _ k tt k1) by done. unfold removed.
    destruct (Z.eqb_spec (n_proc x) 0) as [E0|E0]; simpl.
    + set (k2 := k1 <| k_dead_nodes %= list_del n |>). rewrite (st_bind_eq _ _ k1 tt k2) by done.
      rewrite (st_bind_eq _ _ _ _ _ (free_obj_ok k_nodes k2 n x Hx)).
      eexists. split; [done|].
      exists (k_lists k1), (k_woken k), (k_stats k <| st_deleted %= count BINDER_STAT_NODE |>), (k_stop_on_user_error k).
      by destruct k.
    + destruct (Hp E0) as [pr Hpr].
      set (k2 := k1 <| k_procs %= <[n_proc x := without_node n pr]> |>).
      rewrite (st_bind_eq _ _ k1 tt k2) by apply (set_obj_ok k_procs k1 (n_proc x) _ pr Hpr).
      rewrite (st_bind_eq _ _ _ _ _ (free_obj_ok k_nodes k2 n x Hx)).
      eexists. split; [done|].
      exists (k_lists k1), (k_woken k), (k_stats k <| st_deleted %= count BINDER_STAT_NODE |>), (k_stop_on_user_error k).
      rewrite (alter_insert_lookup _ _ _ pr Hpr). by destruct k.
Qed.

(** When a count that drops lets the node go. *)
Definition dec_frees (strong internal : bool) x : bool :=
  let x' := dec_counts strong internal x in
  negb (if strong then negb (n_local_strong_refs x' =? 0) || negb (n_internal_strong_refs x' =? 0)
        else negb (n_local_weak_refs x' =? 0) || negb (bool_decide (n_refs x' = []))) && node_free x'.

Lemma dec_node_ok n strong internal k x :
  k_nodes k !! n = Some x → (n_proc x ≠ 0 → is_Some (k_procs k !! n_proc x)) →
  ∃ k', binder_dec_node n strong internal k = Ok (0, k') ∧
    let x' := dec_counts strong internal x in
    let k1 := k <| k_nodes := <[n := x']> (k_nodes k) |> in
    quiet (if dec_frees strong internal x then removed n x' k1 else k1) k'.
Proof.
  intros Hx Hp. unfold binder_dec_node, dec_frees. cbv zeta. set (x' := dec_counts strong internal x).
  set (k1 := k <| k_nodes := <[n := x']> (k_nodes k) |>).
  rewrite (st_bind_eq _ _ k tt k1).
  2:{ unfold k1, x', dec_counts. destruct strong; [|destruct internal; simpl].
      - rewrite (set_obj_ok k_nodes k n _ x Hx). by rewrite update_nodes_insert.
      - rewrite insert_id by done. unfold mret, st_ret. by destruct k.
      - rewrite (set_obj_ok k_nodes k n _ x Hx). by rewrite update_nodes_insert. }
  assert (Hx1 : k_nodes k1 !! n = Some x') by apply lookup_insert_eq.
  rewrite (st_bind_eq _ _ _ _ _ (obj_ok k_nodes k1 n x' Hx1)).
  destruct (if strong then _ else _); simpl; [exists k1; split; [done|apply quiet_refl]|].
  destruct (node_unreferenced_ok n k1 x' Hx1) as (k' & Er & Hq).
  { replace (n_proc x') with (n_proc x) by by unfold x', dec_counts; destruct strong, internal. done. }
  exists k'. by rewrite (st_bind_eq _ _ _ _ _ Er).
Qed.

(** ** References *)

(** What an operation leaves alone. *)
Lemma quiet_fields k k' : quiet k k' →
  k_nodes k' = k_nodes k ∧ k_refs k' = k_refs k ∧ k_procs k' = k_procs k ∧ k_deaths k' = k_deaths k ∧
  k_dead_nodes k' = k_dead_nodes k.
Proof. by intros (l & w & s & e & ->). Qed.

(** Freeing the death notification of a reference. *)
Lemma free_death_ok d k :
  (d ≠ 0 → is_Some (k_deaths k !! d)) →
  ∃ k', (when (negb (d =? 0)) (list_del_init (work_death d) ;; free_obj k_deaths d ;;
           binder_stats_deleted BINDER_STAT_DEATH)) k = Ok (tt, k') ∧
    quiet (k <| k_deaths := if d =? 0 then k_deaths k else delete d (k_deaths k) |>) k'.
Proof.
  intros Hd. destruct (Z.eqb_spec d 0) as [E|E]; simpl.
  - exists k. split; [done|]. exists (k_lists k), (k_woken k), (k_stats k), (k_stop_on_user_error k). by destruct k.
  - destruct (Hd E) as [z Hz]. set (k1 := k <| k_lists %= fmap (filter (λ v, v ≠ work_death d)) |>).
    rewrite (st_bind_eq _ _ k tt k1) by done.
    rewrite (st_bind_eq _ _ _ _ _ (free_obj_ok k_deaths k1 d z Hz)). eexists. split; [done|].
    exists (k_lists k1), (k_woken k), (k_stats k <| st_deleted %= count BINDER_STAT_DEATH |>), (k_stop_on_user_error k).
    by destruct k.
Qed.

(** The node of [y] once reference [r] is off it: its count first. *)
Definition detached r y x : binder_node :=
  (if r_strong y =? 0 then x else dec_counts true true x) <| n_refs %= list_del r |>.

(** The count of references on a node stays within an [int]. *)
Lemma internal_range n x k : objects_ok k → k_nodes k !! n = Some x → 0 <= n_internal_strong_refs x < 2 ^ 31.
Proof.
  intros HI Hx. split; [|exact (oi_count _ _ _ _ _ HI n x Hx)]. rewrite (oi_strong _ _ _ _ _ HI n x Hx).
  apply msum_nonneg. intros i y _. unfold strong_of. destruct (_ && _); lia.
Qed.

Lemma detached_fields r y x :
  0 <= n_internal_strong_refs x < 2 ^ 31 →
  n_ptr (detached r y x) = n_ptr x ∧ n_proc (detached r y x) = n_proc x ∧
  n_refs (detached r y x) = list_del r (n_refs x) ∧
  n_internal_strong_refs (detached r y x) = n_internal_strong_refs x - strong_of (r_node y) y.
Proof.
  intros Hi. unfold detached, strong_of. rewrite Z.eqb_refl. destruct (r_strong y =? 0); split_and!; try done; simpl; [lia|].
  apply int_dec_small. unfold is_s32. lia.
Qed.

Lemma drop_strong_ok r y x k :
  k_nodes k !! r_node y = Some x → (n_proc x ≠ 0 → is_Some (k_procs k !! n_proc x)) → r ∈ n_refs x →
  ∃ k', (when (negb (r_strong y =? 0)) (binder_dec_node (r_node y) true true ;; mret tt)) k = Ok (tt, k') ∧
    quiet (k <| k_nodes := <[r_node y := if r_strong y =? 0 then x else dec_counts true true x]> (k_nodes k) |>) k'.
Proof.
  intros Hx Hp Hr. destruct (r_strong y =? 0); simpl.
  - exists k. split; [done|]. rewrite insert_id by done.
    exists (k_lists k), (k_woken k), (k_stats k), (k_stop_on_user_error k). by destruct k.
  - destruct (dec_node_ok (r_node y) true true k x Hx Hp) as (k' & Er & Hq).
    exists k'. rewrite (st_bind_eq _ _ _ _ _ Er). split; [done|].
    assert (Hf : dec_frees true true x = false).
    { unfold dec_frees, node_free. simpl. rewrite (bool_decide_false (n_refs x = [])); [by rewrite !andb_false_r|].
      intros E. rewrite E in Hr. by apply not_elem_of_nil in Hr. }
    by rewrite Hf in Hq.
Qed.

Lemma dec_weak_frees x : dec_frees false true x = node_free x.
Proof.
  unfold dec_frees, node_free. simpl. destruct (bool_decide (n_refs x = [])), (n_local_weak_refs x =? 0);
    simpl; rewrite ?andb_false_r, ?andb_true_r; try done; by destruct (negb _).
Qed.

Lemma delete_ref_ok r y k :
  objects_ok k → k_refs k !! r = Some y →
  ∃ k', binder_delete_ref r k = Ok (tt, k') ∧ objects_ok k' ∧ k_refs k' = delete r (k_refs k) ∧
    (∀ n, n ≠ r_node y → k_nodes k' !! n = k_nodes k !! n) ∧
    ∀ x, k_nodes k !! r_node y = Some x →
      k_nodes k' !! r_node y = if node_free (detached r y x) then None else Some (detached r y x).
Proof.
  intros HI Hy. pose proof HI as [Hs Hr Hw Hd Ht Hn Hde (N0 & R0 & P0) _].
  destruct (Hw r y Hy) as [[x Hx] [pr Hpr] _ _ Hdy _].
  assert (Hin : r ∈ n_refs x) by (apply (Hr _ x r Hx); eauto).
  unfold binder_delete_ref. rewrite (st_bind_eq _ _ _ _ _ (obj_ok k_refs k r y Hy)).
  set (k1 := k <| k_procs %= <[r_proc y := pr <| p_refs_by_desc %= rb_erase r |>]> |>).
  rewrite (st_bind_eq _ _ k tt k1) by apply (set_obj_ok k_procs k (r_proc y) _ pr Hpr).
  set (k2 := k <| k_procs := alter (without_ref r) (r_proc y) (k_procs k) |>).
  rewrite (st_bind_eq _ _ k1 tt k2).
  2:{ assert (H1 : k_procs k1 !! r_proc y = Some (pr <| p_refs_by_desc %= rb_erase r |>)) by apply lookup_insert_eq.
      rewrite (set_obj_ok k_procs k1 _ _ _ H1). unfold k2. rewrite (alter_insert_lookup _ _ _ pr Hpr).
      rewrite <- (insert_insert_eq (k_procs k) (r_proc y) _ (pr <| p_refs_by_desc %= rb_erase r |>)). done. }
  assert (Hp2 : n_proc x ≠ 0 → is_Some (k_procs k2 !! n_proc x)).
  { intros E. unfold k2. simpl. rewrite lookup_alter_is_Some. by apply (Hn _ x Hx). }
  destruct (drop_strong_ok r y x k2 Hx Hp2 Hin) as (k3 & E3 & (l3 & w3 & s3 & e3 & ->)).
  rewrite (st_bind_eq _ _ _ _ _ E3). clear E3.
  set (x3 := if r_strong y =? 0 then x else dec_counts true true x). set (x4 := detached r y x).
  match goal with |- context [mbind _ _ ?s] => set (k3 := s) end.
  assert (Hx3 : k_nodes k3 !! r_node y = Some x3) by apply lookup_insert_eq.
  set (k4 := k3 <| k_nodes := <[r_node y := x4]> (k_nodes k) |>).
  rewrite (st_bind_eq _ _ k3 tt k4).
  2:{ rewrite (set_obj_ok k_nodes k3 _ _ x3 Hx3). unfold k4.
      by rewrite <- (insert_insert_eq (k_nodes k) (r_node y) x4 x3). }
  assert (Hx4 : k_nodes k4 !! r_node y = Some x4) by apply lookup_insert_eq.
  assert (Ep4 : n_proc x4 = n_proc x) by (unfold x4, detached; by destruct (r_strong y =? 0)).
  destruct (dec_node_ok (r_node y) false true k4 x4 Hx4) as (k5 & E5 & Hq5); [by rewrite Ep4|].
  rewrite (st_bind_eq _ _ _ _ _ E5). clear E5. cbv zeta in Hq5.
  assert (Ef : dec_frees false true x4 = node_free x4).
  { apply dec_weak_frees. }
  rewrite Ef in Hq5. change (dec_counts false true x4) with x4 in Hq5. rewrite insert_id in Hq5 by done.
  rewrite nodes_id in Hq5.
  set (kb := if node_free x4 then removed (r_node y) x4 k4 else k4) in Hq5.
  destruct (quiet_fields _ _ Hq5) as (Q1 & Q2 & Q3 & Q4 & Q5).
  assert (Eb : k_refs kb = k_refs k ∧ k_deaths kb = k_deaths k) by (unfold kb; by destruct (node_free x4)).
  destruct Eb as [Eb1 Eb2].
  destruct (free_death_ok (r_death y) k5) as (k6 & E6 & Hq6); [by rewrite Q4, Eb2|].
  rewrite (st_bind_eq _ _ _ _ _ E6). destruct (quiet_fields _ _ Hq6) as (S1 & S2 & S3 & S4 & S5). simpl in S1, S2, S3, S4, S5.
  assert (Hy6 : k_refs k6 !! r = Some y) by by rewrite S2, Q2, Eb1.
  rewrite (st_bind_eq _ _ _ _ _ (free_obj_ok k_refs k6 r y Hy6)). eexists. split; [done|].
  assert (EN : k_nodes kb = if node_free x4 then delete (r_node y) (k_nodes k4) else k_nodes k4)
    by (unfold kb; by destruct (node_free x4)).
  simpl. unfold objects_ok. simpl. rewrite S1, S2, S3, S4, S5, Q1, Q2, Q3, Q4, Q5, Eb1, Eb2.
  assert (HI' : obj_inv (<[r_node y := x4]> (k_nodes k)) (delete r (k_refs k))
    (alter (without_ref r) (r_proc y) (k_procs k))
    (if r_death y =? 0 then k_deaths k else delete (r_death y) (k_deaths k)) (k_dead_nodes k)).
  { destruct (detached_fields r y x (internal_range _ x k HI Hx)) as (D1 & D2 & D3 & D4).
    exact (delete_ref_inv _ _ _ _ _ r y x x4 HI Hy Hx D1 D2 D3 D4). }
  split_and!; [|done| |].
  - unfold kb. destruct (node_free x4) eqn:Hf; [|exact HI'].
    unfold node_free in Hf. apply andb_true_iff in Hf as [_ Hf]. apply andb_true_iff in Hf as [Hf _].
    apply andb_true_iff in Hf as [Hf%bool_decide_eq_true _].
    exact (delete_node_inv _ _ _ _ _ (r_node y) x4 HI' (lookup_insert_eq _ _ _) Hf).
  - intros n Hnn. rewrite EN. destruct (node_free x4); simpl; [rewrite lookup_delete_ne by done|];
      by rewrite lookup_insert_ne.
  - intros x' Hx'. rewrite Hx in Hx'. injection Hx' as <-. fold x4. rewrite EN.
    destruct (node_free x4); simpl; [apply lookup_delete_eq|apply lookup_insert_eq].
Qed.

(** ** Searching *)

Lemma proc_nonzero k p pr : objects_ok k → k_procs k !! p = Some pr → p ≠ 0.
Proof. intros [_ _ _ _ _ _ _ (_ & _ & P0) _] Hp ->. congruence. Qed.

(** The result of a search as an address: 0 when there is none. *)
Lemma default_zero (r : option Z) (Q : Z → Prop) :
  (∀ a, r = Some a ↔ Q a) → ¬ Q 0 → ∀ a, (a ≠ 0 ∧ default 0 r = a) ↔ Q a.
Proof.
  intros Hr H0 a. rewrite <- Hr. destruct r as [b|]; simpl.
  - split; [by intros [_ ->]|]. intros [= ->]. split; [|done]. intros ->. apply H0. by apply Hr.
  - split; [by intros [? <-]|done].
Qed.

Lemma get_node_ok p pr ptr k :
  objects_ok k → k_procs k !! p = Some pr →
  ∃ v, binder_get_node p ptr k = Ok (v, k) ∧
    ∀ n, (n ≠ 0 ∧ v = n) ↔ ∃ x, k_nodes k !! n = Some x ∧ n_proc x = p ∧ n_ptr x = ptr.
Proof.
  intros HI Hp. pose proof HI as [_ _ _ _ Ht _ _ (N0 & _ & _) _]. destruct (Ht p pr Hp) as [T1 T2 _ _ _ _].
  unfold binder_get_node. rewrite (st_bind_eq _ _ _ _ _ (obj_ok k_procs k p pr Hp)).
  destruct (tree_find_ok k_nodes n_ptr k (p_nodes pr) ptr T1) as (r & Er & Hr).
  rewrite (st_bind_eq _ _ _ _ _ Er). eexists. split; [done|]. apply (default_zero r (λ n, ∃ x, k_nodes k !! n = Some x ∧ n_proc x = p ∧ n_ptr x = ptr)).
  - intros a. rewrite Hr, T2. split.
    + intros [(x & Hx & E1) E2]. rewrite Hx in E2. injection E2 as E2. eauto.
    + intros (x & Hx & E1 & E2). split; [eauto|]. rewrite Hx. simpl. by rewrite E2.
  - intros (x & Hx & _). congruence.
Qed.

Lemma get_ref_ok p pr desc k :
  objects_ok k → k_procs k !! p = Some pr →
  ∃ v, binder_get_ref p desc k = Ok (v, k) ∧
    ∀ r, (r ≠ 0 ∧ v = r) ↔ ∃ y, k_refs k !! r = Some y ∧ r_proc y = p ∧ r_desc y = desc.
Proof.
  intros HI Hp. pose proof HI as [_ _ _ _ Ht _ _ (_ & R0 & _) _]. destruct (Ht p pr Hp) as [_ _ T3 T4 _ _].
  unfold binder_get_ref. rewrite (st_bind_eq _ _ _ _ _ (obj_ok k_procs k p pr Hp)).
  destruct (tree_find_ok k_refs r_desc k (p_refs_by_desc pr) desc T3) as (r & Er & Hr).
  rewrite (st_bind_eq _ _ _ _ _ Er). eexists. split; [done|]. apply (default_zero r (λ n, ∃ y, k_refs k !! n = Some y ∧ r_proc y = p ∧ r_desc y = desc)).
  - intros a. rewrite Hr, T4. split.
    + intros [(x & Hx & E1) E2]. rewrite Hx in E2. injection E2 as E2. eauto.
    + intros (x & Hx & E1 & E2). split; [eauto|]. rewrite Hx. simpl. by rewrite E2.
  - intros (x & Hx & _). congruence.
Qed.

(** ** Descriptors *)

(** In a sorted list without the last number, the loop finds the least
    descriptor from [d] that is free, if no number below [d - 1] is used. *)
Lemma free_desc_ok l d :
  StronglySorted Z.lt l → (∀ c, c ∈ l → d - 1 <= c < 2 ^ 32 - 1) → 0 <= d →
  let e := free_desc l d in d <= e ∧ e ∉ l ∧ ∀ c, d <= c < e → c ∈ l.
Proof.
  intros Hs. revert d. induction Hs as [|b l Hs IH Hx]; intros d Hl Hd; simpl.
  - split_and!; [lia|apply not_elem_of_nil|lia].
  - rewrite Forall_forall in Hx. pose proof (Hl b (list_elem_of_here _ _)) as Hxd.
    rewrite Z.gtb_ltb. destruct (Z.ltb_spec d b) as [Hlt|Hge].
    + split_and!; [lia| |lia]. intros [->|Hin]%elem_of_cons; [lia|]. specialize (Hx d Hin). cbv beta in Hx. lia.
    + rewrite u32_small by lia. destruct (IH (b + 1)) as (E1 & E2 & E3).
      { intros c Hc. specialize (Hx c Hc). cbv beta in Hx. pose proof (Hl c ltac:(by right)). lia. }
      { lia. }
      split_and!; [lia| |].
      * intros [Heq|Hin]%elem_of_cons; [lia|done].
      * intros c Hc. apply elem_of_cons. destruct (decide (c = b)) as [->|]; [by left|right].
        apply E3. lia.
Qed.

(** ** Counting references *)

Definition inc_ref_counts (strong : bool) y : binder_ref :=
  if strong then y <| r_strong %= int_inc |> else y <| r_weak %= int_inc |>.

Lemma inc_fields (strong : bool) y x :
  0 <= r_strong y < 2 ^ 31 → 0 <= r_weak y < 2 ^ 31 → 0 <= n_internal_strong_refs x < 2 ^ 31 →
  (if strong then r_strong y else r_weak y) < 2 ^ 31 - 1 → n_internal_strong_refs x < 2 ^ 31 - 1 →
  let y' := inc_ref_counts strong y in
  let x' := if (if strong then r_strong y else r_weak y) =? 0 then inc_counts strong true x else x in
  r_node y' = r_node y ∧ r_proc y' = r_proc y ∧ r_desc y' = r_desc y ∧ r_death y' = r_death y ∧
  0 <= r_strong y' < 2 ^ 31 ∧ 0 <= r_weak y' < 2 ^ 31 ∧ n_internal_strong_refs x' < 2 ^ 31 ∧
  n_ptr x' = n_ptr x ∧ n_proc x' = n_proc x ∧ n_refs x' = n_refs x ∧
  n_internal_strong_refs x' = n_internal_strong_refs x - strong_of (r_node y) y + strong_of (r_node y) y'.
Proof.
  intros Hs Hw Hi Hc Hi'. unfold inc_ref_counts, strong_of. destruct strong; simpl.
  - rewrite (int_inc_small (r_strong y)), !Z.eqb_refl by (unfold is_s32; lia).
    destruct (Z.eqb_spec (r_strong y) 0), (Z.eqb_spec (r_strong y + 1) 0); split_and!; try done; simpl;
      rewrite ?int_inc_small by (unfold is_s32; lia); lia.
  - rewrite int_inc_small by (unfold is_s32; lia). destruct (r_weak y =? 0); split_and!; try done; simpl; lia.
Qed.

(** The counters that may go up are not at the end of an [int]. *)
Definition count_room (strong : bool) y k : Prop :=
  (if strong then r_strong y else r_weak y) < 2 ^ 31 - 1 ∧
  ∀ x, k_nodes k !! r_node y = Some x → n_internal_strong_refs x < 2 ^ 31 - 1.

Lemma inc_ref_ok r y strong target k :
  objects_ok k → k_refs k !! r = Some y → count_room strong y k →
  ∃ ret k', binder_inc_ref r strong target k = Ok (ret, k') ∧ objects_ok k' ∧
    (ret = 0 ∧ k_refs k' = <[r := inc_ref_counts strong y]> (k_refs k) ∨
     ret = - EINVAL ∧ target = None ∧ k_refs k' = k_refs k ∧ k_nodes k' = k_nodes k).
Proof.
  intros HI Hy [Hc1 Hc2]. pose proof HI as [Hs Hr Hw Hd Ht Hn Hde (N0 & R0 & P0) _].
  destruct (Hw r y Hy) as [[x Hx] _ Hst Hwk _ _].
  set (y' := inc_ref_counts strong y).
  unfold binder_inc_ref. rewrite (st_bind_eq _ _ _ _ _ (obj_ok k_refs k r y Hy)).
  (* the node is counted when this is the first one *)
  set (x' := if (if strong then r_strong y else r_weak y) =? 0 then inc_counts strong true x else x).
  assert (HI' : obj_inv (<[r_node y := x']> (k_nodes k)) (<[r := y']> (k_refs k)) (k_procs k) (k_deaths k) (k_dead_nodes k)).
  { destruct (inc_fields strong y x Hst Hwk (internal_range _ x k HI Hx) Hc1 (Hc2 x Hx)) as (? & ? & ? & ? & ? & ? & ? & ? & ? & ? & ?).
    by apply (count_inv _ _ _ _ _ r y y' x x'). }
  assert (Hfin : ∀ k1, quiet (k <| k_nodes := <[r_node y := x']> (k_nodes k) |>) k1 →
    ∃ ret k', (set_obj k_refs r (inc_ref_counts strong) ;;
      mret 0) k1 = Ok (ret, k') ∧ objects_ok k' ∧ ret = 0 ∧ k_refs k' = <[r := y']> (k_refs k)).
  { intros k1 (l & w & s & e & ->). set (k1 := _ <| k_lists := l |> <| k_woken := w |> <| k_stats := s |> <| k_stop_on_user_error := e |>).
    rewrite (st_bind_eq _ _ _ _ _ (set_obj_ok k_refs k1 r _ y Hy)). eexists 0, _. split; [done|].
    split; [|done]. exact HI'. }
  destruct (_ =? 0) eqn:E0.
  - destruct (inc_node_ok (r_node y) strong true target k x Hx) as (ret & k1 & Er & [[-> Hq]|(-> & Ht1 & Hq)]);
      rewrite (st_bind_eq _ _ _ _ _ Er); simpl.
    + destruct (Hfin k1) as (ret & k' & Er' & HI1 & -> & Hk'); [unfold x'; by rewrite ?E0|].
      exists 0, k'. split; [done|]. split; [done|]. by left.
    + exists (- EINVAL), k1. simpl in Hq. destruct (quiet_fields _ _ Hq) as (-> & -> & _).
      split; [done|]. split; [by eapply quiet_objects|]. right. done.
  - rewrite (st_bind_eq _ _ k 0 k) by done. simpl.
    destruct (Hfin k) as (ret & k' & Er' & HI1 & -> & Hk').
    { unfold x'. rewrite ?E0, insert_id, nodes_id by done. apply quiet_refl. }
    exists 0, k'. split; [done|]. split; [done|]. by left.
Qed.

Definition dec_ref_counts (strong : bool) y : binder_ref :=
  if strong then y <| r_strong %= int_dec |> else y <| r_weak %= int_dec |>.

Lemma dec_fields (strong : bool) y x :
  0 <= r_strong y < 2 ^ 31 → 0 <= r_weak y < 2 ^ 31 → 0 <= n_internal_strong_refs x < 2 ^ 31 →
  (if strong then r_strong y else r_weak y) ≠ 0 →
  let y' := dec_ref_counts strong y in
  let x' := if strong && (r_strong y =? 1) then dec_counts true true x else x in
  r_node y' = r_node y ∧ r_proc y' = r_proc y ∧ r_desc y' = r_desc y ∧ r_death y' = r_death y ∧
  0 <= r_strong y' < 2 ^ 31 ∧ 0 <= r_weak y' < 2 ^ 31 ∧ n_internal_strong_refs x' < 2 ^ 31 ∧
  n_ptr x' = n_ptr x ∧ n_proc x' = n_proc x ∧ n_refs x' = n_refs x ∧
  n_internal_strong_refs x' = n_internal_strong_refs x - strong_of (r_node y) y + strong_of (r_node y) y'.
Proof.
  intros ? ? ? Hc. unfold dec_ref_counts, strong_of. destruct strong; simpl.
  - rewrite (int_dec_small (r_strong y)), !Z.eqb_refl by (unfold is_s32; lia).
    destruct (Z.eqb_spec (r_strong y) 0), (Z.eqb_spec (r_strong y) 1), (Z.eqb_spec (r_strong y - 1) 0);
      split_and!; try done; simpl; rewrite ?int_dec_small by (unfold is_s32; lia); lia.
  - rewrite int_dec_small by (unfold is_s32; lia). split_and!; try done; simpl; lia.
Qed.

(** The first half of [binder_dec_ref]: the counts. *)
Lemma dec_count_ok r y (strong : bool) k :
  objects_ok k → k_refs k !! r = Some y → (if strong then r_strong y else r_weak y) ≠ 0 →
  ∃ k', (set_obj k_refs r (dec_ref_counts strong) ;;
         (if strong && (r_strong y =? 1) then binder_dec_node (r_node y) strong true else mret 0 : K Z)) k = Ok (0, k') ∧
    objects_ok k' ∧ k_refs k' = <[r := dec_ref_counts strong y]> (k_refs k).
Proof.
  intros HI Hy Hc. pose proof HI as [Hs Hr Hw Hd Ht Hn Hde (N0 & R0 & P0) _].
  destruct (Hw r y Hy) as [[x Hx] _ Hst Hwk _ _].
  assert (Hin : r ∈ n_refs x) by (apply (Hr _ x r Hx); eauto).
  set (y' := dec_ref_counts strong y).
  set (x' := if strong && (r_strong y =? 1) then dec_counts true true x else x).
  assert (HI' : obj_inv (<[r_node y := x']> (k_nodes k)) (<[r := y']> (k_refs k)) (k_procs k) (k_deaths k) (k_dead_nodes k)).
  { destruct (dec_fields strong y x Hst Hwk (internal_range _ x k HI Hx) Hc) as (? & ? & ? & ? & ? & ? & ? & ? & ? & ? & ?).
    by apply (count_inv _ _ _ _ _ r y y' x x'). }
  set (k1 := k <| k_refs := <[r := y']> (k_refs k) |>).
  rewrite (st_bind_eq _ _ k tt k1) by (rewrite (set_obj_ok k_refs k r _ y Hy); by destruct k).
  destruct (strong && (r_strong y =? 1)) eqn:E1.
  - apply andb_true_iff in E1 as [-> _].
    destruct (dec_node_ok (r_node y) true true k1 x Hx (Hn _ x Hx)) as (k' & Er & Hq).
    assert (Hf : dec_frees true true x = false).
    { unfold dec_frees, node_free. simpl. rewrite (bool_decide_false (n_refs x = [])); [by rewrite !andb_false_r|].
      intros E. rewrite E in Hin. by apply not_elem_of_nil in Hin. }
    rewrite Hf in Hq. exists k'. split; [done|]. split; [|by destruct Hq as (? & ? & ? & ? & ->)].
    eapply quiet_objects; [exact Hq|]. exact HI'.
  - exists k1. split; [done|]. split; [|done]. unfold x' in HI'. by rewrite insert_id in HI'.
Qed.

Lemma dec_ref_ok r y (strong : bool) k :
  objects_ok k → k_refs k !! r = Some y → (if strong then r_strong y else r_weak y) ≠ 0 →
  ∃ k', binder_dec_ref r strong k = Ok (0, k') ∧ objects_ok k' ∧
    let y' := dec_ref_counts strong y in
    k_refs k' = if (r_strong y' =? 0) && (r_weak y' =? 0) then delete r (k_refs k) else <[r := y']> (k_refs k).
Proof.
  intros HI Hy Hc. unfold binder_dec_ref. rewrite (st_bind_eq _ _ _ _ _ (obj_ok k_refs k r y Hy)).
  destruct (Z.eqb_spec (if strong then r_strong y else r_weak y) 0); [done|].
  destruct (dec_count_ok r y strong k HI Hy Hc) as (k1 & E1 & HI1 & HR1).
  apply st_bind_ok in E1 as ([] & k0 & E0 & E1). rewrite (st_bind_eq _ _ _ _ _ E0), (st_bind_eq _ _ _ _ _ E1). simpl.
  set (y' := dec_ref_counts strong y) in *.
  assert (Hy1 : k_refs k1 !! r = Some y') by by rewrite HR1, lookup_insert_eq.
  rewrite (st_bind_eq _ _ _ _ _ (obj_ok k_refs k1 r y' Hy1)).
  destruct ((r_strong y' =? 0) && (r_weak y' =? 0)); simpl.
  - destruct (delete_ref_ok r y' k1 HI1 Hy1) as (k' & E' & HI' & HR' & _).
    exists k'. rewrite (st_bind_eq _ _ _ _ _ E'). split_and!; [done..|]. by rewrite HR', HR1, delete_insert_eq.
  - exists k1. split_and!; done.
Qed.

(** ** Creating references and nodes *)

Lemma sorted_fmap (m : gmap Z binder_ref) l :
  sorted_by (key_of m r_desc) l → StronglySorted Z.lt (key_of m r_desc <$> l).
Proof.
  induction 1 as [|a l Hs IH Ha]; simpl; constructor; [done|]. by apply Forall_fmap.
Qed.

(** The kernel hands out an address that is not in use. *)
Definition fresh_next k a : Prop := head (k_fresh k) = Some a ∧ a ≠ 0 ∧ in_use a k = false.

Lemma kzalloc_ok k a :
  fresh_next k a → ∃ l, kzalloc k = Ok (a, k <| k_fresh := l |>) ∧
    k_nodes k !! a = None ∧ k_refs k !! a = None ∧ l = tail (k_fresh k).
Proof.
  intros (Hf & Ha & Hu). destruct (k_fresh k) as [|b l] eqn:E; [done|]. injection Hf as ->.
  exists l. split; [by apply kzalloc_fresh|].
  unfold in_use in Hu. rewrite !orb_false_iff, !bool_decide_eq_false in Hu.
  destruct Hu as [[[[[[? ?] Hn] Hr] ?] ?] ?]. by rewrite <- !eq_None_not_Some in *.
Qed.

Lemma new_node_ok p pr ptr cookie a k :
  objects_ok k → k_procs k !! p = Some pr → fresh_next k a →
  (∃ n x, k_nodes k !! n = Some x ∧ n_proc x = p ∧ n_ptr x = ptr) ∧ binder_new_node p ptr cookie k = Ok (0, k) ∨
  (∀ n x, k_nodes k !! n = Some x → n_proc x = p → n_ptr x ≠ ptr) ∧
  ∃ k' did, binder_new_node p ptr cookie k = Ok (a, k') ∧ objects_ok k' ∧
    k_nodes k' = <[a := zero_node <| n_debug_id := did |> <| n_proc := p |> <| n_ptr := ptr |> <| n_cookie := cookie |>]>
      (k_nodes k) ∧ k_refs k' = k_refs k ∧ k_fresh k' = tail (k_fresh k).
Proof.
  intros HI Hp Hf. pose proof HI as [_ _ _ _ Ht _ _ _]. destruct (Ht p pr Hp) as [T1 T2 _ _ _ _].
  unfold binder_new_node. rewrite (st_bind_eq _ _ _ _ _ (obj_ok k_procs k p pr Hp)).
  destruct (tree_find_ok k_nodes n_ptr k (p_nodes pr) ptr T1) as (found & Er & Hfound).
  rewrite (st_bind_eq _ _ _ _ _ Er). destruct found as [n|].
  - left. split; [|done]. destruct (proj1 (Hfound n) eq_refl) as [Hin Hk]. apply T2 in Hin as (x & Hx & Hxp).
    rewrite Hx in Hk. injection Hk as Hk. eauto.
  - right. rewrite bool_decide_false by by intros [? ?].
    assert (Hno : ∀ n x, k_nodes k !! n = Some x → n_proc x = p → n_ptr x ≠ ptr).
    { intros n x Hx Hxp Hk. assert (None = Some n) as ?; [|done]. apply Hfound. rewrite T2, Hx. simpl.
      split; [eauto|congruence]. }
    split; [exact Hno|].
    destruct (kzalloc_ok k a Hf) as (l & Ea & HaN & _ & El). rewrite (st_bind_eq _ _ _ _ _ Ea).
    destruct Hf as (_ & Ha & _). destruct (Z.eqb_spec a 0); [done|].
    set (k1 := k <| k_fresh := l |> <| k_stats %= λ s, s <| st_created %= count BINDER_STAT_NODE |> |>).
    rewrite (st_bind_eq _ _ _ tt k1) by done.
    destruct (tree_link_ok k_nodes n_ptr k1 (p_nodes pr) ptr a T1) as (t & Elk & Hperm & Hok).
    { intros m y Hm Hy Hk. apply T2 in Hm as (z & Hz & Hzp). change (k_nodes k !! m = Some y) in Hy.
      rewrite Hz in Hy. injection Hy as <-. by apply (Hno m z). }
    rewrite (st_bind_eq _ _ k1 t k1) by by rewrite (st_bind_eq _ _ _ _ _ Elk).
    set (pr' := pr <| p_nodes := rb_insert_color a t |>).
    rewrite (st_bind_eq _ _ k1 tt (k1 <| k_procs %= <[p := pr']> |>))
      by exact (set_obj_ok k_procs k1 p (λ pr, pr <| p_nodes := rb_insert_color a t |>) pr Hp).
    set (k2 := k1 <| k_procs %= <[p := pr']> |> <| k_last_id %= Z.add 1 |>).
    rewrite (st_bind_eq _ _ _ (k_last_id k2) k2) by done.
    eexists _, (k_last_id k2). split; [done|]. split; [|by rewrite <- El].
    set (x := zero_node <| n_debug_id := k_last_id k2 |> <| n_proc := p |> <| n_ptr := ptr |> <| n_cookie := cookie |>).
    apply (new_node_inv _ _ _ _ _ a x p pr (rb_insert_color a t) HI HaN Ha Hp); try done.
    + destruct (Hok (<[a := x]> (k_nodes k))) as [Hs1 Hs2].
      * intros b Hb. rewrite lookup_insert_ne; [done|]. intros <-. apply T2 in Hb as (? & ? & _). congruence.
      * by rewrite lookup_insert_eq.
      * split; by rewrite inorder_insert_color.
    + by rewrite inorder_insert_color.
Qed.

(** The descriptors a process uses. *)
Definition used_desc k p (c : Z) : Prop := ∃ r y, k_refs k !! r = Some y ∧ r_proc y = p ∧ r_desc y = c.

(** Descriptor 0 is for the context manager. *)
Definition first_desc k n : Z := if n =? k_context_mgr_node k then 0 else 1.

Lemma pick_desc_ok k p pr n :
  objects_ok k → k_procs k !! p = Some pr → (∀ c, used_desc k p c → c < 2 ^ 32 - 1) →
  let d := free_desc (key_of (k_refs k) r_desc <$> inorder (p_refs_by_desc pr)) (first_desc k n) in
  first_desc k n <= d < 2 ^ 32 ∧ ¬ used_desc k p d ∧ ∀ c, first_desc k n <= c < d → used_desc k p c.
Proof.
  intros HI Hp Hlast. pose proof HI as [_ _ Hw _ Ht _ _ _]. destruct (Ht p pr Hp) as [_ _ [T3 _] T4 _ _].
  assert (Hin : ∀ c, c ∈ key_of (k_refs k) r_desc <$> inorder (p_refs_by_desc pr) ↔ used_desc k p c).
  { intros c. rewrite list_elem_of_fmap. split.
    - intros (r & -> & (y & Hy & Hyp)%T4). exists r, y. split_and!; [done..|]. unfold key_of. by rewrite Hy.
    - intros (r & y & Hy & Hyp & <-). exists r. split; [unfold key_of; by rewrite Hy|]. apply T4. eauto. }
  assert (H0 : 0 <= first_desc k n <= 1) by (unfold first_desc; destruct (n =? _); lia).
  destruct (free_desc_ok _ (first_desc k n) (sorted_fmap _ _ T3)) as (D1 & D2 & D3); [|lia|].
  { intros c Hc%Hin. pose proof (Hlast c Hc). destruct Hc as (r & y & Hy & _ & <-).
    destruct (Hw r y Hy) as [_ _ _ _ _ ?]. lia. }
  cbv zeta. split; [|split; [by rewrite <- Hin|]].
  - split; [done|]. destruct (decide (free_desc (key_of (k_refs k) r_desc <$> inorder (p_refs_by_desc pr)) (first_desc k n)
      = first_desc k n)) as [->|Hne]; [lia|].
    set (d := free_desc _ _) in *. assert (used_desc k p (d - 1)) as Hu by (apply Hin, D3; lia). specialize (Hlast _ Hu). lia.
  - intros c Hc. apply Hin, D3. lia.
Qed.

Lemma get_ref_for_node_ok p pr n x a k :
  objects_ok k → k_procs k !! p = Some pr → k_nodes k !! n = Some x → fresh_next k a →
  (∀ c, used_desc k p c → c < 2 ^ 32 - 1) →
  (∃ r y, k_refs k !! r = Some y ∧ r_proc y = p ∧ r_node y = n ∧ binder_get_ref_for_node p n k = Ok (r, k)) ∨
  (∀ r y, k_refs k !! r = Some y → r_proc y = p → r_node y ≠ n) ∧
  ∃ k' y, binder_get_ref_for_node p n k = Ok (a, k') ∧ objects_ok k' ∧ k_refs k' = <[a := y]> (k_refs k) ∧
    r_proc y = p ∧ r_node y = n ∧ r_strong y = 0 ∧ r_weak y = 0 ∧ r_death y = 0 ∧
    first_desc k n <= r_desc y ∧ ¬ used_desc k p (r_desc y) ∧
    ∀ c, first_desc k n <= c < r_desc y → used_desc k p c.
Proof.
  intros HI Hp Hx Hf Hlast. pose proof HI as [_ _ _ _ Ht _ _ (N0 & _ & _) _]. destruct (Ht p pr Hp) as [_ _ T3 T4 T5 T6].
  unfold binder_get_ref_for_node. rewrite (st_bind_eq _ _ _ _ _ (obj_ok k_procs k p pr Hp)).
  destruct (tree_find_ok k_refs r_node k (p_refs_by_node pr) n T5) as (found & Er & Hfound).
  rewrite (st_bind_eq _ _ _ _ _ Er). destruct found as [r|].
  { left. destruct (proj1 (Hfound r) eq_refl) as [Hin Hk]. apply T6 in Hin as (y & Hy & Hyp).
    rewrite Hy in Hk. injection Hk as Hk. by exists r, y. }
  right. assert (Hno : ∀ r y, k_refs k !! r = Some y → r_proc y = p → r_node y ≠ n).
  { intros r y Hy Hyp Hk. assert (None = Some r) as ?; [|done]. apply Hfound. rewrite T6, Hy. simpl.
    split; [eauto|congruence]. }
  split; [exact Hno|].
  destruct (kzalloc_ok k a Hf) as (l & Ea & _ & HaR & _). rewrite (st_bind_eq _ _ _ _ _ Ea).
  destruct Hf as (_ & Ha & _). destruct (Z.eqb_spec a 0); [done|].
  set (k1 := k <| k_fresh := l |> <| k_stats %= λ s, s <| st_created %= count BINDER_STAT_REF |> |>
    <| k_last_id %= Z.add 1 |>).
  rewrite (st_bind_eq _ _ _ tt (k <| k_fresh := l |> <| k_stats %= λ s, s <| st_created %= count BINDER_STAT_REF |> |>)) by done.
  rewrite (st_bind_eq _ _ _ (k_last_id k1) k1) by done.
  destruct (tree_link_ok k_refs r_node k1 (p_refs_by_node pr) n a T5) as (tn & En & Hpn & Hokn).
  { intros r y Hr Hy Hk. apply T6 in Hr as (z & Hz & Hzp). change (k_refs k !! r = Some y) in Hy.
    rewrite Hz in Hy. injection Hy as <-. by apply (Hno r z). }
  rewrite (st_bind_eq _ _ k1 tn k1) by by rewrite (st_bind_eq _ _ _ _ _ En).
  set (pr2 := pr <| p_refs_by_node := rb_insert_color a tn |>).
  set (k2 := k1 <| k_procs %= <[p := pr2]> |>).
  rewrite (st_bind_eq _ _ k1 tt k2)
    by exact (set_obj_ok k_procs k1 p (λ pr, pr <| p_refs_by_node := rb_insert_color a tn |>) pr Hp).
  rewrite (st_bind_eq _ _ k2 k2 k2) by done. cbv beta.
  rewrite (st_bind_eq _ _ k2 tt k2).
  2:{ apply for_each_touch_ok. intros r Hr%T4. destruct Hr as (y & Hy & _). by exists y. }
  cbv zeta. change (key_of (k_refs k2) r_desc) with (key_of (k_refs k) r_desc).
  change (if n =? k_context_mgr_node k2 then 0 else 1) with (first_desc k n).
  destruct (pick_desc_ok k p pr n HI Hp Hlast) as (D1 & D2 & D3). cbv zeta in D1, D2, D3.
  set (d := free_desc _ (first_desc k n)) in *.
  destruct (tree_link_ok k_refs r_desc k2 (p_refs_by_desc pr) d a T3) as (td & Ed & Hpd & Hokd).
  { intros r y Hr Hy Hk. apply T4 in Hr as (z & Hz & Hzp). change (k_refs k !! r = Some y) in Hy.
    rewrite Hz in Hy. injection Hy as <-. apply D2. by exists r, z. }
  rewrite (st_bind_eq _ _ k2 td k2) by by rewrite (st_bind_eq _ _ _ _ _ Ed).
  set (pr3 := pr <| p_refs_by_node := rb_insert_color a tn |> <| p_refs_by_desc := rb_insert_color a td |>).
  set (k3 := k1 <| k_procs := <[p := pr3]> (k_procs k) |>).
  rewrite (st_bind_eq _ _ k2 tt k3).
  2:{ assert (Hp2 : k_procs k2 !! p = Some pr2) by apply lookup_insert_eq.
      rewrite (set_obj_ok k_procs k2 p (λ pr, pr <| p_refs_by_desc := rb_insert_color a td |>) pr2 Hp2).
      unfold k3. by rewrite <- (insert_insert_eq (k_procs k) p pr3 pr2). }
  set (y := zero_ref <| r_debug_id := k_last_id k1 |> <| r_proc := p |> <| r_node := n |> <| r_desc := d |>).
  set (k4 := k3 <| k_refs := <[a := y]> (k_refs k) |>). rewrite (st_bind_eq _ _ k3 tt k4) by done.
  assert (Hn0 : n ≠ 0) by (intros ->; congruence).
  destruct (Z.eqb_spec n 0); [done|]. simpl.
  rewrite (st_bind_eq _ _ _ _ _ (set_obj_ok k_nodes k4 n (λ x, x <| n_refs %= cons a |>) x Hx)).
  eexists _, y. split; [done|].
  split; [|split_and!; try done; apply D1].
  assert (Hnin : ∀ b, (∃ z, k_refs k !! b = Some z ∧ r_proc z = p) → (<[a := y]> (k_refs k)) !! b = k_refs k !! b).
  { intros b (z & Hz & _). rewrite lookup_insert_ne; [done|]. intros <-. congruence. }
  apply (new_ref_inv _ _ _ _ _ a y n x p pr (rb_insert_color a td) (rb_insert_color a tn) HI HaR Ha Hx Hp); try done.
  - change (r_desc y) with d. assert (0 <= first_desc k n) by (unfold first_desc; destruct (n =? _); lia). lia.
  - destruct (Hokd (<[a := y]> (k_refs k))) as [? ?]; [intros b Hb; by apply Hnin, T4|by rewrite lookup_insert_eq|].
    split; by rewrite inorder_insert_color.
  - by rewrite inorder_insert_color.
  - destruct (Hokn (<[a := y]> (k_refs k))) as [? ?]; [intros b Hb; by apply Hnin, T6|by rewrite lookup_insert_eq|].
    split; by rewrite inorder_insert_color.
  - by rewrite inorder_insert_color.
Qed.
End spec.
