(* ===== verification/BinderObjectRuns.v ===== *)
(** The calls on nodes and references that the rest of the driver makes, as a
    transition system: the invariant of [BinderObjectInv] holds in all its
    runs, and no call oopses.  Then what each call does. *)
From S2P Require Import Prelude RBTree BinderAlloc BinderAllocSpec BinderUapi BinderState BinderKernel BinderObject BinderObjectInv BinderObjectSpec.

Section runs.
Context {AR : Arch} {RB : RBOps} {RL : RBLaws}.
Implicit Types (k : kernel) (x : binder_node) (y : binder_ref).

(** ** Counts that user space and buffers hold on a node *)

Lemma local_counts_inv k n x x' :
  objects_ok k → k_nodes k !! n = Some x →
  n_ptr x' = n_ptr x → n_proc x' = n_proc x → n_refs x' = n_refs x →
  n_internal_strong_refs x' = n_internal_strong_refs x →
  objects_ok (k <| k_nodes := <[n := x']> (k_nodes k) |>).
Proof. intros HI. by apply node_local_inv. Qed.

Lemma inc_node_inv k n x (strong : bool) target :
  objects_ok k → k_nodes k !! n = Some x →
  ∃ ret k', binder_inc_node n strong false target k = Ok (ret, k') ∧ objects_ok k' ∧
    k_nodes k' = <[n := inc_counts strong false x]> (k_nodes k).
Proof.
  intros HI Hx.
  assert (HI' : objects_ok (k <| k_nodes := <[n := inc_counts strong false x]> (k_nodes k) |>))
    by (apply (local_counts_inv k n x); by destruct strong).
  destruct (inc_node_ok n strong false target k x Hx) as (ret & k' & E & [[_ Hq]|(_ & _ & Hq)]);
    exists ret, k'; (split; [done|]; split; [by eapply quiet_objects|]); by destruct (quiet_fields _ _ Hq) as (-> & _).
Qed.

(** A node that was given up and is free goes. *)
Lemma removed_inv k n x :
  objects_ok k → k_nodes k !! n = Some x → node_free x = true → objects_ok (removed n x k).
Proof.
  intros HI Hx Hf. unfold node_free in Hf. rewrite !andb_true_iff, bool_decide_eq_true in Hf.
  apply (delete_node_inv _ _ _ _ _ n x HI Hx). tauto.
Qed.

Lemma dec_node_inv k n x (strong : bool) :
  objects_ok k → k_nodes k !! n = Some x →
  ∃ k', binder_dec_node n strong false k = Ok (0, k') ∧ objects_ok k' ∧
    k_nodes k' = (if dec_frees strong false x then delete n else <[n := dec_counts strong false x]>) (k_nodes k).
Proof.
  intros HI Hx. set (x' := dec_counts strong false x). set (k1 := k <| k_nodes := <[n := x']> (k_nodes k) |>).
  assert (HI1 : objects_ok k1) by (apply (local_counts_inv k n x); by destruct strong).
  destruct (dec_node_ok n strong false k x Hx) as (k' & E & Hq); [by apply (oi_node _ _ _ _ _ HI n x)|]. cbv zeta in Hq.
  fold x' in Hq. fold k1 in Hq. exists k'. split; [done|]. destruct (dec_frees strong false x) eqn:Ef.
  - assert (Hf : node_free x' = true) by (unfold dec_frees in Ef; by apply andb_true_iff in Ef as [_ ?]).
    assert (Hx1 : k_nodes k1 !! n = Some x') by apply lookup_insert_eq.
    split; [eapply quiet_objects; [exact Hq|by apply removed_inv]|].
    destruct (quiet_fields _ _ Hq) as (-> & _). simpl. by rewrite delete_insert_eq.
  - split; [by eapply quiet_objects|]. by destruct (quiet_fields _ _ Hq) as (-> & _).
Qed.

(** ** The calls *)

Inductive obj_call : Type :=
| call_new_node (p ptr cookie : Z)
| call_inc_node (n : Z) (strong : bool) (target : option lhead)
| call_dec_node (n : Z) (strong : bool)
| call_get_ref_for_node (p n : Z)
| call_inc_ref (r : Z) (strong : bool) (target : option lhead)
| call_dec_ref (r : Z) (strong : bool)
| call_delete_ref (r : Z).

Definition serve_call (c : obj_call) : K Z :=
  match c with
  | call_new_node p ptr cookie => binder_new_node p ptr cookie
  | call_inc_node n strong target => binder_inc_node n strong false target
  | call_dec_node n strong => binder_dec_node n strong false
  | call_get_ref_for_node p n => binder_get_ref_for_node p n
  | call_inc_ref r strong target => binder_inc_ref r strong target
  | call_dec_ref r strong => binder_dec_ref r strong
  | call_delete_ref r => binder_delete_ref r ;; mret 0
  end.

(** [kzalloc] answers NULL or an address that is not in use. *)
Definition alloc_ready k : Prop := ∀ a, head (k_fresh k) = Some a → a = 0 ∨ in_use a k = false.

(** The caller names live objects, descriptors have not run out, and no counter
    that goes up is at the end of an [int]. *)
Definition call_ok (c : obj_call) k : Prop :=
  match c with
  | call_new_node p _ _ => is_Some (k_procs k !! p) ∧ alloc_ready k
  | call_inc_node n _ _ | call_dec_node n _ => is_Some (k_nodes k !! n)
  | call_get_ref_for_node p n =>
      is_Some (k_procs k !! p) ∧ is_Some (k_nodes k !! n) ∧ alloc_ready k ∧ ∀ c, used_desc k p c → c < 2 ^ 32 - 1
  | call_inc_ref r strong _ => ∃ y, k_refs k !! r = Some y ∧ count_room strong y k
  | call_dec_ref r _ | call_delete_ref r => is_Some (k_refs k !! r)
  end.

Inductive obj_run : kernel → kernel → Prop :=
| obj_done k : obj_run k k
| obj_step k1 c ret k2 k3 : call_ok c k1 → serve_call c k1 = Ok (ret, k2) → obj_run k2 k3 → obj_run k1 k3.

(** ** No memory *)

Lemma alloc_cases k : alloc_ready k → (∃ a, fresh_next k a) ∨ kzalloc k = Ok (0, k <| k_fresh := tail (k_fresh k) |>).
Proof.
  unfold alloc_ready, fresh_next, kzalloc. destruct (k_fresh k) as [|a l] eqn:E; intros H.
  - right. destruct k. simpl in *. by subst.
  - simpl. destruct (Z.eqb_spec a 0) as [|Ha]; [by right|]. left. exists a. destruct (H a); done.
Qed.

Lemma fresh_inv k l : objects_ok k → objects_ok (k <| k_fresh := l |>).
Proof. done. Qed.

Lemma new_node_null p pr ptr cookie k :
  objects_ok k → k_procs k !! p = Some pr → kzalloc k = Ok (0, k <| k_fresh := tail (k_fresh k) |>) →
  ∃ k', binder_new_node p ptr cookie k = Ok (0, k') ∧ objects_ok k' ∧ k_nodes k' = k_nodes k ∧ k_refs k' = k_refs k.
Proof.
  intros HI Hp Ea. destruct (oi_trees _ _ _ _ _ HI p pr Hp) as [T1 _ _ _ _ _].
  unfold binder_new_node. rewrite (st_bind_eq _ _ _ _ _ (obj_ok k_procs k p pr Hp)).
  destruct (tree_find_ok k_nodes n_ptr k (p_nodes pr) ptr T1) as (found & Er & _). rewrite (st_bind_eq _ _ _ _ _ Er).
  destruct found as [n|]; simpl; [by exists k|]. rewrite (st_bind_eq _ _ _ _ _ Ea). by eexists.
Qed.

Lemma get_ref_for_node_null p pr n k :
  objects_ok k → k_procs k !! p = Some pr → kzalloc k = Ok (0, k <| k_fresh := tail (k_fresh k) |>) →
  ∃ r k', binder_get_ref_for_node p n k = Ok (r, k') ∧ objects_ok k' ∧ k_refs k' = k_refs k ∧
    (r = 0 ∨ ∃ y, k_refs k !! r = Some y ∧ r_proc y = p ∧ r_node y = n).
Proof.
  intros HI Hp Ea. destruct (oi_trees _ _ _ _ _ HI p pr Hp) as [_ _ _ _ T5 T6].
  unfold binder_get_ref_for_node. rewrite (st_bind_eq _ _ _ _ _ (obj_ok k_procs k p pr Hp)).
  destruct (tree_find_ok k_refs r_node k (p_refs_by_node pr) n T5) as (found & Er & Hfound). rewrite (st_bind_eq _ _ _ _ _ Er).
  destruct found as [r|]; simpl; [|rewrite (st_bind_eq _ _ _ _ _ Ea); eexists _, _; split_and!; [done..|by left]].
  eexists _, k. split_and!; [done..|]. right. destruct (proj1 (Hfound r) eq_refl) as [Hin Hk]. apply T6 in Hin as (y & Hy & Hyp).
  rewrite Hy in Hk. injection Hk as Hk. eauto.
Qed.

(** Decrementing a count that is zero is an error of the caller. *)
Lemma dec_ref_zero r y (strong : bool) k :
  k_refs k !! r = Some y → (if strong then r_strong y else r_weak y) = 0 →
  ∃ k', binder_dec_ref r strong k = Ok (- EINVAL, k') ∧ quiet k k'.
Proof.
  intros Hy H0. unfold binder_dec_ref. rewrite (st_bind_eq _ _ _ _ _ (obj_ok k_refs k r y Hy)).
  rewrite H0. simpl. destruct (user_error_quiet k) as (k' & E & Hq). exists k'. by rewrite (st_bind_eq _ _ _ _ _ E).
Qed.

Lemma serve_call_ok c k :
  objects_ok k → call_ok c k → ∃ ret k', serve_call c k = Ok (ret, k') ∧ objects_ok k'.
Proof.
  intros HI. destruct c; simpl.
  - intros [[pr Hp] Ha]. destruct (alloc_cases k Ha) as [[a Hf]|Ea].
    + destruct (new_node_ok p pr ptr cookie a k HI Hp Hf) as [[_ ->]|(_ & k' & did & -> & HI' & _)]; eauto.
    + destruct (new_node_null p pr ptr cookie k HI Hp Ea) as (k' & -> & HI' & _). eauto.
  - intros [x Hx]. destruct (inc_node_inv k n x strong target HI Hx) as (ret & k' & -> & HI' & _). eauto.
  - intros [x Hx]. destruct (dec_node_inv k n x strong HI Hx) as (k' & -> & HI' & _). eauto.
  - intros ([pr Hp] & [x Hx] & Ha & Hlast). destruct (alloc_cases k Ha) as [[a Hf]|Ea].
    + destruct (get_ref_for_node_ok p pr n x a k HI Hp Hx Hf Hlast) as [(r & y & _ & _ & _ & ->)|(_ & k' & y & -> & HI' & _)]; eauto.
    + destruct (get_ref_for_node_null p pr n k HI Hp Ea) as (r & k' & -> & HI' & _). eauto.
  - intros (y & Hy & Hc). destruct (inc_ref_ok r y strong target k HI Hy Hc) as (ret & k' & -> & HI' & _). eauto.
  - intros [y Hy]. destruct (decide ((if strong then r_strong y else r_weak y) = 0)) as [H0|H0].
    + destruct (dec_ref_zero r y strong k Hy H0) as (k' & -> & Hq). eexists _, k'. split; [done|]. by eapply quiet_objects.
    + destruct (dec_ref_ok r y strong k HI Hy H0) as (k' & -> & HI' & _). eauto.
  - intros [y Hy]. destruct (delete_ref_ok r y k HI Hy) as (k' & E & HI' & _). rewrite (st_bind_eq _ _ _ _ _ E). by eexists _, k'.
Qed.

Lemma obj_run_inv k k' : objects_ok k → obj_run k k' → objects_ok k'.
Proof.
  intros HI. induction 1 as [|k1 c ret k2 k3 Hc Hs _ IH]; [done|].
  destruct (serve_call_ok c k1 HI Hc) as (ret' & k2' & E & HI2). rewrite Hs in E. injection E as <- <-. auto.
Qed.

(** ** The end of the counters *)

(** A process acquires one of its references [n] times. *)
Fixpoint acquires (n : nat) (r : Z) : K unit :=
  match n with
  | O => mret tt
  | S n => binder_inc_ref r true None ;; acquires n r
  end.

Lemma int_inc_s32 (c : Z) : int_inc (s32 c) = s32 (c + 1).
Proof.
  unfold int_inc, s32. f_equal. replace ((c + 2 ^ 31) `mod` 2 ^ 32 - 2 ^ 31 + 1 + 2 ^ 31) with ((c + 2 ^ 31) `mod` 2 ^ 32 + 1) by lia.
  rewrite Zplus_mod_idemp_l. f_equal. lia.
Qed.

Lemma s32_zero (c : Z) : 0 < c < 2 ^ 32 → s32 c ≠ 0.
Proof.
  unfold s32. intros Hc E. destruct (decide (c + 2 ^ 31 < 2 ^ 32)).
  - rewrite Z.mod_small in E; lia.
  - rewrite <- (Z.mod_add _ (-1)), Z.mod_small in E; lia.
Qed.

(** A strong count that is not 0 goes up alone. *)
Lemma acquire_again r y k :
  k_refs k !! r = Some y → r_strong y ≠ 0 →
  binder_inc_ref r true None k = Ok (0, k <| k_refs := <[r := inc_ref_counts true y]> (k_refs k) |>).
Proof.
  intros Hy H0. unfold binder_inc_ref. rewrite (st_bind_eq _ _ _ _ _ (obj_ok k_refs k r y Hy)).
  destruct (Z.eqb_spec (r_strong y) 0); [done|]. rewrite (st_bind_eq _ _ k 0 k) by done. simpl.
  rewrite (st_bind_eq _ _ _ _ _ (set_obj_ok k_refs k r _ y Hy)). by destruct k.
Qed.

Lemma acquires_count n r y k c :
  k_refs k !! r = Some y → r_strong y = s32 c → 0 < c → c + Z.of_nat n <= 2 ^ 32 →
  ∃ k' y', acquires n r k = Ok (tt, k') ∧ k_refs k' !! r = Some y' ∧ r_strong y' = s32 (c + Z.of_nat n) ∧
    r_node y' = r_node y ∧ k_nodes k' = k_nodes k.
Proof.
  revert y k c. induction n as [|n IH]; intros y k c Hy Hc H1 H2.
  { exists k, y. split_and!; try done. rewrite Hc. f_equal. lia. }
  cbn [acquires]. assert (Hnz : r_strong y ≠ 0) by (rewrite Hc; apply s32_zero; lia).
  rewrite (st_bind_eq _ _ _ _ _ (acquire_again r y k Hy Hnz)).
  destruct (IH (inc_ref_counts true y) (k <| k_refs := <[r := inc_ref_counts true y]> (k_refs k) |>) (c + 1)) as (k' & y' & E & Hy' & Hs & Hn & EN).
  - apply lookup_insert_eq.
  - simpl. by rewrite Hc, int_inc_s32.
  - lia.
  - lia.
  - exists k', y'. split_and!; try done. rewrite Hs. f_equal. lia.
Qed.

Lemma acquires_app n m r k k' : acquires n r k = Ok (tt, k') → acquires (n + m) r k = acquires m r k'.
Proof.
  revert k. induction n as [|n IH]; intros k; cbn [acquires Nat.add]; [by intros [= <-]|].
  intros (ret & k1 & E1 & E2)%st_bind_ok. rewrite (st_bind_eq _ _ _ _ _ E1). by apply IH.
Qed.

(** A reference that is held adds to its node. *)
Lemma strong_counts r y x k :
  objects_ok k → k_refs k !! r = Some y → r_strong y ≠ 0 → k_nodes k !! r_node y = Some x → 0 < n_internal_strong_refs x.
Proof.
  intros HI Hy H0 Hx. rewrite (oi_strong _ _ _ _ _ HI _ x Hx).
  pose proof (msum_delete (strong_of (r_node y)) (k_refs k) r y Hy) as E.
  assert (strong_of (r_node y) y = 1) as E1.
  { unfold strong_of. rewrite Z.eqb_refl. by destruct (Z.eqb_spec (r_strong y) 0). }
  assert (0 <= msum (strong_of (r_node y)) (delete r (k_refs k))); [|lia].
  apply msum_nonneg. intros i z _. unfold strong_of. destruct (_ && _); lia.
Qed.

(** A strong count that is 0 goes up with the one of the node. *)
Lemma acquire_first r y x k :
  k_refs k !! r = Some y → r_strong y = 0 → k_nodes k !! r_node y = Some x → 0 < n_internal_strong_refs x →
  binder_inc_ref r true None k =
    Ok (0, k <| k_nodes := <[r_node y := inc_counts true true x]> (k_nodes k) |>
             <| k_refs := <[r := inc_ref_counts true y]> (k_refs k) |>).
Proof.
  intros Hy H0 Hx Hpos. unfold binder_inc_ref. rewrite (st_bind_eq _ _ _ _ _ (obj_ok k_refs k r y Hy)), H0. simpl.
  set (k1 := k <| k_nodes := <[r_node y := inc_counts true true x]> (k_nodes k) |>).
  assert (E : binder_inc_node (r_node y) true true None k = Ok (0, k1)).
  { unfold binder_inc_node. rewrite (st_bind_eq _ _ _ _ _ (obj_ok k_nodes k _ x Hx)), (st_bind_eq _ _ k k k) by done.
    destruct (Z.eqb_spec (n_internal_strong_refs x) 0); [lia|]. rewrite andb_false_r. simpl.
    rewrite (st_bind_eq _ _ _ _ _ (set_obj_ok k_nodes k _ _ x Hx)), update_nodes_insert. done. }
  rewrite (st_bind_eq _ _ _ _ _ E). simpl. rewrite (st_bind_eq _ _ _ _ _ (set_obj_ok k_refs k1 r _ y Hy)). by destruct k.
Qed.

(** Nothing keeps a process from acquiring a reference until its count wraps
    around: [2 ^ 32] acquisitions of a reference that is held once are all
    granted, leave it held once, and have counted it on the node twice. *)
Theorem acquires_wrap_around n r y x k :
  Z.of_nat n = 2 ^ 32 → objects_ok k → k_refs k !! r = Some y → r_strong y = 1 → k_nodes k !! r_node y = Some x →
  n_internal_strong_refs x < 2 ^ 31 - 1 →
  ∃ k' y' x', acquires n r k = Ok (tt, k') ∧ k_refs k' !! r = Some y' ∧ r_strong y' = 1 ∧ r_node y' = r_node y ∧
    k_nodes k' !! r_node y = Some x' ∧ n_internal_strong_refs x' = n_internal_strong_refs x + 1.
Proof.
  intros Hn HI Hy H1 Hx Hlt. destruct n as [|n]; [done|]. replace (S n) with (n + 1)%nat by lia.
  destruct (acquires_count n r y k 1 Hy) as (k1 & y1 & E1 & Hy1 & Hs1 & Hn1 & EN1); [by rewrite H1|lia|lia|].
  rewrite (acquires_app n 1 r k k1 E1). assert (Hz : r_strong y1 = 0) by (rewrite Hs1; replace (1 + Z.of_nat n) with (2 ^ 32) by lia; done).
  assert (Hx1 : k_nodes k1 !! r_node y1 = Some x) by by rewrite EN1, Hn1.
  pose proof (strong_counts r y x k HI Hy ltac:(lia) Hx) as Hpos.
  cbn [acquires]. rewrite (st_bind_eq _ _ _ _ _ (acquire_first r y1 x k1 Hy1 Hz Hx1 Hpos)).
  eexists _, (inc_ref_counts true y1), (inc_counts true true x). split; [done|]. simpl.
  rewrite <- Hn1, !lookup_insert_eq, Hz. split_and!; try done. apply int_inc_small. unfold is_s32. lia.
Qed.

(** ** Properties *)


(** [binder_get_ref_for_node] returns the reference the process has on the
    node.  When it has none, it creates one without counts, with the least
    unused descriptor; descriptor 0 is left to the node of the context manager. *)
Theorem binder_get_ref_for_node_correct p pr n x a k :
  objects_ok k → k_procs k !! p = Some pr → k_nodes k !! n = Some x → fresh_next k a →
  (∀ c, used_desc k p c → c < 2 ^ 32 - 1) →
  (∃ r y, k_refs k !! r = Some y ∧ r_proc y = p ∧ r_node y = n ∧ binder_get_ref_for_node p n k = Ok (r, k)) ∨
  (∀ r y, k_refs k !! r = Some y → r_proc y = p → r_node y ≠ n) ∧
  ∃ k' y, binder_get_ref_for_node p n k = Ok (a, k') ∧ objects_ok k' ∧ k_refs k' = <[a := y]> (k_refs k) ∧
    r_proc y = p ∧ r_node y = n ∧ r_strong y = 0 ∧ r_weak y = 0 ∧ r_death y = 0 ∧
    (if n =? k_context_mgr_node k then 0 else 1) <= r_desc y ∧ ¬ used_desc k p (r_desc y) ∧
    ∀ c, (if n =? k_context_mgr_node k then 0 else 1) <= c < r_desc y → used_desc k p c.
Proof. apply get_ref_for_node_ok. Qed.

(** [binder_get_node] and [binder_get_ref] find exactly the node of the
    process with the pointer, and its reference with the descriptor; they
    return NULL when there is none, and change nothing. *)
Theorem lookups_correct p pr ptr desc k :
  objects_ok k → k_procs k !! p = Some pr →
  (∃ v, binder_get_node p ptr k = Ok (v, k) ∧
    ∀ n, (n ≠ 0 ∧ v = n) ↔ ∃ x, k_nodes k !! n = Some x ∧ n_proc x = p ∧ n_ptr x = ptr) ∧
  (∃ v, binder_get_ref p desc k = Ok (v, k) ∧
    ∀ r, (r ≠ 0 ∧ v = r) ↔ ∃ y, k_refs k !! r = Some y ∧ r_proc y = p ∧ r_desc y = desc).
Proof. intros HI Hp. split; [by eapply get_node_ok|by eapply get_ref_ok]. Qed.

(** [binder_dec_ref] refuses a count that is zero with [-EINVAL] and changes
    no object; else it decrements the count, and deletes the reference exactly
    when both counts have become zero. *)
Theorem binder_dec_ref_correct r y (strong : bool) k :
  objects_ok k → k_refs k !! r = Some y →
  ∃ ret k', binder_dec_ref r strong k = Ok (ret, k') ∧ objects_ok k' ∧
    let c := if strong then r_strong y else r_weak y in
    let other := if strong then r_weak y else r_strong y in
    ret = (if c =? 0 then - EINVAL else 0) ∧
    k_refs k' = if c =? 0 then k_refs k
                else if (c =? 1) && (other =? 0) then delete r (k_refs k)
                else <[r := dec_ref_counts strong y]> (k_refs k).
Proof.
  intros HI Hy. destruct (Z.eqb_spec (if strong then r_strong y else r_weak y) 0) as [H0|H0].
  - destruct (dec_ref_zero r y strong k Hy H0) as (k' & E & Hq). exists (- EINVAL), k'.
    split; [done|]. split; [by eapply quiet_objects|]. cbv zeta. rewrite H0. split; [done|].
    by destruct (quiet_fields _ _ Hq) as (_ & -> & _).
  - destruct (dec_ref_ok r y strong k HI Hy H0) as (k' & E & HI' & HR). exists 0, k'. split_and!; [done..|].
    cbv zeta. destruct (Z.eqb_spec (if strong then r_strong y else r_weak y) 0); [done|]. split; [done|]. rewrite HR.
    pose proof (oi_ref _ _ _ _ _ HI r y Hy) as [_ _ ? ? _ _].
    unfold dec_ref_counts. destruct strong; simpl; rewrite int_dec_small by (unfold is_s32; lia);
      destruct (Z.eqb_spec (r_strong y - 1) 0), (Z.eqb_spec (r_weak y - 1) 0),
        (Z.eqb_spec (r_strong y) 0), (Z.eqb_spec (r_strong y) 1), (Z.eqb_spec (r_weak y) 0), (Z.eqb_spec (r_weak y) 1); simpl; done || lia.
Qed.

(** [binder_dec_node] of a count user space or a buffer holds decrements it,
    and frees the node exactly when no count and no reference is left and its
    process has no count of its own to give up first. *)
Theorem binder_dec_node_correct k n x (strong : bool) :
  objects_ok k → k_nodes k !! n = Some x →
  ∃ k', binder_dec_node n strong false k = Ok (0, k') ∧ objects_ok k' ∧
    let ls := if strong then int_dec (n_local_strong_refs x) else n_local_strong_refs x in
    let lw := if strong then n_local_weak_refs x else int_dec (n_local_weak_refs x) in
    (k_nodes k' !! n = None ↔
       ls = 0 ∧ lw = 0 ∧ n_refs x = [] ∧ (n_proc x = 0 ∨ (n_has_strong_ref x = false ∧ n_has_weak_ref x = false))) ∧
    (∀ x', k_nodes k' !! n = Some x' → n_local_strong_refs x' = ls ∧ n_local_weak_refs x' = lw) ∧
    ∀ m, m ≠ n → k_nodes k' !! m = k_nodes k !! m.
Proof.
  intros HI Hx. destruct (dec_node_inv k n x strong HI Hx) as (k' & E & HI' & HN). exists k'. split_and!; [done..|].
  cbv zeta. assert (Hz : n_refs x = [] → n_internal_strong_refs x = 0).
  { intros Hr. rewrite (oi_strong _ _ _ _ _ HI n x Hx). apply msum_zero. intros r y Hy. unfold strong_of.
    destruct (Z.eqb_spec (r_node y) n) as [En|]; [|done]. exfalso.
    assert (r ∈ n_refs x) as Hin by (apply (oi_refs _ _ _ _ _ HI n x r Hx); eauto). rewrite Hr in Hin. by apply not_elem_of_nil in Hin. }
  assert (Hf : dec_frees strong false x = true ↔
    (if strong then int_dec (n_local_strong_refs x) else n_local_strong_refs x) = 0 ∧
    (if strong then n_local_weak_refs x else int_dec (n_local_weak_refs x)) = 0 ∧ n_refs x = [] ∧
    (n_proc x = 0 ∨ (n_has_strong_ref x = false ∧ n_has_weak_ref x = false))).
  { unfold dec_frees, node_free, dec_counts. destruct strong; simpl;
      rewrite !andb_true_iff, !negb_true_iff, !orb_false_iff, !negb_false_iff, !andb_false_iff, !negb_false_iff,
        !orb_false_iff, !bool_decide_eq_true, !Z.eqb_eq; tauto. }
  rewrite HN. destruct (dec_frees strong false x).
  - rewrite lookup_delete_eq. split_and!; [tauto|done|]. intros m Hm. by rewrite lookup_delete_ne.
  - rewrite lookup_insert_eq. split_and!; [split; [done|intros H; by apply Hf in H]| |].
    + intros x' [= <-]. by destruct strong.
    + intros m Hm. by rewrite lookup_insert_ne.
Qed.
End runs.

(** ** Witnesses: two processes, a node of the first, a reference of the second *)

Module Demo.
#[local] Existing Instances list_rb list_rb_laws BinderAllocSpec.arch32.

Definition two_processes : kernel :=
  mk_kernel {[ 1000 := zero_proc; 2000 := zero_proc ]} ∅ ∅ ∅ ∅ ∅ ∅ ∅ [2000; 1000] [] [] false 0 None 0 0
    zero_stats zero_log zero_log [3000; 4000; 5000] ∅ ∅ 0 ∅ [].

Definition after (c : obj_call) (k : kernel) : kernel :=
  match serve_call c k with Ok (_, k') => k' | Oops _ => k end.

Definition with_node : kernel := after (call_new_node 1000 16 17) two_processes.
Definition with_ref : kernel := after (call_get_ref_for_node 2000 3000) with_node.
Definition counted : kernel := after (call_inc_ref 4000 true (Some (proc_todo 1000))) with_ref.
Definition held : kernel := after (call_inc_node 3000 false (Some (proc_todo 1000))) with_node.

Lemma two_processes_ok : objects_ok two_processes.
Proof.
  assert (Hp : ∀ p pr, k_procs two_processes !! p = Some pr → pr = zero_proc).
  { intros p pr. unfold two_processes. simpl. rewrite lookup_insert_Some, lookup_singleton_Some. naive_solver. }
  split; simpl; try (intros *; rewrite lookup_empty; done).
  - intros p pr ->%Hp. split; simpl; try (split; [constructor|intros ? []%not_elem_of_nil]);
      intros n; (split; [by intros ?%not_elem_of_nil|intros (x & Hx & _); by rewrite lookup_empty in Hx]).
  - intros n. split; [by intros ?%not_elem_of_nil|intros (x & Hx & _); by rewrite lookup_empty in Hx].
Qed.

Lemma step (c : obj_call) k k' :
  call_ok c k → (∃ ret, serve_call c k = Ok (ret, after c k)) → obj_run (after c k) k' → obj_run k k'.
Proof. intros Hc [ret Hs]. by apply (obj_step k c ret). Qed.

(** Computes whether an object is there. *)
Ltac live := eexists; vm_compute; reflexivity.
Ltac is_fresh := intros ? [= <-]; right; vm_compute; reflexivity.

Lemma no_descs p c : used_desc with_node p c → c < 2 ^ 32 - 1.
Proof. intros (r & y & Hy & _). assert (E : k_refs with_node = ∅) by (vm_compute; reflexivity). by rewrite E, lookup_empty in Hy. Qed.

Lemma low_counts (strong : bool) y k c :
  n_internal_strong_refs <$> k_nodes k !! r_node y = Some c → (if strong then r_strong y else r_weak y) < 2 ^ 31 - 1 →
  c < 2 ^ 31 - 1 → count_room strong y k.
Proof. intros E H1 H2. split; [done|]. intros x Hx. rewrite Hx in E. injection E as <-. exact H2. Qed.

Lemma run_node : obj_run two_processes with_node.
Proof. apply (step (call_new_node 1000 16 17)); [split; [live|is_fresh]|live|constructor]. Qed.

Lemma run_ref : obj_run with_node with_ref.
Proof. apply (step (call_get_ref_for_node 2000 3000)); [split_and!; [live|live|is_fresh|apply no_descs]|live|constructor]. Qed.

Lemma with_node_ok : objects_ok with_node.
Proof. exact (obj_run_inv _ _ two_processes_ok run_node). Qed.

Lemma with_ref_ok : objects_ok with_ref.
Proof. exact (obj_run_inv _ _ with_node_ok run_ref). Qed.

Lemma counted_ok : objects_ok counted.
Proof. apply (obj_run_inv _ _ with_ref_ok). apply (step (call_inc_ref 4000 true (Some (proc_todo 1000)))); [eexists; split; [vm_compute; reflexivity|apply (low_counts true _ with_ref 0); vm_compute; reflexivity]|live|constructor]. Qed.

Lemma held_ok : objects_ok held.
Proof. apply (obj_run_inv _ _ with_node_ok). apply (step (call_inc_node 3000 false (Some (proc_todo 1000)))); [live|live|constructor]. Qed.


Lemma fresh_address : fresh_next with_node 4000.
Proof. split_and!; [vm_compute; reflexivity|done|vm_compute; reflexivity]. Qed.

Definition node_3000 : binder_node :=
  zero_node <| n_debug_id := 1 |> <| n_proc := 1000 |> <| n_ptr := 16 |> <| n_cookie := 17 |>.

Lemma binder_get_ref_for_node_correct_witness :
  ∃ k' y, binder_get_ref_for_node 2000 3000 with_node = Ok (4000, k') ∧ k_refs k' = <[4000 := y]> (k_refs with_node).
Proof.
  assert (E : k_refs with_node = ∅) by (vm_compute; reflexivity).
  pose proof (binder_get_ref_for_node_correct 2000 zero_proc 3000 node_3000 4000 with_node with_node_ok
    ltac:(vm_compute; reflexivity) ltac:(vm_compute; reflexivity) fresh_address (no_descs 2000)) as H.
  destruct H as [(r & y & Hy & _)|(_ & k' & y & Ek & _ & Er & _)].
  - by rewrite E, lookup_empty in Hy.
  - by exists k', y.
Defined.

Lemma lookups_correct_witness : ∃ v, binder_get_node 1000 16 with_node = Ok (v, with_node) ∧ v = 3000.
Proof.
  destruct (lookups_correct 1000 (zero_proc <| p_nodes := node leaf 3000 leaf |>) 16 1 with_node with_node_ok) as [(v & E & Hv) _].
  - vm_compute; reflexivity.
  - exists v. split; [done|]. apply Hv. eexists. split; [vm_compute; reflexivity|done].
Defined.

Lemma binder_dec_ref_correct_witness : ∃ k', binder_dec_ref 4000 true counted = Ok (0, k') ∧ k_refs k' = ∅.
Proof.
  destruct (binder_dec_ref_correct 4000 (zero_ref <| r_debug_id := 2 |> <| r_proc := 2000 |> <| r_node := 3000 |>
    <| r_desc := 1 |> <| r_strong := 1 |>) true counted counted_ok) as (ret & k' & E & _ & Hret & Hk').
  - vm_compute; reflexivity.
  - simpl in Hret. subst ret. exists k'. split; [exact E|]. rewrite Hk'. vm_compute. reflexivity.
Defined.

Lemma binder_dec_node_correct_witness : ∃ k', binder_dec_node 3000 false false held = Ok (0, k') ∧ k_nodes k' !! 3000 = None.
Proof.
  destruct (binder_dec_node_correct held 3000 (zero_node <| n_debug_id := 1 |> <| n_proc := 1000 |> <| n_ptr := 16 |>
    <| n_cookie := 17 |> <| n_local_weak_refs := 1 |>) false held_ok) as (k' & E & _ & Hfree & _).
  - vm_compute; reflexivity.
  - exists k'. split; [exact E|]. apply Hfree. split_and!; try done. by right.
Defined.
End Demo.
