(* ===== verification/BinderTranslateSpec.v ===== *)
(** Binders on their way from one process to another: whatever the driver makes
    of an object in a transaction, it names the same node to the receiver. *)
From S2P Require Import Prelude RBTree BinderAlloc BinderUapi BinderState BinderKernel BinderObject BinderTransaction BinderWrite BinderRead BinderLifecycle BinderFrames BinderBuffers BinderObjectInv BinderObjectSpec BinderObjectRuns BinderExamples.

(** ** What the calls on nodes and references leave alone *)

(** The areas of the processes, and the objects of other kinds. *)
Definition others (k k' : kernel) : Prop :=
  (∀ q, p_alloc <$> k_procs k' !! q = p_alloc <$> k_procs k !! q) ∧ k_threads k' = k_threads k ∧
  k_deaths k' = k_deaths k ∧ k_transactions k' = k_transactions k ∧ k_completes k' = k_completes k ∧
  k_context_mgr_node k' = k_context_mgr_node k.

(** Nodes keep who they are. *)
Definition identity (x : binder_node) : Z * Z * Z := (n_proc x, n_ptr x, n_cookie x).
Definition same_nodes (k k' : kernel) : Prop :=
  ∀ n x, k_nodes k !! n = Some x → ∃ x', k_nodes k' !! n = Some x' ∧ identity x' = identity x.

Definition settled (k k' : kernel) : Prop := others k k' ∧ same_nodes k k'.

#[export] Instance others_preorder : PreOrder others.
Proof.
  split; [by intros k|]. intros k1 k2 k3 (A1 & B1 & C1 & D1 & E1 & F1) (A2 & B2 & C2 & D2 & E2 & F2).
  split_and!; try congruence; intros q; by rewrite A2.
Qed.

#[export] Instance same_nodes_preorder : PreOrder same_nodes.
Proof.
  split; [intros k n x; eauto|]. intros k1 k2 k3 H1 H2 n x Hx. destruct (H1 n x Hx) as (x' & Hx' & E).
  destruct (H2 n x' Hx') as (x'' & Hx'' & E'). exists x''. split; congruence.
Qed.

#[export] Instance settled_preorder : PreOrder settled.
Proof. split; [by intros k|]. intros k1 k2 k3 [A1 B1] [A2 B2]. split; by etrans. Qed.

Section frames.
Context {AR : Arch} {RB : RBOps}.
Context (R : kernel → kernel → Prop) `{!PreOrder R}.
(** [R] does not see references, lists, counters, numbers and addresses. *)
Hypothesis R_settled : ∀ k k', others k k' → k_nodes k' = k_nodes k → R k k'.

Lemma settle_obj {T} (m : kernel → gmap Z T) a : keeps R (obj m a).
Proof. unfold obj. keep. Qed.

Lemma settle_modify f : (∀ k, others k (f k)) → (∀ k, k_nodes (f k) = k_nodes k) → keeps R (modify f).
Proof. intros H1 H2. apply keeps_modify. auto. Qed.

Lemma settle_kzalloc : keeps R kzalloc.
Proof.
  intros k a k'. unfold kzalloc. destruct (k_fresh k) as [|b l]; [by intros [= <- <-]|].
  destruct (b =? 0); [|destruct (in_use b k); [done|]]; intros [= <- <-]; split; auto; by apply R_settled.
Qed.

Lemma settle_procs p f : (∀ pr, p_alloc (f pr) = p_alloc pr) → keeps R (set_obj k_procs p f).
Proof.
  intros Hf k [] k' E. split; [|done]. unfold set_obj in E. apply st_bind_ok in E as (pr & k1 & E1 & E2).
  apply BinderKernel.obj_inv in E1 as [Hp ->]. injection E2 as <-. apply R_settled; [|done]. split; [|done].
  intros q. simpl. destruct (decide (p = q)) as [<-|]; [|by rewrite lookup_insert_ne].
  rewrite lookup_insert_eq, Hp. simpl. by rewrite Hf.
Qed.

Lemma settle_refs r f : keeps R (set_obj k_refs r f).
Proof.
  intros k [] k' E. split; [|done]. unfold set_obj in E. apply st_bind_ok in E as (y & k1 & E1 & E2).
  apply BinderKernel.obj_inv in E1 as [Hy ->]. injection E2 as <-. by apply R_settled.
Qed.
End frames.

Lemma others_settled k k' : others k k' → k_nodes k' = k_nodes k → settled k k'.
Proof. intros H E. split; [done|]. intros n x Hx. rewrite E. eauto. Qed.

Lemma settled_nodes n f : (∀ x, identity (f x) = identity x) → keeps settled (set_obj k_nodes n f).
Proof.
  intros Hf k [] k' E. split; [|done]. unfold set_obj in E. apply st_bind_ok in E as (y & k1 & E1 & E2).
  apply BinderKernel.obj_inv in E1 as [Hy ->]. injection E2 as <-. split; [done|]. intros m x Hx. simpl.
  destruct (decide (n = m)) as [<-|]; [|rewrite lookup_insert_ne by done; eauto].
  rewrite lookup_insert_eq. rewrite Hy in Hx. injection Hx as <-. eauto.
Qed.

Ltac settle :=
  repeat first
    [keep_step
    |match goal with
     | |- keeps _ (for_each _ _) => apply keeps_for_each; [tc_solve|intro]
     | |- keeps _ (obj _ _) => apply settle_obj; tc_solve
     | |- keeps others (modify _) => apply keeps_modify; intros; by repeat case_match
     | |- keeps _ (modify _) => apply settle_modify; [solve [auto using others_settled]|intros; by repeat case_match..]
     | |- keeps _ kzalloc => apply settle_kzalloc; [tc_solve|solve [auto using others_settled]]
     | |- keeps _ (set_obj k_procs _ _) => apply settle_procs; [solve [auto using others_settled]|by intros]
     | |- keeps _ (set_obj k_refs _ _) => apply settle_refs; solve [auto using others_settled]
     | |- keeps settled (set_obj k_nodes _ _) => apply settled_nodes; intros; by repeat case_match
     | |- keeps _ ?m => let h := get_head m in unfold h
     end].

Section frame_calls.
Context {AR : Arch} {RB : RBOps}.

Lemma new_node_others p ptr cookie : keeps others (binder_new_node p ptr cookie).
Proof. settle. Qed.

Lemma get_ref_for_node_settled p n : keeps settled (binder_get_ref_for_node p n).
Proof. settle. Qed.

Lemma inc_node_settled n strong internal target : keeps settled (binder_inc_node n strong internal target).
Proof. settle. Qed.

Lemma inc_ref_settled r strong target : keeps settled (binder_inc_ref r strong target).
Proof. settle. Qed.

Lemma user_error_settled : keeps settled binder_user_error.
Proof. settle. Qed.
End frame_calls.

(** ** What an object means *)

Definition is_binder (fp : flat_binder_object) : bool :=
  (fp_type fp =? BINDER_TYPE_BINDER) || (fp_type fp =? BINDER_TYPE_WEAK_BINDER).
Definition is_handle (fp : flat_binder_object) : bool :=
  (fp_type fp =? BINDER_TYPE_HANDLE) || (fp_type fp =? BINDER_TYPE_WEAK_HANDLE).
Definition is_strong (fp : flat_binder_object) : bool :=
  (fp_type fp =? BINDER_TYPE_BINDER) || (fp_type fp =? BINDER_TYPE_HANDLE).

(** The node that the object names in process [p]: a binder one of its own, a
    handle one it has a reference on. *)
Definition denotes (k : kernel) (p : Z) (fp : flat_binder_object) (n : Z) : Prop :=
  if is_binder fp then ∃ x, k_nodes k !! n = Some x ∧ identity x = (p, fp_binder fp, fp_cookie fp)
  else ∃ r y, k_refs k !! r = Some y ∧ r_proc y = p ∧ r_desc y = fp_binder fp ∧ r_node y = n.

Definition ref_count (strong : bool) (y : binder_ref) : Z := if strong then r_strong y else r_weak y.
Definition local_count (strong : bool) (x : binder_node) : Z :=
  if strong then n_local_strong_refs x else n_local_weak_refs x.

(** How often process [p] holds node [n] by objects such as [fp]. *)
Definition holds (k : kernel) (p : Z) (fp : flat_binder_object) (n : Z) : Z :=
  if is_binder fp then default 0 (local_count (is_strong fp) <$> k_nodes k !! n)
  else msum (λ y, if (r_proc y =? p) && (r_node y =? n) then ref_count (is_strong fp) y else 0) (k_refs k).

(** References keep whom they belong to. *)
Definition ref_identity (y : binder_ref) : Z * Z * Z := (r_proc y, r_desc y, r_node y).
Definition same_refs (k k' : kernel) : Prop :=
  ∀ r y, k_refs k !! r = Some y → ∃ y', k_refs k' !! r = Some y' ∧ ref_identity y' = ref_identity y.

Lemma denotes_kept k k' p fp n : same_nodes k k' → same_refs k k' → denotes k p fp n → denotes k' p fp n.
Proof.
  intros Hn Hr. unfold denotes. destruct (is_binder fp).
  - intros (x & Hx & E). destruct (Hn n x Hx) as (x' & Hx' & E'). exists x'. split; congruence.
  - intros (r & y & Hy & Hp & Hd & <-). destruct (Hr r y Hy) as (y' & Hy' & E). injection E as E1 E2 E3.
    exists r, y'. split_and!; congruence.
Qed.

Lemma same_refs_insert k k' r y y' :
  k_refs k !! r = Some y → ref_identity y' = ref_identity y → k_refs k' = <[r := y']> (k_refs k) → same_refs k k'.
Proof.
  intros Hy E Ek s z Hz. rewrite Ek. destruct (decide (r = s)) as [<-|]; [rewrite lookup_insert_eq|rewrite lookup_insert_ne by done; eauto].
  rewrite Hy in Hz. injection Hz as <-. eauto.
Qed.

Lemma same_refs_eq k k' : k_refs k' = k_refs k → same_refs k k'.
Proof. intros E r y Hy. rewrite E. eauto. Qed.

Lemma same_refs_new k k' r y : k_refs k !! r = None → k_refs k' = <[r := y]> (k_refs k) → same_refs k k'.
Proof. intros Hr E s z Hz. exists z. split; [|done]. rewrite E, lookup_insert_ne; [done|congruence]. Qed.

#[export] Instance same_refs_preorder : PreOrder same_refs.
Proof.
  split; [intros k r y; eauto|]. intros k1 k2 k3 H1 H2 r y Hy. destruct (H1 r y Hy) as (y' & Hy' & E).
  destruct (H2 r y' Hy') as (y'' & Hy'' & E'). exists y''. split; congruence.
Qed.

(** ** The buffer on the way *)

Lemma buffer_at_others k k' b o x : others k k' → buffer_at k b o x → buffer_at k' b o x.
Proof.
  intros (HA & _) (pr & Hp & Hx & Hu).
  assert (Hl : ∀ q qr', k_procs k' !! q = Some qr' → ∃ qr, k_procs k !! q = Some qr ∧ p_alloc qr' = p_alloc qr).
  { intros q qr' Hq. pose proof (HA q) as E. rewrite Hq in E. destruct (k_procs k !! q) as [qr|]; [|done]. injection E as E. eauto. }
  pose proof (HA o) as E. rewrite Hp in E. destruct (k_procs k' !! o) as [pr'|] eqn:Hp'; [|done]. injection E as E.
  exists pr'. rewrite E. split_and!; [done..|]. intros q qr' Hq Hs. destruct (Hl q qr' Hq) as (qr & Hq0 & Eq).
  rewrite Eq in Hs. by apply (Hu q qr).
Qed.

(** The trees of a process do not see its area. *)
Lemma area_step_objects b k k' : area_step b k k' → objects_ok k → objects_ok k'.
Proof.
  intros (P & -> & HP & _) [Hs Hr Hw Hd Ht Hn Hde (N0 & R0 & P0)].
  assert (Hl : ∀ q qr', P !! q = Some qr' → ∃ qr, k_procs k !! q = Some qr ∧ no_area qr' = no_area qr).
  { intros q qr' Hq. pose proof (HP q) as E. rewrite Hq in E. destruct (k_procs k !! q) as [qr|]; [|done].
    apply (inj Some) in E. eauto. }
  assert (Hsome : ∀ q, is_Some (k_procs k !! q) → is_Some (P !! q)).
  { intros q [qr Hq]. pose proof (HP q) as E. rewrite Hq in E. destruct (P !! q); [eauto|done]. }
  constructor; simpl; try done.
  - intros r y Hy. destruct (Hw r y Hy) as [A B C D E F]. constructor; auto.
  - intros p pr' Hp. destruct (Hl p pr' Hp) as (pr & Hp0 & E). destruct (Ht p pr Hp0) as [T1 T2 T3 T4 T5 T6].
    pose proof (f_equal p_nodes E) as E1. pose proof (f_equal p_refs_by_desc E) as E2. pose proof (f_equal p_refs_by_node E) as E3.
    cbn in E1, E2, E3. constructor; by rewrite ?E1, ?E2, ?E3.
  - intros n x Hx Hp. by apply Hsome, (Hn n x).
  - split_and!; try done. pose proof (HP 0) as E. rewrite P0 in E. by destruct (P !! 0).
Qed.

Lemma set_flat_at x off fp :
  0 <= off → off + 16 <= Z.of_nat (length (b_data x)) → Forall is_u32 [fp_type fp; fp_flags fp; fp_binder fp; fp_cookie fp] →
  flat_at (set_flat off fp x) off = fp.
Proof.
  intros H0 H1 Hu. unfold flat_at, set_flat. simpl.
  change 16%nat with (length (encode_flat fp)). rewrite slice_splice.
  - by apply flat_object_roundtrip.
  - change (length (encode_flat fp)) with 16%nat. lia.
Qed.

(** ** The calls, with what they mean *)

Section outcomes.
Context {AR : Arch} {RB : RBOps} {RL : RBLaws} {KR : Kernel}.
Implicit Types (n r p q : Z) (x : binder_node) (y : binder_ref).

(** [kzalloc] will answer NULL, or addresses that are not in use, none twice. *)
Definition memory_ok (k : kernel) : Prop :=
  (∀ a, a ∈ k_fresh k → a ≠ 0 → in_use a k = false) ∧
  ∀ i j a, k_fresh k !! i = Some a → k_fresh k !! j = Some a → a ≠ 0 → i = j.

(** Two more objects can be allocated. *)
Definition memory_left (k : kernel) : Prop := ∃ a b l, k_fresh k = a :: b :: l ∧ a ≠ 0 ∧ b ≠ 0.

Lemma memory_ready k : memory_ok k → alloc_ready k.
Proof.
  intros [H _] a Ha. destruct (decide (a = 0)) as [|Hn]; [by left|right]. apply H; [|done].
  destruct (k_fresh k) as [|b l]; [done|]. injection Ha as ->. by left.
Qed.

Lemma holds_new k k' r y q fp m :
  is_binder fp = false → k_refs k !! r = None → k_refs k' = <[r := y]> (k_refs k) → r_strong y = 0 → r_weak y = 0 →
  holds k' q fp m = holds k q fp m.
Proof.
  intros Hb Hr E Hs Hw. unfold holds. rewrite Hb, E, msum_insert by done. unfold ref_count.
  destruct (_ && _), (is_strong fp); lia.
Qed.

(** No counter that a reference goes up with is at the end of an [int]. *)
Definition refs_low (k : kernel) : Prop :=
  (∀ r y, k_refs k !! r = Some y → r_strong y < 2 ^ 31 - 1 ∧ r_weak y < 2 ^ 31 - 1) ∧
  ∀ n, msum (strong_of n) (k_refs k) < 2 ^ 31 - 1.

Lemma refs_low_eq k k' : k_refs k' = k_refs k → refs_low k → refs_low k'.
Proof. unfold refs_low. by intros ->. Qed.

Lemma refs_low_new k k' r y :
  k_refs k !! r = None → k_refs k' = <[r := y]> (k_refs k) → r_strong y = 0 → r_weak y = 0 → refs_low k → refs_low k'.
Proof.
  intros Hr E Hs Hw [H1 H2]. split; rewrite E.
  - intros s z. destruct (decide (r = s)) as [<-|]; [rewrite lookup_insert_eq; intros [= <-]; lia|].
    rewrite lookup_insert_ne by done. apply H1.
  - intros n. rewrite msum_insert by done. unfold strong_of. rewrite Hs, andb_false_r. apply H2.
Qed.

Lemma refs_low_room k r y strong : objects_ok k → refs_low k → k_refs k !! r = Some y → count_room strong y k.
Proof.
  intros HI [H1 H2] Hy. destruct (H1 r y Hy). split; [by destruct strong|]. intros x Hx.
  rewrite (oi_strong _ _ _ _ _ HI _ x Hx). apply H2.
Qed.

Lemma get_ref_outcome p pr n x k :
  objects_ok k → k_procs k !! p = Some pr → k_nodes k !! n = Some x → alloc_ready k →
  (∀ c, used_desc k p c → c < 2 ^ 32 - 1) →
  ∃ r k', binder_get_ref_for_node p n k = Ok (r, k') ∧ objects_ok k' ∧ settled k k' ∧ same_refs k k' ∧
    (∀ q fp m, is_binder fp = false → holds k' q fp m = holds k q fp m) ∧
    (∀ m, msum (strong_of m) (k_refs k') = msum (strong_of m) (k_refs k)) ∧ (refs_low k → refs_low k') ∧
    (r = 0 ∧ (∀ a, head (k_fresh k) = Some a → a = 0) ∨
     r ≠ 0 ∧ ∃ y, k_refs k' !! r = Some y ∧ r_proc y = p ∧ r_node y = n).
Proof.
  intros HI Hp Hx Ha Hlast. pose proof (oi_null _ _ _ _ _ HI) as (_ & R0 & _).
  assert (Hnz : ∀ r y, k_refs k !! r = Some y → r ≠ 0) by (intros r y Hy ->; congruence).
  assert (Hset : ∀ r k', binder_get_ref_for_node p n k = Ok (r, k') → settled k k')
    by (intros r k' E; by destruct (get_ref_for_node_settled p n k r k' E)).
  destruct (alloc_cases k Ha) as [[a Hf]|Ea].
  - destruct (get_ref_for_node_ok p pr n x a k HI Hp Hx Hf Hlast) as
      [(r & y & Hy & Hyp & Hyn & E)|(_ & k' & y & E & HI' & Ek & Hyp & Hyn & Hs & Hw & _)].
    + exists r, k. split_and!; try done. right. split; [by eapply Hnz|eauto].
    + destruct Hf as (Hh & Ha0 & Hu).
      assert (Hra : k_refs k !! a = None).
      { destruct (kzalloc_ok k a) as (_ & _ & _ & ? & _); [by split_and!|done]. }
      exists a, k'. split_and!; [done|done|by eapply Hset|by eapply same_refs_new| | | |].
      * intros q fp m Hb. by eapply holds_new.
      * intros m. rewrite Ek, msum_insert by done. unfold strong_of. rewrite Hs, andb_false_r. done.
      * by apply (refs_low_new k k' a y).
      * right. split; [done|]. exists y. rewrite Ek, lookup_insert_eq. done.
  - destruct (get_ref_for_node_null p pr n k HI Hp Ea) as (r & k' & E & HI' & Ek & Hcases).
    exists r, k'. split_and!; [done|done|by eapply Hset|by apply same_refs_eq| | |by apply refs_low_eq|].
    + intros q fp m Hb. unfold holds. by rewrite Hb, Ek.
    + intros m. by rewrite Ek.
    + destruct Hcases as [->|(y & Hy & ? & ?)].
      * left. split; [done|]. intros a Hh. unfold kzalloc in Ea. destruct (k_fresh k) as [|b l]; [done|].
        injection Hh as ->. destruct (Z.eqb_spec a 0); [done|]. destruct (in_use a k); [done|]. by injection Ea as ->.
      * right. split; [by eapply Hnz|]. exists y. by rewrite Ek.
Qed.

(** Counting a reference that is there, when the count cannot be refused. *)
Lemma inc_ref_outcome r y strong target k :
  objects_ok k → refs_low k → k_refs k !! r = Some y →
  ∃ ret k', binder_inc_ref r strong target k = Ok (ret, k') ∧ objects_ok k' ∧ settled k k' ∧ same_refs k k' ∧
    (target ≠ None ∨ (strong = true ∧ 0 < msum (strong_of (r_node y)) (k_refs k)) →
     ∀ fp, is_binder fp = false → is_strong fp = strong →
       holds k' (r_proc y) fp (r_node y) = holds k (r_proc y) fp (r_node y) + 1).
Proof.
  intros HI Hlow Hy. pose proof (refs_low_room k r y strong HI Hlow Hy) as Hroom.
  destruct (inc_ref_ok r y strong target k HI Hy Hroom) as (ret & k' & E & HI' & Hcases).
  destruct (oi_ref _ _ _ _ _ HI r y Hy) as [_ _ Hst Hwk _ _]. destruct Hlow as [Hlow _]. destruct (Hlow r y Hy) as [Hls Hlw].
  destruct (inc_ref_settled r strong target k ret k' E) as [Hset _]. exists ret, k'. split; [done|]. split; [done|].
  split; [done|]. destruct Hcases as [[-> Ek]|(-> & Ht & Ek & _)].
  - split; [eapply same_refs_insert; [exact Hy| |exact Ek]; by destruct strong|]. intros _ fp Hb Hs. unfold holds.
    rewrite Hb, Hs, Ek, (msum_update _ _ r y) by done. unfold inc_ref_counts, ref_count.
    destruct strong; simpl; rewrite !Z.eqb_refl; simpl; rewrite int_inc_small by (unfold is_s32; lia); lia.
  - split; [by apply same_refs_eq|]. intros [Hn|[-> Hpos]] fp Hb Hs; [done|]. exfalso.
    destruct (oi_ref _ _ _ _ _ HI r y Hy) as [[x Hx] _ _ _ _ _].
    rewrite <- (oi_strong _ _ _ _ _ HI _ x Hx) in Hpos. subst target.
    unfold binder_inc_ref in E. rewrite (st_bind_eq _ _ _ _ _ (obj_ok k_refs k r y Hy)) in E.
    destruct (r_strong y =? 0).
    2:{ rewrite (st_bind_eq _ _ k 0 k) in E by done. simpl in E.
        rewrite (st_bind_eq _ _ _ _ _ (set_obj_ok k_refs k r _ y Hy)) in E. discriminate E. }
    unfold binder_inc_node in E. apply st_bind_ok in E as (v & k1 & E1 & E2).
    rewrite (st_bind_eq _ _ _ _ _ (obj_ok k_nodes k _ x Hx)), (st_bind_eq _ _ k k k) in E1 by done.
    destruct (Z.eqb_spec (n_internal_strong_refs x) 0); [lia|]. rewrite !andb_false_r in E1. simpl in E1.
    rewrite (st_bind_eq _ _ _ _ _ (set_obj_ok k_nodes k _ _ x Hx)), (st_bind_eq _ _ _ tt _) in E1 by done.
    injection E1 as <- <-. simpl in E2. apply st_bind_ok in E2 as (u & k2 & _ & E2). discriminate E2.
Qed.

Lemma identity_eq x x' : identity x' = identity x → n_proc x' = n_proc x ∧ n_ptr x' = n_ptr x ∧ n_cookie x' = n_cookie x.
Proof. by intros [= -> -> ->]. Qed.

(** The first part of translating a binder: its node, created when it is new. *)
Definition own_node (p : Z) (fp : flat_binder_object) (node : Z) : K Z :=
  if node =? 0 then
    node ← binder_new_node p (fp_binder fp) (fp_cookie fp);
    when (negb (node =? 0))
      (set_obj k_nodes node (λ x,
         x <| n_min_priority := Z.land (fp_flags fp) FLAT_BINDER_FLAG_PRIORITY_MASK |>
           <| n_accept_fds := has_flag (fp_flags fp) FLAT_BINDER_FLAG_ACCEPTS_FDS |>)) ;;
    mret node
  else mret node.

Lemma in_use_new k k' a b x :
  others k k' → k_refs k' = k_refs k → k_nodes k' = <[a := x]> (k_nodes k) → b ≠ a → in_use b k' = in_use b k.
Proof.
  intros (HA & HB & HC & HD & HE & _) HR HN Hb. unfold in_use. rewrite HB, HC, HD, HE, HR, HN, lookup_insert_ne by done.
  repeat f_equal. apply bool_decide_ext. pose proof (HA b) as E. rewrite <- !not_eq_None_Some.
  destruct (k_procs k' !! b), (k_procs k !! b); simpl in E; done || naive_solver.
Qed.

Lemma own_node_outcome p pr fp k :
  objects_ok k → k_procs k !! p = Some pr → memory_ok k →
  ∃ node k', (node ← binder_get_node p (fp_binder fp); own_node p fp node) k = Ok (node, k') ∧
    objects_ok k' ∧ settled k k' ∧ k_refs k' = k_refs k ∧
    (node = 0 ∧ ¬ memory_left k ∨
     node ≠ 0 ∧ alloc_ready k' ∧ (memory_left k → ∃ a, head (k_fresh k') = Some a ∧ a ≠ 0) ∧
     ∃ x, k_nodes k' !! node = Some x ∧ n_proc x = p ∧ n_ptr x = fp_binder fp ∧
       (n_cookie x = fp_cookie fp ∨ k' = k)).
Proof.
  intros HI Hp Hm. destruct (get_node_ok p pr (fp_binder fp) k HI Hp) as (v & Ev & Hv).
  rewrite (st_bind_eq _ _ _ _ _ Ev). unfold own_node. destruct (Z.eqb_spec v 0) as [->|Hv0].
  2:{ destruct (proj1 (Hv v) (conj Hv0 eq_refl)) as (x & Hx & Hxp & Hxk). exists v, k. split_and!; try done.
      right. split_and!; [done|by apply memory_ready| |].
      - intros (a & b & l & -> & Ha & _). by exists a.
      - exists x. split_and!; try done. by right. }
  destruct (alloc_cases k (memory_ready k Hm)) as [[a Hf]|Ea].
  - destruct (new_node_ok p pr (fp_binder fp) (fp_cookie fp) a k HI Hp Hf) as [[(n & x & Hx & Hxp & Hxk) _]|(_ & k1 & did & E1 & HI1 & EN & ER & EF)].
    { exfalso. destruct (proj2 (Hv n)) as [Hn0 Hn]; [by exists x|]. by apply Hn0. }
    destruct Hf as (Hh & Ha0 & Hu). rewrite (st_bind_eq _ _ _ _ _ E1).
    destruct (Z.eqb_spec a 0); [done|]. cbn [negb when].
    destruct (new_node_others p (fp_binder fp) (fp_cookie fp) k a k1 E1) as [Ho _].
    set (x := zero_node <| n_debug_id := did |> <| n_proc := p |> <| n_ptr := fp_binder fp |> <| n_cookie := fp_cookie fp |>) in EN.
    assert (Hx : k_nodes k1 !! a = Some x) by (rewrite EN; apply lookup_insert_eq).
    set (f := λ w : binder_node, w <| n_min_priority := Z.land (fp_flags fp) FLAT_BINDER_FLAG_PRIORITY_MASK |>
      <| n_accept_fds := has_flag (fp_flags fp) FLAT_BINDER_FLAG_ACCEPTS_FDS |>).
    rewrite (st_bind_eq _ _ _ _ _ (set_obj_ok k_nodes k1 a f x Hx)). rewrite update_nodes_insert.
    set (k2 := k1 <| k_nodes := <[a := f x]> (k_nodes k1) |>). exists a, k2.
    assert (Ho2 : others k k2) by exact Ho.
    assert (EN2 : k_nodes k2 = <[a := f x]> (k_nodes k)) by (unfold k2; simpl; rewrite EN; apply insert_insert_eq).
    assert (Hna : k_nodes k !! a = None) by (destruct (kzalloc_ok k a) as (? & ? & ? & _); [by split_and!|done]).
    split_and!; [done|by apply (local_counts_inv k1 a x)| |done|].
    { split; [done|]. intros m y Hy. exists y. split; [|done]. rewrite EN2, lookup_insert_ne; [done|congruence]. }
    right. split; [done|]. assert (Efr : k_fresh k2 = tail (k_fresh k)) by exact EF. rewrite Efr.
    destruct Hm as [Hm1 Hm2]. split; [|split].
    + intros b Hb. destruct (decide (b = 0)) as [|Hb0]; [by left|right]. rewrite Efr in Hb.
      destruct (k_fresh k) as [|a' [|b' l]] eqn:Ek; [done..|]. injection Hh as ->. injection Hb as ->.
      assert (b ≠ a) by (intros ->; specialize (Hm2 0%nat 1%nat a eq_refl eq_refl Ha0); done).
      rewrite (in_use_new k k2 a b (f x)) by done. apply Hm1; [set_solver|done].
    + intros (a' & b & l & Ek & _ & Hb). rewrite Ek. by exists b.
    + exists (f x). rewrite EN2, lookup_insert_eq. split_and!; try done. by left.
  - destruct (new_node_null p pr (fp_binder fp) (fp_cookie fp) k HI Hp Ea) as (k1 & E1 & HI1 & EN & ER).
    rewrite (st_bind_eq _ _ _ _ _ E1). cbn [Z.eqb negb when]. rewrite (st_bind_eq _ _ k1 tt k1) by done.
    destruct (new_node_others p (fp_binder fp) (fp_cookie fp) k 0 k1 E1) as [Ho _].
    exists 0, k1. split_and!; [done|done|by apply others_settled|done|]. left. split; [done|].
    intros (a & b & l & Ek & Ha & _). unfold kzalloc in Ea. rewrite Ek in Ea. destruct (Z.eqb_spec a 0); [done|].
    destruct (in_use a k); [done|]. by injection Ea as ->.
Qed.

(** ** Translating *)

Definition flat_ok (fp : flat_binder_object) : Prop := Forall is_u32 [fp_type fp; fp_flags fp; fp_binder fp; fp_cookie fp].

(** User space names its nodes by words. *)
Definition nodes_named (k : kernel) : Prop := ∀ n x, k_nodes k !! n = Some x → is_u32 (n_ptr x) ∧ is_u32 (n_cookie x).

(** No counter is at the end of an [int]. *)
Definition counts_low (k : kernel) : Prop :=
  refs_low k ∧ ∀ n x, k_nodes k !! n = Some x → is_s32 (n_local_strong_refs x + 1) ∧ is_s32 (n_local_weak_refs x + 1).

(** The object [fp] of [p] has become [fp'] of [q]: both name node [n]. *)
Record carried (k k' : kernel) (p q b o off : Z) (d : binder_buffer) (fp fp' : flat_binder_object) (n : Z) : Prop := {
  ca_buffer : buffer_at k' b o (set_flat off fp' d);
  ca_flat : flat_at (set_flat off fp' d) off = fp';
  ca_from : denotes k' p fp n;
  ca_to : denotes k' q fp' n;
  ca_strong : is_strong fp' = is_strong fp;
  ca_flags : fp_flags fp' = fp_flags fp;
  ca_home : is_binder fp' = true ↔ is_binder fp = false ∧ ∃ x, k_nodes k' !! n = Some x ∧ n_proc x = q;
  ca_holds : is_binder fp = true ∨ is_binder fp' = true ∨ is_strong fp = true ∧ 0 < holds k p fp n →
    holds k' q fp' n = holds k q fp' n + 1
}.

(** What every step of a translation keeps. *)
Definition carries (k k' : kernel) : Prop := settled k k' ∧ same_refs k k'.

#[local] Instance carries_preorder : PreOrder carries.
Proof. split; [by intros k|]. intros k1 k2 k3 [A1 B1] [A2 B2]. split; by etrans. Qed.

Lemma set_buffer_outcome k b o d f :
  objects_ok k → buffer_at k b o d →
  ∃ k', set_buffer b f k = Ok (tt, k') ∧ objects_ok k' ∧ k_nodes k' = k_nodes k ∧ k_refs k' = k_refs k ∧
    buffer_at k' b o (f d) ∧ same_nodes k k' ∧ same_refs k k'.
Proof.
  intros HI Hb. destruct (set_buffer_ok k b o d f Hb) as (k' & E & Ha & Hb').
  destruct (area_step_fields b k k' Ha) as (_ & EN & ER & _). exists k'. split_and!; try done.
  - by eapply area_step_objects.
  - intros n x Hx. rewrite EN. eauto.
  - by apply same_refs_eq.
Qed.

Lemma carries_buffer k k' b o d : carries k k' → buffer_at k b o d → buffer_at k' b o d.
Proof. intros [[Ho _] _]. by apply buffer_at_others. Qed.

Lemma carries_node k k' n x : carries k k' → k_nodes k !! n = Some x → ∃ x', k_nodes k' !! n = Some x' ∧ identity x' = identity x.
Proof. intros [[_ H] _]. apply H. Qed.

Lemma holds_refs k k' q fp n : is_binder fp = false → k_refs k' = k_refs k → holds k' q fp n = holds k q fp n.
Proof. intros Hb E. unfold holds. by rewrite Hb, E. Qed.

Lemma holds_strong k p fp n :
  objects_ok k → is_binder fp = false → is_strong fp = true → 0 < holds k p fp n → 0 < msum (strong_of n) (k_refs k).
Proof.
  intros HI Hb Hs Hh. unfold holds in Hh. rewrite Hb, Hs in Hh.
  destruct (decide (map_Forall (λ _ y, strong_of n y = 0) (k_refs k))) as [Hz|Hz].
  - rewrite msum_zero in Hh; [lia|]. intros r y Hy. specialize (Hz r y Hy). cbv beta in Hz. unfold strong_of in Hz.
    destruct (r_node y =? n); [|by rewrite andb_false_r]. destruct (Z.eqb_spec (r_strong y) 0) as [E0|]; [|done].
    unfold ref_count. rewrite E0. by destruct (r_proc y =? p).
  - apply map_not_Forall in Hz as (r & y & Hy & Hz); [|tc_solve].
    assert (0 < strong_of n y) by (unfold strong_of in *; destruct (_ && _); [lia|done]).
    pose proof (msum_delete (strong_of n) (k_refs k) r y Hy) as E.
    pose proof (msum_nonneg (strong_of n) (delete r (k_refs k))) as Hnn.
    assert (0 <= msum (strong_of n) (delete r (k_refs k))); [apply Hnn|lia].
    intros i z _. unfold strong_of. destruct (_ && _); lia.
Qed.

(** Giving [q] a reference on [n], as both branches that make a handle do. *)
Lemma give_handle k q qr n x b o d off type flags cookie target :
  objects_ok k → refs_low k → k_procs k !! q = Some qr → k_nodes k !! n = Some x → alloc_ready k →
  (∀ c, used_desc k q c → c < 2 ^ 32 - 1) → buffer_at k b o d →
  0 <= off → off + 16 <= Z.of_nat (length (b_data d)) → is_u32 flags → is_u32 cookie →
  type = BINDER_TYPE_HANDLE ∨ type = BINDER_TYPE_WEAK_HANDLE →
  ∃ err k', (ref ← binder_get_ref_for_node q n;
    if ref =? 0 then mret (Some BR_FAILED_REPLY)
    else
      r ← obj k_refs ref;
      set_buffer b (set_flat off (mk_flat type flags (r_desc r) cookie)) ;;
      binder_inc_ref ref (type =? BINDER_TYPE_HANDLE) target ;;
      mret None) k = Ok (err, k') ∧ objects_ok k' ∧
    match err with
    | Some e => e = BR_FAILED_REPLY ∧ buffer_at k' b o d ∧ (∀ a, head (k_fresh k) = Some a → a = 0)
    | None => ∃ desc, let fp' := mk_flat type flags desc cookie in
        buffer_at k' b o (set_flat off fp' d) ∧ flat_at (set_flat off fp' d) off = fp' ∧
        same_nodes k k' ∧ same_refs k k' ∧ denotes k' q fp' n ∧
        (target ≠ None ∨ type = BINDER_TYPE_HANDLE ∧ 0 < msum (strong_of n) (k_refs k) → holds k' q fp' n = holds k q fp' n + 1)
    end.
Proof.
  intros HI Hlow Hq Hx Ha Hlast Hb H0 H1 Hf Hc Ht.
  destruct (get_ref_outcome q qr n x k HI Hq Hx Ha Hlast) as (r & k1 & E1 & HI1 & Hs1 & Hr1 & Hh1 & Hsum & Hlow1 & Hcases).
  rewrite (st_bind_eq _ _ _ _ _ E1).
  destruct Hcases as [[-> Hm]|(Hr0 & y & Hy & Hyp & Hyn)].
  { exists (Some BR_FAILED_REPLY), k1. split; [done|]. split; [done|]. split; [done|]. split; [|done].
    by apply (carries_buffer k k1). }
  destruct (Z.eqb_spec r 0); [done|]. rewrite (st_bind_eq _ _ _ _ _ (obj_ok k_refs k1 r y Hy)).
  set (fp' := mk_flat type flags (r_desc y) cookie).
  assert (Hb1 : buffer_at k1 b o d) by by apply (carries_buffer k k1).
  destruct (set_buffer_outcome k1 b o d (set_flat off fp') HI1 Hb1) as (k2 & E2 & HI2 & EN2 & ER2 & Hb2 & Hn2 & Hr2).
  rewrite (st_bind_eq _ _ _ _ _ E2). assert (Hy2 : k_refs k2 !! r = Some y) by by rewrite ER2.
  destruct (inc_ref_outcome r y (type =? BINDER_TYPE_HANDLE) target k2 HI2 (refs_low_eq k1 k2 ER2 (Hlow1 Hlow)) Hy2) as (ret & k3 & E3 & HI3 & Hs3 & Hr3 & Hh3).
  rewrite (st_bind_eq _ _ _ _ _ E3). exists None, k3. split; [done|]. split; [done|]. exists (r_desc y). cbv zeta. fold fp'.
  assert (Hfb : is_binder fp' = false) by by destruct Ht as [->| ->].
  assert (Hfs : is_strong fp' = (type =? BINDER_TYPE_HANDLE)) by by destruct Ht as [->| ->].
  assert (Hrefs : same_refs k k3) by (etrans; [exact Hr1|]; etrans; [exact Hr2|exact Hr3]).
  split_and!.
  - by apply (carries_buffer k2 k3).
  - apply set_flat_at; [done|done|]. rewrite !Forall_cons. split_and!; [by destruct Ht as [->| ->]|done| |done|by apply Forall_nil].
    exact (rw_desc _ _ _ _ (oi_ref _ _ _ _ _ HI1 r y Hy)).
  - etrans; [exact (proj2 Hs1)|]. etrans; [exact Hn2|exact (proj2 Hs3)].
  - done.
  - unfold denotes. rewrite Hfb. destruct (Hr3 r y Hy2) as (y' & Hy' & E). injection E as Ep Ed En. exists r, y'.
    split_and!; [done|congruence|done|congruence].
  - intros Hor. rewrite Hyn, Hyp in Hh3. rewrite Hh3, (holds_refs k1 k2 q fp' n Hfb ER2), Hh1; try done.
    destruct Hor as [Hor|[-> Hpos]]; [by left|right]. by rewrite ER2, Hsum.
Qed.

Lemma used_desc_eq k k' p c : k_refs k' = k_refs k → used_desc k' p c → used_desc k p c.
Proof. unfold used_desc. by intros ->. Qed.

(** Why a translation is refused. *)
Definition refused (k : kernel) (p : Z) (fp : flat_binder_object) (e : Z) : Prop :=
  e = BR_FAILED_REPLY ∧ ¬ memory_left k ∨
  e = BR_FAILED_REPLY ∧ is_handle fp = true ∧ (∀ n, ¬ denotes k p fp n) ∨
  e = stack_garbage ∧ is_binder fp = true ∧
    ∃ n x, k_nodes k !! n = Some x ∧ n_proc x = p ∧ n_ptr x = fp_binder fp ∧ n_cookie x ≠ fp_cookie fp.

Lemma translate_binder_ok k p q pr qr thread b o d off fp :
  objects_ok k → refs_low k → memory_ok k → k_procs k !! p = Some pr → k_procs k !! q = Some qr →
  (∀ c, used_desc k q c → c < 2 ^ 32 - 1) → buffer_at k b o d → flat_ok fp →
  0 <= off → off + 16 <= Z.of_nat (length (b_data d)) → is_binder fp = true →
  ∃ err k', translate_binder p thread q b off fp k = Ok (err, k') ∧ objects_ok k' ∧
    match err with
    | None => ∃ n fp', carried k k' p q b o off d fp fp' n
    | Some e => buffer_at k' b o d ∧ refused k p fp e
    end.
Proof.
  intros HI Hlow Hm Hp Hq Hlast Hb Hfp H0 H1 Hbin.
  destruct (own_node_outcome p pr fp k HI Hp Hm) as (node & k1 & E1 & HI1 & Hs1 & ER1 & Hcases).
  assert (Ha1 : carries k k1) by (split; [done|by apply same_refs_eq]).
  assert (Hb1 : buffer_at k1 b o d) by by apply (carries_buffer k k1).
  apply st_bind_ok in E1 as (v & k0 & Ev & E1). unfold translate_binder. rewrite (st_bind_eq _ _ _ _ _ Ev).
  change (if v =? 0 then _ else mret v) with (own_node p fp v). rewrite (st_bind_eq _ _ _ _ _ E1).
  destruct Hcases as [[-> Hml]|(Hn0 & Hal & Hml & x & Hx & Hxp & Hxk & Hxc)].
  { exists (Some BR_FAILED_REPLY), k1. split_and!; [done..|]. by left. }
  destruct (Z.eqb_spec node 0); [done|]. rewrite (st_bind_eq _ _ _ _ _ (obj_ok k_nodes k1 node x Hx)).
  destruct (Z.eqb_spec (fp_cookie fp) (n_cookie x)) as [Hck|Hck]; cbn [negb].
  2:{ destruct Hxc as [Hxc| ->]; [congruence|]. destruct (user_error_quiet k) as (k2 & E2 & Hq2). rewrite (st_bind_eq _ _ _ _ _ E2).
      exists (Some stack_garbage), k2. split; [done|]. split; [by eapply quiet_objects|]. split.
      - destruct (user_error_settled k tt k2 E2) as [[Ho _] _]. by apply (buffer_at_others k).
      - right. right. split_and!; [done..|]. exists node, x. split_and!; done || congruence. }
  assert (Hq1 : ∃ qr1, k_procs k1 !! q = Some qr1).
  { destruct Ha1 as [[[HA _] _] _]. pose proof (HA q) as E. rewrite Hq in E. destruct (k_procs k1 !! q); [eauto|done]. }
  destruct Hq1 as [qr1 Hq1]. pose proof Hfp as Hfp'. unfold flat_ok in Hfp'. rewrite !Forall_cons in Hfp'. destruct Hfp' as (_ & Hff & _ & Hfc & _).
  set (type := if fp_type fp =? BINDER_TYPE_BINDER then BINDER_TYPE_HANDLE else BINDER_TYPE_WEAK_HANDLE).
  assert (Ht : type = BINDER_TYPE_HANDLE ∨ type = BINDER_TYPE_WEAK_HANDLE) by (unfold type; destruct (_ =? _); auto).
  destruct (give_handle k1 q qr1 node x b o d off type (fp_flags fp) (fp_cookie fp) (Some (thread_todo thread)) HI1 (refs_low_eq k k1 ER1 Hlow) Hq1 Hx Hal)
    as (err & k2 & E2 & HI2 & Hres); try done.
  { intros c Hc. apply Hlast. by apply (used_desc_eq k k1). }
  exists err, k2. split; [exact E2|]. split; [done|]. destruct err as [e|].
  - destruct Hres as (-> & Hb2 & Hno). split; [done|]. left. split; [done|]. intros (a & Hh & Ha)%Hml. by apply Ha, Hno.
  - destruct Hres as (desc & Hb2 & Hfl & Hn2 & Hr2 & Hd2 & Hh2). exists node, (mk_flat type (fp_flags fp) desc (fp_cookie fp)).
    constructor; try done.
    + unfold denotes. rewrite Hbin. destruct (Hn2 node x Hx) as (x' & Hx' & E). exists x'. split; [done|].
      rewrite E. unfold identity. congruence.
    + unfold is_strong, type. unfold is_binder in Hbin. destruct (Z.eqb_spec (fp_type fp) BINDER_TYPE_BINDER) as [->|]; [done|].
      simpl in Hbin. apply Z.eqb_eq in Hbin. by rewrite Hbin.
    + rewrite Hbin. split; [by destruct Ht as [-> | ->]|]. by intros [? _].
    + intros _. rewrite Hh2 by by left. f_equal. apply holds_refs; [by destruct Ht as [-> | ->]|done].
Qed.

Lemma handle_types fp :
  is_handle fp = true → (fp_type fp = BINDER_TYPE_HANDLE ∨ fp_type fp = BINDER_TYPE_WEAK_HANDLE) ∧ is_binder fp = false.
Proof.
  unfold is_handle, is_binder. rewrite orb_true_iff, !Z.eqb_eq. intros [-> | ->]; auto.
Qed.

(** A handle that comes home. *)
Lemma handle_home k p y x b o d off fp :
  objects_ok k → counts_low k → nodes_named k → k_nodes k !! r_node y = Some x → denotes k p fp (r_node y) → buffer_at k b o d →
  flat_ok fp → 0 <= off → off + 16 <= Z.of_nat (length (b_data d)) → is_handle fp = true →
  let type := if fp_type fp =? BINDER_TYPE_HANDLE then BINDER_TYPE_BINDER else BINDER_TYPE_WEAK_BINDER in
  let fp' := mk_flat type (fp_flags fp) (n_ptr x) (n_cookie x) in
  ∃ k', (set_buffer b (set_flat off fp') ;; binder_inc_node (r_node y) (type =? BINDER_TYPE_BINDER) false None ;; mret (@None Z)) k =
      Ok (None, k') ∧ objects_ok k' ∧ carried k k' p (n_proc x) b o off d fp fp' (r_node y).
Proof.
  intros HI Hlow Hnm Hx Hden Hb Hfp H0 H1 Hh type fp'. destruct (handle_types fp Hh) as [Hty Hbin].
  assert (Hfb : is_binder fp' = true) by (unfold fp', type; by destruct Hty as [-> | ->]).
  assert (Hfs : is_strong fp' = is_strong fp) by (unfold fp', type, is_strong; by destruct Hty as [-> | ->]).
  assert (Ety : (type =? BINDER_TYPE_BINDER) = is_strong fp) by (unfold type, is_strong; by destruct Hty as [-> | ->]).
  destruct (set_buffer_outcome k b o d (set_flat off fp') HI Hb) as (k1 & E1 & HI1 & EN1 & ER1 & Hb1 & Hn1 & Hr1).
  rewrite (st_bind_eq _ _ _ _ _ E1). assert (Hx1 : k_nodes k1 !! r_node y = Some x) by by rewrite EN1.
  destruct (inc_node_inv k1 (r_node y) x (type =? BINDER_TYPE_BINDER) None HI1 Hx1) as (ret & k2 & E2 & HI2 & EN2).
  rewrite (st_bind_eq _ _ _ _ _ E2). exists k2. split; [done|]. split; [done|].
  destruct (inc_node_settled (r_node y) (type =? BINDER_TYPE_BINDER) false None k1 ret k2 E2) as [Hs2 _].
  assert (Hd2 : k_nodes k2 !! r_node y = Some (inc_counts (is_strong fp) false x)) by (rewrite EN2, Ety; apply lookup_insert_eq).
  assert (Hid : identity (inc_counts (is_strong fp) false x) = identity x) by by destruct (is_strong fp).
  pose proof Hfp as Hfp'. unfold flat_ok in Hfp'. rewrite !Forall_cons in Hfp'. destruct Hfp' as (_ & Hff & _).
  destruct (Hnm _ _ Hx) as [Hup Huc]. constructor; try done.
  - by apply (buffer_at_others k1); [exact (proj1 Hs2)|].
  - apply set_flat_at; [done|done|]. rewrite !Forall_cons. split_and!; [|done..|by apply Forall_nil].
    unfold fp', type. by destruct Hty as [-> | ->].
  - apply (denotes_kept k k2); [etrans; [exact Hn1|exact (proj2 Hs2)]| |done]. intros r z Hz.
    assert (Hz1 : k_refs k1 !! r = Some z) by by rewrite ER1.
    destruct (inc_node_ok (r_node y) (type =? BINDER_TYPE_BINDER) false None k1 x Hx1) as (ret' & k2' & E2' & Hq).
    rewrite E2 in E2'. injection E2' as <- <-. exists z. split; [|done].
    destruct Hq as [[_ Hq]|(_ & _ & Hq)]; by destruct (quiet_fields _ _ Hq) as (_ & -> & _).
  - unfold denotes. rewrite Hfb. eauto.
  - rewrite Hbin, Hfb. split; [|done]. intros _. split; [done|]. eexists. split; [exact Hd2|]. by destruct (is_strong fp).
  - intros _. unfold holds. rewrite Hfb, Hfs, Hd2, Hx. destruct (proj2 Hlow _ x Hx).
    unfold inc_counts, local_count. destruct (is_strong fp); simpl; by apply int_inc_small.
Qed.

Lemma translate_handle_ok k p q pr qr b o d off fp :
  objects_ok k → counts_low k → memory_ok k → nodes_named k → k_procs k !! p = Some pr → k_procs k !! q = Some qr →
  (∀ c, used_desc k q c → c < 2 ^ 32 - 1) → buffer_at k b o d → flat_ok fp →
  0 <= off → off + 16 <= Z.of_nat (length (b_data d)) → is_handle fp = true →
  ∃ err k', translate_handle p q b off fp k = Ok (err, k') ∧ objects_ok k' ∧
    match err with
    | None => ∃ n fp', carried k k' p q b o off d fp fp' n
    | Some e => buffer_at k' b o d ∧ refused k p fp e
    end.
Proof.
  intros HI Hlow Hm Hnm Hp Hq Hlast Hb Hfp H0 H1 Hh. destruct (handle_types fp Hh) as [Hty Hbin].
  destruct (get_ref_ok p pr (fp_binder fp) k HI Hp) as (v & Ev & Hv). unfold translate_handle.
  rewrite (st_bind_eq _ _ _ _ _ Ev). destruct (Z.eqb_spec v 0) as [->|Hv0].
  { destruct (user_error_quiet k) as (k1 & E1 & Hq1). rewrite (st_bind_eq _ _ _ _ _ E1). exists (Some BR_FAILED_REPLY), k1.
    split; [done|]. split; [by eapply quiet_objects|]. split.
    - destruct (user_error_settled k tt k1 E1) as [[Ho _] _]. by apply (buffer_at_others k).
    - right. left. split_and!; [done..|]. intros n. unfold denotes. rewrite Hbin. intros (r & y & Hy & Hyp & Hyd & _).
      destruct (proj2 (Hv r)) as [Hr0 Hr]; [by exists y|]. by apply Hr0. }
  destruct (proj1 (Hv v) (conj Hv0 eq_refl)) as (y & Hy & Hyp & Hyd).
  destruct (oi_ref _ _ _ _ _ HI v y Hy) as [[x Hx] _ _ _ _ _].
  assert (Hden : denotes k p fp (r_node y)) by (unfold denotes; rewrite Hbin; by exists v, y).
  rewrite (st_bind_eq _ _ _ _ _ (obj_ok k_refs k v y Hy)), (st_bind_eq _ _ _ _ _ (obj_ok k_nodes k _ x Hx)).
  destruct (Z.eqb_spec (n_proc x) q) as [<-|Hne].
  { destruct (handle_home k p y x b o d off fp HI Hlow Hnm Hx Hden Hb Hfp H0 H1 Hh) as (k' & E & HI' & Hc).
    exists None, k'. split; [exact E|]. split; [done|]. by eexists _, _. }
  pose proof Hfp as Hfp'. unfold flat_ok in Hfp'. rewrite !Forall_cons in Hfp'. destruct Hfp' as (_ & Hff & _ & Hfc & _).
  destruct (give_handle k q qr (r_node y) x b o d off (fp_type fp) (fp_flags fp) (fp_cookie fp) None HI (proj1 Hlow) Hq Hx (memory_ready k Hm))
    as (err & k2 & E2 & HI2 & Hres); try done.
  exists err, k2. split; [exact E2|]. split; [done|]. destruct err as [e|].
  - destruct Hres as (-> & Hb2 & Hno). split; [done|]. left. split; [done|]. intros (a & c & l & Ek & Ha & _).
    apply Ha, Hno. by rewrite Ek.
  - destruct Hres as (desc & Hb2 & Hfl & Hn2 & Hr2 & Hd2 & Hh2). exists (r_node y), (mk_flat (fp_type fp) (fp_flags fp) desc (fp_cookie fp)).
    constructor; try done.
    + by apply (denotes_kept k).
    + unfold is_binder. simpl. fold (is_binder fp). rewrite Hbin. split; [done|]. intros (_ & x' & Hx' & Ex).
      destruct (Hn2 _ x Hx) as (x'' & Hx'' & E). apply identity_eq in E as (E & _ & _). congruence.
    + unfold is_binder at 1 2. simpl. fold (is_binder fp). rewrite Hbin. intros [?|[?|[Hs Hpos]]]; [done..|].
      apply Hh2. right. split; [|by apply (holds_strong k p fp)]. unfold is_strong in Hs. destruct Hty as [E|E]; [done|].
      by rewrite E in Hs.
Qed.
End outcomes.

(** ** Properties *)

Section properties.
Context {AR : Arch} {RB : RBOps} {RL : RBLaws} {KR : Kernel}.

End properties.

Module TranslateDemo.
Import Example.
Import BinderObjectRuns.Demo.

(** A buffer of 16 bytes in the area of the second process. *)
Definition letter : binder_buffer := zero_buffer <| b_data := replicate 16 0 |>.
Definition receiver : binder_proc := zero_proc <| p_alloc := zero_alloc <| a_heap := {[ 5000 := letter ]} |> |>.
Definition posted : kernel := two_processes <| k_procs := {[ 1000 := zero_proc; 2000 := receiver ]} |>.
Definition to_receiver : txn_target := mk_target 2000 0 0 0.
Definition sent : flat_binder_object := mk_flat BINDER_TYPE_BINDER 0 16 17.

Lemma posted_procs p pr : k_procs posted !! p = Some pr → no_area pr = zero_proc ∧ (p = 2000 ∨ a_heap (p_alloc pr) = ∅).
Proof. unfold posted. simpl. rewrite lookup_insert_Some, lookup_singleton_Some. naive_solver. Qed.

Lemma posted_ok : objects_ok posted.
Proof.
  apply (area_step_objects 5000 two_processes); [|exact two_processes_ok].
  exists (k_procs posted). split; [done|]. split.
  - intros q. unfold posted, two_processes. simpl. destruct (decide (q = 1000)) as [->|]; [done|].
    destruct (decide (q = 2000)) as [->|]; [done|]. by rewrite !lookup_insert_ne, !lookup_singleton_ne.
  - intros c q y _ (pr & Hp & Hy & _). exfalso. unfold two_processes in Hp. simpl in Hp.
    rewrite lookup_insert_Some, lookup_singleton_Some in Hp. naive_solver.
Qed.

Lemma posted_low : counts_low posted.
Proof.
  split; [split|].
  - intros r y Hy. unfold posted in Hy. simpl in Hy. by rewrite lookup_empty in Hy.
  - intros n. vm_compute. reflexivity.
  - intros n x Hx. unfold posted in Hx. simpl in Hx. by rewrite lookup_empty in Hx.
Qed.

Lemma posted_memory : memory_ok posted.
Proof.
  split.
  - intros a Ha _. unfold posted in Ha. simpl in Ha. rewrite !elem_of_cons in Ha.
    destruct Ha as [->|[->|[->|[]%not_elem_of_nil]]]; vm_compute; reflexivity.
  - intros i j a Hi Hj _. apply (NoDup_lookup (k_fresh posted) i j a); [|done..].
    apply (bool_decide_unpack (NoDup (k_fresh posted))). vm_compute. exact I.
Qed.


(** A third process, and a node of the first on which the second has a weak
    count only. *)
Definition relay : kernel :=
  state_after (binder_new_node 1000 16 17 ;; binder_get_ref_for_node 2000 3000 ;;
               binder_inc_ref 4000 false (Some (proc_todo 1000)))
    (two_processes <| k_procs := {[ 1000 := zero_proc; 2000 := zero_proc; 6000 := receiver ]} |> <| k_fresh := [3000; 4000; 7000] |>).
Definition forwarded : flat_binder_object := mk_flat BINDER_TYPE_HANDLE 0 1 0.

(** The second process sends it on as a strong handle, which the driver
    delivers: the third process gets a descriptor that it does not hold. *)
Lemma strong_handle_without_hold :
  let k' := state_after (translate_object 2000 7 false (mk_target 6000 0 0 0) 5000 0 forwarded) relay in
  value_of (Some 0) (translate_object 2000 7 false (mk_target 6000 0 0 0) 5000 0 forwarded) relay = None ∧
  (∃ y, k_refs k' !! 7000 = Some y ∧ r_proc y = 6000 ∧ r_node y = 3000 ∧ r_desc y = 1 ∧ r_strong y = 0 ∧ r_weak y = 0) ∧
  holds k' 6000 forwarded 3000 = 0.
Proof. cbv zeta. split; [vm_compute; reflexivity|]. split; [eexists; split; [vm_compute; reflexivity|done]|vm_compute; reflexivity]. Qed.
End TranslateDemo.
