(* ===== verification/UserMem.v ===== *)
(** User memory of a process, byte by byte: an access of a byte that is not
    mapped is a segmentation fault.  Words are little endian. *)
From S2P Require Import Prelude.

Notation mem := (gmap Z Z) (only parsing).

(** All the [n] bytes at [a] are mapped. *)
Definition mapped (a n : Z) (m : mem) : Prop := ∀ i, a <= i < a + n → is_Some (m !! i).

Fixpoint bytes_at (a : Z) (n : nat) (m : mem) : option (list Z) :=
  match n with
  | O => Some []
  | S n' => b ← m !! a; bs ← bytes_at (a + 1) n' m; Some (b :: bs)
  end.

Fixpoint put_bytes (a : Z) (bs : list Z) (m : mem) : mem :=
  match bs with
  | [] => m
  | b :: bs' => <[a := b]> (put_bytes (a + 1) bs' m)
  end.

(** Reads and writes; a write needs its bytes mapped. *)
Definition load (a : Z) (n : nat) : ST mem (list Z) := gets (bytes_at a n) ≫= the Bad_access.
Definition store (a : Z) (bs : list Z) : ST mem unit := load a (length bs) ;; modify (put_bytes a bs).

Definition load16 (a : Z) : ST mem Z := bs ← load a 2; mret (le_value bs).
Definition load32 (a : Z) : ST mem Z := bs ← load a 4; mret (le_value bs).
Definition store32 (a x : Z) : ST mem unit := store a (le_bytes 4 x).

(** ** Lemmas *)

Lemma put_bytes_lookup a bs m i :
  put_bytes a bs m !! i = if decide (a <= i < a + Z.of_nat (length bs)) then bs !! Z.to_nat (i - a) else m !! i.
Proof.
  revert a. induction bs as [|b bs IH]; intros a; cbn [put_bytes length]; [case_decide; [lia|done]|].
  destruct (decide (a = i)) as [->|Hai].
  - rewrite lookup_insert_eq, decide_True by lia. by replace (Z.to_nat (i - i)) with 0%nat by lia.
  - rewrite lookup_insert_ne, IH by done. repeat case_decide; try lia; [|done].
    replace (Z.to_nat (i - a)) with (S (Z.to_nat (i - (a + 1)))) by lia. done.
Qed.

Lemma bytes_at_Some a n m bs :
  bytes_at a n m = Some bs ↔ length bs = n ∧ ∀ i, (i < n)%nat → m !! (a + Z.of_nat i) = bs !! i.
Proof.
  revert a bs. induction n as [|n IH]; intros a bs; cbn [bytes_at].
  - split; [intros [= <-]; split; [done|lia]|]. intros [H%length_zero_iff_nil _]. by subst.
  - split.
    + intros (b & Hb & (bs' & Hbs & [= <-])%bind_Some)%bind_Some. apply IH in Hbs as [Hl Hi].
      split; [simpl; lia|]. intros [|i] H; [by replace (a + Z.of_nat 0) with a by lia|].
      replace (a + Z.of_nat (S i)) with (a + 1 + Z.of_nat i) by lia. apply Hi. lia.
    + intros [Hl Hi]. destruct bs as [|b bs]; [done|]. pose proof (Hi 0%nat ltac:(lia)) as H0.
      replace (a + Z.of_nat 0) with a in H0 by lia. simpl in H0. rewrite H0. cbn [mbind option_bind].
      rewrite (proj2 (IH (a + 1) bs)); [done|]. split; [simpl in Hl; lia|]. intros i H.
      replace (a + 1 + Z.of_nat i) with (a + Z.of_nat (S i)) by lia. apply (Hi (S i)). lia.
Qed.

Lemma bytes_at_mapped a n m : mapped a (Z.of_nat n) m → ∃ bs, bytes_at a n m = Some bs.
Proof.
  revert a. induction n as [|n IH]; intros a Hm; cbn [bytes_at]; [eauto|].
  destruct (Hm a ltac:(lia)) as [b ->]. destruct (IH (a + 1)) as [bs E]; [intros i ?; apply Hm; lia|]. simpl. rewrite E. eauto.
Qed.

Lemma bytes_at_ext a n m m' : (∀ i, a <= i < a + Z.of_nat n → m' !! i = m !! i) → bytes_at a n m' = bytes_at a n m.
Proof.
  revert a. induction n as [|n IH]; intros a H; cbn [bytes_at]; [done|]. rewrite (H a) by lia.
  by rewrite IH by (intros; apply H; lia).
Qed.

Lemma bytes_at_put a bs m : bytes_at a (length bs) (put_bytes a bs m) = Some bs.
Proof.
  apply bytes_at_Some. split; [done|]. intros i Hi. rewrite put_bytes_lookup, decide_True by lia. f_equal. lia.
Qed.

Lemma bytes_at_put_other a n b bs m :
  a + Z.of_nat n <= b ∨ b + Z.of_nat (length bs) <= a → bytes_at a n (put_bytes b bs m) = bytes_at a n m.
Proof. intros H. apply bytes_at_ext. intros i Hi. rewrite put_bytes_lookup, decide_False by lia. done. Qed.

Lemma put_bytes_is_Some b bs m i : is_Some (m !! i) → is_Some (put_bytes b bs m !! i).
Proof. intros Hm. rewrite put_bytes_lookup. case_decide; [|done]. apply lookup_lt_is_Some. lia. Qed.

Lemma mapped_put a n b bs m : mapped a n m → mapped a n (put_bytes b bs m).
Proof. intros Hm i Hi. by apply put_bytes_is_Some, Hm. Qed.

Lemma mapped_sub a n b k m : mapped a n m → a <= b → b + k <= a + n → mapped b k m.
Proof. intros Hm H1 H2 i Hi. apply Hm. lia. Qed.

Lemma load_ok a n m bs : bytes_at a n m = Some bs → load a n m = Ok (bs, m).
Proof. intros E. unfold load, mbind, st_bind, gets. by rewrite E. Qed.

Lemma load_inv a n m bs m' : load a n m = Ok (bs, m') → bytes_at a n m = Some bs ∧ m' = m.
Proof. unfold load, mbind, st_bind, gets, the. destruct (bytes_at a n m); [|done]. by intros [= -> ->]. Qed.

Lemma store_ok a bs m : mapped a (Z.of_nat (length bs)) m → store a bs m = Ok (tt, put_bytes a bs m).
Proof.
  intros [l E]%bytes_at_mapped. unfold store. by rewrite (st_bind_eq _ _ _ _ _ (load_ok _ _ _ _ E)).
Qed.

Lemma store_inv a bs m m' : store a bs m = Ok (tt, m') → m' = put_bytes a bs m.
Proof. unfold store. intros (l & m1 & [_ ->]%load_inv & [= <-])%st_bind_ok. done. Qed.

Lemma store32_ok a x m : mapped a 4 m → store32 a x m = Ok (tt, put_bytes a (le_bytes 4 x) m).
Proof. intros H. apply store_ok. by rewrite length_le_bytes. Qed.

Lemma load32_ok a m bs : bytes_at a 4 m = Some bs → load32 a m = Ok (le_value bs, m).
Proof. intros E. unfold load32. by rewrite (st_bind_eq _ _ _ _ _ (load_ok _ _ _ _ E)). Qed.

Lemma load32_word a m x : 0 <= x < 2 ^ 32 → bytes_at a 4 m = Some (le_bytes 4 x) → load32 a m = Ok (x, m).
Proof. intros Hx E. rewrite (load32_ok _ _ _ E). by rewrite le_value_bytes. Qed.

Lemma bytes_at_app a n1 n2 m l1 l2 :
  bytes_at a n1 m = Some l1 → bytes_at (a + Z.of_nat n1) n2 m = Some l2 → bytes_at a (n1 + n2) m = Some (l1 ++ l2).
Proof.
  intros [H1 E1]%bytes_at_Some [H2 E2]%bytes_at_Some. apply bytes_at_Some. split; [rewrite length_app; lia|].
  intros i Hi. destruct (decide (i < n1)%nat).
  - rewrite E1, lookup_app_l by lia. done.
  - rewrite lookup_app_r by lia. rewrite H1. replace (a + Z.of_nat i) with (a + Z.of_nat n1 + Z.of_nat (i - n1)) by lia.
    apply E2. lia.
Qed.

(** ** Memory of bytes *)

Definition byte_mem (m : mem) : Prop := map_Forall (λ _ b, 0 <= b < 256) m.

Lemma bytes_at_range m a n bs : byte_mem m → bytes_at a n m = Some bs → Forall (λ b, 0 <= b < 256) bs.
Proof.
  intros Hm [Hl E]%bytes_at_Some. apply Forall_lookup. intros i b Hb. pose proof (lookup_lt_Some _ _ _ Hb) as Hi.
  rewrite <- E in Hb by lia. by apply (Hm (a + Z.of_nat i)).
Qed.

Lemma le_bytes_value l : Forall (λ b, 0 <= b < 256) l → le_bytes (length l) (le_value l) = l.
Proof.
  induction 1 as [|b l Hb _ IH]; [done|]. cbn [length le_bytes le_value]. f_equal.
  - rewrite (Z.mul_comm 256), Z.mod_add, Z.mod_small by lia. done.
  - rewrite (Z.mul_comm 256), Z.div_add, (Z.div_small b 256) by lia. rewrite Z.add_0_l. exact IH.
Qed.

Lemma load16_inv a m c m' :
  byte_mem m → load16 a m = Ok (c, m') → m' = m ∧ 0 <= c < 2 ^ 16 ∧ bytes_at a 2 m = Some (le_bytes 2 c).
Proof.
  intros Hm. unfold load16. intros (bs & m1 & [E ->]%load_inv & [= <- <-])%st_bind_ok.
  pose proof (bytes_at_range _ _ _ _ Hm E) as Hr. pose proof E as [Hl _]%bytes_at_Some. split; [done|].
  pose proof (le_value_range bs Hr) as Hv. rewrite Hl in Hv. split; [exact Hv|]. rewrite E. f_equal.
  rewrite <- Hl. symmetry. by apply le_bytes_value.
Qed.

Lemma load16_word a m c : 0 <= c < 2 ^ 16 → bytes_at a 2 m = Some (le_bytes 2 c) → load16 a m = Ok (c, m).
Proof. intros Hc E. unfold load16. rewrite (st_bind_eq _ _ _ _ _ (load_ok _ _ _ _ E)). by rewrite le_value_bytes. Qed.

Lemma bytes_at_take a n k m bs : (k ≤ n)%nat → bytes_at a n m = Some bs → bytes_at a k m = Some (take k bs).
Proof.
  intros Hk [Hl E]%bytes_at_Some. apply bytes_at_Some. split; [rewrite length_take; lia|]. intros i Hi.
  rewrite lookup_take_lt by done. apply E. lia.
Qed.
