(* ===== verification/BinderIo.v ===== *)
(** [bio_*] of [src/cmds/servicemanager/binder.c]: messages written to and read
    from a buffer in user memory.  A [struct binder_io] is passed and returned;
    pointers are addresses, 0 is NULL. *)
From S2P Require Import Prelude UserMem BinderUapi.

Module Bio.

Definition MAX_BIO_SIZE : Z := Z.shiftl 1 30.
Definition BIO_F_SHARED : Z := 1.
Definition BIO_F_OVERFLOW : Z := 2.
Definition BIO_F_IOERROR : Z := 4.
Definition sizeof_object : Z := 16.

Record binder_io : Type := mk_bio {
  bio_data : Z;
  bio_offs : Z;
  bio_data_avail : Z;
  bio_offs_avail : Z;
  bio_data0 : Z;
  bio_offs0 : Z;
  bio_flags : Z
}.
#[export] Instance eta_bio : Eta binder_io :=
  λ b, mk_bio (bio_data b) (bio_offs b) (bio_data_avail b) (bio_offs_avail b) (bio_data0 b) (bio_offs0 b) (bio_flags b).
#[export] Instance field_bio_data : Field bio_data := ltac:(derive_field).
#[export] Instance field_bio_offs : Field bio_offs := ltac:(derive_field).
#[export] Instance field_bio_data_avail : Field bio_data_avail := ltac:(derive_field).
#[export] Instance field_bio_offs_avail : Field bio_offs_avail := ltac:(derive_field).
#[export] Instance field_bio_flags : Field bio_flags := ltac:(derive_field).

(** [struct binder_object]; a [struct flat_binder_object] of the driver. *)
Definition encode_object (type flags pointer cookie : Z) : list Z :=
  encode_flat (mk_flat type flags pointer cookie).

(** [struct binder_txn]. *)
Record binder_txn : Type := mk_txn {
  txn_target : Z;
  txn_cookie : Z;
  txn_code : Z;
  txn_flags : Z;
  txn_sender_pid : Z;
  txn_sender_euid : Z;
  txn_data_size : Z;
  txn_offs_size : Z;
  txn_data : Z;
  txn_offs : Z
}.

(** ** Setting up *)

Definition bio_init_from_txn (txn : binder_txn) : binder_io :=
  mk_bio (txn_data txn) (txn_offs txn) (txn_data_size txn) (txn_offs_size txn / 4) (txn_data txn) (txn_offs txn) BIO_F_SHARED.

(** [bio] is what the structure held before. *)
Definition bio_init (bio : binder_io) (data maxdata maxoffs : Z) : binder_io :=
  let n := u32 (maxoffs * 4) in
  if n >? maxdata then bio <| bio_flags := BIO_F_OVERFLOW |> <| bio_data_avail := 0 |> <| bio_offs_avail := 0 |>
  else mk_bio (data + n) data (maxdata - n) maxoffs (data + n) data 0.

Definition overflow (bio : binder_io) : binder_io := bio <| bio_flags %= λ f, Z.lor f BIO_F_OVERFLOW |>.

(** [(size + 3) & ~3], 32 bits wide. *)
Definition round4 (size : Z) : Z := Z.land (u32 (size + 3)) (Z.lnot 3).

(** [bio->data += size; bio->data_avail -= size]. *)
Definition advance (size : Z) (bio : binder_io) : binder_io :=
  bio <| bio_data %= λ d, d + size |> <| bio_data_avail %= λ a, a - size |>.

(** ** Writing *)

Definition bio_alloc (bio : binder_io) (size : Z) : Z * binder_io :=
  let size := round4 size in
  if size >? bio_data_avail bio then (0, overflow bio) else (bio_data bio, advance size bio).

Definition bio_alloc_obj (bio : binder_io) : ST mem (Z * binder_io) :=
  let '(obj, bio) := bio_alloc bio sizeof_object in
  if negb (obj =? 0) && negb (bio_offs_avail bio =? 0) then
    store32 (bio_offs bio) (u32 (obj - bio_data0 bio)) ;;
    mret (obj, bio <| bio_offs_avail %= λ a, a - 1 |> <| bio_offs %= λ o, o + 4 |>)
  else mret (0, overflow bio).

Definition bio_put_uint32 (bio : binder_io) (n : Z) : ST mem binder_io :=
  let '(ptr, bio) := bio_alloc bio 4 in
  if negb (ptr =? 0) then store32 ptr n ;; mret bio else mret bio.

Definition object_flags : Z := Z.lor 127 FLAT_BINDER_FLAG_ACCEPTS_FDS.

Definition bio_put_obj (bio : binder_io) (ptr : Z) : ST mem binder_io :=
  r ← bio_alloc_obj bio;
  if r.1 =? 0 then mret r.2
  else store r.1 (encode_object BINDER_TYPE_BINDER object_flags ptr 0) ;; mret r.2.

Definition bio_put_ref (bio : binder_io) (ptr : Z) : ST mem binder_io :=
  r ← (if negb (ptr =? 0) then bio_alloc_obj bio else mret (bio_alloc bio sizeof_object));
  if r.1 =? 0 then mret r.2
  else store r.1 (encode_object BINDER_TYPE_HANDLE object_flags ptr 0) ;; mret r.2.

(** The characters before the first 0; [None] when there is none. *)
Fixpoint until_nul (s : list Z) : option (list Z) :=
  match s with
  | [] => None
  | c :: s' => if c =? 0 then Some [] else cons c <$> until_nul s'
  end.

(** [str] is the array the argument points to, [None] for NULL. *)
Definition bio_put_string16 (bio : binder_io) (str : option (list Z)) : ST mem binder_io :=
  match str with
  | None => bio_put_uint32 bio 4294967295
  | Some str =>
      s ← the Bad_access (until_nul str);
      let len := u32 (Z.of_nat (length s)) in
      if len >=? MAX_BIO_SIZE / 2 then bio_put_uint32 bio 4294967295
      else
        bio ← bio_put_uint32 bio len;
        let len := u32 ((len + 1) * 2) in
        let '(ptr, bio) := bio_alloc bio len in
        if negb (ptr =? 0) then store ptr (bytes16 (s ++ [0])) ;; mret bio else mret bio
  end.

(** The 8 bit characters of [str] are widened. *)
Definition bio_put_string16_x (bio : binder_io) (str : option (list Z)) : ST mem binder_io :=
  match str with
  | None => bio_put_uint32 bio 4294967295
  | Some str =>
      s ← the Bad_access (until_nul str);
      let len := u32 (Z.of_nat (length s)) in
      if len >=? MAX_BIO_SIZE / 2 then bio_put_uint32 bio 4294967295
      else
        bio ← bio_put_uint32 bio len;
        let '(ptr, bio) := bio_alloc bio (u32 ((len + 1) * 2)) in
        if ptr =? 0 then mret bio else store ptr (bytes16 (s ++ [0])) ;; mret bio
  end.

(** ** Reading *)

Definition bio_get (bio : binder_io) (size : Z) : Z * binder_io :=
  let size := round4 size in
  if bio_data_avail bio <? size then (0, overflow (bio <| bio_data_avail := 0 |>))
  else (bio_data bio, advance size bio).

Definition bio_get_uint32 (bio : binder_io) : ST mem (Z * binder_io) :=
  let '(ptr, bio) := bio_get bio 4 in
  if negb (ptr =? 0) then n ← load32 ptr; mret (n, bio) else mret (0, bio).

(** The pointer, the length and the reader after it. *)
Definition bio_get_string16 (bio : binder_io) : ST mem (Z * Z * binder_io) :=
  r ← bio_get_uint32 bio;
  let '(len, bio) := r in
  let '(ptr, bio) := bio_get bio (u32 (u32 (len + 1) * 2)) in
  mret (ptr, len, bio).

(** The loop over the offsets: whether [off] is one of the [n] at [offs]. *)
Fixpoint find_offset (offs : Z) (n : nat) (off : Z) : ST mem bool :=
  match n with
  | O => mret false
  | S n' => o ← load32 offs; if o =? off then mret true else find_offset (offs + 4) n' off
  end.

Definition bio_get_obj (bio : binder_io) : ST mem (Z * binder_io) :=
  let off := u32 (bio_data bio - bio_data0 bio) in
  found ← find_offset (bio_offs bio) (Z.to_nat (bio_offs_avail bio)) off;
  if found : bool then mret (bio_get bio sizeof_object)
  else mret (0, overflow (bio <| bio_data_avail := 0 |>)).

Definition bio_get_ref (bio : binder_io) : ST mem (Z * binder_io) :=
  r ← bio_get_obj bio;
  let '(obj, bio) := r in
  if obj =? 0 then mret (0, bio)
  else
    bs ← load obj 16;
    let o := decode_flat bs in
    mret (if fp_type o =? BINDER_TYPE_HANDLE then fp_binder o else 0, bio).
End Bio.
