(* ===== verification/BinderIoSpec.v ===== *)
(** Properties of the message writer and reader of [src/cmds/servicemanager]:
    a writer stays in its buffer, and what was written reads back. *)
From S2P Require Import Prelude UserMem BinderUapi BinderIo.
Import Bio.

(** ** Sizes *)

Lemma round4_div size : 0 <= size < 2 ^ 32 - 3 → round4 size = 4 * ((size + 3) / 4).
Proof. intros H. unfold round4. rewrite u32_small by lia. exact (land_lnot_ones (size + 3) 2 ltac:(lia)). Qed.

Lemma round4_bounds size : 0 <= size < 2 ^ 32 - 3 → size <= round4 size < size + 4 ∧ round4 size `mod` 4 = 0.
Proof. intros H. rewrite round4_div by done. split; [Z.to_euclidean_division_equations; lia|]. rewrite Z.mul_comm. by apply Z.mod_mul. Qed.

Lemma length_encode_object t f p c : length (encode_object t f p c) = 16%nat.
Proof. done. Qed.

(** ** Writers *)

(** A writer with room: what is left of its two areas is mapped, and they do
    not overlap. *)
Record writer (bio : binder_io) (m : mem) : Prop := {
  wr_pos : 0 < bio_data0 bio <= bio_data bio;
  wr_avail : 0 <= bio_data_avail bio;
  wr_offs_avail : 0 <= bio_offs_avail bio;
  wr_end : bio_data bio + bio_data_avail bio < 2 ^ 32;
  wr_mapped : mapped (bio_data bio) (bio_data_avail bio) m;
  wr_offs_mapped : mapped (bio_offs bio) (4 * bio_offs_avail bio) m;
  wr_apart : bio_offs bio + 4 * bio_offs_avail bio <= bio_data0 bio ∨ bio_data bio + bio_data_avail bio <= bio_offs bio
}.

(** [bio'] is [bio] further on, and only what it had left was written. *)
Record written (bio bio' : binder_io) (m m' : mem) : Prop := {
  wn_data0 : bio_data0 bio' = bio_data0 bio;
  wn_offs0 : bio_offs0 bio' = bio_offs0 bio;
  wn_data : bio_data bio <= bio_data bio';
  wn_data_end : bio_data bio' + bio_data_avail bio' = bio_data bio + bio_data_avail bio;
  wn_offs : bio_offs bio <= bio_offs bio';
  wn_offs_end : bio_offs bio' + 4 * bio_offs_avail bio' = bio_offs bio + 4 * bio_offs_avail bio;
  wn_mapped : ∀ i, is_Some (m !! i) → is_Some (m' !! i);
  wn_frame : ∀ i, ¬ bio_data bio <= i < bio_data bio' → ¬ bio_offs bio <= i < bio_offs bio' → m' !! i = m !! i
}.

Lemma written_refl bio m : written bio bio m m.
Proof. by constructor. Qed.

Lemma written_overflow bio m : written bio (overflow bio) m m.
Proof. by constructor. Qed.

Lemma written_trans b1 b2 b3 m1 m2 m3 : written b1 b2 m1 m2 → written b2 b3 m2 m3 → written b1 b3 m1 m3.
Proof.
  intros H1 H2. destruct H1, H2. constructor; try (congruence || lia); [auto|].
  intros i Hd Ho. rewrite wn_frame1, wn_frame0; [done|lia..].
Qed.

Lemma written_writer bio bio' m m' :
  writer bio m → written bio bio' m m' → 0 <= bio_data_avail bio' → 0 <= bio_offs_avail bio' → writer bio' m'.
Proof.
  intros [] [] Ha Hoa. constructor; try lia.
  - intros i Hi. apply wn_mapped0, wr_mapped0. lia.
  - intros i Hi. apply wn_mapped0, wr_offs_mapped0. lia.
Qed.

(** What [bio_alloc] gives. *)
Lemma bio_alloc_cases bio m size :
  writer bio m → 0 <= size < 2 ^ 32 - 3 →
  (bio_alloc bio size = (0, overflow bio) ∧ bio_data_avail bio < round4 size) ∨
  (bio_alloc bio size = (bio_data bio, advance (round4 size) bio) ∧ round4 size <= bio_data_avail bio).
Proof.
  intros W Hs. unfold bio_alloc. rewrite Z.gtb_ltb. destruct (Z.ltb_spec (bio_data_avail bio) (round4 size)); [left|right]; done.
Qed.

(** Writing into what it gave. *)
Lemma write_allocated bio m size bs :
  writer bio m → 0 <= size < 2 ^ 32 - 3 → Z.of_nat (length bs) = size → round4 size <= bio_data_avail bio →
  store (bio_data bio) bs m = Ok (tt, put_bytes (bio_data bio) bs m) ∧
  writer (advance (round4 size) bio) (put_bytes (bio_data bio) bs m) ∧
  written bio (advance (round4 size) bio) m (put_bytes (bio_data bio) bs m).
Proof.
  intros W Hs Hl Ha. pose proof (round4_bounds size Hs) as [? _].
  assert (Hw : written bio (advance (round4 size) bio) m (put_bytes (bio_data bio) bs m)).
  { constructor; cbn; try done; try lia.
    - intros i Hi. by apply put_bytes_is_Some.
    - intros i Hd _. rewrite put_bytes_lookup, decide_False by lia. done. }
  split; [apply store_ok; rewrite Hl; eapply mapped_sub; [apply W|lia|lia]|]. split; [|done].
  apply (written_writer bio _ m); [done|done|cbn; lia|apply W].
Qed.

(** ** Items *)

Inductive item : Type :=
| I_u32 (n : Z)
| I_str (x : bool) (s : list Z)   (* [x]: from 8 bit characters *)
| I_obj (p : Z)
| I_ref (p : Z).

Definition put_item (it : item) (bio : binder_io) : ST mem binder_io :=
  match it with
  | I_u32 n => bio_put_uint32 bio n
  | I_str false s => bio_put_string16 bio (Some (s ++ [0]))
  | I_str true s => bio_put_string16_x bio (Some (s ++ [0]))
  | I_obj p => bio_put_obj bio p
  | I_ref p => bio_put_ref bio p
  end.

Fixpoint put_items (its : list item) (bio : binder_io) : ST mem binder_io :=
  match its with
  | [] => mret bio
  | it :: its => bio ← put_item it bio; put_items its bio
  end.

Definition item_ok (it : item) : Prop :=
  match it with
  | I_u32 n => is_u32 n
  | I_str _ s => Forall (λ c, 0 < c < 2 ^ 16) s ∧ Z.of_nat (length s) < 2 ^ 29
  | I_obj p | I_ref p => is_u32 p
  end.

(** The bytes an item takes, padding included, and its entries in the offsets. *)
Definition item_size (it : item) : Z :=
  match it with
  | I_u32 _ => 4
  | I_str _ s => 4 + round4 (2 * (Z.of_nat (length s) + 1))
  | I_obj _ | I_ref _ => 16
  end.
Definition item_objects (it : item) : Z :=
  match it with
  | I_obj _ => 1
  | I_ref p => if p =? 0 then 0 else 1
  | _ => 0
  end.

(** Its bytes at [a]; what pads a string is not specified. *)
Definition holds (m : mem) (a : Z) (it : item) : Prop :=
  match it with
  | I_u32 n => bytes_at a 4 m = Some (le_bytes 4 n)
  | I_str _ s =>
      bytes_at a 4 m = Some (le_bytes 4 (Z.of_nat (length s))) ∧
      bytes_at (a + 4) (2 * (length s + 1)) m = Some (bytes16 (s ++ [0]))
  | I_obj p => bytes_at a 16 m = Some (encode_object BINDER_TYPE_BINDER object_flags p 0)
  | I_ref p => bytes_at a 16 m = Some (encode_object BINDER_TYPE_HANDLE object_flags p 0)
  end.

Definition fits (it : item) (bio : binder_io) : Prop :=
  item_size it <= bio_data_avail bio ∧ item_objects it <= bio_offs_avail bio.

(** The entry for an object at [bio_data bio]. *)
Definition offset_stored (it : item) (bio : binder_io) (m : mem) : Prop :=
  item_objects it = 1 → bytes_at (bio_offs bio) 4 m = Some (le_bytes 4 (bio_data bio - bio_data0 bio)).

(** What a call of [bio_put_*] did: the whole item when there was room, and
    otherwise, with the overflow flagged, at most a part of it. *)
Definition put_result (it : item) (bio bio' : binder_io) (m m' : mem) : Prop :=
  writer bio' m' ∧ written bio bio' m m' ∧
  ((fits it bio ∧ bio_flags bio' = bio_flags bio ∧ bio_data bio' = bio_data bio + item_size it ∧
    bio_offs bio' = bio_offs bio + 4 * item_objects it ∧ holds m' (bio_data bio) it ∧ offset_stored it bio m') ∨
   (¬ fits it bio ∧ bio_flags bio' = Z.lor (bio_flags bio) BIO_F_OVERFLOW)).

Lemma writer_data_nonzero bio m : writer bio m → (bio_data bio =? 0) = false.
Proof. intros []. apply Z.eqb_neq. lia. Qed.

Lemma writer_overflow bio m : writer bio m → writer (overflow bio) m.
Proof. by intros []. Qed.

(** A block of [size] bytes, written when there is room. *)
Lemma put_block bio m size bs :
  writer bio m → 0 <= size < 2 ^ 32 - 3 → Z.of_nat (length bs) = size →
  (let '(ptr, bio) := bio_alloc bio size in if negb (ptr =? 0) then store ptr bs ;; mret bio else mret bio) m =
  if decide (round4 size <= bio_data_avail bio) then Ok (advance (round4 size) bio, put_bytes (bio_data bio) bs m)
  else Ok (overflow bio, m).
Proof.
  intros W Hs Hl. destruct (bio_alloc_cases bio m size W Hs) as [[-> H]|[-> H]]; case_decide; try lia; [done|].
  rewrite (writer_data_nonzero bio m W). cbn [negb].
  destruct (write_allocated bio m size bs W Hs Hl H) as [E _]. by rewrite (st_bind_eq _ _ _ _ _ E).
Qed.

Lemma put_uint32_ok bio m n : writer bio m → is_u32 n → ∃ bio' m', bio_put_uint32 bio n m = Ok (bio', m') ∧ put_result (I_u32 n) bio bio' m m'.
Proof.
  intros W Hn. pose proof (put_block bio m 4 (le_bytes 4 n) W ltac:(lia) eq_refl) as E.
  unfold bio_put_uint32. unfold store32. rewrite E; clear E. change (round4 4) with 4. case_decide as H; eexists _, _; (split; [reflexivity|]).
  - destruct (write_allocated bio m 4 (le_bytes 4 n) W ltac:(lia) eq_refl H) as (_ & W' & N).
    split; [exact W'|]. split; [exact N|]. left. split; [split; [exact H|apply W]|]. split; [done|]. split; [done|].
    split; [cbn; lia|]. split; [exact (bytes_at_put _ (le_bytes 4 n) _)|]. by intros ?.
  - split; [by apply writer_overflow|]. split; [apply written_overflow|]. right. split; [by intros [??]|done].
Qed.

Lemma overflow_twice bio : overflow (overflow bio) = overflow bio.
Proof. unfold overflow, update, field_bio_flags. cbn [bio_flags]. by rewrite <- Z.lor_assoc, Z.lor_diag. Qed.

(** [bio_alloc_obj]: the object's place with its entry in the offsets, or NULL. *)
Definition entry (bio : binder_io) : list Z := le_bytes 4 (bio_data bio - bio_data0 bio).
Definition object_next (bio : binder_io) : binder_io :=
  advance 16 bio <| bio_offs_avail %= λ a, a - 1 |> <| bio_offs %= λ o, o + 4 |>.

Lemma alloc_obj_room bio m :
  writer bio m → 16 <= bio_data_avail bio → 1 <= bio_offs_avail bio →
  bio_alloc_obj bio m = Ok ((bio_data bio, object_next bio), put_bytes (bio_offs bio) (entry bio) m).
Proof.
  intros W Ha Ho. unfold bio_alloc_obj.
  destruct (bio_alloc_cases bio m sizeof_object W ltac:(done)) as [[-> H]|[-> H]]; change (round4 sizeof_object) with 16 in *; [lia|].
  rewrite (writer_data_nonzero bio m W). replace (bio_offs_avail (advance 16 bio) =? 0) with false by (symmetry; apply Z.eqb_neq; cbn; lia). cbn [negb andb].
  assert (M : mapped (bio_offs bio) 4 m) by (eapply mapped_sub; [apply (wr_offs_mapped bio m W)|lia|lia]).
  rewrite (st_bind_eq _ _ _ _ _ (store32_ok (bio_offs bio) _ m M)).
  change (bio_data0 (advance 16 bio)) with (bio_data0 bio). destruct W. rewrite u32_small by lia. done.
Qed.

Lemma alloc_obj_full bio m :
  writer bio m → ¬ (16 <= bio_data_avail bio ∧ 1 <= bio_offs_avail bio) →
  ∃ bio', bio_alloc_obj bio m = Ok ((0, bio'), m) ∧ writer bio' m ∧ written bio bio' m m ∧
    bio_flags bio' = Z.lor (bio_flags bio) BIO_F_OVERFLOW.
Proof.
  intros W Hn. unfold bio_alloc_obj.
  destruct (bio_alloc_cases bio m sizeof_object W ltac:(done)) as [[-> H]|[-> H]]; change (round4 sizeof_object) with 16 in *.
  - rewrite Z.eqb_refl. cbn [negb andb]. rewrite overflow_twice. exists (overflow bio). split; [done|].
    split; [by apply writer_overflow|]. split; [apply written_overflow|done].
  - rewrite (writer_data_nonzero bio m W). pose proof (wr_offs_avail bio m W).
    replace (bio_offs_avail (advance 16 bio) =? 0) with true by (symmetry; apply Z.eqb_eq; cbn; lia). cbn [negb andb].
    assert (Hw : written bio (overflow (advance 16 bio)) m m) by (by constructor; cbn; try lia).
    eexists. split; [reflexivity|]. split; [apply (written_writer bio _ m); [done|done|cbn; lia|apply W]|done].
Qed.

(** An object in its place. *)
Lemma write_object bio m bs :
  writer bio m → 16 <= bio_data_avail bio → 1 <= bio_offs_avail bio → length bs = 16%nat →
  let m1 := put_bytes (bio_offs bio) (entry bio) m in
  let m2 := put_bytes (bio_data bio) bs m1 in
  store (bio_data bio) bs m1 = Ok (tt, m2) ∧ writer (object_next bio) m2 ∧ written bio (object_next bio) m m2 ∧
  bytes_at (bio_data bio) 16 m2 = Some bs ∧ bytes_at (bio_offs bio) 4 m2 = Some (entry bio).
Proof.
  intros W Ha Ho Hl m1 m2. pose proof (wr_apart bio m W). pose proof (wr_pos bio m W).
  assert (N : written bio (object_next bio) m m2).
  { constructor; try done; try (cbn; lia).
    - intros i Hi. by apply put_bytes_is_Some, put_bytes_is_Some.
    - intros i Hd Hof. cbn in Hd, Hof. unfold m2, m1. rewrite !put_bytes_lookup. unfold entry. rewrite length_le_bytes.
      rewrite !decide_False by lia. done. }
  split; [apply store_ok; rewrite Hl; apply mapped_put; eapply mapped_sub; [apply W|lia|lia]|].
  split; [apply (written_writer bio _ m); [done|done|cbn; lia|cbn; lia]|]. split; [done|].
  split; [rewrite <- Hl; apply bytes_at_put|]. unfold m2. rewrite bytes_at_put_other by lia.
  apply (bytes_at_put _ (entry bio)).
Qed.

(** An object, with its entry in the offsets. *)
Lemma put_object_ok it bio m bs :
  writer bio m → item_size it = 16 → item_objects it = 1 → length bs = 16%nat →
  (∀ m', bytes_at (bio_data bio) 16 m' = Some bs → holds m' (bio_data bio) it) →
  ∃ bio' m', (r ← bio_alloc_obj bio; if r.1 =? 0 then mret r.2 else store r.1 bs ;; mret r.2) m = Ok (bio', m') ∧
    put_result it bio bio' m m'.
Proof.
  intros W Hsz Hob Hl Hh. assert (Hf : fits it bio ↔ 16 <= bio_data_avail bio ∧ 1 <= bio_offs_avail bio) by (unfold fits; by rewrite Hsz, Hob).
  destruct (decide (16 <= bio_data_avail bio ∧ 1 <= bio_offs_avail bio)) as [[Ha Ho]|Hn].
  - rewrite (st_bind_eq _ _ _ _ _ (alloc_obj_room bio m W Ha Ho)). cbn [fst snd]. rewrite (writer_data_nonzero bio m W).
    destruct (write_object bio m bs W Ha Ho Hl) as (E & W' & N & Hd & He). rewrite (st_bind_eq _ _ _ _ _ E).
    eexists _, _. split; [reflexivity|]. split; [exact W'|]. split; [exact N|]. left. rewrite Hf, Hsz, Hob. split_and!; try done; [by apply Hh|by intros _].
  - destruct (alloc_obj_full bio m W Hn) as (bio' & E & W' & N & Hfl). rewrite (st_bind_eq _ _ _ _ _ E). cbn [fst snd].
    exists bio', m. split; [done|]. split; [done|]. split; [done|]. right. by rewrite Hf.
Qed.

Lemma put_obj_ok bio m p : writer bio m → ∃ bio' m', bio_put_obj bio p m = Ok (bio', m') ∧ put_result (I_obj p) bio bio' m m'.
Proof. intros W. by apply put_object_ok. Qed.

Lemma put_ref_ok bio m p : writer bio m → ∃ bio' m', bio_put_ref bio p m = Ok (bio', m') ∧ put_result (I_ref p) bio bio' m m'.
Proof.
  intros W. unfold bio_put_ref. destruct (Z.eqb_spec p 0) as [->|Hp0]; cbn [negb].
  - rewrite (st_bind_eq _ _ m (bio_alloc bio sizeof_object) m) by done.
    pose proof (put_block bio m sizeof_object (encode_object BINDER_TYPE_HANDLE object_flags 0 0) W ltac:(done) eq_refl) as E.
    assert (E' : ∀ r : Z * binder_io, (if r.1 =? 0 then mret r.2 else store r.1 (encode_object BINDER_TYPE_HANDLE object_flags 0 0) ;; mret r.2) =
      (let '(ptr, bio) := r in if negb (ptr =? 0) then store ptr (encode_object BINDER_TYPE_HANDLE object_flags 0 0) ;; mret bio else mret bio)).
    { intros [q b]. cbn [fst snd]. by destruct (q =? 0). }
    rewrite E', E. clear E E'. change (round4 sizeof_object) with 16. case_decide as H; eexists _, _; (split; [reflexivity|]).
    + destruct (write_allocated bio m 16 (encode_object BINDER_TYPE_HANDLE object_flags 0 0) W ltac:(lia) eq_refl H) as (_ & W' & N).
      split; [exact W'|]. split; [exact N|]. left. split; [split; [exact H|apply W]|]. split; [done|]. split; [done|].
      split; [cbn; lia|]. split; [exact (bytes_at_put _ (encode_object BINDER_TYPE_HANDLE object_flags 0 0) _)|]. by intros ?.
    + split; [by apply writer_overflow|]. split; [apply written_overflow|]. right. split; [by intros [??]|done].
  - apply put_object_ok; try done. cbn. apply Z.eqb_neq in Hp0. by rewrite Hp0.
Qed.

Lemma until_nul_app s : Forall (λ c, 0 < c < 2 ^ 16) s → until_nul (s ++ [0]) = Some s.
Proof.
  induction 1 as [|c s Hc _ IH]; [done|]. cbn [app until_nul]. rewrite (proj2 (Z.eqb_neq c 0)) by lia. by rewrite IH.
Qed.

(** Both functions write the count, then the characters with their NUL. *)
Definition put_chars (bio : binder_io) (s : list Z) : ST mem binder_io :=
  bio ← bio_put_uint32 bio (Z.of_nat (length s));
  let '(ptr, bio) := bio_alloc bio (2 * (Z.of_nat (length s) + 1)) in
  if negb (ptr =? 0) then store ptr (bytes16 (s ++ [0])) ;; mret bio else mret bio.

Lemma put_string_chars x s bio m : item_ok (I_str x s) → put_item (I_str x s) bio m = put_chars bio s m.
Proof.
  intros [Hs Hl]. destruct x; cbn [put_item]; unfold bio_put_string16, bio_put_string16_x, put_chars;
    rewrite (until_nul_app s Hs), (st_bind_eq _ _ m s m) by done; rewrite (u32_small (Z.of_nat (length s))) by lia;
    (replace (Z.of_nat (length s) >=? MAX_BIO_SIZE / 2) with false by (symmetry; rewrite Z.geb_leb; apply Z.leb_gt; exact Hl));
    unfold mbind, st_bind; (destruct (bio_put_uint32 bio (Z.of_nat (length s)) m) as [[bio1 m1]|]; [|done]);
    rewrite u32_small by lia; rewrite (Z.mul_comm 2); [|done].
  destruct (bio_alloc bio1 _) as [ptr bio2]. by destruct (ptr =? 0).
Qed.

Lemma bytes_at_written bio bio' m m' a n :
  written bio bio' m m' → a + Z.of_nat n <= bio_data bio ∨ bio_data bio' <= a →
  a + Z.of_nat n <= bio_offs bio ∨ bio_offs bio' <= a → bytes_at a n m' = bytes_at a n m.
Proof. intros N Hd Ho. apply bytes_at_ext. intros i Hi. apply (wn_frame _ _ _ _ N); lia. Qed.

Lemma put_chars_ok x s bio m :
  writer bio m → item_ok (I_str x s) → ∃ bio' m', put_chars bio s m = Ok (bio', m') ∧ put_result (I_str x s) bio bio' m m'.
Proof.
  intros W [Hs Hl]. set (n := Z.of_nat (length s)). set (size := 2 * (n + 1)).
  assert (Hlen : Z.of_nat (length (bytes16 (s ++ [0]))) = size).
  { rewrite length_bytes16, length_app. cbn [length]. unfold size, n. lia. }
  destruct (put_uint32_ok bio m n W ltac:(unfold is_u32; lia)) as (bio1 & m1 & E1 & W1 & N1 & R1).
  unfold put_chars. rewrite (st_bind_eq _ _ _ _ _ E1).
  pose proof (put_block bio1 m1 size (bytes16 (s ++ [0])) W1 ltac:(lia) Hlen) as E. fold n. fold size. rewrite E. clear E.
  pose proof (round4_bounds size ltac:(lia)) as [Hr _].
  case_decide as H; eexists _, _; (split; [reflexivity|]).
  - destruct (write_allocated bio1 m1 size (bytes16 (s ++ [0])) W1 ltac:(lia) Hlen H) as (_ & W2 & N2).
    split; [exact W2|]. split; [exact (written_trans _ _ _ _ _ _ N1 N2)|].
    destruct R1 as [([Hf1 Hf2] & Hfl & Hd & Ho & Hh & _)|[Hnf Hfl]]; [left|right]; cbn [item_size item_objects holds] in *.
    + unfold fits. cbn [item_size item_objects]. fold n size. destruct N1. split_and!; try done; try (cbn; lia).
      * rewrite (bytes_at_written _ _ _ _ (bio_data bio) 4 N2); [exact Hh|lia|].
        change (bio_offs (advance (round4 size) bio1)) with (bio_offs bio1). pose proof (wr_pos bio m W). destruct (wr_apart bio m W); lia.
      * replace (bio_data bio + 4) with (bio_data bio1) by lia.
        rewrite <- (bytes_at_put (bio_data bio1) (bytes16 (s ++ [0])) m1). f_equal. lia.
    + unfold fits in *. cbn [item_size item_objects] in *. split; [fold n size; intros [??]; apply Hnf; lia|exact Hfl].
  - split; [by apply writer_overflow|]. split; [exact (written_trans _ _ _ _ _ _ N1 (written_overflow _ _))|]. right.
    destruct R1 as [([Hf1 Hf2] & Hfl & Hd & Ho & Hh & _)|[Hnf Hfl]]; unfold fits in *; cbn [item_size item_objects] in *.
    + fold n size. destruct N1. split; [intros [??]; lia|]. cbn. by rewrite Hfl.
    + split; [fold n size; intros [??]; apply Hnf; lia|]. cbn. by rewrite Hfl, <- Z.lor_assoc, Z.lor_diag.
Qed.

Lemma put_item_ok it bio m :
  writer bio m → item_ok it → ∃ bio' m', put_item it bio m = Ok (bio', m') ∧ put_result it bio bio' m m'.
Proof.
  intros W Hit. destruct it as [n|x s|p|p].
  - by apply put_uint32_ok.
  - rewrite (put_string_chars x s bio m Hit). by apply put_chars_ok.
  - by apply put_obj_ok.
  - by apply put_ref_ok.
Qed.

(** ** Messages *)

Fixpoint total (its : list item) : Z := match its with [] => 0 | it :: its => item_size it + total its end.
Fixpoint objects (its : list item) : Z := match its with [] => 0 | it :: its => item_objects it + objects its end.

Fixpoint layout (m : mem) (a : Z) (its : list item) : Prop :=
  match its with
  | [] => True
  | it :: its => holds m a it ∧ layout m (a + item_size it) its
  end.

(** The offsets of the objects of a message. *)
Fixpoint object_offsets (off : Z) (its : list item) : list Z :=
  match its with
  | [] => []
  | it :: its => (if item_objects it =? 1 then [off] else []) ++ object_offsets (off + item_size it) its
  end.

Fixpoint words_at (m : mem) (a : Z) (ws : list Z) : Prop :=
  match ws with
  | [] => True
  | w :: ws => bytes_at a 4 m = Some (le_bytes 4 w) ∧ words_at m (a + 4) ws
  end.

Lemma item_objects_range it : item_objects it = 0 ∨ item_objects it = 1.
Proof. destruct it; cbn; try (case_match); auto. Qed.

Lemma item_size_pos it : item_ok it → 4 <= item_size it < 2 ^ 31.
Proof. destruct it as [|x s| |]; cbn [item_ok item_size]; [lia| |lia|lia]. intros [_ Hl]. pose proof (round4_bounds (2 * (Z.of_nat (length s) + 1)) ltac:(lia)). lia. Qed.

Lemma total_nonneg its : Forall item_ok its → 0 <= total its.
Proof. induction 1 as [|it its H _ IH]; cbn [total]; [lia|]. pose proof (item_size_pos it H). lia. Qed.
Lemma objects_nonneg its : 0 <= objects its.
Proof. induction its as [|it its IH]; cbn [objects]; [lia|]. destruct (item_objects_range it); lia. Qed.

(** An item is known by the bytes it takes. *)
Lemma holds_ext m m' a b it :
  item_ok it → (∀ i, 0 <= i < item_size it → m' !! (b + i) = m !! (a + i)) → holds m a it → holds m' b it.
Proof.
  intros Hit H. assert (Hb : ∀ o n bs, 0 <= o → o + Z.of_nat n <= item_size it → bytes_at (a + o) n m = Some bs → bytes_at (b + o) n m' = Some bs).
  { intros o n bs Ho Hn [Hl E]%bytes_at_Some. apply bytes_at_Some. split; [done|]. intros i Hi.
    rewrite <- (E i Hi). rewrite <- !Z.add_assoc. apply H. lia. }
  assert (Hb0 : ∀ n bs, Z.of_nat n <= item_size it → bytes_at a n m = Some bs → bytes_at b n m' = Some bs).
  { intros n bs Hn E. rewrite <- (Z.add_0_r b). apply Hb; [lia|lia|]. by rewrite Z.add_0_r. }
  destruct it as [n|x s|p|p]; cbn [holds item_size] in *; [by apply Hb0| |by apply Hb0..].
  pose proof (round4_bounds (2 * (Z.of_nat (length s) + 1))) as Hr. destruct Hit as [_ Hl].
  intros [E1 E2]. split; [apply Hb0; [lia|done]|apply Hb; [lia|lia|done]].
Qed.

Lemma layout_ext m m' a b its :
  Forall item_ok its → (∀ i, 0 <= i < total its → m' !! (b + i) = m !! (a + i)) → layout m a its → layout m' b its.
Proof.
  revert a b. induction its as [|it its IH]; intros a b Hok H; [done|]. cbn [layout total] in *. inversion Hok as [|?? Hit Hits]; subst.
  pose proof (item_size_pos it Hit). pose proof (total_nonneg its Hits).
  intros [Hh Hl]. split; [apply (holds_ext m m' a b it Hit); [|done]; intros i Hi; apply H; lia|].
  apply (IH (a + item_size it)); [done| |done]. intros i Hi. rewrite <- !Z.add_assoc. apply H. lia.
Qed.

Lemma words_at_ext m m' a b ws :
  (∀ i, 0 <= i < 4 * Z.of_nat (length ws) → m' !! (b + i) = m !! (a + i)) → words_at m a ws → words_at m' b ws.
Proof.
  revert a b. induction ws as [|w ws IH]; intros a b H; [done|]. cbn [words_at length] in *. intros [[Hl E]%bytes_at_Some Hw]. split.
  - apply bytes_at_Some. split; [done|]. intros i Hi. rewrite <- (E i Hi). apply H. lia.
  - apply (IH (a + 4)); [|done]. intros i Hi. rewrite <- !Z.add_assoc. apply H. lia.
Qed.

Lemma length_object_offsets off its : Z.of_nat (length (object_offsets off its)) = objects its.
Proof.
  revert off. induction its as [|it its IH]; intros off; cbn [objects object_offsets]; [done|]. rewrite length_app, Nat2Z.inj_add, IH.
  destruct (item_objects_range it) as [-> | ->]; done.
Qed.

(** What the calls for a whole message did. *)
Definition fits_all (its : list item) (bio : binder_io) : Prop :=
  total its <= bio_data_avail bio ∧ objects its <= bio_offs_avail bio.

Definition message (its : list item) (bio bio' : binder_io) (m' : mem) : Prop :=
  bio_flags bio' = bio_flags bio ∧ bio_data bio' = bio_data bio + total its ∧
  bio_offs bio' = bio_offs bio + 4 * objects its ∧ layout m' (bio_data bio) its ∧
  words_at m' (bio_offs bio) (object_offsets (bio_data bio - bio_data0 bio) its).

Lemma lor_overflow f : Z.lor (Z.lor f BIO_F_OVERFLOW) BIO_F_OVERFLOW = Z.lor f BIO_F_OVERFLOW.
Proof. by rewrite <- Z.lor_assoc, Z.lor_diag. Qed.

(** One item in front of a message: what it wrote is still there. *)
Lemma message_cons it its bio bio1 bio' m m1 m' :
  item_ok it → Forall item_ok its → writer bio m → put_result it bio bio1 m m1 → fits it bio →
  writer bio' m' → written bio1 bio' m1 m' → message its bio1 bio' m' → message (it :: its) bio bio' m'.
Proof.
  intros Hit Hits W (W1 & N1 & [(Hf & Hfl & Hd & Ho & Hh & Hs)|[Hn _]]) Hfit W2 N2 (Hfl2 & Hd2 & Ho2 & Hl2 & Hw2); [|done].
  pose proof (wr_apart bio m W). pose proof (wr_pos bio m W). pose proof (item_size_pos it Hit). pose proof (total_nonneg its Hits).
  pose proof (objects_nonneg its). pose proof (item_objects_range it) as Ho1. destruct Hf as [Hf1 Hf2].
  pose proof (wn_data0 _ _ _ _ N1) as Hd0. pose proof (wn_data_end _ _ _ _ N1). pose proof (wn_offs_end _ _ _ _ N1).
  pose proof (wn_data_end _ _ _ _ N2). pose proof (wn_offs_end _ _ _ _ N2).
  pose proof (wr_avail _ _ W2). pose proof (wr_offs_avail _ _ W2).
  unfold message. cbn [total objects layout object_offsets]. split_and!; [congruence|lia|lia| |by rewrite <- Hd|].
  - apply (holds_ext m1 _ (bio_data bio)); [done| |done]. intros i Hi. apply (wn_frame _ _ _ _ N2); lia.
  - rewrite Hd, Ho, Hd0 in Hw2.
    replace (bio_data bio + item_size it - bio_data0 bio) with (bio_data bio - bio_data0 bio + item_size it) in Hw2 by lia.
    destruct Ho1 as [E|E]; rewrite E in *; cbn [Z.eqb app Pos.eqb words_at].
    + by replace (bio_offs bio + 4 * 0) with (bio_offs bio) in Hw2 by lia.
    + split; [|exact Hw2]. rewrite (bytes_at_ext _ _ m1); [by apply Hs|]. intros i Hi. apply (wn_frame _ _ _ _ N2); lia.
Qed.

Lemma put_items_ok its bio m :
  writer bio m → Forall item_ok its →
  ∃ bio' m', put_items its bio m = Ok (bio', m') ∧ writer bio' m' ∧ written bio bio' m m' ∧
    ((fits_all its bio ∧ message its bio bio' m') ∨ (¬ fits_all its bio ∧ bio_flags bio' = Z.lor (bio_flags bio) BIO_F_OVERFLOW)).
Proof.
  intros W Hok. revert bio m W. induction Hok as [|it its Hit Hits IH]; intros bio m W; cbn [put_items].
  - exists bio, m. split; [done|]. split; [done|]. split; [apply written_refl|]. left. split; [split; apply W|].
    unfold message. cbn. split_and!; (done || lia).
  - destruct (put_item_ok it bio m W Hit) as (bio1 & m1 & E1 & R). rewrite (st_bind_eq _ _ _ _ _ E1).
    pose proof R as (W1 & N1 & R1). destruct (IH bio1 m1 W1) as (bio' & m' & E' & W' & N' & R').
    exists bio', m'. split; [done|]. split; [done|]. split; [by eapply written_trans|].
    pose proof (item_size_pos it Hit). pose proof (total_nonneg its Hits). pose proof (objects_nonneg its).
    destruct N1 as [_ _ _ He _ Ho _ _]. unfold fits_all, fits in *. cbn [total objects].
    destruct R1 as [([Hf1 Hf2] & Hfl & Hd1 & Ho1 & _)|[Hn Hfl]].
    + destruct R' as [[[Ht Hob] M]|[Hn' Hfl']].
      * left. split; [lia|]. by eapply message_cons.
      * right. split; [lia|]. by rewrite Hfl', Hfl.
    + right. split; [pose proof (item_objects_range it); lia|]. destruct R' as [[_ (-> & _)]|[_ ->]]; by rewrite Hfl, ?lor_overflow.
Qed.

(** ** Readers *)

Inductive got : Type :=
| G_u32 (n : Z)
| G_str (len : Z) (chars : list Z)   (* the bytes at the pointer returned *)
| G_ref (p : Z).

(** Reading an item of the kind of [it], and a string through its pointer. *)
Definition get_item (it : item) (bio : binder_io) : ST mem (got * binder_io) :=
  match it with
  | I_u32 _ => r ← bio_get_uint32 bio; mret (G_u32 r.1, r.2)
  | I_str _ _ =>
      r ← bio_get_string16 bio;
      let '(ptr, len, bio) := r in
      bs ← load ptr (Z.to_nat (2 * (len + 1)));
      mret (G_str len bs, bio)
  | I_obj _ | I_ref _ => r ← bio_get_ref bio; mret (G_ref r.1, r.2)
  end.

Fixpoint get_items (its : list item) (bio : binder_io) : ST mem (list got * binder_io) :=
  match its with
  | [] => mret ([], bio)
  | it :: its =>
      r ← get_item it bio;
      r' ← get_items its r.2;
      mret (r.1 :: r'.1, r'.2)
  end.

(** What comes back: a local object that the driver did not make a handle reads
    as NULL. *)
Definition value (it : item) : got :=
  match it with
  | I_u32 n => G_u32 n
  | I_str _ s => G_str (Z.of_nat (length s)) (bytes16 (s ++ [0]))
  | I_obj _ => G_ref 0
  | I_ref p => G_ref p
  end.

(** A reader at an item that is all there. *)
Lemma bio_get_room bio size :
  0 < bio_data bio → 0 <= size < 2 ^ 32 - 3 → round4 size <= bio_data_avail bio →
  bio_get bio size = (bio_data bio, advance (round4 size) bio) ∧ (bio_data bio =? 0) = false.
Proof.
  intros Hd Hs Ha. unfold bio_get. destruct (Z.ltb_spec (bio_data_avail bio) (round4 size)); [lia|].
  split; [done|]. apply Z.eqb_neq. lia.
Qed.

Lemma get_uint32_ok bio m n :
  0 < bio_data bio → 4 <= bio_data_avail bio → is_u32 n → bytes_at (bio_data bio) 4 m = Some (le_bytes 4 n) →
  bio_get_uint32 bio m = Ok ((n, advance 4 bio), m).
Proof.
  intros Hd Ha Hn E. unfold bio_get_uint32. destruct (bio_get_room bio 4 Hd ltac:(lia) Ha) as [-> ->]. cbn [negb].
  by rewrite (st_bind_eq _ _ _ _ _ (load32_word _ _ _ Hn E)).
Qed.

Lemma find_offset_ok m offs ws off :
  Forall is_u32 ws → words_at m offs ws → off ∈ ws → find_offset offs (length ws) off m = Ok (true, m).
Proof.
  intros Hws. revert offs. induction Hws as [|w ws Hw _ IH]; intros offs Hm Hin; [by apply not_elem_of_nil in Hin|].
  cbn [words_at length find_offset] in *. destruct Hm as [E Hm]. rewrite (st_bind_eq _ _ _ _ _ (load32_word _ _ _ Hw E)).
  destruct (Z.eqb_spec w off) as [|Hne]; [done|]. apply IH; [done|]. apply elem_of_cons in Hin as [->|?]; done.
Qed.

(** The table of offsets of a reader. *)
Definition reader_table (bio : binder_io) (m : mem) (ws : list Z) : Prop :=
  Forall is_u32 ws ∧ words_at m (bio_offs bio) ws ∧ bio_offs_avail bio = Z.of_nat (length ws).

(** An object whose offset is in the table. *)
Lemma read_ref_ok bio m ws t p :
  0 < bio_data bio → 16 <= bio_data_avail bio → 0 <= bio_data bio - bio_data0 bio < 2 ^ 32 → reader_table bio m ws →
  bio_data bio - bio_data0 bio ∈ ws → is_u32 t → is_u32 p →
  bytes_at (bio_data bio) 16 m = Some (encode_object t object_flags p 0) →
  bio_get_ref bio m = Ok ((if t =? BINDER_TYPE_HANDLE then p else 0, advance 16 bio), m).
Proof.
  intros Hd Ha Hoff (Hws & Hm & Hn) Hin Ht Hp E. unfold bio_get_ref, bio_get_obj. rewrite u32_small by done.
  rewrite Hn, Nat2Z.id. destruct (bio_get_room bio sizeof_object Hd ltac:(done) Ha) as [Eg E0].
  assert (Eo : (found ← find_offset (bio_offs bio) (length ws) (bio_data bio - bio_data0 bio);
    if found : bool then mret (bio_get bio sizeof_object) else mret (0, overflow (bio <| bio_data_avail := 0 |>))) m =
    Ok ((bio_data bio, advance 16 bio), m)).
  { rewrite (st_bind_eq _ _ _ _ _ (find_offset_ok m _ ws _ Hws Hm Hin)). by rewrite Eg. }
  rewrite (st_bind_eq _ _ _ _ _ Eo), E0. rewrite (st_bind_eq _ _ _ _ _ (load_ok _ _ _ _ E)).
  unfold encode_object. rewrite flat_object_roundtrip; [done|]. repeat (constructor; [done || (vm_compute; split; [discriminate|reflexivity])|]). constructor.
Qed.

(** A NULL reference is written without an entry in the offsets, and cannot be
    read as an object. *)
Definition readable (it : item) : Prop := it ≠ I_ref 0.

Lemma readable_objects it : readable it → item_objects it = match it with I_obj _ | I_ref _ => 1 | _ => 0 end.
Proof. destruct it as [| | |p]; [done..|]. intros Hp. cbn. destruct (Z.eqb_spec p 0) as [->|]; [by destruct Hp|done]. Qed.

Lemma get_string16_ok x s bio m :
  item_ok (I_str x s) → 0 < bio_data bio → item_size (I_str x s) <= bio_data_avail bio → holds m (bio_data bio) (I_str x s) →
  bio_get_string16 bio m = Ok ((bio_data bio + 4, Z.of_nat (length s), advance (item_size (I_str x s)) bio), m).
Proof.
  intros [_ Hl] Hd Ha [E1 _]. cbn [item_size] in *. set (n := Z.of_nat (length s)) in *.
  pose proof (round4_bounds (2 * (n + 1)) ltac:(lia)) as [Hrb _].
  unfold bio_get_string16. rewrite (st_bind_eq _ _ _ _ _ (get_uint32_ok bio m n Hd ltac:(lia) ltac:(unfold is_u32; lia) E1)).
  rewrite (u32_small (n + 1)) by lia. rewrite u32_small by lia. rewrite (Z.mul_comm (n + 1)).
  destruct (bio_get_room (advance 4 bio) (2 * (n + 1))) as [-> _]; [cbn; lia|lia|cbn; lia|].
  unfold advance, update, field_bio_data, field_bio_data_avail. cbn. unfold mret, st_ret. do 3 f_equal.
  destruct bio; cbn. f_equal; lia.
Qed.

Lemma get_item_ok it bio m ws :
  item_ok it → readable it → 0 < bio_data bio → item_size it <= bio_data_avail bio →
  0 <= bio_data bio - bio_data0 bio < 2 ^ 32 → reader_table bio m ws → holds m (bio_data bio) it →
  (item_objects it = 1 → bio_data bio - bio_data0 bio ∈ ws) →
  get_item it bio m = Ok ((value it, advance (item_size it) bio), m).
Proof.
  intros Hit Hr Hd Ha Hoff Ht Hh Hin. rewrite (readable_objects it Hr) in Hin.
  destruct it as [n|x s|p|p]; cbn [get_item item_size holds value] in *.
  - by rewrite (st_bind_eq _ _ _ _ _ (get_uint32_ok bio m n Hd Ha Hit Hh)).
  - rewrite (st_bind_eq _ _ _ _ _ (get_string16_ok x s bio m Hit Hd Ha Hh)). destruct Hh as [_ E2].
    replace (Z.to_nat (2 * (Z.of_nat (length s) + 1))) with (2 * (length s + 1))%nat by lia.
    by rewrite (st_bind_eq _ _ _ _ _ (load_ok _ _ _ _ E2)).
  - by rewrite (st_bind_eq _ _ _ _ _ (read_ref_ok bio m ws BINDER_TYPE_BINDER p Hd Ha Hoff Ht (Hin eq_refl) ltac:(done) Hit Hh)).
  - by rewrite (st_bind_eq _ _ _ _ _ (read_ref_ok bio m ws BINDER_TYPE_HANDLE p Hd Ha Hoff Ht (Hin eq_refl) ltac:(done) Hit Hh)).
Qed.

Lemma get_items_ok its bio m ws :
  Forall item_ok its → Forall readable its → 0 < bio_data bio → total its <= bio_data_avail bio →
  0 <= bio_data bio - bio_data0 bio → bio_data bio - bio_data0 bio + total its < 2 ^ 32 → reader_table bio m ws →
  layout m (bio_data bio) its → (∀ o, o ∈ object_offsets (bio_data bio - bio_data0 bio) its → o ∈ ws) →
  get_items its bio m = Ok ((value <$> its, advance (total its) bio), m).
Proof.
  intros Hok. revert bio. induction Hok as [|it its Hit Hits IH]; intros bio Hr Hd Ha Hoff Hb Ht Hl Hin; cbn [get_items].
  - unfold mret, st_ret, advance, update, field_bio_data, field_bio_data_avail. destruct bio. cbn. do 4 f_equal; lia.
  - inversion Hr as [|?? Hr1 Hr2]; subst. cbn [total layout object_offsets] in *. destruct Hl as [Hh Hl].
    pose proof (item_size_pos it Hit). pose proof (total_nonneg its Hits).
    assert (Hi : item_objects it = 1 → bio_data bio - bio_data0 bio ∈ ws).
    { intros E. apply Hin. rewrite E. by left. }
    rewrite (st_bind_eq _ _ _ _ _ (get_item_ok it bio m ws Hit Hr1 Hd ltac:(lia) ltac:(lia) Ht Hh Hi)). cbn [fst snd].
    rewrite (st_bind_eq _ _ m (value <$> its, advance (item_size it + total its) bio) m); [done|].
    rewrite (IH (advance (item_size it) bio)); [|done|cbn; lia..|done|done|].
    + do 3 f_equal. unfold advance, update, field_bio_data, field_bio_data_avail. destruct bio. cbn. f_equal; lia.
    + intros o Ho. apply Hin. apply elem_of_app. right.
      by replace (bio_data bio - bio_data0 bio + item_size it) with (bio_data (advance (item_size it) bio) - bio_data0 (advance (item_size it) bio)) by (cbn; lia).
Qed.

(** ** Properties *)

Lemma bio_init_writer bio0 data maxdata maxoffs m :
  0 < data → 0 <= maxoffs → 4 * maxoffs <= maxdata → data + maxdata < 2 ^ 32 → mapped data maxdata m →
  bio_init bio0 data maxdata maxoffs = mk_bio (data + 4 * maxoffs) data (maxdata - 4 * maxoffs) maxoffs (data + 4 * maxoffs) data 0 ∧
  writer (bio_init bio0 data maxdata maxoffs) m.
Proof.
  intros Hd Ho Hm Hb Hmap. assert (E : bio_init bio0 data maxdata maxoffs =
    mk_bio (data + 4 * maxoffs) data (maxdata - 4 * maxoffs) maxoffs (data + 4 * maxoffs) data 0).
  { unfold bio_init. rewrite u32_small, Z.mul_comm by lia. rewrite Z.gtb_ltb.
    destruct (Z.ltb_spec maxdata (4 * maxoffs)); [lia|]. done. }
  split; [done|]. rewrite E. constructor; cbn [bio_data bio_data0 bio_data_avail bio_offs_avail bio_offs]; try lia;
    eapply mapped_sub; (done || lia).
Qed.

(** C38: Whatever is put in a message, fitting or not, the writer changes no byte
    outside its buffer, and its data stays between the table of offsets and the
    end.  The overflow flag says exactly whether something did not fit: it is
    clear if and only if the items, padded, have room in the data and the
    objects in the table. *)
Theorem bio_writer_stays_in_buffer its bio0 data maxdata maxoffs m :
  0 < data → 0 <= maxoffs → 4 * maxoffs <= maxdata → data + maxdata < 2 ^ 32 → mapped data maxdata m →
  Forall item_ok its →
  ∃ bio' m', put_items its (bio_init bio0 data maxdata maxoffs) m = Ok (bio', m') ∧
    (∀ i, ¬ data <= i < data + maxdata → m' !! i = m !! i) ∧
    bio_data0 bio' = data + 4 * maxoffs ∧ bio_data0 bio' <= bio_data bio' <= data + maxdata ∧
    (has_flag (bio_flags bio') BIO_F_OVERFLOW = false ↔
     4 * maxoffs + total its <= maxdata ∧ objects its <= maxoffs).
Proof.
  intros Hd Ho Hm Hb Hmap Hok. destruct (bio_init_writer bio0 data maxdata maxoffs m Hd Ho Hm Hb Hmap) as [Ei W].
  destruct (put_items_ok its _ m W Hok) as (bio' & m' & E & W' & N & R). exists bio', m'. split; [exact E|].
  rewrite Ei in N, R. destruct N as [Hd0 Ho0 Hda Hde Hof Hoe Hmp Hfr]. cbn in *.
  pose proof (wr_avail _ _ W'). pose proof (wr_offs_avail _ _ W').
  split; [intros i Hi; apply Hfr; lia|]. split; [done|]. split; [lia|].
  destruct R as [[[H1 H2] (Hf & _)]|[Hn Hf]]; cbn in *; rewrite Hf; unfold fits_all in *; cbn in *.
  - split; [intros _; lia|done].
  - split; [intros Hx; by vm_compute in Hx|intros [H1 H2]; exfalso; apply Hn; lia].
Qed.

(** The transaction a message is sent as arrives with a copy of its data and of
    its offsets, elsewhere in memory. *)
Record delivered (bio : binder_io) (m : mem) (txn : binder_txn) (m' : mem) : Prop := {
  dl_data_size : txn_data_size txn = bio_data bio - bio_data0 bio;
  dl_offs_size : txn_offs_size txn = bio_offs bio - bio_offs0 bio;
  dl_address : 0 < txn_data txn;
  dl_data : ∀ i, 0 <= i < txn_data_size txn → m' !! (txn_data txn + i) = m !! (bio_data0 bio + i);
  dl_offs : ∀ i, 0 <= i < txn_offs_size txn → m' !! (txn_offs txn + i) = m !! (bio_offs0 bio + i)
}.

Lemma object_offsets_range off its :
  0 <= off → Forall item_ok its → Forall (λ o, off <= o < off + total its) (object_offsets off its).
Proof.
  intros Ho Hok. revert off Ho. induction Hok as [|it its Hit Hits IH]; intros off Ho; cbn [object_offsets total]; [constructor|].
  pose proof (item_size_pos it Hit). pose proof (total_nonneg its Hits). apply Forall_app. split.
  - case_match; [|constructor]. constructor; [lia|constructor].
  - eapply Forall_impl; [apply IH; lia|]. simpl. intros o ?. lia.
Qed.


Module IoDemo.
(** 64 bytes of memory, and a message with one of each kind of item. *)
Definition page : mem := put_bytes 4096 (replicate 64 0) ∅.
Definition items : list item := [I_u32 7; I_str false [97; 98; 99]; I_ref 5; I_str true [100]].

Lemma page_mapped : mapped 4096 64 page.
Proof. intros i Hi. unfold page. rewrite put_bytes_lookup, decide_True by (rewrite length_replicate; lia). apply lookup_lt_is_Some. rewrite length_replicate. lia. Qed.

Lemma items_ok : Forall item_ok items.
Proof. unfold items. repeat (constructor; [cbn; unfold is_u32; try (split; [repeat constructor; lia|]); lia|]). constructor. Qed.

Definition reply0 : binder_io := mk_bio 0 0 0 0 0 0 0.

Lemma bio_writer_stays_in_buffer_witness :
  ∃ bio' m', put_items (items ++ items) (bio_init reply0 4096 64 4) page = Ok (bio', m') ∧ m' !! 4160 = None ∧
    has_flag (bio_flags bio') BIO_F_OVERFLOW = true.
Proof.
  destruct (bio_writer_stays_in_buffer (items ++ items) reply0 4096 64 4 page) as (bio' & m' & E & Hf & _ & _ & Hov);
    [lia|lia|lia|lia|apply page_mapped|apply Forall_app; split; apply items_ok|].
  exists bio', m'. split; [exact E|]. split; [rewrite Hf by lia; vm_compute; reflexivity|].
  destruct (has_flag (bio_flags bio') BIO_F_OVERFLOW); [done|]. destruct (proj1 Hov eq_refl) as [H _]. vm_compute in H. by destruct H.
Defined.

End IoDemo.
