(* ===== verification/BinderClient.v ===== *)
(** The client library of the driver in [src/cmds/servicemanager/binder.c]:
    commands to the driver, the parser of what it returns, calls and the loop of
    a server.  The driver is an interface; a task is its memory, the driver, and
    the state [A] of the program on top. *)
From S2P Require Import Prelude UserMem BinderUapi BinderIo.
Import Bio.

Module Client.

(** What a process sees of [/dev/binder].  [ioctl_write_read] is the ioctl
    [BINDER_WRITE_READ] for the bytes to write, how many of them are consumed
    already, and the room for reading: its result, how many bytes of the write
    buffer are consumed now, and the bytes read.  It may change the memory of the
    process, since buffers are mapped into it. *)
Class Driver (D : Type) : Type := {
  sys_open : ST D Z;                        (* [open("/dev/binder", O_RDWR)] *)
  sys_mmap (fd size : Z) : ST D (option Z); (* [None] for [MAP_FAILED] *)
  sys_munmap (addr size : Z) : ST D unit;
  sys_close (fd : Z) : ST D unit;
  ioctl_set_context_mgr (fd : Z) : ST D Z;
  ioctl_write_read (fd : Z) (wbuf : list Z) (consumed rsize : Z) : ST (mem * D) (Z * Z * list Z)
}.

(** Where the compiler put the local variables the driver sees, and what the
    fields of a transaction that are not set contain. *)
Class Frames : Type := { rdata_addr : Z; status_addr : Z; stack_words : Z }.

Record task (D A : Type) : Type := mk_task { c_mem : mem; c_drv : D; c_app : A; c_fresh : list Z }.
Arguments mk_task {D A}.
Arguments c_mem {D A}.
Arguments c_drv {D A}.
Arguments c_app {D A}.
Arguments c_fresh {D A}.

Section client.
Context {D A : Type} `{!Driver D, !Frames}.

Definition M (R : Type) : Type := ST (task D A) R.

Definition on_mem {R} (m : ST mem R) : M R := λ s,
  match m (c_mem s) with Ok (r, x) => Ok (r, mk_task x (c_drv s) (c_app s) (c_fresh s)) | Oops o => Oops o end.
Definition on_drv {R} (m : ST D R) : M R := λ s,
  match m (c_drv s) with Ok (r, d) => Ok (r, mk_task (c_mem s) d (c_app s) (c_fresh s)) | Oops o => Oops o end.
Definition on_app {R} (m : ST A R) : M R := λ s,
  match m (c_app s) with Ok (r, a) => Ok (r, mk_task (c_mem s) (c_drv s) a (c_fresh s)) | Oops o => Oops o end.

Definition ioctl_wr (fd : Z) (wbuf : list Z) (consumed rsize : Z) : M (Z * Z * list Z) := λ s,
  match ioctl_write_read fd wbuf consumed rsize (c_mem s, c_drv s) with
  | Ok (r, (m, d)) => Ok (r, mk_task m d (c_app s) (c_fresh s))
  | Oops o => Oops o
  end.

(** [malloc]: 0 when there is no memory. *)
Definition malloc : M Z := λ s,
  match c_fresh s with
  | [] => Ok (0, s)
  | a :: l => Ok (a, mk_task (c_mem s) (c_drv s) (c_app s) l)
  end.

(** ** The connection *)

Record binder_state : Type := mk_state { bs_fd : Z; bs_mapped : Z; bs_mapsize : Z }.

(** NULL is [None]; [free(bs)] leaves nothing to model. *)
Definition binder_open (mapsize : Z) : M (option binder_state) :=
  bs ← malloc;
  if bs =? 0 then mret None
  else
    fd ← on_drv sys_open;
    if fd <? 0 then mret None
    else
      mapped ← on_drv (sys_mmap fd mapsize);
      match mapped with
      | None => on_drv (sys_close fd) ;; mret None
      | Some a => mret (Some (mk_state fd a mapsize))
      end.

Definition binder_close (bs : binder_state) : M unit :=
  on_drv (sys_munmap (bs_mapped bs) (bs_mapsize bs)) ;; on_drv (sys_close (bs_fd bs)).

Definition binder_become_context_manager (bs : binder_state) : M Z := on_drv (ioctl_set_context_mgr (bs_fd bs)).

(** ** Commands *)

Definition words (l : list Z) : list Z := concat (le_bytes 4 <$> l).

Definition binder_write (bs : binder_state) (data : list Z) : M Z :=
  r ← ioctl_wr (bs_fd bs) data 0 0; mret r.1.1.

Definition binder_acquire (bs : binder_state) (ptr : Z) : M unit := binder_write bs (words [BC_ACQUIRE; ptr]) ;; mret tt.
Definition binder_release (bs : binder_state) (ptr : Z) : M unit := binder_write bs (words [BC_RELEASE; ptr]) ;; mret tt.
Definition binder_link_to_death (bs : binder_state) (ptr death : Z) : M unit :=
  binder_write bs (words [BC_REQUEST_DEATH_NOTIFICATION; ptr; death]) ;; mret tt.

Definition txn_words (t : binder_txn) : list Z :=
  [txn_target t; txn_cookie t; txn_code t; txn_flags t; txn_sender_pid t; txn_sender_euid t;
   txn_data_size t; txn_offs_size t; txn_data t; txn_offs t].

Definition TF_STATUS_CODE : Z := 8.

(** The reply, or the status in its place; the sender's fields are not set. *)
Definition reply_txn (reply : binder_io) (status : Z) : binder_txn :=
  if negb (status =? 0) then mk_txn 0 0 0 TF_STATUS_CODE stack_words stack_words 4 0 status_addr 0
  else mk_txn 0 0 0 0 stack_words stack_words (u32 (bio_data reply - bio_data0 reply))
         (u32 (bio_offs reply - bio_offs0 reply)) (bio_data0 reply) (bio_offs0 reply).

Definition binder_send_reply (bs : binder_state) (reply : binder_io) (buffer_to_free status : Z) : M unit :=
  on_mem (store32 status_addr (u32 status)) ;;
  binder_write bs (words ([BC_FREE_BUFFER; buffer_to_free; BC_REPLY] ++ txn_words (reply_txn reply status))) ;;
  mret tt.

Definition binder_done (bs : binder_state) (reply : binder_io) : M binder_io :=
  if has_flag (bio_flags reply) BIO_F_SHARED then
    binder_write bs (words [BC_FREE_BUFFER; bio_data0 reply]) ;; mret (reply <| bio_flags := 0 |>)
  else mret reply.

(** ** What the driver returns *)

(** The word at [ptr], an index of the read buffer. *)
Definition word_at (buf : list Z) (ptr : Z) : M Z :=
  if bool_decide (4 * ptr + 4 <= Z.of_nat (length buf)) then mret (get32 (Z.to_nat (4 * ptr)) buf) else fail Bad_access.

Definition read_txn (buf : list Z) (ptr : Z) : M binder_txn :=
  target ← word_at buf ptr; cookie ← word_at buf (ptr + 1); code ← word_at buf (ptr + 2); flags ← word_at buf (ptr + 3);
  pid ← word_at buf (ptr + 4); euid ← word_at buf (ptr + 5); data_size ← word_at buf (ptr + 6);
  offs_size ← word_at buf (ptr + 7); data ← word_at buf (ptr + 8); offs ← word_at buf (ptr + 9);
  mret (mk_txn target cookie code flags pid euid data_size offs_size data offs).

(** A handler gets the transaction, the message and the reply to fill in; its
    status and the reply come back. *)
Definition handler : Type := binder_txn → binder_io → binder_io → M (Z * binder_io).

Definition zero_bio : binder_io := mk_bio 0 0 0 0 0 0 0.

Definition sizeof_txn_words : Z := 10.

(** [case BR_TRANSACTION]; [func] is [None] for NULL. *)
Definition parse_transaction (bs : binder_state) (func : option handler) (txn : binder_txn) : M unit :=
  match func with
  | None => mret tt
  | Some func =>
      let reply := bio_init zero_bio rdata_addr 256 4 in
      r ← func txn (bio_init_from_txn txn) reply;
      binder_send_reply bs r.2 (txn_data txn) r.1
  end.

(** [while (ptr < end)].  [bio] is [Some] once the reply it asks for is in it,
    [want] whether it is not NULL; [call_death] calls [death->func]. *)
Fixpoint parse_loop (fuel : nat) (bs : binder_state) (buf : list Z) (ptr end_ : Z) (want : bool) (bio : option binder_io)
    (r : Z) (func : option handler) (call_death : Z → M unit) : M (Z * option binder_io) :=
  if ptr <? end_ then
    match fuel with
    | O => fail Fuel
    | S fuel' =>
        cmd ← word_at buf ptr;
        let ptr := ptr + 1 in
        if (cmd =? BR_NOOP) || (cmd =? BR_TRANSACTION_COMPLETE) then
          parse_loop fuel' bs buf ptr end_ want bio r func call_death
        else if (cmd =? BR_INCREFS) || (cmd =? BR_ACQUIRE) || (cmd =? BR_RELEASE) || (cmd =? BR_DECREFS) then
          parse_loop fuel' bs buf (ptr + 2) end_ want bio r func call_death
        else if cmd =? BR_TRANSACTION then
          if end_ - ptr <? sizeof_txn_words then mret (-1, bio)
          else
            txn ← read_txn buf ptr;
            parse_transaction bs func txn ;;
            parse_loop fuel' bs buf (ptr + sizeof_txn_words) end_ want bio r func call_death
        else if cmd =? BR_REPLY then
          if end_ - ptr <? sizeof_txn_words then mret (-1, bio)
          else
            txn ← read_txn buf ptr;
            let bio := if want then Some (bio_init_from_txn txn) else bio in
            parse_loop fuel' bs buf (ptr + sizeof_txn_words) end_ false bio 0 func call_death
        else if cmd =? BR_DEAD_BINDER then
          death ← word_at buf ptr;
          call_death death ;;
          parse_loop fuel' bs buf (ptr + 1) end_ want bio r func call_death
        else if (cmd =? BR_FAILED_REPLY) || (cmd =? BR_DEAD_REPLY) then
          parse_loop fuel' bs buf ptr end_ want bio (-1) func call_death
        else mret (-1, bio)
    end
  else mret (r, bio).

Definition binder_parse (bs : binder_state) (want : bool) (buf : list Z) (size : Z) (func : option handler)
    (call_death : Z → M unit) : M (Z * option binder_io) :=
  parse_loop (Z.to_nat (size / 4)) bs buf 0 (size / 4) want None 1 func call_death.

(** The read buffer after the driver wrote to it. *)
Definition sizeof_readbuf : Z := 128.
Definition read_into (buf bytes : list Z) : list Z := splice 0 bytes buf.

(** ** Calls *)

(** The loop of [binder_call]; [turns] bounds the ioctls. *)
Fixpoint call_loop (turns : nat) (bs : binder_state) (wbuf : list Z) (consumed : Z) (readbuf : list Z)
    (call_death : Z → M unit) : M (option binder_io) :=
  match turns with
  | O => fail Fuel
  | S turns' =>
      r ← ioctl_wr (bs_fd bs) wbuf consumed sizeof_readbuf;
      let '(res, consumed, bytes) := r in
      if res <? 0 then mret None
      else
        let readbuf := read_into readbuf bytes in
        p ← binder_parse bs true readbuf (Z.of_nat (length bytes)) None call_death;
        if p.1 =? 0 then mret p.2
        else if p.1 <? 0 then mret None
        else call_loop turns' bs wbuf consumed readbuf call_death
  end.

(** The status and the reply, zeroed but for its flag on a failure. *)
Definition binder_call (turns : nat) (bs : binder_state) (readbuf : list Z) (msg : binder_io) (target code : Z)
    (call_death : Z → M unit) : M (Z * binder_io) :=
  let failed := (-1, zero_bio <| bio_flags := BIO_F_IOERROR |>) in
  if has_flag (bio_flags msg) BIO_F_OVERFLOW then mret failed
  else
    let txn := mk_txn target stack_words code 0 stack_words stack_words (u32 (bio_data msg - bio_data0 msg))
                 (u32 (bio_offs msg - bio_offs0 msg)) (bio_data0 msg) (bio_offs0 msg) in
    r ← call_loop turns bs (words (BC_TRANSACTION :: txn_words txn)) 0 readbuf call_death;
    mret (match r with Some reply => (0, reply) | None => failed end).

(** ** The loop of a server *)

(** A turn: the read buffer for the next one, or [None] when the loop breaks. *)
Definition loop_turn (bs : binder_state) (readbuf : list Z) (func : handler) (call_death : Z → M unit) :
    M (option (list Z)) :=
  r ← ioctl_wr (bs_fd bs) [] 0 sizeof_readbuf;
  let '(res, _, bytes) := r in
  if res <? 0 then mret None
  else
    let readbuf := read_into readbuf bytes in
    p ← binder_parse bs false readbuf (Z.of_nat (length bytes)) (Some func) call_death;
    mret (if p.1 <=? 0 then None else Some readbuf).

(** At most [turns] turns; whether the loop has ended. *)
Fixpoint loop_turns (turns : nat) (bs : binder_state) (readbuf : list Z) (func : handler) (call_death : Z → M unit) : M bool :=
  match turns with
  | O => mret false
  | S turns' =>
      r ← loop_turn bs readbuf func call_death;
      match r with
      | None => mret true
      | Some readbuf => loop_turns turns' bs readbuf func call_death
      end
  end.

Definition binder_loop (turns : nat) (bs : binder_state) (readbuf : list Z) (func : handler) (call_death : Z → M unit) : M bool :=
  binder_write bs (words [BC_ENTER_LOOPER]) ;;
  loop_turns turns bs (splice 0 (words [BC_ENTER_LOOPER]) readbuf) func call_death.
End client.
Arguments M : clear implicits.
End Client.
