(* ===== verification/BinderClientSpec.v ===== *)
(** The parser of the client library reads what the driver writes: on a buffer
    with messages in the driver's encoding it does for each what its kind asks,
    in order. *)
From S2P Require Import Prelude UserMem BinderUapi BinderIo BinderClient.
Import Bio Client.

(** ** Messages of the driver *)

Inductive message : Type :=
| B_noop (cmd : Z)           (* [BR_NOOP], [BR_TRANSACTION_COMPLETE] *)
| B_node (cmd ptr cookie : Z)  (* [BR_INCREFS], [BR_ACQUIRE], [BR_RELEASE], [BR_DECREFS] *)
| B_transaction (t : binder_txn)
| B_reply (t : binder_txn)
| B_dead (cookie : Z)
| B_failed (cmd : Z).        (* [BR_FAILED_REPLY], [BR_DEAD_REPLY] *)

Definition message_ok (b : message) : Prop :=
  match b with
  | B_noop cmd => cmd = BR_NOOP ∨ cmd = BR_TRANSACTION_COMPLETE
  | B_node cmd p c => (cmd = BR_INCREFS ∨ cmd = BR_ACQUIRE ∨ cmd = BR_RELEASE ∨ cmd = BR_DECREFS) ∧ is_u32 p ∧ is_u32 c
  | B_transaction t | B_reply t => Forall is_u32 (txn_words t)
  | B_dead c => is_u32 c
  | B_failed cmd => cmd = BR_FAILED_REPLY ∨ cmd = BR_DEAD_REPLY
  end.

(** The driver's record of a transaction. *)
Definition tr_of (t : binder_txn) : binder_transaction_data :=
  mk_tr (txn_target t) (txn_cookie t) (txn_code t) (txn_flags t) (txn_sender_pid t) (txn_sender_euid t)
    (txn_data_size t) (txn_offs_size t) (txn_data t) (txn_offs t).

Definition encode_message (b : message) : list Z :=
  match b with
  | B_noop cmd | B_failed cmd => le_bytes 4 cmd
  | B_node cmd p c => le_bytes 4 cmd ++ le_bytes 4 p ++ le_bytes 4 c
  | B_transaction t => le_bytes 4 BR_TRANSACTION ++ encode_tr (tr_of t)
  | B_reply t => le_bytes 4 BR_REPLY ++ encode_tr (tr_of t)
  | B_dead c => le_bytes 4 BR_DEAD_BINDER ++ le_bytes 4 c
  end.

Section parse.
Context {D A : Type} {DR : Driver D} {FR : Frames}.
Implicit Types (func : option (handler (D := D) (A := A))).

(** What the messages ask of a client, one after the other. *)
Fixpoint handle_messages (bs : binder_state) (l : list message) (want : bool) (bio : option binder_io) (r : Z)
    func (call_death : Z → M D A unit) : M D A (Z * option binder_io) :=
  match l with
  | [] => mret (r, bio)
  | B_noop _ :: l | B_node _ _ _ :: l => handle_messages bs l want bio r func call_death
  | B_transaction t :: l => parse_transaction bs func t ;; handle_messages bs l want bio r func call_death
  | B_reply t :: l =>
      handle_messages bs l false (if want then Some (bio_init_from_txn t) else bio) 0 func call_death
  | B_dead c :: l => call_death c ;; handle_messages bs l want bio r func call_death
  | B_failed _ :: l => handle_messages bs l want bio (-1) func call_death
  end.

(** ** Words of the buffer *)

(** The words [ws] at [ptr]. *)
Definition at_words (buf : list Z) (ptr : Z) (ws : list Z) : Prop :=
  0 <= ptr ∧ ∃ rest, drop (Z.to_nat (4 * ptr)) buf = words ws ++ rest.

Lemma length_words ws : length (words ws) = (4 * length ws)%nat.
Proof. unfold words. induction ws as [|w ws IH]; [done|]. rewrite fmap_cons. cbn [concat]. rewrite length_app, length_le_bytes, IH. simpl. lia. Qed.

Lemma words_app ws vs : words (ws ++ vs) = words ws ++ words vs.
Proof. unfold words. by rewrite fmap_app, concat_app. Qed.

Lemma at_words_app buf ptr ws vs :
  at_words buf ptr (ws ++ vs) → at_words buf ptr ws ∧ at_words buf (ptr + Z.of_nat (length ws)) vs.
Proof.
  intros [Hp [rest E]]. rewrite words_app, <- app_assoc in E. split; [split; [done|by eexists]|]. split; [lia|].
  exists rest. replace (Z.to_nat (4 * (ptr + Z.of_nat (length ws)))) with (Z.to_nat (4 * ptr) + length (words ws))%nat by (rewrite length_words; lia).
  rewrite <- drop_drop, E. by rewrite drop_app_length.
Qed.

Lemma word_at_ok buf ptr w ws st : at_words buf ptr (w :: ws) → is_u32 w → word_at (D := D) (A := A) buf ptr st = Ok (w, st).
Proof.
  intros [Hp [rest E]] Hw. unfold word_at. assert (Hl : (Z.to_nat (4 * ptr) + 4 <= length buf)%nat).
  { pose proof (f_equal length E) as El. rewrite length_drop, length_app, length_words in El. simpl in El. lia. }
  rewrite bool_decide_true by lia. unfold get32, slice. rewrite E. unfold words. rewrite fmap_cons. cbn [concat].
  rewrite <- app_assoc. rewrite take_app_le by (by rewrite length_le_bytes). rewrite firstn_all2 by (by rewrite length_le_bytes).
  by rewrite le_value_bytes.
Qed.

Lemma words_tr t : encode_tr (tr_of t) = words (txn_words t).
Proof. done. Qed.

Lemma read_txn_ok buf ptr t ws st :
  at_words buf ptr (txn_words t ++ ws) → Forall is_u32 (txn_words t) → read_txn (D := D) (A := A) buf ptr st = Ok (t, st).
Proof.
  intros Hw Hu. unfold read_txn. destruct t as [a b c d e f g h i j]. unfold txn_words in *.
  cbn [txn_target txn_cookie txn_code txn_flags txn_sender_pid txn_sender_euid txn_data_size txn_offs_size txn_data txn_offs] in *.
  assert (Hx : ∀ n w, [a; b; c; d; e; f; g; h; i; j] !! n = Some w → word_at (D := D) (A := A) buf (ptr + Z.of_nat n) st = Ok (w, st)).
  { intros n w Hn. pose proof (take_drop_middle _ _ _ Hn) as Em. rewrite <- Em, <- app_assoc in Hw. apply at_words_app in Hw as [_ Hw].
    rewrite length_take_le in Hw by (apply lookup_lt_Some in Hn; lia). cbn [app] in Hw. apply (word_at_ok buf _ w _ st Hw).
    by eapply Forall_lookup_1 in Hn. }
  pose proof (Hx 0%nat a eq_refl) as H0. rewrite Z.add_0_r in H0.
  rewrite (st_bind_eq _ _ _ _ _ H0), (st_bind_eq _ _ _ _ _ (Hx 1%nat b eq_refl)), (st_bind_eq _ _ _ _ _ (Hx 2%nat c eq_refl)),
    (st_bind_eq _ _ _ _ _ (Hx 3%nat d eq_refl)), (st_bind_eq _ _ _ _ _ (Hx 4%nat e eq_refl)), (st_bind_eq _ _ _ _ _ (Hx 5%nat f eq_refl)),
    (st_bind_eq _ _ _ _ _ (Hx 6%nat g eq_refl)), (st_bind_eq _ _ _ _ _ (Hx 7%nat h eq_refl)), (st_bind_eq _ _ _ _ _ (Hx 8%nat i eq_refl)),
    (st_bind_eq _ _ _ _ _ (Hx 9%nat j eq_refl)). done.
Qed.

(** ** The loop *)

Definition message_words (b : message) : list Z :=
  match b with
  | B_noop cmd | B_failed cmd => [cmd]
  | B_node cmd p c => [cmd; p; c]
  | B_transaction t => BR_TRANSACTION :: txn_words t
  | B_reply t => BR_REPLY :: txn_words t
  | B_dead c => [BR_DEAD_BINDER; c]
  end.

Lemma encode_message_words b : encode_message b = words (message_words b).
Proof. destruct b; try done; unfold words; cbn; by rewrite ?app_nil_r. Qed.

Definition all_words (l : list message) : list Z := concat (message_words <$> l).

Lemma encode_all_words l : concat (encode_message <$> l) = words (all_words l).
Proof.
  unfold all_words. induction l as [|b l IH]; [done|]. rewrite !fmap_cons. cbn [concat]. by rewrite words_app, encode_message_words, IH.
Qed.

(** Comparisons of commands, computed. *)
Ltac commands :=
  repeat match goal with
  | |- context [?a =? ?b] =>
      let v := eval vm_compute in (a =? b) in
      lazymatch v with true => change (a =? b) with true | false => change (a =? b) with false end
  end; cbn [orb].

Lemma message_words_u32 b : message_ok b → Forall is_u32 (message_words b).
Proof.
  assert (Hc : ∀ c, (0 <=? c) && (c <? 2 ^ 32) = true → is_u32 c) by (intros c [?%Z.leb_le ?%Z.ltb_lt]%andb_prop; done).
  destruct b as [c|c p k|t|t|k|c]; cbn [message_ok message_words]; intros Hok; rewrite ?Forall_cons.
  - rewrite Forall_nil. destruct Hok as [-> | ->]; split; (done || by apply Hc).
  - rewrite Forall_nil. destruct Hok as ([-> |[-> |[-> | ->]]] & Hp & Hk); split_and!; (done || by apply Hc).
  - split; [by apply Hc|done].
  - split; [by apply Hc|done].
  - rewrite Forall_nil. split_and!; (done || by apply Hc).
  - rewrite Forall_nil. destruct Hok as [-> | ->]; split; (done || by apply Hc).
Qed.

(** The command of a message, and where the next one starts. *)
Lemma all_words_cons buf ptr b l st :
  at_words buf ptr (all_words (b :: l)) → message_ok b →
  at_words buf ptr (message_words b) ∧ at_words buf (ptr + Z.of_nat (length (message_words b))) (all_words l) ∧
  ∃ cmd ws, message_words b = cmd :: ws ∧ at_words buf (ptr + 1) ws ∧ Forall is_u32 ws ∧
    word_at (D := D) (A := A) buf ptr st = Ok (cmd, st).
Proof.
  unfold all_words. rewrite fmap_cons. cbn [concat]. intros [H1 H2]%at_words_app Hok. split; [done|]. split; [done|].
  pose proof (message_words_u32 b Hok) as Hu. destruct (message_words b) as [|cmd ws] eqn:E; [by destruct b|].
  inversion Hu as [|?? Hc Hws]; subst. exists cmd, ws. split; [done|]. split; [|split; [done|by apply (word_at_ok buf ptr cmd ws)]].
  exact (proj2 (at_words_app buf ptr [cmd] ws H1)).
Qed.

Lemma parse_loop_messages fuel bs buf ptr l want bio r func call_death st :
  Forall message_ok l → at_words buf ptr (all_words l) → (length (all_words l) ≤ fuel)%nat →
  parse_loop fuel bs buf ptr (ptr + Z.of_nat (length (all_words l))) want bio r func call_death st =
  handle_messages bs l want bio r func call_death st.
Proof.
  intros Hok. revert fuel ptr want bio r st. induction Hok as [|b l Hb Hl IH]; intros fuel ptr want bio r st Hw Hf.
  - cbn [all_words fmap list_fmap concat length]. rewrite Z.add_0_r. destruct fuel; cbn [parse_loop]; by rewrite Z.ltb_irrefl.
  - pose proof (message_words_u32 b Hb) as Hu. destruct (all_words_cons buf ptr b l st Hw Hb) as (H1 & H2 & cmd & ws & Em & Hws & Hwu & Ec).
    assert (Hlen : length (all_words (b :: l)) = S (length ws + length (all_words l))).
    { unfold all_words. rewrite fmap_cons. cbn [concat]. rewrite length_app, Em. done. }
    rewrite Hlen in *. rewrite Em in H2. cbn [length] in H2.
    destruct fuel as [|fuel]; [lia|]. cbn [parse_loop]. rewrite (proj2 (Z.ltb_lt _ _)) by lia. rewrite (st_bind_eq _ _ _ _ _ Ec). cbv zeta.
    assert (IH' : ∀ want bio r st, parse_loop fuel bs buf (ptr + 1 + Z.of_nat (length ws)) (ptr + Z.of_nat (S (length ws + length (all_words l)))) want bio r func call_death st =
      handle_messages bs l want bio r func call_death st).
    { intros want' bio' r' st'. rewrite <- (IH fuel (ptr + 1 + Z.of_nat (length ws))); [f_equal; lia| |lia].
      by replace (ptr + 1 + Z.of_nat (length ws)) with (ptr + Z.of_nat (S (length ws))) by lia. }
    clear IH. destruct b as [c|c p k|t|t|k|c]; cbn [message_words] in Em; injection Em as <- <-; cbn [handle_messages]; cbn [length] in IH'.
    + rewrite Z.add_0_r in IH'. destruct Hb as [-> | ->]; commands; apply IH'.
    + rewrite <- Z.add_assoc in IH' |- *. change (1 + Z.of_nat 2) with (1 + 2) in IH'. destruct Hb as ([-> |[-> |[-> | ->]]] & _); commands; apply IH'.
    + commands. rewrite (proj2 (Z.ltb_ge _ _)) by (unfold sizeof_txn_words; simpl; lia).
      rewrite <- (app_nil_r (txn_words t)) in Hws. rewrite (st_bind_eq _ _ _ _ _ (read_txn_ok buf _ t [] st Hws Hwu)).
      unfold mbind, st_bind. destruct (parse_transaction bs func t st) as [[[] st1]|]; [|done]. apply IH'.
    + commands. rewrite (proj2 (Z.ltb_ge _ _)) by (unfold sizeof_txn_words; simpl; lia).
      rewrite <- (app_nil_r (txn_words t)) in Hws. rewrite (st_bind_eq _ _ _ _ _ (read_txn_ok buf _ t [] st Hws Hwu)). apply IH'.
    + commands. inversion Hwu as [|?? Hk _]; subst. rewrite (st_bind_eq _ _ _ _ _ (word_at_ok buf _ k [] st Hws Hk)).
      unfold mbind, st_bind. destruct (call_death k st) as [[[] st1]|]; [|done]. apply IH'.
    + rewrite Z.add_0_r in IH'. destruct Hb as [-> | ->]; commands; apply IH'.
Qed.

(** C32: [binder_parse], given the bytes the driver writes for a list of messages,
    handles exactly these messages in order: it runs the handler and sends one
    reply for each transaction, fills the reply it waits for with the first
    [BR_REPLY], calls each death notification, and its result is that of the last
    message that has one.  It never reads outside the buffer. *)
Theorem binder_parse_correct bs want buf l rest func call_death st :
  Forall message_ok l → buf = concat (encode_message <$> l) ++ rest →
  binder_parse bs want buf (Z.of_nat (length (concat (encode_message <$> l)))) func call_death st =
  handle_messages bs l want None 1 func call_death st.
Proof.
  intros Hok ->. unfold binder_parse. rewrite encode_all_words, length_words.
  replace (Z.of_nat (4 * length (all_words l)) / 4) with (Z.of_nat (length (all_words l))).
  2:{ rewrite Nat2Z.inj_mul, Z.mul_comm. by rewrite Z.div_mul. }
  rewrite Nat2Z.id. rewrite <- (Z.add_0_l (Z.of_nat (length (all_words l)))).
  apply parse_loop_messages; [done|split; [done|by exists rest]|lia].
Qed.
End parse.
