(* ===== verification/ServiceManager.v ===== *)
(** The service manager, [src/cmds/servicemanager/service_manager.c]: the
    registry of services by name, who may register, and the handler of its
    requests. *)
From Stdlib Require Import Ascii String.
From S2P Require Import Prelude UserMem BinderUapi BinderIo BinderClient.
Import Bio Client.

Module SvcMgr.

(** ** Users and names *)

Definition AID_SYSTEM : Z := 1000.
Definition AID_RADIO : Z := 1001.
Definition AID_BLUETOOTH : Z := 1002.
Definition AID_MEDIA : Z := 1013.
Definition AID_KEYSTORE : Z := 1017.
Definition AID_DRM : Z := 1019.
Definition AID_NFC : Z := 1027.
Definition AID_ISOLATED_START : Z := 99000.
Definition AID_ISOLATED_END : Z := 99999.
Definition AID_USER : Z := 100000.

(** The characters of a C string. *)
Definition chars (s : string) : list Z := (λ c, Z.of_nat (nat_of_ascii c)) <$> list_ascii_of_string s.

Definition allowed : list (Z * list Z) :=
  [(AID_MEDIA, chars "media.audio_flinger"); (AID_MEDIA, chars "media.log"); (AID_MEDIA, chars "media.player");
   (AID_MEDIA, chars "media.camera"); (AID_MEDIA, chars "media.audio_policy"); (AID_DRM, chars "drm.drmManager");
   (AID_NFC, chars "nfc"); (AID_BLUETOOTH, chars "bluetooth"); (AID_RADIO, chars "radio.phone");
   (AID_RADIO, chars "radio.sms"); (AID_RADIO, chars "radio.phonesubinfo"); (AID_RADIO, chars "radio.simphonebook");
   (AID_RADIO, chars "phone"); (AID_RADIO, chars "sip"); (AID_RADIO, chars "isms"); (AID_RADIO, chars "iphonesubinfo");
   (AID_RADIO, chars "simphonebook"); (AID_MEDIA, chars "common_time.clock"); (AID_MEDIA, chars "common_time.config");
   (AID_KEYSTORE, chars "android.security.keystore")].

Definition svcmgr_id : list Z := chars "android.os.IServiceManager".

(** [str8]: at most [max] of the characters at [x], as bytes; for the log. *)
Fixpoint str8_loop (max : nat) (x : Z) : ST mem (list Z) :=
  c ← load16 x;
  if c =? 0 then mret []
  else
    match max with
    | O => mret []
    | S max' => l ← str8_loop max' (x + 2); mret (u8 c :: l)
    end.
Definition str8 (x : Z) : ST mem (list Z) := if x =? 0 then mret [] else str8_loop 127 x.

(** [b] is a C string, [a] the address of 16 bit characters. *)
Fixpoint str16eq (a : Z) (b : list Z) : ST mem bool :=
  x ← load16 a;
  match b with
  | [] => mret (x =? 0)
  | c :: b' => if x =? 0 then mret false else if negb (x =? c) then mret false else str16eq (a + 2) b'
  end.

Fixpoint allowed_loop (uid name : Z) (l : list (Z * list Z)) : ST mem bool :=
  match l with
  | [] => mret false
  | (u, n) :: l' =>
      ok ← (if uid =? u then str16eq name n else mret false);
      if ok : bool then mret true else allowed_loop uid name l'
  end.

Definition svc_can_register (uid name : Z) : ST mem bool :=
  if (uid =? 0) || (uid =? AID_SYSTEM) then mret true else allowed_loop uid name allowed.

(** ** The registry *)

(** [struct svcinfo]; the [struct binder_death] in it, which calls
    [svcinfo_death] with the service, is known by its address. *)
Record svcinfo : Type := mk_svc {
  si_next : Z;
  si_ptr : Z;
  si_allow_isolated : bool;
  si_len : Z;
  si_name : list Z
}.
#[export] Instance eta_svcinfo : Eta svcinfo :=
  λ r, mk_svc (si_next r) (si_ptr r) (si_allow_isolated r) (si_len r) (si_name r).
#[export] Instance field_si_ptr : Field si_ptr := ltac:(derive_field).

Definition death_offset : Z := 8.

(** The globals, and the heap of services. *)
Record svcs : Type := mk_svcs { sv_heap : gmap Z svcinfo; sv_list : Z; sv_handle : Z }.
#[export] Instance eta_svcs : Eta svcs := λ r, mk_svcs (sv_heap r) (sv_list r) (sv_handle r).
#[export] Instance field_sv_heap : Field sv_heap := ltac:(derive_field).
#[export] Instance field_sv_list : Field sv_list := ltac:(derive_field).
#[export] Instance field_sv_handle : Field sv_handle := ltac:(derive_field).

Section svcmgr.
Context {D : Type} `{!Driver D, !Frames}.
#[local] Notation SM := (M D svcs).

Definition svc (si : Z) : SM svcinfo := on_app (gets (λ s, sv_heap s !! si) ≫= the Null_deref).
Definition set_svc (si : Z) (f : svcinfo → svcinfo) : SM unit :=
  x ← svc si; on_app (modify (λ s, s <| sv_heap %= <[si := f x]> |>)).

(** [memcmp(s, bs, length bs)] is 0; both blocks are read in full. *)
Definition mem_equal (s : Z) (bs : list Z) : SM bool :=
  l ← on_mem (load s (length bs)); mret (bool_decide (l = bs)).

(** The loop of [find_svc]. *)
Fixpoint find_svc_loop (fuel : nat) (si s16 len : Z) : SM Z :=
  if si =? 0 then mret 0
  else
    match fuel with
    | O => fail Fuel
    | S fuel' =>
        x ← svc si;
        same ← (if len =? si_len x then mem_equal s16 (bytes16 (take (Z.to_nat len) (si_name x))) else mret false);
        if same : bool then mret si else find_svc_loop fuel' (si_next x) s16 len
    end.

Definition find_svc (s16 len : Z) : SM Z :=
  s ← on_app (gets id); find_svc_loop (size (sv_heap s)) (sv_list s) s16 len.

Definition svcinfo_death (bs : binder_state) (si : Z) : SM unit :=
  x ← svc si;
  (if negb (si_ptr x =? 0) then
     binder_release bs (si_ptr x) ;; set_svc si (λ x, x <| si_ptr := 0 |>)
   else mret tt).

Definition isolated (uid : Z) : bool :=
  let appid := uid `mod` AID_USER in (appid >=? AID_ISOLATED_START) && (appid <=? AID_ISOLATED_END).

Definition do_find_service (s len uid : Z) : SM Z :=
  si ← find_svc s len;
  if si =? 0 then mret 0
  else
    x ← svc si;
    if si_ptr x =? 0 then mret 0
    else if negb (si_allow_isolated x) && isolated uid then mret 0 else mret (si_ptr x).

(** The new entry of [do_add_service], in front of the list. *)
Definition new_svc (si s len ptr : Z) (allow_isolated : bool) : SM unit :=
  name ← on_mem (load s (Z.to_nat ((len + 1) * 2)));
  on_app (modify (λ r, r <| sv_heap %= <[si := mk_svc (sv_list r) ptr allow_isolated len
    (take (Z.to_nat len) (words16 name) ++ [0])]> |> <| sv_list := si |>)).

Definition do_add_service (bs : binder_state) (s len ptr uid : Z) (allow_isolated : bool) : SM Z :=
  if (ptr =? 0) || (len =? 0) || (len >? 127) then mret (-1)
  else
    can ← on_mem (svc_can_register uid s);
    if negb can then on_mem (str8 s) ;; mret (-1)
    else
      si ← find_svc s len;
      r ← (if negb (si =? 0) then
             x ← svc si;
             (if negb (si_ptr x =? 0) then on_mem (str8 s) ;; svcinfo_death bs si else mret tt) ;;
             set_svc si (λ x, x <| si_ptr := ptr |>) ;; mret si
           else
             si ← malloc;
             if si =? 0 then on_mem (str8 s) ;; mret 0
             else new_svc si s len ptr allow_isolated ;; mret si);
      if r =? 0 then mret (-1)
      else binder_acquire bs ptr ;; binder_link_to_death bs ptr (r + death_offset) ;; mret 0.

(** ** Requests *)

Definition SVC_MGR_GET_SERVICE : Z := 1.
Definition SVC_MGR_CHECK_SERVICE : Z := 2.
Definition SVC_MGR_ADD_SERVICE : Z := 3.
Definition SVC_MGR_LIST_SERVICES : Z := 4.

(** [while ((n-- > 0) && si) si = si->next]. *)
Fixpoint skip_svcs (fuel : nat) (n si : Z) : SM Z :=
  if (n >? 0) && negb (si =? 0) then
    match fuel with
    | O => fail Fuel
    | S fuel' => x ← svc si; skip_svcs fuel' (n - 1) (si_next x)
    end
  else mret si.

Definition get_service (txn : binder_txn) (msg reply : binder_io) : SM (Z * binder_io) :=
  r ← on_mem (bio_get_string16 msg);
  let '(s, len, msg) := r in
  ptr ← do_find_service s len (txn_sender_euid txn);
  if ptr =? 0 then reply ← on_mem (bio_put_uint32 reply 0); mret (0, reply)
  else reply ← on_mem (bio_put_ref reply ptr); mret (0, reply).

Definition add_service (bs : binder_state) (txn : binder_txn) (msg reply : binder_io) : SM (Z * binder_io) :=
  r ← on_mem (bio_get_string16 msg);
  let '(s, len, msg) := r in
  r ← on_mem (bio_get_ref msg);
  let '(ptr, msg) := r in
  r ← on_mem (bio_get_uint32 msg);
  err ← do_add_service bs s len ptr (txn_sender_euid txn) (negb (r.1 =? 0));
  if negb (err =? 0) then mret (-1, reply) else reply ← on_mem (bio_put_uint32 reply 0); mret (0, reply).

Definition list_services (msg reply : binder_io) : SM (Z * binder_io) :=
  r ← on_mem (bio_get_uint32 msg);
  s ← on_app (gets id);
  si ← skip_svcs (size (sv_heap s)) r.1 (sv_list s);
  if negb (si =? 0) then
    x ← svc si; reply ← on_mem (bio_put_string16 reply (Some (si_name x))); mret (0, reply)
  else mret (-1, reply).

(** The [switch] of [svcmgr_handler]. *)
Definition dispatch (bs : binder_state) (txn : binder_txn) (msg reply : binder_io) : SM (Z * binder_io) :=
  if (txn_code txn =? SVC_MGR_GET_SERVICE) || (txn_code txn =? SVC_MGR_CHECK_SERVICE) then get_service txn msg reply
  else if txn_code txn =? SVC_MGR_ADD_SERVICE then add_service bs txn msg reply
  else if txn_code txn =? SVC_MGR_LIST_SERVICES then list_services msg reply
  else mret (-1, reply).

Definition svcmgr_handler (bs : binder_state) (txn : binder_txn) (msg reply : binder_io) : SM (Z * binder_io) :=
  g ← on_app (gets sv_handle);
  if negb (txn_target txn =? g) then mret (-1, reply)
  else
    r ← on_mem (bio_get_uint32 msg);
    r ← on_mem (bio_get_string16 r.2);
    let '(s, len, msg) := r in
    same ← (if negb (len =? Z.of_nat (length svcmgr_id)) then mret false else mem_equal s (bytes16 svcmgr_id));
    if negb same then on_mem (str8 s) ;; mret (-1, reply) else dispatch bs txn msg reply.

(** ** The program *)

(** [death->func(bs, death->ptr)]: the death notification of a service. *)
Definition call_death (bs : binder_state) (death : Z) : SM unit := svcinfo_death bs (death - death_offset).

Definition BINDER_SERVICE_MANAGER : Z := 0.

(** [main], for as many turns of its loop; [None] when the loop has not ended. *)
Definition main (turns : nat) (readbuf : list Z) : SM (option Z) :=
  bs ← binder_open (128 * 1024);
  match bs with
  | None => fail Null_deref
  | Some bs =>
      r ← binder_become_context_manager bs;
      if negb (r =? 0) then mret (Some (-1))
      else
        on_app (modify (λ s, s <| sv_handle := BINDER_SERVICE_MANAGER |>)) ;;
        ended ← binder_loop turns bs readbuf (svcmgr_handler bs) (call_death bs);
        mret (if ended : bool then Some 0 else None)
  end.
End svcmgr.
End SvcMgr.
