(* ===== verification/SvcRegistry.v ===== *)
(** The registry of the service manager as a list: searching it, changing it,
    and the permissions its requests are checked against. *)
From S2P Require Import Prelude UserMem BinderUapi BinderIo BinderIoSpec BinderClient ServiceManager.
Import Bio Client SvcMgr.

(** ** The registry as a list *)

(** The services from [a] on, with their addresses. *)
Fixpoint chain (h : gmap Z svcinfo) (a : Z) (l : list (Z * svcinfo)) : Prop :=
  match l with
  | [] => a = 0
  | (b, x) :: l' => a = b ∧ b ≠ 0 ∧ h !! b = Some x ∧ chain h (si_next x) l'
  end.

(** Characters without the final NUL. *)
Definition svc_name (x : svcinfo) : list Z := take (Z.to_nat (si_len x)) (si_name x).

Record svc_ok (x : svcinfo) : Prop := {
  so_len : 0 < si_len x <= 127;
  so_name : ∃ s, si_name x = s ++ [0] ∧ Z.of_nat (length s) = si_len x ∧ Forall (λ c, 0 <= c < 2 ^ 16) s
}.

(** A well-formed registry: the list of its entries, each name once. *)
Record registry (s : svcs) (l : list (Z * svcinfo)) : Prop := {
  rg_chain : chain (sv_heap s) (sv_list s) l;
  rg_all : ∀ b x, sv_heap s !! b = Some x → (b, x) ∈ l;
  rg_addr : NoDup l.*1;
  rg_ok : Forall (λ e, svc_ok e.2) l;
  rg_names : NoDup (svc_name <$> l.*2)
}.

(** What it promises: names, handles and whether isolated processes may have them. *)
Definition entry_of (x : svcinfo) : list Z * Z * bool := (svc_name x, si_ptr x, si_allow_isolated x).
Definition entries (l : list (Z * svcinfo)) : list (list Z * Z * bool) := entry_of <$> l.*2.

(** The entry of a name. *)
Definition find_entry (name : list Z) (l : list (Z * svcinfo)) : option (Z * svcinfo) :=
  head (filter (λ e, svc_name e.2 = name) l).

Lemma bytes16_inj s t :
  Forall (λ c, 0 <= c < 2 ^ 16) s → Forall (λ c, 0 <= c < 2 ^ 16) t → bytes16 s = bytes16 t → s = t.
Proof.
  intros Hs. revert t. induction Hs as [|c s Hc _ IH]; intros t Ht E; destruct Ht as [|d t Hd Ht]; try done.
  unfold bytes16 in E. rewrite !fmap_cons in E. cbn [concat] in E.
  apply app_inj_1 in E as [E1 E2]; [|by rewrite !length_le_bytes]. f_equal; [|by apply IH].
  rewrite <- (le_value_bytes 2 c), <- (le_value_bytes 2 d) by (simpl; lia). by rewrite E1.
Qed.

Lemma svc_name_length x : svc_ok x → Z.of_nat (length (svc_name x)) = si_len x ∧ Forall (λ c, 0 <= c < 2 ^ 16) (svc_name x).
Proof.
  intros [Hl (s & E & Hs & Hf)]. unfold svc_name. rewrite E. rewrite take_app_le by lia. rewrite firstn_all2 by lia. done.
Qed.

Lemma chain_lookup h a l e : chain h a l → e ∈ l → h !! e.1 = Some e.2 ∧ e.1 ≠ 0.
Proof.
  revert a. induction l as [|[b x] l IH]; intros a Hc He; [by apply not_elem_of_nil in He|].
  destruct Hc as (-> & Hb & Hx & Hc). apply elem_of_cons in He as [->|He]; [done|]. by eapply IH.
Qed.

Lemma chain_length h a l : chain h a l → NoDup l.*1 → (length l ≤ size h)%nat.
Proof.
  intros Hc Hn. rewrite <- (length_fmap fst l).
  rewrite <- size_dom, <- (size_list_to_set (C := gset Z) l.*1 Hn). apply subseteq_size.
  intros d Hd%elem_of_list_to_set. apply list_elem_of_fmap in Hd as (e & -> & He). apply elem_of_dom.
  destruct (chain_lookup h a l e Hc He) as [-> _]. eauto.
Qed.

Section registry_lemmas.
Context {D : Type} {DR : Driver D} {FR : Frames}.
Notation SM := (M D svcs).
Implicit Types (st : task D svcs) (l : list (Z * svcinfo)).

(** ** Single steps *)

Definition with_mem (x : mem) st : task D svcs := mk_task x (c_drv st) (c_app st) (c_fresh st).
Definition with_app (a : svcs) st : task D svcs := mk_task (c_mem st) (c_drv st) a (c_fresh st).

Lemma on_mem_eq {R} (m : ST mem R) st r x : m (c_mem st) = Ok (r, x) → on_mem m st = Ok (r, with_mem x st).
Proof. intros E. unfold on_mem. by rewrite E. Qed.

Lemma on_mem_read {R} (m : ST mem R) st r : m (c_mem st) = Ok (r, c_mem st) → on_mem m st = Ok (r, st).
Proof. intros E. rewrite (on_mem_eq _ _ _ _ E). by destruct st. Qed.

Lemma on_mem_inv {R} (m : ST mem R) st r st' : on_mem m st = Ok (r, st') → ∃ x, m (c_mem st) = Ok (r, x) ∧ st' = with_mem x st.
Proof. unfold on_mem. destruct (m (c_mem st)) as [[r' x]|]; [|done]. intros [= <- <-]. eauto. Qed.

Lemma svc_eq si x st : sv_heap (c_app st) !! si = Some x → svc si st = Ok (x, st).
Proof. intros E. unfold svc, on_app, mbind, st_bind, gets, the. rewrite E. by destruct st. Qed.

Lemma svc_inv si st x st' : svc si st = Ok (x, st') → sv_heap (c_app st) !! si = Some x ∧ st' = st.
Proof.
  unfold svc, on_app, mbind, st_bind, gets, the. destruct (sv_heap (c_app st) !! si); [|done]. intros [= <- <-]. split; [done|by destruct st].
Qed.

Lemma set_svc_eq si f x st :
  sv_heap (c_app st) !! si = Some x →
  set_svc si f st = Ok (tt, with_app (c_app st <| sv_heap %= <[si := f x]> |>) st).
Proof. intros E. unfold set_svc. by rewrite (st_bind_eq _ _ _ _ _ (svc_eq si x st E)). Qed.

Lemma get_app st : on_app (D := D) (gets id) st = Ok (c_app st, st).
Proof. by destruct st. Qed.

Lemma mem_equal_eq s bs st :
  mem_equal (D := D) s bs st =
  match bytes_at s (length bs) (c_mem st) with Some l => Ok (bool_decide (l = bs), st) | None => Oops Bad_access end.
Proof.
  unfold mem_equal. destruct (bytes_at s (length bs) (c_mem st)) as [l|] eqn:E.
  - by rewrite (st_bind_eq _ _ _ _ _ (on_mem_read _ _ _ (load_ok _ _ _ _ E))).
  - unfold mbind, st_bind, on_mem, load, mbind, st_bind, gets. by rewrite E.
Qed.

(** ** [find_svc] *)

(** The result by the length asked for and the bytes at the pointer, [None] when
    they cannot be read. *)
Fixpoint find_result (l : list (Z * svcinfo)) (len : Z) (mb : option (list Z)) : res Z :=
  match l with
  | [] => Ok 0
  | (a, x) :: l' =>
      if len =? si_len x then
        match mb with
        | None => Oops Bad_access
        | Some bs => if bool_decide (bs = bytes16 (svc_name x)) then Ok a else find_result l' len mb
        end
      else find_result l' len mb
  end.

Definition lift_res {R} (r : res R) st : res (R * task D svcs) := match r with Ok a => Ok (a, st) | Oops o => Oops o end.

Lemma find_svc_loop_eq fuel a l s16 len st :
  chain (sv_heap (c_app st)) a l → Forall (λ e, svc_ok e.2) l → (length l ≤ fuel)%nat →
  find_svc_loop fuel a s16 len st = lift_res (find_result l len (bytes_at s16 (2 * Z.to_nat len) (c_mem st))) st.
Proof.
  revert a fuel. induction l as [|[b x] l IH]; intros a fuel Hc Hok Hf; cbn [chain] in Hc.
  - subst a. by destruct fuel.
  - destruct Hc as (-> & Hb & Hx & Hc). inversion Hok as [|?? Hxok Hok']; subst. cbn [length] in Hf.
    destruct fuel as [|fuel]; [lia|]. apply Z.eqb_neq in Hb as Hb'. cbn [find_svc_loop find_result]. rewrite Hb'.
    rewrite (st_bind_eq _ _ _ _ _ (svc_eq b x st Hx)). destruct (Z.eqb_spec len (si_len x)) as [->|Hne].
    + destruct (svc_name_length x Hxok) as [Hnl _]. fold (svc_name x).
      pose proof (mem_equal_eq s16 (bytes16 (svc_name x)) st) as E. rewrite length_bytes16 in E.
      replace (length (svc_name x)) with (Z.to_nat (si_len x)) in E by lia.
      destruct (bytes_at s16 (2 * Z.to_nat (si_len x)) (c_mem st)) as [bs|].
      * rewrite (st_bind_eq _ _ _ _ _ E). case_bool_decide; [done|]. apply IH; [done|done|lia].
      * unfold mbind, st_bind. by rewrite E.
    + rewrite (st_bind_eq _ _ st false st) by done. apply IH; [done|done|lia].
Qed.

Lemma find_svc_eq l s16 len st :
  registry (c_app st) l →
  find_svc s16 len st = lift_res (find_result l len (bytes_at s16 (2 * Z.to_nat len) (c_mem st))) st.
Proof.
  intros [Hc _ Hn Hok _]. unfold find_svc. rewrite (st_bind_eq _ _ _ _ _ (get_app st)).
  apply find_svc_loop_eq; [done|done|]. by apply (chain_length _ (sv_list (c_app st))).
Qed.

(** On a name that can be read. *)
Lemma find_result_name l name :
  Forall (λ e, svc_ok e.2) l → Forall (λ c, 0 <= c < 2 ^ 16) name →
  find_result l (Z.of_nat (length name)) (Some (bytes16 name)) = Ok (default 0 (fst <$> find_entry name l)).
Proof.
  intros Hok Hname. induction Hok as [|[a x] l Hx _ IH]; [done|]. cbn [find_result]. unfold find_entry. cbn in Hx.
  destruct (svc_name_length x Hx) as [Hl Hc]. rewrite filter_cons. cbn [snd].
  destruct (decide (svc_name x = name)) as [E|E].
  - rewrite <- Hl, E, Z.eqb_refl. by rewrite bool_decide_true.
  - assert (bytes16 name ≠ bytes16 (svc_name x)) by (intros ?%bytes16_inj; congruence).
    rewrite bool_decide_false by done. destruct (Z.of_nat (length name) =? si_len x); exact IH.
Qed.

(** What a result tells, whatever the pointer. *)
Lemma find_result_inv l len mb a :
  Forall (λ e, svc_ok e.2) l → find_result l len mb = Ok a →
  (∃ x, (a, x) ∈ l ∧ si_len x = len ∧ mb = Some (bytes16 (svc_name x))) ∨
  (a = 0 ∧ ∀ e, e ∈ l → si_len e.2 = len → mb ≠ Some (bytes16 (svc_name e.2))).
Proof.
  intros Hok. induction Hok as [|[b x] l Hx _ IH]; cbn [find_result].
  - intros [= <-]. right. split; [done|]. by intros e ?%not_elem_of_nil.
  - intros E. destruct (Z.eqb_spec len (si_len x)) as [->|Hne].
    + destruct mb as [bs|]; [|done]. case_bool_decide as Hb.
      * injection E as <-. left. exists x. split; [by left|]. by rewrite Hb.
      * destruct (IH E) as [(y & Hy & Hyl)|[-> Hno]]; [left; exists y; split; [by right|done]|right].
        split; [done|]. intros e [->|He]%elem_of_cons; [intros _ [= ?]; done|by apply Hno].
    + destruct (IH E) as [(y & Hy & Hyl)|[-> Hno]]; [left; exists y; split; [by right|done]|right].
      split; [done|]. intros e [->|He]%elem_of_cons; [by intros ?|by apply Hno].
Qed.

(** ** Permissions *)

(** The C string [t] at [a]. *)
Definition cstr16 (m : mem) (a : Z) (t : list Z) : Prop := bytes_at a (2 * (length t + 1)) m = Some (bytes16 (t ++ [0])).

Definition permitted (uid s : Z) (m : mem) : Prop :=
  uid = 0 ∨ uid = AID_SYSTEM ∨ ∃ t, (uid, t) ∈ allowed ∧ cstr16 m s t.

Lemma cstr16_cons m a c t : bytes_at a 2 m = Some (le_bytes 2 c) → cstr16 m (a + 2) t → cstr16 m a (c :: t).
Proof.
  intros E1 E2. unfold cstr16 in *. replace (2 * (length (c :: t) + 1))%nat with (2 + 2 * (length t + 1))%nat by (simpl; lia).
  by rewrite (bytes_at_app _ _ _ _ _ _ E1 E2).
Qed.

Lemma str16eq_inv a b m r m' :
  byte_mem m → str16eq a b m = Ok (r, m') → m' = m ∧ (r = true → cstr16 m a b).
Proof.
  intros Hm. revert a. induction b as [|c b IH]; intros a; cbn [str16eq].
  - intros (x & m1 & (-> & Hx & E)%load16_inv & [= <- <-])%st_bind_ok; [|done]. split; [done|]. intros ->%Z.eqb_eq. exact E.
  - intros (x & m1 & (-> & Hx & E)%load16_inv & Hrun)%st_bind_ok; [|done].
    destruct (x =? 0); [by injection Hrun as <- <-|]. destruct (Z.eqb_spec x c) as [->|]; cbn [negb] in Hrun; [|by injection Hrun as <- <-].
    destruct (IH _ Hrun) as [-> Hr]. split; [done|]. intros Ht. by apply cstr16_cons; [|apply Hr].
Qed.

Lemma svc_can_register_inv uid s m r m' :
  byte_mem m → svc_can_register uid s m = Ok (r, m') → m' = m ∧ (r = true → permitted uid s m).
Proof.
  intros Hm. unfold svc_can_register. destruct ((uid =? 0) || (uid =? AID_SYSTEM)) eqn:Hu.
  - intros [= <- <-]. split; [done|]. intros _. apply orb_prop in Hu as [?%Z.eqb_eq|?%Z.eqb_eq]; [by left|by right; left].
  - assert (Hloop : ∀ al, al ⊆ allowed → allowed_loop uid s al m = Ok (r, m') → m' = m ∧ (r = true → permitted uid s m)).
    { induction al as [|[u n] al IH]; intros Hal; cbn [allowed_loop]; [by intros [= <- <-]|].
      intros (ok & m1 & E1 & E2)%st_bind_ok. destruct (Z.eqb_spec uid u) as [->|Hne].
      - apply str16eq_inv in E1 as [-> Hok]; [|done]. destruct ok.
        + injection E2 as <- <-. split; [done|]. intros _. right. right. exists n. split; [apply Hal; by left|by apply Hok].
        + apply IH; [|done]. intros e He. apply Hal. by right.
      - injection E1 as <- <-. apply IH; [|done]. intros e He. apply Hal. by right. }
    by apply Hloop.
Qed.

(** On a readable name the comparison is that of the names. *)
Definition plain (t : list Z) : Prop := Forall (λ c, 0 < c < 2 ^ 16) t.

Lemma cstr16_tail m a c t : 0 < c < 2 ^ 16 → cstr16 m a (c :: t) → load16 a m = Ok (c, m) ∧ cstr16 m (a + 2) t.
Proof.
  intros Hc Hs. split.
  - apply load16_word; [lia|]. apply (bytes_at_take _ _ 2) in Hs; [|simpl; lia]. exact Hs.
  - unfold cstr16 in *. apply bytes_at_Some in Hs as [Hl Hi]. apply bytes_at_Some. rewrite !length_bytes16, !length_app in *.
    cbn [length] in *. split; [lia|]. intros i Hlt. specialize (Hi (S (S i)) ltac:(lia)). cbn in Hi.
    replace (a + 2 + Z.of_nat i) with (a + Z.of_nat (S (S i))) by lia. exact Hi.
Qed.

Lemma str16eq_eq a b m t : plain t → plain b → cstr16 m a t → str16eq a b m = Ok (bool_decide (t = b), m).
Proof.
  intros Ht. revert a b. induction Ht as [|c t Hc _ IH]; intros a b Hb Hs.
  - assert (E : load16 a m = Ok (0, m)) by (by apply load16_word). destruct b; cbn [str16eq]; by rewrite (st_bind_eq _ _ _ _ _ E).
  - destruct (cstr16_tail m a c t Hc Hs) as [E Hs']. destruct Hb as [|d b Hd Hb]; cbn [str16eq]; rewrite (st_bind_eq _ _ _ _ _ E).
    + by rewrite (proj2 (Z.eqb_neq c 0)) by lia.
    + rewrite (proj2 (Z.eqb_neq c 0)) by lia. destruct (Z.eqb_spec c d) as [->|Hne]; cbn [negb].
      * rewrite (IH _ _ Hb Hs'). repeat case_bool_decide; congruence.
      * rewrite bool_decide_false by congruence. done.
Qed.

(** The users that may register a plain name. *)
Definition may (uid : Z) (name : list Z) : bool :=
  (uid =? 0) || (uid =? AID_SYSTEM) || bool_decide ((uid, name) ∈ allowed).

Lemma allowed_plain : Forall (λ e, plain e.2) allowed.
Proof.
  apply (Forall_impl (λ e, forallb (λ c, (0 <? c) && (c <? 2 ^ 16)) e.2 = true)).
  - apply Forall_forall. intros e He%list_elem_of_In. revert e He. apply forallb_forall. vm_compute. reflexivity.
  - intros e H. rewrite forallb_forall in H. apply Forall_forall. intros c Hc%list_elem_of_In%H.
    apply andb_prop in Hc as [?%Z.ltb_lt ?%Z.ltb_lt]. done.
Qed.

Lemma svc_can_register_eq uid s m t : plain t → cstr16 m s t → svc_can_register uid s m = Ok (may uid t, m).
Proof.
  intros Ht Hs. unfold svc_can_register, may. destruct ((uid =? 0) || (uid =? AID_SYSTEM)); [done|]. cbn [orb].
  assert (Hloop : ∀ al, Forall (λ e, plain e.2) al → allowed_loop uid s al m = Ok (bool_decide ((uid, t) ∈ al), m)); [|apply Hloop, allowed_plain].
  induction 1 as [|[u n] al Hn _ IH]; cbn [allowed_loop]; [done|]. cbn in Hn.
  destruct (Z.eqb_spec uid u) as [->|Hne].
  - rewrite (st_bind_eq _ _ _ _ _ (str16eq_eq s n m t Ht Hn Hs)). destruct (bool_decide (t = n)) eqn:Et; [apply bool_decide_eq_true in Et|apply bool_decide_eq_false in Et].
    + subst n. assert (Hin : (u, t) ∈ (u, t) :: al) by by left. by rewrite (bool_decide_true _ Hin).
    + rewrite IH. do 2 f_equal. apply bool_decide_ext. rewrite elem_of_cons. split; [by right|]. intros [[= ?]|?]; [done|done].
  - rewrite (st_bind_eq _ _ m false m) by done. rewrite IH. do 2 f_equal. apply bool_decide_ext. rewrite elem_of_cons.
    split; [by right|]. intros [[= ??]|?]; [done|done].
Qed.

(** ** Changing the registry *)

Definition set_ptr (b p : Z) l : list (Z * svcinfo) := (λ e, if decide (e.1 = b) then (e.1, e.2 <| si_ptr := p |>) else e) <$> l.

(** Registration, on the entries: a name that is there keeps whether isolated
    processes may have it. *)
Definition register (name : list Z) (p : Z) (allow : bool) (es : list (list Z * Z * bool)) : list (list Z * Z * bool) :=
  if bool_decide (name ∈ es.*1.*1) then (λ e, if decide (e.1.1 = name) then (name, p, e.2) else e) <$> es
  else (name, p, allow) :: es.

(** The death of a service. *)
Definition unregister (name : list Z) (es : list (list Z * Z * bool)) : list (list Z * Z * bool) :=
  (λ e, if decide (e.1.1 = name) then (name, 0, e.2) else e) <$> es.

Lemma set_ptr_addr b p l : (set_ptr b p l).*1 = l.*1.
Proof. unfold set_ptr. rewrite <- list_fmap_compose. apply list_fmap_ext. intros i e _. cbn. by case_decide. Qed.

Lemma set_ptr_names b p l : svc_name <$> (set_ptr b p l).*2 = svc_name <$> l.*2.
Proof. unfold set_ptr. rewrite <- !list_fmap_compose. apply list_fmap_ext. intros i e _. cbn. by case_decide. Qed.

Lemma chain_set_ptr h a l b x p :
  h !! b = Some x → chain h a l → chain (<[b := x <| si_ptr := p |>]> h) a (set_ptr b p l).
Proof.
  intros Hx. revert a. induction l as [|[c y] l IH]; intros a Hc; [done|]. destruct Hc as (-> & Hc0 & Hy & Hc).
  unfold set_ptr in *. rewrite fmap_cons. cbn [fst snd]. destruct (decide (c = b)) as [->|Hne]; cbn [chain].
  - rewrite Hx in Hy. injection Hy as ->. rewrite lookup_insert_eq. split_and!; [done..|]. by apply IH.
  - rewrite lookup_insert_ne by done. split_and!; [done..|]. by apply IH.
Qed.

Lemma registry_set_ptr s l b x p :
  registry s l → (b, x) ∈ l → registry (s <| sv_heap %= <[b := x <| si_ptr := p |>]> |>) (set_ptr b p l).
Proof.
  intros [Hc Hall Hn Hok Hnm] Hin. destruct (chain_lookup _ _ _ _ Hc Hin) as [Hx _]. constructor.
  - by apply chain_set_ptr.
  - intros c y. cbn. unfold set_ptr. intros [[<- <-]|[Hne Hy]]%lookup_insert_Some; apply list_elem_of_fmap.
    + exists (b, x). split; [cbn; by rewrite decide_True|done].
    + exists (c, y). split; [cbn; by rewrite decide_False|by apply Hall].
  - by rewrite set_ptr_addr.
  - unfold set_ptr. apply Forall_fmap. eapply Forall_impl; [exact Hok|]. intros [c y] Hy. cbn. case_decide; [|done].
    destruct Hy as [H1 H2]. by constructor.
  - by rewrite set_ptr_names.
Qed.

(** The entry with an address is the one with its name. *)
Lemma name_address s l b x e : registry s l → (b, x) ∈ l → e ∈ l → e.1 = b ↔ svc_name e.2 = svc_name x.
Proof.
  intros [_ _ Hn _ Hnm] Hx He. apply list_elem_of_lookup in Hx as [i Hi], He as [j Hj]. split; intros E.
  - assert (i = j) as -> by (apply (NoDup_lookup l.*1 _ _ b Hn); rewrite list_lookup_fmap; [by rewrite Hi|rewrite Hj; simpl; by f_equal]).
    rewrite Hi in Hj. by injection Hj as <-.
  - assert (i = j) as ->.
    { apply (NoDup_lookup (svc_name <$> l.*2) _ _ (svc_name x) Hnm); rewrite !list_lookup_fmap; [by rewrite Hi|rewrite Hj; simpl; by f_equal]. }
    rewrite Hi in Hj. by injection Hj as <-.
Qed.

Lemma entries_set_ptr s l b x p :
  registry s l → (b, x) ∈ l →
  entries (set_ptr b p l) = (λ e, if decide (e.1.1 = svc_name x) then (svc_name x, p, e.2) else e) <$> entries l.
Proof.
  intros R Hx. unfold entries, set_ptr. rewrite <- !list_fmap_compose.
  apply Forall_fmap_ext. apply Forall_forall. intros e He. cbn. pose proof (name_address s l b x e R Hx He) as Hiff.
  destruct (decide (e.1 = b)) as [E|E]; destruct (decide (svc_name e.2 = svc_name x)) as [E'|E']; try tauto.
  by rewrite <- E'.
Qed.

Lemma entries_names l : (entries l).*1.*1 = svc_name <$> l.*2.
Proof. unfold entries. rewrite <- !list_fmap_compose. by apply list_fmap_ext. Qed.

Lemma entries_register s l b x p allow :
  registry s l → (b, x) ∈ l → entries (set_ptr b p l) = register (svc_name x) p allow (entries l).
Proof.
  intros R Hx. rewrite (entries_set_ptr s l b x p R Hx). unfold register. rewrite bool_decide_true; [done|].
  rewrite entries_names. apply list_elem_of_fmap. exists x. split; [done|]. apply list_elem_of_fmap. by exists (b, x).
Qed.

(** A new service in front. *)
Lemma chain_insert h a l b x : h !! b = None → chain h a l → chain (<[b := x]> h) a l.
Proof.
  intros Hb. revert a. induction l as [|[c y] l IH]; intros a Hc; [done|]. destruct Hc as (-> & Hc0 & Hy & Hc). cbn [chain].
  rewrite lookup_insert_ne by congruence. split_and!; [done..|]. by apply IH.
Qed.

Lemma registry_cons s l b x :
  registry s l → b ≠ 0 → sv_heap s !! b = None → si_next x = sv_list s → svc_ok x → svc_name x ∉ svc_name <$> l.*2 →
  registry (s <| sv_heap %= <[b := x]> |> <| sv_list := b |>) ((b, x) :: l).
Proof.
  intros [Hc Hall Hn Hok Hnm] Hb Hf Hnx Hx Hname. constructor.
  - cbn. rewrite lookup_insert_eq. split_and!; [done..|]. rewrite Hnx. by apply chain_insert.
  - intros c y. cbn. intros [[<- <-]|[_ Hy]]%lookup_insert_Some; [by left|right; by apply Hall].
  - cbn. constructor; [|done]. intros (e & -> & He)%list_elem_of_fmap.
    destruct (chain_lookup _ _ _ _ Hc He) as [E _]. by rewrite Hf in E.
  - by constructor.
  - cbn. by constructor.
Qed.

End registry_lemmas.
