(* ===== verification/ServiceManagerSpec.v ===== *)
(** The service manager under arbitrary requests: whatever clients send, the
    registry stays well formed, and only users that may do so change it. *)
From S2P Require Import Prelude UserMem BinderUapi BinderIo BinderIoSpec BinderClient ServiceManager SvcRegistry.
Import Bio Client SvcMgr.

Section authority.
Context {D : Type} {DR : Driver D} {FR : Frames}.
Notation SM := (M D svcs).
Implicit Types (st : task D svcs) (l : list (Z * svcinfo)).

(** ** Adding a service *)

(** The state of the program: a well-formed registry, and fresh memory. *)
Record sm_ok st l : Prop := {
  sk_registry : registry (c_app st) l;
  sk_fresh : NoDup (c_fresh st);
  sk_unused : Forall (λ a, a ≠ 0 ∧ sv_heap (c_app st) !! a = None) (c_fresh st)
}.

(** The name of [len] characters at [s]. *)
Definition name_at (m : mem) (s len : Z) (name : list Z) : Prop :=
  Z.of_nat (length name) = len ∧ Forall (λ c, 0 <= c < 2 ^ 16) name ∧ bytes_at s (2 * length name) m = Some (bytes16 name).

Definition same_program st st' : Prop := c_app st' = c_app st ∧ c_fresh st' = c_fresh st.

Lemma sm_ok_same st st' l : same_program st st' → sm_ok st l → sm_ok st' l.
Proof. intros [E1 E2] []. constructor; by rewrite ?E1, ?E2. Qed.

Lemma on_mem_same {R} (m : ST mem R) st r st' : on_mem m st = Ok (r, st') → same_program st st'.
Proof. by intros (x & _ & ->)%on_mem_inv. Qed.

Lemma ioctl_same fd w c n st r st' : ioctl_wr (A := svcs) fd w c n st = Ok (r, st') → same_program st st'.
Proof. unfold ioctl_wr. destruct (ioctl_write_read _ _ _ _ _) as [[r' [m d]]|]; [|done]. by intros [= <- <-]. Qed.

Lemma binder_write_same bs data st r st' : binder_write (A := svcs) bs data st = Ok (r, st') → same_program st st'.
Proof. unfold binder_write. intros (r1 & st1 & E1%ioctl_same & [= <- <-])%st_bind_ok. done. Qed.

Lemma same_program_trans st1 st2 st3 : same_program st1 st2 → same_program st2 st3 → same_program st1 st3.
Proof. intros [H1 H2] [H3 H4]. split; congruence. Qed.

Lemma command_same bs data st st' : (binder_write (A := svcs) bs data ;; mret tt) st = Ok (tt, st') → same_program st st'.
Proof. intros (r & st1 & E1%binder_write_same & [= <-])%st_bind_ok. done. Qed.

(** Writing an entry's handle. *)
Lemma set_ptr_ok st l b x p :
  sm_ok st l → (b, x) ∈ l →
  sm_ok (with_app (c_app st <| sv_heap %= <[b := x <| si_ptr := p |>]> |>) st) (set_ptr b p l).
Proof.
  intros [R Hn Hu] Hin. constructor; [by apply registry_set_ptr|done|]. eapply Forall_impl; [exact Hu|]. intros a [Ha E]. split; [done|].
  cbn. rewrite lookup_insert_ne; [done|]. intros <-. destruct (chain_lookup _ _ _ _ (rg_chain _ _ R) Hin) as [E' _]. cbn in E'. congruence.
Qed.

(** [svcinfo_death] of an entry: its handle is given back, and gone. *)
Lemma svcinfo_death_inv bs b x st st' l :
  sm_ok st l → (b, x) ∈ l → svcinfo_death bs b st = Ok (tt, st') →
  sm_ok st' (set_ptr b 0 l) ∧ c_fresh st' = c_fresh st ∧ sv_heap (c_app st') !! b = Some (x <| si_ptr := 0 |>) ∧
  sv_handle (c_app st') = sv_handle (c_app st).
Proof.
  intros Hs Hin. destruct (chain_lookup _ _ _ _ (rg_chain _ _ (sk_registry _ _ Hs)) Hin) as [Hx Hb]. cbn in Hx, Hb.
  unfold svcinfo_death. rewrite (st_bind_eq _ _ _ _ _ (svc_eq b x st Hx)).
  destruct (Z.eqb_spec (si_ptr x) 0) as [E0|E0]; cbn [negb].
  - intros [= <-]. assert (x <| si_ptr := 0 |> = x) as Ex by (destruct x; cbn in *; by subst).
    rewrite Ex. split; [|done]. assert (set_ptr b 0 l = l) as ->; [|done].
    unfold set_ptr. rewrite <- (list_fmap_id l) at 2. apply Forall_fmap_ext, Forall_forall. intros e He.
    case_decide as Hd; [|done]. apply (name_address _ l b x e (sk_registry _ _ Hs) Hin He) in Hd as Hnm.
    destruct e as [c y]. cbn in *. subst c. destruct (chain_lookup _ _ _ _ (rg_chain _ _ (sk_registry _ _ Hs)) He) as [Hy _].
    cbn in Hy. rewrite Hx in Hy. injection Hy as <-. by rewrite Ex.
  - intros ([] & st1 & [E1 E2]%command_same & H)%st_bind_ok.
    rewrite (set_svc_eq b _ x st1) in H by (by rewrite E1). injection H as <-.
    assert (H1 : sm_ok st1 l) by (apply (sm_ok_same st); done).
    split; [by apply set_ptr_ok|]. cbn. rewrite E1, lookup_insert_eq. done.
Qed.

Lemma words16_ok n bs :
  length bs = (2 * n)%nat → Forall (λ b, 0 <= b < 256) bs →
  bytes16 (words16 bs) = bs ∧ length (words16 bs) = n ∧ Forall (λ c, 0 <= c < 2 ^ 16) (words16 bs).
Proof.
  revert bs. induction n as [|n IH]; intros bs Hl Hr.
  - destruct bs; [|done]. done.
  - destruct bs as [|a [|b bs]]; try (simpl in Hl; lia). inversion Hr as [|?? Ha Hr1]; subst. inversion Hr1 as [|?? Hb Hr2]; subst.
    assert (Hab : Forall (λ b, 0 <= b < 256) [a; b]) by (constructor; [done|]; constructor; [done|constructor]).
    destruct (IH bs) as (E & Hln & Hc); [simpl in Hl; lia|done|]. cbn [words16]. split; [|split].
    + unfold bytes16 in *. rewrite fmap_cons. cbn [concat]. rewrite E.
      pose proof (le_bytes_value [a; b] Hab) as Eab. cbn [length] in Eab. by rewrite Eab.
    + simpl. lia.
    + constructor; [|done]. exact (le_value_range [a; b] Hab).
Qed.

Lemma bytes16_take k s : bytes16 (take k s) = take (2 * k) (bytes16 s).
Proof.
  destruct (decide (k <= length s)%nat) as [Hk|Hk].
  - rewrite <- (take_drop k s) at 2. rewrite bytes16_app. rewrite take_app_le by (rewrite length_bytes16, length_take; lia).
    symmetry. apply firstn_all2. rewrite length_bytes16, length_take. lia.
  - rewrite !firstn_all2; [done|rewrite length_bytes16; lia|lia].
Qed.

Lemma name_not_found l len m s name :
  Forall (λ e, svc_ok e.2) l → name_at m s len name →
  (∀ e, e ∈ l → si_len e.2 = len → bytes_at s (2 * Z.to_nat len) m ≠ Some (bytes16 (svc_name e.2))) →
  name ∉ svc_name <$> l.*2.
Proof.
  intros Hok (H1 & _ & H2) Hno (y & Ey & (e & -> & He)%list_elem_of_fmap)%list_elem_of_fmap.
  pose proof (proj1 (Forall_forall _ _) Hok e He) as Hx. cbn in Hx. destruct (svc_name_length _ Hx) as [Hl _].
  apply (Hno e He); [by rewrite <- Hl, <- Ey|]. rewrite <- Ey, <- H2. do 2 f_equal. lia.
Qed.

Lemma new_svc_inv si s len ptr allow st st' l :
  sm_ok st l → byte_mem (c_mem st) → 0 < len <= 127 → si ≠ 0 → sv_heap (c_app st) !! si = None → si ∉ c_fresh st →
  (∀ e, e ∈ l → si_len e.2 = len → bytes_at s (2 * Z.to_nat len) (c_mem st) ≠ Some (bytes16 (svc_name e.2))) →
  new_svc si s len ptr allow st = Ok (tt, st') →
  ∃ x, sm_ok st' ((si, x) :: l) ∧ si_ptr x = ptr ∧ si_allow_isolated x = allow ∧ name_at (c_mem st) s len (svc_name x) ∧
    c_mem st' = c_mem st ∧ sv_handle (c_app st') = sv_handle (c_app st).
Proof.
  intros [R Hn Hu] Hm Hlen Hsi Hf Hfr Hno. unfold new_svc.
  intros (bs & st1 & (m1 & [E ->]%load_inv & ->)%on_mem_inv & Hrun)%st_bind_ok. injection Hrun as <-.
  pose proof E as [Hbl _]%bytes_at_Some. pose proof (bytes_at_range _ _ _ _ Hm E) as Hbr.
  destruct (words16_ok (Z.to_nat (len + 1)) bs ltac:(lia) Hbr) as (Eb & Hwl & Hwc).
  set (x := mk_svc (sv_list (c_app st)) ptr allow len (take (Z.to_nat len) (words16 bs) ++ [0])). exists x.
  assert (Htl : length (take (Z.to_nat len) (words16 bs)) = Z.to_nat len) by (rewrite length_take; lia).
  assert (Hxn : svc_name x = take (Z.to_nat len) (words16 bs)) by (unfold svc_name, x; cbn [si_len si_name]; by rewrite take_app_length').
  assert (Hat : name_at (c_mem st) s len (svc_name x)).
  { rewrite Hxn. split; [lia|]. split; [by apply Forall_take|]. rewrite Htl, bytes16_take, Eb. apply (bytes_at_take _ (Z.to_nat ((len + 1) * 2))); [lia|done]. }
  split; [|done]. constructor; [|done|].
  - apply (registry_cons _ l si x R Hsi Hf eq_refl).
    + constructor; [exact Hlen|]. eexists. split; [done|]. split; [change (si_len x) with len; lia|by apply Forall_take].
    + eapply name_not_found; [apply R|exact Hat|exact Hno].
  - apply Forall_forall. intros a Ha. pose proof (proj1 (Forall_forall _ _) Hu a Ha) as [Ha0 Ea]. split; [done|]. cbn.
    rewrite lookup_insert_ne; [done|]. by intros ->.
Qed.

Lemma str8_loop_same k x m r m' : str8_loop k x m = Ok (r, m') → m' = m.
Proof.
  revert x r m'. induction k as [|k IH]; intros x r m'; cbn [str8_loop];
    intros (c & m1 & (bs & m2 & [_ ->]%load_inv & [= _ <-])%st_bind_ok & H)%st_bind_ok.
  - destruct (c =? 0); by injection H.
  - destruct (c =? 0); [by injection H|]. apply st_bind_ok in H as (l & m3 & ->%IH & [= _ <-]). done.
Qed.

Lemma str8_same x st r st' : on_mem (D := D) (A := svcs) (str8 x) st = Ok (r, st') → st' = st.
Proof.
  intros (m & E & ->)%on_mem_inv. unfold str8 in E. assert (m = c_mem st) as ->; [|by destruct st].
  destruct (x =? 0); [by injection E|by apply str8_loop_same in E].
Qed.

(** What [do_add_service] records: nothing, or a registration. *)
Definition added (st : task D svcs) l s len ptr uid allow ret l' : Prop :=
  (ret = -1 ∧ l' = l) ∨
  (ret = 0 ∧ ptr ≠ 0 ∧ 0 < len <= 127 ∧ permitted uid s (c_mem st) ∧
   ∃ name, name_at (c_mem st) s len name ∧ entries l' = register name ptr allow (entries l)).

Lemma sm_ok_malloc st l a st' :
  sm_ok st l → malloc st = Ok (a, st') → c_mem st' = c_mem st ∧ c_app st' = c_app st ∧ sm_ok st' l ∧
    (a = 0 ∨ a ≠ 0 ∧ sv_heap (c_app st) !! a = None ∧ a ∉ c_fresh st').
Proof.
  intros [R Hn Hu]. unfold malloc. destruct (c_fresh st) as [|b fl] eqn:Ef.
  - intros [= <- <-]. split_and!; [done|done|constructor; [done|by rewrite Ef; constructor|by rewrite Ef; constructor]|by left].
  - intros [= <- <-]. cbn. inversion Hn as [|?? Hb Hn']; subst. inversion Hu as [|?? [Hb0 Hbh] Hu']; subst.
    split_and!; [done|done|by constructor|right; done].
Qed.

(** The name is there already. *)
Lemma add_old_inv bs s ptr si x st st' r l :
  sm_ok st l → (si, x) ∈ l →
  (x ← svc si;
   (if negb (si_ptr x =? 0) then on_mem (str8 s) ;; svcinfo_death bs si else mret tt) ;;
   set_svc si (λ x, x <| si_ptr := ptr |>) ;; mret si) st = Ok (r, st') →
  r = si ∧ sm_ok st' (set_ptr si ptr l) ∧ sv_handle (c_app st') = sv_handle (c_app st).
Proof.
  intros Hs Hin. destruct (chain_lookup _ _ _ _ (rg_chain _ _ (sk_registry _ _ Hs)) Hin) as [Hx Hb]. cbn in Hx, Hb.
  rewrite (st_bind_eq _ _ _ _ _ (svc_eq si x st Hx)). intros (u & st1 & E1 & E2)%st_bind_ok.
  assert (H1 : ∃ p, sm_ok st1 (set_ptr si p l) ∧ sv_heap (c_app st1) !! si = Some (x <| si_ptr := p |>) ∧ sv_handle (c_app st1) = sv_handle (c_app st)).
  { destruct (negb (si_ptr x =? 0)).
    - apply st_bind_ok in E1 as (t & st0 & ->%str8_same & E1). destruct u.
      destruct (svcinfo_death_inv bs si x st st1 l Hs Hin E1) as (H0 & _ & Hh & Hg). by exists 0.
    - injection E1 as <- <-. exists (si_ptr x). pose proof (set_ptr_ok st l si x (si_ptr x) Hs Hin) as H0.
      assert (Ex : x <| si_ptr := si_ptr x |> = x) by (by destruct x). rewrite Ex in *.
      assert (Est : with_app (c_app st <| sv_heap %= <[si:=x]> |>) st = st).
      { unfold with_app, update, field_sv_heap. rewrite insert_id by done. by destruct st as [? ? [] ?]. }
      rewrite Est in H0. done. }
  destruct H1 as (p & H1 & Hh & Hg). apply st_bind_ok in E2 as ([] & st2 & E2 & [= <- <-]).
  rewrite (set_svc_eq si _ _ st1 Hh) in E2. injection E2 as <-.
  assert (Hin1 : (si, x <| si_ptr := p |>) ∈ set_ptr si p l).
  { unfold set_ptr. apply list_elem_of_fmap. exists (si, x). split; [|done]. cbn. by rewrite decide_True. }
  pose proof (set_ptr_ok st1 (set_ptr si p l) si _ ptr H1 Hin1) as H2.
  assert (Est : set_ptr si ptr (set_ptr si p l) = set_ptr si ptr l).
  { unfold set_ptr. rewrite <- list_fmap_compose. apply list_fmap_ext. intros i [c y] _. unfold compose. cbn [fst snd].
    destruct (decide (c = si)) as [->|]; cbn [fst snd]; [by rewrite decide_True|by rewrite decide_False]. }
  rewrite Est in H2. split; [done|]. split; [exact H2|exact Hg].
Qed.

Lemma name_of_found l si x len m s :
  (si, x) ∈ l → Forall (λ e, svc_ok e.2) l → si_len x = len → bytes_at s (2 * Z.to_nat len) m = Some (bytes16 (svc_name x)) →
  name_at m s len (svc_name x).
Proof.
  intros Hin Hok Hl E. pose proof (proj1 (Forall_forall _ _) Hok _ Hin) as Hx. cbn in Hx.
  destruct (svc_name_length x Hx) as [Hn Hc]. split; [lia|]. split; [done|]. by replace (length (svc_name x)) with (Z.to_nat len) by lia.
Qed.

Lemma commands_same bs ptr death (st : task D svcs) ret st' :
  (binder_acquire bs ptr ;; binder_link_to_death bs ptr death ;; mret 0) st = Ok (ret, st') → ret = 0 ∧ same_program st st'.
Proof.
  intros ([] & st1 & E1%command_same & ([] & st2 & E2%command_same & [= <- <-])%st_bind_ok)%st_bind_ok.
  split; [done|]. by eapply same_program_trans.
Qed.

Lemma do_add_service_inv bs s len ptr uid allow st st' ret l :
  sm_ok st l → byte_mem (c_mem st) → 0 <= len → do_add_service bs s len ptr uid allow st = Ok (ret, st') →
  ∃ l', sm_ok st' l' ∧ added st l s len ptr uid allow ret l' ∧ sv_handle (c_app st') = sv_handle (c_app st).
Proof.
  intros Hs Hm Hlen0. unfold do_add_service. destruct ((ptr =? 0) || (len =? 0) || (len >? 127)) eqn:Hbad.
  { intros [= <- <-]. exists l. split; [done|]. split; [by left|done]. }
  apply orb_false_elim in Hbad as [[Hp Hl0]%orb_false_elim Hl1]. apply Z.eqb_neq in Hp, Hl0.
  rewrite Z.gtb_ltb in Hl1. apply Z.ltb_ge in Hl1.
  intros (can & st1 & (m1 & Ec & ->)%on_mem_inv & E)%st_bind_ok.
  destruct (svc_can_register_inv _ _ _ _ _ Hm Ec) as [-> Hcan].
  replace (with_mem (c_mem st) st) with st in E by (by destruct st). destruct can; cbn [negb] in E.
  2:{ apply st_bind_ok in E as (t & st1 & ->%str8_same & [= <- <-]). exists l. split; [done|]. split; [by left|done]. }
  apply st_bind_ok in E as (si & st1 & E1 & E). rewrite (find_svc_eq l s len st (sk_registry _ _ Hs)) in E1.
  destruct (find_result l len _) as [a|] eqn:Ef; [|done]. injection E1 as <- <-.
  apply find_result_inv in Ef; [|apply (sk_registry _ _ Hs)]. apply st_bind_ok in E as (r & st2 & E1 & E2).
  destruct Ef as [(x & Hin & Hxl & Hxb)|[-> Hno]].
  - destruct (chain_lookup _ _ _ _ (rg_chain _ _ (sk_registry _ _ Hs)) Hin) as [_ Hb]. cbn in Hb.
    apply Z.eqb_neq in Hb as Hb'. rewrite Hb' in E1. cbn [negb] in E1.
    destruct (add_old_inv bs s ptr a x st st2 r l Hs Hin E1) as (-> & H2 & Hg). rewrite Hb' in E2.
    apply commands_same in E2 as [-> Hsame]. exists (set_ptr a ptr l). split; [by eapply sm_ok_same|].
    assert (Hnat : name_at (c_mem st) s len (svc_name x)) by (eapply name_of_found; [done| |done..]; apply (sk_registry _ _ Hs)).
    pose proof (proj1 (Forall_forall _ _) (rg_ok _ _ (sk_registry _ _ Hs)) _ Hin) as [Hlen _].
    split; [right|by rewrite (proj1 Hsame)]. split_and!; [done|done|cbn in Hlen; lia|done|by apply Hcan|].
    exists (svc_name x). split; [done|]. by eapply entries_register; [apply (sk_registry _ _ Hs)|].
  - cbn [negb Z.eqb] in E1. apply st_bind_ok in E1 as (si & st1 & Em & E1).
    destruct (sm_ok_malloc st l si st1 Hs Em) as (Hm1 & Ha1 & Hs1 & Hsi).
    destruct Hsi as [->|(Hsi & Hfree & Hfr)]; cbn [Z.eqb] in E1.
    { apply st_bind_ok in E1 as (t & st3 & ->%str8_same & [= <- <-]). injection E2 as <- <-.
      exists l. split; [done|]. split; [by left|by rewrite Ha1]. }
    apply Z.eqb_neq in Hsi as Hsi'. rewrite Hsi' in E1. apply st_bind_ok in E1 as ([] & st3 & E1 & [= <- <-]). rewrite Hsi' in E2.
    rewrite <- Hm1 in Hm, Hno. rewrite <- Ha1 in Hfree.
    destruct (new_svc_inv si s len ptr allow st1 st3 l Hs1 Hm ltac:(lia) Hsi Hfree Hfr Hno E1) as (x & H3 & Hxp & Hxa & Hat & Hm3 & Hg).
    apply commands_same in E2 as [-> Hsame]. exists ((si, x) :: l). split; [by eapply sm_ok_same|].
    split; [right|by rewrite (proj1 Hsame), Hg, Ha1]. split_and!; [done|done|lia|lia|by apply Hcan|].
    exists (svc_name x). rewrite Hm1 in Hat. split; [done|]. unfold register. rewrite bool_decide_false.
    + cbn. unfold entry_of. by rewrite Hxp, Hxa.
    + rewrite entries_names. rewrite Hm1 in Hno. eapply name_not_found; [apply (sk_registry _ _ Hs)|exact Hat|exact Hno].
Qed.

(** ** Reading requests *)

Lemma load32_inv a m x m' : byte_mem m → load32 a m = Ok (x, m') → m' = m ∧ 0 <= x.
Proof.
  intros Hm. unfold load32. intros (bs & m1 & [E ->]%load_inv & [= <- <-])%st_bind_ok. split; [done|].
  apply (le_value_range bs), (bytes_at_range m a 4); done.
Qed.

Lemma get_uint32_inv bio m n bio' m' : byte_mem m → bio_get_uint32 bio m = Ok ((n, bio'), m') → m' = m ∧ 0 <= n.
Proof.
  intros Hm. unfold bio_get_uint32. destruct (bio_get bio 4) as [ptr b]. destruct (negb (ptr =? 0)).
  - intros (x & m1 & E & [= <- <- <-])%st_bind_ok. by apply (load32_inv ptr).
  - by intros [= <- <- <-].
Qed.

Lemma get_string16_inv bio m s len bio' m' : byte_mem m → bio_get_string16 bio m = Ok ((s, len, bio'), m') → m' = m ∧ 0 <= len.
Proof.
  intros Hm. unfold bio_get_string16. intros ([n b] & m1 & E & H)%st_bind_ok. apply get_uint32_inv in E as [-> Hn]; [|done].
  destruct (bio_get b _) as [ptr b']. by injection H as <- <- <- <-.
Qed.

Lemma find_offset_inv offs n off m r m' : find_offset offs n off m = Ok (r, m') → m' = m.
Proof.
  revert offs. induction n as [|n IH]; intros offs; cbn [find_offset]; [by intros [= _ <-]|].
  intros (o & m1 & (bs & m2 & [_ ->]%load_inv & [= _ <-])%st_bind_ok & H)%st_bind_ok.
  destruct (o =? off); [by injection H as _ <-|by apply IH in H].
Qed.

Lemma get_ref_inv bio m r m' : bio_get_ref bio m = Ok (r, m') → m' = m.
Proof.
  unfold bio_get_ref. intros ([o b] & m1 & E & H)%st_bind_ok. unfold bio_get_obj in E.
  apply st_bind_ok in E as (found & m2 & ->%find_offset_inv & E). assert (m1 = m) as -> by (destruct found; by injection E).
  destruct (o =? 0); [by injection H|]. by apply st_bind_ok in H as (bs & m2 & [_ ->]%load_inv & [= _ <-]).
Qed.

(** Where the characters of the name are that a request carries: in the second
    string of the message, behind the policy and the identifier. *)
Definition name_sent (m : mem) (msg : binder_io) (s len : Z) : Prop :=
  ∃ policy b id id_len b2 b3, bio_get_uint32 msg m = Ok ((policy, b), m) ∧
    bio_get_string16 b m = Ok ((id, id_len, b2), m) ∧ bio_get_string16 b2 m = Ok ((s, len, b3), m).

(** The sender of the request may register the name in it: root and the system any
    name, the users of the table their names, which are compared with the
    characters of the message up to a NUL. *)
Definition granted (m : mem) (txn : binder_txn) (msg : binder_io) (name : list Z) : Prop :=
  ∃ s len, name_sent m msg s len ∧ name_at m s len name ∧ permitted (txn_sender_euid txn) s m ∧
    (plain name → cstr16 m s name → may (txn_sender_euid txn) name = true).

(** For a name that ends where its length says, these are the names of the user. *)
Lemma permitted_may uid s m t : permitted uid s m → plain t → cstr16 m s t → may uid t = true.
Proof.
  unfold may. intros [->|[->|(t' & Ht & Hs')]] Hp Hs; [done..|]. apply orb_true_iff. right.
  pose proof (proj1 (Forall_forall _ _) allowed_plain _ Ht) as Hp'. cbn in Hp'.
  pose proof (str16eq_eq s t' m t Hp Hp' Hs) as E1. rewrite (str16eq_eq s t' m t' Hp' Hp' Hs'), bool_decide_true in E1 by done.
  injection E1 as E1. symmetry in E1. apply bool_decide_eq_true in E1 as ->. by apply bool_decide_eq_true.
Qed.

(** ** Requests *)

(** What a request did to the registry of [l]. *)
Definition request_effect (m : mem) (txn : binder_txn) (msg : binder_io) (handle ret : Z) l l' : Prop :=
  entries l' = entries l ∨
  (ret = 0 ∧ txn_target txn = handle ∧ txn_code txn = SVC_MGR_ADD_SERVICE ∧
   ∃ name ptr allow, ptr ≠ 0 ∧ (0 < length name <= 127)%nat ∧ granted m txn msg name ∧
     entries l' = register name ptr allow (entries l)).

Lemma on_mem_unchanged {R} (m : ST mem R) st r st' :
  on_mem m st = Ok (r, st') → (∀ r x, m (c_mem st) = Ok (r, x) → x = c_mem st) → st' = st ∧ m (c_mem st) = Ok (r, c_mem st).
Proof. intros (x & E & ->)%on_mem_inv H. pose proof (H _ _ E) as ->. split; [by destruct st|done]. Qed.

Lemma reply_same {R} (m : ST mem R) (f : R → Z * binder_io) (st : task D svcs) r st' :
  (x ← on_mem m; mret (f x)) st = Ok (r, st') → same_program st st'.
Proof. by intros (x & st1 & E%on_mem_same & [= _ <-])%st_bind_ok. Qed.

Lemma do_find_service_same s len uid st r st' l :
  sm_ok st l → do_find_service s len uid st = Ok (r, st') → st' = st.
Proof.
  intros Hs. unfold do_find_service. intros (si & st1 & E & H)%st_bind_ok. rewrite (find_svc_eq l s len st (sk_registry _ _ Hs)) in E.
  destruct (find_result l len _) as [a|] eqn:Ef; [|done]. injection E as <- <-.
  destruct (a =? 0); [by injection H|]. apply st_bind_ok in H as (x & st2 & [_ ->]%svc_inv & H).
  destruct (si_ptr x =? 0); [by injection H|]. destruct (negb (si_allow_isolated x) && isolated uid); by injection H.
Qed.

Lemma get_service_inv txn msg reply st r st' l :
  sm_ok st l → byte_mem (c_mem st) → get_service txn msg reply st = Ok (r, st') → same_program st st'.
Proof.
  intros Hs Hm. unfold get_service. intros ([[s len] b] & st1 & E & H)%st_bind_ok.
  apply on_mem_unchanged in E as [-> _]; [|intros [[??]?] x ?; by eapply get_string16_inv].
  apply st_bind_ok in H as (ptr & st1 & ->%(do_find_service_same _ _ _ _ _ _ l) & H); [|done].
  destruct (ptr =? 0); by apply reply_same in H.
Qed.

Lemma skip_svcs_same fuel n si st r st' : skip_svcs fuel n si st = Ok (r, st') → st' = st.
Proof.
  revert n si. induction fuel as [|fuel IH]; intros n si; cbn [skip_svcs]; destruct ((n >? 0) && negb (si =? 0)); try by intros [=].
  intros (x & st1 & [_ ->]%svc_inv & H)%st_bind_ok. by apply IH in H.
Qed.

Lemma list_services_inv msg reply (st : task D svcs) r st' :
  byte_mem (c_mem st) → list_services msg reply st = Ok (r, st') → same_program st st'.
Proof.
  intros Hm. unfold list_services. intros ([n b] & st1 & E & H)%st_bind_ok.
  apply on_mem_unchanged in E as [-> _]; [|intros [??] x ?; by eapply get_uint32_inv].
  rewrite (st_bind_eq _ _ _ _ _ (get_app st)) in H. apply st_bind_ok in H as (si & st1 & ->%skip_svcs_same & H).
  destruct (negb (si =? 0)); [|by injection H as _ <-]. apply st_bind_ok in H as (x & st1 & [_ ->]%svc_inv & H).
  by apply reply_same in H.
Qed.

Lemma add_service_inv bs txn msg0 msg reply st ret rep st' l policy b id id_len :
  sm_ok st l → byte_mem (c_mem st) →
  bio_get_uint32 msg0 (c_mem st) = Ok ((policy, b), c_mem st) → bio_get_string16 b (c_mem st) = Ok ((id, id_len, msg), c_mem st) →
  add_service bs txn msg reply st = Ok ((ret, rep), st') →
  ∃ l', sm_ok st' l' ∧ sv_handle (c_app st') = sv_handle (c_app st) ∧
    (entries l' = entries l ∨
     (ret = 0 ∧ ∃ name ptr allow, ptr ≠ 0 ∧ (0 < length name <= 127)%nat ∧ granted (c_mem st) txn msg0 name ∧
       entries l' = register name ptr allow (entries l))).
Proof.
  intros Hs Hm Ep Eid. unfold add_service. intros ([[s len] b'] & st1 & E & H)%st_bind_ok.
  apply on_mem_unchanged in E as [-> Ename]; [|intros [[??]?] x ?; by eapply get_string16_inv].
  pose proof Ename as Hlen. apply get_string16_inv in Hlen as [_ Hlen]; [|done].
  apply st_bind_ok in H as ([ptr b2] & st1 & E & H). apply on_mem_unchanged in E as [-> _]; [|intros r x; apply get_ref_inv].
  apply st_bind_ok in H as ([n b3] & st1 & E & H). apply on_mem_unchanged in E as [-> _]; [|intros [??] x ?; by eapply get_uint32_inv].
  apply st_bind_ok in H as (err & st1 & E & H).
  destruct (do_add_service_inv _ _ _ _ _ _ _ _ _ l Hs Hm Hlen E) as (l' & H1 & Ha & Hg). exists l'.
  destruct Ha as [[-> ->]|(-> & Hp & Hl & Hpm & name & Hat & Eq)]; cbn [Z.eqb negb] in H.
  - injection H as <- <- <-. by auto.
  - apply st_bind_ok in H as (rep1 & st2 & Hsame%on_mem_same & [= <- <- <-]).
    split; [by eapply sm_ok_same|]. split; [by rewrite (proj1 Hsame)|]. right. split; [done|]. exists name, ptr, (negb (n =? 0)).
    split; [done|]. pose proof Hat as (Hn & _). split; [lia|]. split; [|done]. exists s, len. split; [by repeat eexists|].
    split_and!; [done..|]. by apply permitted_may.
Qed.

Lemma svcmgr_handler_inv bs txn msg reply st ret rep st' l :
  sm_ok st l → byte_mem (c_mem st) → svcmgr_handler bs txn msg reply st = Ok ((ret, rep), st') →
  ∃ l', sm_ok st' l' ∧ request_effect (c_mem st) txn msg (sv_handle (c_app st)) ret l l'.
Proof.
  intros Hs Hm. unfold svcmgr_handler. intros (g & st1 & E & H)%st_bind_ok.
  assert (g = sv_handle (c_app st) ∧ st1 = st) as [-> ->] by (injection E as <- <-; by destruct st).
  assert (Hsame : ∀ st2, same_program st st2 → ∃ l', sm_ok st2 l' ∧ request_effect (c_mem st) txn msg (sv_handle (c_app st)) ret l l').
  { intros st2 Hst. exists l. split; [by apply (sm_ok_same st)|by left]. }
  destruct (Z.eqb_spec (txn_target txn) (sv_handle (c_app st))) as [Ht|Ht]; cbn [negb] in H; [|injection H as <- <- <-; by apply Hsame].
  apply st_bind_ok in H as ([n b] & st1 & E1 & H). apply on_mem_unchanged in E1 as [-> Ep]; [|intros [??] x ?; by eapply get_uint32_inv].
  apply st_bind_ok in H as ([[s len] b2] & st1 & E1 & H). apply on_mem_unchanged in E1 as [-> Eid]; [|intros [[??]?] x ?; by eapply get_string16_inv].
  apply st_bind_ok in H as (same & st1 & E1 & H).
  assert (st1 = st) as ->.
  { destruct (negb _); [by injection E1|]. rewrite mem_equal_eq in E1. destruct (bytes_at s _ _); [by injection E1|done]. }
  destruct same; cbn [negb] in H.
  2:{ apply st_bind_ok in H as (t & st1 & ->%str8_same & [= <- <- <-]). by apply Hsame. }
  unfold dispatch in H. destruct (_ || _); [apply (get_service_inv _ _ _ _ _ _ l) in H; [by apply Hsame|done..]|].
  destruct (Z.eqb_spec (txn_code txn) SVC_MGR_ADD_SERVICE) as [Hc|Hc].
  - destruct (add_service_inv _ _ _ _ _ _ _ _ _ _ _ _ _ _ Hs Hm Ep Eid H) as (l' & H' & _ & [Eq|(-> & Hadd)]); exists l'; (split; [done|]); [by left|by right].
  - destruct (txn_code txn =? SVC_MGR_LIST_SERVICES); [apply list_services_inv in H; [by apply Hsame|done]|].
    injection H as <- <- <-. by apply Hsame.
Qed.

Lemma call_death_inv bs death st st' l :
  sm_ok st l → call_death bs death st = Ok (tt, st') →
  ∃ name l', sm_ok st' l' ∧ entries l' = unregister name (entries l) ∧ sv_handle (c_app st') = sv_handle (c_app st).
Proof.
  intros Hs E. unfold call_death in E. pose proof E as E0. unfold svcinfo_death in E0.
  apply st_bind_ok in E0 as (x & st1 & [Hx _]%svc_inv & _). pose proof (sk_registry _ _ Hs) as R.
  pose proof (rg_all _ _ R _ _ Hx) as Hin. destruct (svcinfo_death_inv _ _ _ _ _ _ Hs Hin E) as (H' & _ & _ & Hg).
  exists (svc_name x), (set_ptr (death - death_offset) 0 l). split; [done|]. split; [by apply (entries_set_ptr (c_app st))|done].
Qed.

(** ** Runs of the server: requests, deaths, and what happens to its memory
    in between (messages arrive, the stack is reused) *)

(** A request comes with the memory that it is served in. *)
Inductive event : Type :=
| E_request (m : mem) (txn : binder_txn) (msg reply : binder_io)
| E_death (death : Z)
| E_memory (m : mem) (d : D).

Inductive sm_run (bs : binder_state) : list event → task D svcs → task D svcs → Prop :=
| sm_start st : sm_run bs [] st st
| sm_request h st st1 st2 txn msg reply r :
    sm_run bs h st st1 → byte_mem (c_mem st1) → svcmgr_handler bs txn msg reply st1 = Ok (r, st2) →
    sm_run bs (E_request (c_mem st1) txn msg reply :: h) st st2
| sm_death h st st1 st2 death :
    sm_run bs h st st1 → call_death bs death st1 = Ok (tt, st2) → sm_run bs (E_death death :: h) st st2
| sm_memory h st st1 m d :
    sm_run bs h st st1 → sm_run bs (E_memory m d :: h) st (mk_task m d (c_app st1) (c_fresh st1)).

(** A name that was sent in the run [h] by somebody who may register it. *)
Definition authorized (h : list event) (name : list Z) : Prop :=
  ∃ m txn msg reply, E_request m txn msg reply ∈ h ∧ txn_code txn = SVC_MGR_ADD_SERVICE ∧ granted m txn msg name.

Lemma authorized_cons e h name : authorized h name → authorized (e :: h) name.
Proof. intros (m & txn & msg & reply & Hin & H). exists m, txn, msg, reply. split; [by right|done]. Qed.

Lemma register_in e name p allow es : e ∈ register name p allow es → e.1.1 = name ∨ ∃ e', e' ∈ es ∧ e'.1.1 = e.1.1.
Proof.
  unfold register. case_bool_decide.
  - intros (e' & -> & He)%list_elem_of_fmap. case_decide; [by left|right; by exists e'].
  - intros [->|He]%elem_of_cons; [by left|right; by exists e].
Qed.

Lemma unregister_in e name es : e ∈ unregister name es → ∃ e', e' ∈ es ∧ e'.1.1 = e.1.1.
Proof. intros (e' & -> & He)%list_elem_of_fmap. exists e'. split; [done|]. by case_decide. Qed.

(** C12: whatever clients send, the registry stays well formed, with each name
    once, and the name of every entry is one that a request to add a service
    carried, from a sender that [svc_can_register] lets pass: root, the system, or
    a user of the table with one of its names at that place of the message, up to
    a NUL.  When the name ends with the NUL behind its last character, as every
    proper message says it, it is itself a name that this user may register;
    otherwise it may be a part of one, or one with a NUL and more behind it
    ([prefix_registered]). *)
Theorem registry_authority bs h st st' :
  sm_run bs h st st' → sm_ok st [] →
  ∃ l, sm_ok st' l ∧ ∀ e, e ∈ entries l → authorized h e.1.1.
Proof.
  intros Hr H0. induction Hr as [st|h st st1 st2 txn msg reply [ret rep] _ IH Hm E|h st st1 st2 death _ IH E|h st st1 m d _ IH].
  - exists []. split; [done|]. by intros e ?%not_elem_of_nil.
  - destruct (IH H0) as (l & Hl & Ha). destruct (svcmgr_handler_inv _ _ _ _ _ _ _ _ _ Hl Hm E) as (l' & Hl' & He). exists l'. split; [done|].
    destruct He as [->|(_ & _ & Hc & name & p & allow & _ & _ & Hmay & ->)]; intros e Hin; [by apply authorized_cons, Ha|].
    apply register_in in Hin as [->|(e' & Hin & <-)]; [|by apply authorized_cons, Ha]. exists (c_mem st1), txn, msg, reply. split; [by left|done].
  - destruct (IH H0) as (l & Hl & Ha). destruct (call_death_inv _ _ _ _ _ Hl E) as (name & l' & Hl' & He & _). exists l'. split; [done|].
    intros e Hin. rewrite He in Hin. apply unregister_in in Hin as (e' & Hin & <-). by apply authorized_cons, Ha.
  - destruct (IH H0) as (l & [R Hn Hu] & Ha). exists l. split; [by constructor|]. intros e Hin. by apply authorized_cons, Ha.
Qed.

End authority.
