(* ===== verification/ServiceManagerAnswers.v ===== *)
(** The service manager under well-formed requests: what it answers, and what it
    records. *)
From S2P Require Import Prelude UserMem BinderUapi BinderIo BinderIoSpec BinderClient ServiceManager SvcRegistry ServiceManagerSpec.
Import Bio Client SvcMgr.

Section answers.
Context {D : Type} {DR : Driver D} {FR : Frames}.
Notation SM := (M D svcs).
Implicit Types (st : task D svcs) (l : list (Z * svcinfo)).

(** ** Answers to well-formed requests *)

(** The commands on references; a driver in a state [I] takes them without
    touching the memory of the process, and stays in such a state. *)
Inductive ref_command : list Z → Prop :=
| rc_acquire p : ref_command [BC_ACQUIRE; p]
| rc_release p : ref_command [BC_RELEASE; p]
| rc_death p c : ref_command [BC_REQUEST_DEATH_NOTIFICATION; p; c].

Class QuietCommands (I : D → Prop) : Prop :=
  quiet_command fd cmd m d : ref_command cmd → I d → ∃ r d', ioctl_write_read fd (words cmd) 0 0 (m, d) = Ok (r, (m, d')) ∧ I d'.

Context (I : D → Prop) {QC : QuietCommands I}.

(** The memory is as it was, and the driver still takes commands. *)
Definition quiet (st st' : task D svcs) : Prop := c_mem st' = c_mem st ∧ I (c_drv st').

Lemma command_ok bs cmd st :
  ref_command cmd → I (c_drv st) → ∃ st', (binder_write bs (words cmd) ;; mret tt) st = Ok (tt, st') ∧ quiet st st' ∧ same_program st st'.
Proof.
  intros Hc Hi. destruct (quiet_command (bs_fd bs) cmd (c_mem st) (c_drv st) Hc Hi) as (r & d' & E & Hi').
  exists (mk_task (c_mem st) d' (c_app st) (c_fresh st)). split; [|done].
  unfold binder_write, ioctl_wr, mbind, st_bind. by rewrite E.
Qed.

Lemma str8_loop_total k x m t : plain t → cstr16 m x t → ∃ r, str8_loop k x m = Ok (r, m).
Proof.
  intros Ht. revert k x. induction Ht as [|c t Hc _ IH]; intros k x Hs.
  - assert (E : load16 x m = Ok (0, m)) by (by apply load16_word). destruct k; cbn [str8_loop]; rewrite (st_bind_eq _ _ _ _ _ E); eauto.
  - destruct (cstr16_tail m x c t Hc Hs) as [E Hs']. destruct k as [|k]; cbn [str8_loop]; rewrite (st_bind_eq _ _ _ _ _ E);
      rewrite (proj2 (Z.eqb_neq c 0)) by lia; [eauto|]. destruct (IH k (x + 2) Hs') as [r Er]. rewrite (st_bind_eq _ _ _ _ _ Er). eauto.
Qed.

Lemma str8_ok x t st : plain t → cstr16 (c_mem st) x t → ∃ r, on_mem (str8 x) st = Ok (r, st).
Proof.
  intros Ht Hs. unfold str8. destruct (x =? 0).
  - exists []. by apply on_mem_read.
  - destruct (str8_loop_total 127 x (c_mem st) t Ht Hs) as [r E]. exists r. by apply on_mem_read.
Qed.

Lemma set_svc_ok si f x st : sv_heap (c_app st) !! si = Some x →
  ∃ st', set_svc si f st = Ok (tt, st') ∧ c_mem st' = c_mem st ∧ c_drv st' = c_drv st.
Proof. intros E. rewrite (set_svc_eq si f x st E). eauto. Qed.

Lemma svcinfo_death_ok bs si x st :
  sv_heap (c_app st) !! si = Some x → I (c_drv st) →
  ∃ st' y, svcinfo_death bs si st = Ok (tt, st') ∧ quiet st st' ∧ sv_heap (c_app st') !! si = Some y.
Proof.
  intros Hx Hi. unfold svcinfo_death. rewrite (st_bind_eq _ _ _ _ _ (svc_eq si x st Hx)). destruct (negb (si_ptr x =? 0)).
  - destruct (command_ok bs [BC_RELEASE; si_ptr x] st (rc_release _) Hi) as (st1 & E1 & [Hm H1] & Hsame).
    unfold binder_release. rewrite (st_bind_eq _ _ _ _ _ E1). destruct Hsame as [Ha _]. rewrite <- Ha in Hx.
    rewrite (set_svc_eq si _ x st1 Hx). eexists _, _. split; [reflexivity|]. split; [done|]. cbn. apply lookup_insert_eq.
  - exists st, x. by split.
Qed.

Lemma commands_ok bs ptr death st :
  I (c_drv st) → ∃ st', (binder_acquire bs ptr ;; binder_link_to_death bs ptr death ;; mret 0) st = Ok (0, st') ∧ quiet st st'.
Proof.
  intros Hi. destruct (command_ok bs _ st (rc_acquire ptr) Hi) as (st1 & E1 & [Hm1 H1] & _).
  destruct (command_ok bs _ st1 (rc_death ptr death) H1) as (st2 & E2 & [Hm2 H2] & _). exists st2.
  unfold binder_acquire, binder_link_to_death. rewrite (st_bind_eq _ _ _ _ _ E1), (st_bind_eq _ _ _ _ _ E2).
  split; [done|]. split; [congruence|done].
Qed.

(** A plain name of [len] characters at [s]. *)
Definition name_arg (m : mem) (s len : Z) (name : list Z) : Prop :=
  Z.of_nat (length name) = len ∧ plain name ∧ cstr16 m s name.

Lemma name_arg_bytes m s len name :
  name_arg m s len name → bytes_at s (2 * Z.to_nat len) m = Some (bytes16 name) ∧ Forall (λ c, 0 <= c < 2 ^ 16) name.
Proof.
  intros (Hl & Hp & Hs). split; [|eapply Forall_impl; [exact Hp|]; simpl; lia].
  apply (bytes_at_take _ _ (2 * Z.to_nat len)) in Hs; [|lia]. rewrite Hs. f_equal. rewrite bytes16_app.
  rewrite take_app_le by (rewrite length_bytes16; lia). apply firstn_all2. rewrite length_bytes16. lia.
Qed.

Lemma find_svc_name l s len name st :
  registry (c_app st) l → name_arg (c_mem st) s len name →
  find_svc s len st = Ok (default 0 (fst <$> find_entry name l), st).
Proof.
  intros R Hn. pose proof (name_arg_bytes _ _ _ _ Hn) as [Hb Hc]. rewrite (find_svc_eq l s len st R), Hb.
  destruct Hn as [<- _]. rewrite (find_result_name l name); [done|apply R|done].
Qed.

Lemma find_entry_in name l e : find_entry name l = Some e → e ∈ l ∧ svc_name e.2 = name.
Proof.
  unfold find_entry. destruct (filter _ l) as [|e' l'] eqn:E; [done|]. intros [= <-].
  assert (He : e' ∈ e' :: l') by by left. rewrite <- E in He. by apply list_elem_of_filter in He as [? ?].
Qed.

Lemma do_add_service_ok bs s len ptr uid allow name st l :
  sm_ok st l → I (c_drv st) → name_arg (c_mem st) s len name → ptr ≠ 0 → 0 < len <= 127 → may uid name = true → c_fresh st ≠ [] →
  ∃ st', do_add_service bs s len ptr uid allow st = Ok (0, st') ∧ quiet st st'.
Proof.
  intros Hs Hi Hn Hp Hl Hmay Hf. pose proof Hn as (Hnl & Hpl & Hcs). unfold do_add_service.
  replace ((ptr =? 0) || (len =? 0) || (len >? 127)) with false.
  2:{ symmetry. rewrite Z.gtb_ltb. apply orb_false_intro; [apply orb_false_intro; by apply Z.eqb_neq; lia|apply Z.ltb_ge; lia]. }
  rewrite (st_bind_eq _ _ _ _ _ (on_mem_read _ st _ (svc_can_register_eq uid s _ name Hpl Hcs))), Hmay. cbn [negb].
  rewrite (st_bind_eq _ _ _ _ _ (find_svc_name l s len name st (sk_registry _ _ Hs) Hn)).
  destruct (find_entry name l) as [[si x]|] eqn:Ef; cbn [fmap option_fmap option_map default fst from_option id].
  - apply find_entry_in in Ef as [Hin _]. destruct (chain_lookup _ _ _ _ (rg_chain _ _ (sk_registry _ _ Hs)) Hin) as [Hx Hb]. cbn in Hx, Hb.
    apply Z.eqb_neq in Hb as Hb'. rewrite Hb'. cbn [negb].
    assert (∃ st2, (x ← svc si; (if negb (si_ptr x =? 0) then on_mem (str8 s) ;; svcinfo_death bs si else mret tt) ;;
      set_svc si (λ x, x <| si_ptr := ptr |>) ;; mret si) st = Ok (si, st2) ∧ quiet st st2) as (st2 & E2 & [Hm2 H2]).
    { rewrite (st_bind_eq _ _ _ _ _ (svc_eq si x st Hx)). destruct (negb (si_ptr x =? 0)).
      - destruct (str8_ok s name st Hpl Hcs) as [t Et]. destruct (svcinfo_death_ok bs si x st Hx Hi) as (st1 & y & E1 & [Hm1 H1] & Hy).
        destruct (set_svc_ok si (λ x, x <| si_ptr := ptr |>) y st1 Hy) as (st2 & E2 & Hm2 & Hd2). exists st2.
        rewrite (st_bind_eq _ _ st tt st1) by (by rewrite (st_bind_eq _ _ _ _ _ Et)). rewrite (st_bind_eq _ _ _ _ _ E2).
        split; [done|]. split; [congruence|by rewrite Hd2].
      - destruct (set_svc_ok si (λ x, x <| si_ptr := ptr |>) x st Hx) as (st2 & E2 & Hm2 & Hd2). exists st2.
        rewrite (st_bind_eq _ _ st tt st) by done. rewrite (st_bind_eq _ _ _ _ _ E2). split; [done|]. split; [done|by rewrite Hd2]. }
    rewrite (st_bind_eq _ _ _ _ _ E2), Hb'. destruct (commands_ok bs ptr (si + death_offset) st2 H2) as (st3 & E3 & [Hm3 H3]).
    exists st3. split; [exact E3|]. split; [congruence|done].
  - cbn [Z.eqb negb]. destruct (c_fresh st) as [|a fl] eqn:Efr; [done|].
    pose proof (sk_unused _ _ Hs) as Hu. rewrite Efr in Hu. inversion Hu as [|?? [Ha _] _]; subst.
    apply Z.eqb_neq in Ha as Ha'. set (st1 := mk_task (c_mem st) (c_drv st) (c_app st) fl).
    assert (E1 : malloc st = Ok (a, st1)) by (unfold malloc; by rewrite Efr).
    assert (∃ st2, new_svc a s (Z.of_nat (length name)) ptr allow st1 = Ok (tt, st2) ∧ c_mem st2 = c_mem st ∧ c_drv st2 = c_drv st) as (st2 & E2 & Hm2 & Hd2).
    { unfold new_svc. unfold cstr16 in Hcs. replace (2 * (length name + 1))%nat with (Z.to_nat ((Z.of_nat (length name) + 1) * 2)) in Hcs by lia.
      rewrite (st_bind_eq _ _ _ _ _ (on_mem_read _ st1 _ (load_ok _ _ _ _ Hcs))). eexists. split; [reflexivity|]. done. }
    rewrite (st_bind_eq _ _ st a st2).
    2:{ rewrite (st_bind_eq _ _ _ _ _ E1), Ha'. by rewrite (st_bind_eq _ _ _ _ _ E2). }
    rewrite Ha'. rewrite <- Hd2 in Hi. destruct (commands_ok bs ptr (a + death_offset) st2 Hi) as (st3 & E3 & [Hm3 H3]).
    exists st3. split; [exact E3|]. split; [congruence|done].
Qed.

Lemma do_add_service_denied bs s len ptr uid allow name st :
  name_arg (c_mem st) s len name → may uid name = false → do_add_service bs s len ptr uid allow st = Ok (-1, st).
Proof.
  intros (Hnl & Hpl & Hcs) Hmay. unfold do_add_service. case_match; [done|].
  rewrite (st_bind_eq _ _ _ _ _ (on_mem_read _ st _ (svc_can_register_eq uid s _ name Hpl Hcs))), Hmay. cbn [negb].
  destruct (str8_ok s name st Hpl Hcs) as [t Et]. by rewrite (st_bind_eq _ _ _ _ _ Et).
Qed.

(** A message with the items [its] still to be read. *)
Record request (msg : binder_io) (m : mem) (its : list item) : Prop := {
  rq_pos : 0 < bio_data msg;
  rq_room : total its <= bio_data_avail msg;
  rq_offset : 0 <= bio_data msg - bio_data0 msg;
  rq_end : bio_data msg - bio_data0 msg + total its < 2 ^ 32;
  rq_ok : Forall item_ok its;
  rq_layout : layout m (bio_data msg) its;
  rq_table : ∃ ws, reader_table msg m ws ∧ ∀ o, o ∈ object_offsets (bio_data msg - bio_data0 msg) its → o ∈ ws
}.

Lemma request_next msg m it its : request msg m (it :: its) → request (advance (item_size it) msg) m its.
Proof.
  intros [H1 H2 H3 H4 H5 H6 (ws & Ht & Hw)]. inversion H5 as [|?? Hit Hits]; subst. cbn [total layout object_offsets] in *.
  pose proof (item_size_pos it Hit). pose proof (total_nonneg its Hits). destruct H6 as [_ H6].
  constructor; try (cbn; lia); [done|done|]. exists ws. split; [done|]. intros o Ho. apply Hw, elem_of_app. right.
  by replace (bio_data msg - bio_data0 msg + item_size it) with (bio_data (advance (item_size it) msg) - bio_data0 (advance (item_size it) msg)) by (cbn; lia).
Qed.

Lemma request_uint32 msg st n its :
  request msg (c_mem st) (I_u32 n :: its) → on_mem (D := D) (A := svcs) (bio_get_uint32 msg) st = Ok ((n, advance 4 msg), st).
Proof.
  intros [H1 H2 _ _ H5 [H6 _] _]. inversion H5 as [|?? Hit Hits]; subst. pose proof (total_nonneg its Hits). cbn [total item_size] in H2.
  apply on_mem_read. apply get_uint32_ok; [done|lia|done|done].
Qed.

Lemma request_string16 msg st x s its :
  request msg (c_mem st) (I_str x s :: its) →
  on_mem (D := D) (A := svcs) (bio_get_string16 msg) st =
  Ok ((bio_data msg + 4, Z.of_nat (length s), advance (item_size (I_str x s)) msg), st) ∧
  name_arg (c_mem st) (bio_data msg + 4) (Z.of_nat (length s)) s.
Proof.
  intros [H1 H2 _ _ H5 [H6 _] _]. inversion H5 as [|?? Hit Hits]; subst. pose proof (total_nonneg its Hits). cbn [total] in H2.
  split; [apply on_mem_read; apply get_string16_ok; [done|done|lia|done]|]. split; [done|]. split; [apply Hit|]. exact (proj2 H6).
Qed.

Lemma request_ref msg st p its :
  request msg (c_mem st) (I_ref p :: its) → p ≠ 0 →
  on_mem (D := D) (A := svcs) (bio_get_ref msg) st = Ok ((p, advance 16 msg), st).
Proof.
  intros [H1 H2 H3 H4 H5 [H6 _] (ws & Ht & Hw)] Hp. inversion H5 as [|?? Hit Hits]; subst. pose proof (total_nonneg its Hits).
  cbn [total item_size object_offsets item_objects] in *. apply Z.eqb_neq in Hp as Hp'. rewrite Hp' in Hw. cbn [Z.eqb Pos.eqb app] in Hw.
  apply on_mem_read. apply (read_ref_ok msg _ ws BINDER_TYPE_HANDLE p); try done; try lia. apply Hw. by left.
Qed.

(** Past the header, a request gets to the [switch]. *)
Lemma svcmgr_handler_header bs txn msg reply st pol its :
  request msg (c_mem st) (I_u32 pol :: I_str false svcmgr_id :: its) → txn_target txn = sv_handle (c_app st) →
  ∃ msg', request msg' (c_mem st) its ∧ svcmgr_handler bs txn msg reply st = dispatch bs txn msg' reply st.
Proof.
  intros Hr Ht. unfold svcmgr_handler. rewrite (st_bind_eq _ _ st (sv_handle (c_app st)) st) by (by destruct st).
  rewrite Ht, Z.eqb_refl. cbn [negb]. rewrite (st_bind_eq _ _ _ _ _ (request_uint32 _ _ _ _ Hr)). cbn [fst snd].
  apply request_next in Hr. change (item_size (I_u32 pol)) with 4 in Hr. destruct (request_string16 _ _ _ _ _ Hr) as [Es (_ & _ & Hc)].
  rewrite (st_bind_eq _ _ _ _ _ Es), Z.eqb_refl. cbn [negb]. apply request_next in Hr.
  assert (Em : mem_equal (D := D) (bio_data (advance 4 msg) + 4) (bytes16 svcmgr_id) st = Ok (true, st)).
  { rewrite mem_equal_eq. apply (bytes_at_take _ _ (length (bytes16 svcmgr_id))) in Hc; [|rewrite length_bytes16; lia].
    rewrite Hc. by rewrite bool_decide_true. }
  rewrite (st_bind_eq _ _ _ _ _ Em). cbn [negb]. by eexists.
Qed.

(** What a user gets for a name. *)
Definition service_handle (es : list (list Z * Z * bool)) (name : list Z) (uid : Z) : Z :=
  match head (filter (λ e, e.1.1 = name) es) with
  | Some (_, p, allow) => if negb allow && isolated uid then 0 else p
  | None => 0
  end.

Lemma find_entry_entries name l : head (filter (λ e, e.1.1 = name) (entries l)) = (λ e, entry_of e.2) <$> find_entry name l.
Proof.
  unfold entries, find_entry. induction l as [|[a x] l IH]; [done|]. rewrite !fmap_cons, !filter_cons. cbn [snd].
  change ((entry_of x).1.1) with (svc_name x). by destruct (decide (svc_name x = name)).
Qed.

Lemma do_find_service_ok s len name uid st l :
  sm_ok st l → name_arg (c_mem st) s len name →
  do_find_service s len uid st = Ok (service_handle (entries l) name uid, st).
Proof.
  intros Hs Hn. unfold do_find_service, service_handle. rewrite find_entry_entries.
  rewrite (st_bind_eq _ _ _ _ _ (find_svc_name l s len name st (sk_registry _ _ Hs) Hn)).
  destruct (find_entry name l) as [[si x]|] eqn:Ef; [|done]. cbn. apply find_entry_in in Ef as [Hin _].
  destruct (chain_lookup _ _ _ _ (rg_chain _ _ (sk_registry _ _ Hs)) Hin) as [Hx Hb]. cbn in Hx, Hb.
  apply Z.eqb_neq in Hb. rewrite Hb. rewrite (st_bind_eq _ _ _ _ _ (svc_eq si x st Hx)).
  destruct (Z.eqb_spec (si_ptr x) 0) as [->|]; destruct (negb (si_allow_isolated x) && isolated uid); done.
Qed.

(** [bio_put_*] of an answer. *)
Lemma answer_ok it reply st (f : binder_io → ST mem binder_io) :
  writer reply (c_mem st) → item_ok it → f = put_item it →
  ∃ reply' m', (reply ← on_mem (D := D) (A := svcs) (f reply); mret (0, reply)) st = Ok ((0, reply'), with_mem m' st) ∧
    put_result it reply reply' (c_mem st) m'.
Proof.
  intros W Hit ->. destruct (put_item_ok it reply (c_mem st) W Hit) as (reply' & m' & E & R). exists reply', m'.
  split; [|exact R]. by rewrite (st_bind_eq _ _ _ _ _ (on_mem_eq _ _ _ _ E)).
Qed.

Definition handle_answer (h : Z) : item := if h =? 0 then I_u32 0 else I_ref h.

(** C25: a request for a service is answered by the registry: the reply has the
    reference registered last under exactly this name, or a 0 when there is
    none, when its process has died, or when the caller is isolated and the
    service did not allow that.  Nothing else changes. *)
Theorem get_service_correct bs txn msg reply st l pol name :
  sm_ok st l → txn_target txn = sv_handle (c_app st) → txn_code txn = SVC_MGR_GET_SERVICE ∨ txn_code txn = SVC_MGR_CHECK_SERVICE →
  request msg (c_mem st) [I_u32 pol; I_str false svcmgr_id; I_str false name] → writer reply (c_mem st) →
  is_u32 (service_handle (entries l) name (txn_sender_euid txn)) →
  ∃ reply' m', svcmgr_handler bs txn msg reply st = Ok ((0, reply'), with_mem m' st) ∧
    put_result (handle_answer (service_handle (entries l) name (txn_sender_euid txn))) reply reply' (c_mem st) m'.
Proof.
  intros Hs Ht Hc Hr W Hu. destruct (svcmgr_handler_header bs txn msg reply st pol _ Hr Ht) as (msg' & Hr' & ->).
  unfold dispatch. replace ((txn_code txn =? _) || _) with true by (destruct Hc as [-> | ->]; done).
  destruct (request_string16 _ _ _ _ _ Hr') as [Es Hn]. unfold get_service. rewrite (st_bind_eq _ _ _ _ _ Es).
  rewrite (st_bind_eq _ _ _ _ _ (do_find_service_ok _ _ name _ st l Hs Hn)). unfold handle_answer.
  destruct (_ =? 0).
  - apply (answer_ok (I_u32 0) reply st (λ b, bio_put_uint32 b 0)); done.
  - apply (answer_ok (I_ref (service_handle (entries l) name (txn_sender_euid txn))) reply st (λ b, bio_put_ref b _)); done.
Qed.

(** C26: a request to add a service, from a user that may register the name,
    registers the reference under it, taking the place of one that was there
    (whose answer to isolated processes stays as it was), and answers 0; from
    any other user it is refused with status -1 and changes nothing. *)
Theorem add_service_correct bs txn msg reply st l pol name p allow :
  sm_ok st l → byte_mem (c_mem st) → I (c_drv st) → c_fresh st ≠ [] → txn_target txn = sv_handle (c_app st) →
  txn_code txn = SVC_MGR_ADD_SERVICE →
  request msg (c_mem st) [I_u32 pol; I_str false svcmgr_id; I_str false name; I_ref p; I_u32 allow] →
  writer reply (c_mem st) → p ≠ 0 → (0 < length name <= 127)%nat →
  if may (txn_sender_euid txn) name then
    ∃ reply' st' l', svcmgr_handler bs txn msg reply st = Ok ((0, reply'), st') ∧ sm_ok st' l' ∧ I (c_drv st') ∧
      put_result (I_u32 0) reply reply' (c_mem st) (c_mem st') ∧
      entries l' = register name p (negb (allow =? 0)) (entries l)
  else svcmgr_handler bs txn msg reply st = Ok ((-1, reply), st).
Proof.
  intros Hs Hm Hi Hf Ht Hc Hr W Hp Hlen. destruct (svcmgr_handler_header bs txn msg reply st pol _ Hr Ht) as (msg' & Hr' & ->).
  unfold dispatch. rewrite Hc. cbn [Z.eqb orb Pos.eqb SVC_MGR_GET_SERVICE SVC_MGR_CHECK_SERVICE SVC_MGR_ADD_SERVICE].
  destruct (request_string16 _ _ _ _ _ Hr') as [Es Hn]. unfold add_service. rewrite (st_bind_eq _ _ _ _ _ Es).
  apply request_next in Hr'. rewrite (st_bind_eq _ _ _ _ _ (request_ref _ _ _ _ Hr' Hp)).
  apply request_next in Hr'. change (item_size (I_ref p)) with 16 in Hr'. rewrite (st_bind_eq _ _ _ _ _ (request_uint32 _ _ _ _ Hr')). cbn [fst].
  set (uid := txn_sender_euid txn). set (a := negb (allow =? 0)). set (s := bio_data msg' + 4) in *.
  destruct (may uid name) eqn:Hmay.
  - destruct (do_add_service_ok bs s (Z.of_nat (length name)) p uid a name st l Hs Hi Hn Hp ltac:(lia) Hmay Hf) as (st1 & E & Hm1 & Hi1).
    destruct (do_add_service_inv bs s (Z.of_nat (length name)) p uid a st st1 0 l Hs Hm ltac:(lia) E) as (l' & Hs' & Ha & _).
    destruct Ha as [[? _]|(_ & _ & _ & _ & name' & Hat & Ee)]; [done|].
    assert (name' = name) as ->.
    { destruct (name_arg_bytes _ _ _ _ Hn) as [Hb Hcn]. destruct Hat as (Hl' & Hc' & Hb'). apply bytes16_inj; [done..|].
      replace (2 * Z.to_nat (Z.of_nat (length name)))%nat with (2 * length name')%nat in Hb by lia. congruence. }
    rewrite (st_bind_eq _ _ _ _ _ E). cbn [Z.eqb negb]. rewrite <- Hm1 in W.
    destruct (answer_ok (I_u32 0) reply st1 (λ b, bio_put_uint32 b 0) W) as (reply' & m' & E' & R); [done|done|].
    exists reply', (with_mem m' st1), l'. rewrite Hm1 in R. split; [exact E'|]. split; [by apply (sm_ok_same st1)|]. by split_and!.
  - rewrite (st_bind_eq _ _ _ _ _ (do_add_service_denied bs s _ p uid a name st Hn Hmay)). done.
Qed.

(** when the process of a service dies, the manager gives its reference back
    and forgets it: nobody gets it any more under its name, the other services
    stay as they are, and the entry is free for another registration. *)
Theorem service_death_correct bs b x st l :
  sm_ok st l → I (c_drv st) → (b, x) ∈ l →
  ∃ st' l', call_death bs (b + death_offset) st = Ok (tt, st') ∧ sm_ok st' l' ∧ I (c_drv st') ∧ c_mem st' = c_mem st ∧
    entries l' = unregister (svc_name x) (entries l) ∧
    (∀ uid, service_handle (entries l') (svc_name x) uid = 0) ∧
    (∀ name uid, name ≠ svc_name x → service_handle (entries l') name uid = service_handle (entries l) name uid).
Proof.
  intros Hs Hi Hin. destruct (chain_lookup _ _ _ _ (rg_chain _ _ (sk_registry _ _ Hs)) Hin) as [Hx _]. cbn in Hx.
  unfold call_death. replace (b + death_offset - death_offset) with b by lia.
  destruct (svcinfo_death_ok bs b x st Hx Hi) as (st' & y & E & [Hm H'] & _).
  destruct (svcinfo_death_inv bs b x st st' l Hs Hin E) as (Hs' & _). exists st', (set_ptr b 0 l).
  rewrite (entries_set_ptr (c_app st) l b x 0 (sk_registry _ _ Hs) Hin). fold (unregister (svc_name x) (entries l)).
  split_and!; try done.
  - intros uid. unfold service_handle, unregister. induction (entries l) as [|e es IH]; [done|]. rewrite fmap_cons, filter_cons.
    destruct (decide (e.1.1 = svc_name x)) as [En|En]; cbn [fst snd]; [rewrite decide_True by done|rewrite decide_False by done].
    + cbn [head]. by destruct (negb e.2 && isolated uid).
    + exact IH.
  - intros name uid Hne. unfold service_handle, unregister. induction (entries l) as [|e es IH]; [done|]. rewrite fmap_cons, !filter_cons.
    destruct (decide (e.1.1 = svc_name x)) as [En|En]; cbn [fst snd].
    + rewrite !decide_False by congruence. exact IH.
    + destruct (decide (e.1.1 = name)); [done|exact IH].
Qed.
End answers.
