(* ===== verification/ServiceManagerDemo.v ===== *)
(** The service manager on concrete requests: a driver that keeps the commands it
    gets, the requests of the theorems, and three requests it mishandles. *)
From Stdlib Require Import String.
From S2P Require Import Prelude UserMem BinderUapi BinderIo BinderIoSpec BinderClient BinderClientSpec ServiceManager SvcRegistry ServiceManagerSpec ServiceManagerAnswers.
Import Bio Client SvcMgr.
Open Scope list_scope.

Module SvcDemo.

#[export] Instance binder_io_eq_dec : EqDecision binder_io.
Proof. solve_decision. Defined.

(** What is written to it, the latest first. *)
Definition trace : Type := list (list Z).
#[export] Instance trace_driver : Driver trace := {|
  sys_open := mret 3;
  sys_mmap _ _ := mret (Some 4096);
  sys_munmap _ _ := mret tt;
  sys_close _ := mret tt;
  ioctl_set_context_mgr _ := mret 0;
  ioctl_write_read _ w c _ := λ s, Ok ((0, Z.of_nat (length w), []), (s.1, w :: s.2))
|}.
#[export] Instance frames : Frames := {| rdata_addr := 8192; status_addr := 8448; stack_words := 0 |}.

#[export] Instance trace_quiet : QuietCommands (λ _ : trace, True).
Proof. intros fd cmd m d _ _. eexists _, _. split; [reflexivity|done]. Qed.

(** ** Messages *)

(** Room for a message at 65536 and for a reply and a status at 8192; the
    message written there. *)
Definition stack : mem := put_bytes 8192 (replicate 260 0) ∅.
Definition room : mem := put_bytes 65536 (replicate 512 0) stack.
Definition written_msg (its : list item) : binder_io * mem :=
  match put_items its (bio_init zero_bio 65536 512 4) room with Ok r => r | Oops _ => (zero_bio, room) end.
Definition mem_with (its : list item) : mem := (written_msg its).2.

(** Its transaction, and the reader and the writer of the handler. *)
Definition txn_with (its : list item) (uid code : Z) : binder_txn :=
  let bio := (written_msg its).1 in
  mk_txn 0 0 code 0 100 uid (bio_data bio - bio_data0 bio) (bio_offs bio - bio_offs0 bio) (bio_data0 bio) (bio_offs0 bio).
Definition msg_with (its : list item) : binder_io := bio_init_from_txn (txn_with its 0 0).
Definition reply : binder_io := bio_init zero_bio rdata_addr 256 4.
Definition header : list item := [I_u32 0; I_str false svcmgr_id].

Definition conn : binder_state := mk_state 3 4096 131072.

(** A manager that knows the service "nfc", with handle 77. *)
Definition nfc : svcinfo := mk_svc 0 77 false 3 (chars "nfc" ++ [0]).
Definition manager (m : mem) : task trace svcs := mk_task m [] (mk_svcs {[20000 := nfc]} 20000 0) [20200; 20400].
Definition empty_manager (m : mem) : task trace svcs := mk_task m [] (mk_svcs ∅ 0 0) [20000; 20200].

Lemma sm_ok_manager m : sm_ok (manager m) [(20000, nfc)].
Proof.
  constructor; [constructor|..].
  - split_and!; [done|done|done|done].
  - intros b x E. cbn in E. apply lookup_singleton_Some in E as [<- <-]. by left.
  - apply NoDup_singleton.
  - constructor; [|constructor]. constructor; [cbn; lia|]. exists (chars "nfc"). split; [done|]. split; [done|].
    repeat (constructor; [vm_compute; split; [discriminate|reflexivity]|]). constructor.
  - apply NoDup_singleton.
  - cbn. apply NoDup_cons. split; [|apply NoDup_singleton]. by intros ?%list_elem_of_singleton.
  - cbn. repeat (constructor; [split; [done|vm_compute; reflexivity]|]). constructor.
Qed.

Lemma sm_ok_empty m : sm_ok (empty_manager m) [].
Proof.
  constructor; [constructor|..].
  - done.
  - intros b x. cbn. by rewrite lookup_empty.
  - constructor.
  - constructor.
  - constructor.
  - cbn. apply NoDup_cons. split; [|apply NoDup_singleton]. by intros ?%list_elem_of_singleton.
  - cbn. repeat (constructor; [split; [done|vm_compute; reflexivity]|]). constructor.
Qed.

(** What a run can check of [byte_mem] and [mapped]. *)
Lemma byte_mem_check m : forallb (λ e : Z * Z, (0 <=? e.2) && (e.2 <? 256)) (map_to_list m) = true → byte_mem m.
Proof.
  intros H i b Hb. rewrite forallb_forall in H. specialize (H (i, b)). rewrite <- list_elem_of_In, elem_of_map_to_list in H.
  apply H in Hb. apply andb_prop in Hb as [?%Z.leb_le ?%Z.ltb_lt]. done.
Qed.

Lemma mapped_check a n m : forallb (λ i, bool_decide (is_Some (m !! i))) (seqZ a n) = true → mapped a n m.
Proof.
  intros H i Hi. rewrite forallb_forall in H. specialize (H i). rewrite <- list_elem_of_In, elem_of_seqZ in H.
  apply H in Hi. by apply bool_decide_eq_true in Hi.
Qed.

Lemma room_mapped : mapped 65536 512 room.
Proof. apply mapped_check. vm_compute. reflexivity. Qed.

(** Read back, a written message is a request. *)
Lemma request_written its :
  Forall item_ok its → total its <= 496 → objects its <= 4 → request (msg_with its) (mem_with its) its.
Proof.
  intros Hok Ht Ho. destruct (bio_init_writer zero_bio 65536 512 4 room) as [Ei W]; [lia..|apply room_mapped|].
  destruct (put_items_ok its _ room W Hok) as (bio' & m' & E & W' & N & R).
  unfold msg_with, txn_with, mem_with, written_msg. rewrite E. cbn [fst snd]. rewrite Ei in N, R.
  destruct N as [Hd0 Ho0 _ _ _ _ _ _]. cbn in Hd0, Ho0. pose proof (total_nonneg its Hok). pose proof (objects_nonneg its).
  destruct R as [[_ (_ & Hd & Hof & Hl & Hw)]|[Hn _]]; [|exfalso; apply Hn; unfold fits_all; cbn; lia].
  cbn in Hd, Hof, Hl, Hw. constructor; cbn; try lia; [done|by rewrite Hd0|].
  exists (object_offsets 0 its). split; [|by rewrite Z.sub_diag]. split; [|split].
  - eapply Forall_impl; [exact (object_offsets_range 0 its ltac:(lia) Hok)|]. simpl. intros o ?. unfold is_u32. lia.
  - cbn. by rewrite Ho0.
  - cbn. rewrite length_object_offsets, Hof, Ho0. replace (65536 + 4 * objects its - 65536) with (objects its * 4) by lia. by rewrite Z.div_mul.
Qed.

Lemma reply_writer m : mapped 8192 256 m → writer reply m.
Proof. intros H. apply bio_init_writer; try (cbn; lia). exact H. Qed.

Definition u32_check (x : Z) : bool := (0 <=? x) && (x <? 2 ^ 32).
Definition item_check (it : item) : bool :=
  match it with
  | I_u32 n => u32_check n
  | I_str _ s => forallb (λ c, (0 <? c) && (c <? 2 ^ 16)) s && (Z.of_nat (length s) <? 2 ^ 29)
  | I_obj p | I_ref p => u32_check p
  end.

Lemma items_check its : forallb item_check its = true → Forall item_ok its.
Proof.
  assert (Hu : ∀ x, u32_check x = true → is_u32 x) by (intros x [?%Z.leb_le ?%Z.ltb_lt]%andb_prop; done).
  intros H. apply Forall_forall. intros it Hin%list_elem_of_In. rewrite forallb_forall in H. apply H in Hin.
  destruct it as [n|x s|p|p]; [by apply Hu| |by apply Hu..]. apply andb_prop in Hin as [Hs Hl%Z.ltb_lt]. split; [|done].
  apply Forall_forall. intros c Hc%list_elem_of_In. rewrite forallb_forall in Hs. apply Hs, andb_prop in Hc as [?%Z.ltb_lt ?%Z.ltb_lt]. done.
Qed.

(** ** Requests *)

Definition nfc_name : list Z := chars "nfc".
Definition get_nfc : list item := header ++ [I_str false nfc_name].
Definition add_nfc : list item := header ++ [I_str false nfc_name; I_ref 5; I_u32 1].

Lemma items_ok_get : Forall item_ok get_nfc.
Proof. apply items_check. vm_compute. reflexivity. Qed.
Lemma items_ok_add : Forall item_ok add_nfc.
Proof. apply items_check. vm_compute. reflexivity. Qed.

Lemma request_get : request (msg_with get_nfc) (mem_with get_nfc) get_nfc.
Proof. apply request_written; [apply items_ok_get|vm_compute; discriminate..]. Qed.
Lemma request_add : request (msg_with add_nfc) (mem_with add_nfc) add_nfc.
Proof. apply request_written; [apply items_ok_add|vm_compute; discriminate..]. Qed.
Lemma reply_get : writer reply (mem_with get_nfc).
Proof. apply reply_writer, mapped_check. vm_compute. reflexivity. Qed.
Lemma reply_add : writer reply (mem_with add_nfc).
Proof. apply reply_writer, mapped_check. vm_compute. reflexivity. Qed.
Lemma bytes_add : byte_mem (mem_with add_nfc).
Proof. apply byte_mem_check. vm_compute. reflexivity. Qed.

Lemma get_service_correct_witness :
  ∃ reply' m', svcmgr_handler conn (txn_with get_nfc 2000 SVC_MGR_CHECK_SERVICE) (msg_with get_nfc) reply (manager (mem_with get_nfc)) =
    Ok ((0, reply'), with_mem m' (manager (mem_with get_nfc))) ∧ put_result (I_ref 77) reply reply' (mem_with get_nfc) m'.
Proof.
  exact (get_service_correct conn (txn_with get_nfc 2000 SVC_MGR_CHECK_SERVICE) (msg_with get_nfc) reply (manager (mem_with get_nfc))
    [(20000, nfc)] 0 nfc_name (sm_ok_manager _) eq_refl (or_intror eq_refl) request_get reply_get
    ltac:(vm_compute; split; [discriminate|reflexivity])).
Defined.

Lemma add_service_correct_witness :
  ∃ reply' st' l', svcmgr_handler conn (txn_with add_nfc AID_NFC SVC_MGR_ADD_SERVICE) (msg_with add_nfc) reply (manager (mem_with add_nfc)) =
    Ok ((0, reply'), st') ∧ sm_ok st' l' ∧ entries l' = [(nfc_name, 5, false)].
Proof.
  destruct (add_service_correct (λ _, True) conn (txn_with add_nfc AID_NFC SVC_MGR_ADD_SERVICE) (msg_with add_nfc) reply
    (manager (mem_with add_nfc)) [(20000, nfc)] 0 nfc_name 5 1 (sm_ok_manager _) bytes_add Logic.I ltac:(discriminate) eq_refl eq_refl
    request_add reply_add ltac:(discriminate) ltac:(vm_compute; lia)) as (reply' & st' & l' & E & Hs & _ & _ & Ee).
  exists reply', st', l'. split; [exact E|]. split; [exact Hs|]. rewrite Ee. vm_compute. reflexivity.
Defined.

Lemma service_death_correct_witness :
  ∃ st' l', call_death conn 20008 (manager ∅) = Ok (tt, st') ∧ entries l' = [(nfc_name, 0, false)].
Proof.
  destruct (service_death_correct (λ _, True) conn 20000 nfc (manager ∅) [(20000, nfc)] (sm_ok_manager _) Logic.I ltac:(by left))
    as (st' & l' & E & _ & _ & _ & Ee & _). exists st', l'. split; [exact E|]. rewrite Ee. vm_compute. reflexivity.
Defined.

(** A run of one request, to a manager that knows nothing yet. *)
Definition add_request : event (D := trace) := E_request (mem_with add_nfc) (txn_with add_nfc AID_NFC SVC_MGR_ADD_SERVICE) (msg_with add_nfc) reply.
Definition after_add : task trace svcs := state_after
  (svcmgr_handler conn (txn_with add_nfc AID_NFC SVC_MGR_ADD_SERVICE) (msg_with add_nfc) reply) (empty_manager (mem_with add_nfc)).
Definition add_answer : Z * binder_io := value_of (0, reply)
  (svcmgr_handler conn (txn_with add_nfc AID_NFC SVC_MGR_ADD_SERVICE) (msg_with add_nfc) reply) (empty_manager (mem_with add_nfc)).

Lemma add_run : sm_run conn [add_request] (empty_manager (mem_with add_nfc)) after_add.
Proof.
  apply (sm_request conn [] _ (empty_manager (mem_with add_nfc)) _ _ _ _ add_answer); [constructor|apply bytes_add|].
  refine (returns_ok _ _ _ _). vm_compute. reflexivity.
Qed.

Lemma registry_authority_witness :
  ∃ l, sm_ok after_add l ∧ ∀ e, e ∈ entries l → authorized [add_request] e.1.1.
Proof. exact (registry_authority conn [add_request] _ _ add_run (sm_ok_empty _)). Defined.

(** ** Parsing: a request and a death, as the driver writes them *)

Definition get_messages : list message := [B_noop BR_NOOP; B_transaction (txn_with get_nfc 2000 SVC_MGR_CHECK_SERVICE); B_dead 20008].

Lemma get_messages_ok : Forall message_ok get_messages.
Proof.
  unfold get_messages. rewrite !Forall_cons, Forall_nil. split_and!; [by left| |vm_compute; split; [discriminate|reflexivity]|done].
  cbn [message_ok]. apply Forall_forall. intros w Hw%list_elem_of_In. unfold is_u32.
  assert (H : forallb u32_check (txn_words (txn_with get_nfc 2000 SVC_MGR_CHECK_SERVICE)) = true) by (vm_compute; reflexivity).
  rewrite forallb_forall in H. apply H, andb_prop in Hw as [?%Z.leb_le ?%Z.ltb_lt]. done.
Qed.

Lemma binder_parse_correct_witness :
  binder_parse conn false (concat (encode_message <$> get_messages) ++ replicate 60 0) (Z.of_nat (length (concat (encode_message <$> get_messages))))
    (Some (svcmgr_handler conn)) (call_death conn) (manager (mem_with get_nfc)) =
  handle_messages conn get_messages false None 1 (Some (svcmgr_handler conn)) (call_death conn) (manager (mem_with get_nfc)).
Proof. exact (binder_parse_correct conn false _ get_messages (replicate 60 0) _ _ _ get_messages_ok eq_refl). Defined.

(** ** Requests the manager mishandles *)

(** The count of a string whose characters are missing. *)
Definition truncated : list item := header ++ [I_u32 3].

(** A request whose service name is cut off after its length crashes the
    service manager, when a service with a name of that length is known:
    [bio_get_string16] returns NULL with the length still set, and [find_svc]
    compares the name with it. *)
Theorem truncated_name_crashes :
  svcmgr_handler conn (txn_with truncated 2000 SVC_MGR_CHECK_SERVICE) (msg_with truncated) reply (manager (mem_with truncated)) =
  Oops Bad_access.
Proof. vm_compute. reflexivity. Qed.

(** The name "phon", 4 characters, with the rest of "phone" in its padding. *)
Definition phon : list item := header ++ [I_u32 4; I_u32 6815856; I_u32 7209071; I_u32 101; I_ref 5; I_u32 0].

(** The permission to register is that of the characters up to a NUL, the
    registered name has the given length: the radio user, who may register
    "phone", registers "phon". *)
Theorem prefix_registered :
  (λ r : Z * binder_io * task trace svcs, (r.1.1, (sv_list (c_app r.2), svc_name <$> sv_heap (c_app r.2) !! 20200))) <$>
    (match svcmgr_handler conn (txn_with phon AID_RADIO SVC_MGR_ADD_SERVICE) (msg_with phon) reply (manager (mem_with phon)) with
     | Ok r => Some r | Oops _ => None end) =
  Some (0, (20200, Some (chars "phon"))) ∧ may AID_RADIO (chars "phon") = false.
Proof. split; vm_compute; reflexivity. Qed.

(** A service with a name of 127 characters, and a request for the first name. *)
Definition long_name : list Z := replicate 127 97.
Definition long_manager (m : mem) : task trace svcs := mk_task m [] (mk_svcs {[20000 := mk_svc 0 77 false 127 (long_name ++ [0])]} 20000 0) [].
Definition list_first : list item := header ++ [I_u32 0].

(** Asked to list a service whose name has more than 117 characters, the
    manager answers with status 0 and a message of 4 bytes, the length of the
    name without the name: the overflow of the reply is not looked at. *)
Theorem long_name_truncated :
  (λ r : Z * binder_io * task trace svcs, (r.1.1, (bio_data r.1.2 - bio_data0 r.1.2, bio_flags r.1.2))) <$>
    (match svcmgr_handler conn (txn_with list_first 2000 SVC_MGR_LIST_SERVICES) (msg_with list_first) reply (long_manager (mem_with list_first)) with
     | Ok r => Some r | Oops _ => None end) =
  Some (0, (4, BIO_F_OVERFLOW)).
Proof. vm_compute. reflexivity. Qed.
End SvcDemo.
