(* ===== verification/BinderTestClient.v ===== *)
(** The client [src/cmds/servicemanager/bctest.c]: publishing a service and
    looking one up at a service manager. *)
From S2P Require Import Prelude UserMem BinderUapi BinderIo BinderClient ServiceManager.
Import Bio Client SvcMgr.

Module BcTest.

(** [iodata], 512 bytes on the stack of the callers. *)
Class ClientFrame : Type := { iodata_addr : Z }.

Section bctest.
Context {D A : Type} {DR : Driver D} {FR : Frames} {CF : ClientFrame}.

(** A string literal, with its NUL. *)
Definition SVC_MGR_NAME : list Z := svcmgr_id ++ [0].

(** The start of both messages; [name] are the bytes of a C string. *)
Definition start_message (name : list Z) : M D A binder_io :=
  let msg := bio_init zero_bio iodata_addr 512 4 in
  msg ← on_mem (bio_put_uint32 msg 0);
  msg ← on_mem (bio_put_string16_x msg (Some SVC_MGR_NAME));
  on_mem (bio_put_string16_x msg (Some name)).

(** [turns] bounds the ioctls of [binder_call], as [readbuf] is its buffer. *)
Definition svcmgr_lookup (turns : nat) (bs : binder_state) (readbuf : list Z) (call_death : Z → M D A unit)
    (target : Z) (name : list Z) : M D A Z :=
  msg ← start_message name;
  r ← binder_call turns bs readbuf msg target SVC_MGR_CHECK_SERVICE call_death;
  let '(failed, reply) := r in
  if negb (failed =? 0) then mret 0
  else
    r ← on_mem (bio_get_ref reply);
    let '(ptr, reply) := r in
    (if negb (ptr =? 0) then binder_acquire bs ptr else mret tt) ;;
    binder_done bs reply ;;
    mret ptr.

Definition svcmgr_publish (turns : nat) (bs : binder_state) (readbuf : list Z) (call_death : Z → M D A unit)
    (target : Z) (name : list Z) (ptr : Z) : M D A Z :=
  msg ← start_message name;
  msg ← on_mem (bio_put_obj msg ptr);
  r ← binder_call turns bs readbuf msg target SVC_MGR_ADD_SERVICE call_death;
  let '(failed, reply) := r in
  if negb (failed =? 0) then mret (-1)
  else
    r ← on_mem (bio_get_uint32 reply);
    let '(status, reply) := r in
    binder_done bs reply ;;
    mret (s32 status).
End bctest.
End BcTest.
