(* ===== verification/BinderSystem.v ===== *)
(** The parts put together: tasks that run the client library over the driver.
    The library's interface to [/dev/binder] is implemented by the model of the
    driver, and a call that would sleep lets the service manager run. *)
From Stdlib Require Import String.
From S2P Require Import Prelude RBTree BinderAlloc BinderAllocSpec UserMem BinderUapi BinderState BinderKernel BinderObject BinderTransaction BinderWrite BinderRead BinderLifecycle BinderExamples BinderIo BinderClient ServiceManager BinderTestClient.
Import Bio Client SvcMgr BcTest Example.
Open Scope list_scope.

Module System.

(** ** The device *)

(** A file is known by its process; every task maps the area at the same
    address of its own memory. *)
Definition user_area : Z := 1073741824.
Definition kernel_area (p : Z) : Z := 268435456 + 4194304 * (p - 100000).

(** What the buffers of a process in use show of themselves in user space. *)
Definition buffers_view (p : Z) (k : kernel) : gmap Z Z :=
  match k_procs k !! p with
  | None => ∅
  | Some pr =>
      let al := p_alloc pr in
      foldr (λ e : Z * binder_buffer,
          if b_free e.2 then id else put_bytes (e.1 + HDR + a_user_buffer_offset al) (b_data e.2))
        ∅ (map_to_list (a_heap al))
  end.

(** The local variables of the caller: the record, and the two buffers. *)
Definition bwr_at : Z := 1024.
Definition wbuf_at : Z := 2048.
Definition rbuf_at : Z := 4096.

Definition set_user (m : gmap Z Z) : K unit := modify (λ k, k <| k_user := m |>).

Definition wr_call (t p : Z) (m : gmap Z Z) (wbuf : list Z) (consumed rsize : Z) : K (Z * Z * list Z) :=
  as_task t ;; set_user m ;;
  poke wbuf_at wbuf ;; poke rbuf_at (replicate (Z.to_nat rsize) 0) ;;
  poke bwr_at (encode_bwr (mk_bwr (Z.of_nat (length wbuf)) consumed wbuf_at rsize 0 rbuf_at)) ;;
  r ← binder_ioctl 5 p BINDER_WRITE_READ bwr_at true;
  bs ← copy_from_user bwr_at 24;
  let bwr := decode_bwr (default [] bs) in
  out ← copy_from_user rbuf_at (bwr_read_consumed bwr);
  mret (r, bwr_write_consumed bwr, default [] out).

(** The driver as task [t] sees it; nothing sleeps. *)
Definition dev (t : Z) : Driver kernel := {|
  sys_open := as_task t ;; r ← BinderLifecycle.binder_open; mret (if r.1 <? 0 then r.1 else r.2);
  sys_mmap p size :=
    as_task t ;; r ← proc_mmap p (mk_vm_area user_area (user_area + size) 1 7) (kernel_area p) true;
    mret (if r =? 0 then Some user_area else None);
  sys_munmap _ _ := as_task t ;; k ← gets id; for_each binder_vma_close (filter (λ p, p_tsk <$> k_procs k !! p = Some t) (k_binder_procs k));
  sys_close p := as_task t ;; BinderLifecycle.binder_release p ;; mret tt;
  Client.ioctl_set_context_mgr p := as_task t ;; binder_ioctl 5 p BINDER_SET_CONTEXT_MGR 0 true;
  Client.ioctl_write_read p wbuf consumed rsize := λ s,
    match wr_call t p s.1 wbuf consumed rsize s.2 with
    | Ok (r, k) => Ok (r, (buffers_view p k ∪ k_user k, k))
    | Oops o => Oops o
    end
|}.

(** ** The service manager *)

#[export] Instance frames : Frames := {| rdata_addr := 8192; status_addr := 8448; stack_words := 0 |}.
#[export] Instance client_frame : ClientFrame := {| iodata_addr := 65536 |}.

(** Task 1: its memory, and its read buffer. *)
Record system : Type := mk_system { s_kernel : kernel; s_mem : gmap Z Z; s_svcs : svcs; s_fresh : list Z; s_readbuf : list Z }.

Definition manager : binder_state := mk_state 100000 user_area (128 * 1024).

Definition run_manager {R} (m : M kernel svcs R) (readbuf : R → list Z) : ST system R := λ s,
  match m (Client.mk_task (s_mem s) (s_kernel s) (s_svcs s) (s_fresh s)) with
  | Ok (r, c) => Ok (r, mk_system (c_drv c) (c_mem c) (c_app c) (c_fresh c) (readbuf r))
  | Oops o => Oops o
  end.

(** Turns of its loop, until it would sleep; [turns] is more than it takes. *)
Fixpoint manager_runs (turns : nat) : ST system unit := λ s,
  match turns with
  | O => Oops Fuel
  | S turns' =>
      let DR := dev 1 in
      (r ← run_manager (loop_turn manager (s_readbuf s) (svcmgr_handler manager) (call_death manager)) (default (s_readbuf s));
       if bool_decide (r = None) then mret tt else manager_runs turns') s
  end.

(** ** The device for the other tasks *)

Definition on_kernel {R} (m : K R) : ST system R := λ s,
  match m (s_kernel s) with
  | Ok (r, k) => Ok (r, mk_system k (s_mem s) (s_svcs s) (s_fresh s) (s_readbuf s))
  | Oops o => Oops o
  end.

Definition wr_system (t fd : Z) (m : gmap Z Z) (wbuf : list Z) (consumed rsize : Z) : ST system (Z * Z * list Z * gmap Z Z) := λ s,
  match Client.ioctl_write_read (Driver := dev t) fd wbuf consumed rsize (m, s_kernel s) with
  | Ok (r, (m, k)) => Ok ((r, m), mk_system k (s_mem s) (s_svcs s) (s_fresh s) (s_readbuf s))
  | Oops o => Oops o
  end.

(** Instead of sleeping, the manager runs; what was to be written has been
    written by then. *)
Definition blocking (t : Z) : Driver system := {|
  sys_open := on_kernel (sys_open (Driver := dev t));
  sys_mmap p size := on_kernel (sys_mmap (Driver := dev t) p size);
  sys_munmap a size := on_kernel (sys_munmap (Driver := dev t) a size);
  sys_close p := on_kernel (sys_close (Driver := dev t) p);
  Client.ioctl_set_context_mgr p := on_kernel (Client.ioctl_set_context_mgr (Driver := dev t) p);
  Client.ioctl_write_read p wbuf consumed rsize := λ ms,
    match wr_system t p ms.1 wbuf consumed rsize ms.2 with
    | Ok ((r, m), s) =>
        if r.1.1 =? - EAGAIN then
          match (manager_runs 5 ;; wr_system t p m [] 0 rsize) s with
          | Ok ((r', m), s) => Ok ((r'.1.1, r.1.2, r'.2), (m, s))
          | Oops o => Oops o
          end
        else Ok (r, (m, s))
    | Oops o => Oops o
    end
|}.

(** ** A run *)

(** Three tasks; the manager has memory for what it puts on its stack and heap. *)
Definition machine : kernel :=
  boot <| k_tasks := {[ 1 := BinderState.mk_task 11 11 1000 0 (Some 7) 1; 2 := BinderState.mk_task 22 22 1027 0 (Some 7) 2;
                        3 := BinderState.mk_task 33 33 10005 0 (Some 7) 3 ]} |>.
Definition stack : gmap Z Z := put_bytes 8192 (replicate 260 0) ∅.
Definition powered_on : system := mk_system machine stack (mk_svcs ∅ 0 0) [20000; 20200; 20400; 20600] (replicate 128 0).

(** [main] of the service manager up to its first wait. *)
Definition manager_starts : ST system (option Z) := λ s,
  let DR := dev 1 in run_manager (main 0 (s_readbuf s)) (λ _, s_readbuf s) s.

Definition ready : system := state_after manager_starts powered_on.

(** A client task, with room for [iodata]. *)
Definition client_mem : gmap Z Z := put_bytes 65536 (replicate 512 0) stack.
Definition run_client {R} (t : Z) (m : Driver system → M system unit R) : ST system R := λ s,
  match m (blocking t) (Client.mk_task client_mem s tt [30000]) with
  | Ok (r, c) => Ok (r, c_drv c)
  | Oops o => Oops o
  end.

Definition connected {R} (m : ∀ D, Driver D → binder_state → M D unit R) (D : Type) (DR : Driver D) : M D unit R :=
  bs ← binder_open (128 * 1024); b ← the Null_deref bs; m D DR b.

(** [svcmgr_publish] and [svcmgr_lookup] of [bctest.c]. *)
Definition no_deaths {D} (_ : Z) : M D unit unit := mret tt.
Definition nfc_name : list Z := chars "nfc" ++ [0].
Definition token : Z := 777.
Definition publish (D : Type) (DR : Driver D) (bs : binder_state) : M D unit Z :=
  svcmgr_publish 5 bs (replicate 128 0) no_deaths 0 nfc_name token.
Definition lookup (D : Type) (DR : Driver D) (bs : binder_state) : M D unit Z :=
  svcmgr_lookup 5 bs (replicate 128 0) no_deaths 0 nfc_name.

(** The same calls of a client that writes its transaction once, and then only reads. *)
Definition write_then_read {D} {DR : Driver D} (bs : binder_state) (msg : binder_io) (code : Z) : M D unit (option binder_io) :=
  let txn := mk_txn 0 0 code 0 0 0 (u32 (bio_data msg - bio_data0 msg))
               (u32 (bio_offs msg - bio_offs0 msg)) (bio_data0 msg) (bio_offs0 msg) in
  binder_write bs (words (BC_TRANSACTION :: txn_words txn)) ;;
  call_loop 5 bs [] 0 (replicate 128 0) no_deaths.
Definition publish_once (D : Type) (DR : Driver D) (bs : binder_state) : M D unit (option Z) :=
  msg ← start_message nfc_name;
  msg ← on_mem (bio_put_obj msg token);
  r ← write_then_read bs msg SVC_MGR_ADD_SERVICE;
  match r with None => mret None | Some reply => r ← on_mem (bio_get_uint32 reply); mret (Some r.1) end.
Definition lookup_once (D : Type) (DR : Driver D) (bs : binder_state) : M D unit (option Z) :=
  msg ← start_message nfc_name;
  r ← write_then_read bs msg SVC_MGR_CHECK_SERVICE;
  match r with None => mret None | Some reply => r ← on_mem (bio_get_ref reply); mret (Some r.1) end.

Definition publish_and_exit (D : Type) (DR : Driver D) (bs : binder_state) : M D unit (option Z) :=
  r ← publish_once D DR bs; binder_close bs ;; mret r.
(** The work the driver put off when a process went away. *)
Definition reclaim : ST system unit := on_kernel binder_deferred_func.

Definition answer {R X} (m : ST system R) (f : R → system → X) : option X :=
  match m ready with Ok (r, s) => Some (f r s) | Oops _ => None end.

(** The task that owns the object task [t] reaches through [handle], and the
    object's address in that task. *)
Definition reaches (t handle : Z) (s : system) : list (Z * Z) :=
  let k := s_kernel s in
  r ← snd <$> map_to_list (k_refs k);
  if bool_decide (p_tsk <$> k_procs k !! r_proc r = Some t) && (r_desc r =? handle) then
    match k_nodes k !! r_node r with
    | Some n => match k_procs k !! n_proc n with Some p => [(p_tsk p, n_ptr n)] | None => [] end
    | None => []
    end
  else [].

(** From the driver's [binder_open] to the service manager's registry: task
    2 publishes its object 777 as "nfc" and gets status 0; task 3 looks "nfc" up
    and gets a handle, through which the driver reaches object 777 of task 2.
    When task 2 exits, the driver's deferred work tells the service manager,
    and task 3 is answered 0; no reference and no node of task 2 is left. *)
Theorem service_lifecycle :
  answer (a ← run_client 2 (connected publish_once _); b ← run_client 3 (connected lookup_once _); mret (a, b))
    (λ r s, (r, reaches 3 1 s)) = Some ((Some 0, Some 1), [(2, token)]) ∧
  answer (a ← run_client 2 (connected publish_and_exit _); reclaim ;; b ← run_client 3 (connected lookup_once _); mret (a, b))
    (λ r s, (r, map_to_list (k_refs (s_kernel s)), n_ptr ∘ snd <$> map_to_list (k_nodes (s_kernel s)))) =
    Some ((Some 0, Some 0), [], [0]).
Proof. split; vm_compute; reflexivity. Qed.

(** [binder_call] does not work on this driver: it passes the write buffer
    to every ioctl and relies on [write_consumed], which the driver ignores, so
    that its second ioctl sends the transaction again, which the driver refuses.
    [svcmgr_publish] answers -1 before the service manager has run, which then
    registers the service; [svcmgr_lookup] finds no service that is there. *)
Theorem binder_call_resends :
  answer (run_client 2 (connected publish _)) (λ r s, (r, sv_list (s_svcs s))) = Some (-1, 0) ∧
  answer (run_client 2 (connected publish _) ;; manager_runs 5 ;; run_client 3 (connected lookup_once _))
    (λ r s, (r, reaches 3 1 s)) = Some (Some 1, [(2, token)]) ∧
  answer (run_client 2 (connected publish_once _) ;; run_client 3 (connected lookup _)) (λ r _, r) = Some 0.
Proof. split_and!; vm_compute; reflexivity. Qed.
End System.
