(* ===== verification/Parcel.v ===== *)
(** The container of messages of [src/lib/binder/Parcel.cpp]: its blocks of
    memory, the flattened binders in it, writing and reading.  User space is 32
    bits wide, so that a [size_t] is a [Z] modulo [2 ^ 32].  A pointer into the
    data is an offset; the two blocks of a parcel are lists, with a length that
    the fields of the class only claim to know. *)
From stdpp Require Import gmultiset.
From S2P Require Import Prelude BinderUapi.

Module Parcel.

(** ** Numbers *)

Definition NO_ERROR : Z := 0.
Definition NO_MEMORY : Z := -12.
Definition BAD_VALUE : Z := -22.
Definition NOT_ENOUGH_DATA : Z := -61.
Definition BAD_TYPE : Z := s32 2147483649.
Definition FDS_NOT_ALLOWED : Z := s32 2147483655.
Definition INT32_MAX : Z := 2147483647.
Definition EX_HAS_REPLY_HEADER : Z := -128.
Definition STRICT_MODE_PENALTY_GATHER : Z := 256.
Definition IN_PLACE_BLOB_LIMIT : Z := 40 * 1024.
Definition OBJECT_FLAGS : Z := Z.lor 127 FLAT_BINDER_FLAG_ACCEPTS_FDS.

Definition PAD_SIZE (s : Z) : Z := Z.land (u32 (s + 3)) (u32 (Z.lnot 3)).

(** ** Blocks of the heap *)

(** What a pointer to a block points to.  [Freed] is a dangling pointer. *)
Inductive block : Type :=
| Null
| Freed
| Block (l : list Z).

Definition peek (b : block) (off n : Z) : option (list Z) :=
  if n =? 0 then Some []
  else match b with
       | Block l => if off + n <=? Z.of_nat (length l) then Some (slice (Z.to_nat off) (Z.to_nat n) l) else None
       | _ => None
       end.

Definition poke (b : block) (off : Z) (bs : list Z) : option block :=
  if bool_decide (bs = []) then Some b
  else match b with
       | Block l => if off + Z.of_nat (length bs) <=? Z.of_nat (length l) then Some (Block (splice (Z.to_nat off) bs l)) else None
       | _ => None
       end.

(** What the C library and the rest of the process answer: the bytes of a fresh
    block, whether [realloc(p, 0)] frees, the reference counts of an object, and
    whether a handle has a proxy. *)
Class Process : Type := {
  junk : nat → Z;
  realloc_zero_frees : bool;
  getWeakRefs : Z → Z;
  getStrongProxyForHandle : Z → bool;
  getWeakProxyForHandle : Z → bool
}.

(** ** The state *)

(** A reference that a parcel holds on behalf of an object in it. *)
Inductive hold : Type :=
| H_strong (cookie : Z)
| H_weak (refs : Z)
| H_proxy (handle : Z)
| H_weak_proxy (handle : Z).
#[export] Instance hold_eq_dec : EqDecision hold.
Proof. solve_decision. Defined.
#[export] Instance hold_countable : Countable hold.
Proof.
  refine (inj_countable'
    (λ h, match h with H_strong c => inl (inl c) | H_weak c => inl (inr c) | H_proxy c => inr (inl c) | H_weak_proxy c => inr (inr c) end)
    (λ s, match s with inl (inl c) => H_strong c | inl (inr c) => H_weak c | inr (inl c) => H_proxy c | inr (inr c) => H_weak_proxy c end) _).
  by intros [].
Defined.

(** The process around the parcels: whether the next blocks are given, what the
    next system calls answer, the references held, the open files, and the
    buffers given back to the driver, the latest first. *)
Record world : Type := mk_world {
  w_heap : list bool;
  w_sys : list Z;
  w_holds : gmultiset hold;
  w_fds : gset Z;
  w_freed : list Z
}.
#[export] Instance eta_world : Eta world := λ r, mk_world (w_heap r) (w_sys r) (w_holds r) (w_fds r) (w_freed r).
#[export] Instance field_w_heap : Field w_heap := ltac:(derive_field).
#[export] Instance field_w_sys : Field w_sys := ltac:(derive_field).
#[export] Instance field_w_holds : Field w_holds := ltac:(derive_field).
#[export] Instance field_w_fds : Field w_fds := ltac:(derive_field).
#[export] Instance field_w_freed : Field w_freed := ltac:(derive_field).

(** [mOwner] is NULL or [IPCThreadState::freeBuffer]; then the address of the
    driver's buffer. *)
Record parcel : Type := mk_parcel {
  mError : Z;
  mData : block;
  mDataSize : Z;
  mDataCapacity : Z;
  mDataPos : Z;
  mObjects : block;
  mObjectsSize : Z;
  mObjectsCapacity : Z;
  mNextObjectHint : Z;
  mFdsKnown : bool;
  mHasFds : bool;
  mAllowFds : bool;
  mOwner : option Z
}.
#[export] Instance eta_parcel : Eta parcel :=
  λ r, mk_parcel (mError r) (mData r) (mDataSize r) (mDataCapacity r) (mDataPos r) (mObjects r) (mObjectsSize r)
    (mObjectsCapacity r) (mNextObjectHint r) (mFdsKnown r) (mHasFds r) (mAllowFds r) (mOwner r).
#[export] Instance field_mError : Field mError := ltac:(derive_field).
#[export] Instance field_mData : Field mData := ltac:(derive_field).
#[export] Instance field_mDataSize : Field mDataSize := ltac:(derive_field).
#[export] Instance field_mDataCapacity : Field mDataCapacity := ltac:(derive_field).
#[export] Instance field_mDataPos : Field mDataPos := ltac:(derive_field).
#[export] Instance field_mObjects : Field mObjects := ltac:(derive_field).
#[export] Instance field_mObjectsSize : Field mObjectsSize := ltac:(derive_field).
#[export] Instance field_mObjectsCapacity : Field mObjectsCapacity := ltac:(derive_field).
#[export] Instance field_mNextObjectHint : Field mNextObjectHint := ltac:(derive_field).
#[export] Instance field_mFdsKnown : Field mFdsKnown := ltac:(derive_field).
#[export] Instance field_mHasFds : Field mHasFds := ltac:(derive_field).
#[export] Instance field_mAllowFds : Field mAllowFds := ltac:(derive_field).
#[export] Instance field_mOwner : Field mOwner := ltac:(derive_field).

Definition P (A : Type) : Type := ST (parcel * world) A.

Definition this : P parcel := gets fst.
Definition set_this (f : parcel → parcel) : P unit := modify (λ s, (f s.1, s.2)).
Definition set_world (f : world → world) : P unit := modify (λ s, (s.1, f s.2)).

(** [initState]. *)
Definition initState : parcel := mk_parcel NO_ERROR Null 0 0 0 Null 0 0 0 true false true None.

Section parcel.
Context {PR : Process}.

(** ** Memory *)

Definition load (off n : Z) : P (list Z) := p ← this; the Bad_access (peek (mData p) off n).
Definition store (off : Z) (bs : list Z) : P unit :=
  p ← this; b ← the Bad_access (poke (mData p) off bs); set_this (λ p, p <| mData := b |>).

(** [mObjects[i]]; the words of that block are entries. *)
Definition get_object (i : Z) : P Z :=
  p ← this; l ← the Bad_access (peek (mObjects p) i 1); mret (hd 0 l).
Definition put_object (i off : Z) : P unit :=
  p ← this; b ← the Bad_access (poke (mObjects p) i [off]); set_this (λ p, p <| mObjects := b |>).

Definition heap_gives : P bool := λ s,
  match w_heap s.2 with
  | [] => Ok (false, s)
  | b :: l => Ok (b, (s.1, s.2 <| w_heap := l |>))
  end.

Definition fresh (n : Z) : list Z := junk <$> seq 0 (Z.to_nat n).

Definition malloc (n : Z) : P block := ok ← heap_gives; mret (if ok : bool then Block (fresh n) else Null).

(** [realloc(b, n)]: the answer, and what [b] points to afterwards. *)
Definition contents (b : block) : list Z := match b with Block l => l | _ => [] end.
Definition realloc (b : block) (n : Z) : P (block * block) :=
  match b with
  | Freed => fail Bad_access
  | Null => b' ← malloc n; mret (b', Null)
  | Block l =>
      if (n =? 0) && realloc_zero_frees then mret (Null, Freed)
      else
        ok ← heap_gives;
        mret (if ok : bool then (Block (take (Z.to_nat n) (l ++ drop (length l) (fresh n))), Freed) else (Null, b))
  end.

Definition free (b : block) : P unit := match b with Freed => fail Bad_access | _ => mret tt end.

Definition is_null (b : block) : bool := match b with Null => true | _ => false end.

(** What the next system call answers. *)
Definition sys : P Z := λ s,
  match w_sys s.2 with
  | [] => Oops Bad_env
  | r :: l => Ok (r, (s.1, s.2 <| w_sys := l |>))
  end.
Definition close (fd : Z) : P unit := set_world (λ w, w <| w_fds %= (.∖ {[fd]}) |>).
(** [dup], or a call that answers a new file: [-errno] on an error. *)
Definition new_fd : P Z := fd ← sys; (if fd <? 0 then mret tt else set_world (λ w, w <| w_fds %= ({[fd]} ∪.) |>)) ;; mret fd.

(** ** References *)

Definition inc (h : hold) : P unit := set_world (λ w, w <| w_holds %= λ x, {[+ h +]} ⊎ x |>).
Definition dec (h : hold) : P unit := λ s,
  if bool_decide (h ∈ w_holds s.2) then Ok (tt, (s.1, s.2 <| w_holds %= (.∖ {[+ h +]}) |>)) else Oops Null_deref.

(** What an object keeps alive; a file is not counted. *)
Definition hold_of (obj : flat_binder_object) : option hold :=
  if fp_type obj =? BINDER_TYPE_BINDER then if fp_binder obj =? 0 then None else Some (H_strong (fp_cookie obj))
  else if fp_type obj =? BINDER_TYPE_WEAK_BINDER then if fp_binder obj =? 0 then None else Some (H_weak (fp_binder obj))
  else if fp_type obj =? BINDER_TYPE_HANDLE then
    if getStrongProxyForHandle (fp_binder obj) then Some (H_proxy (fp_binder obj)) else None
  else if fp_type obj =? BINDER_TYPE_WEAK_HANDLE then
    if getWeakProxyForHandle (fp_binder obj) then Some (H_weak_proxy (fp_binder obj)) else None
  else None.

Definition acquire_object (obj : flat_binder_object) : P unit :=
  match hold_of obj with Some h => inc h | None => mret tt end.

Definition release_object (obj : flat_binder_object) : P unit :=
  match hold_of obj with
  | Some h => dec h
  | None => if (fp_type obj =? BINDER_TYPE_FD) && negb (fp_cookie obj =? 0) then close (s32 (fp_binder obj)) else mret tt
  end.

Definition flat_at (off : Z) : P flat_binder_object := bs ← load off sizeof_flat_object; mret (decode_flat bs).

(** [while (i > 0)], downwards over the objects below [i]. *)
Fixpoint down_objects (i : nat) (f : flat_binder_object → P unit) : P unit :=
  match i with
  | O => mret tt
  | S i' => off ← get_object (Z.of_nat i'); flat ← flat_at off; f flat ;; down_objects i' f
  end.

Definition releaseObjects : P unit := p ← this; down_objects (Z.to_nat (mObjectsSize p)) release_object.
Definition acquireObjects : P unit := p ← this; down_objects (Z.to_nat (mObjectsSize p)) acquire_object.
Definition closeFileDescriptors : P unit :=
  p ← this;
  down_objects (Z.to_nat (mObjectsSize p)) (λ flat,
    if fp_type flat =? BINDER_TYPE_FD then close (s32 (fp_binder flat)) else mret tt).

(** [IPCThreadState::freeBuffer], the only owner there is. *)
Definition freeBuffer (data : Z) : P unit := closeFileDescriptors ;; set_world (λ w, w <| w_freed %= cons data |>).

Fixpoint scan_loop (n : nat) (i : Z) : P bool :=
  match n with
  | O => mret false
  | S n' =>
      off ← get_object i; flat ← flat_at off;
      if fp_type flat =? BINDER_TYPE_FD then mret true else scan_loop n' (i + 1)
  end.
Definition scanForFds : P unit :=
  p ← this; hasFds ← scan_loop (Z.to_nat (mObjectsSize p)) 0;
  set_this (λ p, p <| mHasFds := hasFds |> <| mFdsKnown := true |>).

Definition freeDataNoInit : P unit :=
  p ← this;
  match mOwner p with
  | Some data => freeBuffer data
  | None => releaseObjects ;; free (mData p) ;; free (mObjects p)
  end.

Definition freeData : P unit := freeDataNoInit ;; set_this (λ _, initState).

(** ** Growing and shrinking *)

Definition no_memory : P Z := set_this (λ p, p <| mError := NO_MEMORY |>) ;; mret NO_MEMORY.

(** How many objects start before [desired]. *)
Fixpoint objects_before (n : nat) (desired : Z) : P Z :=
  match n with
  | O => mret 0
  | S n' => off ← get_object (Z.of_nat n'); if off <? desired then mret (Z.of_nat n) else objects_before n' desired
  end.

Definition sizeof_size_t : Z := 4.
(** Room for [n] entries: the size in bytes may wrap around. *)
Definition entries (n : Z) : Z := u32 (n * sizeof_size_t) / sizeof_size_t.

(** The branch of [continueWrite] that takes the data from its owner. *)
Definition take_possession (data desired objectsSize : Z) : P Z :=
  b ← malloc desired;
  if is_null b then no_memory
  else
    p ← this;
    r ← (if negb (objectsSize =? 0) then
           o ← malloc (entries objectsSize);
           if is_null o then mret None
           else
             set_this (λ p, p <| mObjectsSize := objectsSize |>) ;;
             acquireObjects ;;
             set_this (λ q, q <| mObjectsSize := mObjectsSize p |>) ;;
             mret (Some o)
         else mret (Some Null));
    match r with
    | None => no_memory
    | Some o =>
        let kept := if mDataSize p <? desired then mDataSize p else desired in
        old ← (if is_null (mData p) then mret [] else load 0 kept);
        b ← the Bad_access (poke b 0 old);
        offs ← (if is_null o || is_null (mObjects p) then mret [] else the Bad_access (peek (mObjects p) 0 objectsSize));
        o ← the Bad_access (poke o 0 offs);
        freeBuffer data ;;
        set_this (λ p, p <| mOwner := None |> <| mData := b |> <| mObjects := o |> <| mDataSize := kept |>
          <| mDataCapacity := desired |> <| mObjectsSize := objectsSize |> <| mObjectsCapacity := objectsSize |>
          <| mNextObjectHint := 0 |>) ;;
        mret NO_ERROR
    end.

(** The loop that releases the objects from [i] on. *)
Fixpoint drop_objects (n : nat) (i : Z) : P unit :=
  match n with
  | O => mret tt
  | S n' =>
      off ← get_object i; flat ← flat_at off;
      (if fp_type flat =? BINDER_TYPE_FD then set_this (λ p, p <| mFdsKnown := false |>) else mret tt) ;;
      release_object flat ;; drop_objects n' (i + 1)
  end.

(** The branch with data of its own. *)
Definition resize_data (desired objectsSize : Z) : P Z :=
  p ← this;
  (if objectsSize <? mObjectsSize p then
     drop_objects (Z.to_nat (mObjectsSize p - objectsSize)) objectsSize ;;
     r ← realloc (mObjects p) (entries objectsSize);
     let '(objects, old) := r in
     set_this (λ p, p <| mObjects := if is_null objects then old else objects |> <| mObjectsSize := objectsSize |>
       <| mNextObjectHint := 0 |>)
   else mret tt) ;;
  if desired >? mDataCapacity p then
    r ← realloc (mData p) desired;
    let '(data, old) := r in
    if negb (is_null data) then set_this (λ p, p <| mData := data |> <| mDataCapacity := desired |>) ;; mret NO_ERROR
    else set_this (λ p, p <| mData := old |>) ;; no_memory
  else
    set_this (λ p, if mDataSize p >? desired then p <| mDataSize := desired |> else p) ;;
    set_this (λ p, if mDataPos p >? desired then p <| mDataPos := desired |> else p) ;;
    mret NO_ERROR.

(** The branch without data. *)
Definition first_data (desired : Z) : P Z :=
  b ← malloc desired;
  if is_null b then no_memory
  else
    set_this (λ p, p <| mData := b |> <| mDataSize := 0 |> <| mDataPos := 0 |> <| mDataCapacity := desired |>) ;;
    mret NO_ERROR.

Definition continueWrite (desired : Z) : P Z :=
  p ← this;
  objectsSize ←
    (if desired <? mDataSize p then
       if desired =? 0 then mret 0 else objects_before (Z.to_nat (mObjectsSize p)) desired
     else mret (mObjectsSize p));
  match mOwner p with
  | Some data => if desired =? 0 then freeData ;; mret NO_ERROR else take_possession data desired objectsSize
  | None => if negb (is_null (mData p)) then resize_data desired objectsSize else first_data desired
  end.

Definition growData (len : Z) : P Z :=
  p ← this;
  let newSize := u32 (u32 (mDataSize p + len) * 3) / 2 in
  if newSize <=? mDataSize p then mret NO_MEMORY else continueWrite newSize.

(** The objects are released through the pointer that was given to [realloc]. *)
Definition restartWrite (desired : Z) : P Z :=
  p ← this;
  match mOwner p with
  | Some _ => freeData ;; continueWrite desired
  | None =>
      r ← realloc (mData p) desired;
      let '(data, old) := r in
      set_this (λ p, p <| mData := old |>) ;;
      if is_null data && (desired >? mDataCapacity p) then no_memory
      else
        releaseObjects ;;
        (if is_null data then mret tt else set_this (λ p, p <| mData := data |> <| mDataCapacity := desired |>)) ;;
        free (mObjects p) ;;
        set_this (λ p, p <| mDataSize := 0 |> <| mDataPos := 0 |> <| mObjects := Null |> <| mObjectsSize := 0 |>
          <| mObjectsCapacity := 0 |> <| mNextObjectHint := 0 |> <| mHasFds := false |> <| mFdsKnown := true |>
          <| mAllowFds := true |>) ;;
        mret NO_ERROR
  end.

(** ** Sizes and positions *)

Definition dataSize (p : parcel) : Z := if mDataSize p >? mDataPos p then mDataSize p else mDataPos p.
Definition dataAvail (p : parcel) : Z := u32 (dataSize p - mDataPos p).

Definition setDataSize (size : Z) : P Z :=
  err ← continueWrite size;
  (if err =? NO_ERROR then set_this (λ p, p <| mDataSize := size |>) else mret tt) ;; mret err.

Definition setDataPosition (pos : Z) : P unit := set_this (λ p, p <| mDataPos := pos |> <| mNextObjectHint := 0 |>).

Definition setDataCapacity (size : Z) : P Z :=
  p ← this; if size >? mDataCapacity p then continueWrite size else mret NO_ERROR.

Definition setData (buffer : list Z) : P Z :=
  let len := Z.of_nat (length buffer) in
  err ← restartWrite len;
  (if err =? NO_ERROR then store 0 buffer ;; set_this (λ p, p <| mDataSize := len |> <| mFdsKnown := false |>)
   else mret tt) ;;
  mret err.

Definition pushAllowFds (allowFds : bool) : P bool :=
  p ← this;
  (if negb allowFds then set_this (λ p, p <| mAllowFds := false |>) else mret tt) ;; mret (mAllowFds p).
Definition restoreAllowFds (lastValue : bool) : P unit := set_this (λ p, p <| mAllowFds := lastValue |>).

Definition hasFileDescriptors : P bool :=
  p ← this; (if negb (mFdsKnown p) then scanForFds else mret tt) ;; p ← this; mret (mHasFds p).

Definition setError (err : Z) : P unit := set_this (λ p, p <| mError := err |>).

(** The loop that counts the objects of [parcel] in a range: the first and the
    last of them. *)
Fixpoint objects_in (objs : list Z) (i : Z) (offset len : Z) (firstIndex lastIndex : Z) : Z * Z :=
  match objs with
  | [] => (firstIndex, lastIndex)
  | off :: objs' =>
      if (off >=? offset) && (off <? u32 (offset + len)) then
        objects_in objs' (i + 1) offset len (if firstIndex =? -1 then i else firstIndex) i
      else objects_in objs' (i + 1) offset len firstIndex lastIndex
  end.

(** Appending and acquiring one object. *)
Definition append_object (off : Z) : P Z :=
  p ← this;
  put_object (mObjectsSize p) off ;;
  set_this (λ p, p <| mObjectsSize %= Z.add 1 |>) ;;
  flat ← flat_at off;
  acquire_object flat ;;
  if fp_type flat =? BINDER_TYPE_FD then
    fd ← new_fd;
    store off (encode_flat (mk_flat (fp_type flat) (fp_flags flat) (u32 fd) 1)) ;;
    set_this (λ p, p <| mHasFds := true |> <| mFdsKnown := true |>) ;;
    mret (if mAllowFds p then NO_ERROR else FDS_NOT_ALLOWED)
  else mret NO_ERROR.

Fixpoint append_objects (offs : list Z) (offset startPos err : Z) : P Z :=
  match offs with
  | [] => mret err
  | off :: offs' =>
      e ← append_object (u32 (off - offset + startPos));
      append_objects offs' offset startPos (if e =? NO_ERROR then err else e)
  end.

Definition grow_objects (newSize : Z) : P Z :=
  p ← this;
  r ← realloc (mObjects p) (entries newSize);
  let '(objects, old) := r in
  if is_null objects then set_this (λ p, p <| mObjects := old |>) ;; mret NO_MEMORY
  else set_this (λ p, p <| mObjects := objects |> <| mObjectsCapacity := newSize |>) ;; mret NO_ERROR.

(** [appendFrom]; [parcel] is another one than this. *)
Definition appendFrom (parcel : parcel) (offset len : Z) : P Z :=
  p ← this;
  let startPos := mDataPos p in
  if len =? 0 then mret NO_ERROR
  else if (offset >? mDataSize parcel) || (len >? mDataSize parcel) || (u32 (offset + len) >? mDataSize parcel) then mret BAD_VALUE
  else
    objs ← the Bad_access (peek (mObjects parcel) 0 (mObjectsSize parcel));
    let '(firstIndex, lastIndex) := objects_in objs 0 offset len (-1) (-2) in
    let numObjects := lastIndex - firstIndex + 1 in
    err ← (if u32 (mDataSize p + len) >? mDataCapacity p then growData len else mret NO_ERROR);
    if negb (err =? NO_ERROR) then mret err
    else
      p ← this;
      bytes ← the Bad_access (peek (mData parcel) offset len);
      store (mDataPos p) bytes ;;
      set_this (λ p, p <| mDataPos %= λ x, u32 (x + len) |> <| mDataSize %= λ x, u32 (x + len) |>) ;;
      if numObjects >? 0 then
        err ← (if mObjectsCapacity p <? mObjectsSize p + numObjects
               then grow_objects ((mObjectsSize p + numObjects) * 3 / 2) else mret NO_ERROR);
        if negb (err =? NO_ERROR) then mret err
        else append_objects (slice (Z.to_nat firstIndex) (Z.to_nat numObjects) objs) offset startPos NO_ERROR
      else mret NO_ERROR.

(** ** Writing *)

Definition finishWrite (len : Z) : P Z :=
  set_this (λ p, p <| mDataPos %= λ x, u32 (x + len) |>) ;;
  set_this (λ p, if mDataPos p >? mDataSize p then p <| mDataSize := mDataPos p |> else p) ;;
  mret NO_ERROR.

Definition writeUnpadded (data : list Z) : P Z :=
  let len := Z.of_nat (length data) in
  p ← this;
  let end_ := u32 (mDataPos p + len) in
  if end_ <? mDataPos p then mret BAD_VALUE
  else
    err ← (if end_ <=? mDataCapacity p then mret NO_ERROR else growData len);
    if err =? NO_ERROR then p ← this; store (mDataPos p) data ;; finishWrite len else mret err.

(** [writeInplace]: the offset of the room, or [None] for NULL.  The last word is
    masked, so that the padding is zero. *)
Definition writeInplace (len : Z) : P (option Z) :=
  let padded := PAD_SIZE len in
  p ← this;
  if u32 (mDataPos p + padded) <? mDataPos p then mret None
  else
    err ← (if u32 (mDataPos p + padded) <=? mDataCapacity p then mret NO_ERROR else growData padded);
    if negb (err =? NO_ERROR) then mret None
    else
      p ← this;
      let data := mDataPos p in
      (if negb (padded =? len) then
         w ← load (u32 (data + padded - 4)) 4;
         let k := Z.to_nat (4 - u32 (padded - len)) in
         store (u32 (data + padded - 4)) (take k w ++ replicate (4 - k) 0)
       else mret tt) ;;
      finishWrite padded ;;
      mret (Some data).

Definition write (data : list Z) : P Z :=
  d ← writeInplace (Z.of_nat (length data));
  match d with
  | Some d => store d data ;; mret NO_ERROR
  | None => p ← this; mret (mError p)
  end.

(** [writeAligned] of a value with these bytes, [sizeof(T)] of them. *)
Definition writeAligned (val : list Z) : P Z :=
  let len := Z.of_nat (length val) in
  p ← this;
  err ← (if u32 (mDataPos p + len) <=? mDataCapacity p then mret NO_ERROR else growData len);
  if err =? NO_ERROR then p ← this; store (mDataPos p) val ;; finishWrite len else mret err.

Definition writeInt32 (val : Z) : P Z := writeAligned (le_bytes 4 (u32 val)).
Definition writeInt64 (val : Z) : P Z := writeAligned (le_bytes 8 (val `mod` 2 ^ 64)).
(** The bits of a floating point number. *)
Definition writeFloat (bits : Z) : P Z := writeAligned (le_bytes 4 bits).
Definition writeDouble (bits : Z) : P Z := writeAligned (le_bytes 8 bits).
Definition writeIntPtr (val : Z) : P Z := writeAligned (le_bytes 4 (u32 val)).

(** [str] without its NUL. *)
Definition writeCString (str : list Z) : P Z := write (str ++ [0]).

Definition writeString8 (str : list Z) : P Z :=
  let bytes := Z.of_nat (length str) in
  err ← writeInt32 bytes;
  if (bytes >? 0) && (err =? NO_ERROR) then write (str ++ [0]) else mret err.

(** [str] is [None] for NULL. *)
Definition writeString16 (str : option (list Z)) : P Z :=
  match str with
  | None => writeInt32 (-1)
  | Some str =>
      let len := Z.of_nat (length str) in
      err ← writeInt32 len;
      if err =? NO_ERROR then
        let len := u32 (len * 2) in
        data ← writeInplace (u32 (len + 2));
        match data with
        | Some data => store data (bytes16 str) ;; store (u32 (data + len)) (le_bytes 2 0) ;; mret NO_ERROR
        | None => p ← this; mret (mError p)
        end
      else mret err
  end.

Definition writeInterfaceToken (strictModePolicy : Z) (interface : list Z) : P Z :=
  writeInt32 (Z.lor strictModePolicy STRICT_MODE_PENALTY_GATHER) ;; writeString16 (Some interface).

Definition writeObject (val : flat_binder_object) (nullMetaData : bool) : P Z :=
  p ← this;
  let enoughData := u32 (mDataPos p + sizeof_flat_object) <=? mDataCapacity p in
  let enoughObjects := mObjectsSize p <? mObjectsCapacity p in
  err ← (if negb enoughData then growData sizeof_flat_object else mret NO_ERROR);
  if negb (err =? NO_ERROR) then mret err
  else
    err ← (if negb enoughObjects then
             p ← this; grow_objects (u32 (u32 (mObjectsSize p + 2) * 3) / 2)
           else mret NO_ERROR);
    if negb (err =? NO_ERROR) then mret err
    else
      p ← this;
      store (mDataPos p) (encode_flat val) ;;
      (if nullMetaData || negb (fp_binder val =? 0) then
         put_object (mObjectsSize p) (mDataPos p) ;;
         acquire_object val ;;
         set_this (λ p, p <| mObjectsSize %= Z.add 1 |>)
       else mret tt) ;;
      if (fp_type val =? BINDER_TYPE_FD) && negb (mAllowFds p) then mret FDS_NOT_ALLOWED
      else
        (if fp_type val =? BINDER_TYPE_FD then set_this (λ p, p <| mHasFds := true |> <| mFdsKnown := true |>) else mret tt) ;;
        finishWrite sizeof_flat_object.

Definition writeNoException : P Z := writeInt32 0.

(** ** Binders *)

(** [sp<IBinder>]: a local object is known by its address. *)
Inductive ibinder : Type :=
| B_null
| B_local (cookie : Z)
| B_proxy (handle : Z).

(** [wp<IBinder>]; [W_dead] is one that cannot be promoted. *)
Inductive wbinder : Type :=
| W_null
| W_dead
| W_local (refs cookie : Z)
| W_proxy (handle : Z).

Definition null_object : flat_binder_object := mk_flat BINDER_TYPE_BINDER OBJECT_FLAGS 0 0.

(** [flatten_binder] of a strong and of a weak reference. *)
Definition flat_strong (b : ibinder) : flat_binder_object :=
  match b with
  | B_null => null_object
  | B_local cookie => mk_flat BINDER_TYPE_BINDER OBJECT_FLAGS (getWeakRefs cookie) cookie
  | B_proxy handle => mk_flat BINDER_TYPE_HANDLE OBJECT_FLAGS handle 0
  end.
Definition flat_weak (b : wbinder) : flat_binder_object :=
  match b with
  | W_null | W_dead => null_object
  | W_local refs cookie => mk_flat BINDER_TYPE_WEAK_BINDER OBJECT_FLAGS refs cookie
  | W_proxy handle => mk_flat BINDER_TYPE_WEAK_HANDLE OBJECT_FLAGS handle 0
  end.

Definition writeStrongBinder (val : ibinder) : P Z := writeObject (flat_strong val) false.
Definition writeWeakBinder (val : wbinder) : P Z := writeObject (flat_weak val) false.

(** ** Files *)

Definition writeFileDescriptor (fd : Z) (takeOwnership : bool) : P Z :=
  writeObject (mk_flat BINDER_TYPE_FD OBJECT_FLAGS (u32 fd) (b2z takeOwnership)) true.

Definition writeDupFileDescriptor (fd : Z) : P Z :=
  dupFd ← new_fd;
  if dupFd <? 0 then mret dupFd
  else
    err ← writeFileDescriptor dupFd true;
    (if negb (err =? 0) then close dupFd else mret tt) ;; mret err.

(** [for (...; err == NO_ERROR && ...)] over the files. *)
Fixpoint write_fds (fds : list Z) (err : Z) : P Z :=
  match fds with
  | [] => mret err
  | fd :: fds' => if negb (err =? NO_ERROR) then mret err else err ← writeDupFileDescriptor fd; write_fds fds' err
  end.

Record native_handle : Type := mk_native { nh_version : Z; nh_fds : list Z; nh_ints : list Z }.
Definition sizeof_native_handle : Z := 12.

(** [handle] is [None] for NULL. *)
Definition writeNativeHandle (handle : option native_handle) : P Z :=
  match handle with
  | None => mret BAD_TYPE
  | Some handle =>
      if negb (nh_version handle =? sizeof_native_handle) then mret BAD_TYPE
      else
        err ← writeInt32 (Z.of_nat (length (nh_fds handle)));
        if negb (err =? NO_ERROR) then mret err
        else
          err ← writeInt32 (Z.of_nat (length (nh_ints handle)));
          if negb (err =? NO_ERROR) then mret err
          else
            err ← write_fds (nh_fds handle) NO_ERROR;
            if negb (err =? NO_ERROR) then mret err else write (concat ((λ x, le_bytes 4 (u32 x)) <$> nh_ints handle))
  end.

(** A blob: nothing, room in the parcel, or a mapping. *)
Inductive blob : Type :=
| Blob_none
| Blob_inplace (off size : Z)
| Blob_mapped (addr size : Z).

(** The answer, and the blob; [mmap] answers -1 for [MAP_FAILED] and [errno] comes next. *)
Definition writeBlob (len : Z) : P (Z * blob) :=
  p ← this;
  if negb (mAllowFds p) || (len <=? IN_PLACE_BLOB_LIMIT) then
    status ← writeInt32 0;
    if negb (status =? 0) then mret (status, Blob_none)
    else
      ptr ← writeInplace len;
      match ptr with None => mret (NO_MEMORY, Blob_none) | Some ptr => mret (NO_ERROR, Blob_inplace ptr len) end
  else
    fd ← new_fd;
    if fd <? 0 then mret (NO_MEMORY, Blob_none)
    else
      result ← sys;
      r ← (if result <? 0 then mret (result, None)
           else
             ptr ← sys;
             if ptr =? -1 then errno ← sys; mret (- errno, None)
             else
               result ← sys;
               if result <? 0 then mret (result, None)
               else
                 status ← writeInt32 1;
                 if negb (status =? 0) then mret (status, None)
                 else
                   status ← writeFileDescriptor fd true;
                   mret (status, if status =? 0 then Some ptr else None));
      match r with
      | (_, Some ptr) => mret (NO_ERROR, Blob_mapped ptr len)
      | (status, None) => close fd ;; mret (status, Blob_none)
      end.

(** A [Flattenable]: what [flatten] answers and puts in the buffer and in the array of files. *)
Record flattenable : Type := mk_flattenable { fl_bytes : list Z; fl_fds : list Z; fl_err : Z }.

Definition write_flattenable (val : flattenable) : P Z :=
  let len := Z.of_nat (length (fl_bytes val)) in
  err ← writeInt32 len;
  if negb (err =? 0) then mret err
  else
    err ← writeInt32 (Z.of_nat (length (fl_fds val)));
    if negb (err =? 0) then mret err
    else
      buf ← writeInplace (PAD_SIZE len);
      match buf with
      | None => mret BAD_VALUE
      | Some buf => store buf (fl_bytes val) ;; write_fds (fl_fds val) (fl_err val)
      end.

(** ** Reading *)

(** The check that [len] bytes, padded, are left. *)
Definition readable (len : Z) (p : parcel) : bool :=
  (u32 (mDataPos p + PAD_SIZE len) >=? mDataPos p) && (u32 (mDataPos p + PAD_SIZE len) <=? mDataSize p).
Definition advance (len : Z) : P unit := set_this (λ p, p <| mDataPos %= λ x, u32 (x + len) |>).

(** The bytes read, [None] when there is [NOT_ENOUGH_DATA]. *)
Definition read (len : Z) : P (option (list Z)) :=
  p ← this;
  if readable len p then bs ← load (mDataPos p) len; advance (PAD_SIZE len) ;; mret (Some bs) else mret None.

(** The offset of the data, [None] for NULL. *)
Definition readInplace (len : Z) : P (option Z) :=
  p ← this; if readable len p then advance (PAD_SIZE len) ;; mret (Some (mDataPos p)) else mret None.

(** [readAligned] of [n] bytes; [None] is [NOT_ENOUGH_DATA]. *)
Definition readAligned (n : Z) : P (option Z) :=
  p ← this;
  if u32 (mDataPos p + n) <=? mDataSize p then
    advance n ;; bs ← load (mDataPos p) n; mret (Some (le_value bs))
  else mret None.

Definition readInt32_opt : P (option Z) := r ← readAligned 4; mret (s32 <$> r).
Definition readInt32 : P Z := r ← readInt32_opt; mret (default 0 r).
Definition s64 (x : Z) : Z := (x + 2 ^ 63) `mod` 2 ^ 64 - 2 ^ 63.
Definition readInt64 : P Z := r ← readAligned 8; mret (default 0 (s64 <$> r)).
Definition readFloat : P Z := r ← readAligned 4; mret (default 0 r).
Definition readDouble : P Z := r ← readAligned 8; mret (default 0 r).
Definition readIntPtr : P Z := readInt32.

(** [memchr(str, 0, avail)]: the bytes before the NUL; a search that leaves the block is a fault. *)
Fixpoint find_nul (l : list Z) (avail : Z) : option (option (list Z)) :=
  if avail =? 0 then Some None
  else match l with
       | [] => None
       | b :: l' => if b =? 0 then Some (Some [])
           else match find_nul l' (avail - 1) with Some (Some s) => Some (Some (b :: s)) | r => r end
       end.

Definition readCString : P (option (list Z)) :=
  p ← this;
  let avail := u32 (mDataSize p - mDataPos p) in
  if avail >? 0 then
    str ← the Bad_access (match mData p with Block l => find_nul (drop (Z.to_nat (mDataPos p)) l) avail | _ => None end);
    match str with
    | Some s => advance (PAD_SIZE (Z.of_nat (length s) + 1)) ;; mret (Some s)
    | None => mret None
    end
  else mret None.

Definition readString8 : P (list Z) :=
  size ← readInt32;
  if (size >? 0) && (size <? INT32_MAX) then
    str ← readInplace (size + 1);
    match str with Some str => load str size | None => mret [] end
  else mret [].

(** The offset and the length of the characters. *)
Definition readString16Inplace : P (option (Z * Z)) :=
  size ← readInt32;
  if (size >=? 0) && (size <? INT32_MAX) then
    str ← readInplace (u32 ((size + 1) * 2)); mret ((λ s, (s, size)) <$> str)
  else mret None.


Fixpoint words32 (bs : list Z) : list Z :=
  match bs with a :: b :: c :: d :: bs' => le_value [a; b; c; d] :: words32 bs' | _ => [] end.

Definition readString16 : P (list Z) :=
  r ← readString16Inplace;
  match r with Some (str, len) => bs ← load str (len * 2); mret (words16 bs) | None => mret [] end.

(** The answer, and the policy for the thread: none for one-way calls. *)
Definition enforceInterface (interface : list Z) (oneway : bool) : P (bool * Z) :=
  strictPolicy ← readInt32;
  str ← readString16;
  mret (bool_decide (str = interface), if oneway then 0 else strictPolicy).

Definition readExceptionCode : P Z :=
  exception_code ← readInt32;
  if exception_code =? EX_HAS_REPLY_HEADER then
    p ← this;
    header_size ← readInt32;
    setDataPosition (u32 (mDataPos p + header_size)) ;; mret 0
  else mret exception_code.

(** [while (opos < N - 1 && OBJS[opos] < DPOS) opos++], and the search backwards. *)
Fixpoint search_forward (fuel : nat) (opos n dpos : Z) : P Z :=
  match fuel with
  | O => mret opos
  | S fuel' =>
      if opos <? n - 1 then
        off ← get_object opos; if off <? dpos then search_forward fuel' (opos + 1) n dpos else mret opos
      else mret opos
  end.
Fixpoint search_backward (opos : nat) (dpos : Z) : P Z :=
  match opos with
  | O => mret 0
  | S o' => off ← get_object (Z.of_nat opos); if off >? dpos then search_backward o' dpos else mret (Z.of_nat opos)
  end.

(** The search of the object list, from the hint on and then backwards. *)
Definition find_object (dpos : Z) : P bool :=
  p ← this;
  let n := mObjectsSize p in
  if n >? 0 then
    let hint := mNextObjectHint p in
    opos ← (if hint <? n then search_forward (Z.to_nat n) hint n dpos else mret (n - 1));
    off ← get_object opos;
    if off =? dpos then set_this (λ p, p <| mNextObjectHint := opos + 1 |>) ;; mret true
    else
      opos ← search_backward (Z.to_nat opos) dpos;
      off ← get_object opos;
      if off =? dpos then set_this (λ p, p <| mNextObjectHint := opos + 1 |>) ;; mret true else mret false
  else mret false.

(** The object at the position, [None] for NULL; the caller reads it. *)
Definition readObject (nullMetaData : bool) : P (option flat_binder_object) :=
  p ← this;
  let dpos := mDataPos p in
  if u32 (dpos + sizeof_flat_object) <=? mDataSize p then
    set_this (λ p, p <| mDataPos := u32 (dpos + sizeof_flat_object) |>) ;;
    null ← (if nullMetaData then mret false
            else flat ← flat_at dpos; mret ((fp_cookie flat =? 0) && (fp_binder flat =? 0)));
    found ← (if null : bool then mret true else find_object dpos);
    if found : bool then flat ← flat_at dpos; mret (Some flat) else mret None
  else mret None.

(** [unflatten_binder] of strong and weak references; the status is not looked at. *)
Definition strong_of (flat : flat_binder_object) : ibinder :=
  if fp_type flat =? BINDER_TYPE_BINDER then if fp_cookie flat =? 0 then B_null else B_local (fp_cookie flat)
  else if fp_type flat =? BINDER_TYPE_HANDLE then
    if getStrongProxyForHandle (fp_binder flat) then B_proxy (fp_binder flat) else B_null
  else B_null.
Definition readStrongBinder : P ibinder :=
  flat ← readObject false; mret (match flat with Some f => strong_of f | None => B_null end).

Definition weak_of (flat : flat_binder_object) : wbinder :=
  if fp_type flat =? BINDER_TYPE_BINDER then
    if fp_cookie flat =? 0 then W_null else W_local (getWeakRefs (fp_cookie flat)) (fp_cookie flat)
  else if fp_type flat =? BINDER_TYPE_WEAK_BINDER then
    if fp_binder flat =? 0 then W_null else W_local (fp_binder flat) (fp_cookie flat)
  else if (fp_type flat =? BINDER_TYPE_HANDLE) || (fp_type flat =? BINDER_TYPE_WEAK_HANDLE) then
    if getWeakProxyForHandle (fp_binder flat) then W_proxy (fp_binder flat) else W_null
  else W_null.
Definition readWeakBinder : P wbinder :=
  flat ← readObject false; mret (match flat with Some f => weak_of f | None => W_null end).

Definition readFileDescriptor : P Z :=
  flat ← readObject true;
  mret (match flat with
        | Some f => if fp_type f =? BINDER_TYPE_FD then s32 (fp_binder f) else BAD_TYPE
        | None => BAD_TYPE
        end).

(** The files of a record, each one duplicated. *)
Fixpoint read_fds (n : nat) (err : Z) : P (Z * list Z) :=
  match n with
  | O => mret (err, [])
  | S n' =>
      if negb (err =? NO_ERROR) then mret (err, [])
      else
        readFileDescriptor ;;
        fd ← new_fd;
        r ← read_fds n' (if fd <? 0 then BAD_VALUE else err);
        mret (r.1, fd :: r.2)
  end.

(** Negative counts, or no memory for the handle, are a fault: [native_handle_create]
    looks at neither.  Files after one that cannot be duplicated are not set. *)
Definition readNativeHandle : P (option native_handle) :=
  numFds ← readInt32_opt;
  match numFds with
  | None => mret None
  | Some numFds =>
      numInts ← readInt32_opt;
      match numInts with
      | None => mret None
      | Some numInts =>
          ok ← heap_gives;
          if negb ok || (numFds <? 0) || (numInts <? 0) then fail Bad_access
          else
            r ← read_fds (Z.to_nat numFds) NO_ERROR;
            ints ← read (numInts * 4);
            match ints with
            | Some ints => mret (Some (mk_native sizeof_native_handle r.2 (s32 <$> words32 ints)))
            | None => for_each close r.2 ;; mret None
            end
      end
  end.

Definition readBlob (len : Z) : P (Z * blob) :=
  useAshmem ← readInt32_opt;
  match useAshmem with
  | None => mret (NOT_ENOUGH_DATA, Blob_none)
  | Some useAshmem =>
      if useAshmem =? 0 then
        ptr ← readInplace len;
        match ptr with None => mret (BAD_VALUE, Blob_none) | Some ptr => mret (NO_ERROR, Blob_inplace ptr len) end
      else
        fd ← readFileDescriptor;
        if fd =? BAD_TYPE then mret (BAD_VALUE, Blob_none)
        else ptr ← sys; if ptr =? 0 then mret (NO_MEMORY, Blob_none) else mret (NO_ERROR, Blob_mapped ptr len)
  end.

(** [read] of a [Flattenable], whose [unflatten] gets the bytes and the files. *)
Definition read_flattenable (unflatten : list Z → list Z → Z) : P Z :=
  len ← readInt32;
  fd_count ← readInt32;
  buf ← readInplace (PAD_SIZE (u32 len));
  match buf with
  | None => mret BAD_VALUE
  | Some buf =>
      r ← read_fds (Z.to_nat (u32 fd_count)) NO_ERROR;
      if r.1 =? NO_ERROR then bs ← load buf (u32 len); mret (unflatten bs r.2) else mret r.1
  end.

(** ** The driver's side *)

Definition ipcSetDataReference (address : Z) (data objects : list Z) : P unit :=
  freeDataNoInit ;;
  set_this (λ p, p <| mError := NO_ERROR |> <| mData := Block data |> <| mDataSize := Z.of_nat (length data) |>
    <| mDataCapacity := Z.of_nat (length data) |> <| mDataPos := 0 |> <| mObjects := Block objects |>
    <| mObjectsSize := Z.of_nat (length objects) |> <| mObjectsCapacity := Z.of_nat (length objects) |>
    <| mNextObjectHint := 0 |> <| mOwner := Some address |>) ;;
  scanForFds.

Definition ipcDataSize (p : parcel) : Z := dataSize p.
End parcel.
End Parcel.
