(* ===== verification/ParcelSpec.v ===== *)
(** What a parcel contains: the bytes and the objects written to it, whatever
    the sizes of its blocks; growing keeps them, writing at the end appends. *)
From stdpp Require Import gmultiset.
From S2P Require Import Prelude BinderUapi Parcel.
Import Parcel.

Module ParcelRep.

Section rep.
Context {PR : Process}.
Implicit Types (p : parcel) (w : world) (c : list Z) (os : list Z).

(** A block of [n] items that begins with [l]. *)
Definition holds_prefix (b : block) (n : Z) (l : list Z) : Prop :=
  (∃ rest, b = Block (l ++ rest) ∧ Z.of_nat (length (l ++ rest)) = n) ∨ (b = Null ∧ n = 0 ∧ l = []).

(** [p] owns its data, has the content [c] and the objects at [os]; sizes are
    far from wrapping around. *)
Record rep p c os : Prop := {
  rep_data : holds_prefix (mData p) (mDataCapacity p) c;
  rep_size : mDataSize p = Z.of_nat (length c);
  rep_objects : holds_prefix (mObjects p) (mObjectsCapacity p) os;
  rep_count : mObjectsSize p = Z.of_nat (length os);
  rep_pos : 0 <= mDataPos p <= mDataSize p;
  rep_cap : mDataCapacity p < 2 ^ 31;
  rep_ocap : mObjectsCapacity p < 2 ^ 29;
  rep_offsets : Forall (λ o, 0 <= o ∧ o + 16 <= Z.of_nat (length c)) os;
  rep_sorted : StronglySorted Z.lt os;
  rep_many : 16 * Z.of_nat (length os) <= Z.of_nat (length c);
  rep_owner : mOwner p = None
}.

Definition at_end p : Prop := mDataPos p = mDataSize p.

(** What the next request for memory is answered. *)
Definition given w : bool := match w_heap w with b :: _ => b | [] => false end.
Definition spent w : world := w <| w_heap %= tail |>.
(** The next [n] requests are granted. *)
Definition plenty (n : nat) w : Prop := take n (w_heap w) = replicate n true.

Lemma plenty_spent n w : plenty (S n) w → given w = true ∧ plenty n (spent w).
Proof. unfold plenty, given, spent. destruct w as [[|b h] ? ? ? ?]; simpl; [done|]. by intros [= -> ->]. Qed.

Lemma plenty_le n m w : (n ≤ m)%nat → plenty m w → plenty n w.
Proof.
  unfold plenty. intros Hn E. assert (take n (take m (w_heap w)) = take n (replicate m true)) as E' by by rewrite E.
  by rewrite take_take, Nat.min_l, take_replicate, Nat.min_l in E' by lia.
Qed.

Lemma heap_gives_eq p w : heap_gives (p, w) = Ok (given w, (p, spent w)).
Proof. unfold heap_gives, given, spent. by destruct w as [[|b h] ? ? ? ?]. Qed.

Lemma this_bind {A} (f : parcel → P A) p w : (this ≫= f) (p, w) = f p (p, w).
Proof. done. Qed.
Lemma set_this_bind {A} g (f : unit → P A) p w : (set_this g ≫= f) (p, w) = f tt (g p, w).
Proof. done. Qed.
Lemma ret_bind {A B} (x : A) (f : A → P B) s : (mret x ≫= f) s = f x s.
Proof. done. Qed.
Lemma bind_bind {A B C} (m : P A) (f : A → P B) (g : B → P C) s : ((m ≫= f) ≫= g) s = (m ≫= (λ x, f x ≫= g)) s.
Proof. unfold mbind, st_bind. by destruct (m s) as [[]|]. Qed.
Lemma bind_ok {A B S} (m : ST S A) (f : A → ST S B) s a s1 : m s = Ok (a, s1) → (m ≫= f) s = f a s1.
Proof. apply st_bind_eq. Qed.

Ltac prun := repeat (first [rewrite this_bind | rewrite set_this_bind | rewrite ret_bind]; cbv beta).

Lemma StronglySorted_snoc (R : Z → Z → Prop) l x : StronglySorted R l → Forall (λ y, R y x) l → StronglySorted R (l ++ [x]).
Proof.
  induction 1 as [|y l Hs IH Hy]; simpl; [repeat constructor|]. inversion_clear 1 as [|? ? Hyx Hl].
  constructor; [by apply IH|]. apply Forall_app. split; [done|by constructor].
Qed.

(** ** Blocks *)

Lemma length_fresh n : 0 <= n → Z.of_nat (length (fresh n)) = n.
Proof. intros Hn. unfold fresh. rewrite length_fmap, length_seq. lia. Qed.

Lemma malloc_eq n p w : malloc n (p, w) = Ok (if given w then Block (fresh n) else Null, (p, spent w)).
Proof. unfold malloc. by rewrite (bind_ok _ _ _ _ _ (heap_gives_eq p w)). Qed.

(** Growing a block. *)
Lemma realloc_grow b m n l p w :
  holds_prefix b m l → m <= n → 0 < n →
  ∃ b' old, realloc b n (p, w) = Ok ((b', old), (p, spent w)) ∧
    (given w = true → is_null b' = false ∧ holds_prefix b' n l) ∧ (given w = false → b' = Null ∧ old = b).
Proof.
  intros [(rest & -> & Hl)|(-> & -> & ->)] Hmn Hn; unfold realloc.
  - rewrite (proj2 (Z.eqb_neq n 0)) by lia. cbn [andb].
    rewrite (bind_ok _ _ _ _ _ (heap_gives_eq p w)). eexists (if given w then _ else _), (if given w then _ else _). split; [by destruct (given w)|].
    destruct (given w); split; [|done|done|done]. intros _. split; [done|]. left.
    eexists (rest ++ drop (length (l ++ rest)) (fresh n)).
    assert (length ((l ++ rest) ++ drop (length (l ++ rest)) (fresh n)) = Z.to_nat n) as E.
    { rewrite length_app, length_drop. pose proof (length_fresh n ltac:(lia)). lia. }
    rewrite take_ge by lia. rewrite <- app_assoc. split; [done|]. rewrite app_assoc, E. lia.
  - rewrite (bind_ok _ _ _ _ _ (malloc_eq n p w)). eexists _, _. split; [reflexivity|].
    destruct (given w); split; [|done|done|done]. intros _. split; [done|]. left. exists (fresh n). split; [done|]. by apply length_fresh, Z.lt_le_incl.
Qed.

Lemma peek_prefix b n l off k :
  holds_prefix b n l → 0 <= off → 0 <= k → off + k <= Z.of_nat (length l) →
  peek b off k = Some (slice (Z.to_nat off) (Z.to_nat k) l).
Proof.
  intros Hb Ho Hk Hl. unfold peek. destruct (Z.eqb_spec k 0) as [->|]; [done|].
  destruct Hb as [(rest & -> & Hn)|(-> & _ & ->)]; [|simpl in Hl; lia].
  rewrite (proj2 (Z.leb_le _ _)) by (rewrite length_app; lia). f_equal. unfold slice.
  rewrite drop_app_le by lia. rewrite take_app_le; [done|]. rewrite length_drop. lia.
Qed.

(** Writing right behind the prefix. *)
Lemma poke_prefix b n l bs :
  holds_prefix b n l → Z.of_nat (length l) + Z.of_nat (length bs) <= n →
  ∃ b', poke b (Z.of_nat (length l)) bs = Some b' ∧ holds_prefix b' n (l ++ bs).
Proof.
  intros Hb Hn. unfold poke. case_bool_decide as Hbs; [subst; rewrite app_nil_r; eauto|].
  destruct Hb as [(rest & -> & Hl)|(-> & -> & ->)].
  2: { destruct bs; [done|simpl in Hn; lia]. }
  rewrite (proj2 (Z.leb_le _ _)) by lia. eexists. split; [done|]. left.
  exists (drop (length bs) rest). unfold splice. rewrite Nat2Z.id, take_app_length.
  rewrite (drop_app_ge _ _ (length l + length bs)) by lia.
  replace (length l + length bs - length l)%nat with (length bs) by lia.
  rewrite <- app_assoc. split; [done|]. rewrite !length_app, length_drop in *. lia.
Qed.

Lemma holds_prefix_le b n l : holds_prefix b n l → Z.of_nat (length l) <= n.
Proof. intros [(rest & -> & <-)|(-> & -> & ->)]; [rewrite length_app; lia|simpl; lia]. Qed.

(** ** Growing *)

Lemma rep_set_data p c os b n :
  rep p c os → holds_prefix b n c → n < 2 ^ 31 → rep (p <| mData := b |> <| mDataCapacity := n |>) c os.
Proof. intros [] Hb Hn. by constructor. Qed.

Lemma continueWrite_grow p w c os desired :
  rep p c os → mDataCapacity p < desired < 2 ^ 31 →
  ∃ r p', continueWrite desired (p, w) = Ok (r, (p', spent w)) ∧ rep p' c os ∧ mDataPos p' = mDataPos p ∧
    mAllowFds p' = mAllowFds p ∧ mObjectsCapacity p' = mObjectsCapacity p ∧
    (if given w then r = NO_ERROR ∧ mDataCapacity p' = desired else r = NO_MEMORY ∧ mError p' = NO_MEMORY).
Proof.
  intros R Hd. destruct (R) as [Hb Hsz Ho Hc Hpos Hcap Hocap Hoff Hsort Hmany Hown].
  pose proof (holds_prefix_le _ _ _ Hb) as Hle.
  unfold continueWrite. prun. rewrite (proj2 (Z.ltb_ge _ _)) by lia. prun. rewrite Hown.
  destruct Hb as [(rest & Hb & Hl)|(Hb & Hcap0 & ->)].
  - rewrite Hb. cbn [is_null negb]. unfold resize_data. prun.
    rewrite Z.ltb_irrefl. prun. rewrite Z.gtb_ltb, (proj2 (Z.ltb_lt _ _)) by lia.
    destruct (realloc_grow (mData p) (mDataCapacity p) desired c p w (rep_data _ _ _ R)) as (b' & old & E & Hg & Hr); [lia..|].
    rewrite (bind_ok _ _ _ _ _ E). cbv beta iota. destruct (given w).
    + destruct (Hg eq_refl) as [Hn Hp]. rewrite Hn. cbn. eexists _, _. split; [reflexivity|].
      split; [apply rep_set_data; [done..|lia]|done].
    + destruct (Hr eq_refl) as [-> ->]. cbn. eexists _, _. split; [reflexivity|]. split; [destruct R; by constructor|done].
  - rewrite Hb. cbn [is_null negb]. unfold first_data. rewrite (bind_ok _ _ _ _ _ (malloc_eq desired p w)).
    destruct (given w); cbn [is_null].
    + eexists _, _. split; [reflexivity|]. cbn. simpl in Hsz.
      assert (mDataPos p = 0) as Hp0 by lia. split; [|done]. constructor; cbn; try done; try lia.
      left. exists (fresh desired). split; [done|]. apply length_fresh. lia.
    + eexists _, _. split; [reflexivity|]. split; [destruct R; by constructor|done].
Qed.

(** The test for room and the growth in front of each write at the end. *)
Lemma ensure_room p w c os len :
  rep p c os → at_end p → 0 < len → Z.of_nat (length c) + len < 2 ^ 29 →
  ∃ r p' w', (if u32 (mDataPos p + len) <=? mDataCapacity p then mret NO_ERROR else growData len) (p, w) = Ok (r, (p', w')) ∧
    rep p' c os ∧ at_end p' ∧ mAllowFds p' = mAllowFds p ∧ mObjectsCapacity p' = mObjectsCapacity p ∧ (w' = w ∨ w' = spent w) ∧
    (r = NO_ERROR ∧ Z.of_nat (length c) + len <= mDataCapacity p' ∨ r = NO_MEMORY ∧ given w = false ∧ mError p' = NO_MEMORY).
Proof.
  intros R He Hlen Hc. pose proof (rep_size _ _ _ R) as Hsz. unfold at_end in He. rewrite u32_small by lia.
  destruct (Z.leb_spec (mDataPos p + len) (mDataCapacity p)) as [Hle|Hgt].
  { exists NO_ERROR, p, w. split; [done|]. split_and!; try done; [by left|]. left. lia. }
  unfold growData. prun. rewrite (u32_small (mDataSize p + len)) by lia. rewrite u32_small by lia.
  assert (mDataSize p + len <= (mDataSize p + len) * 3 / 2 <= 2 * (mDataSize p + len)) as Hn.
  { split; [apply Z.div_le_lower_bound; lia|]. apply Z.div_le_upper_bound; lia. }
  rewrite (proj2 (Z.leb_gt _ _)) by lia.
  destruct (continueWrite_grow p w c os ((mDataSize p + len) * 3 / 2) R) as (r & p' & E & R' & Hp & Ha & Hoc & Hr); [lia|].
  exists r, p', (spent w). split; [exact E|]. split; [done|].
  split; [unfold at_end; rewrite Hp, He, Hsz; by rewrite (rep_size _ _ _ R')|]. split; [done|]. split; [done|]. split; [by right|].
  destruct (given w); [left; split; [tauto|]; destruct Hr as [_ ->]; lia|right; tauto].
Qed.

(** ** Writing *)

Lemma Forall_offsets_app c bs os :
  Forall (λ o, 0 <= o ∧ o + 16 <= Z.of_nat (length c)) os → Forall (λ o, 0 <= o ∧ o + 16 <= Z.of_nat (length (c ++ bs))) os.
Proof. intros H. eapply Forall_impl; [exact H|]. simpl. intros o. rewrite length_app. lia. Qed.

Lemma finishWrite_eq n p w :
  at_end p → 0 <= n → 0 <= mDataSize p → mDataSize p + n < 2 ^ 32 →
  finishWrite n (p, w) = Ok (NO_ERROR, (p <| mDataPos := mDataPos p + n |> <| mDataSize := mDataSize p + n |>, w)).
Proof.
  unfold at_end. intros He Hn Hs Hu. unfold finishWrite. prun.
  assert (p <| mDataPos %= λ x, u32 (x + n) |> = p <| mDataPos := mDataPos p + n |>) as ->.
  { destruct p; cbn in *. cbv [update field_mDataPos]. cbn. rewrite u32_small by lia. done. }
  cbn. rewrite Z.gtb_ltb. destruct (Z.ltb_spec (mDataSize p) (mDataPos p + n)) as [|Hge]; [by rewrite <- He|].
  assert (n = 0) as -> by lia. rewrite !Z.add_0_r. by destruct p.
Qed.

(** What was put behind the content becomes content. *)
Lemma finishWrite_ok p w c bs os n :
  rep p c os → at_end p → holds_prefix (mData p) (mDataCapacity p) (c ++ bs) → n = Z.of_nat (length bs) →
  ∃ p', finishWrite n (p, w) = Ok (NO_ERROR, (p', w)) ∧ rep p' (c ++ bs) os ∧ at_end p' ∧
    p' = p <| mDataPos := mDataPos p + n |> <| mDataSize := mDataSize p + n |>.
Proof.
  intros R He Hb ->. destruct R as [_ Hsz Ho Hc Hpos Hcap Hocap Hoff Hsort Hmany Hown].
  pose proof (holds_prefix_le _ _ _ Hb) as Hle. rewrite length_app in Hle.
  rewrite finishWrite_eq by (done || lia). eexists. split; [reflexivity|]. unfold at_end in *. split_and!; [|cbn; lia|done].
  constructor; cbn; try done; rewrite ?length_app; try lia. rewrite <- length_app. by apply Forall_offsets_app.
Qed.

Lemma store_behind p w c bs os :
  rep p c os → at_end p → Z.of_nat (length c) + Z.of_nat (length bs) <= mDataCapacity p →
  ∃ b, store (mDataPos p) bs (p, w) = Ok (tt, (p <| mData := b |>, w)) ∧ holds_prefix b (mDataCapacity p) (c ++ bs) ∧
    rep (p <| mData := b |>) c os.
Proof.
  intros R He Hl. destruct (poke_prefix _ _ _ bs (rep_data _ _ _ R) Hl) as (b & E & Hb).
  exists b. unfold store. prun. unfold at_end in He. rewrite He, (rep_size _ _ _ R), E. cbn [the]. prun. split; [done|].
  split; [done|]. destruct R as [Hb0 ? ? ? ? ? ? ? ? ? ?]. constructor; try done. cbn.
  destruct Hb as [(rest & -> & Hr)|(-> & H0 & [-> ->]%app_eq_nil)].
  - left. exists (bs ++ rest). by rewrite app_assoc.
  - by right.
Qed.

Lemma append_ok p w c bs os n :
  rep p c os → at_end p → Z.of_nat (length c) + Z.of_nat (length bs) <= mDataCapacity p → n = Z.of_nat (length bs) →
  ∃ p', (store (mDataPos p) bs ;; finishWrite n) (p, w) = Ok (NO_ERROR, (p', w)) ∧ rep p' (c ++ bs) os ∧ at_end p' ∧
    mAllowFds p' = mAllowFds p ∧ mObjectsCapacity p' = mObjectsCapacity p.
Proof.
  intros R He Hl ->. destruct (store_behind p w c bs os R He Hl) as (b & E & Hb & R').
  rewrite (bind_ok _ _ _ _ _ E). destruct (finishWrite_ok _ w c bs os _ R' He Hb eq_refl) as (p' & E' & R'' & He' & Ep).
  exists p'. split; [exact E'|]. split_and!; [done|done|by rewrite Ep..].
Qed.

(** Only memory was asked for. *)
Definition heap_only w w' : Prop := w' = w <| w_heap := w_heap w' |>.

Lemma heap_only_refl w : heap_only w w.
Proof. by destruct w. Qed.
Lemma heap_only_spent w : heap_only w (spent w).
Proof. by destruct w. Qed.
Lemma heap_only_trans w w' w'' : heap_only w w' → heap_only w' w'' → heap_only w w''.
Proof. unfold heap_only. intros E E'. rewrite E' at 1. rewrite E. by destruct w. Qed.
Lemma heap_only_or w w' : w' = w ∨ w' = spent w → heap_only w w'.
Proof. intros [->| ->]; [apply heap_only_refl|apply heap_only_spent]. Qed.
Lemma heap_only_holds w w' : heap_only w w' → w_holds w' = w_holds w.
Proof. by intros ->. Qed.

(** Of [n] blocks at most. *)
Definition at_most (n : nat) w w' : Prop := ∀ m, plenty (n + m) w → plenty m w'.
Lemma at_most_one w w' : w' = w ∨ w' = spent w → at_most 1 w w'.
Proof. intros [->| ->] m Hp; [apply (plenty_le m (1 + m)); [lia|done]|by apply plenty_spent]. Qed.
Lemma at_most_trans n1 n2 w w' w'' : at_most n1 w w' → at_most n2 w' w'' → at_most (n1 + n2) w w''.
Proof. intros H1 H2 m Hp. apply H2, H1. by rewrite Nat.add_assoc. Qed.
Lemma at_most_0 w : at_most 0 w w.
Proof. by intros m. Qed.
Lemma refused_plenty n w : given w = false → ¬ plenty (S n) w.
Proof. intros Hg [Hg' _]%plenty_spent. congruence. Qed.

(** A write of [bs], and of the objects [no] that hold [dh], at the end of a
    parcel: it succeeds when [n] blocks are there to be had, and fails otherwise
    with a valid parcel. *)
Definition writes (n : nat) (op : P Z) p w c os bs no (dh : gmultiset hold) : Prop :=
  ∃ r p' w', op (p, w) = Ok (r, (p', w')) ∧ at_end p' ∧ mAllowFds p' = mAllowFds p ∧ at_most n w w' ∧
    (r = NO_ERROR ∧ rep p' (c ++ bs) (os ++ no) ∧ heap_only (w <| w_holds := dh ⊎ w_holds w |>) w' ∨
     r ≠ NO_ERROR ∧ ¬ plenty n w ∧ heap_only w w' ∧ ∃ c', rep p' (c ++ c') os).

Lemma heap_only_no_holds w w' : heap_only w w' → heap_only (w <| w_holds := ∅ ⊎ w_holds w |>) w'.
Proof. unfold heap_only. intros E. rewrite E at 1. rewrite (left_id_L ∅ (⊎)). by destruct w. Qed.

Lemma writeAligned_ok p w c os bs :
  rep p c os → at_end p → 0 < Z.of_nat (length bs) → Z.of_nat (length c) + Z.of_nat (length bs) < 2 ^ 29 →
  writes 1 (writeAligned bs) p w c os bs [] ∅.
Proof.
  intros R He Hb Hc. unfold writeAligned.
  destruct (ensure_room p w c os (Z.of_nat (length bs)) R He Hb Hc) as (r & p' & w' & E & R' & He' & Ha & _ & Hw & Hr).
  unfold writes. rewrite this_bind, (bind_ok _ _ _ _ _ E). destruct Hr as [[-> Hr]|(-> & Hr & _)].
  - change (NO_ERROR =? NO_ERROR) with true. cbv iota. rewrite this_bind.
    destruct (append_ok p' w' c bs os _ R' He' Hr eq_refl) as (p2 & E2 & R2 & He2 & Ha2 & _). rewrite E2.
    exists NO_ERROR, p2, w'. split; [done|]. split_and!; [done|congruence|by apply at_most_one|]. left. rewrite app_nil_r.
    split_and!; [done|done|by apply heap_only_no_holds, heap_only_or].
  - exists NO_MEMORY, p', w'. split; [done|]. split_and!; [done|done|by apply at_most_one|]. right.
    split_and!; [done|by apply refused_plenty|by apply heap_only_or|exists []; by rewrite app_nil_r].
Qed.

Lemma PAD_SIZE_div s : 0 <= s < 2 ^ 32 - 3 → PAD_SIZE s = 4 * ((s + 3) / 4).
Proof.
  intros Hs. unfold PAD_SIZE. rewrite u32_small by lia. rewrite <- ALIGN4_div. unfold ALIGN.
  replace (s + (4 - 1)) with (s + 3) by lia. apply Z.bits_inj'. intros n Hn. rewrite !Z.land_spec. unfold u32.
  destruct (decide (n < 32)) as [Hn32|Hn32].
  - by rewrite !Z.mod_pow2_bits_low by lia.
  - rewrite (Z.bits_above_log2 (s + 3)); [done|lia|]. destruct (decide (s + 3 = 0)) as [->|]; [simpl; lia|].
    apply Z.log2_lt_pow2; [lia|]. apply Z.lt_le_trans with (2 ^ 32); [lia|]. apply Z.pow_le_mono_r; lia.
Qed.

Lemma PAD_SIZE_range s : 0 <= s < 2 ^ 32 - 3 → s <= PAD_SIZE s < s + 4 ∧ PAD_SIZE s `mod` 4 = 0.
Proof. intros Hs. rewrite PAD_SIZE_div by lia. Z.to_euclidean_division_equations. lia. Qed.

(** Writing over a part of the content. *)
Lemma store_inside p w c1 old c2 os bs :
  rep p (c1 ++ old ++ c2) os → length bs = length old →
  ∃ b, store (Z.of_nat (length c1)) bs (p, w) = Ok (tt, (p <| mData := b |>, w)) ∧ rep (p <| mData := b |>) (c1 ++ bs ++ c2) os.
Proof.
  intros R Hl. assert (length (c1 ++ bs ++ c2) = length (c1 ++ old ++ c2)) as El by (rewrite !length_app; lia).
  assert (∃ b, poke (mData p) (Z.of_nat (length c1)) bs = Some b ∧ holds_prefix b (mDataCapacity p) (c1 ++ bs ++ c2)) as (b & E & Hb).
  { unfold poke. case_bool_decide as Hbs.
    { subst bs. destruct old; [|done]. exists (mData p). split; [done|apply R]. }
    destruct (rep_data _ _ _ R) as [(rest & -> & Hr)|(_ & _ & [_ [-> _]%app_eq_nil]%app_eq_nil)]; [|by destruct bs].
    rewrite (proj2 (Z.leb_le _ _)) by (rewrite !length_app; lia). eexists. split; [done|]. left. exists rest.
    unfold splice. rewrite <- !app_assoc, Nat2Z.id, take_app_length. rewrite drop_app_ge by lia.
    rewrite Hl. replace (length c1 + length old - length c1)%nat with (length old) by lia. rewrite drop_app_length.
    split; [done|]. rewrite !length_app in *. lia. }
  exists b. unfold store. prun. rewrite E. cbn [the]. prun. split; [done|].
  destruct R as [_ Hsz Ho Hc Hpos Hcap Hocap Hoff Hsort Hmany Hown]. constructor; cbn; try done; rewrite ?El; done.
Qed.

(** The last word of the room is masked. *)
Lemma mask_ok p w c os len padded :
  rep p c os → at_end p → 0 < len < 2 ^ 29 → padded = PAD_SIZE len → Z.of_nat (length c) + padded <= mDataCapacity p →
  ∃ b hole, (if negb (padded =? len) then
       w ← load (u32 (mDataPos p + padded - 4)) 4;
       let k := Z.to_nat (4 - u32 (padded - len)) in
       store (u32 (mDataPos p + padded - 4)) (take k w ++ replicate (4 - k) 0)
     else mret tt) (p, w) = Ok (tt, (p <| mData := b |>, w)) ∧
    Z.of_nat (length hole) = len ∧
    holds_prefix b (mDataCapacity p) (c ++ hole ++ replicate (Z.to_nat (padded - len)) 0) ∧ rep (p <| mData := b |>) c os.
Proof.
  intros R He Hlen Hp Hc. pose proof (rep_cap _ _ _ R). pose proof (PAD_SIZE_range len ltac:(lia)) as [Hpad Hmod]. rewrite <- Hp in Hpad, Hmod.
  pose proof (rep_size _ _ _ R) as Hsz. unfold at_end in He.
  destruct (rep_data _ _ _ R) as [(rest & Hb & Hl)|(_ & H0 & ->)]; [|simpl in Hc; lia]. rewrite length_app in Hl.
  set (n := Z.to_nat len).
  assert (Hfinal : ∀ tail, Z.of_nat (length tail) = padded - len → tail = replicate (Z.to_nat (padded - len)) 0 →
    holds_prefix (Block (c ++ take n rest ++ tail ++ drop (Z.to_nat padded) rest)) (mDataCapacity p)
      (c ++ take n rest ++ replicate (Z.to_nat (padded - len)) 0) ∧
    rep (p <| mData := Block (c ++ take n rest ++ tail ++ drop (Z.to_nat padded) rest) |>) c os).
  { intros tail Htl ->. assert (Z.of_nat (length (c ++ take n rest ++ replicate (Z.to_nat (padded - len)) 0 ++ drop (Z.to_nat padded) rest)) = mDataCapacity p) as El.
    { rewrite !length_app, length_take, length_replicate, length_drop. lia. }
    split; [left; exists (drop (Z.to_nat padded) rest); rewrite <- !app_assoc; by split|].
    destruct R as [_ ? ? ? ? ? ? ? ? ? ?]. constructor; try done. cbn. left. eexists. split; [reflexivity|exact El]. }
  destruct (Z.eqb_spec padded len) as [Hpl|Hpl]; cbn [negb].
  - exists (mData p), (take n rest). split; [by destruct p|]. split; [rewrite length_take; lia|].
    destruct (Hfinal []) as [H1 H2]; [simpl; lia|rewrite Hpl, Z.sub_diag; done|]. cbn [app] in H1, H2.
    assert (mData p = Block (c ++ take n rest ++ drop (Z.to_nat padded) rest)) as E by (unfold n; rewrite Hpl, take_drop; exact Hb).
    rewrite <- E in H1, H2. by split.
  - rewrite (u32_small (padded - len)) by lia. set (k := Z.to_nat (4 - (padded - len))).
    assert (4 <= padded) by (Z.to_euclidean_division_equations; lia).
    assert (u32 (mDataPos p + padded - 4) = Z.of_nat (length c) + (padded - 4)) as -> by (rewrite u32_small by lia; lia).
    assert (peek (mData p) (Z.of_nat (length c) + (padded - 4)) 4 = Some (take 4 (drop (Z.to_nat (padded - 4)) rest))) as E1.
    { unfold peek. rewrite Hb. cbn [Z.eqb]. rewrite (proj2 (Z.leb_le _ _)) by (rewrite length_app; lia). unfold slice.
      rewrite drop_app_ge by lia. do 3 f_equal. lia. }
    unfold load. rewrite bind_bind, this_bind, E1. cbn [the]. prun.
    unfold store. prun.
    assert (length (take k (take 4 (drop (Z.to_nat (padded - 4)) rest)) ++ replicate (4 - k) 0) = 4%nat) as El4.
    { rewrite length_app, !length_take, length_drop, length_replicate. lia. }
    assert (poke (mData p) (Z.of_nat (length c) + (padded - 4)) (take k (take 4 (drop (Z.to_nat (padded - 4)) rest)) ++ replicate (4 - k) 0) =
      Some (Block (c ++ take n rest ++ replicate (Z.to_nat (padded - len)) 0 ++ drop (Z.to_nat padded) rest))) as E2.
    { unfold poke. rewrite bool_decide_false by (intros E; by rewrite E in El4). rewrite Hb.
      rewrite (proj2 (Z.leb_le _ _)) by (rewrite El4, length_app; lia). do 2 f_equal. unfold splice. rewrite El4.
      rewrite take_app_ge by lia. rewrite drop_app_ge by lia. rewrite <- !app_assoc. f_equal.
      replace (Z.to_nat (Z.of_nat (length c) + (padded - 4)) - length c)%nat with (Z.to_nat (padded - 4)) by lia.
      replace (Z.to_nat (Z.of_nat (length c) + (padded - 4)) + 4 - length c)%nat with (Z.to_nat padded) by lia.
      rewrite take_take, Nat.min_l by lia. rewrite app_assoc, take_take_drop.
      replace (Z.to_nat (padded - 4) + k)%nat with n by lia. do 3 f_equal. lia. }
    rewrite E2. cbn [the]. prun. eexists _, (take n rest). split; [reflexivity|]. split; [rewrite length_take; lia|].
    apply Hfinal; [rewrite length_replicate; lia|done].
Qed.

(** Making room for [len] bytes: the padding is zero. *)
Lemma writeInplace_ok p w c os len :
  rep p c os → at_end p → 0 < len → Z.of_nat (length c) + len + 4 < 2 ^ 29 →
  ∃ r p' w', writeInplace len (p, w) = Ok (r, (p', w')) ∧ at_end p' ∧ mAllowFds p' = mAllowFds p ∧ (w' = w ∨ w' = spent w) ∧
    (r = Some (Z.of_nat (length c)) ∧
       (∃ hole, Z.of_nat (length hole) = len ∧ rep p' (c ++ hole ++ replicate (Z.to_nat (PAD_SIZE len - len)) 0) os) ∨
     r = None ∧ rep p' c os ∧ given w = false ∧ mError p' = NO_MEMORY).
Proof.
  intros R He Hlen Hc. pose proof (PAD_SIZE_range len ltac:(lia)) as [Hpad _]. unfold writeInplace. prun.
  pose proof (rep_size _ _ _ R) as Hsz. pose proof He as Hpos. unfold at_end in Hpos.
  assert (u32 (mDataPos p + PAD_SIZE len) <? mDataPos p = false) as -> by (rewrite u32_small by lia; apply Z.ltb_ge; lia).
  destruct (ensure_room p w c os (PAD_SIZE len) R He) as (r & p1 & w1 & E & R1 & He1 & Ha & _ & Hw & Hr); [lia..|].
  rewrite (bind_ok _ _ _ _ _ E). destruct Hr as [[-> Hcap]|(-> & Hr & Herr)].
  2: { exists None, p1, w1. split; [done|]. split_and!; [done..|by right]. }
  change (negb (NO_ERROR =? NO_ERROR)) with false. cbv iota. prun.
  destruct (mask_ok p1 w1 c os len (PAD_SIZE len) R1 He1 ltac:(lia) eq_refl) as (b & hole & E1 & Hh & Hb & R2); [lia|].
  rewrite (bind_ok _ _ _ _ _ E1).
  destruct (finishWrite_ok _ w1 c (hole ++ replicate (Z.to_nat (PAD_SIZE len - len)) 0) os (PAD_SIZE len) R2 He1 Hb)
    as (p2 & E2 & R3 & He2 & Ep); [rewrite length_app, length_replicate; lia|].
  rewrite (bind_ok _ _ _ _ _ E2). eexists _, p2, w1. split; [reflexivity|]. split_and!; [done|by rewrite Ep|done|].
  left. split; [|by exists hole]. unfold at_end in He1. by rewrite He1, (rep_size _ _ _ R1).
Qed.

(** ** The writers *)

Definition pad4 (bs : list Z) : list Z := bs ++ replicate (Z.to_nat (PAD_SIZE (Z.of_nat (length bs)) - Z.of_nat (length bs))) 0.

Lemma length_pad4 bs : Z.of_nat (length bs) < 2 ^ 31 → Z.of_nat (length (pad4 bs)) = PAD_SIZE (Z.of_nat (length bs)).
Proof. intros Hb. unfold pad4. rewrite length_app, length_replicate. pose proof (PAD_SIZE_range (Z.of_nat (length bs))). lia. Qed.

(** What a writer that starts with [writeInplace] does next. *)
Lemma after_inplace p w c os len (f : option Z → P Z) bs :
  rep p c os → at_end p → 0 < len → Z.of_nat (length c) + len + 4 < 2 ^ 29 →
  (∀ p' w', mError p' = NO_MEMORY → ∃ r, f None (p', w') = Ok (r, (p', w')) ∧ r ≠ NO_ERROR) →
  (∀ p' w' hole, Z.of_nat (length hole) = len → at_end p' → rep p' (c ++ hole ++ replicate (Z.to_nat (PAD_SIZE len - len)) 0) os →
     ∃ p2, f (Some (Z.of_nat (length c))) (p', w') = Ok (NO_ERROR, (p2, w')) ∧ rep p2 (c ++ bs) os ∧ at_end p2 ∧ mAllowFds p2 = mAllowFds p') →
  writes 1 (writeInplace len ≫= f) p w c os bs [] ∅.
Proof.
  intros R He Hlen Hc Hnone Hsome. unfold writes.
  destruct (writeInplace_ok p w c os len R He Hlen Hc) as (r & p' & w' & E & He' & Ha & Hw & Hr).
  rewrite (bind_ok _ _ _ _ _ E). destruct Hr as [(-> & hole & Hh & R')|(-> & R' & Hg & Herr)].
  - destruct (Hsome p' w' hole Hh He' R') as (p2 & E2 & R2 & He2 & Ha2). exists NO_ERROR, p2, w'. split; [done|].
    split_and!; [done|congruence|by apply at_most_one|]. left. rewrite app_nil_r.
    split_and!; [done|done|by apply heap_only_no_holds, heap_only_or].
  - destruct (Hnone p' w' Herr) as (r & E2 & Hr). exists r, p', w'. split; [done|].
    split_and!; [done|done|by apply at_most_one|]. right.
    split_and!; [done|by apply refused_plenty|by apply heap_only_or|exists []; by rewrite app_nil_r].
Qed.

Lemma no_memory_error p w : mError p = NO_MEMORY → ∃ r, (p ← this; mret (mError p)) (p, w) = Ok (r, (p, w)) ∧ r ≠ NO_ERROR.
Proof. intros E. exists (mError p). split; [done|]. by rewrite E. Qed.

Lemma parcel_write_ok p w c os data :
  rep p c os → at_end p → (0 < length data)%nat → Z.of_nat (length c) + Z.of_nat (length data) + 4 < 2 ^ 29 →
  writes 1 (write data) p w c os (pad4 data) [] ∅.
Proof.
  intros R He Hd Hc. apply after_inplace; [done|done|lia|lia|apply no_memory_error|].
  intros p' w' hole Hh He' R'. destruct (store_inside p' w' c hole _ os data R') as (b & E & R2); [lia|].
  rewrite (bind_ok _ _ _ _ _ E). eexists. split; [reflexivity|]. split_and!; [exact R2|done|done].
Qed.

(** A length, and what follows it. *)
Lemma writes_then n1 n2 op1 op2 p w c os bs1 bs2 :
  writes n1 op1 p w c os bs1 [] ∅ →
  (∀ p' w', rep p' (c ++ bs1) os → at_end p' → writes n2 op2 p' w' (c ++ bs1) os bs2 [] ∅) →
  writes (n1 + n2) (err ← op1; if err =? NO_ERROR then op2 else mret err) p w c os (bs1 ++ bs2) [] ∅.
Proof.
  intros (r & p1 & w1 & E1 & He1 & Ha1 & Hm1 & Hr1) H2. unfold writes. rewrite (bind_ok _ _ _ _ _ E1).
  rewrite !app_nil_r in *. destruct Hr1 as [(-> & R1 & Hw1)|(Hr & Hn & Hw1 & c' & R1)].
  - change (NO_ERROR =? NO_ERROR) with true. cbv iota. rewrite (left_id_L ∅ (⊎)) in Hw1.
    destruct (H2 p1 w1 R1 He1) as (r & p2 & w2 & E2 & He2 & Ha2 & Hm2 & Hr2). exists r, p2, w2. split; [done|].
    split_and!; [done|congruence|by eapply at_most_trans|]. rewrite app_nil_r in Hr2.
    assert (heap_only w w1) as Hw by (by destruct w).
    destruct Hr2 as [(-> & R2 & Hw2)|(Hr & Hn & Hw2 & c' & R2)]; [left|right].
    + split_and!; [done|by rewrite app_assoc|]. rewrite (left_id_L ∅ (⊎)) in Hw2.
      eapply heap_only_no_holds, heap_only_trans; [exact Hw|]. by destruct w1.
    + split_and!; [done|by intros Hp; apply Hn, Hm1|by eapply heap_only_trans|]. exists (bs1 ++ c'). by rewrite app_assoc.
  - destruct (Z.eqb_spec r NO_ERROR) as [|_]; [done|]. exists r, p1, w1. split; [done|].
    split_and!; [done|done|intros m Hp; apply (plenty_le m (n2 + m)); [lia|apply Hm1; by rewrite Nat.add_assoc]|]. right.
    split_and!; [done|by intros Hp%(plenty_le n1); [|lia]|done|by exists c'].
Qed.

Lemma writes_le n n' op p w c os bs no dh : (n ≤ n')%nat → writes n op p w c os bs no dh → writes n' op p w c os bs no dh.
Proof.
  intros Hn (r & p' & w' & E & He & Ha & Hm & Hr). exists r, p', w'. split_and!; [done..| |].
  - intros m Hp. apply Hm, (plenty_le (n + m) (n' + m)); [lia|done].
  - destruct Hr as [?|(? & Hp & ?)]; [by left|right]. split_and!; try tauto. intros Hp'. by apply Hp, (plenty_le n n').
Qed.

Definition int32 (x : Z) : list Z := le_bytes 4 (u32 x).

Lemma writeInt32_ok p w c os x :
  rep p c os → at_end p → Z.of_nat (length c) + 4 < 2 ^ 29 → writes 1 (writeInt32 x) p w c os (int32 x) [] ∅.
Proof. intros R He Hc. apply (writeAligned_ok p w c os (int32 x)); [done..|simpl; lia|simpl; lia]. Qed.

Definition string8_bytes (s : list Z) : list Z := int32 (Z.of_nat (length s)) ++ (if bool_decide (s = []) then [] else pad4 (s ++ [0])).

Lemma writeString8_ok p w c os s :
  rep p c os → at_end p → Z.of_nat (length c) + Z.of_nat (length s) + 16 < 2 ^ 29 →
  writes 2 (writeString8 s) p w c os (string8_bytes s) [] ∅.
Proof.
  intros R He Hc. unfold string8_bytes, writeString8. destruct s as [|b s].
  - cbn [length bool_decide]. rewrite bool_decide_true, app_nil_r by done.
    destruct (writeInt32_ok p w c os 0 R He ltac:(simpl in Hc; lia)) as (r & p' & w' & E & H).
    apply (writes_le 1); [lia|]. exists r, p', w'. split; [|done]. change (Z.of_nat 0) with 0. by rewrite (bind_ok _ _ _ _ _ E).
  - rewrite bool_decide_false by done. assert (Z.of_nat (length (b :: s)) >? 0 = true) as -> by (rewrite Z.gtb_ltb; apply Z.ltb_lt; simpl; lia).
    cbn [andb]. apply (writes_then 1 1); [apply writeInt32_ok; [done..|lia]|]. intros p' w' R' He'.
    apply parcel_write_ok; [done|done|simpl; lia|].
    assert (length (int32 (Z.of_nat (length (b :: s)))) = 4%nat) as E4 by apply length_le_bytes. rewrite !length_app, E4. simpl in *. lia.
Qed.

Definition string16_bytes (s : option (list Z)) : list Z :=
  match s with
  | None => int32 (-1)
  | Some s => int32 (Z.of_nat (length s)) ++ pad4 (bytes16 (s ++ [0]))
  end.

Lemma writeString16_ok p w c os s :
  rep p c os → at_end p → Z.of_nat (length c) + 2 * Z.of_nat (length (default [] s)) + 16 < 2 ^ 29 →
  writes 2 (writeString16 s) p w c os (string16_bytes s) [] ∅.
Proof.
  intros R He Hc. destruct s as [s|]; cbn [default writeString16 string16_bytes] in *.
  2: { apply (writes_le 1); [lia|]. apply writeInt32_ok; [done..|simpl in Hc; lia]. }
  apply (writes_then 1 1); [apply writeInt32_ok; [done..|simpl in Hc; lia]|]. intros p' w' R' He'.
  assert (length (int32 (Z.of_nat (length s))) = 4%nat) as E4 by apply length_le_bytes. simpl in Hc.
  rewrite (u32_small (_ * 2)) by lia. rewrite u32_small by lia. 
  apply after_inplace; [done|done|lia|rewrite length_app; lia|apply no_memory_error|].
  intros p2 w2 hole Hh He2 R2.
  set (c1 := c ++ int32 (Z.of_nat (length s))) in *.
  rewrite <- (take_drop (length s * 2) hole), <- (app_assoc (take _ _)) in R2.
  destruct (store_inside p2 w2 c1 (take (length s * 2) hole) _ os (bytes16 s) R2) as (b & E & R3); [rewrite length_bytes16, length_take; lia|].
  rewrite (bind_ok _ _ _ _ _ E). clear E.
  rewrite app_assoc in R3. assert (∃ x y, drop (length s * 2) hole = [x; y]) as (x & y & Exy).
  { assert (length (drop (length s * 2) hole) = 2%nat) as El by (rewrite length_drop; lia).
    destruct (drop _ hole) as [|x [|y [|]]]; try done. eauto. }
  rewrite Exy in R3.
  destruct (store_inside _ w2 (c1 ++ bytes16 s) [x; y] _ os (le_bytes 2 0) R3) as (b' & E & R4); [done|].
  assert (u32 (Z.of_nat (length c1) + Z.of_nat (length s) * 2) = Z.of_nat (length (c1 ++ bytes16 s))) as ->.
  { rewrite u32_small; unfold c1; rewrite !length_app, E4, ?length_bytes16; lia. }
  rewrite (bind_ok _ _ _ _ _ E). eexists. split; [reflexivity|]. split_and!; [|done|done].
  unfold pad4. rewrite bytes16_app, length_app, length_bytes16. change (bytes16 [0]) with [0; 0]. change (le_bytes 2 0) with [0; 0] in R4.
  replace (Z.of_nat (2 * length s + length [0; 0])) with (Z.of_nat (length s) * 2 + 2) by (simpl; lia).
  rewrite <- !app_assoc in *. exact R4.
Qed.

(** ** Objects *)

Lemma entries_small n : 0 <= n < 2 ^ 29 → entries n = n.
Proof. intros Hn. unfold entries, sizeof_size_t. rewrite u32_small by lia. by rewrite Z.div_mul. Qed.

(** Room for one more object. *)
Lemma ensure_entry p w c os :
  rep p c os →
  ∃ r p' w', (if negb (mObjectsSize p <? mObjectsCapacity p) then
      p ← this; grow_objects (u32 (u32 (mObjectsSize p + 2) * 3) / 2) else mret NO_ERROR) (p, w) = Ok (r, (p', w')) ∧
    rep p' c os ∧ mDataPos p' = mDataPos p ∧ mDataCapacity p' = mDataCapacity p ∧ mAllowFds p' = mAllowFds p ∧ (w' = w ∨ w' = spent w) ∧
    (r = NO_ERROR ∧ Z.of_nat (length os) + 1 <= mObjectsCapacity p' ∨ r = NO_MEMORY ∧ given w = false).
Proof.
  intros R. destruct (Z.ltb_spec (mObjectsSize p) (mObjectsCapacity p)) as [Hlt|Hge]; cbn [negb].
  { exists NO_ERROR, p, w. split_and!; try done; [by left|left]. split; [done|]. rewrite <- (rep_count _ _ _ R). lia. }
  pose proof (rep_count _ _ _ R) as Hn. pose proof (rep_many _ _ _ R) as Hm. pose proof (rep_size _ _ _ R). pose proof (rep_cap _ _ _ R).
  pose proof (holds_prefix_le _ _ _ (rep_data _ _ _ R)) as Hle.
  prun. rewrite (u32_small (mObjectsSize p + 2)) by lia. rewrite u32_small by lia.
  set (n := (mObjectsSize p + 2) * 3 / 2).
  assert (mObjectsSize p + 2 <= n < 2 ^ 29) as Hrange.
  { unfold n. split; [apply Z.div_le_lower_bound; lia|]. apply Z.div_lt_upper_bound; lia. }
  unfold grow_objects. prun. rewrite entries_small by lia.
  destruct (realloc_grow _ _ n os p w (rep_objects _ _ _ R)) as (b' & old & E & Hg & Hr); [lia..|].
  rewrite (bind_ok _ _ _ _ _ E). cbv beta iota. destruct (given w).
  - destruct (Hg eq_refl) as [Hnull Hp]. rewrite Hnull. prun. eexists _, _, (spent w). split; [reflexivity|].
    split; [destruct R; constructor; cbn; try done; lia|]. split_and!; [done..|by right|left]. split; [done|]. cbn. lia.
  - destruct (Hr eq_refl) as [-> ->]. cbn [is_null]. prun. eexists _, _, (spent w). split; [reflexivity|].
    split; [destruct R; by constructor|]. split_and!; [done..|by right|by right].
Qed.

(** The entry and the hold of an object. *)
Definition listed (val : flat_binder_object) (nullMetaData : bool) : bool := nullMetaData || negb (fp_binder val =? 0).
Definition new_offset c val nullMetaData : list Z := if listed val nullMetaData then [Z.of_nat (length c)] else [].
Definition hold_set (val : flat_binder_object) : gmultiset hold := match hold_of val with Some h => {[+ h +]} | None => ∅ end.
Definition new_hold val nullMetaData : gmultiset hold := if listed val nullMetaData then hold_set val else ∅.

Lemma acquire_object_eq val p w : acquire_object val (p, w) = Ok (tt, (p, w <| w_holds := hold_set val ⊎ w_holds w |>)).
Proof. unfold acquire_object, hold_set. destruct (hold_of val); [done|]. rewrite (left_id_L ∅ (⊎)). by destruct w. Qed.

Lemma length_encode_flat val : length (encode_flat val) = 16%nat.
Proof. done. Qed.

(** Putting the object and its entry, once there is room for both. *)
Lemma put_entry p w c os val nullMetaData :
  rep p c os → Z.of_nat (length os) + 1 <= mObjectsCapacity p → at_end p →
  ∃ p', (if listed val nullMetaData then
      put_object (mObjectsSize p) (mDataPos p) ;; acquire_object val ;; set_this (λ p, p <| mObjectsSize %= Z.add 1 |>)
    else mret tt) (p, w) = Ok (tt, (p', w <| w_holds := new_hold val nullMetaData ⊎ w_holds w |>)) ∧
    p' = p <| mObjects := mObjects p' |> <| mObjectsSize := Z.of_nat (length (os ++ new_offset c val nullMetaData)) |> ∧
    holds_prefix (mObjects p') (mObjectsCapacity p) (os ++ new_offset c val nullMetaData).
Proof.
  intros R Hroom He. pose proof (rep_count _ _ _ R) as Hn. unfold at_end in He. unfold new_offset, new_hold. destruct (listed val nullMetaData).
  - destruct (poke_prefix _ _ _ [mDataPos p] (rep_objects _ _ _ R) Hroom) as (b & E & Hb). unfold put_object.
    rewrite bind_bind. prun. rewrite Hn, E. cbn [the]. rewrite bind_bind. prun. rewrite (bind_ok _ _ _ _ _ (acquire_object_eq val _ w)).
    eexists. split; [reflexivity|]. cbn. rewrite He, (rep_size _ _ _ R) in Hb. split; [|done]. rewrite length_app. cbn.
    destruct p; cbn in *. subst. cbv [update field_mObjectsSize field_mObjects]. cbn. f_equal. lia.
  - eexists. split; [rewrite (left_id_L ∅ (⊎)); by destruct w|]. rewrite app_nil_r. split; [|apply R]. rewrite <- Hn. by destruct p.
Qed.

(** The body of [writeObject] behind the label. *)
Lemma place_object p w c os val nullMetaData :
  rep p c os → at_end p → Z.of_nat (length c) + 16 <= mDataCapacity p → Z.of_nat (length os) + 1 <= mObjectsCapacity p →
  (fp_type val =? BINDER_TYPE_FD) && negb (mAllowFds p) = false →
  ∃ p', (store (mDataPos p) (encode_flat val) ;;
      (if listed val nullMetaData then
         put_object (mObjectsSize p) (mDataPos p) ;; acquire_object val ;; set_this (λ p, p <| mObjectsSize %= Z.add 1 |>)
       else mret tt) ;;
      if (fp_type val =? BINDER_TYPE_FD) && negb (mAllowFds p) then mret FDS_NOT_ALLOWED
      else
        (if fp_type val =? BINDER_TYPE_FD then set_this (λ p, p <| mHasFds := true |> <| mFdsKnown := true |>) else mret tt) ;;
        finishWrite sizeof_flat_object) (p, w) = Ok (NO_ERROR, (p', w <| w_holds := new_hold val nullMetaData ⊎ w_holds w |>)) ∧
    rep p' (c ++ encode_flat val) (os ++ new_offset c val nullMetaData) ∧ at_end p' ∧ mAllowFds p' = mAllowFds p.
Proof.
  intros R He Hc Ho Hfd. destruct (store_behind p w c (encode_flat val) os R He) as (b & E & Hb & R1); [rewrite length_encode_flat; lia|].
  rewrite (bind_ok _ _ _ _ _ E), Hfd. clear E.
  destruct (put_entry _ w c os val nullMetaData R1 Ho He) as (p1 & E & Ep & Hp). rewrite (bind_ok _ _ _ _ _ E). clear E.
  set (w1 := w <| w_holds := _ |>).
  assert (∃ p2, (if fp_type val =? BINDER_TYPE_FD then set_this (λ p, p <| mHasFds := true |> <| mFdsKnown := true |>) else mret tt) (p1, w1) =
    Ok (tt, (p2, w1)) ∧ p2 = p1 <| mHasFds := mHasFds p2 |> <| mFdsKnown := mFdsKnown p2 |>) as (p2 & E & Ep2).
  { destruct (fp_type val =? BINDER_TYPE_FD); eexists; (split; [reflexivity|]); by destruct p1. }
  rewrite (bind_ok _ _ _ _ _ E). clear E.
  destruct R1 as [_ Hsz _ _ Hpos Hcap Hocap Hoff Hsort Hmany Hown]. rewrite Ep in Ep2. unfold at_end in He. cbn in Hsz, Hpos, Hcap, Hocap, Hown.
  pose proof (length_encode_flat val) as El. generalize dependent (encode_flat val). intros ev Hb El.
  pose proof (holds_prefix_le _ _ _ Hb) as Hle. rewrite length_app, El in Hle.
  rewrite finishWrite_eq; [|by rewrite Ep2|done|rewrite Ep2; cbn; unfold sizeof_flat_object; lia..]. eexists. split; [reflexivity|].
  rewrite Ep2. unfold at_end, sizeof_flat_object. cbn. split; [|split; [lia|done]].
  constructor; cbn; try done; rewrite ?length_app, ?El; try lia.
  - apply Forall_app. split; [eapply Forall_impl; [exact Hoff|]; simpl; lia|]. unfold new_offset.
    destruct (listed val nullMetaData); constructor; [lia|constructor].
  - unfold new_offset. destruct (listed val nullMetaData); [|by rewrite app_nil_r].
    apply StronglySorted_snoc; [done|]. eapply Forall_impl; [exact Hoff|]. simpl. lia.
  - unfold new_offset. destruct (listed val nullMetaData); simpl; lia.
Qed.

Lemma writeObject_ok p w c os val nullMetaData :
  rep p c os → at_end p → Z.of_nat (length c) + 16 < 2 ^ 29 → (fp_type val =? BINDER_TYPE_FD) && negb (mAllowFds p) = false →
  writes 2 (writeObject val nullMetaData) p w c os (encode_flat val) (new_offset c val nullMetaData) (new_hold val nullMetaData).
Proof.
  intros R He Hc Hfd. unfold writes, writeObject. prun.
  assert (∀ b : bool, (if negb b then growData sizeof_flat_object else mret NO_ERROR) = (if b then mret NO_ERROR else growData sizeof_flat_object)) as -> by (by intros []).
  destruct (ensure_room p w c os 16 R He) as (r & p1 & w1 & E & R1 & He1 & Ha1 & Hoc & Hw1 & Hr); [lia..|].
  rewrite (bind_ok _ _ _ _ _ E). clear E. pose proof (at_most_one _ _ Hw1) as Hm1.
  destruct Hr as [[-> Hcap]|(-> & Hg & _)].
  2: { exists NO_MEMORY, p1, w1. split; [done|]. split_and!; [done|done|intros m Hp; apply Hm1; by apply (plenty_le (1 + m) (2 + m)); [lia|]|].
    right. split_and!; [done|by apply refused_plenty|by apply heap_only_or|exists []; by rewrite app_nil_r]. }
  change (negb (NO_ERROR =? NO_ERROR)) with false. cbv iota.
  rewrite <- Hoc. replace (mObjectsSize p) with (mObjectsSize p1) by by rewrite (rep_count _ _ _ R1), (rep_count _ _ _ R).
  destruct (ensure_entry p1 w1 c os R1) as (r & p2 & w2 & E & R2 & Hpos2 & Hcap2 & Ha2 & Hw2 & Hr).
  rewrite (bind_ok _ _ _ _ _ E). clear E. pose proof (at_most_one _ _ Hw2) as Hm2.
  assert (at_end p2) as He2 by (unfold at_end in *; by rewrite Hpos2, He1, (rep_size _ _ _ R1), (rep_size _ _ _ R2)).
  assert (heap_only w w2) as Hw by (eapply heap_only_trans; by apply heap_only_or).
  destruct Hr as [[-> Ho]|(-> & Hg)].
  2: { exists NO_MEMORY, p2, w2. split; [done|]. split_and!; [done|congruence|by apply (at_most_trans 1 1 w w1)|].
    right. split_and!; [done| |done|exists []; by rewrite app_nil_r]. intros Hp. by apply (refused_plenty 0 w1), (Hm1 1%nat). }
  change (negb (NO_ERROR =? NO_ERROR)) with false. cbv iota. prun.
  destruct (place_object p2 w2 c os val nullMetaData R2 He2) as (p3 & E & R3 & He3 & Ha3); [lia|done|by rewrite Ha2, Ha1|].
  exists NO_ERROR, p3, (w2 <| w_holds := new_hold val nullMetaData ⊎ w_holds w2 |>). split; [exact E|].
  split_and!; [done|congruence|exact (at_most_trans 1 1 w w1 w2 Hm1 Hm2)|]. left. split_and!; [done|done|].
  rewrite (heap_only_holds _ _ Hw). unfold heap_only in *. rewrite Hw. by destruct w.
Qed.
End rep.
End ParcelRep.
