(* ===== verification/ParcelRead.v ===== *)
(** Reading a parcel: what each reader returns of a content that was written,
    and the search for an object. *)
From stdpp Require Import gmultiset.
From S2P Require Import Prelude BinderUapi Parcel ParcelSpec.
Import Parcel ParcelRep.

Section read.
Context {PR : Process}.
Implicit Types (p : parcel) (w : world) (c : list Z) (os : list Z).

Ltac prun := repeat (first [rewrite this_bind | rewrite set_this_bind | rewrite ret_bind]; cbv beta).

(** ** The search for an object *)

(** [os] are the entries in use of the object block. *)
Definition entries_of p os : Prop := holds_prefix (mObjects p) (mObjectsCapacity p) os ∧ mObjectsSize p = Z.of_nat (length os).

Lemma get_object_ok p w os i x : entries_of p os → os !! i = Some x → get_object (Z.of_nat i) (p, w) = Ok (x, (p, w)).
Proof.
  intros [Hb _] Hi. unfold get_object. prun. pose proof (lookup_lt_Some _ _ _ Hi).
  rewrite (peek_prefix _ _ _ _ _ Hb) by lia. cbn [the]. prun. unfold slice. rewrite Nat2Z.id.
  rewrite (drop_S os x i Hi). done.
Qed.

Lemma search_forward_ok fuel p w os i n dpos :
  entries_of p os → n = Z.of_nat (length os) → (i < length os)%nat → (length os ≤ i + fuel)%nat →
  ∃ j, search_forward fuel (Z.of_nat i) n dpos (p, w) = Ok (Z.of_nat j, (p, w)) ∧ (i ≤ j < length os)%nat ∧
    (S j = length os ∨ ∃ x, os !! j = Some x ∧ dpos <= x).
Proof.
  intros He ->. revert i. induction fuel as [|fuel IH]; intros i Hi Hf; cbn [search_forward].
  { lia. }
  destruct (Z.ltb_spec (Z.of_nat i) (Z.of_nat (length os) - 1)).
  - destruct (lookup_lt_is_Some_2 os i Hi) as [x Hx]. rewrite (bind_ok _ _ _ _ _ (get_object_ok p w os i x He Hx)).
    destruct (Z.ltb_spec x dpos).
    + replace (Z.of_nat i + 1) with (Z.of_nat (S i)) by lia. destruct (IH (S i)) as (j & E & Hj & H2); [lia..|].
      exists j. split; [done|]. split; [lia|done].
    + exists i. split; [done|]. split; [lia|]. right. by exists x.
  - exists i. split; [done|]. split; [lia|]. left. lia.
Qed.

Lemma search_backward_ok p w os i dpos :
  entries_of p os → (i < length os)%nat →
  ∃ j x, search_backward i dpos (p, w) = Ok (Z.of_nat j, (p, w)) ∧ (j ≤ i)%nat ∧ os !! j = Some x ∧ (j = 0%nat ∨ x <= dpos) ∧
    (∀ k y, (j < k ≤ i)%nat → os !! k = Some y → dpos < y).
Proof.
  intros He. induction i as [|i IH]; intros Hi; cbn [search_backward].
  - destruct (lookup_lt_is_Some_2 os 0 Hi) as [x Hx]. exists 0%nat, x. split_and!; [done|done|done|by left|lia].
  - destruct (lookup_lt_is_Some_2 os (S i) Hi) as [x Hx].
    rewrite (bind_ok _ _ _ _ _ (get_object_ok p w os (S i) x He Hx)). rewrite Z.gtb_ltb. destruct (Z.ltb_spec dpos x).
    + destruct IH as (j & y & E & Hj & Hy & H1 & H2); [lia|]. exists j, y. split_and!; [done|lia|done|done|].
      intros k z Hk Hz. destruct (decide (k = S i)) as [->|]; [congruence|]. apply (H2 k z); [lia|done].
    + exists (S i), x. split_and!; [done|done|done|by right|lia].
Qed.

Lemma sorted_lookup_lt os i j x y : StronglySorted Z.lt os → os !! i = Some x → os !! j = Some y → (i < j)%nat → x < y.
Proof.
  intros Hs. revert i j. induction Hs as [|z l Hs IH Hz]; intros [|i] [|j] Hx Hy Hij; try done; try lia; simpl in *.
  - injection Hx as ->. rewrite Forall_forall in Hz. by apply Hz, (list_elem_of_lookup_2 _ j).
  - apply (IH i j); [done|done|lia].
Qed.

(** The two searches find an entry wherever they start. *)
Lemma find_object_ok p w os dpos :
  entries_of p os → StronglySorted Z.lt os → 0 <= mNextObjectHint p →
  ∃ h, 0 <= h ∧ find_object dpos (p, w) = Ok (bool_decide (dpos ∈ os), (p <| mNextObjectHint := h |>, w)).
Proof.
  intros He Hs Hh. pose proof He as [_ Hn]. unfold find_object. prun. rewrite Z.gtb_ltb.
  destruct (Z.ltb_spec 0 (mObjectsSize p)) as [Hpos|Hz].
  2: { exists (mNextObjectHint p). split; [done|]. assert (os = []) as -> by (apply length_zero_iff_nil; lia). by destruct p. }
  assert (∃ j, (if mNextObjectHint p <? mObjectsSize p
      then search_forward (Z.to_nat (mObjectsSize p)) (mNextObjectHint p) (mObjectsSize p) dpos
      else mret (mObjectsSize p - 1)) (p, w) = Ok (Z.of_nat j, (p, w)) ∧ (j < length os)%nat ∧
      (S j = length os ∨ ∃ x, os !! j = Some x ∧ dpos <= x)) as (j & E & Hj & Hfwd).
  { destruct (Z.ltb_spec (mNextObjectHint p) (mObjectsSize p)).
    - replace (mNextObjectHint p) with (Z.of_nat (Z.to_nat (mNextObjectHint p))) by lia.
      destruct (search_forward_ok (Z.to_nat (mObjectsSize p)) p w os (Z.to_nat (mNextObjectHint p)) (mObjectsSize p) dpos He Hn) as (j & E & Hj & H2);
        [lia..|]. exists j. split; [exact E|]. split; [lia|done].
    - exists (length os - 1)%nat. split; [rewrite Hn; unfold mret, st_ret; do 2 f_equal; lia|]. split; [lia|left; lia]. }
  rewrite (bind_ok _ _ _ _ _ E). clear E. destruct (lookup_lt_is_Some_2 os j Hj) as [x Hx].
  rewrite (bind_ok _ _ _ _ _ (get_object_ok p w os j x He Hx)). destruct (Z.eqb_spec x dpos) as [->|Hne].
  { exists (Z.of_nat j + 1). split; [lia|]. rewrite bool_decide_true by (by apply (list_elem_of_lookup_2 _ j)). done. }
  rewrite Nat2Z.id. destruct (search_backward_ok p w os j dpos He Hj) as (k & y & E & Hk & Hy & Hle & Hback).
  rewrite (bind_ok _ _ _ _ _ E), (bind_ok _ _ _ _ _ (get_object_ok p w os k y He Hy)). destruct (Z.eqb_spec y dpos) as [->|Hne2].
  { exists (Z.of_nat k + 1). split; [lia|]. rewrite bool_decide_true by (by apply (list_elem_of_lookup_2 _ k)). done. }
  exists (mNextObjectHint p). split; [done|]. rewrite bool_decide_false; [by destruct p|].
  intros [m Hm]%list_elem_of_lookup_1. destruct (decide (m ≤ j)%nat) as [Hmj|Hmj].
  - destruct (decide (k < m)%nat) as [Hkm|Hkm]; [by specialize (Hback m dpos ltac:(lia) Hm); lia|].
    destruct (decide (m = k)) as [->|]; [congruence|]. pose proof (sorted_lookup_lt os m k dpos y Hs Hm Hy ltac:(lia)).
    destruct Hle as [->|Hle]; [|lia]. assert (m = 0%nat) as -> by lia. congruence.
  - pose proof (lookup_lt_Some _ _ _ Hm). destruct Hfwd as [Hl|(x' & Hx' & Hle')]; [lia|].
    pose proof (sorted_lookup_lt os j m x dpos Hs Hx Hm ltac:(lia)). rewrite Hx in Hx'. injection Hx' as ->. lia.
Qed.

(** ** Readers *)

(** [p] is positioned at [bs] of the content. *)
Record cursor p c1 bs c2 os : Prop := {
  cur_rep : rep p (c1 ++ bs ++ c2) os;
  cur_pos : mDataPos p = Z.of_nat (length c1);
  cur_hint : 0 <= mNextObjectHint p;
  cur_small : Z.of_nat (length (c1 ++ bs ++ c2)) < 2 ^ 29
}.

(** [op] reads [a] from [bs], and stops behind it. *)
Definition reads {A} (op : P A) p w c1 bs c2 os (a : A) : Prop :=
  ∃ p', op (p, w) = Ok (a, (p', w)) ∧ mAllowFds p' = mAllowFds p ∧ cursor p' (c1 ++ bs) [] c2 os.

Lemma cursor_move p c1 bs c2 os q :
  cursor p c1 bs c2 os → q = p <| mDataPos := Z.of_nat (length (c1 ++ bs)) |> <| mNextObjectHint := mNextObjectHint q |> →
  0 <= mNextObjectHint q → cursor q (c1 ++ bs) [] c2 os.
Proof.
  intros [R Hp _ Hs] -> Hh. constructor; [|done|done|].
  - rewrite app_nil_l, <- app_assoc. destruct R as [Hb Hsz Ho Hc Hpos Hcap Hocap Hoff Hsort Hmany Hown].
    constructor; cbn; try done. rewrite Hsz, !length_app. lia.
  - by rewrite app_nil_l, <- app_assoc.
Qed.

Lemma cursor_shrink p c1 b1 b2 c2 os : cursor p c1 (b1 ++ b2) c2 os → cursor p c1 b1 (b2 ++ c2) os.
Proof. intros [R Hp Hh Hs]. constructor; [|done|done|]; by rewrite <- app_assoc in *. Qed.

Lemma cursor_split p c1 b1 b2 c2 os : cursor p c1 [] (b1 ++ b2 ++ c2) os → cursor p c1 (b1 ++ b2) c2 os.
Proof. intros [R Hp Hh Hs]. constructor; [|done|done|]; by rewrite app_nil_l, ?app_assoc in *. Qed.

Lemma cursor_next p c1 b c2 os : cursor p c1 [] (b ++ c2) os ↔ cursor p c1 b c2 os.
Proof. split; intros [R Hp Hh Hs]; constructor; done. Qed.

Lemma load_cursor p w c1 bs c2 os n :
  rep p (c1 ++ bs ++ c2) os → n = Z.of_nat (length bs) → load (Z.of_nat (length c1)) n (p, w) = Ok (bs, (p, w)).
Proof.
  intros R ->. unfold load. prun. rewrite (peek_prefix _ _ _ _ _ (rep_data _ _ _ R)) by (rewrite ?length_app; lia).
  cbn [the]. unfold slice. by rewrite !Nat2Z.id, drop_app_length, take_app_length.
Qed.

Lemma advance_eq n p w :
  0 <= mDataPos p → 0 <= n → mDataPos p + n < 2 ^ 32 → advance n (p, w) = Ok (tt, (p <| mDataPos := mDataPos p + n |>, w)).
Proof.
  intros Hp Hn Hu. unfold advance, set_this, modify. cbn [fst snd]. do 3 f_equal.
  destruct p; cbn in *. cbv [update field_mDataPos]. cbn. by rewrite u32_small by lia.
Qed.

Lemma readAligned_ok p w c1 bs c2 os n :
  cursor p c1 bs c2 os → n = Z.of_nat (length bs) → reads (readAligned n) p w c1 bs c2 os (Some (le_value bs)).
Proof.
  intros C ->. destruct (C) as [R Hp Hh Hs]. rewrite !length_app in Hs. pose proof (rep_size _ _ _ R) as Hsz. rewrite !length_app in Hsz.
  unfold reads, readAligned. prun. rewrite Hp, u32_small by lia. rewrite (proj2 (Z.leb_le _ _)) by lia.
  rewrite (bind_ok _ _ _ _ _ (advance_eq (Z.of_nat (length bs)) p w ltac:(lia) ltac:(lia) ltac:(lia))).
  set (q := p <| mDataPos := _ |>).
  assert (cursor q (c1 ++ bs) [] c2 os) as Cq.
  { apply (cursor_move p); [done| |done]. unfold q. rewrite Hp, length_app, Nat2Z.inj_add. by destruct p. }
  pose proof (cur_rep _ _ _ _ _ Cq) as Rq. rewrite app_nil_l, <- app_assoc in Rq.
  rewrite (bind_ok _ _ _ _ _ (load_cursor q w c1 bs c2 os _ Rq eq_refl)). eexists. split; [reflexivity|]. by split.
Qed.

(** [readInplace] of [len] bytes, the padding included in [bs]. *)
Lemma readInplace_ok p w c1 bs c2 os len :
  cursor p c1 bs c2 os → 0 <= len → PAD_SIZE len = Z.of_nat (length bs) → len < 2 ^ 29 →
  reads (readInplace len) p w c1 bs c2 os (Some (Z.of_nat (length c1))).
Proof.
  intros C Hl Hpad Hlen. destruct (C) as [R Hp Hh Hs]. rewrite !length_app in Hs. pose proof (rep_size _ _ _ R) as Hsz. rewrite !length_app in Hsz.
  unfold reads, readInplace. prun. unfold readable. rewrite Hpad, Hp, u32_small by lia.
  rewrite Z.geb_leb, !(proj2 (Z.leb_le _ _)) by lia. cbn [andb].
  rewrite (bind_ok _ _ _ _ _ (advance_eq (Z.of_nat (length bs)) p w ltac:(lia) ltac:(lia) ltac:(lia))).
  eexists. split; [reflexivity|]. split; [done|]. apply (cursor_move p); [done| |done].
  rewrite Hp, length_app, Nat2Z.inj_add. by destruct p.
Qed.

Lemma reads_bind {A B} (op : P A) (f : A → P B) p w c1 b1 b2 c2 os a b :
  reads op p w c1 b1 (b2 ++ c2) os a → (∀ p', cursor p' (c1 ++ b1) b2 c2 os → reads (f a) p' w (c1 ++ b1) b2 c2 os b) →
  reads (op ≫= f) p w c1 (b1 ++ b2) c2 os b.
Proof.
  intros (p1 & E1 & Ha1 & C1) Hf. destruct (Hf p1) as (p2 & E2 & Ha2 & C2); [by apply cursor_next|].
  exists p2. rewrite (bind_ok _ _ _ _ _ E1). split; [done|]. split; [congruence|]. by rewrite <- app_assoc in C2.
Qed.

Lemma reads_map {A B} (op : P A) (f : A → B) p w c1 bs c2 os a :
  reads op p w c1 bs c2 os a → reads (x ← op; mret (f x)) p w c1 bs c2 os (f a).
Proof. intros (p' & E & H). exists p'. by rewrite (bind_ok _ _ _ _ _ E). Qed.

Lemma readInt32_ok p w c1 c2 os x :
  - 2 ^ 31 <= x < 2 ^ 31 → cursor p c1 (int32 x) c2 os → reads readInt32 p w c1 (int32 x) c2 os x.
Proof.
  intros Hx C. destruct (readAligned_ok p w c1 (int32 x) c2 os 4 C eq_refl) as (p' & E & Ha & C').
  assert (le_value (int32 x) = u32 x) as Ev by (apply le_value_bytes; pose proof (u32_range x); simpl; lia).
  exists p'. split; [|by split]. unfold readInt32, readInt32_opt. rewrite bind_bind, (bind_ok _ _ _ _ _ E). prun.
  rewrite Ev. cbn [fmap option_fmap option_map default from_option id]. by rewrite s32_u32.
Qed.

Definition is_byte (b : Z) : Prop := 0 <= b < 256.

(** A string with its NUL, padded, read in place. *)
Lemma find_nul_ok s l avail :
  Forall (λ b, b ≠ 0) s → Z.of_nat (length s) < avail → find_nul (s ++ 0 :: l) avail = Some (Some s).
Proof.
  intros Hs. revert avail. induction Hs as [|b s Hb Hs IH]; intros avail Ha; cbn [app find_nul length] in *;
    rewrite (proj2 (Z.eqb_neq avail 0)) by lia; [done|].
  by rewrite (proj2 (Z.eqb_neq b 0)), IH by (done || lia).
Qed.

Lemma readCString_ok p w c1 c2 os s :
  Forall (λ b, b ≠ 0) s → cursor p c1 (pad4 (s ++ [0])) c2 os → reads readCString p w c1 (pad4 (s ++ [0])) c2 os (Some s).
Proof.
  intros Hs C. destruct (C) as [R Hp Hh Hsm]. rewrite !length_app in Hsm.
  assert (Z.of_nat (length s + 1) < 2 ^ 29) as Hl by (unfold pad4 in Hsm; rewrite length_app, length_app in Hsm; simpl in Hsm; lia).
  pose proof (length_pad4 (s ++ [0]) ltac:(rewrite length_app; simpl; lia)) as Epad.
  pose proof (PAD_SIZE_range (Z.of_nat (length (s ++ [0]))) ltac:(rewrite length_app; simpl; lia)) as [Hrange _].
  pose proof (rep_size _ _ _ R) as Hsz. rewrite !length_app in Hsz.
  unfold reads, readCString. prun. rewrite Hp, Hsz, u32_small by lia. rewrite length_app in Hrange. cbn [length] in Hrange.
  rewrite Z.gtb_ltb, (proj2 (Z.ltb_lt _ _)) by (rewrite length_app in Epad; simpl in Epad; lia).
  destruct (rep_data _ _ _ R) as [(rest & -> & _)|(_ & _ & E)].
  2: { exfalso. apply app_eq_nil in E as [_ [E _]%app_eq_nil]. unfold pad4 in E. by destruct s. }
  assert (drop (Z.to_nat (Z.of_nat (length c1))) ((c1 ++ pad4 (s ++ [0]) ++ c2) ++ rest) =
    s ++ 0 :: (replicate (Z.to_nat (PAD_SIZE (Z.of_nat (length (s ++ [0]))) - Z.of_nat (length (s ++ [0])))) 0 ++ c2) ++ rest) as ->.
  { rewrite Nat2Z.id, <- app_assoc, drop_app_length. unfold pad4. by rewrite <- !app_assoc. }
  rewrite find_nul_ok; [|done|rewrite length_app in Epad; simpl in Epad; lia]. cbn [the]. prun.
  replace (Z.of_nat (length s) + 1) with (Z.of_nat (length (s ++ [0]))) by (rewrite length_app; simpl; lia). rewrite <- Epad.
  rewrite (bind_ok _ _ _ _ _ (advance_eq (Z.of_nat (length (pad4 (s ++ [0])))) p w ltac:(lia) ltac:(lia) ltac:(lia))).
  eexists. split; [reflexivity|]. split; [done|]. apply (cursor_move p); [done| |done].
  rewrite Hp, length_app, Nat2Z.inj_add. by destruct p.
Qed.

(** The characters at the start of what was read in place. *)
Lemma load_front p w c1 s rest c2 os n :
  cursor p (c1 ++ s ++ rest) [] c2 os → n = Z.of_nat (length s) → load (Z.of_nat (length c1)) n (p, w) = Ok (s, (p, w)).
Proof.
  intros [R _ _ _] Hn. rewrite app_nil_l, <- !app_assoc in R. by apply (load_cursor p w c1 s (rest ++ c2) os).
Qed.

Lemma readString8_ok p w c1 c2 os s :
  cursor p c1 (string8_bytes s) c2 os → reads readString8 p w c1 (string8_bytes s) c2 os s.
Proof.
  intros C. pose proof (cur_small _ _ _ _ _ C) as Hsm. rewrite !length_app in Hsm. unfold string8_bytes in *. unfold readString8.
  destruct s as [|b s].
  - rewrite bool_decide_true in * by done. eapply reads_bind.
    + rewrite app_nil_l. apply readInt32_ok; [simpl; lia|]. by rewrite app_nil_r in C.
    + intros p' C'. exists p'. split; [done|]. split; [done|]. by rewrite app_nil_r.
  - rewrite bool_decide_false in * by done. set (t := b :: s) in *. assert (0 < length t)%nat by (simpl; lia).
    assert (length (int32 (Z.of_nat (length t))) = 4%nat) as E4 by apply length_le_bytes.
    assert (Z.of_nat (length t) + 1 < 2 ^ 29) as Hl.
    { unfold pad4 in Hsm. rewrite !length_app in Hsm. change (length [0]) with 1%nat in Hsm. lia. }
    eapply reads_bind; [apply readInt32_ok; [lia|]; by apply cursor_shrink|].
    intros p' C'. rewrite Z.gtb_ltb, !(proj2 (Z.ltb_lt _ _)) by (unfold INT32_MAX; lia). cbn [andb].
    assert (Z.of_nat (length (t ++ [0])) = Z.of_nat (length t) + 1) as El by (rewrite length_app; simpl; lia).
    destruct (readInplace_ok p' w _ _ c2 os (Z.of_nat (length t) + 1) C') as (p2 & E2 & Ha2 & C2);
      [lia|by rewrite length_pad4, El by lia|lia|].
    exists p2. rewrite (bind_ok _ _ _ _ _ E2). split; [|by split].
    apply (load_front p2 w _ t ([0] ++ replicate (Z.to_nat (PAD_SIZE (Z.of_nat (length (t ++ [0]))) - Z.of_nat (length (t ++ [0])))) 0) c2 os); [|done].
    unfold pad4 in C2. rewrite <- !(app_assoc t) in C2. exact C2.
Qed.

Lemma readString16_ok p w c1 c2 os s :
  Forall (λ x, 0 <= x < 2 ^ 16) s → cursor p c1 (string16_bytes (Some s)) c2 os →
  reads readString16 p w c1 (string16_bytes (Some s)) c2 os s.
Proof.
  intros Hs C. pose proof (cur_small _ _ _ _ _ C) as Hsm. rewrite !length_app in Hsm. cbn [string16_bytes] in *.
  unfold readString16, readString16Inplace.
  assert (length (int32 (Z.of_nat (length s))) = 4%nat) as E4 by apply length_le_bytes.
  assert (Z.of_nat (length (bytes16 (s ++ [0]))) = (Z.of_nat (length s) + 1) * 2) as El by (rewrite length_bytes16, length_app; simpl; lia).
  assert ((Z.of_nat (length s) + 1) * 2 < 2 ^ 29) as Hl.
  { rewrite <- El. unfold string16_bytes, pad4 in Hsm. rewrite !length_app in Hsm. lia. }
  destruct (readInt32_ok p w c1 (pad4 (bytes16 (s ++ [0])) ++ c2) os (Z.of_nat (length s))) as (p1 & E1 & Ha1 & C1);
    [lia|by apply cursor_shrink|].
  apply (cursor_next _ _ (pad4 (bytes16 (s ++ [0])))) in C1.
  destruct (readInplace_ok p1 w _ _ c2 os ((Z.of_nat (length s) + 1) * 2) C1) as (p2 & E2 & Ha2 & C2);
    [lia|by rewrite length_pad4, El by lia|lia|].
  exists p2. split; [|split; [congruence|by rewrite app_assoc]].
  rewrite bind_bind, (bind_ok _ _ _ _ _ E1). rewrite Z.geb_leb, (proj2 (Z.leb_le _ _)), (proj2 (Z.ltb_lt _ _)) by (unfold INT32_MAX; lia).
  cbn [andb]. rewrite (u32_small (_ * 2)) by lia. rewrite bind_bind, (bind_ok _ _ _ _ _ E2). prun. cbn [fmap option_fmap option_map].
  assert (load (Z.of_nat (length (c1 ++ int32 (Z.of_nat (length s))))) (Z.of_nat (length s) * 2) (p2, w) = Ok (bytes16 s, (p2, w))) as E3.
  { apply (load_front p2 w _ (bytes16 s) (bytes16 [0] ++ replicate (Z.to_nat (PAD_SIZE (Z.of_nat (length (bytes16 (s ++ [0])))) - Z.of_nat (length (bytes16 (s ++ [0]))))) 0) c2 os);
      [|rewrite length_bytes16; lia].
    rewrite (app_assoc (bytes16 s)), <- bytes16_app. exact C2. }
  rewrite (bind_ok _ _ _ _ _ E3). by rewrite words16_bytes16.
Qed.

(** ** Objects *)

Definition flat_ok (f : flat_binder_object) : Prop := Forall is_u32 [fp_type f; fp_flags f; fp_binder f; fp_cookie f].

Lemma flat_at_ok p w c1 f c2 os :
  rep p (c1 ++ encode_flat f ++ c2) os → flat_ok f → flat_at (Z.of_nat (length c1)) (p, w) = Ok (f, (p, w)).
Proof.
  intros R Hf. unfold flat_at. rewrite (bind_ok _ _ _ _ _ (load_cursor p w c1 (encode_flat f) c2 os _ R eq_refl)). prun.
  by rewrite flat_object_roundtrip.
Qed.

(** Whether an object at [o] may be read. *)
Definition readable_object (f : flat_binder_object) (nullMetaData : bool) (o : Z) os : bool :=
  bool_decide (o ∈ os) || (negb nullMetaData && (fp_cookie f =? 0) && (fp_binder f =? 0)).

Lemma readObject_exact p w c1 f c2 os nullMetaData :
  cursor p c1 (encode_flat f) c2 os → flat_ok f →
  reads (readObject nullMetaData) p w c1 (encode_flat f) c2 os
    (if readable_object f nullMetaData (Z.of_nat (length c1)) os then Some f else None).
Proof.
  intros C Hf. destruct (C) as [R Hp Hh Hs]. pose proof (rep_size _ _ _ R) as Hsz.
  pose proof (length_encode_flat f) as E16. rewrite !length_app in Hs, Hsz.
  unfold reads, readObject. prun. unfold sizeof_flat_object. rewrite Hp, u32_small by lia. rewrite (proj2 (Z.leb_le _ _)) by lia. prun.
  set (q := p <| mDataPos := _ |>).
  assert (∀ h, 0 <= h → cursor (q <| mNextObjectHint := h |>) (c1 ++ encode_flat f) [] c2 os) as Cq.
  { intros h Hh'. apply (cursor_move p); [done| |done]. unfold q. rewrite length_app, E16, Nat2Z.inj_add. by destruct p. }
  assert (∀ h, 0 <= h → rep (q <| mNextObjectHint := h |>) (c1 ++ encode_flat f ++ c2) os) as Rq.
  { intros h Hh'. pose proof (cur_rep _ _ _ _ _ (Cq h Hh')) as R'. by rewrite app_nil_l, <- app_assoc in R'. }
  assert (q = q <| mNextObjectHint := mNextObjectHint p |>) as Eq by by destruct p.
  assert (flat_at (Z.of_nat (length c1)) (q, w) = Ok (f, (q, w))) as Eflat by (rewrite Eq; by eapply flat_at_ok; [apply Rq|]).
  assert ((if nullMetaData then mret false
            else flat ← flat_at (Z.of_nat (length c1)); mret ((fp_cookie flat =? 0) && (fp_binder flat =? 0))) (q, w) =
    Ok (negb nullMetaData && (fp_cookie f =? 0) && (fp_binder f =? 0), (q, w))) as Eb.
  { destruct nullMetaData; [done|]. by rewrite (bind_ok _ _ _ _ _ Eflat). }
  rewrite (bind_ok _ _ _ _ _ Eb). unfold readable_object. set (null := negb nullMetaData && _ && _).
  assert (∃ h, 0 <= h ∧ (if null then mret true else find_object (Z.of_nat (length c1))) (q, w) =
    Ok (bool_decide (Z.of_nat (length c1) ∈ os) || null, (q <| mNextObjectHint := h |>, w))) as (h & Hh' & E).
  { destruct null; [exists (mNextObjectHint p); split; [done|]; by rewrite orb_true_r, <- Eq|].
    destruct (find_object_ok q w os (Z.of_nat (length c1))) as (h & Hh' & E); [split; apply R|apply R|done|].
    exists h. split; [done|]. by rewrite orb_false_r. }
  rewrite (bind_ok _ _ _ _ _ E). destruct (_ || null).
  - rewrite (bind_ok _ _ _ _ _ (flat_at_ok _ w c1 f c2 os (Rq h Hh') Hf)). eexists. split; [reflexivity|]. split; [done|by apply Cq].
  - eexists. split; [reflexivity|]. split; [done|by apply Cq].
Qed.

(** An object is found when it is in the list; a null object always is. *)
Lemma readObject_ok p w c1 f c2 os nullMetaData :
  cursor p c1 (encode_flat f) c2 os → flat_ok f →
  Z.of_nat (length c1) ∈ os ∨ nullMetaData = false ∧ fp_cookie f = 0 ∧ fp_binder f = 0 →
  reads (readObject nullMetaData) p w c1 (encode_flat f) c2 os (Some f).
Proof.
  intros C Hf Hin. pose proof (readObject_exact p w c1 f c2 os nullMetaData C Hf) as H.
  assert (readable_object f nullMetaData (Z.of_nat (length c1)) os = true) as Er; [|by rewrite Er in H].
  unfold readable_object. destruct Hin as [Hin|(-> & -> & ->)]; [by rewrite bool_decide_true|apply orb_true_r].
Qed.

End read.
