(* ===== verification/ParcelRuns.v ===== *)
(** Runs of a parcel: items written one after the other and read back, the
    references it holds on the way, and messages it mishandles. *)
From stdpp Require Import gmultiset.
From S2P Require Import Prelude BinderUapi Parcel ParcelSpec ParcelRead.
Import Parcel ParcelRep.


(** ** Items *)

Inductive item : Type :=
| I_int32 (x : Z)
| I_int64 (x : Z)
| I_cstring (s : list Z)
| I_string8 (s : list Z)
| I_string16 (s : list Z)
| I_binder (b : ibinder)
| I_fd (fd : Z) (takeOwnership : bool).

Section runs.
Context {PR : Process}.
Implicit Types (p : parcel) (w : world) (c : list Z) (os : list Z).

Ltac prun := repeat (first [rewrite this_bind | rewrite set_this_bind | rewrite ret_bind]; cbv beta).

Definition write_item (it : item) : P Z :=
  match it with
  | I_int32 x => writeInt32 x
  | I_int64 x => writeInt64 x
  | I_cstring s => writeCString s
  | I_string8 s => writeString8 s
  | I_string16 s => writeString16 (Some s)
  | I_binder b => writeStrongBinder b
  | I_fd fd own => writeFileDescriptor fd own
  end.

(** Reading an item of the same kind. *)
Definition read_item (it : item) : P (option item) :=
  match it with
  | I_int32 _ => x ← readInt32; mret (Some (I_int32 x))
  | I_int64 _ => x ← readInt64; mret (Some (I_int64 x))
  | I_cstring _ => s ← readCString; mret (I_cstring <$> s)
  | I_string8 _ => s ← readString8; mret (Some (I_string8 s))
  | I_string16 _ => s ← readString16; mret (Some (I_string16 s))
  | I_binder _ => b ← readStrongBinder; mret (Some (I_binder b))
  | I_fd _ own => fd ← readFileDescriptor; mret (Some (I_fd fd own))
  end.

(** Writing until an error. *)
Fixpoint write_items (its : list item) : P Z :=
  match its with
  | [] => mret NO_ERROR
  | it :: its' => err ← write_item it; if err =? NO_ERROR then write_items its' else mret err
  end.

Fixpoint read_items (its : list item) : P (list (option item)) :=
  match its with
  | [] => mret []
  | it :: its' => x ← read_item it; l ← read_items its'; mret (x :: l)
  end.

(** ** What an item is in the parcel *)

Definition int64 (x : Z) : list Z := le_bytes 8 (x `mod` 2 ^ 64).

(** The object of an item, with [nullMetaData]. *)
Definition item_object (it : item) : option (flat_binder_object * bool) :=
  match it with
  | I_binder b => Some (flat_strong b, false)
  | I_fd fd own => Some (mk_flat BINDER_TYPE_FD OBJECT_FLAGS (u32 fd) (b2z own), true)
  | _ => None
  end.

Definition item_bytes (it : item) : list Z :=
  match it with
  | I_int32 x => int32 x
  | I_int64 x => int64 x
  | I_cstring s => pad4 (s ++ [0])
  | I_string8 s => string8_bytes s
  | I_string16 s => string16_bytes (Some s)
  | _ => match item_object it with Some (f, _) => encode_flat f | None => [] end
  end.

Definition item_entry c it : list Z := match item_object it with Some (f, m) => new_offset c f m | None => [] end.
Definition item_hold it : gmultiset hold := match item_object it with Some (f, m) => new_hold f m | None => ∅ end.

Definition binder_ok (b : ibinder) : Prop :=
  match b with
  | B_null => True
  | B_local c => is_u32 c ∧ c ≠ 0 ∧ is_u32 (getWeakRefs c) ∧ getWeakRefs c ≠ 0
  | B_proxy h => is_u32 h ∧ getStrongProxyForHandle h = true
  end.

Definition item_ok (it : item) : Prop :=
  match it with
  | I_int32 x => - 2 ^ 31 <= x < 2 ^ 31
  | I_int64 x => - 2 ^ 63 <= x < 2 ^ 63
  | I_cstring s => Forall (λ b, b ≠ 0) s
  | I_string8 _ => True
  | I_string16 s => Forall (λ x, 0 <= x < 2 ^ 16) s
  | I_binder b => binder_ok b
  | I_fd fd _ => 0 <= fd < 2 ^ 31
  end.

Definition contents (its : list item) : list Z := concat (item_bytes <$> its).
Fixpoint offsets c (its : list item) : list Z :=
  match its with [] => [] | it :: its' => item_entry c it ++ offsets (c ++ item_bytes it) its' end.

Lemma length_pad4_ge bs : (length bs ≤ length (pad4 bs))%nat.
Proof. unfold pad4. rewrite length_app. lia. Qed.

Lemma write_item_ok it p w c os :
  rep p c os → at_end p → mAllowFds p = true → Z.of_nat (length (c ++ item_bytes it)) + 16 < 2 ^ 29 →
  writes 2 (write_item it) p w c os (item_bytes it) (item_entry c it) (item_hold it).
Proof.
  intros R He Ha Hs. rewrite length_app in Hs.
  destruct it as [x|x|s|s|s|b|fd own]; cbn [write_item item_bytes] in *; unfold item_entry, item_hold; cbn [item_object].
  - apply (writes_le 1); [lia|]. apply writeInt32_ok; [done..|lia].
  - apply (writes_le 1); [lia|]. apply (writeAligned_ok p w c os (int64 x)); [done..|simpl; lia|simpl; lia].
  - apply (writes_le 1); [lia|]. pose proof (length_pad4_ge (s ++ [0])). apply parcel_write_ok; [done..|rewrite length_app; simpl; lia|lia].
  - apply writeString8_ok; [done..|]. unfold string8_bytes in Hs. rewrite length_app in Hs.
    destruct s as [|y s]; [simpl; lia|]. rewrite bool_decide_false in Hs by done. pose proof (length_pad4_ge ((y :: s) ++ [0])) as Hp.
    rewrite length_app in Hp. simpl in *. lia.
  - apply writeString16_ok; [done..|]. cbn [default]. cbn [string16_bytes] in Hs. rewrite length_app in Hs.
    pose proof (length_pad4_ge (bytes16 (s ++ [0]))) as Hp. rewrite length_bytes16, length_app in Hp. simpl in *. lia.
  - unfold writeStrongBinder. cbn [item_object] in Hs. rewrite length_encode_flat in Hs. apply writeObject_ok; [done..|lia|by rewrite Ha, andb_false_r].
  - unfold writeFileDescriptor. cbn [item_object] in Hs. rewrite length_encode_flat in Hs. apply writeObject_ok; [done..|lia|by rewrite Ha, andb_false_r].
Qed.

(** ** Writing *)

Lemma contents_cons it its : contents (it :: its) = item_bytes it ++ contents its.
Proof. done. Qed.

Lemma write_items_all its p w c os :
  rep p c os → at_end p → mAllowFds p = true → Z.of_nat (length (c ++ contents its)) + 16 < 2 ^ 29 →
  plenty (2 * length its) w →
  ∃ p' w', write_items its (p, w) = Ok (NO_ERROR, (p', w')) ∧ rep p' (c ++ contents its) (os ++ offsets c its) ∧ mAllowFds p' = true.
Proof.
  revert p w c os. induction its as [|it its IH]; intros p w c os R He Ha Hs Hp; cbn [write_items offsets].
  - exists p, w. split; [done|]. split; [|done]. unfold contents. by rewrite !app_nil_r.
  - rewrite contents_cons, app_assoc in Hs.
    destruct (write_item_ok it p w c os R He Ha) as (r & p1 & w1 & E & He1 & Ha1 & Hm & Hr).
    { rewrite length_app in Hs. lia. }
    rewrite (bind_ok _ _ _ _ _ E). cbn [length] in Hp.
    destruct Hr as [(-> & R1 & _)|(_ & Hn & _)].
    2: { exfalso. apply Hn, (plenty_le 2 (2 * S (length its))); [lia|done]. }
    change (NO_ERROR =? NO_ERROR) with true. cbv iota.
    destruct (IH p1 w1 _ _ R1 He1) as (p2 & w2 & E2 & R2 & Ha2); [congruence|done| |].
    { apply Hm. replace (2 + 2 * length its)%nat with (2 * S (length its))%nat by lia. done. }
    exists p2, w2. split; [done|]. split; [|done]. by rewrite contents_cons, !app_assoc in *.
Qed.

Lemma rep_init : rep initState [] [].
Proof. constructor; cbn; try lia; [by right|by right|by apply Forall_nil|by apply SSorted_nil|done]. Qed.

(** ** Reading *)

Lemma b2z_u32 b : is_u32 (b2z b).
Proof. unfold is_u32. destruct b; simpl; lia. Qed.

Lemma flat_ok_intro t b k : is_u32 t → is_u32 b → is_u32 k → flat_ok (mk_flat t OBJECT_FLAGS b k).
Proof.
  intros Ht Hb Hk. assert (is_u32 OBJECT_FLAGS) by (split; [by apply Z.leb_le|by apply Z.ltb_lt]).
  repeat apply Forall_cons_2; try apply Forall_nil_2; done.
Qed.

Lemma types_u32 : is_u32 BINDER_TYPE_BINDER ∧ is_u32 BINDER_TYPE_HANDLE ∧ is_u32 BINDER_TYPE_FD.
Proof. split_and!; (split; [by apply Z.leb_le|by apply Z.ltb_lt]). Qed.

Lemma item_object_ok it f m : item_ok it → item_object it = Some (f, m) → flat_ok f.
Proof.
  intros Hok E. destruct types_u32 as (Hb & Hh & Hf). assert (is_u32 0) by (unfold is_u32; lia).
  destruct it as [| | | | |b|fd own]; try discriminate; injection E as <- <-.
  - destruct b as [|k|h]; apply flat_ok_intro; cbn in Hok; tauto.
  - apply flat_ok_intro; [done|apply u32_range|apply b2z_u32].
Qed.

Lemma strong_of_flat b : binder_ok b → strong_of (flat_strong b) = b.
Proof.
  unfold strong_of. destruct b as [|k|h]; cbn [flat_strong fp_type fp_cookie fp_binder].
  - done.
  - intros (_ & Hk & _). by rewrite Z.eqb_refl, (proj2 (Z.eqb_neq k 0)).
  - intros [_ Hh]. assert (BINDER_TYPE_HANDLE =? BINDER_TYPE_BINDER = false) as -> by done. by rewrite Z.eqb_refl, Hh.
Qed.

Lemma reads_app_nil {A} (op : P A) p w c1 bs c2 os a : reads op p w c1 (bs ++ []) c2 os a → reads op p w c1 bs c2 os a.
Proof. by rewrite app_nil_r. Qed.

Lemma read_item_ok it p w c1 c2 os :
  item_ok it → (∀ o, o ∈ item_entry c1 it → o ∈ os) → cursor p c1 (item_bytes it) c2 os →
  reads (read_item it) p w c1 (item_bytes it) c2 os (Some it).
Proof.
  intros Hok Hin C. pose proof (item_object_ok it) as Hflat.
  destruct it as [x|x|s|s|s|b|fd own]; cbn [read_item item_bytes] in *; unfold item_entry in Hin; cbn [item_object item_ok] in *.
  - apply (reads_map _ (λ x, Some (I_int32 x))). by apply readInt32_ok.
  - apply (reads_map _ (λ x, Some (I_int64 x))).
    destruct (readAligned_ok p w c1 (int64 x) c2 os 8 C eq_refl) as (p' & E & H). exists p'. split; [|done].
    assert (le_value (int64 x) = x `mod` 2 ^ 64) as Ev by (apply le_value_bytes; pose proof (Z.mod_pos_bound x (2 ^ 64)); simpl; lia).
    unfold readInt64. rewrite (bind_ok _ _ _ _ _ E). prun. rewrite Ev. cbn [fmap option_fmap option_map default from_option id].
    unfold mret, st_ret, s64. do 2 f_equal. rewrite Zplus_mod_idemp_l, Z.mod_small by lia. f_equal. lia.
  - exact (reads_map readCString (λ s, I_cstring <$> s) p w c1 _ c2 os (Some s) (readCString_ok p w c1 c2 os s Hok C)).
  - by apply (reads_map _ (λ x, Some (I_string8 x))), readString8_ok.
  - by apply (reads_map _ (λ x, Some (I_string16 x))), readString16_ok.
  - apply (reads_map _ (λ x, Some (I_binder x))). rewrite <- (strong_of_flat b Hok) at 2. unfold readStrongBinder.
    apply (reads_map _ (λ flat, match flat with Some f => strong_of f | None => B_null end) p w c1 _ c2 os (Some (flat_strong b))).
    apply readObject_ok; [done|by apply (Hflat _ false)|]. unfold new_offset, listed in Hin. cbn [orb] in Hin.
    destruct (Z.eqb_spec (fp_binder (flat_strong b)) 0) as [Hz|]; [right|left; apply Hin; by left].
    destruct b as [|k|h]; cbn in *; tauto.
  - apply (reads_map _ (λ x, Some (I_fd x own))). unfold readFileDescriptor. rewrite <- (s32_u32 fd) at 2 by lia.
    apply (reads_map _ (λ flat, match flat with Some f => if fp_type f =? BINDER_TYPE_FD then s32 (fp_binder f) else BAD_TYPE | None => BAD_TYPE end)
      p w c1 _ c2 os (Some (mk_flat BINDER_TYPE_FD OBJECT_FLAGS (u32 fd) (b2z own)))).
    apply readObject_ok; [done|by apply (Hflat _ true)|]. left. apply Hin. by left.
Qed.

Lemma read_items_ok its p w c1 os :
  Forall item_ok its → (∀ o, o ∈ offsets c1 its → o ∈ os) → cursor p c1 [] (contents its) os →
  ∃ p', read_items its (p, w) = Ok (Some <$> its, (p', w)).
Proof.
  intros Hok. revert p c1. induction Hok as [|it its Hit Hits IH]; intros p c1 Hin C; cbn [read_items].
  - by exists p.
  - rewrite contents_cons in C. cbn [offsets] in Hin.
    destruct (read_item_ok it p w c1 (contents its) os Hit) as (p1 & E & _ & C1).
    { intros o Ho. apply Hin, elem_of_app. by left. } { by apply cursor_next. }
    rewrite (bind_ok _ _ _ _ _ E). destruct (IH p1 (c1 ++ item_bytes it)) as (p2 & E2); [|done|].
    { intros o Ho. apply Hin, elem_of_app. by right. }
    exists p2. by rewrite (bind_ok _ _ _ _ _ E2).
Qed.

(** ** References *)

(** The entries [os] of the content are the objects [objs]. *)
Definition described c os (objs : list flat_binder_object) : Prop :=
  Forall2 (λ o f, decode_flat (slice (Z.to_nat o) 16 c) = f) os objs.
Definition hold_sets (objs : list flat_binder_object) : gmultiset hold := ⋃+ (hold_set <$> objs).

Lemma slice_app_l o c bs : 0 <= o → o + 16 <= Z.of_nat (length c) → slice (Z.to_nat o) 16 (c ++ bs) = slice (Z.to_nat o) 16 c.
Proof. intros Ho Hl. unfold slice. rewrite drop_app_le by lia. rewrite take_app_le; [done|]. rewrite length_drop. lia. Qed.

Lemma described_app p c os objs bs : rep p c os → described c os objs → described (c ++ bs) os objs.
Proof.
  intros R. pose proof (rep_offsets _ _ _ R) as Ho. clear R. unfold described. intros Hd.
  induction Hd as [|o f os objs E Hd IH]; [constructor|]. inversion_clear Ho as [|? ? [H1 H2] H3].
  constructor; [|by apply IH]. by rewrite slice_app_l.
Qed.

Lemma described_new c f m : flat_ok f → described (c ++ encode_flat f) (new_offset c f m) (if listed f m then [f] else []).
Proof.
  intros Hf. unfold new_offset. destruct (listed f m); [|constructor]. constructor; [|constructor].
  rewrite Nat2Z.id. unfold slice. rewrite drop_app_length, take_ge by (rewrite length_encode_flat; lia). by rewrite flat_object_roundtrip.
Qed.

(** The parcel holds what its objects need, on top of [H]. *)
Definition holding p w (H : gmultiset hold) : Prop :=
  ∃ c os objs, rep p c os ∧ described c os objs ∧ w_holds w = hold_sets objs ⊎ H.

Lemma hold_sets_app l1 l2 : hold_sets (l1 ++ l2) = hold_sets l1 ⊎ hold_sets l2.
Proof. unfold hold_sets. by rewrite fmap_app, gmultiset_disj_union_list_app. Qed.

Lemma new_hold_sets f m : new_hold f m = hold_sets (if listed f m then [f] else []).
Proof. unfold new_hold, hold_sets. destruct (listed f m); [|done]. simpl. by rewrite (right_id_L ∅ (⊎)). Qed.

(** Each write keeps it so, with memory or without. *)
Lemma writes_holding n op p w c os bs no dh objs new H :
  writes n op p w c os bs no dh → rep p c os → described c os objs → w_holds w = hold_sets objs ⊎ H →
  described (c ++ bs) no new → dh = hold_sets new →
  ∃ r p' w', op (p, w) = Ok (r, (p', w')) ∧ at_end p' ∧ mAllowFds p' = mAllowFds p ∧
    ∃ c' os' objs', rep p' c' os' ∧ described c' os' objs' ∧ w_holds w' = hold_sets objs' ⊎ H ∧ (r = NO_ERROR → c' = c ++ bs).
Proof.
  intros (r & p' & w' & E & He & Ha & _ & Hr) R Hd HH Hnew ->. exists r, p', w'. split_and!; [done..|].
  destruct Hr as [(-> & R' & Hw)|(Hr & _ & Hw & c' & R')].
  - exists (c ++ bs), (os ++ no), (objs ++ new). split_and!; [done| | |done].
    + apply Forall2_app; [by eapply described_app|done].
    + rewrite Hw. cbn. rewrite HH, hold_sets_app. multiset_solver.
  - exists (c ++ c'), os, objs. split_and!; [done|by eapply described_app| |done]. by rewrite (heap_only_holds _ _ Hw).
Qed.

Definition new_objects (it : item) : list flat_binder_object :=
  match item_object it with Some (f, m) => if listed f m then [f] else [] | None => [] end.

Lemma item_described it c : item_ok it → described (c ++ item_bytes it) (item_entry c it) (new_objects it) ∧ item_hold it = hold_sets (new_objects it).
Proof.
  intros Hok. unfold item_entry, new_objects, item_hold. destruct (item_object it) as [[f m]|] eqn:E; [|by split; [constructor|]].
  assert (item_bytes it = encode_flat f) as -> by (destruct it; try discriminate; injection E as <- _; done).
  split; [by apply described_new, (item_object_ok it _ m)|apply new_hold_sets].
Qed.

Lemma write_items_holding its p w c os objs H :
  Forall item_ok its → rep p c os → at_end p → mAllowFds p = true → Z.of_nat (length (c ++ contents its)) + 16 < 2 ^ 29 →
  described c os objs → w_holds w = hold_sets objs ⊎ H →
  ∃ r p' w', write_items its (p, w) = Ok (r, (p', w')) ∧ holding p' w' H.
Proof.
  intros Hok. revert p w c os objs. induction Hok as [|it its Hit Hits IH]; intros p w c os objs R He Ha Hs Hd HH; cbn [write_items].
  - exists NO_ERROR, p, w. split; [done|]. by exists c, os, objs.
  - rewrite contents_cons, app_assoc in Hs. destruct (item_described it c Hit) as [Hnew Hhold].
    destruct (writes_holding 2 (write_item it) p w c os (item_bytes it) (item_entry c it) (item_hold it) objs (new_objects it) H)
      as (r & p1 & w1 & E & He1 & Ha1 & c1 & os1 & objs1 & R1 & Hd1 & HH1 & Hc1); [|done..|].
    { apply write_item_ok; [done..|]. rewrite length_app in Hs. lia. }
    rewrite (bind_ok _ _ _ _ _ E). destruct (Z.eqb_spec r NO_ERROR) as [->|].
    + rewrite Hc1 in * by done. apply (IH p1 w1 (c ++ item_bytes it) os1 objs1); [done|done|congruence|done..].
    + exists r, p1, w1. split; [done|]. by exists c1, os1, objs1.
Qed.

(** Releasing the objects gives back just that. *)
Lemma release_object_eq f p w H :
  w_holds w = hold_set f ⊎ H → ∃ w', release_object f (p, w) = Ok (tt, (p, w')) ∧ w_holds w' = H.
Proof.
  unfold release_object, hold_set. destruct (hold_of f) as [h|].
  - intros HH. unfold dec. cbn [snd fst]. rewrite bool_decide_true by (rewrite HH; multiset_solver).
    eexists. split; [reflexivity|]. cbn. rewrite HH. multiset_solver.
  - rewrite (left_id_L ∅ (⊎)). intros HH. destruct (_ && _); eexists; (split; [reflexivity|done]).
Qed.

Lemma down_objects_release p w c os objs H i :
  rep p c os → described c os objs → (i ≤ length os)%nat → w_holds w = hold_sets (take i objs) ⊎ H →
  ∃ w', down_objects i release_object (p, w) = Ok (tt, (p, w')) ∧ w_holds w' = H.
Proof.
  intros R Hd. pose proof (Forall2_length _ _ _ Hd) as Hlen. revert w. induction i as [|i IH]; intros w Hi HH; cbn [down_objects].
  - exists w. split; [done|]. rewrite HH. unfold hold_sets. simpl. apply (left_id_L ∅ (⊎)).
  - destruct (lookup_lt_is_Some_2 os i Hi) as [o Ho]. destruct (Forall2_lookup_l _ _ _ _ _ Hd Ho) as (f & Hf & Ef).
    rewrite (bind_ok _ _ _ _ _ (get_object_ok p w os i o (conj (rep_objects _ _ _ R) (rep_count _ _ _ R)) Ho)).
    pose proof (proj1 (Forall_forall _ _) (rep_offsets _ _ _ R) o (list_elem_of_lookup_2 _ _ _ Ho)) as [Ho1 Ho2].
    assert (flat_at o (p, w) = Ok (f, (p, w))) as E.
    { unfold flat_at, load. rewrite bind_bind, this_bind, (peek_prefix _ _ _ _ _ (rep_data _ _ _ R)) by (unfold sizeof_flat_object; lia).
      cbn [the]. prun. unfold sizeof_flat_object, mret, st_ret. change (Z.to_nat 16) with 16%nat. by rewrite Ef. }
    rewrite (bind_ok _ _ _ _ _ E). rewrite (take_S_r _ _ _ Hf), hold_sets_app in HH.
    destruct (release_object_eq f p w (hold_sets (take i objs) ⊎ H)) as (w1 & E1 & HH1).
    { rewrite HH. unfold hold_sets. simpl. rewrite (right_id_L ∅ (⊎)). multiset_solver. }
    rewrite (bind_ok _ _ _ _ _ E1). apply IH; [lia|done].
Qed.

Lemma freeDataNoInit_holding p w H : holding p w H → ∃ w', freeDataNoInit (p, w) = Ok (tt, (p, w')) ∧ w_holds w' = H.
Proof.
  intros (c & os & objs & R & Hd & HH). unfold freeDataNoInit. prun. rewrite (rep_owner _ _ _ R).
  unfold releaseObjects. rewrite bind_bind, this_bind.
  destruct (down_objects_release p w c os objs H (length os) R Hd) as (w' & E & HH'); [done| |].
  { by rewrite (Forall2_length _ _ _ Hd), firstn_all. }
  exists w'. rewrite (rep_count _ _ _ R), Nat2Z.id, (bind_ok _ _ _ _ _ E). split; [|done].
  assert (∀ b n l, holds_prefix b n l → free b (p, w') = Ok (tt, (p, w'))) as Hfree by (intros ? ? ? [(? & -> & _)|[-> _]]; done).
  rewrite (bind_ok _ _ _ _ _ (Hfree _ _ _ (rep_data _ _ _ R))). exact (Hfree _ _ _ (rep_objects _ _ _ R)).
Qed.

(** C16: what is written to a new parcel reads back: integers, strings, binders
    (local, remote and null) and file descriptors, in any order, give the same
    items when the position is set back to the start.  Every write succeeds, as
    long as there is memory (two blocks for each item are enough) and the parcel
    stays below 512 MB. *)
Theorem parcel_roundtrip its w :
  Forall item_ok its → Z.of_nat (length (contents its)) + 16 < 2 ^ 29 → plenty (2 * length its) w →
  ∃ s, (err ← write_items its; setDataPosition 0 ;; l ← read_items its; mret (err, l)) (initState, w) = Ok ((NO_ERROR, Some <$> its), s).
Proof.
  intros Hok Hs Hp. destruct (write_items_all its initState w [] [] rep_init eq_refl eq_refl Hs Hp) as (p1 & w1 & E1 & R1 & _).
  rewrite (bind_ok _ _ _ _ _ E1). unfold setDataPosition. prun. cbn [app] in R1.
  destruct (read_items_ok its (p1 <| mDataPos := 0 |> <| mNextObjectHint := 0 |>) w1 [] (offsets [] its) Hok) as (p2 & E2); [done| |].
  - constructor; [|done|done|exact (ltac:(simpl; lia) : Z.of_nat (length ([] ++ [] ++ contents its)) < 2 ^ 29)].
    cbn [app]. destruct R1 as [Hb Hsz Ho Hc Hpos Hcap Hocap Hoff Hsort Hmany Hown]. constructor; cbn; try done. lia.
  - rewrite (bind_ok _ _ _ _ _ E2). eexists. reflexivity.
Qed.

(** C19: a parcel holds its binders as long as it exists, and not longer: however
    many of the items could be written before memory ran out, the destructor
    releases the references that were acquired, each of them once, and nothing
    oopses. *)
Theorem parcel_releases_its_holds its w :
  Forall item_ok its → Z.of_nat (length (contents its)) + 16 < 2 ^ 29 →
  ∃ p w1 w2 err, write_items its (initState, w) = Ok (err, (p, w1)) ∧ freeDataNoInit (p, w1) = Ok (tt, (p, w2)) ∧
    w_holds w2 = w_holds w.
Proof.
  intros Hok Hs.
  destruct (write_items_holding its initState w [] [] [] (w_holds w) Hok rep_init eq_refl eq_refl Hs) as (r & p & w1 & E & Hh).
  { constructor. } { unfold hold_sets. simpl. symmetry. apply (left_id_L ∅ (⊎)). }
  destruct (freeDataNoInit_holding p w1 _ Hh) as (w2 & E2 & HH). by exists p, w1, w2, r.
Qed.
End runs.
