(* ===== verification/ParcelSafety.v ===== *)
(** Messages from other processes: whatever the bytes, the readers stay inside
    the parcel, as long as a size does not come close to the width of a
    [size_t]. *)
From stdpp Require Import gmultiset.
From S2P Require Import Prelude BinderUapi Parcel ParcelSpec ParcelRead ParcelRuns.
Import Parcel ParcelRep.

Section safety.
Context {PR : Process}.
Implicit Types (p : parcel) (w : world) (c : list Z) (os : list Z).

Ltac prun := repeat (first [rewrite this_bind | rewrite set_this_bind | rewrite ret_bind]; cbv beta).

(** A message of whole words, with the position at a word. *)
Record message p c os : Prop := {
  msg_data : mData p = Block c;
  msg_size : mDataSize p = Z.of_nat (length c);
  msg_small : Z.of_nat (length c) < 2 ^ 29;
  msg_words : Z.of_nat (length c) `mod` 4 = 0;
  msg_pos : 0 <= mDataPos p <= mDataSize p;
  msg_aligned : mDataPos p `mod` 4 = 0;
  msg_hint : 0 <= mNextObjectHint p;
  msg_objects : entries_of p os
}.

(** [op] ends, and leaves a message. *)
Definition safe {A} (op : P A) c os : Prop :=
  ∀ p w, message p c os → ∃ a p', op (p, w) = Ok (a, (p', w)) ∧ message p' c os.

Lemma safe_ret {A} (a : A) c os : safe (mret a) c os.
Proof. intros p w M. by exists a, p. Qed.
Lemma safe_bind {A B} (op : P A) (f : A → P B) c os : safe op c os → (∀ a, safe (f a) c os) → safe (op ≫= f) c os.
Proof.
  intros Ho Hf p w M. destruct (Ho p w M) as (a & p1 & E & M1). destruct (Hf a p1 w M1) as (b & p2 & E2 & M2).
  exists b, p2. by rewrite (bind_ok _ _ _ _ _ E).
Qed.
Lemma safe_this {A} (f : parcel → P A) c os :
  (∀ p w, message p c os → ∃ a p', f p (p, w) = Ok (a, (p', w)) ∧ message p' c os) → safe (this ≫= f) c os.
Proof. intros H p w M. rewrite this_bind. by apply H. Qed.

Lemma message_move p c os n h :
  message p c os → 0 <= n <= Z.of_nat (length c) → n `mod` 4 = 0 → 0 <= h →
  message (p <| mDataPos := n |> <| mNextObjectHint := h |>) c os.
Proof. intros [] Hn H4 Hh. constructor; cbn; try done. lia. Qed.

Lemma message_pos p c os n : message p c os → 0 <= n <= Z.of_nat (length c) → n `mod` 4 = 0 → message (p <| mDataPos := n |>) c os.
Proof.
  intros M Hn H4. assert (p <| mDataPos := n |> = p <| mDataPos := n |> <| mNextObjectHint := mNextObjectHint p |>) as -> by by destruct p.
  apply message_move; [done..|apply M].
Qed.

Lemma load_message p w c os off n :
  message p c os → 0 <= off → 0 <= n → off + n <= Z.of_nat (length c) → ∃ bs, load off n (p, w) = Ok (bs, (p, w)).
Proof.
  intros M Ho Hn Hl. unfold load. prun. rewrite (msg_data _ _ _ M). unfold peek.
  destruct (n =? 0); [by eexists|]. rewrite (proj2 (Z.leb_le _ _)) by lia. by eexists.
Qed.

Lemma readAligned_safe n c os : 0 < n < 2 ^ 29 → n `mod` 4 = 0 → safe (readAligned n) c os.
Proof.
  intros Hn H4. apply safe_this. intros p w M. destruct (M) as [Hd Hs Hsm Hw Hp Ha Hh Ho].
  rewrite u32_small by lia. destruct (Z.leb_spec (mDataPos p + n) (mDataSize p)); [|by exists None, p].
  rewrite (bind_ok _ _ _ _ _ (advance_eq n p w ltac:(lia) ltac:(lia) ltac:(lia))).
  assert (message (p <| mDataPos := mDataPos p + n |>) c os) as M'.
  { apply message_pos; [done|lia|]. rewrite Zplus_mod, Ha, H4. done. }
  destruct (load_message _ w c os (mDataPos p) n M') as [bs E]; [lia..|]. rewrite (bind_ok _ _ _ _ _ E).
  by eexists _, _.
Qed.

(** [readInplace] moves behind the padding, and stays inside. *)
Lemma readInplace_safe len p w c os :
  message p c os → 0 <= len < 2 ^ 32 - 3 →
  ∃ a p', readInplace len (p, w) = Ok (a, (p', w)) ∧ message p' c os ∧
    (∀ off, a = Some off → 0 <= off ∧ off + len <= Z.of_nat (length c)).
Proof.
  intros M Hl. destruct (M) as [Hd Hs Hsm Hw Hp Ha Hh Ho]. pose proof (PAD_SIZE_range len Hl) as [Hpad Hmod].
  unfold readInplace. prun. destruct (readable len p) eqn:E.
  2: { exists None, p. by split_and!. }
  unfold readable in E. apply andb_prop in E as [E1%Z.geb_ge E2%Z.leb_le].
  assert (mDataPos p + PAD_SIZE len < 2 ^ 32) as Hu.
  { destruct (Z.lt_ge_cases (mDataPos p + PAD_SIZE len) (2 ^ 32)) as [|Hge]; [done|]. exfalso. revert E1. unfold u32.
    rewrite (Z.mod_eq _ (2 ^ 32)) by lia. assert ((mDataPos p + PAD_SIZE len) / 2 ^ 32 = 1) as ->; [|lia].
    symmetry. apply (Z.div_unique _ _ 1 (mDataPos p + PAD_SIZE len - 2 ^ 32)); lia. }
  rewrite u32_small in E2 by lia.
  rewrite (bind_ok _ _ _ _ _ (advance_eq (PAD_SIZE len) p w ltac:(lia) ltac:(lia) Hu)).
  eexists _, _. split; [reflexivity|]. split; [apply message_pos; [done|lia|by rewrite Zplus_mod, Ha, Hmod]|].
  intros off [= <-]. lia.
Qed.

Lemma readInt32_safe c os : safe readInt32 c os.
Proof.
  apply safe_bind; [|intros; apply safe_ret]. apply safe_bind; [|intros; apply safe_ret]. by apply readAligned_safe.
Qed.

Lemma readString8_safe c os : safe readString8 c os.
Proof.
  apply safe_bind; [apply readInt32_safe|]. intros size p w M.
  destruct (Z.gtb_spec size 0); cbn [andb]; [|by exists [], p]. destruct (Z.ltb_spec size INT32_MAX) as [Hs|]; [|by exists [], p].
  unfold INT32_MAX in Hs. destruct (readInplace_safe (size + 1) p w c os M) as (a & p' & E & M' & Ha); [lia|].
  rewrite (bind_ok _ _ _ _ _ E). destruct a as [off|]; [|by exists [], p'].
  destruct (Ha off eq_refl). destruct (load_message p' w c os off size M') as [bs E']; [lia..|]. rewrite E'. by eexists _, _.
Qed.

Lemma find_nul_total l avail : Z.of_nat (length l) = avail →
  ∃ r, find_nul l avail = Some r ∧ ∀ s, r = Some s → Z.of_nat (length s) < avail.
Proof.
  revert avail. induction l as [|b l IH]; intros avail <-; cbn [find_nul length].
  - exists None. by split.
  - rewrite (proj2 (Z.eqb_neq _ 0)) by lia. destruct (b =? 0).
    + exists (Some []). split; [done|]. intros s [= <-]. simpl. lia.
    + destruct (IH (Z.of_nat (S (length l)) - 1)) as ([s|] & -> & Hs); [lia| |by exists None].
      exists (Some (b :: s)). split; [done|]. intros s' [= <-]. specialize (Hs s eq_refl). simpl. lia.
Qed.

Lemma readCString_safe c os : safe readCString c os.
Proof.
  apply safe_this. intros p w M. destruct (M) as [Hd Hs Hsm Hw Hp Ha Hh Ho].
  rewrite u32_small by lia. cbv zeta. destruct (Z.gtb_spec (mDataSize p - mDataPos p) 0); [|by exists None, p].
  rewrite Hd. destruct (find_nul_total (drop (Z.to_nat (mDataPos p)) c) (mDataSize p - mDataPos p)) as (r & -> & Hr).
  { rewrite length_drop. lia. }
  cbn [the]. prun. destruct r as [s|]; [|by exists None, p]. specialize (Hr s eq_refl).
  pose proof (PAD_SIZE_range (Z.of_nat (length s) + 1) ltac:(lia)) as [Hpad Hmod].
  assert (mDataPos p + PAD_SIZE (Z.of_nat (length s) + 1) <= mDataSize p) as Hin.
  { clear Ho M. Z.to_euclidean_division_equations. lia. }
  rewrite (bind_ok _ _ _ _ _ (advance_eq (PAD_SIZE (Z.of_nat (length s) + 1)) p w ltac:(lia) ltac:(lia) ltac:(lia))).
  eexists _, _. split; [reflexivity|]. apply message_pos; [done|lia|by rewrite Zplus_mod, Ha, Hmod].
Qed.

(** ** Objects *)

Lemma find_object_safe dpos p w c os :
  message p c os → ∃ b h, find_object dpos (p, w) = Ok (b, (p <| mNextObjectHint := h |>, w)) ∧ 0 <= h.
Proof.
  intros M. pose proof (msg_objects _ _ _ M) as He. pose proof He as [_ Hn]. pose proof (msg_hint _ _ _ M) as Hh. unfold find_object. prun.
  assert (p = p <| mNextObjectHint := mNextObjectHint p |>) as Ep by by destruct p.
  rewrite Z.gtb_ltb. destruct (Z.ltb_spec 0 (mObjectsSize p)) as [Hpos|Hz].
  2: { exists false, (mNextObjectHint p). split; [by rewrite <- Ep|done]. }
  assert (∃ j, (if mNextObjectHint p <? mObjectsSize p
      then search_forward (Z.to_nat (mObjectsSize p)) (mNextObjectHint p) (mObjectsSize p) dpos
      else mret (mObjectsSize p - 1)) (p, w) = Ok (Z.of_nat j, (p, w)) ∧ (j < length os)%nat) as (j & E & Hj).
  { destruct (Z.ltb_spec (mNextObjectHint p) (mObjectsSize p)).
    - replace (mNextObjectHint p) with (Z.of_nat (Z.to_nat (mNextObjectHint p))) by lia.
      destruct (search_forward_ok (Z.to_nat (mObjectsSize p)) p w os (Z.to_nat (mNextObjectHint p)) (mObjectsSize p) dpos He Hn) as (j & E & Hj & _);
        [lia..|]. exists j. split; [exact E|lia].
    - exists (length os - 1)%nat. split; [rewrite Hn; unfold mret, st_ret; do 2 f_equal; lia|lia]. }
  rewrite (bind_ok _ _ _ _ _ E). destruct (lookup_lt_is_Some_2 os j Hj) as [x Hx].
  rewrite (bind_ok _ _ _ _ _ (get_object_ok p w os j x He Hx)). destruct (x =? dpos).
  { exists true, (Z.of_nat j + 1). split; [done|lia]. }
  rewrite Nat2Z.id. destruct (search_backward_ok p w os j dpos He Hj) as (k & y & E' & Hk & Hy & _).
  rewrite (bind_ok _ _ _ _ _ E'), (bind_ok _ _ _ _ _ (get_object_ok p w os k y He Hy)). destruct (y =? dpos).
  { exists true, (Z.of_nat k + 1). split; [done|lia]. }
  exists false, (mNextObjectHint p). split; [by rewrite <- Ep|done].
Qed.

Lemma flat_at_safe p w c os off : message p c os → 0 <= off → off + 16 <= Z.of_nat (length c) → ∃ f, flat_at off (p, w) = Ok (f, (p, w)).
Proof.
  intros M Ho Hl. unfold flat_at. destruct (load_message p w c os off sizeof_flat_object M) as [bs E]; [done|done|done|].
  rewrite (bind_ok _ _ _ _ _ E). by eexists.
Qed.

Lemma readObject_safe nullMetaData c os : safe (readObject nullMetaData) c os.
Proof.
  apply safe_this. intros p w M. destruct (M) as [Hd Hs Hsm Hw Hp Ha Hh Ho]. unfold sizeof_flat_object. rewrite u32_small by lia.
  destruct (Z.leb_spec (mDataPos p + 16) (mDataSize p)) as [Hin|]; [|by exists None, p]. prun.
  assert (message (p <| mDataPos := mDataPos p + 16 |>) c os) as M1.
  { apply message_pos; [done|lia|]. rewrite Zplus_mod, Ha. done. }
  destruct (flat_at_safe _ w c os (mDataPos p) M1) as [f Ef]; [lia..|].
  assert (∃ b, (if nullMetaData then mret false
     else flat ← flat_at (mDataPos p); mret ((fp_cookie flat =? 0) && (fp_binder flat =? 0))) (p <| mDataPos := mDataPos p + 16 |>, w) =
    Ok (b, (p <| mDataPos := mDataPos p + 16 |>, w))) as [b Eb].
  { destruct nullMetaData; [by eexists|]. rewrite (bind_ok _ _ _ _ _ Ef). by eexists. }
  rewrite (bind_ok _ _ _ _ _ Eb).
  assert (∃ b' h, (if b then mret true else find_object (mDataPos p)) (p <| mDataPos := mDataPos p + 16 |>, w) =
    Ok (b', (p <| mDataPos := mDataPos p + 16 |> <| mNextObjectHint := h |>, w)) ∧ 0 <= h) as (b' & h & E & Hh').
  { destruct b; [|by eapply find_object_safe]. exists true, (mNextObjectHint p). split; [by destruct p|done]. }
  rewrite (bind_ok _ _ _ _ _ E).
  assert (message (p <| mDataPos := mDataPos p + 16 |> <| mNextObjectHint := h |>) c os) as M2.
  { apply message_move; [done|lia|by rewrite Zplus_mod, Ha|done]. }
  destruct b'; [|by exists None; eexists]. destruct (flat_at_safe _ w c os (mDataPos p) M2) as [f2 Ef2]; [lia..|].
  rewrite (bind_ok _ _ _ _ _ Ef2). by eexists _, _.
Qed.

(** ** Readers in any order *)

Inductive read_op : Type :=
| R_int32 | R_int64 | R_cstring | R_string8 | R_binder | R_weak_binder | R_fd
| R_bytes (len : Z) | R_inplace (len : Z).

Definition run_op (o : read_op) : P unit :=
  match o with
  | R_int32 => readInt32 ;; mret tt
  | R_int64 => readInt64 ;; mret tt
  | R_cstring => readCString ;; mret tt
  | R_string8 => readString8 ;; mret tt
  | R_binder => readStrongBinder ;; mret tt
  | R_weak_binder => readWeakBinder ;; mret tt
  | R_fd => readFileDescriptor ;; mret tt
  | R_bytes len => read len ;; mret tt
  | R_inplace len => readInplace len ;; mret tt
  end.

Definition op_ok (o : read_op) : Prop := match o with R_bytes len | R_inplace len => 0 <= len < 2 ^ 32 - 3 | _ => True end.

Lemma read_safe len c os : 0 <= len < 2 ^ 32 - 3 → safe (read len) c os.
Proof.
  intros Hl p w M. destruct (readInplace_safe len p w c os M Hl) as (a & p' & E & M' & Ha).
  unfold readInplace in E. rewrite this_bind in E. cbv beta in E. unfold read. rewrite this_bind. destruct (readable len p).
  - apply st_bind_ok in E as ([] & s & Ea & E). unfold mret, st_ret in E. injection E as Ev Es.
    destruct (Ha _ (eq_sym Ev)). destruct (load_message p w c os (mDataPos p) len M) as [bs Eb]; [lia..|].
    rewrite (bind_ok _ _ _ _ _ Eb), (bind_ok _ _ _ _ _ Ea), Es. by eexists _, _.
  - injection E as <- <-. by exists None, p.
Qed.

Lemma run_op_safe o c os : op_ok o → safe (run_op o) c os.
Proof.
  assert (∀ A (m : P A), safe m c os → safe (m ;; mret tt) c os) as Hm by (intros; apply safe_bind; [done|intros; apply safe_ret]).
  intros Ho. destruct o as [ | | | | | | |len|len]; apply Hm.
  - apply readInt32_safe.
  - apply safe_bind; [by apply readAligned_safe|intros; apply safe_ret].
  - apply readCString_safe.
  - apply readString8_safe.
  - apply safe_bind; [apply readObject_safe|intros; apply safe_ret].
  - apply safe_bind; [apply readObject_safe|intros; apply safe_ret].
  - apply safe_bind; [apply readObject_safe|intros; apply safe_ret].
  - by apply read_safe.
  - intros p w M. destruct (readInplace_safe len p w c os M Ho) as (a & p' & E & M' & _). by exists a, p'.
Qed.

Lemma run_ops_safe ops c os : Forall op_ok ops → safe (for_each run_op ops) c os.
Proof.
  induction 1 as [|o ops Ho Hops IH]; [apply safe_ret|]. cbn [for_each]. apply safe_bind; [by apply run_op_safe|done].
Qed.

Lemma scan_loop_safe n i p w c os :
  message p c os → Forall (λ o, 0 <= o ∧ o + 16 <= Z.of_nat (length c)) os → (i + n = length os)%nat →
  ∃ b, scan_loop n (Z.of_nat i) (p, w) = Ok (b, (p, w)).
Proof.
  intros M Hos. revert i. induction n as [|n IH]; intros i Hi; cbn [scan_loop]; [by exists false|].
  destruct (lookup_lt_is_Some_2 os i) as [o Ho]; [lia|]. rewrite (bind_ok _ _ _ _ _ (get_object_ok p w os i o (msg_objects _ _ _ M) Ho)).
  pose proof (proj1 (Forall_forall _ _) Hos o (list_elem_of_lookup_2 _ _ _ Ho)) as [H1 H2].
  destruct (flat_at_safe p w c os o M H1 H2) as [f Ef]. rewrite (bind_ok _ _ _ _ _ Ef).
  destruct (_ =? _); [by exists true|]. replace (Z.of_nat i + 1) with (Z.of_nat (S i)) by lia. apply IH. lia.
Qed.

Lemma message_fds p data objs b : message p data objs → message (p <| mHasFds := b |> <| mFdsKnown := true |>) data objs.
Proof. intros M; destruct M; constructor; assumption. Qed.

Lemma ipcSetDataReference_message address data objs w :
  Z.of_nat (length data) < 2 ^ 29 → Z.of_nat (length data) `mod` 4 = 0 → Forall (λ o, 0 <= o ∧ o + 16 <= Z.of_nat (length data)) objs →
  ∃ p, ipcSetDataReference address data objs (initState, w) = Ok (tt, (p, w)) ∧ message p data objs ∧ mOwner p = Some address.
Proof.
  intros Hs H4 Hos. unfold ipcSetDataReference.
  assert (freeDataNoInit (initState, w) = Ok (tt, (initState, w))) as E by done. rewrite (bind_ok _ _ _ _ _ E). prun.
  set (p := initState <| mError := _ |> <| mData := _ |> <| mDataSize := _ |> <| mDataCapacity := _ |> <| mDataPos := _ |>
    <| mObjects := _ |> <| mObjectsSize := _ |> <| mObjectsCapacity := _ |> <| mNextObjectHint := _ |> <| mOwner := _ |>).
  assert (message p data objs) as M.
  { constructor; cbn; try done; try lia. split; [|done]. left. exists []. by rewrite app_nil_r. }
  unfold scanForFds. prun. destruct (scan_loop_safe (length objs) 0 p w data objs M Hos) as [b Eb]; [done|].
  assert (mObjectsSize p = Z.of_nat (length objs)) as Hn by done. rewrite Hn, Nat2Z.id, (bind_ok _ _ _ _ _ Eb).
  eexists. split; [reflexivity|]. split; [exact (message_fds p data objs b M)|done].
Qed.

(** C20: whatever another process puts into a message of whole words, below 2^29
    bytes and with its objects inside it, as the driver makes sure, and however
    the receiver reads it with [readInt32], [readInt64], [readCString],
    [readString8], [readStrongBinder], [readWeakBinder], [readFileDescriptor],
    [read] and [readInplace] - the latter two of less than 2^32 - 3 bytes -, in any
    order, no call fails and nothing outside the message is read: these readers
    check the sizes they find.  The readers of UTF-16 strings and of exception
    headers do not, and are not among them; nor does [readCString] in a message
    that is not of whole words; see [hostile_messages]. *)
Theorem reads_stay_inside address data objs ops w :
  Z.of_nat (length data) < 2 ^ 29 → Z.of_nat (length data) `mod` 4 = 0 →
  Forall (λ o, 0 <= o ∧ o + 16 <= Z.of_nat (length data)) objs → Forall op_ok ops →
  ∃ p, (ipcSetDataReference address data objs ;; for_each run_op ops) (initState, w) = Ok (tt, (p, w)) ∧
    mData p = Block data ∧ mDataPos p <= mDataSize p.
Proof.
  intros Hs H4 Hos Hops. destruct (ipcSetDataReference_message address data objs w Hs H4 Hos) as (p & E & M & _).
  rewrite (bind_ok _ _ _ _ _ E). destruct (run_ops_safe ops data objs Hops p w M) as ([] & p' & E' & M').
  exists p'. split; [done|]. split; [apply M'|apply M'].
Qed.
End safety.

(** ** A process, and messages it mishandles *)

Module Demo.
#[export] Instance process : Process := {|
  junk _ := 204; realloc_zero_frees := true; getWeakRefs c := c + 4; getStrongProxyForHandle _ := true; getWeakProxyForHandle _ := true |}.

Definition idle : world := mk_world (replicate 30 true) [] ∅ {[ 7 ]} [].
Definition outcome {A} (m : P A) : A + oops := match m (initState, idle) with Ok (a, _) => inl a | Oops o => inr o end.

Definition letter : list item :=
  [I_int32 (-5); I_string16 [104; 105]; I_binder (B_local 1000); I_binder B_null; I_cstring [97; 98; 99]; I_fd 7 true;
   I_int64 (2 ^ 40); I_string8 []; I_string8 [120]; I_binder (B_proxy 3)].

Lemma letter_ok : Forall item_ok letter.
Proof.
  repeat apply Forall_cons_2; try apply Forall_nil_2; cbn [item_ok binder_ok]; unfold is_u32; cbn [getWeakRefs process]; try lia; try done.
Qed.

Lemma parcel_roundtrip_witness :
  ∃ s, (err ← write_items letter; setDataPosition 0 ;; l ← read_items letter; mret (err, l)) (initState, idle) = Ok ((NO_ERROR, Some <$> letter), s).
Proof. exact (parcel_roundtrip letter idle letter_ok ltac:(vm_compute; done) ltac:(vm_compute; done)). Defined.

Lemma parcel_releases_its_holds_witness :
  ∃ p w1 w2 err, write_items letter (initState, idle) = Ok (err, (p, w1)) ∧ freeDataNoInit (p, w1) = Ok (tt, (p, w2)) ∧ w_holds w2 = w_holds idle.
Proof. exact (parcel_releases_its_holds letter idle letter_ok ltac:(vm_compute; done)). Defined.

Lemma reads_stay_inside_witness :
  ∃ p, (ipcSetDataReference 4096 (replicate 64 255) [8; 40] ;; for_each run_op [R_string8; R_binder; R_cstring; R_bytes 1000; R_fd]) (initState, idle) = Ok (tt, (p, idle)) ∧
    mData p = Block (replicate 64 255) ∧ mDataPos p <= mDataSize p.
Proof.
  apply (reads_stay_inside 4096 (replicate 64 255) [8; 40] [R_string8; R_binder; R_cstring; R_bytes 1000; R_fd] idle); [done|done| |].
  - repeat apply Forall_cons_2; try apply Forall_nil_2; vm_compute; split; discriminate.
  - repeat apply Forall_cons_2; try apply Forall_nil_2; cbn; try done; lia.
Defined.

(** A parcel with one object, and a hint beyond it. *)
Definition one : flat_binder_object := flat_strong (B_local 1000).
Definition one_object : parcel := mk_parcel 0 (Block (encode_flat one)) 16 16 0 (Block [0]) 1 1 0 true false true None.

Lemma one_cursor : cursor one_object [] (encode_flat one) [] [0].
Proof.
  constructor; [|done|done|vm_compute; done]. constructor; cbn [mData mDataSize mDataPos mObjects mObjectsSize mDataCapacity mObjectsCapacity mOwner one_object]; try done; try lia.
  - left. exists []. by rewrite !app_nil_r.
  - left. by exists [].
  - apply Forall_cons_2; [vm_compute; split; discriminate|apply Forall_nil_2].
  - repeat constructor.
Qed.


(** Messages on which the readers leave the parcel, on 32 bits: a UTF-16
    string that claims 2147483646 characters, whose padded size wraps around to
    0; an exception header with a negative size, which moves the position in
    front of the data; and a second C string in a message that does not end at a
    word, where the bytes left wrap around. *)
Theorem hostile_messages :
  outcome (ipcSetDataReference 4096 (int32 2147483646 ++ [1; 2; 3; 4]) [] ;; readString16) = inr Bad_access ∧
  outcome (ipcSetDataReference 4096 (int32 EX_HAS_REPLY_HEADER ++ int32 (-8)) [] ;; readExceptionCode ;; readInt32) = inr Bad_access ∧
  outcome (ipcSetDataReference 4096 [97; 98; 99; 100; 0] [] ;; readCString ;; readCString) = inr Bad_access.
Proof. split_and!; vm_compute; reflexivity. Qed.

(** Writers that leave their block, or lose what they are given: an object
    written after shrinking, when [mObjectsCapacity] is not what is left; the
    objects released by [setData] through the pointer that [realloc] gave up; an
    integer written behind a position beyond the end, since [growData] grows the
    size and not the position; and bytes for which there is no room on 32 bits,
    where [write] answers 0. *)
Theorem misused_parcels :
  outcome (writeStrongBinder (B_local 1000) ;; writeStrongBinder (B_local 2000) ;; setDataSize 16 ;; writeStrongBinder (B_local 3000)) = inr Bad_access ∧
  outcome (writeStrongBinder (B_local 1000) ;; setData [1; 2; 3; 4]) = inr Bad_access ∧
  outcome (writeInt32 5 ;; setDataPosition 64 ;; writeInt32 6) = inr Bad_access ∧
  outcome (setDataPosition 4294967288 ;; r ← write (replicate 10 1); p ← this; mret (r, mDataSize p)) = inl (0, 0).
Proof. split_and!; vm_compute; reflexivity. Qed.
End Demo.
