(* ===== verification/RefBase.v ===== *)
(** Reference counting of [src/lib/utils/RefBase.cpp].  Threads count the
    references on an object with atomic operations; each of those, each read of
    the counters and each call of a virtual method is a step here, so that the
    steps of threads can interleave in any way. *)
From S2P Require Import Prelude.

Module Refs.

(** ** The object and its [weakref_impl] *)

Definition INITIAL_STRONG_VALUE : Z := 2 ^ 28.
Definition OBJECT_LIFETIME_STRONG : Z := 0.
Definition OBJECT_LIFETIME_WEAK : Z := 1.
Definition OBJECT_LIFETIME_MASK : Z := 1.
Definition FIRST_INC_STRONG : Z := 1.

(** Calls of virtual methods, and what was freed. *)
Inductive event : Type := called_onFirstRef | called_onLastStrongRef | called_onIncStrongAttempted | called_onLastWeakRef
| base_deleted | refs_deleted.
#[export] Instance event_eq_dec : EqDecision event.
Proof. solve_decision. Defined.

(** [mStrong], [mWeak] and [mFlags]; whether the [weakref_impl] and the object
    are allocated; what happened, the latest first. *)
Record object : Type := mk_object {
  mStrong : Z;
  mWeak : Z;
  mFlags : Z;
  refs_alive : bool;
  base_alive : bool;
  events : list event
}.
#[export] Instance eta_object : Eta object :=
  λ r, mk_object (mStrong r) (mWeak r) (mFlags r) (refs_alive r) (base_alive r) (events r).
#[export] Instance field_mStrong : Field mStrong := ltac:(derive_field).
#[export] Instance field_mWeak : Field mWeak := ltac:(derive_field).
#[export] Instance field_mFlags : Field mFlags := ltac:(derive_field).
#[export] Instance field_refs_alive : Field refs_alive := ltac:(derive_field).
#[export] Instance field_base_alive : Field base_alive := ltac:(derive_field).
#[export] Instance field_events : Field events := ltac:(derive_field).

(** [RefBase::RefBase], with [extendObjectLifetime] of the constructor of a
    derived class. *)
Definition new_object (flags : Z) : object := mk_object INITIAL_STRONG_VALUE 0 flags true true [].

Notation R := (ST object).

(** A member of the [weakref_impl], or of the object: using it after it was
    freed is a fault. *)
Definition refs_member {A} (f : object → A) : R A := o ← gets id; if refs_alive o then mret (f o) else fail Null_deref.
Definition touch_base : R unit := o ← gets id; if base_alive o then mret tt else fail Null_deref.

(** [ALOG_ASSERT], which only debugging builds check. *)
Definition alog_assert (b : bool) : R unit := bug_on (negb b).

(** [int32_t] counters wrap around. *)
Definition s32 (x : Z) : Z := (x + 2 ^ 31) `mod` 2 ^ 32 - 2 ^ 31.

(** [android_atomic_add] and [android_atomic_cmpxchg]: the value before, and
    whether it was exchanged. *)
Definition atomic_add (f : object → Z) `{!Field f} (d : Z) : R Z :=
  c ← refs_member f; modify (update f (λ x, s32 (x + d))) ;; mret c.
Definition cmpxchg (f : object → Z) `{!Field f} (old new : Z) : R bool :=
  c ← refs_member f; if c =? old then modify (update f (λ _, new)) ;; mret true else mret false.

Definition log_event (e : event) : R unit := modify (λ o, o <| events %= cons e |>).

(** A virtual method of the object. *)
Definition virtual (e : event) : R unit := touch_base ;; log_event e.

Definition delete_refs : R unit :=
  refs_member (λ _, tt) ;; modify (λ o, o <| refs_alive := false |>) ;; log_event refs_deleted.

(** [delete] of the object, with [RefBase::~RefBase]: one step, since a thread
    that deletes the object is the last one that uses it. *)
Definition delete_base : R unit :=
  touch_base ;;
  strong ← refs_member mStrong;
  (if strong =? INITIAL_STRONG_VALUE then delete_refs
   else
     flags ← refs_member mFlags;
     when (negb (Z.land flags OBJECT_LIFETIME_MASK =? OBJECT_LIFETIME_STRONG))
       (weak ← refs_member mWeak; when (weak =? 0) delete_refs)) ;;
  modify (λ o, o <| base_alive := false |>) ;; log_event base_deleted.

(** ** Where a thread is in a call *)

Inductive pc : Type :=
(* the call has returned *)
| returned (result : bool)
(* [incStrong] *)
| incStrong_weak | incStrong_inc | incStrong_fix | incStrong_first
(* [decStrong] *)
| decStrong_dec | decStrong_last | decStrong_flags | decStrong_delete
(* [forceIncStrong] *)
| forceIncStrong_weak | forceIncStrong_inc | forceIncStrong_fix | forceIncStrong_first
(* [createWeak], [incWeak] *)
| createWeak_refs | incWeak_inc
(* [decWeak]; its caller returns [result] *)
| decWeak_dec (result : bool) | decWeak_flags (result : bool) | decWeak_strong (result : bool)
| decWeak_delete_base (result : bool) | decWeak_delete_refs (result : bool)
| decWeak_last (result : bool) | decWeak_mask (result : bool)
(* [attemptIncStrong]; [curCount] is its local variable *)
| attempt_weak | attempt_load | attempt_cas (curCount : Z) | attempt_again | attempt_hard (curCount : Z)
| attempt_first (curCount : Z) | attempt_reload | attempt_ask | attempt_inc | attempt_unneeded
| attempt_fix_load | attempt_fix (curCount : Z)
(* [attemptIncWeak] *)
| attemptWeak_load | attemptWeak_cas (curCount : Z) | attemptWeak_again.

Section steps.
(** The answer of [onIncStrongAttempted] of the class, given what happened. *)
Context (agrees : list event → bool).

Definition incWeak (next : pc) : R pc :=
  c ← atomic_add mWeak 1; alog_assert (0 <=? c) ;; mret next.

Definition incStrong_step (l : pc) : R pc :=
  match l with
  | incStrong_weak => touch_base ;; incWeak incStrong_inc
  | incStrong_inc =>
      c ← atomic_add mStrong 1; alog_assert (0 <? c) ;;
      mret (if negb (c =? INITIAL_STRONG_VALUE) then returned true else incStrong_fix)
  | incStrong_fix => atomic_add mStrong (- INITIAL_STRONG_VALUE) ;; mret incStrong_first
  | _ => refs_member (λ _, tt) ;; virtual called_onFirstRef ;; mret (returned true)
  end.

Definition decStrong_step (l : pc) : R pc :=
  match l with
  | decStrong_dec =>
      touch_base ;;
      c ← atomic_add mStrong (-1); alog_assert (1 <=? c) ;;
      mret (if c =? 1 then decStrong_last else decWeak_dec true)
  | decStrong_last => refs_member (λ _, tt) ;; virtual called_onLastStrongRef ;; mret decStrong_flags
  | decStrong_flags =>
      flags ← refs_member mFlags;
      mret (if Z.land flags OBJECT_LIFETIME_MASK =? OBJECT_LIFETIME_STRONG then decStrong_delete else decWeak_dec true)
  | _ => delete_base ;; mret (decWeak_dec true)
  end.

Definition forceIncStrong_step (l : pc) : R pc :=
  match l with
  | forceIncStrong_weak => touch_base ;; incWeak forceIncStrong_inc
  | forceIncStrong_inc =>
      c ← atomic_add mStrong 1; alog_assert (0 <=? c) ;;
      mret (if c =? INITIAL_STRONG_VALUE then forceIncStrong_fix
            else if c =? 0 then forceIncStrong_first else returned true)
  | forceIncStrong_fix => atomic_add mStrong (- INITIAL_STRONG_VALUE) ;; mret forceIncStrong_first
  | _ => refs_member (λ _, tt) ;; virtual called_onFirstRef ;; mret (returned true)
  end.

Definition decWeak_step (l : pc) : R pc :=
  match l with
  | decWeak_dec r =>
      c ← atomic_add mWeak (-1); alog_assert (1 <=? c) ;;
      mret (if negb (c =? 1) then returned r else decWeak_flags r)
  | decWeak_flags r =>
      flags ← refs_member mFlags;
      mret (if Z.land flags OBJECT_LIFETIME_WEAK =? OBJECT_LIFETIME_STRONG then decWeak_strong r else decWeak_last r)
  | decWeak_strong r =>
      strong ← refs_member mStrong;
      mret (if strong =? INITIAL_STRONG_VALUE then decWeak_delete_base r else decWeak_delete_refs r)
  | decWeak_delete_base r => refs_member (λ _, tt) ;; delete_base ;; mret (returned r)
  | decWeak_delete_refs r => delete_refs ;; mret (returned r)
  | decWeak_last r => refs_member (λ _, tt) ;; virtual called_onLastWeakRef ;; mret (decWeak_mask r)
  | decWeak_mask r =>
      flags ← refs_member mFlags;
      mret (if Z.land flags OBJECT_LIFETIME_MASK =? OBJECT_LIFETIME_WEAK then decWeak_delete_base r else returned r)
  | l => mret l
  end.

(** The conditions of the first loop of [attemptIncStrong], and what follows an
    increment of [curCount]. *)
Definition attempt_loop (curCount : Z) : pc :=
  if (0 <? curCount) && negb (curCount =? INITIAL_STRONG_VALUE) then attempt_cas curCount else attempt_hard curCount.
Definition attempt_after (curCount : Z) : pc :=
  if (0 <? curCount) && (curCount <? INITIAL_STRONG_VALUE) then attempt_unneeded else attempt_fix_load.

Definition attemptIncStrong_step (l : pc) : R pc :=
  match l with
  | attempt_weak => incWeak attempt_load
  | attempt_load => curCount ← refs_member mStrong; alog_assert (0 <=? curCount) ;; mret (attempt_loop curCount)
  | attempt_cas curCount =>
      ok ← cmpxchg mStrong curCount (curCount + 1);
      mret (if ok : bool then attempt_fix_load else attempt_again)
  | attempt_again => curCount ← refs_member mStrong; mret (attempt_loop curCount)
  | attempt_hard curCount =>
      flags ← refs_member mFlags;
      mret (if Z.land flags OBJECT_LIFETIME_WEAK =? OBJECT_LIFETIME_STRONG then
              if curCount <=? 0 then decWeak_dec false else attempt_first curCount
            else attempt_ask)
  | attempt_first curCount =>
      ok ← cmpxchg mStrong curCount (curCount + 1);
      mret (if ok : bool then attempt_after curCount else attempt_reload)
  | attempt_reload =>
      curCount ← refs_member mStrong;
      mret (if curCount <=? 0 then decWeak_dec false else attempt_first curCount)
  | attempt_ask =>
      refs_member (λ _, tt) ;; o ← gets id; virtual called_onIncStrongAttempted ;;
      mret (if agrees (events o) then attempt_inc else decWeak_dec false)
  | attempt_inc => curCount ← atomic_add mStrong 1; mret (attempt_after curCount)
  | attempt_unneeded => refs_member (λ _, tt) ;; virtual called_onLastStrongRef ;; mret attempt_fix_load
  | attempt_fix_load =>
      curCount ← refs_member mStrong;
      if INITIAL_STRONG_VALUE <=? curCount then
        alog_assert (INITIAL_STRONG_VALUE <? curCount) ;; mret (attempt_fix curCount)
      else mret (returned true)
  | attempt_fix curCount =>
      ok ← cmpxchg mStrong curCount (curCount - INITIAL_STRONG_VALUE);
      mret (if ok : bool then returned true else attempt_fix_load)
  | l => mret l
  end.

Definition attemptIncWeak_step (l : pc) : R pc :=
  match l with
  | attemptWeak_load =>
      curCount ← refs_member mWeak; alog_assert (0 <=? curCount) ;;
      mret (if 0 <? curCount then attemptWeak_cas curCount else returned false)
  | attemptWeak_cas curCount =>
      ok ← cmpxchg mWeak curCount (curCount + 1);
      mret (if ok : bool then returned true else attemptWeak_again)
  | attemptWeak_again =>
      curCount ← refs_member mWeak; mret (if 0 <? curCount then attemptWeak_cas curCount else returned false)
  | l => mret l
  end.

Definition step (l : pc) : R pc :=
  match l with
  | returned _ => mret l
  | incStrong_weak | incStrong_inc | incStrong_fix | incStrong_first => incStrong_step l
  | decStrong_dec | decStrong_last | decStrong_flags | decStrong_delete => decStrong_step l
  | forceIncStrong_weak | forceIncStrong_inc | forceIncStrong_fix | forceIncStrong_first => forceIncStrong_step l
  | createWeak_refs => touch_base ;; incWeak (returned true)
  | incWeak_inc => incWeak (returned true)
  | decWeak_dec _ | decWeak_flags _ | decWeak_strong _ | decWeak_delete_base _ | decWeak_delete_refs _
  | decWeak_last _ | decWeak_mask _ => decWeak_step l
  | attempt_weak | attempt_load | attempt_cas _ | attempt_again | attempt_hard _ | attempt_first _ | attempt_reload | attempt_ask
  | attempt_inc | attempt_unneeded | attempt_fix_load | attempt_fix _ => attemptIncStrong_step l
  | attemptWeak_load | attemptWeak_cas _ | attemptWeak_again => attemptIncWeak_step l
  end.

(** ** Calls *)

Inductive op : Type := incStrong | decStrong | forceIncStrong | createWeak | incWeakRef | decWeak | attemptIncStrong | attemptIncWeak.
#[export] Instance op_eq_dec : EqDecision op.
Proof. solve_decision. Defined.

Definition start (c : op) : pc :=
  match c with
  | incStrong => incStrong_weak
  | decStrong => decStrong_dec
  | forceIncStrong => forceIncStrong_weak
  | createWeak => createWeak_refs
  | incWeakRef => incWeak_inc
  | decWeak => decWeak_dec true
  | attemptIncStrong => attempt_weak
  | attemptIncWeak => attemptWeak_load
  end.

(** A call that no other thread disturbs; a call makes at most 9 steps then. *)
Fixpoint alone (fuel : nat) (l : pc) : R bool :=
  match l with
  | returned r => mret r
  | _ => match fuel with O => fail Fuel | S fuel' => l' ← step l; alone fuel' l' end
  end.
Definition call (c : op) : R bool := alone 9 (start c).
End steps.
End Refs.
