(* ===== verification/RefBaseSpec.v ===== *)
(** Threads that share an object of [RefBase]: whatever the interleaving of their
    steps, nobody uses it after it was freed, and it is freed when the last
    reference is given up. *)
From S2P Require Import Prelude RefBase.

Module RefsSpec.
Import Refs.

(** ** Threads *)

(** A thread: the call it is in, with its place, and the references it owns. *)
Record thread : Type := mk_thread { th_call : option (op * pc); th_strong : Z; th_weak : Z }.
Record system : Type := mk_system { sys_object : object; sys_threads : list thread }.

(** The references a call brings: strong, weak. *)
Definition gain (c : op) (r : bool) : Z * Z :=
  match c with
  | incStrong | forceIncStrong => (1, 0)
  | createWeak | incWeakRef => (0, 1)
  | attemptIncStrong => if r then (1, 0) else (0, 0)
  | attemptIncWeak => if r then (0, 1) else (0, 0)
  | decStrong | decWeak => (0, 0)
  end.
(** Those it takes. *)
Definition cost (c : op) : Z * Z :=
  match c with decStrong => (1, 0) | decWeak => (0, 1) | _ => (0, 0) end.

(** The references counted for a call under way, besides those its thread owns. *)
Definition counted (c : op) (l : pc) : Z * Z :=
  match l with
  | returned r => gain c r
  | incStrong_inc | forceIncStrong_inc => (0, 1)
  | incStrong_fix | incStrong_first | forceIncStrong_fix | forceIncStrong_first => (1, 0)
  | decStrong_dec => (1, 0)
  | decStrong_last | decStrong_flags | decStrong_delete => (0, 1)
  | decWeak_dec _ => (0, 1)
  | attempt_load | attempt_cas _ | attempt_again | attempt_hard _ | attempt_first _ | attempt_reload | attempt_ask
  | attempt_inc => (0, 1)
  | attempt_unneeded | attempt_fix_load | attempt_fix _ => (1, 0)
  | _ => (0, 0)
  end.

(** Whether a call may still count one more reference. *)
Definition pending (l : pc) : Z :=
  match l with
  | incStrong_weak | forceIncStrong_weak | createWeak_refs | incWeak_inc | attempt_weak
  | attemptWeak_load | attemptWeak_cas _ | attemptWeak_again => 1
  | _ => 0
  end.
(** Whether it saw the last strong reference go, or the last of all. *)
Definition last_strong (l : pc) : Z :=
  match l with decStrong_last | decStrong_flags | decStrong_delete => 1 | _ => 0 end.
Definition last_weak (l : pc) : Z :=
  match l with
  | decWeak_flags _ | decWeak_strong _ | decWeak_delete_base _ | decWeak_delete_refs _ | decWeak_last _ | decWeak_mask _ => 1
  | _ => 0
  end.

Definition of_call (f : op → pc → Z) (t : thread) : Z := match th_call t with Some (c, l) => f c l | None => 0 end.

Fixpoint total (f : thread → Z) (ts : list thread) : Z := match ts with [] => 0 | t :: ts' => f t + total f ts' end.

(** The references there are, owned or counted for a call. *)
Definition strong_share (t : thread) : Z := th_strong t + of_call (λ c l, (counted c l).1) t.
Definition weak_share (t : thread) : Z := th_weak t + of_call (λ c l, (counted c l).2) t.
Definition strong_refs : list thread → Z := total strong_share.
Definition weak_refs : list thread → Z := total weak_share.

(** What a thread must own to make a call.  Only an object of extended life can
    be forced to a strong reference from a weak one. *)
Definition may (flags : Z) (c : op) (t : thread) : Prop :=
  match c with
  | incStrong | decStrong | createWeak => 0 < th_strong t
  | decWeak => 0 < th_weak t
  | incWeakRef | attemptIncStrong | attemptIncWeak => 0 < th_strong t + th_weak t
  | forceIncStrong => 0 < th_strong t ∨ flags = OBJECT_LIFETIME_WEAK ∧ 0 < th_weak t
  end.

Definition own (t : thread) (d : Z * Z) (call : option (op * pc)) : thread :=
  mk_thread call (th_strong t + d.1) (th_weak t + d.2).

(** Steps: a thread makes a call, goes on with it, or returns from it; an idle
    thread hands a reference over to another thread.  There is room for
    references as long as there are fewer than 2^28, counting one for each
    thread. *)
Inductive sys_step (agrees : list event → bool) : system → system → Prop :=
| step_call o ts i t c :
    ts !! i = Some t → th_call t = None → may (mFlags o) c t →
    strong_refs ts + weak_refs ts + Z.of_nat (length ts) < INITIAL_STRONG_VALUE →
    sys_step agrees (mk_system o ts)
      (mk_system o (<[i := own t (- (cost c).1, - (cost c).2) (Some (c, start c))]> ts))
| step_on o ts i t c l l' o' :
    ts !! i = Some t → th_call t = Some (c, l) → step agrees l o = Ok (l', o') →
    sys_step agrees (mk_system o ts) (mk_system o' (<[i := own t (0, 0) (Some (c, l'))]> ts))
| step_return o ts i t c r :
    ts !! i = Some t → th_call t = Some (c, returned r) →
    sys_step agrees (mk_system o ts) (mk_system o (<[i := own t (gain c r) None]> ts))
| step_give o ts i j t u s w :
    ts !! i = Some t → th_call t = None → ts !! j = Some u → i ≠ j →
    0 <= s <= th_strong t → 0 <= w <= th_weak t →
    sys_step agrees (mk_system o ts)
      (mk_system o (<[j := own u (s, w) (th_call u)]> (<[i := own t (- s, - w) None]> ts))).

Inductive sys_run (agrees : list event → bool) : system → system → Prop :=
| run_refl c : sys_run agrees c c
| run_step c1 c2 c3 : sys_run agrees c1 c2 → sys_step agrees c2 c3 → sys_run agrees c1 c3.

(** An object and its first strong reference, as [sp<T>(new T)] makes it, owned
    by the first of [n + 1] threads. *)
Definition shared (agrees : list event → bool) (flags : Z) (n : nat) : system :=
  mk_system (state_after (call agrees incStrong) (new_object flags))
    (mk_thread None 1 0 :: replicate n (mk_thread None 0 0)).

(** How often the object and its [weakref_impl] were freed. *)
Fixpoint base_deletions (es : list event) : Z :=
  match es with [] => 0 | e :: es' => match e with base_deleted => 1 | _ => 0 end + base_deletions es' end.
Fixpoint refs_deletions (es : list event) : Z :=
  match es with [] => 0 | e :: es' => match e with refs_deleted => 1 | _ => 0 end + refs_deletions es' end.

(** ** The invariant *)

(** Of the object and what its threads count: [s] strong and [w] weak
    references, [p] that may come, [ls] and [lw] threads that saw the last
    strong one, the last of all go. *)
Record object_inv (flags : Z) (o : object) (s w p ls lw : Z) : Prop := {
  ri_flags : mFlags o = flags;
  ri_strong : mStrong o = s;
  ri_weak : mWeak o = s + w;
  ri_room : s + w + p < INITIAL_STRONG_VALUE;
  ri_refs : b2z (refs_alive o) = Z.min 1 (s + w + lw);
  ri_base : b2z (base_alive o) = if flags =? OBJECT_LIFETIME_STRONG then Z.min 1 (s + ls) else Z.min 1 (s + w + lw);
  ri_last_strong : flags = OBJECT_LIFETIME_STRONG → ls <= 1 ∧ (s = 0 ∨ ls = 0);
  ri_last_weak : lw <= 1 ∧ (s + w = 0 ∨ lw = 0);
  ri_base_once : base_deletions (events o) = 1 - b2z (base_alive o);
  ri_refs_once : refs_deletions (events o) = 1 - b2z (refs_alive o)
}.

(** Of a thread in call [c] at [l]. *)
Definition call_inv (flags : Z) (t : thread) (c : op) (l : pc) : Prop :=
  match l with
  | returned _ => True
  | incStrong_weak | incStrong_inc => c = incStrong ∧ 0 < th_strong t
  | decStrong_dec | decStrong_last | decStrong_flags => c = decStrong
  | decStrong_delete => c = decStrong ∧ flags = OBJECT_LIFETIME_STRONG
  | forceIncStrong_weak | forceIncStrong_inc => c = forceIncStrong ∧ may flags forceIncStrong t
  | forceIncStrong_first => c = forceIncStrong ∧ flags = OBJECT_LIFETIME_WEAK
  | createWeak_refs => c = createWeak ∧ 0 < th_strong t
  | incWeak_inc => c = incWeakRef ∧ 0 < th_strong t + th_weak t
  | decWeak_dec r | decWeak_flags r => c = decStrong ∨ c = decWeak ∨ c = attemptIncStrong ∧ r = false
  | decWeak_strong r | decWeak_delete_refs r =>
      (c = decStrong ∨ c = decWeak ∨ c = attemptIncStrong ∧ r = false) ∧ flags = OBJECT_LIFETIME_STRONG
  | decWeak_last r | decWeak_mask r | decWeak_delete_base r =>
      (c = decStrong ∨ c = decWeak ∨ c = attemptIncStrong ∧ r = false) ∧ flags = OBJECT_LIFETIME_WEAK
  | attempt_weak => c = attemptIncStrong ∧ 0 < th_strong t + th_weak t
  | attempt_load | attempt_again | attempt_fix_load => c = attemptIncStrong
  | attempt_cas n => c = attemptIncStrong ∧ 0 < n < INITIAL_STRONG_VALUE
  | attempt_hard n => c = attemptIncStrong ∧ n <= 0
  | attempt_ask | attempt_inc | attempt_unneeded => c = attemptIncStrong ∧ flags = OBJECT_LIFETIME_WEAK
  | attemptWeak_load | attemptWeak_again => c = attemptIncWeak ∧ 0 < th_strong t + th_weak t
  | attemptWeak_cas n => c = attemptIncWeak ∧ 0 < th_strong t + th_weak t ∧ 0 < n < INITIAL_STRONG_VALUE
  | incStrong_fix | incStrong_first | forceIncStrong_fix | attempt_first _ | attempt_reload | attempt_fix _ => False
  end.

Definition thread_inv (flags : Z) (t : thread) : Prop :=
  0 <= th_strong t ∧ 0 <= th_weak t ∧ match th_call t with Some (c, l) => call_inv flags t c l | None => True end.

Definition sys_inv (flags : Z) (c : system) : Prop :=
  let ts := sys_threads c in
  object_inv flags (sys_object c) (strong_refs ts) (weak_refs ts) (total (of_call (λ _, pending)) ts)
    (total (of_call (λ _, last_strong)) ts) (total (of_call (λ _, last_weak)) ts) ∧
  Forall (thread_inv flags) ts.

(** ** One step of one thread *)

Lemma s32_id x : - 2 ^ 31 <= x < 2 ^ 31 → s32 x = x.
Proof. intros H. unfold s32. rewrite Z.mod_small by lia. lia. Qed.

Section step.
Context (agrees : list event → bool) (flags : Z).
Hypothesis flags_ok : flags = OBJECT_LIFETIME_STRONG ∨ flags = OBJECT_LIFETIME_WEAK.

(** Computes a step of an object that is known to be allocated. *)
Ltac compute_step :=
  unfold step, incStrong_step, decStrong_step, forceIncStrong_step, decWeak_step, attemptIncStrong_step, attemptIncWeak_step,
    incWeak, atomic_add, cmpxchg, refs_member, touch_base, virtual, log_event, delete_base, delete_refs, alog_assert, bug_on,
    when, gets, modify, fail, mret, st_ret, mbind, st_bind, attempt_loop, attempt_after, update, INITIAL_STRONG_VALUE;
  cbv [field_mStrong field_mWeak field_refs_alive field_base_alive field_events].
(** Splits on the comparisons of the code that are open. *)
Ltac split_tests :=
  repeat (match goal with
    | |- context [?a <=? ?b] => destruct (Z.leb_spec a b); try (exfalso; lia)
    | |- context [?a <? ?b] => destruct (Z.ltb_spec a b); try (exfalso; lia)
    | |- context [?a =? ?b] => destruct (Z.eqb_spec a b); try (exfalso; lia)
    | |- context [if agrees ?e then _ else _] => destruct (agrees e)
    end; simpl).
Ltac split_hyps :=
  repeat match goal with
    | H : _ ∧ _ |- _ => destruct H
    | H : _ = decStrong ∨ _ |- _ => destruct H
    | H : _ = decWeak ∨ _ |- _ => destruct H
    | H : 0 = 0 → _ |- _ => specialize (H eq_refl)
    | H : ?c = _ |- _ => is_var c; subst c
    end.
Ltac close_step :=
  eexists _, _; split; [reflexivity|]; split;
  [simpl; unfold OBJECT_LIFETIME_STRONG, OBJECT_LIFETIME_WEAK, INITIAL_STRONG_VALUE; (lia || tauto || intuition lia)
  |constructor; simpl; unfold b2z, OBJECT_LIFETIME_STRONG, INITIAL_STRONG_VALUE; rewrite ?s32_id by lia; simpl; intros; lia].

(** [s], [w], ...: what the other threads count. *)
Lemma call_step o t c l s w p ls lw :
  0 <= s → 0 <= w → 0 <= p → 0 <= ls → 0 <= lw → 0 <= th_strong t → 0 <= th_weak t →
  call_inv flags t c l →
  object_inv flags o (th_strong t + (counted c l).1 + s) (th_weak t + (counted c l).2 + w) (pending l + p)
    (last_strong l + ls) (last_weak l + lw) →
  ∃ l' o', step agrees l o = Ok (l', o') ∧ call_inv flags t c l' ∧
    object_inv flags o' (th_strong t + (counted c l').1 + s) (th_weak t + (counted c l').2 + w) (pending l' + p)
      (last_strong l' + ls) (last_weak l' + lw).
Proof.
  intros Hs Hw Hp Hls Hlw Hts Htw Hc [E1 E2 E3 E4 E5 E6 E7 E8 E9 E10].
  destruct o as [st wk fl ra ba ev]. simpl in E1, E2, E3, E5, E6, E9, E10. subst fl st wk. unfold INITIAL_STRONG_VALUE in *.
  destruct l; simpl in Hc; try (exfalso; exact Hc);
    [exists (returned result); eexists; split; [reflexivity|]; split; [done|]; by constructor|..];
    (destruct ra; [|exfalso; destruct flags_ok; subst flags; simpl in *; lia]);
    compute_step; (destruct flags_ok; subst flags);
    unfold b2z, OBJECT_LIFETIME_STRONG, OBJECT_LIFETIME_WEAK, OBJECT_LIFETIME_MASK in *; simpl in *; split_hyps; try discriminate;
    (destruct ba; try (exfalso; lia)); simpl; split_tests; close_step.
Qed.
End step.

(** ** Totals *)

Lemma total_insert f ts i t u : ts !! i = Some t → total f (<[i := u]> ts) = total f ts - f t + f u.
Proof.
  revert i. induction ts as [|v ts IH]; intros i Hi; [done|]. destruct i as [|i]; simpl in *; [injection Hi as ->; lia|].
  rewrite (IH i Hi). lia.
Qed.

Lemma total_rest f ts i t : (∀ u, u ∈ ts → 0 <= f u) → ts !! i = Some t → 0 <= total f ts - f t.
Proof.
  revert i. induction ts as [|v ts IH]; intros i Hf Hi; [done|].
  assert (Hnn : ∀ vs, (∀ u, u ∈ vs → 0 <= f u) → 0 <= total f vs).
  { induction vs as [|x vs IHv]; intros Hv; simpl; [lia|]. pose proof (Hv x (list_elem_of_here _ _)).
    assert (0 <= total f vs); [apply IHv; intros u Hu; apply Hv; by right|lia]. }
  destruct i as [|i]; simpl in *.
  - injection Hi as ->. assert (0 <= total f ts); [apply Hnn; intros u Hu; apply Hf; by right|lia].
  - pose proof (Hf v (list_elem_of_here _ _)). assert (0 <= total f ts - f t); [|lia].
    apply (IH i); [|done]. intros u Hu. apply Hf. by right.
Qed.

Lemma total_bound f ts : (∀ u, u ∈ ts → f u <= 1) → total f ts <= Z.of_nat (length ts).
Proof.
  induction ts as [|v ts IH]; intros Hf; simpl; [lia|]. pose proof (Hf v (list_elem_of_here _ _)).
  assert (total f ts <= Z.of_nat (length ts)); [|lia]. apply IH. intros u Hu. apply Hf. by right.
Qed.

Lemma total_zero f ts : Forall (λ t, f t = 0) ts → total f ts = 0.
Proof. induction 1 as [|t ts Ht _ IH]; simpl; lia. Qed.

Lemma counted_nonneg c l : 0 <= (counted c l).1 ∧ 0 <= (counted c l).2.
Proof. destruct l; simpl; try lia. destruct c, result; simpl; lia. Qed.

(** The five totals, and what the other threads than one count. *)
Lemma totals_rest flags ts i t :
  Forall (thread_inv flags) ts → ts !! i = Some t →
  0 <= strong_refs ts - strong_share t ∧ 0 <= weak_refs ts - weak_share t ∧
  0 <= total (of_call (λ _, pending)) ts - of_call (λ _, pending) t ∧
  0 <= total (of_call (λ _, last_strong)) ts - of_call (λ _, last_strong) t ∧
  0 <= total (of_call (λ _, last_weak)) ts - of_call (λ _, last_weak) t.
Proof.
  intros Hts Hi. assert (H : ∀ u, u ∈ ts → 0 <= th_strong u ∧ 0 <= th_weak u).
  { intros u Hu. apply list_elem_of_lookup in Hu as [j Hj]. destruct (Forall_lookup_1 _ _ _ _ Hts Hj) as (A & B & _). done. }
  assert (Hc : ∀ u, 0 <= of_call (λ c l, (counted c l).1) u ∧ 0 <= of_call (λ c l, (counted c l).2) u).
  { intros u. unfold of_call. destruct (th_call u) as [[c l]|]; [apply counted_nonneg|lia]. }
  split_and!; (apply (total_rest _ ts i); [|exact Hi]); intros u Hu; destruct (H u Hu), (Hc u);
    unfold strong_share, weak_share; try lia; unfold of_call; destruct (th_call u) as [[c l]|]; try lia; destruct l; simpl; lia.
Qed.

Section system.
Context (agrees : list event → bool) (flags : Z).
Hypothesis flags_ok : flags = OBJECT_LIFETIME_STRONG ∨ flags = OBJECT_LIFETIME_WEAK.

(** A step of one thread, which leaves it with call and references [u]. *)
Lemma sys_inv_update o o' ts i t u :
  sys_inv flags (mk_system o ts) → ts !! i = Some t → thread_inv flags u →
  (object_inv flags o (strong_refs ts) (weak_refs ts) (total (of_call (λ _, pending)) ts)
     (total (of_call (λ _, last_strong)) ts) (total (of_call (λ _, last_weak)) ts) →
   object_inv flags o' (strong_refs ts - strong_share t + strong_share u) (weak_refs ts - weak_share t + weak_share u)
     (total (of_call (λ _, pending)) ts - of_call (λ _, pending) t + of_call (λ _, pending) u)
     (total (of_call (λ _, last_strong)) ts - of_call (λ _, last_strong) t + of_call (λ _, last_strong) u)
     (total (of_call (λ _, last_weak)) ts - of_call (λ _, last_weak) t + of_call (λ _, last_weak) u)) →
  sys_inv flags (mk_system o' (<[i := u]> ts)).
Proof.
  intros [Ho Hts] Hi Hu Hstep. split; simpl; [|by apply Forall_insert].
  unfold strong_refs, weak_refs in *. rewrite !(total_insert _ _ _ _ _ Hi). by apply Hstep.
Qed.

Lemma object_inv_eq o s w p ls lw s' w' p' ls' lw' :
  object_inv flags o s w p ls lw → s' = s → w' = w → p' = p → ls' = ls → lw' = lw → object_inv flags o s' w' p' ls' lw'.
Proof. by intros H -> -> -> -> ->. Qed.

(** A thread in a call can go on. *)
Lemma call_goes_on o ts i t c l :
  sys_inv flags (mk_system o ts) → ts !! i = Some t → th_call t = Some (c, l) →
  ∃ l' o', step agrees l o = Ok (l', o') ∧ sys_inv flags (mk_system o' (<[i := own t (0, 0) (Some (c, l'))]> ts)).
Proof.
  intros Hsys Hi Hc. pose proof Hsys as [Ho Hts]. simpl in Ho, Hts.
  destruct (totals_rest flags ts i t Hts Hi) as (R1 & R2 & R3 & R4 & R5).
  destruct (Forall_lookup_1 _ _ _ _ Hts Hi) as (T1 & T2 & T3). rewrite Hc in T3.
  assert (Et : strong_share t = th_strong t + (counted c l).1 ∧ weak_share t = th_weak t + (counted c l).2 ∧
    of_call (λ _, pending) t = pending l ∧ of_call (λ _, last_strong) t = last_strong l ∧ of_call (λ _, last_weak) t = last_weak l)
    by (unfold strong_share, weak_share, of_call; by rewrite Hc).
  destruct Et as (E1 & E2 & E3 & E4 & E5).
  destruct (call_step agrees flags flags_ok o t c l _ _ _ _ _ R1 R2 R3 R4 R5 T1 T2 T3) as (l' & o' & E & Hc' & Ho');
    [eapply object_inv_eq; [exact Ho|lia..]|].
  exists l', o'. split; [exact E|]. apply (sys_inv_update o o' ts i t); [done..| |].
  - split_and!; simpl; [lia|lia|]. clear - Hc'. destruct l'; simpl in *; rewrite ?Z.add_0_r; exact Hc'.
  - intros _. eapply object_inv_eq; [exact Ho'|unfold strong_share, weak_share, of_call; simpl; lia..].
Qed.

Lemma begin_inv t c :
  thread_inv flags t → th_call t = None → may flags c t →
  let u := own t (- (cost c).1, - (cost c).2) (Some (c, start c)) in
  thread_inv flags u ∧ strong_share u = strong_share t ∧ weak_share u = weak_share t ∧ of_call (λ _, pending) u <= 1 ∧
  of_call (λ _, last_strong) u = 0 ∧ of_call (λ _, last_weak) u = 0.
Proof.
  intros (T1 & T2 & _) Hc Hm. unfold strong_share, weak_share, of_call, thread_inv. rewrite Hc. simpl.
  destruct c; simpl in *; split_and!; try lia; try done; try (by left); try (split; [done|lia]); try tauto.
Qed.

Lemma idle_shares t : th_call t = None →
  strong_share t = th_strong t ∧ weak_share t = th_weak t ∧ of_call (λ _, pending) t = 0 ∧
  of_call (λ _, last_strong) t = 0 ∧ of_call (λ _, last_weak) t = 0.
Proof. intros Hc. unfold strong_share, weak_share, of_call. rewrite Hc. lia. Qed.

Lemma sys_step_inv c c' : sys_inv flags c → sys_step agrees c c' → sys_inv flags c'.
Proof.
  intros Hsys Hstep. destruct Hstep as [o ts i t c Hi Hc Hm Hroom|o ts i t c l l' o' Hi Hc E|o ts i t c r Hi Hc|o ts i j t u s w Hi Hc Hj Hij Hs Hw].
  - pose proof Hsys as [Ho Hts]. simpl in Ho, Hts. rewrite (ri_flags _ _ _ _ _ _ _ Ho) in Hm.
    pose proof (Forall_lookup_1 _ _ _ _ Hts Hi) as Ht.
    destruct (begin_inv t c Ht Hc Hm) as (Hu & Es & Ew & Ep & El & Elw). set (u := own t _ _) in *.
    destruct (idle_shares t Hc) as (_ & _ & Ep0 & El0 & Elw0).
    apply (sys_inv_update o o ts i t); [done..|]. intros [F1 F2 F3 F4 F5 F6 F7 F8 F9 F10].
    pose proof (total_bound (of_call (λ _, pending)) (<[i := u]> ts)) as Hb. rewrite (total_insert _ _ _ _ _ Hi), length_insert in Hb.
    assert (Hb' := Hb ltac:(intros v _; unfold of_call; destruct (th_call v) as [[d l]|]; [destruct l; simpl; lia|lia])).
    constructor; rewrite ?Es, ?Ew, ?El, ?Elw, ?El0, ?Elw0; try done; try lia.
    rewrite F6. destruct (_ =? _); lia.
  - destruct (call_goes_on o ts i t c l Hsys Hi Hc) as (l2 & o2 & E2 & H2). rewrite E in E2. by injection E2 as <- <-.
  - pose proof Hsys as [Ho Hts]. simpl in Ho, Hts. destruct (Forall_lookup_1 _ _ _ _ Hts Hi) as (T1 & T2 & _).
    apply (sys_inv_update o o ts i t); [done..| |].
    + split_and!; simpl; try done; destruct c, r; simpl; lia.
    + intros H. eapply object_inv_eq; [exact H|unfold strong_share, weak_share, of_call; rewrite Hc; simpl; destruct c, r; simpl; lia..].
  - destruct Hsys as [Ho Hts]. simpl in Ho, Hts. split; simpl.
    + assert (Hj' : <[i := own t (- s, - w) None]> ts !! j = Some u) by by rewrite list_lookup_insert_ne.
      unfold strong_refs, weak_refs in *. rewrite !(total_insert _ _ _ _ _ Hj'), !(total_insert _ _ _ _ _ Hi).
      eapply object_inv_eq; [exact Ho|unfold strong_share, weak_share, of_call; rewrite Hc; simpl; lia..].
    + destruct (Forall_lookup_1 _ _ _ _ Hts Hi) as (T1 & T2 & _). destruct (Forall_lookup_1 _ _ _ _ Hts Hj) as (U1 & U2 & U3).
      apply Forall_insert; [apply Forall_insert; [done|]|]; split_and!; simpl; try done; try lia.
      destruct (th_call u) as [[d l]|]; [|done]. clear - U3 Hs Hw flags_ok. destruct l; simpl in *; try done; try lia; intuition lia.
Qed.

Lemma shared_inv n : sys_inv flags (shared agrees flags n).
Proof.
  assert (E : sys_object (shared agrees flags n) = mk_object 1 1 flags true true [called_onFirstRef]) by (destruct flags_ok as [->| ->]; reflexivity).
  unfold sys_inv. rewrite E. simpl. split.
  - assert (Hz : ∀ f, f (mk_thread None 0 0) = 0 → total f (replicate n (mk_thread None 0 0)) = 0)
      by (intros f Hf; apply total_zero, Forall_replicate, Hf).
    unfold strong_refs, weak_refs. simpl. rewrite !Hz by done. unfold strong_share, weak_share, of_call. simpl.
    destruct flags_ok as [->| ->]; constructor; simpl; unfold INITIAL_STRONG_VALUE, OBJECT_LIFETIME_STRONG; try done; lia.
  - constructor; [by split_and!|]. by apply Forall_replicate.
Qed.

Lemma run_inv n c : sys_run agrees (shared agrees flags n) c → sys_inv flags c.
Proof.
  intros H. remember (shared agrees flags n) as c0 eqn:Ec. induction H as [|c1 c2 c3 _ IH Hs]; subst.
  - apply shared_inv.
  - by eapply sys_step_inv; [apply IH|].
Qed.
End system.

(** ** Schedules *)

Inductive act : Type := A_call (i : nat) (c : op) | A_on (i : nat) | A_return (i : nat) | A_give (i j : nat) (s w : Z).

#[export] Instance may_dec flags c t : Decision (may flags c t).
Proof. destruct c; simpl; tc_solve. Defined.

(** One step of a schedule; [None] when it is not possible. *)
Definition act_step (agrees : list event → bool) (a : act) (c : system) : option system :=
  let o := sys_object c in
  let ts := sys_threads c in
  match a with
  | A_call i d =>
      t ← ts !! i;
      match th_call t with
      | Some _ => None
      | None =>
          if bool_decide (may (mFlags o) d t) && (strong_refs ts + weak_refs ts + Z.of_nat (length ts) <? INITIAL_STRONG_VALUE)
          then Some (mk_system o (<[i := own t (- (cost d).1, - (cost d).2) (Some (d, start d))]> ts)) else None
      end
  | A_on i =>
      t ← ts !! i;
      match th_call t with
      | Some (d, l) =>
          match step agrees l o with
          | Ok (l', o') => Some (mk_system o' (<[i := own t (0, 0) (Some (d, l'))]> ts))
          | Oops _ => None
          end
      | None => None
      end
  | A_return i =>
      t ← ts !! i;
      match th_call t with
      | Some (d, returned r) => Some (mk_system o (<[i := own t (gain d r) None]> ts))
      | _ => None
      end
  | A_give i j s w =>
      t ← ts !! i; u ← ts !! j;
      match th_call t with
      | Some _ => None
      | None =>
          if bool_decide (i ≠ j) && (0 <=? s) && (s <=? th_strong t) && (0 <=? w) && (w <=? th_weak t)
          then Some (mk_system o (<[j := own u (s, w) (th_call u)]> (<[i := own t (- s, - w) None]> ts))) else None
      end
  end.

Fixpoint schedule (agrees : list event → bool) (l : list act) (c : system) : option system :=
  match l with [] => Some c | a :: l' => act_step agrees a c ≫= schedule agrees l' end.

Lemma act_step_ok agrees a c c' : act_step agrees a c = Some c' → sys_step agrees c c'.
Proof.
  destruct c as [o ts], a as [i d|i|i|i j s w]; simpl; intros H.
  - destruct (ts !! i) as [t|] eqn:Hi; [|done]. simpl in H. destruct (th_call t) eqn:Hc; [done|].
    destruct (bool_decide _) eqn:Hm; [|done]. destruct (Z.ltb_spec (strong_refs ts + weak_refs ts + Z.of_nat (length ts)) INITIAL_STRONG_VALUE); [|done].
    injection H as <-. apply bool_decide_eq_true in Hm. by constructor.
  - destruct (ts !! i) as [t|] eqn:Hi; [|done]. simpl in H. destruct (th_call t) as [[d l]|] eqn:Hc; [|done].
    destruct (step agrees l o) as [[l' o']|] eqn:E; [|done]. injection H as <-. by eapply step_on.
  - destruct (ts !! i) as [t|] eqn:Hi; [|done]. simpl in H. destruct (th_call t) as [[d []]|] eqn:Hc; try done.
    injection H as <-. by eapply step_return.
  - destruct (ts !! i) as [t|] eqn:Hi; [|done]. simpl in H. destruct (ts !! j) as [u|] eqn:Hj; [|done]. simpl in H.
    destruct (th_call t) eqn:Hc; [done|]. destruct (_ && _) eqn:Hb in H; [|done]. injection H as <-.
    rewrite !andb_true_iff, bool_decide_eq_true, !Z.leb_le in Hb. destruct Hb as ((((Hij & Hs) & Hs') & Hw) & Hw').
    by apply (step_give agrees o ts i j t u s w).
Qed.

Lemma schedule_ok agrees l c c1 c2 : sys_run agrees c c1 → schedule agrees l c1 = Some c2 → sys_run agrees c c2.
Proof.
  revert c1. induction l as [|a l IH]; intros c1 Hr; simpl; [by intros [= <-]|].
  destruct (act_step agrees a c1) as [c'|] eqn:E; [|done]. apply IH. by eapply run_step, act_step_ok.
Qed.

(** ** Properties *)

(** C15: threads share an object that got its first strong reference before it was
    shared, and each calls only what the references it owns allow.  Then in every
    interleaving of their atomic steps no call uses the object or its
    [weakref_impl] after they were freed, frees them twice or fails an assertion;
    and whoever owns a strong reference (a weak one, if the life of the object is
    extended) finds the object allocated, whoever owns any its counters. *)
Theorem references_keep_alive agrees flags n c :
  flags = OBJECT_LIFETIME_STRONG ∨ flags = OBJECT_LIFETIME_WEAK →
  sys_run agrees (shared agrees flags n) c →
  (∀ i t d l, sys_threads c !! i = Some t → th_call t = Some (d, l) → ∃ l' o', step agrees l (sys_object c) = Ok (l', o')) ∧
  ∀ i t, sys_threads c !! i = Some t →
    (0 < th_strong t ∨ flags = OBJECT_LIFETIME_WEAK ∧ 0 < th_weak t → base_alive (sys_object c) = true) ∧
    (0 < th_strong t + th_weak t → refs_alive (sys_object c) = true).
Proof.
  intros Hf Hr. pose proof (run_inv agrees flags Hf n c Hr) as Hsys. destruct c as [o ts]. split.
  - intros i t d l Hi Hc. destruct (call_goes_on agrees flags Hf o ts i t d l Hsys Hi Hc) as (l' & o' & E & _). eauto.
  - intros i t Hi. destruct Hsys as [[_ _ _ _ F5 F6 F7 F8 _ _] Hts]. simpl in *.
    destruct (totals_rest flags ts i t Hts Hi) as (R1 & R2 & _ & R4 & R5). destruct (Forall_lookup_1 _ _ _ _ Hts Hi) as (T1 & T2 & _).
    assert (H : th_strong t <= strong_share t ∧ th_weak t <= weak_share t ∧ 0 <= of_call (λ _, last_strong) t ∧ 0 <= of_call (λ _, last_weak) t).
    { unfold strong_share, weak_share, of_call. destruct (th_call t) as [[d l]|]; [|lia].
      destruct (counted_nonneg d l). split_and!; try lia; destruct l; simpl; lia. }
    split; intros Ho.
    + destruct (base_alive o); [done|exfalso]. unfold b2z in F6.
      destruct Ho as [Ho|[-> Ho]]; [destruct Hf as [->| ->]|]; unfold OBJECT_LIFETIME_WEAK, OBJECT_LIFETIME_STRONG in *; simpl in F6; lia.
    + destruct (refs_alive o); [done|exfalso]. unfold b2z in F5. lia.
Qed.

(** C17: for an object that got its first strong reference before it was shared
    ([first_promotion_race] shows what happens to another): when no call is under
    way, the counters are the numbers of references the threads own; the object
    is allocated exactly while there is a strong one (any, if its life is
    extended), the [weakref_impl] exactly while there is any; and each was freed
    exactly once since. *)
Theorem freed_with_last_reference agrees flags n c :
  flags = OBJECT_LIFETIME_STRONG ∨ flags = OBJECT_LIFETIME_WEAK →
  sys_run agrees (shared agrees flags n) c → Forall (λ t, th_call t = None) (sys_threads c) →
  let s := total th_strong (sys_threads c) in
  let w := total th_weak (sys_threads c) in
  let o := sys_object c in
  mStrong o = s ∧ mWeak o = s + w ∧
  (base_alive o = true ↔ 0 < (if flags =? OBJECT_LIFETIME_STRONG then s else s + w)) ∧
  (refs_alive o = true ↔ 0 < s + w) ∧
  base_deletions (events o) = (if base_alive o then 0 else 1) ∧ refs_deletions (events o) = (if refs_alive o then 0 else 1).
Proof.
  intros Hf Hr Hidle s w o. destruct (run_inv agrees flags Hf n c Hr) as [[_ F2 F3 _ F5 F6 _ _ F9 F10] Hts].
  assert (E : ∀ f g, (∀ t, th_call t = None → f t = g t) → total f (sys_threads c) = total g (sys_threads c)).
  { intros f g Hfg. clear - Hidle Hfg. induction Hidle as [|t ts Ht _ IH]; simpl; [done|]. rewrite (Hfg t Ht). lia. }
  assert (Es : strong_refs (sys_threads c) = s) by (apply E; intros t Ht; by destruct (idle_shares t Ht)).
  assert (Ew : weak_refs (sys_threads c) = w) by (apply E; intros t Ht; by destruct (idle_shares t Ht) as (_ & ? & _)).
  assert (El : total (of_call (λ _, last_strong)) (sys_threads c) = 0 ∧ total (of_call (λ _, last_weak)) (sys_threads c) = 0)
    by (split; apply total_zero; eapply Forall_impl; [exact Hidle| |exact Hidle|]; intros t Ht; by destruct (idle_shares t Ht) as (_ & _ & _ & ? & ?)).
  destruct El as [El Elw]. rewrite Es, Ew, ?El, ?Elw in *. fold o in F2, F3, F5, F6, F9, F10.
  destruct (flags =? OBJECT_LIFETIME_STRONG), (base_alive o), (refs_alive o); simpl in *; split_and!; try done; try lia; split; done || lia.
Qed.
End RefsSpec.

Module RefsDemo.
Import Refs RefsSpec.

Definition yes (_ : list event) : bool := true.

(** Two threads: the second gets a weak reference and promotes it while the
    first gives up the strong one, between the increment of the weak count and
    the read of the strong one. *)
Definition promotion_loses : list act :=
  [A_call 0 createWeak; A_on 0; A_return 0; A_give 0 1 0 1;
   A_call 1 attemptIncStrong; A_on 1;
   A_call 0 decStrong; A_on 0; A_on 0; A_on 0; A_on 0; A_on 0; A_return 0;
   A_on 1].

Lemma references_keep_alive_witness :
  ∃ c, sys_run yes (shared yes OBJECT_LIFETIME_STRONG 1) c ∧ base_alive (sys_object c) = false ∧
    (∀ i t d l, sys_threads c !! i = Some t → th_call t = Some (d, l) → ∃ l' o', step yes l (sys_object c) = Ok (l', o')) ∧
    ∀ i t, sys_threads c !! i = Some t →
      (0 < th_strong t ∨ OBJECT_LIFETIME_STRONG = OBJECT_LIFETIME_WEAK ∧ 0 < th_weak t → base_alive (sys_object c) = true) ∧
      (0 < th_strong t + th_weak t → refs_alive (sys_object c) = true).
Proof.
  destruct (schedule yes promotion_loses (shared yes OBJECT_LIFETIME_STRONG 1)) as [c|] eqn:E; [|vm_compute in E; discriminate].
  assert (Hr : sys_run yes (shared yes OBJECT_LIFETIME_STRONG 1) c) by exact (schedule_ok yes _ _ _ _ (run_refl yes _) E).
  exists c. split; [exact Hr|]. split; [vm_compute in E; by injection E as <-|].
  exact (references_keep_alive yes OBJECT_LIFETIME_STRONG 1 c (or_introl eq_refl) Hr).
Defined.

(** The same, to the end: the promotion is refused and the weak reference given
    up, which frees the [weakref_impl]. *)
Definition all_given_up : list act := promotion_loses ++ [A_on 1; A_on 1; A_return 1; A_call 1 decWeak; A_on 1; A_on 1; A_on 1; A_on 1; A_return 1].

Lemma freed_with_last_reference_witness :
  ∃ c, sys_run yes (shared yes OBJECT_LIFETIME_STRONG 1) c ∧ Forall (λ t, th_call t = None) (sys_threads c) ∧
    let s := total th_strong (sys_threads c) in
    let w := total th_weak (sys_threads c) in
    let o := sys_object c in
    s = 0 ∧ w = 0 ∧ mStrong o = s ∧ mWeak o = s + w ∧
    (base_alive o = true ↔ 0 < (if OBJECT_LIFETIME_STRONG =? OBJECT_LIFETIME_STRONG then s else s + w)) ∧
    (refs_alive o = true ↔ 0 < s + w) ∧
    base_deletions (events o) = (if base_alive o then 0 else 1) ∧ refs_deletions (events o) = (if refs_alive o then 0 else 1).
Proof.
  destruct (schedule yes all_given_up (shared yes OBJECT_LIFETIME_STRONG 1)) as [c|] eqn:E; [|vm_compute in E; discriminate].
  assert (Hr : sys_run yes (shared yes OBJECT_LIFETIME_STRONG 1) c) by exact (schedule_ok yes _ _ _ _ (run_refl yes _) E).
  assert (Hi : Forall (λ t, th_call t = None) (sys_threads c)) by (vm_compute in E; injection E as <-; by repeat constructor).
  exists c. split; [exact Hr|]. split; [exact Hi|].
  split; [vm_compute in E; by injection E as <-|]. split; [vm_compute in E; by injection E as <-|].
  exact (freed_with_last_reference yes OBJECT_LIFETIME_STRONG 1 c (or_introl eq_refl) Hr Hi).
Defined.

(** Two calls side by side; [false] lets the first go on, [true] the second. *)
Fixpoint interleave (p q : pc) (l : list bool) : ST object (pc * pc) :=
  match l with
  | [] => mret (p, q)
  | false :: l' => p' ← step yes p; interleave p' q l'
  | true :: l' => q' ← step yes q; interleave p q' l'
  end.

(** An object that only a weak reference holds as yet: one thread takes the first
    strong reference while another promotes the weak one.  Both fix the count up,
    so that it ends at 2 - 2^28 for two strong references: [decStrong] then fails
    its assertion or, where assertions are off, never sees the last one go. *)
Lemma first_promotion_race :
  let o := state_after (call yes createWeak) (new_object OBJECT_LIFETIME_STRONG) in
  let race := interleave (start incStrong) (start attemptIncStrong) [false; false; true; true; true; true; true; false; false] in
  let o' := state_after race o in
  race o = Ok (returned true, returned true, o') ∧ mStrong o' = 2 - INITIAL_STRONG_VALUE ∧ mWeak o' = 3 ∧
  base_alive o' = true ∧ call yes decStrong o' = Oops Bug.
Proof. vm_compute. by split_and!. Qed.
End RefsDemo.
