(* ===== verification/IpcState.v ===== *)
(** The state of a process that uses [libbinder]: what [ProcessState.cpp],
    [IPCThreadState.cpp] and [BpBinder.cpp] keep, for one thread of it; and how
    that thread talks to the driver.  The parcels [mIn] and [mOut] are their
    bytes: that writing at the end of a parcel appends is shown of [Parcel]. *)
From S2P Require Import Prelude UserMem BinderUapi RefBase.

Module Ipc.

(** ** Numbers *)

Definition NO_ERROR : Z := 0.
Definition UNKNOWN_ERROR : Z := s32 2147483648.
Definition INVALID_OPERATION : Z := -38.
Definition NAME_NOT_FOUND : Z := -2.
Definition DEAD_OBJECT : Z := -32.
Definition FAILED_TRANSACTION : Z := s32 2147483650.
Definition NOT_ENOUGH_DATA : Z := -61.
Definition TIMED_OUT : Z := -110.
Definition UNKNOWN_TRANSACTION : Z := -74.
Definition EINTR : Z := 4.
Definition EBADF : Z := 9.
Definition EINVAL : Z := 22.
Definition ECONNREFUSED : Z := 111.

Definition TF_STATUS_CODE : Z := 8.
Definition BR_ACQUIRE_RESULT : Z := IOR 114 4 4.
Definition BR_ATTEMPT_ACQUIRE : Z := IOR 114 11 12.
Definition BR_FINISHED : Z := IO 114 14.

Definition BINDER_VM_SIZE : Z := 1 * 1024 * 1024 - 4096 * 2.
Definition PING_TRANSACTION : Z := B_PACK_CHARS 95 80 78 71.

(** ** The driver, the addresses *)

(** [/dev/binder] as the library uses it.  [sys_ioctl_write_read] is given the
    bytes to write and the room for reading; it answers the result of the call,
    [write_consumed] and the bytes read.  A call is interrupted by at most
    [interruptions] signals in a row.  The priority of the thread belongs to the
    system, for the driver changes it.  [sys_close_files] closes the descriptors
    that a parcel received ([Parcel.closeFileDescriptors] of [Parcel]). *)
Class Device (D : Type) : Type := {
  interruptions : nat;
  sys_open : ST D Z;
  sys_close (fd : Z) : ST D unit;
  sys_mmap (fd size : Z) : ST D bool;
  sys_ioctl_version (fd : Z) : ST D (Z * Z);
  sys_ioctl_set_max_threads (fd n : Z) : ST D Z;
  sys_ioctl_set_context_mgr (fd : Z) : ST D Z;
  sys_ioctl_thread_exit (fd : Z) : ST D unit;
  sys_ioctl_write_read (fd : Z) (wbuf : list Z) (rsize : Z) : ST (gmap Z Z * D) (Z * Z * list Z);
  sys_getpriority : ST D Z;
  sys_setpriority (nice : Z) : ST D unit;
  sys_close_files (data size objects count : Z) : ST (gmap Z Z * D) unit
}.

(** The pointers to an object and to its [weakref_impl], which nothing else gets
    later; how many entries the table of proxies has room for; who the process
    is; where the variable [statusBuffer] of a call of [sendReply] is, by its
    depth in the stack. *)
Class Machine : Type := {
  getWeakRefs : Z → Z;
  refBase : Z → Z;
  max_handles : Z;
  own_pid : Z;
  own_uid : Z;
  statusBuffer_at : nat → Z
}.

(** ** Objects *)

(** [BpBinder::Obituary]; [ob_recipient] is a weak pointer. *)
Record obituary : Type := mk_obituary { ob_recipient : Z; ob_cookie : Z; ob_flags : Z }.
(** [ObjectManager::entry_t]. *)
Record entry : Type := mk_entry { e_object : Z; e_cleanupCookie : Z; e_func : Z }.

Record proxy : Type := mk_proxy {
  mHandle : Z;
  mAlive : bool;
  mObitsSent : bool;
  mObituaries : option (list obituary);
  mObjects : list (Z * entry)
}.
#[export] Instance eta_proxy : Eta proxy :=
  λ r, mk_proxy (mHandle r) (mAlive r) (mObitsSent r) (mObituaries r) (mObjects r).
#[export] Instance field_mHandle : Field mHandle := ltac:(derive_field).
#[export] Instance field_mAlive : Field mAlive := ltac:(derive_field).
#[export] Instance field_mObitsSent : Field mObitsSent := ltac:(derive_field).
#[export] Instance field_mObituaries : Field mObituaries := ltac:(derive_field).
#[export] Instance field_mObjects : Field mObjects := ltac:(derive_field).

(** A [BpBinder], or an object of a class of the program: a [BBinder] or a
    [DeathRecipient]. *)
Inductive body : Type := Remote (b : proxy) | Program.

Record item : Type := mk_item { h_refs : Refs.object; h_body : body }.
#[export] Instance eta_item : Eta item := λ r, mk_item (h_refs r) (h_body r).
#[export] Instance field_h_refs : Field h_refs := ltac:(derive_field).
#[export] Instance field_h_body : Field h_body := ltac:(derive_field).

(** ** Process and thread *)

Record handle_entry : Type := mk_handle { e_binder : Z; e_refs : Z }.

(** [ProcessState]. *)
Record process : Type := mk_process {
  mDriverFD : Z;
  mVMStart : bool;
  mManagesContexts : bool;
  mBinderContextCheckFunc : Z;
  mBinderContextUserData : Z;
  mThreadPoolStarted : bool;
  mThreadPoolSeq : Z;
  mHandleToObject : list handle_entry
}.
#[export] Instance eta_process : Eta process :=
  λ r, mk_process (mDriverFD r) (mVMStart r) (mManagesContexts r) (mBinderContextCheckFunc r) (mBinderContextUserData r)
    (mThreadPoolStarted r) (mThreadPoolSeq r) (mHandleToObject r).
#[export] Instance field_mDriverFD : Field mDriverFD := ltac:(derive_field).
#[export] Instance field_mVMStart : Field mVMStart := ltac:(derive_field).
#[export] Instance field_mManagesContexts : Field mManagesContexts := ltac:(derive_field).
#[export] Instance field_mBinderContextCheckFunc : Field mBinderContextCheckFunc := ltac:(derive_field).
#[export] Instance field_mBinderContextUserData : Field mBinderContextUserData := ltac:(derive_field).
#[export] Instance field_mThreadPoolStarted : Field mThreadPoolStarted := ltac:(derive_field).
#[export] Instance field_mThreadPoolSeq : Field mThreadPoolSeq := ltac:(derive_field).
#[export] Instance field_mHandleToObject : Field mHandleToObject := ltac:(derive_field).

(** [IPCThreadState]; then whether the thread is in the foreground scheduling
    group. *)
Record thread : Type := mk_thread {
  mIn : list Z;
  mInPos : Z;
  mInCapacity : Z;
  mOut : list Z;
  mPendingStrongDerefs : list Z;
  mPendingWeakDerefs : list Z;
  mLastError : Z;
  mCallingPid : Z;
  mCallingUid : Z;
  mStrictModePolicy : Z;
  mLastTransactionBinderFlags : Z;
  t_foreground : bool
}.
#[export] Instance eta_thread : Eta thread :=
  λ r, mk_thread (mIn r) (mInPos r) (mInCapacity r) (mOut r) (mPendingStrongDerefs r) (mPendingWeakDerefs r) (mLastError r)
    (mCallingPid r) (mCallingUid r) (mStrictModePolicy r) (mLastTransactionBinderFlags r) (t_foreground r).
#[export] Instance field_mIn : Field mIn := ltac:(derive_field).
#[export] Instance field_mInPos : Field mInPos := ltac:(derive_field).
#[export] Instance field_mInCapacity : Field mInCapacity := ltac:(derive_field).
#[export] Instance field_mOut : Field mOut := ltac:(derive_field).
#[export] Instance field_mPendingStrongDerefs : Field mPendingStrongDerefs := ltac:(derive_field).
#[export] Instance field_mPendingWeakDerefs : Field mPendingWeakDerefs := ltac:(derive_field).
#[export] Instance field_mLastError : Field mLastError := ltac:(derive_field).
#[export] Instance field_mCallingPid : Field mCallingPid := ltac:(derive_field).
#[export] Instance field_mCallingUid : Field mCallingUid := ltac:(derive_field).
#[export] Instance field_mStrictModePolicy : Field mStrictModePolicy := ltac:(derive_field).
#[export] Instance field_mLastTransactionBinderFlags : Field mLastTransactionBinderFlags := ltac:(derive_field).
#[export] Instance field_t_foreground : Field t_foreground := ltac:(derive_field).

(** The whole: process, thread, the objects by address, the addresses the
    allocator gives next, the threads spawned (number and whether it is the main
    one), the memory, and the global variables of [IPCThreadState.cpp]. *)
Record ipc : Type := mk_ipc {
  i_process : process;
  i_thread : thread;
  i_heap : gmap Z item;
  i_fresh : list Z;
  i_spawned : list (Z * bool);
  i_mem : gmap Z Z;
  the_context_object : Z;
  gDisableBackgroundScheduling : bool
}.
#[export] Instance eta_ipc : Eta ipc :=
  λ r, mk_ipc (i_process r) (i_thread r) (i_heap r) (i_fresh r) (i_spawned r) (i_mem r) (the_context_object r)
    (gDisableBackgroundScheduling r).
#[export] Instance field_i_process : Field i_process := ltac:(derive_field).
#[export] Instance field_i_thread : Field i_thread := ltac:(derive_field).
#[export] Instance field_i_heap : Field i_heap := ltac:(derive_field).
#[export] Instance field_i_fresh : Field i_fresh := ltac:(derive_field).
#[export] Instance field_i_spawned : Field i_spawned := ltac:(derive_field).
#[export] Instance field_i_mem : Field i_mem := ltac:(derive_field).
#[export] Instance field_the_context_object : Field the_context_object := ltac:(derive_field).
#[export] Instance field_gDisableBackgroundScheduling : Field gDisableBackgroundScheduling := ltac:(derive_field).

Section ipc.
Context {D : Type} {DV : Device D} {MA : Machine}.

Definition M (A : Type) : Type := ST (ipc * D) A.

Definition thr : M thread := gets (λ s, i_thread s.1).
Definition prc : M process := gets (λ s, i_process s.1).
Definition set_ipc (f : ipc → ipc) : M unit := modify (λ s, (f s.1, s.2)).
Definition set_thread (f : thread → thread) : M unit := set_ipc (λ i, i <| i_thread %= f |>).
Definition set_process (f : process → process) : M unit := set_ipc (λ i, i <| i_process %= f |>).
Definition on_device {A} (m : ST D A) : M A := λ s,
  match m s.2 with Ok (a, d) => Ok (a, (s.1, d)) | Oops o => Oops o end.

(** The memory of the process, and the driver with it. *)
Definition on_memory {A} (m : ST (gmap Z Z * D) A) : M A := λ s,
  match m (i_mem s.1, s.2) with Ok (a, (mem, d)) => Ok (a, (s.1 <| i_mem := mem |>, d)) | Oops o => Oops o end.

(** ** The parcels of a thread *)

(** [mOut.writeInt32] of several words, [mOut.write]. *)
Definition out_bytes (bs : list Z) : M unit := set_thread (λ t, t <| mOut %= λ l, l ++ bs |>).
Definition out_words (ws : list Z) : M unit := out_bytes (concat (le_bytes 4 ∘ u32 <$> ws)).

Definition in_size (t : thread) : Z := Z.of_nat (length (mIn t)).
Definition in_avail (t : thread) : Z := in_size t - mInPos t.

(** [mIn.read], of a multiple of 4 bytes. *)
Definition in_read (n : Z) : M (option (list Z)) :=
  t ← thr;
  if mInPos t + n <=? in_size t then
    set_thread (λ t, t <| mInPos %= Z.add n |>) ;; mret (Some (slice (Z.to_nat (mInPos t)) (Z.to_nat n) (mIn t)))
  else mret None.
(** [mIn.readInt32]: 0 at the end. *)
Definition in_int32 : M Z := bs ← in_read 4; mret (match bs with Some bs => s32 (le_value bs) | None => 0 end).

(** ** Talking to the driver *)

(** [do ... while (err == -EINTR)]. *)
Fixpoint write_read (turns : nat) (wbuf : list Z) (rsize : Z) : M (Z * Z * list Z) :=
  match turns with
  | O => fail Fuel
  | S turns' =>
      p ← prc;
      r ← on_memory (sys_ioctl_write_read (mDriverFD p) wbuf rsize);
      let '(result, written, bytes) := r in
      p ← prc;
      let err := if mDriverFD p <=? 0 then - EBADF else if result >=? 0 then NO_ERROR else result in
      if err =? - EINTR then write_read turns' wbuf rsize else mret (err, written, bytes)
  end.

(** [mOut.remove] ends the process: it is not implemented. *)
Definition talkWithDriver (doReceive : bool) : M Z :=
  p ← prc;
  if mDriverFD p <=? 0 then mret (- EBADF)
  else
    t ← thr;
    let needRead := mInPos t >=? in_size t in
    let wbuf := if negb doReceive || needRead then mOut t else [] in
    let rsize := if doReceive && needRead then mInCapacity t else 0 in
    if bool_decide (wbuf = []) && (rsize =? 0) then mret NO_ERROR
    else
      r ← write_read (S interruptions) wbuf rsize;
      let '(err, written, bytes) := r in
      if err >=? NO_ERROR then
        when (written >? 0)
          (t ← thr;
           if written <? Z.of_nat (length (mOut t)) then fail Bug else set_thread (λ t, t <| mOut := [] |>)) ;;
        when (negb (bool_decide (bytes = []))) (set_thread (λ t, t <| mIn := bytes |> <| mInPos := 0 |>)) ;;
        mret NO_ERROR
      else mret err.

Definition flushCommands : M unit :=
  p ← prc; if mDriverFD p <=? 0 then mret tt else talkWithDriver false ;; mret tt.

(** ** Commands that are only written *)

Definition incStrongHandle (handle : Z) : M unit := out_words [BC_ACQUIRE; handle].
Definition decStrongHandle (handle : Z) : M unit := out_words [BC_RELEASE; handle].
Definition incWeakHandle (handle : Z) : M unit := out_words [BC_INCREFS; handle].
Definition decWeakHandle (handle : Z) : M unit := out_words [BC_DECREFS; handle].
Definition requestDeathNotification (handle proxy : Z) : M unit := out_words [BC_REQUEST_DEATH_NOTIFICATION; handle; proxy].
Definition clearDeathNotification (handle proxy : Z) : M unit := out_words [BC_CLEAR_DEATH_NOTIFICATION; handle; proxy].
(** [freeBuffer]; the first argument says that a parcel owns the buffer. *)
Definition freeBuffer (parcel : bool) (data size objects count : Z) : M unit :=
  (if parcel then on_memory (sys_close_files data size objects count) else mret tt) ;;
  out_words [BC_FREE_BUFFER; data].

(** ** The identity of the caller *)

Definition clearCaller : M unit := set_thread (λ t, t <| mCallingPid := own_pid |> <| mCallingUid := own_uid |>).
(** [((int64_t)mCallingUid<<32) | mCallingPid]: the pid is signed. *)
Definition s64 (x : Z) : Z := (x + 2 ^ 63) `mod` 2 ^ 64 - 2 ^ 63.
Definition identity_token (pid uid : Z) : Z := s64 (Z.lor (Z.shiftl uid 32) pid).
Definition clearCallingIdentity : M Z :=
  t ← thr; clearCaller ;; mret (identity_token (mCallingPid t) (mCallingUid t)).
Definition restoreCallingIdentity (token : Z) : M unit :=
  set_thread (λ t, t <| mCallingUid := u32 (Z.shiftr token 32) |> <| mCallingPid := s32 token |>).
Definition clearLastError : M Z := t ← thr; set_thread (λ t, t <| mLastError := NO_ERROR |>) ;; mret (mLastError t).
End ipc.
End Ipc.
