(* ===== verification/BpBinder.v ===== *)
(** Proxies: [src/lib/binder/BpBinder.cpp] and the table of proxies of
    [ProcessState.cpp].  A proxy is counted by [RefBase]; the virtual methods
    that [RefBase] calls tell the driver what the process holds.  Parts of the
    process are parameters: asking the driver for a strong reference, which
    [IPCThreadState] does, and the functions of the program. *)
From S2P Require Import Prelude BinderUapi RefBase IpcState.
Import Ipc.

Module Proxies.

Section proxies.
Context {D : Type} {DV : Device D} {MA : Machine}.
Notation M := (M (D := D)).
(** [IPCThreadState::attemptIncStrongHandle(handle)], [recipient->binderDied(who)],
    and the [func] of an attached object. *)
Context (attemptIncStrongHandle : Z → M Z) (binderDied : Z → Z → M unit) (cleanup : Z → entry → M unit).

(** ** Objects *)

Definition item_at (x : Z) : M item := λ s,
  match i_heap s.1 !! x with Some h => Ok (h, s) | None => Oops Null_deref end.
Definition set_item (x : Z) (f : item → item) : M unit := set_ipc (λ i, i <| i_heap %= alter f x |>).

(** The [BpBinder] at [x]: to use one that was freed is a fault. *)
Definition proxy_at (x : Z) : M proxy :=
  h ← item_at x;
  match h_body h with
  | Remote b => if Refs.base_alive (h_refs h) then mret b else fail Null_deref
  | Program => fail Bad_access
  end.
Definition set_proxy (x : Z) (f : proxy → proxy) : M unit :=
  set_item x (λ h, h <| h_body %= λ o, match o with Remote b => Remote (f b) | Program => Program end |>).

(** A step of [RefBase] on the object at [x]. *)
Definition on_refs {A} (x : Z) (m : ST Refs.object A) : M A :=
  h ← item_at x;
  match m (h_refs h) with
  | Ok (a, o) => set_item x (λ h, h <| h_refs := o |>) ;; mret a
  | Oops e => fail e
  end.

(** Counting references on an object of the program, whose class leaves the
    virtual methods of [RefBase] as they are. *)
Definition program_refs (x : Z) (c : Refs.op) : M bool :=
  h ← item_at x;
  match h_body h with
  | Program => on_refs x (Refs.call (λ _, true) c)
  | Remote _ => fail Bad_access
  end.

(** ** [ObjectManager]: a sorted map *)

Fixpoint objects_find (id : Z) (l : list (Z * entry)) : option entry :=
  match l with [] => None | (k, e) :: l' => if k =? id then Some e else objects_find id l' end.
Fixpoint objects_add (id : Z) (e : entry) (l : list (Z * entry)) : list (Z * entry) :=
  match l with
  | [] => [(id, e)]
  | (k, e') :: l' => if id <? k then (id, e) :: l else (k, e') :: objects_add id e l'
  end.
Definition attach (id : Z) (e : entry) (l : list (Z * entry)) : list (Z * entry) :=
  match objects_find id l with Some _ => l | None => objects_add id e l end.
Definition find (id : Z) (l : list (Z * entry)) : Z :=
  match objects_find id l with Some e => e_object e | None => 0 end.
Definition detach (id : Z) (l : list (Z * entry)) : list (Z * entry) := filter (λ p, p.1 ≠ id) l.

(** [kill], by which the manager's destructor begins. *)
Definition kill (l : list (Z * entry)) : M unit :=
  for_each (λ p, when (negb (e_func p.2 =? 0)) (cleanup p.1 p.2)) l.

Definition attachObject (x id : Z) (e : entry) : M unit :=
  proxy_at x ;; set_proxy x (λ b, b <| mObjects %= attach id e |>).
Definition findObject (x id : Z) : M Z := b ← proxy_at x; mret (find id (mObjects b)).
Definition detachObject (x id : Z) : M unit := proxy_at x ;; set_proxy x (λ b, b <| mObjects %= detach id |>).

(** ** Death notifications *)

(** [delete] of a vector of obituaries gives up their weak pointers. *)
Definition delete_obituaries (obits : list obituary) : M unit :=
  for_each (λ o, program_refs (ob_recipient o) Refs.decWeak ;; mret tt) obits.

(** [expungeHandle], on the table of the process. *)
Definition lookupHandleLocked (handle : Z) : M (option handle_entry) :=
  p ← prc;
  let n := Z.of_nat (length (mHandleToObject p)) in
  if n <=? u32 handle then
    if u32 handle + 1 >? max_handles then mret None
    else
      set_process (λ p, p <| mHandleToObject %= λ l, l ++ replicate (Z.to_nat (u32 handle + 1 - n)) (mk_handle 0 0) |>) ;;
      p ← prc; mret (mHandleToObject p !! Z.to_nat (u32 handle))
  else mret (mHandleToObject p !! Z.to_nat (u32 handle)).
Definition set_entry (handle : Z) (e : handle_entry) : M unit :=
  set_process (λ p, p <| mHandleToObject %= <[Z.to_nat (u32 handle) := e]> |>).

Definition expungeHandle (handle binder : Z) : M unit :=
  e ← lookupHandleLocked handle;
  match e with
  | Some e => when (e_binder e =? binder) (set_entry handle (mk_handle 0 (e_refs e)))
  | None => mret tt
  end.

(** ** The methods that [RefBase] calls *)

(** [BpBinder::~BpBinder], then the destructor of its [mObjects]. *)
Definition destroy (x : Z) : M unit :=
  b ← proxy_at x;
  match mObituaries b with
  | Some obits =>
      clearDeathNotification (mHandle b) x ;;
      set_proxy x (λ b, b <| mObituaries := None |>) ;;
      delete_obituaries obits
  | None => mret tt
  end ;;
  expungeHandle (mHandle b) x ;;
  decWeakHandle (mHandle b) ;;
  kill (mObjects b).

Definition onFirstRef (x : Z) : M unit := b ← proxy_at x; incStrongHandle (mHandle b).
Definition onLastStrongRef (x : Z) : M unit := b ← proxy_at x; decStrongHandle (mHandle b).
Definition onIncStrongAttempted (x : Z) : M bool :=
  b ← proxy_at x; r ← attemptIncStrongHandle (mHandle b); mret (r =? NO_ERROR).

(** What a step of [RefBase] at [l] calls first; the answer of
    [onIncStrongAttempted]. *)
Definition virtual_call (x : Z) (l : Refs.pc) : M bool :=
  match l with
  | Refs.incStrong_first | Refs.forceIncStrong_first => onFirstRef x ;; mret true
  | Refs.decStrong_last | Refs.attempt_unneeded => onLastStrongRef x ;; mret true
  | Refs.attempt_ask => onIncStrongAttempted x
  | Refs.decStrong_delete | Refs.decWeak_delete_base _ => destroy x ;; mret true
  | _ => mret true
  end.

Fixpoint refs_loop (fuel : nat) (x : Z) (l : Refs.pc) : M bool :=
  match l with
  | Refs.returned r => mret r
  | _ =>
      match fuel with
      | O => fail Fuel
      | S fuel' => ok ← virtual_call x l; l' ← on_refs x (Refs.step (λ _, ok) l); refs_loop fuel' x l'
      end
  end.

(** [c] on the object at [x], of whatever class; 16 steps are enough when no
    other thread counts references on it. *)
Definition refs (x : Z) (c : Refs.op) : M bool :=
  h ← item_at x;
  match h_body h with
  | Remote _ => refs_loop 16 x (Refs.start c)
  | Program => program_refs x c
  end.

(** ** Making proxies *)

(** [new BpBinder(handle)]. *)
Definition new_proxy (handle : Z) : M Z := λ s,
  match i_fresh s.1 with
  | [] => Oops Bad_env
  | x :: l =>
      (set_ipc (λ i, i <| i_fresh := l |> <| i_heap %= <[x := mk_item (Refs.new_object Refs.OBJECT_LIFETIME_WEAK)
                                                           (Remote (mk_proxy handle true false None []))]> |>) ;;
       incWeakHandle handle ;; mret x) s
  end.

(** [e->binder], if there is one and a weak reference on it can be had. *)
Definition current_proxy (e : handle_entry) : M bool :=
  if e_binder e =? 0 then mret false else refs (refBase (e_refs e)) Refs.attemptIncWeak.

(** The address of the proxy, of which the caller now owns a strong (a weak)
    reference; 0 for NULL. *)
Definition getStrongProxyForHandle (handle : Z) : M Z :=
  e ← lookupHandleLocked handle;
  match e with
  | None => mret 0
  | Some e =>
      found ← current_proxy e;
      if found : bool then
        refs (e_binder e) Refs.forceIncStrong ;;
        refs (refBase (e_refs e)) Refs.decWeak ;;
        mret (e_binder e)
      else
        b ← new_proxy handle;
        set_entry handle (mk_handle b (getWeakRefs b)) ;;
        refs b Refs.incStrong ;;
        mret b
  end.

Definition getWeakProxyForHandle (handle : Z) : M Z :=
  e ← lookupHandleLocked handle;
  match e with
  | None => mret 0
  | Some e =>
      found ← current_proxy e;
      if found : bool then
        refs (e_binder e) Refs.createWeak ;;
        refs (refBase (e_refs e)) Refs.decWeak ;;
        mret (e_binder e)
      else
        b ← new_proxy handle;
        refs b Refs.createWeak ;;
        set_entry handle (mk_handle b (getWeakRefs b)) ;;
        mret b
  end.

(** ** Death notifications, continued *)

Definition linkToDeath (x recipient cookie flags : Z) : M Z :=
  bug_on (recipient =? 0) ;;
  program_refs recipient Refs.createWeak ;;
  b ← proxy_at x;
  r ← (if negb (mObitsSent b) then
         (if bool_decide (mObituaries b = None) then
            set_proxy x (λ b, b <| mObituaries := Some [] |>) ;;
            refs x Refs.incWeakRef ;;
            requestDeathNotification (mHandle b) x ;;
            flushCommands
          else mret tt) ;;
         program_refs recipient Refs.incWeakRef ;;
         set_proxy x (λ b, b <| mObituaries %= fmap (λ l, l ++ [mk_obituary recipient cookie flags]) |>) ;;
         mret NO_ERROR
       else mret DEAD_OBJECT);
  program_refs recipient Refs.decWeak ;;
  mret r.

(** The loop of [unlinkToDeath]: the index of the obituary. *)
Definition matches (recipient cookie flags : Z) (o : obituary) : bool :=
  ((ob_recipient o =? recipient) || (recipient =? 0) && (ob_cookie o =? cookie)) && (ob_flags o =? flags).
Fixpoint find_obituary (recipient cookie flags : Z) (l : list obituary) : option (nat * obituary) :=
  match l with
  | [] => None
  | o :: l' =>
      if matches recipient cookie flags o then Some (0%nat, o)
      else match find_obituary recipient cookie flags l' with Some (i, o') => Some (S i, o') | None => None end
  end.

(** The answer, and what [*outRecipient] is set to, if it is wanted. *)
Definition unlinkToDeath (x recipient cookie flags : Z) (want_recipient : bool) : M (Z * Z) :=
  b ← proxy_at x;
  if mObitsSent b then mret (DEAD_OBJECT, 0)
  else
    match find_obituary recipient cookie flags (default [] (mObituaries b)) with
    | None => mret (NAME_NOT_FOUND, 0)
    | Some (i, o) =>
        (if want_recipient then program_refs (ob_recipient o) Refs.incWeakRef ;; mret tt else mret tt) ;;
        let l := delete i (default [] (mObituaries b)) in
        set_proxy x (λ b, b <| mObituaries := Some l |>) ;;
        program_refs (ob_recipient o) Refs.decWeak ;;
        (if bool_decide (l = []) then
           clearDeathNotification (mHandle b) x ;;
           flushCommands ;;
           set_proxy x (λ b, b <| mObituaries := None |>)
         else mret tt) ;;
        mret (NO_ERROR, if want_recipient then ob_recipient o else 0)
    end.

Definition reportOneDeath (x : Z) (o : obituary) : M unit :=
  alive ← program_refs (ob_recipient o) Refs.attemptIncStrong;
  if alive : bool then binderDied (ob_recipient o) x ;; program_refs (ob_recipient o) Refs.decStrong ;; mret tt
  else mret tt.

Definition sendObituary (x : Z) : M unit :=
  b ← proxy_at x;
  set_proxy x (λ b, b <| mAlive := false |>) ;;
  if mObitsSent b then mret tt
  else
    (if bool_decide (mObituaries b = None) then mret tt
     else
       clearDeathNotification (mHandle b) x ;; flushCommands ;;
       set_proxy x (λ b, b <| mObituaries := None |>)) ;;
    set_proxy x (λ b, b <| mObitsSent := true |>) ;;
    match mObituaries b with
    | Some obits => for_each (reportOneDeath x) obits ;; delete_obituaries obits
    | None => mret tt
    end.

Definition isBinderAlive (x : Z) : M bool := b ← proxy_at x; mret (mAlive b).
End proxies.
End Proxies.
