(* ===== verification/BpBinderSpec.v ===== *)
(** Counting references on the objects of a process: what the calls of [RefBase]
    do to the counts, and what a proxy tells the driver by its virtual methods,
    from its first reference to its last. *)
From S2P Require Import Prelude BinderUapi RefBase IpcState BpBinder.
Import Ipc Proxies.

Module ProxiesSpec.
Import Refs.

(** ** Counted objects *)

(** An object of the program that [s] strong and [w] weak references hold. *)
Record program_counts (o : Refs.object) (s w : Z) : Prop := {
  pc_nonneg : 0 <= s ∧ 0 <= w;
  pc_room : s + w < INITIAL_STRONG_VALUE;
  pc_flags : mFlags o = OBJECT_LIFETIME_STRONG;
  pc_strong : mStrong o = s;
  pc_weak : mWeak o = s + w;
  pc_base : base_alive o = (0 <? s);
  pc_refs : refs_alive o = (0 <? s + w)
}.

(** A proxy; its strong count is [INITIAL_STRONG_VALUE] until there is a strong
    reference. *)
Record proxy_counts (o : Refs.object) (s w : Z) : Prop := {
  xc_nonneg : 0 <= s ∧ 0 <= w;
  xc_room : s + w < INITIAL_STRONG_VALUE;
  xc_flags : mFlags o = OBJECT_LIFETIME_WEAK;
  xc_strong : mStrong o = s ∨ s = 0 ∧ mStrong o = INITIAL_STRONG_VALUE;
  xc_weak : mWeak o = s + w;
  xc_base : base_alive o = (0 <? s + w);
  xc_refs : refs_alive o = (0 <? s + w)
}.

(** What a call changes of the counts, and the references that allow it. *)
Definition gains (c : op) (s : Z) : Z * Z :=
  match c with
  | incStrong | forceIncStrong => (1, 0)
  | decStrong => (-1, 0)
  | createWeak | incWeakRef | attemptIncWeak => (0, 1)
  | decWeak => (0, -1)
  | attemptIncStrong => (if 0 <? s then 1 else 0, 0)
  end.
Definition answer (c : op) (s : Z) : bool := match c with attemptIncStrong => 0 <? s | _ => true end.
Definition allowed (c : op) (s w : Z) : Prop :=
  match c with
  | incStrong | createWeak | decStrong => 0 < s
  | decWeak => 0 < w
  | incWeakRef | attemptIncStrong | attemptIncWeak => 0 < s + w
  | forceIncStrong => False
  end.

(** Steps of [RefBase], one at a time. *)
Lemma alone_step agrees n l o :
  alone agrees (S n) l o = match step agrees l o with Ok (l', o') => alone agrees n l' o' | Oops e => Oops e end.
Proof. destruct l; try reflexivity. by destruct n. Qed.

Lemma alone_returned agrees n r o : alone agrees n (returned r) o = Ok (r, o).
Proof. by destruct n. Qed.
Lemma refs_s32 x : - 2 ^ 31 <= x < 2 ^ 31 → Refs.s32 x = x.
Proof. intros H. unfold Refs.s32. rewrite Z.mod_small by lia. lia. Qed.

#[local] Arguments alone : simpl never.
Ltac compute_step :=
  unfold step, incStrong_step, decStrong_step, forceIncStrong_step, decWeak_step, attemptIncStrong_step,
    attemptIncWeak_step, Refs.incWeak, atomic_add, cmpxchg, refs_member, touch_base, virtual, log_event, delete_base, delete_refs,
    alog_assert, bug_on, when, gets, modify, fail, mret, st_ret, mbind, st_bind, attempt_loop, attempt_after, update,
    INITIAL_STRONG_VALUE, OBJECT_LIFETIME_STRONG, OBJECT_LIFETIME_WEAK, OBJECT_LIFETIME_MASK;
  cbv [field_mStrong field_mWeak field_refs_alive field_base_alive field_events]; simpl.
(** The comparisons of the code that are open. *)
Ltac split_tests :=
  repeat (match goal with
    | |- context [Refs.s32 ?a] => rewrite (refs_s32 a) by lia
    | |- context [?a <=? ?b] => destruct (Z.leb_spec a b); try (exfalso; lia)
    | |- context [?a <? ?b] => destruct (Z.ltb_spec a b); try (exfalso; lia)
    | |- context [?a =? ?b] => destruct (Z.eqb_spec a b); try (exfalso; lia)
    end; simpl).
Ltac run_alone := unfold call, start; repeat (rewrite alone_step; compute_step; split_tests; rewrite ?alone_returned).

Lemma program_call c o s w :
  program_counts o s w → allowed c s w → s + w + 1 < INITIAL_STRONG_VALUE →
  ∃ o', call (λ _, true) c o = Ok (answer c s, o') ∧ program_counts o' (s + (gains c s).1) (w + (gains c s).2).
Proof.
  intros [Hnn Hroom Hf Hs Hw Hb Hr] Ha H1. destruct o as [st wk fl ra ba ev]. simpl in *. subst. unfold INITIAL_STRONG_VALUE in *.
  destruct c; simpl in Ha; try done; unfold answer; simpl; rewrite ?(proj2 (Z.ltb_lt 0 (s + w))) by lia;
    (destruct (Z.ltb_spec 0 s); try (exfalso; lia)); run_alone;
    eexists; (split; [reflexivity|]); constructor; simpl; unfold INITIAL_STRONG_VALUE; try done; try lia;
    try (symmetry; apply Z.ltb_lt; lia); try (symmetry; apply Z.ltb_ge; lia).
Qed.

(** ** Running the code on an object *)

Definition put_item (x : Z) (h : item) (i : ipc) : ipc := i <| i_heap %= <[x := h]> |>.
(** Commands, as their words, written at the end of [mOut]. *)
Definition encode (ws : list Z) : list Z := concat (le_bytes 4 ∘ u32 <$> ws).
Definition said (ws : list Z) (i : ipc) : ipc := i <| i_thread %= λ t, t <| mOut %= λ l, l ++ encode ws |> |>.

Lemma alter_lookup (m : gmap Z item) f x h : m !! x = Some h → alter f x m = <[x := f h]> m.
Proof.
  intros Hx. apply map_eq. intros y. destruct (decide (x = y)) as [->|Hn].
  - by rewrite lookup_alter_eq, Hx, lookup_insert_eq.
  - by rewrite lookup_alter_ne, lookup_insert_ne by done.
Qed.

Lemma put_item_put x h h' i : put_item x h' (put_item x h i) = put_item x h' i.
Proof. destruct i. unfold put_item. cbv [update field_i_heap]. simpl. by rewrite insert_insert_eq. Qed.
Lemma put_item_same x h i : i_heap i !! x = Some h → put_item x h i = i.
Proof. intros Hx. destruct i. unfold put_item. cbv [update field_i_heap]. simpl in *. by rewrite insert_id. Qed.
Lemma put_said x h ws i : said ws (put_item x h i) = put_item x h (said ws i).
Proof. by destruct i as [p []]. Qed.
Lemma heap_put x h i : i_heap (put_item x h i) = <[x := h]> (i_heap i).
Proof. by destruct i. Qed.

Section run.
Context {D : Type} {DV : Device D} {MA : Machine}.
Notation M := (M (D := D)).
Context (attempt : Z → M Z) (cleanup : Z → entry → M unit).
Implicit Types (i : ipc) (d : D) (b : proxy).

Lemma out_words_eq ws i d : out_words ws (i, d) = Ok (tt, (said ws i, d)).
Proof. done. Qed.

Lemma on_refs_eq {A} x (m : ST Refs.object A) o y i d :
  on_refs x m (put_item x (mk_item o y) i, d) =
  match m o with Ok (a, o') => Ok (a, (put_item x (mk_item o' y) i, d)) | Oops e => Oops e end.
Proof.
  unfold on_refs, item_at, mbind, st_bind. cbn [fst]. rewrite heap_put, lookup_insert_eq. cbn [h_refs].
  destruct (m o) as [[a o']|]; [|done]. unfold set_item, set_ipc, modify, mret, st_ret. cbn [fst snd]. do 3 f_equal.
  destruct i. unfold put_item. cbv [update field_i_heap]. simpl. f_equal.
  rewrite (alter_lookup _ _ _ _ (lookup_insert_eq _ _ _)). by rewrite insert_insert_eq.
Qed.

Lemma proxy_at_eq x o b i d : Refs.base_alive o = true → proxy_at x (put_item x (mk_item o (Remote b)) i, d) = Ok (b, (put_item x (mk_item o (Remote b)) i, d)).
Proof.
  intros Ha. unfold proxy_at, item_at, mbind, st_bind. cbn [fst]. rewrite heap_put, lookup_insert_eq. simpl. by rewrite Ha.
Qed.

Lemma set_proxy_eq x f o b i d :
  set_proxy x f (put_item x (mk_item o (Remote b)) i, d) = Ok (tt, (put_item x (mk_item o (Remote (f b))) i, d)).
Proof.
  unfold set_proxy, set_item, set_ipc, modify. cbn [fst snd]. do 3 f_equal. destruct i. unfold put_item.
  cbv [update field_i_heap]. simpl. f_equal. rewrite (alter_lookup _ _ _ _ (lookup_insert_eq _ _ _)). by rewrite insert_insert_eq.
Qed.

(** ** One step of [refs_loop] *)

Notation loop := (refs_loop attempt cleanup).

Definition quiet (l : pc) : bool :=
  match l with
  | returned _ | incStrong_first | forceIncStrong_first | decStrong_last | attempt_unneeded | attempt_ask | decStrong_delete
  | decWeak_delete_base _ => false
  | _ => true
  end.

Lemma loop_quiet n x l o y i d :
  quiet l = true →
  loop (S n) x l (put_item x (mk_item o y) i, d) =
  match step (λ _, true) l o with Ok (l', o') => loop n x l' (put_item x (mk_item o' y) i, d) | Oops e => Oops e end.
Proof.
  intros Hq. transitivity ((l' ← on_refs x (step (λ _, true) l); loop n x l') (put_item x (mk_item o y) i, d)); [by destruct l|].
  unfold mbind at 1, st_bind at 1. rewrite on_refs_eq. by destruct (step (λ _, true) l o) as [[]|].
Qed.

(** [onFirstRef] and [onLastStrongRef] say one command. *)
Definition tells (l : pc) : option Z :=
  match l with
  | incStrong_first | forceIncStrong_first => Some BC_ACQUIRE
  | decStrong_last | attempt_unneeded => Some BC_RELEASE
  | _ => None
  end.

Lemma loop_tells n x l c o b i d :
  tells l = Some c → base_alive o = true →
  loop (S n) x l (put_item x (mk_item o (Remote b)) i, d) =
  match step (λ _, true) l o with
  | Ok (l', o') => loop n x l' (put_item x (mk_item o' (Remote b)) (said [c; mHandle b] i), d)
  | Oops e => Oops e
  end.
Proof.
  intros Hc Ha.
  transitivity ((l' ← on_refs x (step (λ _, true) l); loop n x l') (put_item x (mk_item o (Remote b)) (said [c; mHandle b] i), d)).
  { assert (E : virtual_call attempt cleanup x l (put_item x (mk_item o (Remote b)) i, d) = Ok (true, (put_item x (mk_item o (Remote b)) (said [c; mHandle b] i), d))).
    { destruct l; try discriminate; injection Hc as <-; unfold virtual_call, onFirstRef, onLastStrongRef;
        unfold mbind at 1, st_bind at 1; unfold mbind at 1, st_bind at 1; rewrite (proxy_at_eq _ _ _ _ _ Ha); by rewrite <- put_said. }
    destruct l; try discriminate; cbn [refs_loop]; unfold mbind at 1, st_bind at 1; by rewrite E. }
  unfold mbind at 1, st_bind at 1. rewrite on_refs_eq. by destruct (step (λ _, true) l o) as [[]|].
Qed.

Lemma loop_returned n x r s : loop n x (returned r) s = Ok (r, s).
Proof. by destruct n. Qed.

Lemma refs_eq x c o b i d :
  refs attempt cleanup x c (put_item x (mk_item o (Remote b)) i, d) = loop 16 x (start c) (put_item x (mk_item o (Remote b)) i, d).
Proof. unfold refs, item_at, mbind, st_bind. cbn [fst]. by rewrite heap_put, lookup_insert_eq. Qed.

(** ** Counting on a proxy *)

Definition proxy_allowed (c : op) (s w : Z) : Prop :=
  match c with
  | incStrong | decStrong | attemptIncStrong => 0 < s
  | decWeak => 0 < w
  | forceIncStrong | createWeak | incWeakRef | attemptIncWeak => 0 < s + w
  end.
(** What it tells the driver of handle [h]. *)
Definition says (c : op) (s h : Z) : list (list Z) :=
  match c with
  | forceIncStrong => if s =? 0 then [[BC_ACQUIRE; h]] else []
  | decStrong => if s =? 1 then [[BC_RELEASE; h]] else []
  | _ => []
  end.
Definition say_all (cmds : list (list Z)) (i : ipc) : ipc := foldl (λ i ws, said ws i) i cmds.

#[local] Arguments refs_loop : simpl never.
Ltac loop_step :=
  first
    [ rewrite loop_quiet by reflexivity; compute_step; split_tests
    | erewrite loop_tells by reflexivity; compute_step; split_tests ];
  rewrite ?loop_returned.

Lemma proxy_call x c o b s w i d :
  proxy_counts o s w → proxy_allowed c s w → s + w + 1 < INITIAL_STRONG_VALUE →
  0 < s + (gains c s).1 + (w + (gains c s).2) →
  ∃ o', refs attempt cleanup x c (put_item x (mk_item o (Remote b)) i, d) =
      Ok (true, (put_item x (mk_item o' (Remote b)) (say_all (says c s (mHandle b)) i), d)) ∧
    proxy_counts o' (s + (gains c s).1) (w + (gains c s).2).
Proof.
  intros [Hnn Hroom Hf Hs Hw Hb Hr] Ha H1 H2. rewrite refs_eq. destruct o as [st wk fl ra ba ev]. simpl in *. subst.
  unfold INITIAL_STRONG_VALUE in *. rewrite (proj2 (Z.ltb_lt 0 (s + w))) by (destruct c; simpl in *; lia).
  destruct Hs as [->|[-> ->]]; (destruct c; simpl in Ha, H2; try (exfalso; lia)); simpl;
    try (rewrite (proj2 (Z.ltb_lt 0 s)) in H2 |- * by lia; simpl in H2); unfold start; repeat loop_step;
    eexists; (split; [reflexivity|]); constructor; simpl; unfold INITIAL_STRONG_VALUE; try done; try lia;
    try (symmetry; apply Z.ltb_lt; lia).
Qed.

(** ** The end of a proxy *)

Definition slot (handle : Z) : nat := Z.to_nat (u32 handle).
Definition table (i : ipc) : list handle_entry := mHandleToObject (i_process i).
Definition put_entry (handle : Z) (e : handle_entry) (i : ipc) : ipc :=
  i <| i_process %= λ p, p <| mHandleToObject %= <[slot handle := e]> |> |>.

Lemma set_entry_eq handle e i d : set_entry handle e (i, d) = Ok (tt, (put_entry handle e i, d)).
Proof. done. Qed.

Lemma lookup_entry handle e i d :
  table i !! slot handle = Some e → lookupHandleLocked handle (i, d) = Ok (Some e, (i, d)).
Proof.
  intros He. pose proof (lookup_lt_Some _ _ _ He) as Hlt. unfold slot, table in *.
  assert (0 <= u32 handle) by apply u32_range.
  unfold lookupHandleLocked, prc, mbind, st_bind, gets. cbn [fst]. rewrite (proj2 (Z.leb_gt _ _)) by lia. by rewrite He.
Qed.

Lemma expunge_eq handle x rf i d :
  table i !! slot handle = Some (mk_handle x rf) →
  expungeHandle handle x (i, d) = Ok (tt, (put_entry handle (mk_handle 0 rf) i, d)).
Proof.
  intros He. unfold expungeHandle. rewrite (st_bind_eq _ _ _ _ _ (lookup_entry _ _ _ _ He)). cbn [e_binder]. by rewrite Z.eqb_refl.
Qed.

Lemma destroy_eq x o b rf i d :
  base_alive o = true → mObituaries b = None → mObjects b = [] → table i !! slot (mHandle b) = Some (mk_handle x rf) →
  destroy cleanup x (put_item x (mk_item o (Remote b)) i, d) =
  Ok (tt, (put_item x (mk_item o (Remote b)) (said [BC_DECREFS; mHandle b] (put_entry (mHandle b) (mk_handle 0 rf) i)), d)).
Proof.
  intros Ha Ho Hj He. unfold destroy. rewrite (st_bind_eq _ _ _ _ _ (proxy_at_eq x o b i d Ha)). cbv beta. rewrite Ho. cbv iota.
  set (j := put_item x _ i). rewrite (st_bind_eq (mret tt) _ (j, d) tt (j, d) eq_refl). subst j. cbv beta.
  rewrite (st_bind_eq _ _ _ _ _ (expunge_eq (mHandle b) x rf (put_item x (mk_item o (Remote b)) i) d He)).
  rewrite Hj. by destruct i as [p []].
Qed.

Lemma loop_destroy n x o b rf r i d :
  base_alive o = true → mObituaries b = None → mObjects b = [] → table i !! slot (mHandle b) = Some (mk_handle x rf) →
  loop (S n) x (decWeak_delete_base r) (put_item x (mk_item o (Remote b)) i, d) =
  match step (λ _, true) (decWeak_delete_base r) o with
  | Ok (l', o') =>
      loop n x l' (put_item x (mk_item o' (Remote b)) (said [BC_DECREFS; mHandle b] (put_entry (mHandle b) (mk_handle 0 rf) i)), d)
  | Oops e => Oops e
  end.
Proof.
  intros Ha Ho Hj He. pose proof (destroy_eq x o b rf i d Ha Ho Hj He) as E.
  transitivity ((ok ← virtual_call attempt cleanup x (decWeak_delete_base r); l' ← on_refs x (step (λ _, ok) (decWeak_delete_base r));
    loop n x l') (put_item x (mk_item o (Remote b)) i, d)); [done|].
  assert (E' : virtual_call attempt cleanup x (decWeak_delete_base r) (put_item x (mk_item o (Remote b)) i, d) = Ok (true,
    (put_item x (mk_item o (Remote b)) (said [BC_DECREFS; mHandle b] (put_entry (mHandle b) (mk_handle 0 rf) i)), d)))
    by (unfold virtual_call; by rewrite (st_bind_eq _ _ _ _ _ E)).
  rewrite (st_bind_eq _ _ _ _ _ E'). cbv beta.
  unfold mbind at 1, st_bind at 1. rewrite on_refs_eq. by destruct (step (λ _, true) _ o) as [[]|].
Qed.

Lemma table_said ws i : table (said ws i) = table i.
Proof. by destruct i. Qed.

Lemma proxy_dies x c o b s w rf i d :
  proxy_counts o s w → s + w = 1 → c = (if s =? 1 then decStrong else decWeak) →
  mObituaries b = None → mObjects b = [] → table i !! slot (mHandle b) = Some (mk_handle x rf) →
  ∃ o', refs attempt cleanup x c (put_item x (mk_item o (Remote b)) i, d) =
      Ok (true, (put_item x (mk_item o' (Remote b))
        (said [BC_DECREFS; mHandle b] (put_entry (mHandle b) (mk_handle 0 rf) (say_all (says c s (mHandle b)) i))), d)) ∧
    proxy_counts o' 0 0.
Proof.
  intros [Hnn Hroom Hf Hs Hw Hb Hr] H1 -> Ho Hj He. rewrite refs_eq. destruct o as [st wk fl ra ba ev]. simpl in *. subst.
  unfold INITIAL_STRONG_VALUE in *. rewrite H1. simpl.
  assert (Hse : s = 0 ∨ s = 1) by lia. destruct Hs as [->|[-> ->]]; [destruct Hse as [->| ->]|]; simpl; unfold start;
    repeat (loop_step || (erewrite loop_destroy by (done || (rewrite ?table_said; exact He)); compute_step; split_tests; rewrite ?loop_returned));
    eexists; (split; [reflexivity|]); constructor; simpl; unfold INITIAL_STRONG_VALUE; (done || lia || (by left) || (by right) || idtac).
Qed.

(** ** New proxies *)

Lemma new_proxy_eq handle x l i d :
  i_fresh i = x :: l →
  new_proxy handle (i, d) =
  Ok (x, (said [BC_INCREFS; handle] (put_item x (mk_item (new_object OBJECT_LIFETIME_WEAK) (Remote (mk_proxy handle true false None [])))
            (i <| i_fresh := l |>)), d)).
Proof. intros Hf. unfold new_proxy. cbn [fst]. rewrite Hf. by destruct i. Qed.

(** Its first reference, a strong or a weak one. *)
Lemma first_reference x c b :
  c = incStrong ∨ c = createWeak →
  ∃ o, proxy_counts o (gains c 0).1 (gains c 0).2 ∧ ∀ i d,
    refs attempt cleanup x c (put_item x (mk_item (new_object OBJECT_LIFETIME_WEAK) (Remote b)) i, d) =
    Ok (true, (put_item x (mk_item o (Remote b)) (say_all (match c with incStrong => [[BC_ACQUIRE; mHandle b]] | _ => [] end) i), d)).
Proof.
  intros Hc. unfold new_object, OBJECT_LIFETIME_WEAK, INITIAL_STRONG_VALUE.
  destruct Hc as [->| ->]; eexists; (split; cycle 1;
    [intros i d; rewrite refs_eq; simpl; unfold start; repeat loop_step; reflexivity|]);
    constructor; simpl; unfold INITIAL_STRONG_VALUE; (done || lia || (by left) || (by right) || idtac).
Qed.
End run.
End ProxiesSpec.
