(* ===== verification/BpBinderInv.v ===== *)
(** The table of proxies and what the driver was told: the invariant that the
    table is well formed and that the commands written are those that the
    driver's counts of the references need, and the calls that keep it. *)
From S2P Require Import Prelude BinderUapi RefBase IpcState BpBinder BpBinderSpec.
Import Ipc Proxies Refs ProxiesSpec.

Module ProxiesInv.

(** ** A driver that takes what it is given *)

(** [sent] is what the driver took so far, [reports] the deaths that the program
    heard of: the recipient and the proxy. *)
Class Reliable (D : Type) {DV : Device D} : Type := { sent : D → list Z; reports : D → list (Z * Z) }.
Class ReliableLaws (D : Type) {DV : Device D} {RD : Reliable D} : Prop :=
  takes_all fd wbuf rsize m d :
    0 < fd → 0 <= rsize → ∃ bytes d', sys_ioctl_write_read fd wbuf rsize (m, d) = Ok (0, Z.of_nat (length wbuf), bytes, (m, d')) ∧
      sent d' = sent d ++ wbuf ∧ reports d' = reports d ∧ Z.of_nat (length bytes) <= rsize.

(** The pointers to the two parts of an object belong together. *)
Class MachineLaws {MA : Machine} : Prop := refBase_getWeakRefs x : refBase (getWeakRefs x) = x.

(** ** The invariant *)

(** The references that the program owns, and how many requests to clear a
    notification the driver has not confirmed. *)
Record ghost : Type := mk_ghost { g_strong : Z → Z; g_weak : Z → Z; g_clears : Z → Z }.
Definition at_ (x n y : Z) : Z := if y =? x then n else 0.
Definition add_strong (x n : Z) (g : ghost) : ghost := mk_ghost (λ y, g_strong g y + at_ x n y) (g_weak g) (g_clears g).
Definition add_weak (x n : Z) (g : ghost) : ghost := mk_ghost (g_strong g) (λ y, g_weak g y + at_ x n y) (g_clears g).
Definition add_clears (x n : Z) (g : ghost) : ghost := mk_ghost (g_strong g) (g_weak g) (λ y, g_clears g y + at_ x n y).

(** How many obituaries of a proxy, of all of them, are for the recipient [r]. *)
Fixpoint count_recipient (r : Z) (l : list obituary) : Z :=
  match l with [] => 0 | o :: l' => (if ob_recipient o =? r then 1 else 0) + count_recipient r l' end.
Definition obits (b : proxy) : list obituary := default [] (mObituaries b).
Definition names (r : Z) (h : item) : Z := match h_body h with Remote b => count_recipient r (obits b) | Program => 0 end.
Definition named (r : Z) (m : gmap Z item) : Z := msum (names r) m.

(** A proxy that asked for a notification holds itself. *)
Definition asked (b : proxy) : Z := if mObituaries b then 1 else 0.

Definition item_ok (g : ghost) (m : gmap Z item) (x : Z) (h : item) : Prop :=
  0 <= g_weak g x ∧ 0 <= g_clears g x ∧
  match h_body h with
  | Remote b =>
      proxy_counts (h_refs h) (g_strong g x) (g_weak g x + asked b + g_clears g x) ∧
      0 <= mHandle b < 2 ^ 32 ∧ mObjects b = [] ∧ (mObitsSent b = true → mObituaries b = None) ∧
      Forall (λ o, ∃ h', m !! ob_recipient o = Some h' ∧ h_body h' = Program) (obits b)
  | Program => program_counts (h_refs h) (g_strong g x) (g_weak g x + named x m)
  end.

(** A proxy that was not freed. *)
Definition live (m : gmap Z item) (x : Z) (o : Refs.object) (b : proxy) : Prop :=
  m !! x = Some (mk_item o (Remote b)) ∧ base_alive o = true.

(** Commands about handle [h]: one more of [c1], one less for each [c2]. *)
Definition delta (c1 c2 h : Z) (ws : list Z) : Z :=
  match ws with c :: a :: _ => if a =? h then if c =? c1 then 1 else if c =? c2 then -1 else 0 else 0 | _ => 0 end.
Fixpoint balance (c1 c2 h : Z) (cmds : list (list Z)) : Z :=
  match cmds with [] => 0 | ws :: cmds' => delta c1 c2 h ws + balance c1 c2 h cmds' end.
(** What the commands make the driver hold for the process: a weak reference on
    the handle, a strong one, a request for its death. *)
Definition told (h : Z) (cmds : list (list Z)) : Z * Z * Z :=
  (balance BC_INCREFS BC_DECREFS h cmds, balance BC_ACQUIRE BC_RELEASE h cmds,
   balance BC_REQUEST_DEATH_NOTIFICATION BC_CLEAR_DEATH_NOTIFICATION h cmds).
(** What the process needs of it: nothing without a proxy. *)
Definition strong_held (o : Refs.object) : bool := (0 <? mStrong o) && (mStrong o <? INITIAL_STRONG_VALUE).
Definition needed (h : Z) (i : ipc) : Z * Z * Z :=
  match table i !! slot h with
  | Some e =>
      match i_heap i !! e_binder e with
      | Some (mk_item o (Remote b)) => (1, b2z (strong_held o), asked b)
      | _ => (0, 0, 0)
      end
  | None => (0, 0, 0)
  end.

Section invariant.
Context {D : Type} {DV : Device D} {RD : Reliable D} {RL : ReliableLaws D} {MA : Machine} {ML : MachineLaws}.

Record table_ok (i : ipc) : Prop := {
  tb_entry n e : table i !! n = Some e → e_binder e ≠ 0 →
    e_refs e = getWeakRefs (e_binder e) ∧ ∃ o b, live (i_heap i) (e_binder e) o b ∧ slot (mHandle b) = n;
  tb_proxy x o b : live (i_heap i) x o b → table i !! slot (mHandle b) = Some (mk_handle x (getWeakRefs x));
  tb_length : Z.of_nat (length (table i)) <= max_handles
}.

Record inv (i : ipc) (d : D) (g : ghost) : Prop := {
  iv_fd : 0 < mDriverFD (i_process i);
  iv_items x h : i_heap i !! x = Some h → item_ok g (i_heap i) x h;
  iv_none x : i_heap i !! x = None → g_strong g x = 0 ∧ g_weak g x = 0 ∧ g_clears g x = 0;
  iv_null : i_heap i !! 0 = None;
  iv_fresh : NoDup (i_fresh i) ∧ ∀ x, x ∈ i_fresh i → x ≠ 0 ∧ i_heap i !! x = None;
  iv_table : table_ok i;
  iv_told : ∃ cmds, sent d ++ mOut (i_thread i) = concat (encode <$> cmds) ∧ ∀ h, 0 <= h < 2 ^ 32 → told h cmds = needed h i
}.

Implicit Types (i : ipc) (d : D) (g : ghost) (b : proxy).

(** ** Lemmas on the parts *)

Lemma say_all_eq cmds i : say_all cmds i = i <| i_thread %= λ t, t <| mOut %= λ l, l ++ concat (encode <$> cmds) |> |>.
Proof.
  revert i. induction cmds as [|ws cmds IH]; intros i; simpl.
  - destruct i as [p [] ]. cbv [update field_i_thread field_mOut]. simpl. by rewrite app_nil_r.
  - rewrite IH. destruct i as [p [] ]. unfold said. cbv [update field_i_thread field_mOut]. simpl. by rewrite <- app_assoc.
Qed.
Lemma say_all_app l l' i : say_all (l ++ l') i = say_all l' (say_all l i).
Proof. apply foldl_app. Qed.
Lemma say_all_put l x h i : say_all l (put_item x h i) = put_item x h (say_all l i).
Proof. rewrite !say_all_eq. by destruct i as [p []]. Qed.
Lemma say_all_parts cmds i :
  i_heap (say_all cmds i) = i_heap i ∧ i_process (say_all cmds i) = i_process i ∧ i_fresh (say_all cmds i) = i_fresh i ∧
  mOut (i_thread (say_all cmds i)) = mOut (i_thread i) ++ concat (encode <$> cmds).
Proof. rewrite say_all_eq. by destruct i as [p []]. Qed.
Lemma put_item_parts x h i :
  i_heap (put_item x h i) = <[x := h]> (i_heap i) ∧ i_process (put_item x h i) = i_process i ∧
  i_fresh (put_item x h i) = i_fresh i ∧ i_thread (put_item x h i) = i_thread i.
Proof. by destruct i. Qed.

Lemma balance_app c1 c2 h l l' : balance c1 c2 h (l ++ l') = balance c1 c2 h l + balance c1 c2 h l'.
Proof. induction l as [|ws l IH]; simpl; lia. Qed.
Lemma balance_other c1 c2 h h' l : Forall (λ ws, ∃ c r, ws = c :: h' :: r) l → h ≠ h' → balance c1 c2 h l = 0.
Proof.
  intros Hl Hh. induction Hl as [|ws l (c & r & ->) _ IH]; simpl; [done|]. rewrite (proj2 (Z.eqb_neq h' h)) by done. lia.
Qed.

Lemma count_recipient_nonneg r l : 0 <= count_recipient r l.
Proof. induction l as [|o l IH]; simpl; [lia|]. destruct (_ =? _); lia. Qed.
Lemma count_recipient_zero r l : Forall (λ o, ob_recipient o ≠ r) l → count_recipient r l = 0.
Proof. induction 1 as [|o l Ho _ IH]; simpl; [done|]. rewrite (proj2 (Z.eqb_neq _ _)) by done. lia. Qed.
Lemma count_recipient_app r l l' : count_recipient r (l ++ l') = count_recipient r l + count_recipient r l'.
Proof. induction l as [|o l IH]; simpl; lia. Qed.

Lemma named_nonneg r m : 0 <= named r m.
Proof. apply msum_nonneg. intros y [o [b|]] _; unfold names; simpl; [apply count_recipient_nonneg|lia]. Qed.
Lemma named_update r m x h h' : m !! x = Some h → named r (<[x := h']> m) = named r m - names r h + names r h'.
Proof. apply msum_update. Qed.
Lemma named_at_least r m x o b : m !! x = Some (mk_item o (Remote b)) → count_recipient r (obits b) <= named r m.
Proof.
  intros Hx. unfold named. rewrite <- (insert_delete_id m x _ Hx), msum_insert by apply lookup_delete_eq.
  pose proof (named_nonneg r (delete x m)). unfold named in *. unfold names at 1. simpl. lia.
Qed.

Lemma slot_inj h h' : 0 <= h < 2 ^ 32 → 0 <= h' < 2 ^ 32 → slot h = slot h' → h = h'.
Proof. intros H H'. unfold slot. rewrite !u32_small by done. lia. Qed.

(** The items that a change of [x] leaves alone. *)
Lemma item_ok_other g g' m m' y h :
  item_ok g m y h → (∀ z h', m !! z = Some h' → h_body h' = Program → ∃ h'', m' !! z = Some h'' ∧ h_body h'' = Program) →
  g_strong g' y = g_strong g y → g_clears g' y = g_clears g y → 0 <= g_weak g' y →
  (if h_body h is Remote _ then g_weak g' y = g_weak g y else g_weak g' y + named y m' = g_weak g y + named y m) →
  item_ok g' m' y h.
Proof.
  intros (Hw & Hc & H) Hm Es Ec Hw' E. split_and!; [done|by rewrite Ec|]. destruct (h_body h) as [b|].
  - destruct H as (H1 & H2 & H3 & H4 & H5). rewrite Es, Ec, E. split_and!; try done; try lia.
    eapply Forall_impl; [exact H5|]. intros o (h' & Ho & Hp). by apply (Hm _ h').
  - by rewrite Es, E.
Qed.

Lemma live_put m x o b o' b' y oy bY :
  m !! x = Some (mk_item o (Remote b)) →
  live (<[x := mk_item o' (Remote b')]> m) y oy bY ↔ (y = x ∧ oy = o' ∧ bY = b' ∧ base_alive o' = true) ∨ (y ≠ x ∧ live m y oy bY).
Proof.
  intros Hx. unfold live. destruct (decide (y = x)) as [->|Hn].
  - rewrite lookup_insert_eq. split; [intros [[= -> ->] ?]; by left|intros [(_ & -> & -> & ?)|[]]; done].
  - rewrite lookup_insert_ne by done. split; [by right|intros [(-> & _)|[_ ?]]; done].
Qed.

(** ** One proxy changes *)

(** The recipients of [b'] and those the ghost lets go of, or takes over. *)
Definition moves (g g' : ghost) (x : Z) (b b' : proxy) : Prop := ∀ y, y ≠ x →
  g_strong g' y = g_strong g y ∧ g_clears g' y = g_clears g y ∧ 0 <= g_weak g' y ∧
  g_weak g' y + count_recipient y (obits b') = g_weak g y + count_recipient y (obits b).

Definition recipients_ok (m : gmap Z item) (b : proxy) : Prop :=
  Forall (λ o, ∃ h', m !! ob_recipient o = Some h' ∧ h_body h' = Program) (obits b).

Lemma recipients_not m b y : recipients_ok m b → (∀ h, m !! y = Some h → h_body h ≠ Program) → count_recipient y (obits b) = 0.
Proof.
  intros Hb Hy. apply count_recipient_zero. eapply Forall_impl; [exact Hb|]. intros o (h' & Ho & Hp) <-. by apply (Hy h').
Qed.

Lemma items_proxy i d g g' x o b o' b' :
  inv i d g → live (i_heap i) x o b → mHandle b' = mHandle b → mObjects b' = [] →
  (mObitsSent b' = true → mObituaries b' = None) → recipients_ok (i_heap i) b' → moves g g' x b b' →
  proxy_counts o' (g_strong g' x) (g_weak g' x + asked b' + g_clears g' x) → 0 <= g_weak g' x → 0 <= g_clears g' x →
  let m' := <[x := mk_item o' (Remote b')]> (i_heap i) in
  (∀ y h, m' !! y = Some h → item_ok g' m' y h) ∧ (∀ y, m' !! y = None → g_strong g' y = 0 ∧ g_weak g' y = 0 ∧ g_clears g' y = 0).
Proof.
  intros Hinv [Hx Ha] Hh Hj Hsent Hrec Hmv Hcnt Hw Hc m'. pose proof (iv_items _ _ _ Hinv) as Hit.
  assert (Hp : ∀ z h', i_heap i !! z = Some h' → h_body h' = Program → ∃ h'', m' !! z = Some h'' ∧ h_body h'' = Program).
  { intros z h' Hz Hb. exists h'. split; [|done]. unfold m'. rewrite lookup_insert_ne; [done|]. intros <-. rewrite Hx in Hz. by injection Hz as <-. }
  pose proof (Hit x _ Hx) as (_ & _ & (_ & Hhb & _ & _ & Hrb)). simpl in Hhb. split.
  - intros y h Hy. unfold m' in Hy. destruct (decide (y = x)) as [->|Hn].
    + rewrite lookup_insert_eq in Hy. injection Hy as <-. split_and!; [done..|]. simpl. rewrite Hh. split_and!; try done; try lia.
      eapply Forall_impl; [exact Hrec|]. intros z (h' & Hz & Hb). by apply (Hp _ h').
    + rewrite lookup_insert_ne in Hy by done. destruct (Hmv y Hn) as (E1 & E2 & E3 & E4).
      apply (item_ok_other g g' (i_heap i) m' y h (Hit y h Hy) Hp E1 E2 E3). destruct (h_body h) as [bh|] eqn:Ebh.
      * rewrite !(recipients_not (i_heap i)) in E4; [lia|done| |done|]; intros h' Hy'; rewrite Hy in Hy'; injection Hy' as <-; by rewrite Ebh.
      * unfold m'. rewrite (named_update _ _ _ _ _ Hx). unfold names. simpl. lia.
  - intros y Hy. unfold m' in Hy. apply lookup_insert_None in Hy as [Hy Hn]. destruct (Hmv y ltac:(congruence)) as (-> & -> & _ & E4).
    rewrite !(recipients_not (i_heap i)) in E4; [|done|intros h' Hy'; by rewrite Hy in Hy'|done|intros h' Hy'; by rewrite Hy in Hy'].
    destruct (iv_none _ _ _ Hinv y Hy) as (? & ? & ?). lia.
Qed.

(** The commands that a change of [x] tells. *)
Definition tells_change (b : proxy) (o o' : Refs.object) (b' : proxy) (new : list (list Z)) : Prop :=
  Forall (λ ws, ∃ c r, ws = c :: mHandle b :: r) new ∧
  balance BC_INCREFS BC_DECREFS (mHandle b) new = 0 ∧
  balance BC_ACQUIRE BC_RELEASE (mHandle b) new = b2z (strong_held o') - b2z (strong_held o) ∧
  balance BC_REQUEST_DEATH_NOTIFICATION BC_CLEAR_DEATH_NOTIFICATION (mHandle b) new = asked b' - asked b.

Lemma needed_other i d g x o b h m' i' :
  inv i d g → live (i_heap i) x o b → 0 <= h < 2 ^ 32 → h ≠ mHandle b → table i' = table i → i_heap i' = m' →
  (∀ y, y ≠ x → m' !! y = i_heap i !! y) → needed h i' = needed h i.
Proof.
  intros Hinv Hx Hh Hne Ht Hm' Heq. unfold needed. rewrite Ht, Hm'. destruct (table i !! slot h) as [e|] eqn:He; [|done].
  rewrite Heq; [done|]. intros Ex. pose proof (iv_items _ _ _ Hinv x _ (proj1 Hx)) as (_ & _ & (_ & Hhb & _)). simpl in Hhb.
  destruct (tb_entry i (iv_table _ _ _ Hinv) _ _ He) as (_ & o2 & b2 & Hl & Hs).
  { rewrite Ex. intros ->. destruct Hx as [Hx _]. by rewrite (iv_null _ _ _ Hinv) in Hx. }
  rewrite Ex in Hl. destruct Hl as [Hl _], Hx as [Hx _]. rewrite Hx in Hl. injection Hl as <- <-.
  apply Hne. symmetry. by apply slot_inj.
Qed.

Lemma inv_proxy i d g g' x o b o' b' new :
  inv i d g → live (i_heap i) x o b → mHandle b' = mHandle b → mObjects b' = [] →
  (mObitsSent b' = true → mObituaries b' = None) → recipients_ok (i_heap i) b' → moves g g' x b b' →
  proxy_counts o' (g_strong g' x) (g_weak g' x + asked b' + g_clears g' x) → 0 <= g_weak g' x → 0 <= g_clears g' x →
  base_alive o' = true → tells_change b o o' b' new →
  inv (say_all new (put_item x (mk_item o' (Remote b')) i)) d g'.
Proof.
  intros Hinv Hx Hh Hj Hsent Hrec Hmv Hcnt Hw Hc Ha' (Hnew & B1 & B2 & B3).
  destruct (items_proxy i d g g' x o b o' b' Hinv Hx Hh Hj Hsent Hrec Hmv Hcnt Hw Hc) as [Hit Hnone].
  destruct (say_all_parts new (put_item x (mk_item o' (Remote b')) i)) as (P1 & P2 & P3 & P4).
  destruct (put_item_parts x (mk_item o' (Remote b')) i) as (Q1 & Q2 & Q3 & Q4). rewrite Q1 in P1. rewrite Q2 in P2. rewrite Q3 in P3. rewrite Q4 in P4.
  set (i' := say_all new _) in *. pose proof Hx as [Hxl Hxa].
  assert (Ht : table i' = table i) by (unfold table; by rewrite P2).
  constructor; rewrite ?P1, ?P2, ?P3; try done.
  - apply (iv_fd _ _ _ Hinv).
  - rewrite lookup_insert_ne; [apply (iv_null _ _ _ Hinv)|]. intros ->. by rewrite (iv_null _ _ _ Hinv) in Hxl.
  - destruct (iv_fresh _ _ _ Hinv) as [Hnd Hf]. split; [done|]. intros y Hy. destruct (Hf y Hy) as [? Hn]. split; [done|].
    rewrite lookup_insert_ne; [done|]. intros ->. by rewrite Hn in Hxl.
  - destruct (iv_table _ _ _ Hinv) as [T1 T2 T3]. constructor; rewrite ?Ht, ?P1.
    + intros n e He Hne. destruct (T1 n e He Hne) as (E & oe & be & Hl & Hs). split; [done|].
      destruct (decide (e_binder e = x)) as [Ex|Ex].
      * rewrite Ex in Hl |- *. exists o', b'. split; [apply (live_put _ x o b o' b'); [done|by left]|]. rewrite Hh.
        destruct Hl as [Hl _]. rewrite Hxl in Hl. by injection Hl as <- <-.
      * exists oe, be. split; [apply (live_put _ x o b o' b'); [done|by right]|done].
    + intros y oy bY [(-> & -> & -> & _)|[_ Hl]]%(live_put _ x o b o' b'); [|by apply (T2 y oy)|done]. rewrite Hh. by apply (T2 x o b).
    + done.
  - destruct (iv_told _ _ _ Hinv) as (cmds & Ec & Hcmds). exists (cmds ++ new). split.
    { by rewrite P4, fmap_app, concat_app, app_assoc, Ec. }
    intros h Hh'. unfold told. rewrite !balance_app. pose proof (Hcmds h Hh') as E. unfold told in E.
    destruct (decide (h = mHandle b)) as [->|Hne].
    + assert (E' : needed (mHandle b) i' = (1, b2z (strong_held o'), asked b')).
      { unfold needed. rewrite Ht, P1, (tb_proxy i (iv_table _ _ _ Hinv) x o b Hx). cbn [e_binder]. by rewrite lookup_insert_eq. }
      assert (E2 : needed (mHandle b) i = (1, b2z (strong_held o), asked b)).
      { unfold needed. rewrite (tb_proxy i (iv_table _ _ _ Hinv) x o b Hx). cbn [e_binder]. by rewrite Hxl. }
      rewrite E2 in E. rewrite E'. injection E as -> -> ->. rewrite B1, B2, B3. f_equal; [f_equal|]; lia.
    + rewrite !(balance_other _ _ h (mHandle b) new) by done. rewrite !Z.add_0_r, E. symmetry.
      apply (needed_other i d g x o b h (i_heap i')); try done. intros y Hy. by rewrite P1, lookup_insert_ne.
Qed.

(** ** Counting, in the invariant *)

Lemma strong_held_eq o s w : proxy_counts o s w → strong_held o = (0 <? s).
Proof.
  intros [Hnn Hroom _ [Hs|[-> Hs]] _ _ _]; unfold strong_held; rewrite Hs; unfold INITIAL_STRONG_VALUE in *; [|done].
  rewrite (proj2 (Z.ltb_lt s (2 ^ 28))) by lia. by rewrite andb_true_r.
Qed.

Definition own (c : op) (x : Z) (g : ghost) : ghost :=
  let n := gains c (g_strong g x) in add_strong x n.1 (add_weak x n.2 g).

Lemma own_other c x g y : y ≠ x → g_strong (own c x g) y = g_strong g y ∧ g_weak (own c x g) y = g_weak g y ∧ g_clears (own c x g) y = g_clears g y.
Proof. intros Hn. unfold own, add_strong, add_weak, at_. simpl. rewrite (proj2 (Z.eqb_neq y x)) by done. lia. Qed.
Lemma own_same c x g :
  g_strong (own c x g) x = g_strong g x + (gains c (g_strong g x)).1 ∧ g_weak (own c x g) x = g_weak g x + (gains c (g_strong g x)).2 ∧
  g_clears (own c x g) x = g_clears g x.
Proof. unfold own, add_strong, add_weak, at_. simpl. rewrite Z.eqb_refl. lia. Qed.

Definition weak_of (g : ghost) (x : Z) (b : proxy) : Z := g_weak g x + asked b + g_clears g x.
Definition room (o : Refs.object) : Prop := mWeak o + 2 < INITIAL_STRONG_VALUE.

(** What the program must own to make a call on an object. *)
Definition owns (c : op) (g : ghost) (x : Z) : Prop :=
  match c with decWeak => 0 < g_weak g x | decStrong => 0 < g_strong g x | _ => True end.

Lemma live_counts i d g x o b : inv i d g → live (i_heap i) x o b → proxy_counts o (g_strong g x) (weak_of g x b).
Proof. intros Hinv [Hx _]. by destruct (iv_items _ _ _ Hinv _ _ Hx) as (_ & _ & H & _). Qed.

Lemma says_balance c s h :
  0 <= s →
  Forall (λ ws, ∃ a r, ws = a :: h :: r) (says c s h) ∧ balance BC_INCREFS BC_DECREFS h (says c s h) = 0 ∧
  balance BC_REQUEST_DEATH_NOTIFICATION BC_CLEAR_DEATH_NOTIFICATION h (says c s h) = 0 ∧
  (proxy_allowed c s 0 ∨ c = forceIncStrong ∨ (gains c s).1 = 0 →
   balance BC_ACQUIRE BC_RELEASE h (says c s h) = b2z (0 <? s + (gains c s).1) - b2z (0 <? s)).
Proof.
  intros Hs. unfold says. split_and!.
  - destruct c; try constructor; destruct (_ =? _); repeat constructor; eauto.
  - destruct c; try done; destruct (_ =? _); simpl; rewrite ?Z.eqb_refl; done.
  - destruct c; try done; destruct (_ =? _); simpl; rewrite ?Z.eqb_refl; done.
  - intros H. destruct c; simpl in *; (destruct H as [H|[H|H]]; try discriminate);
      repeat match goal with |- context [?a <? ?b] => destruct (Z.ltb_spec a b) | |- context [s =? ?b] => destruct (Z.eqb_spec s b) end;
      simpl; rewrite ?Z.eqb_refl; simpl; lia.
Qed.

Context (attempt : Z → Ipc.M (D := D) Z) (cleanup : Z → entry → Ipc.M (D := D) unit).

Lemma refs_live x c o b s w i d :
  live (i_heap i) x o b → proxy_counts o s w → proxy_allowed c s w → room o → 0 < s + (gains c s).1 + (w + (gains c s).2) →
  ∃ o', refs attempt cleanup x c (i, d) = Ok (true, (say_all (says c s (mHandle b)) (put_item x (mk_item o' (Remote b)) i), d)) ∧
    proxy_counts o' (s + (gains c s).1) (w + (gains c s).2).
Proof.
  intros [Hx _] Hc Ha Hr Hs. unfold room in Hr. rewrite (xc_weak _ _ _ Hc) in Hr.
  destruct (proxy_call attempt cleanup x c o b s w i d Hc Ha ltac:(lia) Hs) as (o' & E & Hc'). exists o'. split; [|done].
  rewrite (put_item_same _ _ _ Hx) in E. rewrite E. by rewrite say_all_put.
Qed.

Lemma count_proxy x c i d g o b :
  inv i d g → live (i_heap i) x o b → proxy_allowed c (g_strong g x) (weak_of g x b) → owns c g x → room o →
  (c = decStrong ∨ c = decWeak → 1 < g_strong g x + weak_of g x b) →
  ∃ o', let i' := say_all (says c (g_strong g x) (mHandle b)) (put_item x (mk_item o' (Remote b)) i) in
    refs attempt cleanup x c (i, d) = Ok (true, (i', d)) ∧ inv i' d (own c x g) ∧ base_alive o' = true ∧ mWeak o' = mWeak o + (gains c (g_strong g x)).1 + (gains c (g_strong g x)).2.
Proof.
  intros Hinv Hx Ha Hown Hr Hmore. pose proof (live_counts _ _ _ _ _ _ Hinv Hx) as Hc. set (s := g_strong g x) in *.
  pose proof (iv_items _ _ _ Hinv _ _ (proj1 Hx)) as (Hw0 & Hc0 & (_ & Hhb & Hj & Hsent & Hrec)). simpl in *.
  pose proof (xc_nonneg _ _ _ Hc) as [Hs0 Hwn]. destruct (own_same c x g) as (O1 & O2 & O3). fold s in O1, O2.
  assert (Hpos : 0 < s + (gains c s).1 + (weak_of g x b + (gains c s).2)).
  { pose proof (xc_base _ _ _ Hc) as Eb. destruct Hx as [_ Hxa]. rewrite Hxa in Eb. symmetry in Eb. apply Z.ltb_lt in Eb.
    destruct c; simpl in *; try lia; try (specialize (Hmore ltac:(tauto)); lia). destruct (Z.ltb_spec 0 s); lia. }
  destruct (refs_live x c o b s (weak_of g x b) i d Hx Hc Ha Hr Hpos) as (o' & E & Hc').
  assert (Hba : base_alive o' = true) by (rewrite (xc_base _ _ _ Hc'); apply Z.ltb_lt; lia).
  exists o'. simpl. split; [exact E|]. split; [|split; [done|]].
  - apply (inv_proxy i d g (own c x g) x o b o' b); try done.
    + intros y Hy. destruct (own_other c x g y Hy) as (-> & E2 & ->). rewrite E2. split_and!; try done.
      destruct (i_heap i !! y) as [h|] eqn:Hyh; [by destruct (iv_items _ _ _ Hinv _ _ Hyh)|]. destruct (iv_none _ _ _ Hinv y Hyh) as (_ & -> & _). done.
    + unfold weak_of in Hc'. rewrite O1, O2, O3.
      by replace (g_weak g x + (gains c s).2 + asked b + g_clears g x) with (g_weak g x + asked b + g_clears g x + (gains c s).2) by lia.
    + rewrite O2. destruct c; simpl in *; lia.
    + destruct (says_balance c s (mHandle b) Hs0) as (B1 & B2 & B3 & B4). split; [done|]. split; [done|].
      rewrite (strong_held_eq _ _ _ Hc), (strong_held_eq _ _ _ Hc'). split; [|rewrite B3; lia].
      apply B4. destruct c; simpl in *; (by left) || (right; by left) || (right; by right).
  - rewrite (xc_weak _ _ _ Hc), (xc_weak _ _ _ Hc'). lia.
Qed.

(** ** The last reference *)

Lemma put_entry_parts h e i :
  i_heap (put_entry h e i) = i_heap i ∧ table (put_entry h e i) = <[slot h := e]> (table i) ∧ i_fresh (put_entry h e i) = i_fresh i ∧
  i_thread (put_entry h e i) = i_thread i ∧ mDriverFD (i_process (put_entry h e i)) = mDriverFD (i_process i).
Proof. by destruct i as [[] []]. Qed.

Lemma say_all_entry l h e i : say_all l (put_entry h e i) = put_entry h e (say_all l i).
Proof. rewrite !say_all_eq. by destruct i as [p []]. Qed.

(** The proxy at [x] is freed; [g'] owns nothing of it. *)
Lemma inv_freed i d g g' x o b o' new :
  inv i d g → live (i_heap i) x o b → mObituaries b = None → proxy_counts o' 0 0 →
  (∀ y, y ≠ x → g_strong g' y = g_strong g y ∧ g_weak g' y = g_weak g y ∧ g_clears g' y = g_clears g y) →
  g_strong g' x = 0 → g_weak g' x = 0 → g_clears g' x = 0 →
  Forall (λ ws, ∃ c r, ws = c :: mHandle b :: r) new →
  told (mHandle b) new = (-1, - b2z (strong_held o), 0) →
  inv (say_all new (put_item x (mk_item o' (Remote b)) (put_entry (mHandle b) (mk_handle 0 (getWeakRefs x)) i))) d g'.
Proof.
  intros Hinv Hx Ho Hc' Hg' G1 G2 G3 Hnew Htold. pose proof Hx as [Hxl Hxa].
  pose proof (iv_items _ _ _ Hinv _ _ Hxl) as (Hw0 & Hc0 & (_ & Hhb & Hj & Hsent & Hrec)). simpl in *.
  destruct (items_proxy i d g g' x o b o' b Hinv Hx eq_refl Hj Hsent Hrec) as [Hit Hnone]; rewrite ?G1, ?G2, ?G3; try done.
  { intros y Hy. destruct (Hg' y Hy) as (-> & E & ->). rewrite E. split_and!; try done.
    destruct (i_heap i !! y) as [h|] eqn:Hyh; [by destruct (iv_items _ _ _ Hinv _ _ Hyh)|]. by destruct (iv_none _ _ _ Hinv y Hyh) as (_ & -> & _). }
  { unfold asked; by rewrite Ho. }
  set (j := put_entry (mHandle b) _ i). destruct (put_entry_parts (mHandle b) (mk_handle 0 (getWeakRefs x)) i) as (J1 & J2 & J3 & J4 & J5).
  fold j in J1, J2, J3, J4, J5. set (k := put_item x (mk_item o' (Remote b)) j).
  destruct (put_item_parts x (mk_item o' (Remote b)) j) as (Q1 & Q2 & Q3 & Q4). fold k in Q1, Q2, Q3, Q4.
  destruct (say_all_parts new k) as (P1 & P2 & P3 & P4). set (i' := say_all new k) in *.
  rewrite Q1, J1 in P1. rewrite Q2 in P2. rewrite Q3, J3 in P3. rewrite Q4, J4 in P4.
  assert (Ht : table i' = <[slot (mHandle b) := mk_handle 0 (getWeakRefs x)]> (table i)) by (unfold table at 1; rewrite P2; exact J2).
  pose proof (tb_proxy i (iv_table _ _ _ Hinv) x o b Hx) as Hte.
  assert (Hdead : base_alive o' = false) by (by rewrite (xc_base _ _ _ Hc')).
  assert (Hne0 : x ≠ 0) by (intros ->; by rewrite (iv_null _ _ _ Hinv) in Hxl).
  constructor; rewrite ?P1, ?P2, ?P3; try done.
  - rewrite J5. apply (iv_fd _ _ _ Hinv).
  - rewrite lookup_insert_ne by done. apply (iv_null _ _ _ Hinv).
  - destruct (iv_fresh _ _ _ Hinv) as [Hnd Hf]. split; [done|]. intros y Hy. destruct (Hf y Hy) as [? Hn]. split; [done|].
    rewrite lookup_insert_ne; [done|]. intros ->. by rewrite Hn in Hxl.
  - destruct (iv_table _ _ _ Hinv) as [T1 T2 T3]. constructor; rewrite ?Ht, ?P1.
    + intros n e He Hen. destruct (decide (n = slot (mHandle b))) as [->|Hns].
      { rewrite list_lookup_insert_eq in He by (by apply lookup_lt_Some in Hte). injection He as <-. done. }
      rewrite list_lookup_insert_ne in He by done. destruct (T1 n e He Hen) as (E & oe & be & Hl & Hs). split; [done|].
      exists oe, be. split; [|done]. apply (live_put _ x o b o' b); [done|]. right. split; [|done]. intros Ex. rewrite Ex in Hl.
      destruct Hl as [Hl _]. rewrite Hxl in Hl. injection Hl as <- <-. done.
    + intros y oy bY [(_ & _ & _ & E)|[Hyx Hl]]%(live_put _ x o b o' b); [by rewrite Hdead in E| |done].
      rewrite list_lookup_insert_ne; [by apply (T2 y oy)|]. intros Es. pose proof (T2 y oy bY Hl) as E. rewrite <- Es, Hte in E. by injection E as ->.
    + by rewrite length_insert.
  - destruct (iv_told _ _ _ Hinv) as (cmds & Ec & Hcmds). exists (cmds ++ new). split.
    { by rewrite P4, fmap_app, concat_app, app_assoc, Ec. }
    intros h Hh'. pose proof (Hcmds h Hh') as E. unfold told in *. rewrite !balance_app.
    destruct (decide (h = mHandle b)) as [->|Hne].
    + assert (E' : needed (mHandle b) i' = (0, 0, 0)).
      { unfold needed. rewrite Ht, list_lookup_insert_eq by (by apply lookup_lt_Some in Hte). cbn [e_binder]. rewrite P1.
        rewrite lookup_insert_ne by done. by rewrite (iv_null _ _ _ Hinv). }
      assert (E2 : needed (mHandle b) i = (1, b2z (strong_held o), 0)).
      { unfold needed. rewrite Hte. cbn [e_binder]. rewrite Hxl. unfold asked. by rewrite Ho. }
      rewrite E2 in E. rewrite E'. injection E as -> -> ->. injection Htold as -> -> ->. f_equal; try lia; f_equal; lia.
    + rewrite !(balance_other _ _ h (mHandle b) new) by done. rewrite !Z.add_0_r, E. unfold needed. rewrite Ht, P1.
      rewrite list_lookup_insert_ne by (intros Es; apply Hne; symmetry; by apply slot_inj).
      destruct (table i !! slot h) as [e|] eqn:He; [|done].
      rewrite lookup_insert_ne; [done|]. intros Ex.
      destruct (tb_entry i (iv_table _ _ _ Hinv) _ _ He) as (_ & o2 & b2 & Hl & Hs); [congruence|]. rewrite <- Ex in Hl.
      destruct Hl as [Hl _]. rewrite Hxl in Hl. injection Hl as <- <-. apply Hne. symmetry. by apply slot_inj.
Qed.

Lemma last_proxy x c i d g o b :
  inv i d g → live (i_heap i) x o b → c = (if g_strong g x =? 1 then decStrong else decWeak) → owns c g x →
  g_strong g x + weak_of g x b = 1 →
  ∃ o' new, let i' := say_all new (put_item x (mk_item o' (Remote b)) (put_entry (mHandle b) (mk_handle 0 (getWeakRefs x)) i)) in
    refs attempt cleanup x c (i, d) = Ok (true, (i', d)) ∧ inv i' d (own c x g) ∧ base_alive o' = false.
Proof.
  intros Hinv Hx Ec Hown H1. pose proof (live_counts _ _ _ _ _ _ Hinv Hx) as Hc.
  pose proof (iv_items _ _ _ Hinv _ _ (proj1 Hx)) as (Hw0 & Hc0 & (_ & Hhb & Hj & Hsent & Hrec)). simpl in *.
  pose proof (xc_nonneg _ _ _ Hc) as [Hs0 Hwn].
  assert (Ho : mObituaries b = None).
  { unfold weak_of, asked in H1. destruct (mObituaries b) as [l|]; [|done]. exfalso.
    destruct (Z.eqb_spec (g_strong g x) 1); subst c; simpl in Hown; lia. }
  destruct (proxy_dies attempt cleanup x c o b _ _ (getWeakRefs x) i d Hc H1 Ec Ho Hj (tb_proxy i (iv_table _ _ _ Hinv) x o b Hx)) as (o' & E & Hc').
  exists o', (says c (g_strong g x) (mHandle b) ++ [[BC_DECREFS; mHandle b]]). simpl. destruct (own_same c x g) as (O1 & O2 & O3).
  assert (Hz : g_strong g x + (gains c (g_strong g x)).1 = 0 ∧ g_weak g x + (gains c (g_strong g x)).2 = 0 ∧ g_clears g x = 0).
  { unfold weak_of, asked in H1. rewrite Ho in H1. destruct (Z.eqb_spec (g_strong g x) 1) as [Es|Es]; subst c; simpl in *; lia. }
  destruct Hz as (Z1 & Z2 & Z3). split_and!.
  - rewrite (put_item_same _ _ _ (proj1 Hx)) in E. rewrite E. do 3 f_equal. by rewrite say_all_app, say_all_put, say_all_entry, <- put_said.
  - apply (inv_freed i d g (own c x g) x o b o'); try done; try congruence.
    + intros y Hy. by apply own_other.
    + apply Forall_app. split; [by apply says_balance|]. repeat constructor. eauto.
    + unfold told. rewrite !balance_app. destruct (says_balance c (g_strong g x) (mHandle b) Hs0) as (_ & -> & -> & B).
      rewrite B, Z1, (strong_held_eq _ _ _ Hc) by (subst c; destruct (Z.eqb_spec (g_strong g x) 1); simpl; [left; lia|tauto]).
      simpl. rewrite Z.eqb_refl. simpl. f_equal; try lia; f_equal; lia.
  - by rewrite (xc_base _ _ _ Hc').
Qed.

(** ** Objects of the program *)

Lemma count_program r c i d g o :
  inv i d g → i_heap i !! r = Some (mk_item o Program) →
  allowed c (g_strong g r) (g_weak g r + named r (i_heap i)) → owns c g r → room o →
  ∃ o', program_refs r c (i, d) = Ok (answer c (g_strong g r), (put_item r (mk_item o' Program) i, d)) ∧
    inv (put_item r (mk_item o' Program) i) d (own c r g) ∧
    mWeak o' = mWeak o + (gains c (g_strong g r)).1 + (gains c (g_strong g r)).2.
Proof.
  intros Hinv Hr Ha Hown Hroom. pose proof (iv_items _ _ _ Hinv _ _ Hr) as (Hw0 & Hc0 & Hc). simpl in Hc.
  unfold room in Hroom. rewrite (pc_weak _ _ _ Hc) in Hroom. pose proof (pc_nonneg _ _ _ Hc) as [Hs0 _].
  destruct (program_call c o _ _ Hc Ha ltac:(lia)) as (o' & E & Hc'). exists o'. destruct (own_same c r g) as (O1 & O2 & O3).
  set (s := g_strong g r) in *. split_and!.
  - unfold program_refs, mbind, st_bind, item_at. cbn [fst]. rewrite Hr. cbn [h_body].
    rewrite <- (put_item_same _ _ _ Hr) at 1. rewrite on_refs_eq, E. done.
  - destruct (put_item_parts r (mk_item o' Program) i) as (Q1 & Q2 & Q3 & Q4). set (k := put_item r _ i) in *.
    assert (Hn : ∀ y, named y (i_heap k) = named y (i_heap i)) by (intros y; rewrite Q1, (named_update _ _ _ _ _ Hr); unfold names; simpl; lia).
    assert (Hl : ∀ y oy bY, live (i_heap k) y oy bY ↔ live (i_heap i) y oy bY).
    { intros y oy bY. unfold live. rewrite Q1. destruct (decide (y = r)) as [->|Hy]; [|by rewrite lookup_insert_ne].
      rewrite lookup_insert_eq, Hr. by split; intros []. }
    assert (Ht : table k = table i) by (unfold table; by rewrite Q2).
    constructor; rewrite ?Q2, ?Q3; try done.
    + apply (iv_fd _ _ _ Hinv).
    + intros y h Hy. rewrite Q1 in Hy. destruct (decide (y = r)) as [->|Hyr].
      * rewrite lookup_insert_eq in Hy. injection Hy as <-. unfold item_ok. cbn [h_body h_refs]. rewrite O1, O2, O3, Hn. split_and!.
        -- destruct c; simpl in *; lia.
        -- done.
        -- by replace (g_weak g r + (gains c s).2 + named r (i_heap i)) with (g_weak g r + named r (i_heap i) + (gains c s).2) by lia.
      * rewrite lookup_insert_ne in Hy by done. destruct (own_other c r g y Hyr) as (E1 & E2 & E3).
        apply (item_ok_other g (own c r g) (i_heap i)); [by apply (iv_items _ _ _ Hinv)| |done|done| |by destruct (h_body h); rewrite ?Hn, E2].
        -- intros z h' Hz Hp. rewrite Q1. destruct (decide (z = r)) as [->|Hzr]; [by exists (mk_item o' Program); rewrite lookup_insert_eq|].
           exists h'. by rewrite lookup_insert_ne.
        -- rewrite E2. by destruct (iv_items _ _ _ Hinv _ _ Hy).
    + intros y Hy. rewrite Q1 in Hy. apply lookup_insert_None in Hy as [Hy Hyr]. destruct (own_other c r g y ltac:(congruence)) as (-> & -> & ->).
      by apply (iv_none _ _ _ Hinv).
    + rewrite Q1. rewrite lookup_insert_ne; [apply (iv_null _ _ _ Hinv)|]. intros ->. by rewrite (iv_null _ _ _ Hinv) in Hr.
    + destruct (iv_fresh _ _ _ Hinv) as [Hnd Hf]. split; [done|]. intros y Hy. destruct (Hf y Hy) as [? Hn']. split; [done|].
      rewrite Q1, lookup_insert_ne; [done|]. intros ->. by rewrite Hn' in Hr.
    + destruct (iv_table _ _ _ Hinv) as [T1 T2 T3]. constructor; rewrite ?Ht.
      * intros n e He Hne. destruct (T1 n e He Hne) as (E1 & oe & be & Hle & Hs). split; [done|]. exists oe, be. by rewrite Hl.
      * intros y oy bY Hy%Hl. by apply (T2 y oy).
      * done.
    + destruct (iv_told _ _ _ Hinv) as (cmds & Ec & Hcmds). exists cmds. rewrite Q4. split; [done|]. intros h Hh. rewrite (Hcmds h Hh).
      unfold needed. rewrite Ht, Q1. destruct (table i !! slot h) as [e|]; [|done]. destruct (decide (e_binder e = r)) as [->|Her].
      * by rewrite lookup_insert_eq, Hr.
      * by rewrite lookup_insert_ne.
  - rewrite (pc_weak _ _ _ Hc), (pc_weak _ _ _ Hc'). lia.
Qed.

(** ** Flushing *)

Definition flushed i : ipc := i <| i_thread %= λ t, t <| mOut := [] |> |>.

Lemma flush_eq i d :
  0 < mDriverFD (i_process i) →
  ∃ d', flushCommands (i, d) = Ok (tt, (flushed i, d')) ∧ sent d' = sent d ++ mOut (i_thread i) ∧ reports d' = reports d.
Proof.
  intros Hfd.
  assert (Hres : ∃ d', talkWithDriver false (i, d) = Ok (NO_ERROR, (flushed i, d')) ∧ sent d' = sent d ++ mOut (i_thread i) ∧ reports d' = reports d).
  { unfold talkWithDriver, prc, thr, mbind, st_bind, gets. cbn [fst]. rewrite (proj2 (Z.leb_gt _ _)) by done. cbn [negb orb andb].
    case_bool_decide as Ho; cbn [fst] in Ho.
    - exists d. cbn. rewrite Ho, app_nil_r. split; [|done]. unfold mret, st_ret. do 3 f_equal. destruct i as [p [] ]. simpl in *. by subst.
    - cbn [andb]. cbn [write_read]. unfold prc, on_memory, mbind, st_bind, gets. cbn [fst].
      destruct (takes_all (mDriverFD (i_process i)) (mOut (i_thread i)) 0 (i_mem i) d Hfd (Z.le_refl 0)) as (bytes & d' & E & Es & Er & Hb).
      exists d'. cbn [fst snd]. rewrite E. unfold mret, st_ret. cbn [fst snd].
      assert (bytes = []) as -> by (destruct bytes; [done|simpl in Hb; lia]).
      replace (i_process (i <| i_mem := i_mem i |>)) with (i_process i) by (by destruct i). rewrite (proj2 (Z.leb_gt _ _)) by done.
      change (0 >=? 0) with true. cbv beta iota zeta. change (NO_ERROR =? - EINTR) with false. change (NO_ERROR >=? NO_ERROR) with true.
      cbv beta iota. assert (0 < Z.of_nat (length (mOut (i_thread i)))) by (destruct (mOut (i_thread i)); [done|simpl; lia]).
      rewrite Z.gtb_ltb, (proj2 (Z.ltb_lt 0 _)) by done. unfold when, mbind, st_bind, thr, gets. cbn [fst].
      change (NO_ERROR >=? NO_ERROR) with true. cbv beta iota. cbn [fst].
      replace (i_thread (i <| i_mem := i_mem i |>)) with (i_thread i) by (by destruct i). rewrite Z.ltb_irrefl.
      done. }
  destruct Hres as (d' & E & Es & Er). exists d'. split; [|done].
  unfold flushCommands, prc, mbind, st_bind, gets. cbn [fst]. rewrite (proj2 (Z.leb_gt _ _)) by done. by rewrite E.
Qed.

Lemma inv_flushed i d d' g : inv i d g → sent d' = sent d ++ mOut (i_thread i) → inv (flushed i) d' g.
Proof.
  intros Hinv Es.
  assert (Hp : i_heap (flushed i) = i_heap i ∧ i_process (flushed i) = i_process i ∧ i_fresh (flushed i) = i_fresh i ∧ mOut (i_thread (flushed i)) = [])
    by (by destruct i as [p []]).
  destruct Hp as (P1 & P2 & P3 & P4). assert (Ht : table (flushed i) = table i) by (unfold table; by rewrite P2).
  destruct Hinv as [H1 H2 H3 H4 H5 H6 H7]. constructor; rewrite ?P1, ?P2, ?P3, ?P4; try done.
  - destruct H6 as [T1 T2 T3]. constructor; by rewrite ?Ht, ?P1.
  - destruct H7 as (cmds & Ec & Hcmds). exists cmds. split; [by rewrite app_nil_r, Es|]. intros h Hh. rewrite (Hcmds h Hh).
    unfold needed. by rewrite Ht, P1.
Qed.

(** ** The table, and new proxies *)

Lemma handle_lookup_ok handle i d g :
  inv i d g → ∃ r i', lookupHandleLocked handle (i, d) = Ok (r, (i', d)) ∧ inv i' d g ∧ i_heap i' = i_heap i ∧ i_fresh i' = i_fresh i ∧
    match r with Some e => table i' !! slot handle = Some e | None => i' = i end.
Proof.
  intros Hinv. destruct (table i !! slot handle) as [e|] eqn:He.
  { exists (Some e), i. split_and!; try done. by apply lookup_entry. }
  apply lookup_ge_None in He. unfold slot, table in He. pose proof (u32_range handle).
  unfold lookupHandleLocked, prc, mbind, st_bind, gets. cbn [fst]. rewrite (proj2 (Z.leb_le _ _)) by lia.
  destruct (Z.gtb_spec (u32 handle + 1) max_handles) as [Hgt|Hle]; [by exists None, i|].
  set (n := Z.to_nat (u32 handle + 1 - Z.of_nat (length (mHandleToObject (i_process i))))).
  set (i' := i <| i_process %= λ p, p <| mHandleToObject %= λ l, l ++ replicate n (mk_handle 0 0) |> |>).
  assert (Hp : i_heap i' = i_heap i ∧ table i' = table i ++ replicate n (mk_handle 0 0) ∧ i_fresh i' = i_fresh i ∧ i_thread i' = i_thread i ∧
    mDriverFD (i_process i') = mDriverFD (i_process i)) by (by destruct i as [[] []]).
  destruct Hp as (P1 & P2 & P3 & P4 & P5).
  assert (Hn : table i' !! slot handle = Some (mk_handle 0 0)).
  { rewrite P2, lookup_app_r by (unfold table, slot; lia). apply lookup_replicate. split; [done|]. unfold table, slot. lia. }
  exists (Some (mk_handle 0 0)), i'. split; [|split_and!; try done].
  { unfold set_process, set_ipc, modify. cbn [fst snd]. fold i'. unfold mret, st_ret. fold (table i') (slot handle). by rewrite Hn. }
  assert (Hold : ∀ m e, table i' !! m = Some e → table i !! m = Some e ∨ e_binder e = 0).
  { intros m e. rewrite P2. intros [Hm|[_ Hm]]%lookup_app_Some; [by left|]. apply lookup_replicate in Hm as [-> _]. by right. }
  destruct Hinv as [H1 H2 H3 H4 H5 [T1 T2 T3] (cmds & Ec & Hc)]. constructor; rewrite ?P1, ?P3, ?P4, ?P5; try done.
  - constructor; rewrite ?P1.
    + intros m e [Hm|Hm]%Hold Hne; [by apply T1|by rewrite Hm in Hne].
    + intros x o b Hx. rewrite P2. by apply lookup_app_l_Some, (T2 x o).
    + rewrite P2, length_app, length_replicate. unfold table in *. lia.
  - exists cmds. split; [done|]. intros h Hh. rewrite (Hc h Hh). unfold needed. rewrite P1.
    destruct (table i !! slot h) as [e|] eqn:He'.
    + rewrite P2. by rewrite (lookup_app_l_Some _ _ _ _ He').
    + destruct (table i' !! slot h) as [e|] eqn:He2; [|done]. destruct (Hold _ _ He2) as [E|E]; [by rewrite E in He'|by rewrite E, H4].
Qed.

Lemma inv_new i d g g' h x l e o new :
  inv i d g → i_fresh i = x :: l → table i !! slot h = Some e → e_binder e = 0 → 0 <= h < 2 ^ 32 →
  (∀ y, y ≠ x → g_strong g' y = g_strong g y ∧ g_weak g' y = g_weak g y ∧ g_clears g' y = g_clears g y) →
  0 <= g_weak g' x → g_clears g' x = 0 → proxy_counts o (g_strong g' x) (g_weak g' x) → base_alive o = true →
  Forall (λ ws, ∃ c r, ws = c :: h :: r) new → told h new = (1, b2z (strong_held o), 0) →
  inv (say_all new (put_item x (mk_item o (Remote (mk_proxy h true false None [])))
        (put_entry h (mk_handle x (getWeakRefs x)) (i <| i_fresh := l |>)))) d g'.
Proof.
  intros Hinv Hf He He0 Hh Hg' Gw Gc Hcnt Ha Hnew Htold. set (b := mk_proxy h true false None []).
  destruct (iv_fresh _ _ _ Hinv) as [Hnd Hfr]. rewrite Hf in Hnd, Hfr. apply NoDup_cons in Hnd as [Hxl Hnd].
  destruct (Hfr x ltac:(by left)) as [Hx0 Hx].
  set (i' := say_all new _).
  assert (Hp : i_heap i' = <[x := mk_item o (Remote b)]> (i_heap i) ∧ table i' = <[slot h := mk_handle x (getWeakRefs x)]> (table i) ∧ i_fresh i' = l ∧
    mDriverFD (i_process i') = mDriverFD (i_process i) ∧ mOut (i_thread i') = mOut (i_thread i) ++ concat (encode <$> new))
    by (unfold i'; rewrite say_all_eq; by destruct i as [[] []]).
  destruct Hp as (P1 & P2 & P3 & P4 & P5).
  assert (Hn : ∀ y, named y (i_heap i') = named y (i_heap i)) by (intros y; rewrite P1; unfold named; by rewrite msum_insert).
  assert (Hlive : ∀ y oy bY, live (i_heap i') y oy bY ↔ (y = x ∧ oy = o ∧ bY = b) ∨ live (i_heap i) y oy bY).
  { intros y oy bY. unfold live. rewrite P1. destruct (decide (y = x)) as [->|Hy].
    - rewrite lookup_insert_eq, Hx. split; [intros [[= -> ->] _]; by left|intros [(_ & -> & ->)|[]]; done].
    - rewrite lookup_insert_ne by done. split; [by right|intros [(-> & _)|?]; done]. }
  pose proof (lookup_lt_Some _ _ _ He) as Hlt.
  constructor; rewrite ?P3, ?P4; try done.
  - apply (iv_fd _ _ _ Hinv).
  - intros y hy Hy. rewrite P1 in Hy. destruct (decide (y = x)) as [->|Hyx].
    + rewrite lookup_insert_eq in Hy. injection Hy as <-. unfold item_ok. cbn [h_body h_refs]. rewrite Gc.
      replace (g_weak g' x + asked b + 0) with (g_weak g' x) by (unfold b, asked; simpl; lia). unfold b. cbn [mHandle mObjects mObitsSent mObituaries].
      split_and!; try done; lia || constructor.
    + rewrite lookup_insert_ne in Hy by done. destruct (Hg' y Hyx) as (E1 & E2 & E3).
      apply (item_ok_other g g' (i_heap i)); [by apply (iv_items _ _ _ Hinv)| |done|done| |by destruct (h_body hy); rewrite ?Hn, E2].
      * intros z h' Hz Hpz. exists h'. split; [|done]. rewrite P1, lookup_insert_ne; [done|]. intros <-. by rewrite Hx in Hz.
      * rewrite E2. by destruct (iv_items _ _ _ Hinv _ _ Hy).
  - intros y Hy. rewrite P1 in Hy. apply lookup_insert_None in Hy as [Hy Hyx]. destruct (Hg' y ltac:(congruence)) as (-> & -> & ->).
    by apply (iv_none _ _ _ Hinv).
  - rewrite P1, lookup_insert_ne by done. apply (iv_null _ _ _ Hinv).
  - split; [done|]. intros y Hy. destruct (Hfr y ltac:(by right)) as [? Hyn]. split; [done|]. rewrite P1, lookup_insert_ne; [done|]. by intros <-.
  - destruct (iv_table _ _ _ Hinv) as [T1 T2 T3]. constructor; rewrite ?P2.
    + intros n e2 He2 Hne. destruct (decide (n = slot h)) as [->|Hns].
      * rewrite list_lookup_insert_eq in He2 by done. injection He2 as <-. split; [done|]. exists o, b. split; [|done]. apply Hlive. by left.
      * rewrite list_lookup_insert_ne in He2 by done. destruct (T1 n e2 He2 Hne) as (E & oe & be & Hl & Hs). split; [done|].
        exists oe, be. split; [|done]. apply Hlive. by right.
    + intros y oy bY [(-> & -> & ->)|Hl]%Hlive; [by apply list_lookup_insert_eq|].
      destruct (decide (slot (mHandle bY) = slot h)) as [Es|Es].
      * exfalso. pose proof (T2 y oy bY Hl) as E. rewrite Es, He in E. injection E as ->. simpl in He0. subst y.
        destruct Hl as [Hl _]. by rewrite (iv_null _ _ _ Hinv) in Hl.
      * rewrite list_lookup_insert_ne by done. by apply (T2 y oy).
    + by rewrite length_insert.
  - destruct (iv_told _ _ _ Hinv) as (cmds & Ec & Hcmds). exists (cmds ++ new). split.
    { by rewrite P5, fmap_app, concat_app, app_assoc, Ec. }
    intros k Hk. pose proof (Hcmds k Hk) as E. unfold told in *. rewrite !balance_app. destruct (decide (k = h)) as [->|Hne].
    + assert (E' : needed h i' = (1, b2z (strong_held o), 0)).
      { unfold needed. rewrite P2, list_lookup_insert_eq by done. cbn [e_binder]. by rewrite P1, lookup_insert_eq. }
      assert (E2 : needed h i = (0, 0, 0)) by (unfold needed; by rewrite He, He0, (iv_null _ _ _ Hinv)).
      rewrite E2 in E. rewrite E'. injection E as -> -> ->. injection Htold as -> -> ->. done.
    + rewrite !(balance_other _ _ k h new) by done. rewrite !Z.add_0_r, E. unfold needed. rewrite P2, P1.
      rewrite list_lookup_insert_ne by (intros Es; apply Hne; symmetry; by apply slot_inj).
      destruct (table i !! slot k) as [e2|] eqn:He2; [|done].
      destruct (decide (e_binder e2 = x)) as [Ex|Ex]; [|by rewrite lookup_insert_ne].
      exfalso. destruct (tb_entry i (iv_table _ _ _ Hinv) _ _ He2) as (_ & o2 & b2 & [Hl _] & _); [congruence|]. by rewrite Ex, Hx in Hl.
Qed.

(** ** Finding proxies *)

Definition same_ghost g g' : Prop := ∀ y, g_strong g' y = g_strong g y ∧ g_weak g' y = g_weak g y ∧ g_clears g' y = g_clears g y.

Lemma inv_ext i d g g' : inv i d g → same_ghost g g' → inv i d g'.
Proof.
  intros Hinv Hg. constructor; try apply Hinv.
  - intros x h Hx. destruct (Hg x) as (E1 & E2 & E3). pose proof (iv_items _ _ _ Hinv x h Hx) as H. unfold item_ok in *. by rewrite E1, E2, E3.
  - intros x Hx. destruct (Hg x) as (-> & -> & ->). by apply (iv_none _ _ _ Hinv).
Qed.

(** No count is near its limit. *)
Definition roomy i : Prop := map_Forall (λ _ h, mWeak (h_refs h) + 4 < INITIAL_STRONG_VALUE) (i_heap i).

Lemma heap_say l x h i : i_heap (say_all l (put_item x h i)) = <[x := h]> (i_heap i).
Proof. destruct (say_all_parts l (put_item x h i)) as (-> & _). apply heap_put. Qed.

Lemma live_say l x b o' i : base_alive o' = true → live (i_heap (say_all l (put_item x (mk_item o' (Remote b)) i))) x o' b.
Proof. intros Ha. rewrite heap_say. split; [apply lookup_insert_eq|done]. Qed.

Lemma live_pos i d g x o b : inv i d g → live (i_heap i) x o b → 0 < g_strong g x + weak_of g x b ∧ x ≠ 0.
Proof.
  intros Hinv Hx. split.
  - pose proof (xc_base _ _ _ (live_counts _ _ _ _ _ _ Hinv Hx)) as E. destruct Hx as [_ Hx]. rewrite Hx in E. symmetry in E. by apply Z.ltb_lt in E.
  - intros ->. destruct Hx as [Hx _]. by rewrite (iv_null _ _ _ Hinv) in Hx.
Qed.

(** The current proxy of a handle, which gets one more weak reference. *)
Lemma current_ok i d g h e :
  inv i d g → table i !! slot h = Some e → roomy i → 0 <= h < 2 ^ 32 →
  (e_binder e = 0 ∧ current_proxy attempt cleanup e (i, d) = Ok (false, (i, d))) ∨
  (∃ o b o', live (i_heap i) (e_binder e) o b ∧ mHandle b = h ∧ e_refs e = getWeakRefs (e_binder e) ∧ base_alive o' = true ∧
     mWeak o' = mWeak o + 1 ∧
     let i' := put_item (e_binder e) (mk_item o' (Remote b)) i in
     current_proxy attempt cleanup e (i, d) = Ok (true, (i', d)) ∧ inv i' d (own attemptIncWeak (e_binder e) g)).
Proof.
  intros Hinv He Hroom Hh. unfold current_proxy. destruct (Z.eqb_spec (e_binder e) 0) as [E0|E0]; [by left|right].
  destruct (tb_entry i (iv_table _ _ _ Hinv) _ _ He E0) as (Er & o & b & Hl & Hs). rewrite Er, refBase_getWeakRefs.
  pose proof (Hroom _ _ (proj1 Hl)) as Hr. destruct (live_pos _ _ _ _ _ _ Hinv Hl) as [Hpos _].
  destruct (count_proxy (e_binder e) attemptIncWeak i d g o b Hinv Hl Hpos I) as (o' & E & Hinv' & Ha & Hw); [unfold room; simpl in Hr; lia|by intros [|]|].
  exists o, b, o'. split; [done|]. split; [|simpl in *; split_and!; try done; lia].
  pose proof (iv_items _ _ _ Hinv _ _ (proj1 Hl)) as (_ & _ & (_ & Hhb & _)). by apply slot_inj.
Qed.

(** A call on a proxy that stays alive, in a sequence of calls. *)
Lemma count_next x c i d g o b :
  inv i d g → live (i_heap i) x o b → proxy_allowed c (g_strong g x) (weak_of g x b) → owns c g x → room o →
  (c = decStrong ∨ c = decWeak → 1 < g_strong g x + weak_of g x b) →
  ∃ i' o', refs attempt cleanup x c (i, d) = Ok (true, (i', d)) ∧ inv i' d (own c x g) ∧ live (i_heap i') x o' b ∧
    mWeak o' = mWeak o + (gains c (g_strong g x)).1 + (gains c (g_strong g x)).2 ∧ i_fresh i' = i_fresh i.
Proof.
  intros Hinv Hx Ha Hown Hr Hmore. destruct (count_proxy x c i d g o b Hinv Hx Ha Hown Hr Hmore) as (o' & E & Hinv' & Hal & Hw).
  eexists _, o'. split; [exact E|]. split; [exact Hinv'|]. split; [by apply live_say|]. split; [done|].
  destruct (say_all_parts (says c (g_strong g x) (mHandle b)) (put_item x (mk_item o' (Remote b)) i)) as (_ & _ & -> & _). by destruct i.
Qed.

(** Take the proxy that is there: with [c], then without the weak reference of [attemptIncWeak]. *)
Lemma taken_ok c i d g x o b :
  c = forceIncStrong ∨ c = createWeak →
  inv i d (own attemptIncWeak x g) → live (i_heap i) x o b → mWeak o + 2 < INITIAL_STRONG_VALUE - 1 → 0 <= g_weak g x →
  ∃ i' o', (refs attempt cleanup x c ;; refs attempt cleanup x decWeak ;; mret x) (i, d) = Ok (x, (i', d)) ∧ inv i' d (own c x g) ∧
    live (i_heap i') x o' b.
Proof.
  intros Hc Hinv Hx Hr Hw0. destruct (own_same attemptIncWeak x g) as (O1 & O2 & O3). cbn [gains fst snd] in O1, O2. rewrite Z.add_0_r in O1.
  pose proof (xc_nonneg _ _ _ (live_counts _ _ _ _ _ _ Hinv Hx)) as [Hs0 _]. rewrite O1 in Hs0.
  pose proof (iv_items _ _ _ Hinv _ _ (proj1 Hx)) as (_ & Hcl & _). rewrite O3 in Hcl.
  assert (Has : 0 <= asked b) by (unfold asked; destruct (mObituaries b); lia).
  destruct (count_next x c i d _ o b Hinv Hx) as (i1 & o1 & E1 & Hinv1 & Hx1 & Hw1 & _).
  { destruct (live_pos _ _ _ _ _ _ Hinv Hx) as [Hpos _]. by destruct Hc as [->| ->]. }
  { by destruct Hc as [->| ->]. } { unfold room. lia. } { by destruct Hc as [->| ->]; intros [|]. }
  set (g1 := own c x (own attemptIncWeak x g)) in *.
  assert (G : g_strong g1 x + g_weak g1 x = g_strong g x + g_weak g x + 2 ∧ g_clears g1 x = g_clears g x ∧ 0 < g_weak g1 x).
  { unfold g1. destruct (own_same c x (own attemptIncWeak x g)) as (-> & -> & ->). rewrite O1, O2, O3. destruct Hc as [->| ->]; simpl; lia. }
  destruct G as (G1 & G2 & G3).
  destruct (count_next x decWeak i1 d g1 o1 b Hinv1 Hx1) as (i2 & o2 & E2 & Hinv2 & Hx2 & _).
  { cbn [proxy_allowed]. unfold weak_of. lia. } { done. } { unfold room. destruct Hc as [->| ->]; cbn [gains fst snd] in Hw1; lia. } { intros _. unfold weak_of. lia. }
  exists i2, o2. split; [|split; [|done]].
  - unfold mbind, st_bind. rewrite E1, E2. done.
  - eapply inv_ext; [exact Hinv2|]. intros y. unfold g1. destruct (decide (y = x)) as [->|Hy].
    + destruct (own_same c x g) as (-> & -> & ->). destruct (own_same decWeak x (own c x (own attemptIncWeak x g))) as (-> & -> & ->).
      destruct (own_same c x (own attemptIncWeak x g)) as (-> & -> & ->). rewrite O1, O2, O3. destruct Hc as [->| ->]; simpl; lia.
    + destruct (own_other c x g y Hy) as (-> & -> & ->). destruct (own_other decWeak x (own c x (own attemptIncWeak x g)) y Hy) as (-> & -> & ->).
      destruct (own_other c x (own attemptIncWeak x g) y Hy) as (-> & -> & ->). destruct (own_other attemptIncWeak x g y Hy) as (-> & -> & ->). done.
Qed.
End invariant.
End ProxiesInv.
