(* ===== verification/BpBinderRuns.v ===== *)
(** Runs of the proxies of a process: whatever the program does with the
    references it owns, the table of proxies stays well formed and the driver is
    told what it needs to know; who asked for a death is told once. *)
From S2P Require Import Prelude BinderUapi RefBase IpcState BpBinder BpBinderSpec BpBinderInv.
Import Ipc Proxies Refs ProxiesSpec ProxiesInv.

Module ProxiesRuns.

(** The first action of the program in the goal, given what it does. *)
Tactic Notation "mstep" uconstr(H) :=
  lazymatch goal with
  | |- (?m ≫= ?f) ?s = _ => let E := fresh in eassert (E : m s = _) by (eapply H); transitivity (match m s with Ok (a, s') => f a s' | Oops o => Oops o end); [reflexivity|rewrite E]; clear E; cbv beta iota
  end.

Section ops.
Context {D : Type} {DV : Device D} {RD : Reliable D} {RL : ReliableLaws D} {MA : Machine} {ML : MachineLaws}.
Context (attempt : Z → Ipc.M (D := D) Z) (cleanup : Z → entry → Ipc.M (D := D) unit).
Implicit Types (i : ipc) (d : D) (g : ghost) (b : proxy).

(** ** Proxies for handles *)

Lemma new_ok c new i d g h x l e :
  c = incStrong ∧ new = [[BC_INCREFS; h]; [BC_ACQUIRE; h]] ∨ c = createWeak ∧ new = [[BC_INCREFS; h]] →
  inv i d g → i_fresh i = x :: l → table i !! slot h = Some e → e_binder e = 0 → 0 <= h < 2 ^ 32 →
  ∃ o, let b := mk_proxy h true false None [] in
    (∀ j, refs attempt cleanup x c (put_item x (mk_item (new_object OBJECT_LIFETIME_WEAK) (Remote b)) j, d) =
      Ok (true, (put_item x (mk_item o (Remote b)) (say_all (tail new) j), d))) ∧ base_alive o = true ∧
    inv (say_all new (put_item x (mk_item o (Remote b)) (put_entry h (mk_handle x (getWeakRefs x)) (i <| i_fresh := l |>)))) d (own c x g).
Proof.
  intros Hc Hinv Hf He He0 Hh. destruct (iv_fresh _ _ _ Hinv) as [_ Hfr]. destruct (Hfr x) as [_ Hx]; [rewrite Hf; by left|].
  destruct (iv_none _ _ _ Hinv x Hx) as (G1 & G2 & G3). set (b := mk_proxy h true false None []).
  destruct (first_reference attempt cleanup x c b) as (o & Hcnt & E); [tauto|]. exists o. cbn zeta.
  assert (Ha : base_alive o = true) by (rewrite (xc_base _ _ _ Hcnt); destruct Hc as [[-> _]|[-> _]]; done).
  destruct (own_same c x g) as (O1 & O2 & O3). rewrite G1 in O1, O2. rewrite G2 in O2. split; [|split; [done|]].
  - intros j. rewrite E. by destruct Hc as [[-> ->]|[-> ->]].
  - apply (inv_new i d g (own c x g) h x l e o new); try done.
    + intros y Hy. by apply own_other.
    + rewrite O2. destruct Hc as [[-> _]|[-> _]]; simpl; lia.
    + by rewrite O1, O2.
    + destruct Hc as [[_ ->]|[_ ->]]; repeat constructor; eauto.
    + rewrite (strong_held_eq _ _ _ Hcnt). destruct Hc as [[-> ->]|[-> ->]]; unfold told; simpl; by rewrite Z.eqb_refl.
Qed.

Definition found_ok (c : op) (h : Z) (m : Ipc.M (D := D) Z) i d g : Prop :=
  ∃ r i', m (i, d) = Ok (r, (i', d)) ∧ inv i' d (if r =? 0 then g else own c r g) ∧
    (r ≠ 0 → ∃ o b, live (i_heap i') r o b ∧ mHandle b = h).

Lemma taken_found c h i d g x o b :
  c = forceIncStrong ∨ c = createWeak → x ≠ 0 →
  inv i d (own attemptIncWeak x g) → live (i_heap i) x o b → mWeak o + 2 < INITIAL_STRONG_VALUE - 1 → 0 <= g_weak g x → mHandle b = h →
  found_ok (if c is forceIncStrong then incStrong else createWeak) h (refs attempt cleanup x c ;; refs attempt cleanup x decWeak ;; mret x) i d g.
Proof.
  intros Hc Hx0 Hinv Hx Hr Hw Hh. destruct (taken_ok attempt cleanup c i d g x o b Hc Hinv Hx Hr Hw) as (i' & o' & E & Hinv' & Hx').
  exists x, i'. split; [exact E|]. rewrite (proj2 (Z.eqb_neq x 0)) by done. split; [|by eauto].
  by destruct Hc as [->| ->].
Qed.

Lemma lookup_next {B} handle (f : option handle_entry → Ipc.M (D := D) B) i d r i' :
  lookupHandleLocked handle (i, d) = Ok (r, (i', d)) → (lookupHandleLocked handle ≫= f) (i, d) = f r (i', d).
Proof. apply st_bind_eq. Qed.

Lemma roomy_heap i i' : roomy i → i_heap i' = i_heap i → roomy i'.
Proof. intros Hr E x h. rewrite E. apply Hr. Qed.

Lemma getStrong_ok h i d g :
  inv i d g → roomy i → 0 <= h < 2 ^ 32 → i_fresh i ≠ [] → found_ok incStrong h (getStrongProxyForHandle attempt cleanup h) i d g.
Proof.
  intros Hinv Hroom Hh Hf. destruct (handle_lookup_ok h i d g Hinv) as (r & j & El & Hinv' & Eh & Ef & He).
  unfold found_ok, getStrongProxyForHandle. rewrite (lookup_next _ _ _ _ _ _ El). destruct r as [e|].
  2:{ subst j. exists 0, i. by split_and!. }
  pose proof (roomy_heap _ _ Hroom Eh) as Hroom'.
  destruct (current_ok attempt cleanup j d g h e Hinv' He Hroom' Hh) as [[E0 Ec]|(o & b & o' & Hl & Hb & Er & Ha & Hw & Ec & Hinv2)].
  - rewrite (st_bind_eq _ _ _ _ _ Ec). rewrite <- Ef in Hf. destruct (i_fresh j) as [|x l] eqn:Efr; [done|].
    rewrite (st_bind_eq _ _ _ _ _ (new_proxy_eq h x l j d Efr)). destruct (iv_fresh _ _ _ Hinv') as [_ Hfr].
    destruct (Hfr x) as [Hx0 _]; [rewrite Efr; by left|].
    destruct (new_ok incStrong _ j d g h x l e (or_introl (conj eq_refl eq_refl)) Hinv' Efr He E0 Hh) as (o & E & Ha & Hinv2).
    eexists x, _. split; [|split; [rewrite (proj2 (Z.eqb_neq x 0)) by done; exact Hinv2|]].
    + mstep (set_entry_eq h (mk_handle x (getWeakRefs x))).
      specialize (E (put_entry h (mk_handle x (getWeakRefs x)) (said [BC_INCREFS; h] (j <| i_fresh := l |>)))).
      mstep E. rewrite say_all_put. by destruct j as [[] []].
    + intros _. exists o, (mk_proxy h true false None []). split; [by apply live_say|done].
  - rewrite (st_bind_eq _ _ _ _ _ Ec). cbv beta iota. destruct (live_pos _ _ _ _ _ _ Hinv' Hl) as [_ Hx0]. rewrite Er, refBase_getWeakRefs.
    apply (taken_found forceIncStrong h _ d g (e_binder e) o' b); try done; [by left|by split; [rewrite heap_put; apply lookup_insert_eq|]| |].
    + pose proof (Hroom' _ _ (proj1 Hl)) as H. simpl in H. lia.
    + by destruct (iv_items _ _ _ Hinv' _ _ (proj1 Hl)).
Qed.

Lemma getWeak_ok h i d g :
  inv i d g → roomy i → 0 <= h < 2 ^ 32 → i_fresh i ≠ [] → found_ok createWeak h (getWeakProxyForHandle attempt cleanup h) i d g.
Proof.
  intros Hinv Hroom Hh Hf. destruct (handle_lookup_ok h i d g Hinv) as (r & j & El & Hinv' & Eh & Ef & He).
  unfold found_ok, getWeakProxyForHandle. rewrite (lookup_next _ _ _ _ _ _ El). destruct r as [e|].
  2:{ subst j. exists 0, i. by split_and!. }
  pose proof (roomy_heap _ _ Hroom Eh) as Hroom'.
  destruct (current_ok attempt cleanup j d g h e Hinv' He Hroom' Hh) as [[E0 Ec]|(o & b & o' & Hl & Hb & Er & Ha & Hw & Ec & Hinv2)].
  - rewrite (st_bind_eq _ _ _ _ _ Ec). rewrite <- Ef in Hf. destruct (i_fresh j) as [|x l] eqn:Efr; [done|].
    rewrite (st_bind_eq _ _ _ _ _ (new_proxy_eq h x l j d Efr)). destruct (iv_fresh _ _ _ Hinv') as [_ Hfr].
    destruct (Hfr x) as [Hx0 _]; [rewrite Efr; by left|].
    destruct (new_ok createWeak _ j d g h x l e (or_intror (conj eq_refl eq_refl)) Hinv' Efr He E0 Hh) as (o & E & Ha & Hinv2).
    eexists x, _. split; [|split; [rewrite (proj2 (Z.eqb_neq x 0)) by done; exact Hinv2|]].
    + rewrite put_said. mstep (E (said [BC_INCREFS; h] (j <| i_fresh := l |>))).
      mstep (set_entry_eq h (mk_handle x (getWeakRefs x))). rewrite say_all_put. by destruct j as [[] []].
    + intros _. exists o, (mk_proxy h true false None []). split; [by apply live_say|done].
  - rewrite (st_bind_eq _ _ _ _ _ Ec). cbv beta iota. destruct (live_pos _ _ _ _ _ _ Hinv' Hl) as [_ Hx0]. rewrite Er, refBase_getWeakRefs.
    apply (taken_found createWeak h _ d g (e_binder e) o' b); try done; [by right|by split; [rewrite heap_put; apply lookup_insert_eq|]| |].
    + pose proof (Hroom' _ _ (proj1 Hl)) as H. simpl in H. lia.
    + by destruct (iv_items _ _ _ Hinv' _ _ (proj1 Hl)).
Qed.

(** ** Counting *)

(** What the program must own of an object to make a call on it. *)
Definition may_count (c : op) i g (x : Z) : Prop :=
  match i_heap i !! x with
  | Some (mk_item o (Remote _)) => base_alive o = true ∧ proxy_allowed c (g_strong g x) (g_weak g x)
  | Some (mk_item _ Program) => allowed c (g_strong g x) (g_weak g x)
  | None => False
  end.

Lemma asked_nonneg b : 0 <= asked b.
Proof. unfold asked. destruct (mObituaries b); lia. Qed.

Lemma count_ok c x i d g :
  inv i d g → roomy i → may_count c i g x →
  ∃ r i', refs attempt cleanup x c (i, d) = Ok (r, (i', d)) ∧ inv i' d (own c x g).
Proof.
  intros Hinv Hroom Hm. unfold may_count in Hm. destruct (i_heap i !! x) as [[o [b|]]|] eqn:Hx; [|..|done].
  - destruct Hm as [Ha Hm]. assert (Hl : live (i_heap i) x o b) by done. pose proof (Hroom _ _ Hx) as Hr. simpl in Hr.
    pose proof (iv_items _ _ _ Hinv _ _ Hx) as (Hw0 & Hc0 & (Hcnt & _)). cbn [h_body h_refs] in Hcnt.
    pose proof (xc_nonneg _ _ _ Hcnt) as [Hs0 Hwn]. pose proof (asked_nonneg b) as Hb0.
    assert (Hal : proxy_allowed c (g_strong g x) (weak_of g x b)) by (unfold weak_of; destruct c; simpl in *; lia).
    assert (Hown : owns c g x) by (by destruct c).
    destruct (decide (c = decStrong ∨ c = decWeak)) as [Hd|Hd]; [destruct (decide (g_strong g x + weak_of g x b = 1)) as [H1|H1]|].
    + destruct (last_proxy attempt cleanup x c i d g o b Hinv Hl) as (o' & new & E & Hinv' & _); [|done..|eauto].
      unfold weak_of in H1. destruct Hd as [->| ->]; simpl in Hm; [by rewrite (proj2 (Z.eqb_eq _ 1)) by lia|].
      by rewrite (proj2 (Z.eqb_neq _ 1)) by lia.
    + destruct (count_proxy attempt cleanup x c i d g o b Hinv Hl Hal Hown) as (o' & E & Hinv' & _); [unfold room; lia| |eauto].
      intros _. destruct (live_pos _ _ _ _ _ _ Hinv Hl). lia.
    + destruct (count_proxy attempt cleanup x c i d g o b Hinv Hl Hal Hown) as (o' & E & Hinv' & _); [unfold room; lia|tauto|eauto].
  - pose proof (Hroom _ _ Hx) as Hr. simpl in Hr. pose proof (named_nonneg x (i_heap i)) as Hn.
    destruct (count_program x c i d g o Hinv Hx) as (o' & E & Hinv' & _).
    { destruct c; simpl in *; try done; lia. } { by destruct c. } { unfold room. lia. }
    eexists _, _. split; [|exact Hinv']. unfold refs, mbind, st_bind, item_at. cbn [fst]. rewrite Hx. exact E.
Qed.

(** ** Asking for a death notification *)

Lemma proxy_at_live x o b i d : live (i_heap i) x o b → proxy_at x (i, d) = Ok (b, (i, d)).
Proof. intros [Hx Ha]. rewrite <- (put_item_same _ _ _ Hx). by apply proxy_at_eq. Qed.
Lemma set_proxy_live x f o b i d :
  live (i_heap i) x o b → set_proxy x f (i, d) = Ok (tt, (put_item x (mk_item o (Remote (f b))) i, d)).
Proof. intros [Hx Ha]. rewrite <- (put_item_same _ _ _ Hx) at 1. apply set_proxy_eq. Qed.

(** Only the proxy changes, not who holds the recipients. *)
Lemma moves_none g x b b' i d : inv i d g → obits b' = obits b → moves g g x b b'.
Proof.
  intros Hinv E y _. rewrite E. split_and!; try done.
  destruct (i_heap i !! y) as [h|] eqn:Hy; [by destruct (iv_items _ _ _ Hinv _ _ Hy)|by destruct (iv_none _ _ _ Hinv y Hy) as (_ & -> & _)].
Qed.

Lemma weak_nonneg i d g y : inv i d g → 0 <= g_weak g y.
Proof.
  intros Hinv. destruct (i_heap i !! y) as [h|] eqn:Hy; [by destruct (iv_items _ _ _ Hinv _ _ Hy)|].
  by destruct (iv_none _ _ _ Hinv y Hy) as (_ & -> & _).
Qed.

Lemma live_item_ok i d g x o b :
  inv i d g → live (i_heap i) x o b →
  0 <= g_weak g x ∧ 0 <= g_clears g x ∧ 0 <= mHandle b < 2 ^ 32 ∧ mObjects b = [] ∧ (mObitsSent b = true → mObituaries b = None) ∧
  recipients_ok (i_heap i) b.
Proof. intros Hinv [Hx _]. by destruct (iv_items _ _ _ Hinv _ _ Hx) as (? & ? & (_ & ?)). Qed.

Definition ask (x : Z) (b : proxy) : Ipc.M (D := D) unit :=
  set_proxy x (λ b, b <| mObituaries := Some [] |>) ;; refs attempt cleanup x incWeakRef ;;
  requestDeathNotification (mHandle b) x ;; flushCommands.

Lemma ask_ok x i d g o b :
  inv i d g → live (i_heap i) x o b → mObituaries b = None → mObitsSent b = false → room o →
  let b' := b <| mObituaries := Some [] |> in
  ∃ o' d' i', ask x b (i, d) = Ok (tt, (i', d')) ∧ inv i' d' g ∧ i_heap i' = <[x := mk_item o' (Remote b')]> (i_heap i) ∧
    base_alive o' = true ∧ reports d' = reports d.
Proof.
  intros Hinv Hx Ho Hs Hr b'. destruct (live_item_ok _ _ _ _ _ _ Hinv Hx) as (Hw0 & Hc0 & Hhb & Hj & Hsent & Hrec).
  pose proof (live_counts _ _ _ _ _ _ Hinv Hx) as Hcnt. destruct (live_pos _ _ _ _ _ _ Hinv Hx) as [Hpos _].
  pose proof (xc_nonneg _ _ _ Hcnt) as [Hs0 Hwn]. unfold room in Hr. rewrite (xc_weak _ _ _ Hcnt) in Hr.
  destruct (proxy_call attempt cleanup x incWeakRef o b' _ _ i d Hcnt Hpos ltac:(lia) ltac:(simpl; lia)) as (o' & E & Hcnt').
  cbn [gains fst snd says] in Hcnt', E. rewrite Z.add_0_r in Hcnt'. unfold weak_of in Hcnt'.
  assert (Ha' : base_alive o' = true) by (rewrite (xc_base _ _ _ Hcnt'); apply Z.ltb_lt; unfold weak_of in *; lia).
  set (j := put_item x (mk_item o' (Remote b')) i).
  assert (Hinv' : inv (say_all [[BC_REQUEST_DEATH_NOTIFICATION; mHandle b; x]] j) d g).
  { apply (inv_proxy i d g g x o b o' b'); try done.
    - intros E2. unfold b' in E2. simpl in E2. congruence.
    - constructor.
    - apply (moves_none _ _ _ _ i d Hinv). unfold obits. by rewrite Ho.
    - replace (g_weak g x + asked b' + g_clears g x) with (g_weak g x + asked b + g_clears g x + 1); [done|].
      unfold asked at 1. rewrite Ho. unfold b', asked. simpl. lia.
    - split; [repeat constructor; eauto|]. rewrite (strong_held_eq _ _ _ Hcnt), (strong_held_eq _ _ _ Hcnt'). unfold asked. rewrite Ho.
      simpl. rewrite Z.eqb_refl. simpl. lia. }
  destruct (flush_eq (say_all [[BC_REQUEST_DEATH_NOTIFICATION; mHandle b; x]] j) d (iv_fd _ _ _ Hinv')) as (d' & Ef & Es & Er).
  exists o', d', (flushed (say_all [[BC_REQUEST_DEATH_NOTIFICATION; mHandle b; x]] j)). split_and!; try done.
  - unfold ask. mstep (set_proxy_live x _ o b i d Hx). mstep E. exact Ef.
  - by apply (inv_flushed _ d).
Qed.

(** The obituary at the end of the list, with a weak reference of the program. *)
Lemma obituary_append_ok x i d g o b l ob h :
  inv i d g → live (i_heap i) x o b → mObituaries b = Some l →
  i_heap i !! ob_recipient ob = Some h → h_body h = Program → 0 < g_weak g (ob_recipient ob) →
  inv (put_item x (mk_item o (Remote (b <| mObituaries := Some (l ++ [ob]) |>))) i) d (add_weak (ob_recipient ob) (-1) g).
Proof.
  intros Hinv Hx Hl Hh Hp Hw. destruct (live_item_ok _ _ _ _ _ _ Hinv Hx) as (Hw0 & Hc0 & Hhb & Hj & Hsent & Hrec).
  assert (Hne : ob_recipient ob ≠ x) by (intros E; rewrite E in Hh; destruct Hx as [Hx _]; rewrite Hx in Hh; injection Hh as <-; done).
  set (b' := b <| mObituaries := Some (l ++ [ob]) |>). change (put_item _ _ i) with (say_all [] (put_item x (mk_item o (Remote b')) i)).
  assert (Ew : g_weak (add_weak (ob_recipient ob) (-1) g) x = g_weak g x) by (simpl; unfold at_; rewrite (proj2 (Z.eqb_neq _ _)) by congruence; lia).
  assert (Eo : obits b = l) by (unfold obits; by rewrite Hl). assert (Eo' : obits b' = l ++ [ob]) by done.
  apply (inv_proxy i d g _ x o b o b'); try done.
  - intros Hs. unfold b' in Hs. simpl in Hs. specialize (Hsent Hs). congruence.
  - unfold recipients_ok in *. rewrite Eo' , Eo in *. apply Forall_app. split; [done|]. repeat constructor. eauto.
  - intros y Hy. pose proof (weak_nonneg i d g y Hinv). rewrite Eo, Eo', count_recipient_app. simpl. unfold at_.
    rewrite (Z.eqb_sym (ob_recipient ob) y). destruct (Z.eqb_spec y (ob_recipient ob)) as [->|]; lia.
  - rewrite Ew. pose proof (live_counts _ _ _ _ _ _ Hinv Hx) as Hcnt. unfold weak_of, asked in *. rewrite Hl in Hcnt. exact Hcnt.
  - by rewrite Ew.
  - by destruct Hx.
  - split; [constructor|]. unfold asked. rewrite Hl. simpl. lia.
Qed.

Lemma live_program i x o b r h p : live (i_heap i) x o b → i_heap i !! r = Some (mk_item p Program) → live (i_heap (put_item r h i)) x o b.
Proof.
  intros [Hx Ha] Hr. split; [|done]. rewrite heap_put, lookup_insert_ne; [done|]. intros ->. rewrite Hx in Hr. done.
Qed.

Lemma program_live i x it r p : r ≠ x → i_heap i !! r = Some p → i_heap (put_item x it i) !! r = Some p.
Proof. intros Hn Hr. by rewrite heap_put, lookup_insert_ne. Qed.

Lemma at_same x n : at_ x n x = n.
Proof. unfold at_. by rewrite Z.eqb_refl. Qed.
Lemma at_other x n y : y ≠ x → at_ x n y = 0.
Proof. intros Hn. unfold at_. by rewrite (proj2 (Z.eqb_neq y x)). Qed.

(** Giving a weak reference up again. *)
Lemma weak_and_back r g g' :
  same_ghost (own createWeak r g) g' ∨ same_ghost (add_weak r 1 g) g' → same_ghost g (own decWeak r g').
Proof.
  intros Hg y. destruct Hg as [Hg|Hg]; destruct (Hg y) as (E1 & E2 & E3); (destruct (decide (y = r)) as [->|Hn];
    [destruct (own_same decWeak r g') as (-> & -> & ->); rewrite E1, E2, E3; simpl; rewrite ?at_same; simpl; lia
    |destruct (own_other decWeak r g' y Hn) as (-> & -> & ->); rewrite E1, E2, E3; simpl; rewrite ?at_other by done; lia]).
Qed.

Definition linked_to (b : proxy) (ob : obituary) (b' : proxy) : Prop :=
  mHandle b' = mHandle b ∧ mObitsSent b' = mObitsSent b ∧ mAlive b' = mAlive b ∧
  mObituaries b' = if mObitsSent b then mObituaries b else Some (obits b ++ [ob]).

(** The body of [linkToDeath], when the recipient is already held by its [wp]. *)
Lemma link_body x r cookie flags i d g o b p :
  inv i d g → live (i_heap i) x o b → room o → mObitsSent b = false → i_heap i !! r = Some (mk_item p Program) → 0 < g_strong g r → room p →
  ∃ i' d' o' p', let b' := b <| mObituaries := Some (obits b ++ [mk_obituary r cookie flags]) |> in
    ((if bool_decide (mObituaries b = None) then ask x b else mret tt) ;;
     program_refs r incWeakRef ;;
     set_proxy x (λ b, b <| mObituaries %= fmap (λ l, l ++ [mk_obituary r cookie flags]) |>) ;; mret NO_ERROR) (i, d) = Ok (NO_ERROR, (i', d')) ∧
    inv i' d' g ∧ live (i_heap i') x o' b' ∧ i_heap i' !! r = Some (mk_item p' Program) ∧ mWeak p' <= mWeak p + 1 ∧ reports d' = reports d.
Proof.
  intros Hinv Hx Hr Hs Hp Hsr Hrp.
  assert (Hne : r ≠ x) by (intros ->; destruct Hx as [Hx _]; by rewrite Hx in Hp).
  assert (H1 : ∃ i1 d1 o1 b1, (if bool_decide (mObituaries b = None) then ask x b else mret tt) (i, d) = Ok (tt, (i1, d1)) ∧ inv i1 d1 g ∧
    live (i_heap i1) x o1 b1 ∧ i_heap i1 !! r = Some (mk_item p Program) ∧ b1 = b <| mObituaries := Some (obits b) |> ∧ reports d1 = reports d).
  { case_bool_decide as Ho.
    - destruct (ask_ok x i d g o b Hinv Hx Ho Hs Hr) as (o1 & d1 & i1 & E & Hinv1 & Eh & Ha & Er). exists i1, d1, o1, (b <| mObituaries := Some [] |>).
      split_and!; try done; [|by rewrite Eh, lookup_insert_ne|by unfold obits; rewrite Ho]. split; [|done]. by rewrite Eh, lookup_insert_eq.
    - exists i, d, o, b. split_and!; try done. unfold obits. destruct b as [? ? ? [l|] ?]; done. }
  destruct H1 as (i1 & d1 & o1 & b1 & E1 & Hinv1 & Hx1 & Hp1 & Eb1 & Er1).
  destruct (count_program r incWeakRef i1 d1 g p Hinv1 Hp1) as (p2 & E2 & Hinv2 & Hw2); [cbn [allowed]; pose proof (named_nonneg r (i_heap i1)); pose proof (weak_nonneg _ _ _ r Hinv1); lia|done|done|]. cbn [gains fst snd] in Hw2.
  set (i2 := put_item r (mk_item p2 Program) i1) in *.
  assert (Hx2 : live (i_heap i2) x o1 b1) by (by apply (live_program _ _ _ _ _ _ p)).
  assert (Hp2 : i_heap i2 !! r = Some (mk_item p2 Program)) by (unfold i2; rewrite heap_put; apply lookup_insert_eq).
  pose proof (obituary_append_ok x i2 d1 _ o1 b1 (obits b) (mk_obituary r cookie flags) _ Hinv2 Hx2 ltac:(by rewrite Eb1) Hp2 eq_refl) as Hinv3.
  cbn [ob_recipient] in Hinv3. destruct (own_same incWeakRef r g) as (O1 & O2 & O3). cbn [gains fst snd] in O1, O2.
  pose proof (weak_nonneg _ _ _ r Hinv) as Hwr. rewrite O2 in Hinv3. specialize (Hinv3 ltac:(lia)).
  set (b' := b <| mObituaries := Some (obits b ++ [mk_obituary r cookie flags]) |>).
  replace (b1 <| mObituaries := Some (obits b ++ [mk_obituary r cookie flags]) |>) with b' in Hinv3 by (by rewrite Eb1; destruct b).
  set (i3 := put_item x (mk_item o1 (Remote b')) i2) in *. exists i3, d1, o1, p2. cbn zeta. split_and!; try done.
  - mstep E1. mstep E2. change (answer _ _) with true. cbv beta iota. mstep (set_proxy_live x _ o1 b1 i2 d1 Hx2).
    unfold i3, b'. rewrite Eb1. by destruct b.
  - apply (inv_ext _ _ _ _ Hinv3). intros y. cbn [add_weak g_strong g_weak g_clears]. destruct (decide (y = r)) as [->|Hn].
    + rewrite at_same, O1, O2, O3. lia.
    + destruct (own_other incWeakRef r g y Hn) as (E' & E & E''). rewrite E, E', E'', at_other by done. lia.
  - split; [unfold i3; rewrite heap_put; apply lookup_insert_eq|by destruct Hx2].
  - by apply program_live.
  - lia.
Qed.

Lemma link_ok x r cookie flags i d g o b p :
  inv i d g → live (i_heap i) x o b → room o → i_heap i !! r = Some (mk_item p Program) → 0 < g_strong g r → mWeak p + 4 < INITIAL_STRONG_VALUE →
  ∃ i' d' o' b',
    linkToDeath attempt cleanup x r cookie flags (i, d) = Ok (if mObitsSent b then DEAD_OBJECT else NO_ERROR, (i', d')) ∧
    inv i' d' g ∧ live (i_heap i') x o' b' ∧ linked_to b (mk_obituary r cookie flags) b' ∧ reports d' = reports d.
Proof.
  intros Hinv Hx Hr Hp Hsr Hrp. assert (Hr0 : r ≠ 0) by (intros ->; by rewrite (iv_null _ _ _ Hinv) in Hp).
  destruct (own_same createWeak r g) as (O1 & O2 & O3). cbn [gains fst snd] in O1, O2.
  destruct (count_program r createWeak i d g p Hinv Hp) as (p1 & E1 & Hinv1 & Hw1); [done|done|unfold room; lia|]. cbn [gains fst snd] in Hw1.
  set (i1 := put_item r (mk_item p1 Program) i) in *.
  assert (Hx1 : live (i_heap i1) x o b) by (by apply (live_program _ _ _ _ _ _ p)).
  assert (Hp1 : i_heap i1 !! r = Some (mk_item p1 Program)) by (unfold i1; rewrite heap_put; apply lookup_insert_eq).
  set (res := if mObitsSent b then DEAD_OBJECT else NO_ERROR).
  assert (H2 : ∃ i2 d2 o2 b2 p2, (if negb (mObitsSent b) then
      (if bool_decide (mObituaries b = None) then ask x b else mret tt) ;; program_refs r incWeakRef ;;
      set_proxy x (λ b, b <| mObituaries %= fmap (λ l, l ++ [mk_obituary r cookie flags]) |>) ;; mret NO_ERROR else mret DEAD_OBJECT) (i1, d) = Ok (res, (i2, d2)) ∧
    inv i2 d2 (own createWeak r g) ∧ live (i_heap i2) x o2 b2 ∧ i_heap i2 !! r = Some (mk_item p2 Program) ∧ mWeak p2 <= mWeak p1 + 1 ∧
    linked_to b (mk_obituary r cookie flags) b2 ∧ reports d2 = reports d).
  { unfold res, linked_to. destruct (mObitsSent b) eqn:Hs.
    - exists i1, d, o, b, p1. split_and!; done || lia.
    - destruct (link_body x r cookie flags i1 d _ o b p1 Hinv1 Hx1 Hr Hs Hp1) as (i2 & d2 & o2 & p2 & E & ? & ? & ? & ? & ?); [lia|unfold room; lia|].
      eexists i2, d2, o2, _, p2. split_and!; try done; by destruct b. }
  destruct H2 as (i2 & d2 & o2 & b2 & p2 & E2 & Hinv2 & Hx2 & Hp2 & Hw2 & Hlk & Er).
  pose proof (weak_nonneg _ _ _ r Hinv) as Hwr. pose proof (named_nonneg r (i_heap i2)) as Hnr.
  destruct (count_program r decWeak i2 d2 _ p2 Hinv2 Hp2) as (p3 & E3 & Hinv3 & _); [simpl in *; lia|simpl in *; lia|unfold room; lia|].
  eexists (put_item r (mk_item p3 Program) i2), d2, o2, b2. split; [|split; [|split; [|done]]].
  - unfold linkToDeath. rewrite (proj2 (Z.eqb_neq r 0)) by done. mstep (eq_refl : bug_on false (i, d) = Ok (tt, (i, d))). mstep E1.
    mstep (proxy_at_live x o b i1 d Hx1). mstep E2. by mstep E3.
  - apply (inv_ext _ _ _ _ Hinv3). intros y. destruct (weak_and_back r g (own createWeak r g) (or_introl (λ y, conj eq_refl (conj eq_refl eq_refl))) y) as (-> & -> & ->). done.
  - by apply (live_program _ _ _ _ _ _ p2).
Qed.

(** ** Giving a notification up *)

Lemma count_delete y l k ob :
  l !! k = Some ob → count_recipient y (delete k l) = count_recipient y l - (if ob_recipient ob =? y then 1 else 0).
Proof.
  revert k. induction l as [|o l IH]; intros k Hk; [done|]. destruct k as [|k]; simpl in *; [injection Hk as ->; lia|]. rewrite (IH k Hk). lia.
Qed.

Lemma recipient_program i d g x o b k ob :
  inv i d g → live (i_heap i) x o b → obits b !! k = Some ob → ∃ p, i_heap i !! ob_recipient ob = Some (mk_item p Program).
Proof.
  intros Hinv Hx Hk. destruct (live_item_ok _ _ _ _ _ _ Hinv Hx) as (_ & _ & _ & _ & _ & Hrec).
  destruct (Forall_lookup_1 _ _ _ _ Hrec Hk) as ([p q] & Hh & Hq). simpl in Hq. subst. eauto.
Qed.

(** An obituary leaves the list; the program has its weak reference for now. *)
Lemma remove_ok x i d g o b l k ob :
  inv i d g → live (i_heap i) x o b → mObituaries b = Some l → l !! k = Some ob →
  inv (put_item x (mk_item o (Remote (b <| mObituaries := Some (delete k l) |>))) i) d (add_weak (ob_recipient ob) 1 g).
Proof.
  intros Hinv Hx Hl Hk. destruct (live_item_ok _ _ _ _ _ _ Hinv Hx) as (Hw0 & Hc0 & Hhb & Hj & Hsent & Hrec).
  assert (Eo : obits b = l) by (unfold obits; by rewrite Hl).
  destruct (recipient_program _ _ _ _ _ _ k ob Hinv Hx ltac:(by rewrite Eo)) as [p Hp].
  assert (Hne : ob_recipient ob ≠ x) by (intros E; rewrite E in Hp; destruct Hx as [Hx _]; by rewrite Hx in Hp).
  set (b' := b <| mObituaries := Some (delete k l) |>). change (put_item _ _ i) with (say_all [] (put_item x (mk_item o (Remote b')) i)).
  assert (Ew : g_weak (add_weak (ob_recipient ob) 1 g) x = g_weak g x) by (cbn [add_weak g_weak]; rewrite at_other by congruence; lia).
  apply (inv_proxy i d g _ x o b o b'); try done.
  - intros Hs. unfold b' in Hs. simpl in Hs. specialize (Hsent Hs). congruence.
  - unfold recipients_ok in *. change (obits b') with (delete k l). rewrite Eo in Hrec. by apply Forall_delete.
  - intros y Hy. pose proof (weak_nonneg i d g y Hinv). change (obits b') with (delete k l). rewrite Eo, (count_delete _ _ _ _ Hk).
    cbn [add_weak g_strong g_weak g_clears]. unfold at_. rewrite (Z.eqb_sym (ob_recipient ob) y). destruct (y =? ob_recipient ob); lia.
  - rewrite Ew. pose proof (live_counts _ _ _ _ _ _ Hinv Hx) as Hcnt. unfold weak_of, asked in *. rewrite Hl in Hcnt. exact Hcnt.
  - by rewrite Ew.
  - by destruct Hx.
  - split; [constructor|]. unfold asked. rewrite Hl. simpl. lia.
Qed.

(** The request is cleared, and the recipients let go of. *)
Definition let_go (x : Z) (l : list obituary) (g : ghost) : ghost :=
  mk_ghost (g_strong g) (λ y, g_weak g y + count_recipient y l) (λ y, g_clears g y + at_ x 1 y).

Lemma clear_ok x i d g o b l :
  inv i d g → live (i_heap i) x o b → mObituaries b = Some l →
  let b' := b <| mObituaries := None |> in
  ∃ i' d', (clearDeathNotification (mHandle b) x ;; flushCommands ;; set_proxy x (λ b, b <| mObituaries := None |>)) (i, d) = Ok (tt, (i', d')) ∧
    inv i' d' (let_go x l g) ∧ i_heap i' = <[x := mk_item o (Remote b')]> (i_heap i) ∧ reports d' = reports d.
Proof.
  intros Hinv Hx Hl b'. destruct (live_item_ok _ _ _ _ _ _ Hinv Hx) as (Hw0 & Hc0 & Hhb & Hj & Hsent & Hrec).
  pose proof (live_counts _ _ _ _ _ _ Hinv Hx) as Hcnt. assert (Eo : obits b = l) by (unfold obits; by rewrite Hl).
  set (ws := [[BC_CLEAR_DEATH_NOTIFICATION; mHandle b; x]]).
  assert (Ex : count_recipient x l = 0).
  { rewrite <- Eo. apply (recipients_not (i_heap i)); [done|]. intros h' Hh'. destruct Hx as [Hx _]. rewrite Hx in Hh'. by injection Hh' as <-. }
  assert (Hinv' : inv (say_all ws (put_item x (mk_item o (Remote b')) i)) d (let_go x l g)).
  { apply (inv_proxy i d g _ x o b o b'); try done.
    - constructor.
    - intros y Hy. pose proof (weak_nonneg i d g y Hinv). pose proof (count_recipient_nonneg y l). change (obits b') with (@nil obituary).
      cbn [let_go g_strong g_weak g_clears count_recipient]. rewrite Eo, at_other by done. lia.
    - cbn [let_go g_strong g_weak g_clears]. rewrite at_same, Ex. unfold weak_of, asked in *. rewrite Hl in Hcnt. simpl.
      by replace (g_weak g x + 0 + 0 + (g_clears g x + 1)) with (g_weak g x + 1 + g_clears g x) by lia.
    - cbn [let_go g_weak]. lia.
    - cbn [let_go g_clears]. rewrite at_same. lia.
    - by destruct Hx.
    - split; [repeat constructor; eauto|]. unfold asked. rewrite Hl. simpl. rewrite Z.eqb_refl. simpl. lia. }
  destruct (flush_eq (say_all ws i) d) as (d' & Ef & Es & Er).
  { destruct (say_all_parts ws i) as (_ & -> & _). apply (iv_fd _ _ _ Hinv). }
  exists (flushed (say_all ws (put_item x (mk_item o (Remote b')) i))), d'. split_and!; try done.
  - mstep (out_words_eq [BC_CLEAR_DEATH_NOTIFICATION; mHandle b; x] i d). mstep Ef.
    rewrite (set_proxy_live x _ o b); [by destruct i as [p []]|]. destruct Hx as [Hx Ha]. split; [|done]. destruct i as [p [] ]. exact Hx.
  - apply (inv_flushed _ d); [done|]. rewrite Es. by destruct i as [p []].
Qed.
End ops.
End ProxiesRuns.
