(* ===== verification/BpBinderDeaths.v ===== *)
(** Death notifications of proxies: giving one up, the obituary that tells each
    linked recipient once, and the driver's confirmation. *)
From S2P Require Import Prelude BinderUapi RefBase IpcState BpBinder BpBinderSpec BpBinderInv BpBinderRuns.
Import Ipc Proxies Refs ProxiesSpec ProxiesInv ProxiesRuns.

Module ProxiesDeaths.

Section deaths.
Context {D : Type} {DV : Device D} {RD : Reliable D} {RL : ReliableLaws D} {MA : Machine} {ML : MachineLaws}.
Context (attempt : Z → Ipc.M (D := D) Z) (died : Z → Z → Ipc.M (D := D) unit) (cleanup : Z → entry → Ipc.M (D := D) unit).
Implicit Types (i : ipc) (d : D) (g : ghost) (b : proxy).

(** ** Giving a notification up *)

Lemma find_obituary_Some recipient cookie flags l k ob :
  find_obituary recipient cookie flags l = Some (k, ob) → l !! k = Some ob ∧ matches recipient cookie flags ob = true.
Proof.
  revert k. induction l as [|o l IH]; intros k; simpl; [done|]. destruct (matches _ _ _ o) eqn:Hm; [by intros [= <- <-]|].
  destruct (find_obituary _ _ _ l) as [[j o']|]; [|done]. intros [= <- <-]. by apply IH.
Qed.

Lemma recipient_named i d g x o b k ob :
  inv i d g → live (i_heap i) x o b → obits b !! k = Some ob → 0 < named (ob_recipient ob) (i_heap i).
Proof.
  intros Hinv [Hx _] Hk. pose proof (named_at_least (ob_recipient ob) _ _ _ _ Hx). pose proof (count_delete (ob_recipient ob) _ _ _ Hk) as E.
  rewrite Z.eqb_refl in E. pose proof (count_recipient_nonneg (ob_recipient ob) (delete k (obits b))). lia.
Qed.

(** The weak reference for [outRecipient], if it is wanted. *)
Lemma want_ok r (want : bool) i d g x o b p :
  inv i d g → live (i_heap i) x o b → i_heap i !! r = Some (mk_item p Program) → 0 < named r (i_heap i) → room p →
  ∃ p', (if want then program_refs r incWeakRef ;; mret tt else mret tt) (i, d) = Ok (tt, (put_item r (mk_item p' Program) i, d)) ∧
    inv (put_item r (mk_item p' Program) i) d (if want then own incWeakRef r g else g) ∧ mWeak p' <= mWeak p + 1.
Proof.
  intros Hinv Hx Hp Hn Hr. pose proof (weak_nonneg i d g r Hinv) as Hw. destruct want.
  - destruct (count_program r incWeakRef i d g p Hinv Hp) as (p' & E & Hinv' & Hw'); [|done|done|].
    { cbn [allowed]. pose proof (iv_items _ _ _ Hinv _ _ Hp) as (_ & _ & Hc). simpl in Hc. destruct (pc_nonneg _ _ _ Hc). lia. }
    exists p'. cbn [gains fst snd] in Hw'. split_and!; [by mstep E|done|lia].
  - exists p. rewrite put_item_same by done. split_and!; [done..|lia].
Qed.

(** What [unlinkToDeath] answers, and what it leaves. *)
Definition unlinked (b : proxy) recipient cookie flags (want : bool) : Z * Z * option (list obituary) :=
  if mObitsSent b then (DEAD_OBJECT, 0, mObituaries b)
  else match find_obituary recipient cookie flags (obits b) with
       | None => (NAME_NOT_FOUND, 0, mObituaries b)
       | Some (k, ob) =>
           (NO_ERROR, if want then ob_recipient ob else 0,
            let l := delete k (obits b) in if bool_decide (l = []) then None else Some l)
       end.
(** What the program owns then. *)
Definition after_unlink x b recipient cookie flags want g : ghost :=
  let '(_, r, l) := unlinked b recipient cookie flags want in
  add_clears x (if mObituaries b then if l then 0 else 1 else 0) (if r =? 0 then g else own incWeakRef r g).

Lemma same_ghost_refl g : same_ghost g g.
Proof. done. Qed.
Lemma add_clears_0 x g : same_ghost g (add_clears x 0 g).
Proof. intros y. simpl. unfold at_. destruct (y =? x); lia. Qed.

Lemma unlink_ok x recipient cookie flags want i d g o b :
  inv i d g → roomy i → live (i_heap i) x o b →
  let '(r, who, l) := unlinked b recipient cookie flags want in
  ∃ i' d',
    unlinkToDeath x recipient cookie flags want (i, d) = Ok ((r, who), (i', d')) ∧
    inv i' d' (after_unlink x b recipient cookie flags want g) ∧ live (i_heap i') x o (b <| mObituaries := l |>) ∧ reports d' = reports d.
Proof.
  intros Hinv Hroom Hx. assert (Hsame : b <| mObituaries := mObituaries b |> = b) by (by destruct b).
  assert (Hnone : inv i d (add_clears x (if mObituaries b then if mObituaries b then 0 else 1 else 0) g)).
  { replace (if mObituaries b then if mObituaries b then 0 else 1 else 0) with 0 by (by destruct (mObituaries b)).
    apply (inv_ext _ _ _ _ Hinv), add_clears_0. }
  unfold after_unlink, unlinked. destruct (mObitsSent b) eqn:Hs; [|destruct (find_obituary _ _ _ _) as [[k ob]|] eqn:Hf].
  1, 3: exists i, d; rewrite Hsame; split_and!; try done; try exact Hnone; unfold unlinkToDeath; mstep (proxy_at_live x o b i d Hx); rewrite Hs; try done;
    change (default [] (mObituaries b)) with (obits b); by rewrite Hf.
  destruct (find_obituary_Some _ _ _ _ _ _ Hf) as [Hk _]. set (r := ob_recipient ob). destruct (recipient_program _ _ _ _ _ _ _ _ Hinv Hx Hk) as [p Hp].
  assert (Hl : ∃ l, mObituaries b = Some l ∧ obits b = l) by (unfold obits in *; destruct (mObituaries b); [eauto|done]).
  destruct Hl as (l & Hl & El). rewrite El in *. assert (Hr0 : r ≠ 0) by (intros E; unfold r in E; by rewrite E, (iv_null _ _ _ Hinv) in Hp).
  pose proof (Hroom _ _ Hp) as Hrp. simpl in Hrp.
  destruct (want_ok r want i d g x o b p Hinv Hx Hp) as (p1 & E1 & Hinv1 & Hw1).
  { by apply (recipient_named i d g x o b k); rewrite ?El. } { unfold room. lia. }
  set (g1 := if want then own incWeakRef r g else g) in *. set (i1 := put_item r (mk_item p1 Program) i) in *.
  assert (Hx1 : live (i_heap i1) x o b) by (by apply (live_program _ _ _ _ _ _ p)).
  pose proof (remove_ok x i1 d g1 o b l k ob Hinv1 Hx1 Hl Hk) as Hinv2. fold r in Hinv2. set (l' := delete k l) in *. set (b2 := b <| mObituaries := Some l' |>) in *.
  set (i2 := put_item x (mk_item o (Remote b2)) i1) in *.
  assert (Hrx : r ≠ x) by (intros E; unfold r in E; rewrite E in Hp; destruct Hx as [Hx _]; by rewrite Hx in Hp).
  assert (Hp2 : i_heap i2 !! r = Some (mk_item p1 Program)) by (apply program_live; [done|unfold i1; rewrite heap_put; apply lookup_insert_eq]).
  assert (Hx2 : live (i_heap i2) x o b2) by (split; [unfold i2; rewrite heap_put; apply lookup_insert_eq|by destruct Hx]).
  pose proof (weak_nonneg i1 d g1 r Hinv1) as Hw0. pose proof (named_nonneg r (i_heap i2)) as Hn0.
  assert (Ew : g_weak (add_weak r 1 g1) r = g_weak g1 r + 1) by (cbn [add_weak g_weak]; by rewrite at_same).
  destruct (count_program r decWeak i2 d _ p1 Hinv2 Hp2) as (p3 & E3 & Hinv3 & _); [cbn [allowed]; lia|cbn [owns]; lia|unfold room; lia|].
  apply (inv_ext _ _ _ g1) in Hinv3; [|intros y; destruct (weak_and_back r g1 (add_weak r 1 g1) (or_intror (same_ghost_refl _)) y) as (-> & -> & ->); done].
  set (i3 := put_item r (mk_item p3 Program) i2) in *. assert (Hx3 : live (i_heap i3) x o b2) by (by apply (live_program _ _ _ _ _ _ p1)).
  assert (Hend : ∃ i' d', (if bool_decide (l' = []) then clearDeathNotification (mHandle b) x ;; flushCommands ;; set_proxy x (λ b, b <| mObituaries := None |>)
      else mret tt) (i3, d) = Ok (tt, (i', d')) ∧ inv i' d' (add_clears x (if bool_decide (l' = []) then 1 else 0) g1) ∧
      live (i_heap i') x o (b <| mObituaries := if bool_decide (l' = []) then None else Some l' |>) ∧ reports d' = reports d).
  { case_bool_decide as Hnil.
    - destruct (clear_ok x i3 d g1 o b2 l' Hinv3 Hx3 eq_refl) as (i' & d' & E & Hinv' & Eh & Er). exists i', d'. split_and!; try done.
      + apply (inv_ext _ _ _ _ Hinv'). intros y. rewrite Hnil. simpl. lia.
      + destruct Hx as [_ Ha]. split; [|done]. rewrite Eh. unfold b2. destruct b. apply lookup_insert_eq.
    - exists i3, d. split_and!; try done. apply (inv_ext _ _ _ _ Hinv3), add_clears_0. }
  destruct Hend as (i' & d' & E4 & Hinv4 & Hx4 & Er). exists i', d'. split_and!.
  - unfold unlinkToDeath. mstep (proxy_at_live x o b i d Hx). rewrite Hs. change (default [] (mObituaries b)) with (obits b). rewrite El, Hf. fold r l'.
    mstep E1. rewrite (st_bind_eq _ _ _ _ _ (set_proxy_live x (λ b, b <| mObituaries := Some l' |>) o b i1 d Hx1)). mstep E3. by mstep E4.
  - rewrite Hl. unfold g1 in Hinv4. destruct want; [rewrite (proj2 (Z.eqb_neq r 0)) by done|]; by case_bool_decide.
  - exact Hx4.
  - done.
Qed.
(** ** The obituary *)

(** What a function of the program leaves alone: the references the process owns
    are the same in the end; objects of the program are not counted up, and a
    proxy that told of its death stays as it is. *)
Record keeps i i' : Prop := {
  kp_program y o : i_heap i !! y = Some (mk_item o Program) → ∃ o', i_heap i' !! y = Some (mk_item o' Program) ∧ mWeak o' <= mWeak o;
  kp_dead y o b : live (i_heap i) y o b → mObitsSent b = true → ∃ o', live (i_heap i') y o' b
}.

Lemma keeps_refl i : keeps i i.
Proof. split; eauto with lia. Qed.
Lemma keeps_trans i j k : keeps i j → keeps j k → keeps i k.
Proof.
  intros [P1 D1] [P2 D2]. split.
  - intros y o Hy. destruct (P1 _ _ Hy) as (o1 & H1 & L1). destruct (P2 _ _ H1) as (o2 & H2 & L2). exists o2. split; [done|lia].
  - intros y o b Hy Hs. destruct (D1 _ _ _ Hy Hs) as [o1 H1]. by apply (D2 _ o1).
Qed.

(** [binderDied] of every recipient; [reports] is how the world notices. *)
Definition callbacks_ok : Prop := ∀ r x i d g o,
  inv i d g → i_heap i !! r = Some (mk_item o Program) → 0 < g_strong g r → room o →
  ∃ i' d', died r x (i, d) = Ok (tt, (i', d')) ∧ inv i' d' g ∧ keeps i i' ∧ reports d' = reports d ++ [(r, x)].
Context (Hdied : callbacks_ok).

Lemma keeps_put i r p p' : i_heap i !! r = Some (mk_item p Program) → mWeak p' <= mWeak p → keeps i (put_item r (mk_item p' Program) i).
Proof.
  intros Hp Hw. split.
  - intros y o Hy. rewrite heap_put. destruct (decide (y = r)) as [->|Hn].
    + rewrite lookup_insert_eq. exists p'. split; [done|]. rewrite Hp in Hy. by injection Hy as <-.
    + rewrite lookup_insert_ne by done. eauto with lia.
  - intros y o b Hy _. exists o. by apply (live_program _ _ _ _ _ _ p).
Qed.

Definition told_of (g : ghost) (x : Z) (l : list obituary) : list (Z * Z) :=
  (λ o, (ob_recipient o, x)) <$> filter (λ o, 0 < g_strong g (ob_recipient o)) l.

(** A recipient that still has a strong reference is told, another is not. *)
Lemma report_one x ob i d g p :
  inv i d g → i_heap i !! ob_recipient ob = Some (mk_item p Program) → 0 < g_weak g (ob_recipient ob) → mWeak p + 3 < INITIAL_STRONG_VALUE →
  ∃ i' d', reportOneDeath died x ob (i, d) = Ok (tt, (i', d')) ∧ inv i' d' g ∧ keeps i i' ∧ reports d' = reports d ++ told_of g x [ob].
Proof.
  intros Hinv Hp Hw Hr. set (r := ob_recipient ob) in *. pose proof (iv_items _ _ _ Hinv _ _ Hp) as (_ & _ & Hc). simpl in Hc.
  destruct (pc_nonneg _ _ _ Hc) as [Hs0 _]. pose proof (named_nonneg r (i_heap i)) as Hn.
  destruct (count_program r attemptIncStrong i d g p Hinv Hp) as (p1 & E1 & Hinv1 & Hw1); [cbn [allowed]; lia|done|unfold room; lia|].
  set (i1 := put_item r (mk_item p1 Program) i) in *. assert (Hp1 : i_heap i1 !! r = Some (mk_item p1 Program)) by (unfold i1; rewrite heap_put; apply lookup_insert_eq).
  cbn [gains fst snd answer] in *. unfold told_of. rewrite filter_cons, filter_nil. fold r. destruct (Z.ltb_spec 0 (g_strong g r)) as [Hs|Hs].
  - rewrite decide_True by done. destruct (own_same attemptIncStrong r g) as (O1 & O2 & O3). cbn [gains fst snd] in O1, O2. rewrite (proj2 (Z.ltb_lt _ _)) in O1 by done.
    destruct (Hdied r x i1 d _ p1 Hinv1 Hp1) as (i2 & d2 & E2 & Hinv2 & K2 & Er); [lia|unfold room; lia|].
    destruct (kp_program _ _ K2 _ _ Hp1) as (p2 & Hp2 & Hw2). pose proof (named_nonneg r (i_heap i2)).
    destruct (count_program r decStrong i2 d2 _ p2 Hinv2 Hp2) as (p3 & E3 & Hinv3 & Hw3); [cbn [allowed]; lia|cbn [owns]; lia|unfold room; lia|].
    cbn [gains fst snd] in Hw3. exists (put_item r (mk_item p3 Program) i2), d2. split_and!; [|..|done].
    + unfold reportOneDeath. fold r. mstep E1. mstep E2. by mstep E3.
    + apply (inv_ext _ _ _ _ Hinv3). intros y. destruct (decide (y = r)) as [->|Hy].
      * destruct (own_same decStrong r (own attemptIncStrong r g)) as (-> & -> & ->). rewrite O1, O2, O3. simpl. lia.
      * destruct (own_other decStrong r (own attemptIncStrong r g) y Hy) as (-> & -> & ->). by destruct (own_other attemptIncStrong r g y Hy) as (-> & -> & ->).
    + (* the counts of [r] are those of before *)
      split.
      * intros y o Hy. rewrite heap_put. destruct (decide (y = r)) as [->|Hyr].
        -- rewrite lookup_insert_eq. exists p3. split; [done|]. rewrite Hp in Hy. injection Hy as <-. lia.
        -- rewrite lookup_insert_ne by done. apply (kp_program _ _ K2). unfold i1. by rewrite heap_put, lookup_insert_ne.
      * intros y o b Hy Hsent. destruct (kp_dead _ _ K2 y o b) as [o' Hy']; [by apply (live_program _ _ _ _ _ _ p)|done|].
        exists o'. by apply (live_program _ _ _ _ _ _ p2).
  - rewrite decide_False by lia. exists i1, d. split_and!.
    + unfold reportOneDeath. fold r. by mstep E1.
    + apply (inv_ext _ _ _ _ Hinv1). intros y. destruct (decide (y = r)) as [->|Hy].
      * destruct (own_same attemptIncStrong r g) as (-> & -> & ->). simpl. rewrite (proj2 (Z.ltb_ge _ _)) by done. lia.
      * by destruct (own_other attemptIncStrong r g y Hy) as (-> & -> & ->).
    + apply (keeps_put _ _ p); [done|lia].
    + by rewrite app_nil_r.
Qed.

(** Recipients that the process holds by a weak reference of their obituary. *)
Definition held_recipients (l : list obituary) i g : Prop :=
  Forall (λ ob, 0 < g_weak g (ob_recipient ob) ∧ ∃ p, i_heap i !! ob_recipient ob = Some (mk_item p Program) ∧ mWeak p + 3 < INITIAL_STRONG_VALUE) l.

Lemma held_keeps l i i' g : held_recipients l i g → keeps i i' → held_recipients l i' g.
Proof.
  intros Hl K. eapply Forall_impl; [exact Hl|]. intros ob (Hw & p & Hp & Hr). split; [done|].
  destruct (kp_program _ _ K _ _ Hp) as (p' & Hp' & Hle). exists p'. split; [done|lia].
Qed.

Lemma report_all x l i d g :
  inv i d g → held_recipients l i g →
  ∃ i' d', for_each (reportOneDeath died x) l (i, d) = Ok (tt, (i', d')) ∧ inv i' d' g ∧ keeps i i' ∧ reports d' = reports d ++ told_of g x l.
Proof.
  revert i d. induction l as [|ob l IH]; intros i d Hinv Hl.
  - exists i, d. split_and!; try done; [apply keeps_refl|by rewrite app_nil_r].
  - apply Forall_cons in Hl as [(Hw & p & Hp & Hr) Hl]. destruct (report_one x ob i d g p Hinv Hp Hw Hr) as (i1 & d1 & E1 & Hinv1 & K1 & Er1).
    destruct (IH i1 d1 Hinv1 (held_keeps _ _ _ _ Hl K1)) as (i2 & d2 & E2 & Hinv2 & K2 & Er2). exists i2, d2. split_and!; try done.
    + change (for_each _ (ob :: l)) with (reportOneDeath died x ob ;; for_each (reportOneDeath died x) l). by mstep E1.
    + by apply (keeps_trans _ i1).
    + rewrite Er2, Er1, <- app_assoc. f_equal. unfold told_of. rewrite <- fmap_app. by rewrite <- filter_app.
Qed.

(** The vector of obituaries gives its references up. *)
Lemma delete_all l i d g :
  inv i d (mk_ghost (g_strong g) (λ y, g_weak g y + count_recipient y l) (g_clears g)) → (∀ y, 0 <= g_weak g y) →
  Forall (λ ob, ∃ p, i_heap i !! ob_recipient ob = Some (mk_item p Program) ∧ mWeak p + 2 < INITIAL_STRONG_VALUE) l →
  ∃ i', delete_obituaries l (i, d) = Ok (tt, (i', d)) ∧ inv i' d g ∧ keeps i i'.
Proof.
  revert i. induction l as [|ob l IH]; intros i Hinv Hg Hl.
  - exists i. split_and!; [done| |apply keeps_refl]. apply (inv_ext _ _ _ _ Hinv). intros y. simpl. lia.
  - apply Forall_cons in Hl as [(p & Hp & Hr) Hl]. set (r := ob_recipient ob) in *. set (g0 := mk_ghost _ _ _) in Hinv.
    assert (Ew : g_weak g0 r = g_weak g r + 1 + count_recipient r l) by (unfold g0, r; simpl; rewrite Z.eqb_refl; lia).
    pose proof (count_recipient_nonneg r l). pose proof (named_nonneg r (i_heap i)). specialize (Hg r) as Hgr.
    destruct (count_program r decWeak i d g0 p Hinv Hp) as (p1 & E1 & Hinv1 & Hw1); [cbn [allowed]; lia|cbn [owns]; lia|done|].
    cbn [gains fst snd answer] in *. set (i1 := put_item r (mk_item p1 Program) i) in *.
    assert (K1 : keeps i i1) by (apply (keeps_put _ _ p); [done|lia]).
    destruct (IH i1) as (i2 & E2 & Hinv2 & K2); [|done| |].
    + apply (inv_ext _ _ _ _ Hinv1). intros y. destruct (decide (y = r)) as [->|Hy].
      * destruct (own_same decWeak r g0) as (-> & -> & ->). rewrite Ew. simpl. lia.
      * destruct (own_other decWeak r g0 y Hy) as (-> & -> & ->). unfold g0. simpl. fold r. rewrite (proj2 (Z.eqb_neq r y)) by congruence. lia.
    + eapply Forall_impl; [exact Hl|]. intros ob' (p' & Hp' & Hr'). destruct (kp_program _ _ K1 _ _ Hp') as (p2 & Hp2 & Hle). exists p2. split; [done|lia].
    + exists i2. split_and!; [|done|by apply (keeps_trans _ i1)]. unfold delete_obituaries.
      assert (E : (program_refs (ob_recipient ob) decWeak ;; mret tt) (i, d) = Ok (tt, (i1, d))) by (fold r; by mstep E1).
      change (for_each ?f (ob :: l)) with (f ob ;; for_each f l). mstep E. exact E2.
Qed.

(** The fields that say that the remote object died. *)
Lemma flags_ok x o b b' i d g :
  inv i d g → live (i_heap i) x o b → mHandle b' = mHandle b → mObituaries b' = mObituaries b → mObjects b' = mObjects b →
  (mObitsSent b' = true → mObituaries b' = None) → inv (put_item x (mk_item o (Remote b')) i) d g.
Proof.
  intros Hinv Hx Hh Ho Hj Hs. destruct (live_item_ok _ _ _ _ _ _ Hinv Hx) as (Hw0 & Hc0 & Hhb & Hj0 & Hsent & Hrec).
  change (put_item _ _ i) with (say_all [] (put_item x (mk_item o (Remote b')) i)).
  assert (Eo : obits b' = obits b) by (unfold obits; by rewrite Ho). assert (Ea : asked b' = asked b) by (unfold asked; by rewrite Ho).
  apply (inv_proxy i d g _ x o b o b'); try done.
  - by rewrite Hj.
  - unfold recipients_ok. by rewrite Eo.
  - by apply (moves_none g x b b' i d).
  - rewrite Ea. apply (live_counts _ _ _ _ _ _ Hinv Hx).
  - by destruct Hx.
  - split; [constructor|]. rewrite Ea. simpl. lia.
Qed.

(** The recipients of a proxy are told once, in the order in which they were
    linked; the proxy forgets them, and holds itself until the driver confirms. *)
Lemma obituary_ok x i d g o b :
  inv i d g → roomy i → live (i_heap i) x o b →
  ∃ i' d' o', sendObituary died x (i, d) = Ok (tt, (i', d')) ∧
    inv i' d' (add_clears x (if mObituaries b then 1 else 0) g) ∧
    live (i_heap i') x o' (b <| mAlive := false |> <| mObitsSent := true |> <| mObituaries := None |>) ∧
    reports d' = reports d ++ told_of g x (obits b).
Proof.
  assert (Eb : b <| mAlive := false |> <| mObitsSent := true |> <| mObituaries := None |> =
    b <| mAlive := false |> <| mObituaries := None |> <| mObitsSent := true |>) by (by destruct b).
  intros Hinv Hroom Hx. rewrite Eb. clear Eb. set (b1 := b <| mAlive := false |>). set (b2 := b1 <| mObituaries := None |>). set (b3 := b2 <| mObitsSent := true |>).
  destruct (live_item_ok _ _ _ _ _ _ Hinv Hx) as (Hw0 & Hc0 & Hhb & Hj & Hsent & Hrec). pose proof Hx as [_ Ha].
  assert (Hinv1 : inv (put_item x (mk_item o (Remote b1)) i) d g) by (by apply (flags_ok x o b)).
  set (i1 := put_item x (mk_item o (Remote b1)) i) in *.
  assert (Hx1 : live (i_heap i1) x o b1) by (split; [unfold i1; rewrite heap_put; apply lookup_insert_eq|done]).
  unfold sendObituary. destruct (mObitsSent b) eqn:Hs.
  { specialize (Hsent eq_refl). exists i1, d, o. split_and!.
    - mstep (proxy_at_live x o b i d Hx). mstep (set_proxy_live x (λ b, b <| mAlive := false |>) o b i d Hx). by rewrite Hs.
    - rewrite Hsent. apply (inv_ext _ _ _ _ Hinv1), add_clears_0.
    - replace b3 with b1; [done|]. unfold b3, b2, b1. destruct b as [h a s l j]. simpl in *. by subst.
    - unfold obits. rewrite Hsent. simpl. by rewrite app_nil_r. }
  destruct (mObituaries b) as [l|] eqn:Hl.
  - assert (Eo : obits b = l) by (unfold obits; by rewrite Hl). rewrite Eo in *.
    destruct (clear_ok x i1 d g o b1 l Hinv1 Hx1) as (i2 & d2 & E2 & Hinv2 & Eh2 & Er2); [by destruct b|]. fold b2 in Eh2.
    assert (Hx2 : live (i_heap i2) x o b2) by (split; [rewrite Eh2; apply lookup_insert_eq|done]).
    pose proof (flags_ok x o b2 b3 i2 d2 _ Hinv2 Hx2 eq_refl eq_refl eq_refl (λ _, eq_refl)) as Hinv3.
    set (i3 := put_item x (mk_item o (Remote b3)) i2) in *. set (g3 := let_go x l g) in *.
    assert (Hx3 : live (i_heap i3) x o b3) by (split; [unfold i3; rewrite heap_put; apply lookup_insert_eq|done]).
    assert (Hheld : held_recipients l i3 g3).
    { apply Forall_forall. intros ob [k Hk]%list_elem_of_lookup. split.
      - unfold g3. simpl. pose proof (weak_nonneg _ _ _ (ob_recipient ob) Hinv). pose proof (count_delete (ob_recipient ob) _ _ _ Hk) as E.
        rewrite Z.eqb_refl in E. pose proof (count_recipient_nonneg (ob_recipient ob) (delete k l)). lia.
      - destruct (recipient_program _ _ _ _ _ _ k ob Hinv Hx ltac:(by rewrite Eo)) as [p Hp]. exists p. pose proof (Hroom _ _ Hp) as Hr. simpl in Hr.
        split; [|lia]. unfold i3. assert (ob_recipient ob ≠ x) by (intros E; rewrite E in Hp; destruct Hx as [Hx _]; by rewrite Hx in Hp).
        rewrite heap_put, lookup_insert_ne, Eh2, lookup_insert_ne by done. unfold i1. by rewrite heap_put, lookup_insert_ne. }
    destruct (report_all x l i3 d2 g3 Hinv3 Hheld) as (i4 & d4 & E4 & Hinv4 & K4 & Er4).
    destruct (delete_all l i4 d4 (add_clears x 1 g)) as (i5 & E5 & Hinv5 & K5).
    { exact Hinv4. } { intros y. apply (weak_nonneg _ _ _ y Hinv). }
    { eapply Forall_impl; [exact (held_keeps _ _ _ _ Hheld K4)|]. intros ob (_ & p & Hp & Hr). exists p. split; [done|lia]. }
    destruct (kp_dead _ _ K4 x o b3 Hx3 eq_refl) as [o4 Hx4]. destruct (kp_dead _ _ K5 x o4 b3 Hx4 eq_refl) as [o5 Hx5].
    exists i5, d4, o5. split_and!; try done; [|by rewrite Er4, Er2].
    mstep (proxy_at_live x o b i d Hx). mstep (set_proxy_live x (λ b, b <| mAlive := false |>) o b i d Hx). rewrite Hs, Hl. cbv beta iota.
    mstep E2. mstep (set_proxy_live x (λ b, b <| mObitsSent := true |>) o b2 i2 d2 Hx2). mstep E4. exact E5.
  - assert (Hinv3 : inv (put_item x (mk_item o (Remote b3)) i1) d g) by (apply (flags_ok x o b1); try done; by destruct b).
    eexists _, d, o. split_and!.
    + mstep (proxy_at_live x o b i d Hx). mstep (set_proxy_live x (λ b, b <| mAlive := false |>) o b i d Hx). rewrite Hs, Hl. cbv beta iota.
      mstep (eq_refl : (mret tt : Ipc.M (D := D) unit) (i1, d) = Ok (tt, (i1, d))). by mstep (set_proxy_live x (λ b, b <| mObitsSent := true |>) o b1 i1 d Hx1).
    + replace (b1 <| mObitsSent := true |>) with b3 by (unfold b3, b2, b1; destruct b as [h a s l j]; simpl in *; by subst).
      apply (inv_ext _ _ _ _ Hinv3), add_clears_0.
    + split; [|done]. rewrite heap_put, lookup_insert_eq. unfold b3, b2, b1. destruct b as [h a s l j]. simpl in *. by subst.
    + unfold obits. rewrite Hl. simpl. by rewrite app_nil_r.
Qed.
End deaths.
End ProxiesDeaths.
