(* ===== verification/BpBinderClient.v ===== *)
(** A program and its proxies: every sequence of the calls that the references
    it owns permit succeeds, keeps the table of proxies well formed and has told
    the driver exactly what the live proxies need. *)
From S2P Require Import Prelude BinderUapi RefBase IpcState BpBinder BpBinderSpec BpBinderInv BpBinderRuns BpBinderDeaths.
Import Ipc Proxies Refs ProxiesSpec ProxiesInv ProxiesRuns ProxiesDeaths.

Module ProxiesClient.

(** What happens to the proxies of a process: calls of the program, and the two
    works of the driver about deaths. *)
Inductive act : Type :=
| Get_strong (handle : Z)
| Get_weak (handle : Z)
| Count (c : op) (x : Z)
| Link (x recipient cookie flags : Z)
| Unlink (x recipient cookie flags : Z) (want : bool)
| Dead_binder (x : Z)
| Clear_done (x : Z).

Definition live_proxy (i : ipc) (x : Z) : option proxy :=
  match i_heap i !! x with
  | Some (mk_item o (Remote b)) => if base_alive o then Some b else None
  | _ => None
  end.
Definition recipient_at (i : ipc) (r : Z) : Prop :=
  match i_heap i !! r with Some (mk_item _ Program) => True | _ => False end.

Section client.
Context {D : Type} {DV : Device D} {RD : Reliable D} {RL : ReliableLaws D} {MA : Machine} {ML : MachineLaws}.
Context (attempt : Z → Ipc.M (D := D) Z) (died : Z → Z → Ipc.M (D := D) unit) (cleanup : Z → entry → Ipc.M (D := D) unit).
Implicit Types (i : ipc) (d : D) (g : ghost) (b : proxy) (a : act).

(** [executeCommand] of [BR_DEAD_BINDER] and [BR_CLEAR_DEATH_NOTIFICATION_DONE]. *)
Definition dead_binder (x : Z) : Ipc.M (D := D) unit := sendObituary died x ;; out_words [BC_DEAD_BINDER_DONE; x].
Definition clear_done (x : Z) : Ipc.M (D := D) unit := refs attempt cleanup x decWeak ;; mret tt.

Definition perform a : Ipc.M (D := D) Z :=
  match a with
  | Get_strong h => getStrongProxyForHandle attempt cleanup h
  | Get_weak h => getWeakProxyForHandle attempt cleanup h
  | Count c x => r ← refs attempt cleanup x c; mret (b2z r)
  | Link x r cookie flags => linkToDeath attempt cleanup x r cookie flags
  | Unlink x r cookie flags want => p ← unlinkToDeath x r cookie flags want; mret p.1
  | Dead_binder x => dead_binder x ;; mret 0
  | Clear_done x => clear_done x ;; mret 0
  end.

(** What the program must own, and what the driver must have been asked. *)
Definition permitted a i g : Prop :=
  match a with
  | Get_strong h | Get_weak h => 0 <= h < 2 ^ 32 ∧ i_fresh i ≠ []
  | Count c x => may_count c i g x
  | Link x r _ _ => live_proxy i x ≠ None ∧ recipient_at i r ∧ 0 < g_strong g r
  | Unlink x _ _ _ _ | Dead_binder x => live_proxy i x ≠ None
  | Clear_done x => live_proxy i x ≠ None ∧ 0 < g_clears g x
  end.

Definition after a (result : Z) i g : ghost :=
  match a with
  | Get_strong _ => if result =? 0 then g else own incStrong result g
  | Get_weak _ => if result =? 0 then g else own createWeak result g
  | Count c x => own c x g
  | Link _ _ _ _ => g
  | Unlink x r cookie flags want => match live_proxy i x with Some b => after_unlink x b r cookie flags want g | None => g end
  | Dead_binder x => match live_proxy i x with Some b => add_clears x (asked b) g | None => g end
  | Clear_done x => add_clears x (-1) g
  end.

(** ** One call *)

Lemma live_proxy_live i x : live_proxy i x ≠ None → ∃ o b, live (i_heap i) x o b ∧ live_proxy i x = Some b.
Proof.
  unfold live_proxy, live. destruct (i_heap i !! x) as [[o [b|]]|]; [|done..]. destruct (base_alive o) eqn:Ha; [|done].
  intros _. exists o, b. done.
Qed.

(** Commands about no handle. *)
Lemma inv_say_done x i d g : inv i d g → inv (said [BC_DEAD_BINDER_DONE; x] i) d g.
Proof.
  intros Hinv. destruct (say_all_parts [[BC_DEAD_BINDER_DONE; x]] i) as (P1 & P2 & P3 & P4). change (say_all _ i) with (said [BC_DEAD_BINDER_DONE; x] i) in *.
  assert (Ht : table (said [BC_DEAD_BINDER_DONE; x] i) = table i) by (unfold table; by rewrite P2).
  destruct Hinv as [H1 H2 H3 H4 H5 [T1 T2 T3] (cmds & Ec & Hcmds)]. constructor; rewrite ?P1, ?P2, ?P3; try done.
  exists (cmds ++ [[BC_DEAD_BINDER_DONE; x]]). split; [by rewrite P4, fmap_app, concat_app, app_assoc, Ec|].
  intros h Hh. unfold told in *. rewrite !balance_app. unfold needed. rewrite Ht, P1. pose proof (Hcmds h Hh) as E. unfold needed in E.
  rewrite <- E. simpl. destruct (x =? h); by rewrite !Z.add_0_r.
Qed.

(** The driver confirmed: the proxy gives up the reference on itself. *)
Lemma cleared_ok x i d g o b :
  inv i d g → roomy i → live (i_heap i) x o b → 0 < g_clears g x →
  ∃ i', clear_done x (i, d) = Ok (tt, (i', d)) ∧ inv i' d (add_clears x (-1) g).
Proof.
  intros Hinv Hroom Hx Hc. set (g1 := add_weak x 1 (add_clears x (-1) g)).
  pose proof (weak_nonneg _ _ _ x Hinv) as Hw0. destruct (live_item_ok _ _ _ _ _ _ Hinv Hx) as (_ & _ & Hhb & Hj & Hsent & Hrec).
  assert (G : g_strong g1 x = g_strong g x ∧ g_weak g1 x = g_weak g x + 1 ∧ g_clears g1 x = g_clears g x - 1) by (unfold g1; simpl; rewrite !at_same; lia).
  destruct G as (G1 & G2 & G3).
  assert (Hinv1 : inv i d g1).
  { replace i with (say_all [] (put_item x (mk_item o (Remote b)) i)) by (apply put_item_same, (proj1 Hx)).
    apply (inv_proxy i d g g1 x o b o b); try done; try lia.
    - intros y Hy. unfold g1. simpl. rewrite !at_other by done. pose proof (weak_nonneg _ _ _ y Hinv). lia.
    - rewrite G1, G2, G3. pose proof (live_counts _ _ _ _ _ _ Hinv Hx) as Hcnt. unfold weak_of in Hcnt.
      by replace (g_weak g x + 1 + asked b + (g_clears g x - 1)) with (g_weak g x + asked b + g_clears g x) by lia.
    - by destruct Hx.
    - split; [constructor|]. simpl. lia. }
  destruct (count_ok attempt cleanup decWeak x i d g1 Hinv1 Hroom) as (r & i' & E & Hinv2).
  { unfold may_count. destruct Hx as [-> Ha]. split; [done|]. simpl in G2 |- *. lia. }
  exists i'. split; [unfold clear_done; by mstep E|]. apply (inv_ext _ _ _ _ Hinv2). intros y. destruct (decide (y = x)) as [->|Hy].
  - destruct (own_same decWeak x g1) as (-> & -> & ->). rewrite G1, G2, G3. simpl. rewrite at_same. lia.
  - destruct (own_other decWeak x g1 y Hy) as (-> & -> & ->). unfold g1. simpl. rewrite !at_other by done. lia.
Qed.

Lemma act_ok a i d g :
  callbacks_ok died → inv i d g → roomy i → permitted a i g →
  ∃ r i' d', perform a (i, d) = Ok (r, (i', d')) ∧ inv i' d' (after a r i g).
Proof.
  intros Hdied Hinv Hroom Hp. destruct a as [h|h|c x|x r cookie flags|x r cookie flags want|x|x]; cbn [permitted perform after] in *.
  - destruct Hp as [Hh Hf]. destruct (getStrong_ok attempt cleanup h i d g Hinv Hroom Hh Hf) as (r & i' & E & Hinv' & _). eauto.
  - destruct Hp as [Hh Hf]. destruct (getWeak_ok attempt cleanup h i d g Hinv Hroom Hh Hf) as (r & i' & E & Hinv' & _). eauto.
  - destruct (count_ok attempt cleanup c x i d g Hinv Hroom Hp) as (r & i' & E & Hinv'). exists (b2z r), i', d. split; [by mstep E|done].
  - destruct Hp as (Hx & Hr & Hs). destruct (live_proxy_live _ _ Hx) as (o & b & Hl & _). unfold recipient_at in Hr.
    destruct (i_heap i !! r) as [[p [|]]|] eqn:Er; [done| |done].
    destruct (link_ok attempt cleanup x r cookie flags i d g o b p Hinv Hl) as (i' & d' & o' & b' & E & Hinv' & _); try done.
    + pose proof (Hroom _ _ (proj1 Hl)) as H. unfold room. simpl in H. lia.
    + apply (Hroom _ _ Er).
    + eauto.
  - destruct (live_proxy_live _ _ Hp) as (o & b & Hl & ->). pose proof (unlink_ok x r cookie flags want i d g o b Hinv Hroom Hl) as H.
    destruct (unlinked b r cookie flags want) as [[st who] l]. destruct H as (i' & d' & E & Hinv' & _). exists st, i', d'. split; [by mstep E|done].
  - destruct (live_proxy_live _ _ Hp) as (o & b & Hl & ->). destruct (obituary_ok died Hdied x i d g o b Hinv Hroom Hl) as (i' & d' & o' & E & Hinv' & _).
    assert (E2 : dead_binder x (i, d) = Ok (tt, (said [BC_DEAD_BINDER_DONE; x] i', d'))) by (unfold dead_binder; by mstep E).
    exists 0, (said [BC_DEAD_BINDER_DONE; x] i'), d'. split; [by mstep E2|]. replace (asked b) with (if mObituaries b then 1 else 0) by done. by apply inv_say_done.
  - destruct Hp as [Hx Hc]. destruct (live_proxy_live _ _ Hx) as (o & b & Hl & _). destruct (cleared_ok x i d g o b Hinv Hroom Hl Hc) as (i' & E & Hinv').
    exists 0, i', d. split; [by mstep E|done].
Qed.
(** ** Runs *)

Fixpoint perform_all (l : list act) : Ipc.M (D := D) (list Z) :=
  match l with
  | [] => mret []
  | a :: l' => r ← perform a; rs ← perform_all l'; mret (r :: rs)
  end.

(** Every call is permitted where it is made, and no count is near its limit. *)
Fixpoint lawful (l : list act) i d g : Prop :=
  match l with
  | [] => True
  | a :: l' =>
      roomy i ∧ permitted a i g ∧
      match perform a (i, d) with Ok (r, (i', d')) => lawful l' i' d' (after a r i g) | Oops _ => True end
  end.

#[export] Instance may_count_dec c i g x : Decision (may_count c i g x).
Proof. unfold may_count, proxy_allowed, allowed. destruct (i_heap i !! x) as [[o [b|]]|], c; apply _. Defined.
#[export] Instance recipient_at_dec i r : Decision (recipient_at i r).
Proof. unfold recipient_at. destruct (i_heap i !! r) as [[o [b|]]|]; apply _. Defined.
#[export] Instance live_proxy_dec i x : Decision (live_proxy i x ≠ None).
Proof. destruct (live_proxy i x); [left|right]; abstract (by intros ?). Defined.
#[export] Instance permitted_dec a i g : Decision (permitted a i g).
Proof.
  destruct a as [h|h|c x|x r cookie flags|x r cookie flags want|x|x]; cbn [permitted]; try apply _;
    (destruct (i_fresh i) as [|y l]; [right; abstract (by intros [_ ?])|]); (destruct (decide (0 <= h < 2 ^ 32)); [left|right]); abstract (by intuition).
Defined.
#[export] Instance lawful_dec l : ∀ i d g, Decision (lawful l i d g).
Proof.
  induction l as [|a l IH]; intros i d g; cbn [lawful]; [apply _|]. unfold roomy. destruct (perform a (i, d)) as [[r [i' d']]|o]; [|apply _].
  pose proof (IH i' d' (after a r i g)). apply _.
Defined.

(** A process that opened the driver and has only objects of the program yet,
    of which it owns [g]. *)
Record started i d g : Prop := {
  st_fd : 0 < mDriverFD (i_process i);
  st_table : table i = [];
  st_quiet : sent d = [] ∧ mOut (i_thread i) = [];
  st_items : map_Forall (λ x h, h_body h = Program ∧ x ≠ 0 ∧ program_counts (h_refs h) (g_strong g x) (g_weak g x)) (i_heap i);
  st_none x : i_heap i !! x = None → g_strong g x = 0 ∧ g_weak g x = 0;
  st_clears x : g_clears g x = 0;
  st_fresh : NoDup (i_fresh i) ∧ Forall (λ x, x ≠ 0 ∧ i_heap i !! x = None) (i_fresh i);
  st_max : 0 <= max_handles
}.

Lemma started_inv i d g : started i d g → inv i d g.
Proof.
  intros [H1 H2 [H3 H3'] H4 H5 H6 [H7 H8] H9].
  assert (Hn : ∀ y, named y (i_heap i) = 0).
  { intros y. apply msum_zero. intros x h Hx. unfold names. by destruct (H4 _ _ Hx) as [-> _]. }
  assert (Hl : ∀ x o b, ¬ live (i_heap i) x o b) by (intros x o b [Hx _]; by destruct (H4 _ _ Hx)).
  constructor; try done.
  - intros x h Hx. destruct (H4 _ _ Hx) as (E & _ & Hc). unfold item_ok. rewrite E, H6, Hn, Z.add_0_r. destruct (pc_nonneg _ _ _ Hc). done.
  - intros x Hx. by destruct (H5 x Hx).
  - destruct (i_heap i !! 0) as [h|] eqn:E; [|done]. by destruct (H4 _ _ E) as (_ & ? & _).
  - split; [done|]. intros x Hx. by eapply Forall_forall in H8.
  - constructor; rewrite ?H2; try done. intros x o b Hx. by destruct (Hl x o b).
  - exists []. rewrite H3, H3'. split; [done|]. intros h _. unfold needed. by rewrite H2.
Qed.

(** What the program owns in the end. *)
Fixpoint after_all (l : list act) i d g : ghost :=
  match l with
  | [] => g
  | a :: l' => match perform a (i, d) with Ok (r, (i', d')) => after_all l' i' d' (after a r i g) | Oops _ => g end
  end.

Lemma run_ok l i d g :
  callbacks_ok died → inv i d g → lawful l i d g → ∃ rs i' d', perform_all l (i, d) = Ok (rs, (i', d')) ∧ inv i' d' (after_all l i d g).
Proof.
  intros Hdied. revert i d g. induction l as [|a l IH]; intros i d g Hinv Hl; [by eexists [], i, d|].
  destruct Hl as (Hroom & Hp & Hl). destruct (act_ok a i d g Hdied Hinv Hroom Hp) as (r & i1 & d1 & E & Hinv1). rewrite E in Hl.
  destruct (IH i1 d1 _ Hinv1 Hl) as (rs & i' & d' & E' & Hinv'). exists (r :: rs), i', d'. cbn [after_all]. rewrite E. split; [|done].
  cbn [perform_all]. mstep E. by mstep E'.
Qed.

Lemma needed_nothing h i d g :
  inv i d g → 0 <= h < 2 ^ 32 → (∀ x b, live_proxy i x = Some b → mHandle b ≠ h) → needed h i = (0, 0, 0).
Proof.
  intros Hinv Hh Hno. unfold needed. destruct (table i !! slot h) as [e|] eqn:He; [|done].
  destruct (decide (e_binder e = 0)) as [->|Hne]; [by rewrite (iv_null _ _ _ Hinv)|].
  destruct (tb_entry i (iv_table _ _ _ Hinv) _ _ He Hne) as (_ & o & b & [Hx Ha] & Hs). exfalso. apply (Hno (e_binder e) b).
  - unfold live_proxy. by rewrite Hx, Ha.
  - destruct (iv_items _ _ _ Hinv _ _ Hx) as (_ & _ & (_ & Hhb & _)). by apply slot_inj.
Qed.

(** C5: the table of proxies is well formed after every run of calls that the
    references of the program permit, none of which fails: an entry is empty or
    holds a proxy that is alive, is a proxy for that very handle and comes with
    its own [weakref_type]; every proxy that is alive is in the entry of its
    handle, so that a handle has one proxy; a null address is none. *)
Theorem handle_table_well_formed (l : list act) i d g :
  callbacks_ok died → started i d g → lawful l i d g →
  ∃ rs i' d', perform_all l (i, d) = Ok (rs, (i', d')) ∧
    (∀ h e, 0 <= h < 2 ^ 32 → table i' !! slot h = Some e → e_binder e ≠ 0 →
       e_refs e = getWeakRefs (e_binder e) ∧ ∃ b, live_proxy i' (e_binder e) = Some b ∧ mHandle b = h) ∧
    (∀ x b, live_proxy i' x = Some b → table i' !! slot (mHandle b) = Some (mk_handle x (getWeakRefs x))) ∧
    Z.of_nat (length (table i')) <= max_handles ∧ live_proxy i' 0 = None.
Proof.
  intros Hdied Hs Hl. destruct (run_ok l i d g Hdied (started_inv _ _ _ Hs) Hl) as (rs & i' & d' & E & Hinv).
  exists rs, i', d'. destruct (iv_table _ _ _ Hinv) as [T1 T2 T3]. split_and!; try done.
  - intros h e Hh He Hne. destruct (T1 _ _ He Hne) as (Er & o & b & [Hx Ha] & Hb). split; [done|]. exists b. unfold live_proxy. rewrite Hx, Ha.
    split; [done|]. destruct (iv_items _ _ _ Hinv _ _ Hx) as (_ & _ & (_ & Hhb & _)). by apply slot_inj.
  - intros x b Hx. destruct (live_proxy_live i' x) as (o & b' & Hx' & E'); [congruence|]. rewrite Hx in E'. injection E' as ->. by apply (T2 x o).
  - unfold live_proxy. by rewrite (iv_null _ _ _ Hinv).
Qed.

(** C4: the driver is told what the proxies need, through [mOut] and what it
    was given before: for every handle the commands written so far add up to one
    weak reference if there is a proxy for it, one strong reference if the
    process holds the proxy strongly, one request for a death notification if
    somebody linked to it, and to nothing if there is no proxy. *)
Theorem driver_told_of_proxies (l : list act) i d g :
  callbacks_ok died → started i d g → lawful l i d g →
  ∃ rs i' d' cmds, perform_all l (i, d) = Ok (rs, (i', d')) ∧ sent d' ++ mOut (i_thread i') = concat (encode <$> cmds) ∧
    (∀ h, 0 <= h < 2 ^ 32 → told h cmds = needed h i') ∧
    (∀ h, 0 <= h < 2 ^ 32 → (∀ x b, live_proxy i' x = Some b → mHandle b ≠ h) → told h cmds = (0, 0, 0)).
Proof.
  intros Hdied Hs Hl. destruct (run_ok l i d g Hdied (started_inv _ _ _ Hs) Hl) as (rs & i' & d' & E & Hinv).
  destruct (iv_told _ _ _ Hinv) as (cmds & Ec & Hc). exists rs, i', d', cmds. split_and!; try done.
  intros h Hh Hno. rewrite Hc by done. by eapply needed_nothing.
Qed.

(** ** Deaths *)

(** C11: the obituary of a proxy reaches every recipient that is linked to it
    and still has a strong reference, in the order of linking; the proxy is dead
    from then on, and a second obituary reaches nobody and says nothing to the
    driver. *)
Theorem obituary_reaches_recipients_once x i d g o b :
  callbacks_ok died → inv i d g → roomy i → live (i_heap i) x o b →
  ∃ i' d' i'', sendObituary died x (i, d) = Ok (tt, (i', d')) ∧
    reports d' = reports d ++ ((λ ob, (ob_recipient ob, x)) <$> filter (λ ob, 0 < g_strong g (ob_recipient ob)) (obits b)) ∧
    isBinderAlive x (i', d') = Ok (false, (i', d')) ∧
    sendObituary died x (i', d') = Ok (tt, (i'', d')) ∧ mOut (i_thread i'') = mOut (i_thread i').
Proof.
  intros Hdied Hinv Hroom Hx. destruct (obituary_ok died Hdied x i d g o b Hinv Hroom Hx) as (i' & d' & o' & E & Hinv' & Hx' & Er).
  set (b' := b <| mAlive := false |> <| mObitsSent := true |> <| mObituaries := None |>) in *.
  exists i', d', (put_item x (mk_item o' (Remote (b' <| mAlive := false |>))) i'). split_and!; try done.
  - unfold isBinderAlive. mstep (proxy_at_live x o' b' i' d' Hx'). by destruct b.
  - unfold sendObituary. mstep (proxy_at_live x o' b' i' d' Hx'). mstep (set_proxy_live x (λ b, b <| mAlive := false |>) o' b' i' d' Hx').
    by destruct b.
Qed.
End client.
End ProxiesClient.
