(* ===== verification/BpBinderDemo.v ===== *)
(** A process with a concrete driver, in which the theorems on proxies apply. *)
From S2P Require Import Prelude BinderUapi RefBase IpcState BpBinder BpBinderSpec BpBinderInv BpBinderRuns BpBinderDeaths BpBinderClient.
Import Ipc Proxies Refs ProxiesSpec ProxiesInv ProxiesRuns ProxiesDeaths ProxiesClient.

Module ProxiesDemo.

(** A driver that takes all, and what the program heard. *)
Record world : Type := mk_world { w_sent : list Z; w_reports : list (Z * Z) }.
#[export] Instance demo_device : Device world := {
  interruptions := 0;
  sys_open := mret 5;
  sys_close _ := mret tt;
  sys_mmap _ _ := mret true;
  sys_ioctl_version _ := mret (0, BINDER_CURRENT_PROTOCOL_VERSION);
  sys_ioctl_set_max_threads _ _ := mret 0;
  sys_ioctl_set_context_mgr _ := mret 0;
  sys_ioctl_thread_exit _ := mret tt;
  sys_ioctl_write_read _ wbuf _ := λ s, Ok (0, Z.of_nat (length wbuf), [], (s.1, mk_world (w_sent s.2 ++ wbuf) (w_reports s.2)));
  sys_getpriority := mret 0;
  sys_setpriority _ := mret tt;
  sys_close_files _ _ _ _ := mret tt
}.
#[export] Instance demo_reliable : Reliable world := { sent := w_sent; reports := w_reports }.
#[export] Instance demo_reliable_laws : ReliableLaws world.
Proof. intros fd wbuf rsize m d Hfd Hr. eexists [], _. split; [reflexivity|]. by split_and!. Qed.

#[export] Instance demo_machine : Machine := {
  getWeakRefs x := x + 8; refBase x := x - 8; max_handles := 100; own_pid := 42; own_uid := 1000; statusBuffer_at n := 4096 + 64 * Z.of_nat n
}.
#[export] Instance demo_machine_laws : MachineLaws.
Proof. intros x. unfold refBase, getWeakRefs, demo_machine. lia. Qed.

Definition attempt (handle : Z) : Ipc.M (D := world) Z := mret INVALID_OPERATION.
Definition cleanup (id : Z) (e : entry) : Ipc.M (D := world) unit := mret tt.
(** The recipient takes note. *)
Definition died (r x : Z) : Ipc.M (D := world) unit := on_device (modify (λ w, mk_world (w_sent w) (w_reports w ++ [(r, x)]))).

Lemma died_ok : callbacks_ok died.
Proof.
  intros r x i d g o Hinv _ _ _. eexists i, _. split; [reflexivity|]. split_and!; [|apply keeps_refl|done].
  by destruct Hinv; constructor.
Qed.

(** Two recipients, each with one strong reference; the proxies get the
    addresses 200 and 300. *)
Definition recipient : Refs.object :=
  match call (λ _, true) incStrong (new_object OBJECT_LIFETIME_STRONG) with Ok (_, o) => o | Oops _ => new_object 0 end.
Definition demo_ipc : ipc :=
  mk_ipc (mk_process 5 true false 0 0 false 1 [])
    (mk_thread [] 0 256 [] [] [] NO_ERROR 42 1000 0 0 true)
    {[ 100 := mk_item recipient Program; 104 := mk_item recipient Program ]} [200; 300] [] ∅ 0 false.
Definition demo_ghost : ghost := mk_ghost (λ x, if (x =? 100) || (x =? 104) then 1 else 0) (λ _, 0) (λ _, 0).

Lemma demo_started : started demo_ipc (mk_world [] []) demo_ghost.
Proof.
  constructor; try done.
  - intros x h. unfold demo_ipc. cbn [i_heap]. rewrite lookup_insert_Some, lookup_singleton_Some.
    intros [[<- <-]|[_ [<- <-]]]; (split; [done|]); (split; [done|]); constructor; vm_compute; done || (by split).
  - intros x Hx. unfold demo_ipc in Hx. cbn [i_heap] in Hx. apply lookup_insert_None in Hx as [Hx Hn]. apply lookup_singleton_None in Hx.
    unfold demo_ghost. cbn. by rewrite !(proj2 (Z.eqb_neq _ _)) by done.
  - split; apply (bool_decide_unpack _); by vm_compute.
Qed.

(** A proxy is made, linked to twice, counted, reported dead and freed. *)
Definition demo_acts : list act :=
  [Get_strong 7; Link 200 100 1 0; Link 200 104 2 0; Get_weak 7; Count decWeak 200; Unlink 200 104 2 0 false; Link 200 104 3 0;
   Dead_binder 200; Link 200 100 4 0; Clear_done 200; Count decStrong 200; Get_weak 7].

Lemma demo_lawful : lawful attempt died cleanup demo_acts demo_ipc (mk_world [] []) demo_ghost.
Proof. apply (bool_decide_unpack _). by vm_compute. Qed.

(** What the calls answer: the proxy is found again, the recipient that gave up
    is not told, who links to a dead proxy is told so, and the handle gets a new
    proxy when the first one is freed. *)
Lemma demo_answers : ∃ i' d',
  perform_all attempt died cleanup demo_acts (demo_ipc, mk_world [] []) =
  Ok ([200; 0; 0; 200; 1; 0; 0; 0; DEAD_OBJECT; 0; 1; 300], (i', d')) ∧
  w_reports d' = [(100, 200); (104, 200)] ∧ live_proxy i' 200 = None ∧ live_proxy i' 300 = Some (mk_proxy 7 true false None []).
Proof. eexists _, _. split; [vm_compute; reflexivity|]. split_and!; by vm_compute. Qed.

Lemma handle_table_well_formed_witness : ∃ rs i' d',
  perform_all attempt died cleanup demo_acts (demo_ipc, mk_world [] []) = Ok (rs, (i', d')) ∧
  ∀ x b, live_proxy i' x = Some b → table i' !! slot (mHandle b) = Some (mk_handle x (x + 8)).
Proof.
  destruct (handle_table_well_formed attempt died cleanup demo_acts demo_ipc (mk_world [] []) demo_ghost died_ok demo_started demo_lawful)
    as (rs & i' & d' & E & _ & H & _). exists rs, i', d'. split; [exact E|exact H].
Defined.

Lemma driver_told_of_proxies_witness : ∃ rs i' d' cmds,
  perform_all attempt died cleanup demo_acts (demo_ipc, mk_world [] []) = Ok (rs, (i', d')) ∧
  w_sent d' ++ mOut (i_thread i') = concat (encode <$> cmds) ∧ told 7 cmds = needed 7 i'.
Proof.
  destruct (driver_told_of_proxies attempt died cleanup demo_acts demo_ipc (mk_world [] []) demo_ghost died_ok demo_started demo_lawful)
    as (rs & i' & d' & cmds & E & Ec & H & _). exists rs, i', d', cmds. split; [exact E|]. split; [exact Ec|]. apply H. lia.
Defined.

(** The state after the first calls, in which the proxy has two recipients. *)
Definition first_acts : list act := take 7 demo_acts.
Definition linked : ipc * world :=
  match perform_all attempt died cleanup first_acts (demo_ipc, mk_world [] []) with Ok (_, s) => s | Oops _ => (demo_ipc, mk_world [] []) end.
Definition linked_ghost : ghost := after_all attempt died cleanup first_acts demo_ipc (mk_world [] []) demo_ghost.
Definition linked_proxy : proxy := default (mk_proxy 0 false false None []) (live_proxy linked.1 200).

Lemma linked_inv : inv linked.1 linked.2 linked_ghost.
Proof.
  assert (Hl : lawful attempt died cleanup first_acts demo_ipc (mk_world [] []) demo_ghost) by (apply (bool_decide_unpack _); by vm_compute).
  destruct (run_ok attempt died cleanup first_acts demo_ipc (mk_world [] []) demo_ghost died_ok (started_inv _ _ _ demo_started) Hl) as (rs & i' & d' & E & Hinv).
  unfold linked. by rewrite E.
Qed.
Lemma linked_live : ∃ o, live (i_heap linked.1) 200 o linked_proxy.
Proof.
  destruct (live_proxy_live linked.1 200) as (o & b & Hl & E); [by vm_compute|]. exists o. unfold linked_proxy. by rewrite E.
Qed.

Lemma obituary_reaches_recipients_once_witness : ∃ i' d', sendObituary died 200 (linked.1, linked.2) = Ok (tt, (i', d')) ∧ w_reports d' = [(100, 200); (104, 200)].
Proof.
  destruct linked_live as [o Hl].
  destruct (obituary_reaches_recipients_once died 200 linked.1 linked.2 linked_ghost o linked_proxy died_ok linked_inv) as (i' & d' & i'' & E & Er & _).
  - apply (bool_decide_unpack _). vm_compute. reflexivity.
  - exact Hl.
  - exists i', d'. split; [exact E|]. change (w_reports d') with (reports d'). rewrite Er. vm_compute. reflexivity.
Defined.
End ProxiesDemo.
