(* ===== verification/IpcThread.v ===== *)
(** A thread of [libbinder]: the command loop of [IPCThreadState.cpp], what it
    calls of [BpBinder.cpp], [Binder.cpp] and [ProcessState.cpp], and the
    programs that it runs.  The driver may send a transaction while the thread
    waits for an answer, its handler may start another one, and so on: the
    functions of one [level] of this nesting call those of the level below. *)
From S2P Require Import Prelude UserMem BinderUapi RefBase IpcState BpBinder.
Import Ipc Proxies.

Module Threads.

Definition ANDROID_PRIORITY_NORMAL : Z := 0.
Definition ANDROID_PRIORITY_BACKGROUND : Z := 10.

(** ** Parcels at the border *)

(** What [writeTransactionData] reads of a parcel: [errorCheck], [ipcData],
    [ipcDataSize], [ipcObjects], [ipcObjectsCount]. *)
Record outgoing : Type := mk_outgoing { out_error : Z; out_data : Z; out_size : Z; out_objects : Z; out_count : Z }.
(** What [ipcSetDataReference] is given. *)
Record incoming : Type := mk_incoming { in_data : Z; in_data_size : Z; in_objects : Z; in_objects_count : Z }.
(** A parcel that receives a reply: its error, and the data it refers to. *)
Record reply : Type := mk_reply { rp_error : Z; rp_data : option incoming }.
Definition no_reply : reply := mk_reply NO_ERROR None.

Definition incoming_of (tr : binder_transaction_data) : incoming :=
  mk_incoming (tr_buffer tr) (tr_data_size tr) (tr_offsets tr) (tr_offsets_size tr / 4).

(** ** Programs *)

(** What a program may ask of the library while it runs in this thread. *)
Inductive call : Set → Type :=
| Transact (proxy code : Z) (data : outgoing) (want_reply : bool) (flags : Z) : call (Z * reply)
| Ping (proxy : Z) (data : outgoing) : call Z
| Release_reply (p : reply) : call unit
| Strong_proxy (handle : Z) : call Z
| Weak_proxy (handle : Z) : call Z
| Count_refs (x : Z) (c : Refs.op) : call bool
| Link_to_death (x recipient cookie flags : Z) : call Z
| Unlink_to_death (x recipient cookie flags : Z) (want_recipient : bool) : call (Z * Z)
| Is_alive (x : Z) : call bool
| Attach_object (x id : Z) (e : entry) : call unit
| Find_object (x id : Z) : call Z
| Detach_object (x id : Z) : call unit
| Load_word (address : Z) : call Z
| Store_word (address value : Z) : call unit
| Calling_pid : call Z
| Calling_uid : call Z
| Clear_calling_identity : call Z
| Restore_calling_identity (token : Z) : call unit
| Clear_last_error : call Z
| Get_strict_mode_policy : call Z
| Set_strict_mode_policy (policy : Z) : call unit
| Get_last_transaction_flags : call Z
| Set_last_transaction_flags (flags : Z) : call unit
| Flush_commands : call unit
| Stop_process : call unit
| Start_thread_pool : call unit
| Become_context_manager (check data : Z) : call bool
| Set_thread_pool_max (n : Z) : call Z
| Set_context_object (x : Z) : call unit
| Disable_background (disable : bool) : call unit.

Inductive user (A : Type) : Type :=
| Return (a : A)
| Call {B : Set} (c : call B) (k : B → user A).
#[global] Arguments Return {A} _.
#[global] Arguments Call {A B} _ _.

Section thread.
Context {D : Type} {DV : Device D} {MA : Machine}.
Notation M := (M (D := D)).

(** The program: the methods of its [BBinder]s, of its recipients, the functions
    it attaches to proxies; and what [writeInt32(NO_ERROR)] makes of a parcel. *)
Context (onTransact : Z → Z → incoming → Z → user (Z * outgoing)) (binderDied : Z → Z → user unit) (cleanup : Z → entry → user unit).
Context (pong : outgoing).

(** ** [ProcessState] *)

Definition spawnPooledThread (isMain : bool) : M unit :=
  p ← prc;
  when (mThreadPoolStarted p)
    (set_process (λ p, p <| mThreadPoolSeq %= λ n, s32 (n + 1) |>) ;;
     set_ipc (λ i, i <| i_spawned %= λ l, l ++ [(mThreadPoolSeq p, isMain)] |>)).

Definition startThreadPool : M unit :=
  p ← prc;
  when (negb (mThreadPoolStarted p)) (set_process (λ p, p <| mThreadPoolStarted := true |>) ;; spawnPooledThread true).

Definition becomeContextManager (checkFunc userData : Z) : M bool :=
  p ← prc;
  when (negb (mManagesContexts p))
    (set_process (λ p, p <| mBinderContextCheckFunc := checkFunc |> <| mBinderContextUserData := userData |>) ;;
     result ← on_device (sys_ioctl_set_context_mgr (mDriverFD p));
     if result =? 0 then set_process (λ p, p <| mManagesContexts := true |>)
     else when (result =? -1) (set_process (λ p, p <| mBinderContextCheckFunc := 0 |> <| mBinderContextUserData := 0 |>))) ;;
  p ← prc; mret (mManagesContexts p).

(** The system call answers the negated [errno]. *)
Definition setThreadPoolMaxThreadCount (maxThreads : Z) : M Z :=
  p ← prc;
  result ← on_device (sys_ioctl_set_max_threads (mDriverFD p) maxThreads);
  mret (if result <? 0 then result else NO_ERROR).

Definition open_driver : M Z :=
  fd ← on_device sys_open;
  if fd >=? 0 then
    r ← on_device (sys_ioctl_version fd);
    let '(result, vers) := r in
    fd ← (if result =? -1 then on_device (sys_close fd) ;; mret (-1) else mret fd);
    fd ← (if negb (result =? 0) || negb (vers =? BINDER_CURRENT_PROTOCOL_VERSION) then on_device (sys_close fd) ;; mret (-1) else mret fd);
    on_device (sys_ioctl_set_max_threads fd 15) ;;
    mret fd
  else mret fd.

(** The constructor: without a driver the process ends. *)
Definition ProcessState : M unit :=
  fd ← open_driver;
  set_process (λ _, mk_process fd false false 0 0 false 1 []) ;;
  when (fd >=? 0)
    (ok ← on_device (sys_mmap fd BINDER_VM_SIZE);
     if (ok : bool) then set_process (λ p, p <| mVMStart := true |>)
     else on_device (sys_close fd) ;; set_process (λ p, p <| mDriverFD := -1 |>)) ;;
  p ← prc; bug_on (mDriverFD p <? 0).

(** ** The thread *)

(** The constructor of [IPCThreadState]. *)
Definition IPCThreadState : M unit :=
  set_thread (λ t, t <| mIn := [] |> <| mInPos := 0 |> <| mInCapacity := 256 |> <| mOut := [] |>
    <| mPendingStrongDerefs := [] |> <| mPendingWeakDerefs := [] |> <| mStrictModePolicy := 0 |> <| mLastTransactionBinderFlags := 0 |>) ;;
  clearCaller.

Definition stopProcess : M unit :=
  flushCommands ;;
  p ← prc;
  set_process (λ p, p <| mDriverFD := -1 |>) ;;
  on_device (sys_close (mDriverFD p)).

Definition threadDestructor : M unit :=
  flushCommands ;;
  p ← prc;
  when (mDriverFD p >? 0) (on_device (sys_ioctl_thread_exit (mDriverFD p))).

(** ** Parcels *)

(** [ipcSetDataReference], for this thread as the owner; [setError]. *)
Definition free_data (p : reply) : M unit :=
  match rp_data p with
  | Some m => freeBuffer true (in_data m) (in_data_size m) (in_objects m) (in_objects_count m)
  | None => mret tt
  end.
Definition ipcSetDataReference (m : incoming) (p : reply) : M reply := free_data p ;; mret (mk_reply NO_ERROR (Some m)).
Definition setError (err : Z) (p : reply) : reply := mk_reply err (rp_data p).

Definition writeTransactionData (cmd binderFlags handle code : Z) (data : outgoing) (statusBuffer : option Z) : M Z :=
  let tr size buffer osize offsets flags := mk_tr (u32 handle) 0 code flags 0 0 (u32 size) (u32 osize) (u32 buffer) (u32 offsets) in
  let send tr := out_words [cmd] ;; out_bytes (encode_tr tr) ;; mret NO_ERROR in
  if out_error data =? NO_ERROR then
    send (tr (out_size data) (out_data data) (out_count data * 4) (out_objects data) binderFlags)
  else
    match statusBuffer with
    | Some a =>
        set_ipc (λ i, i <| i_mem %= put_bytes a (le_bytes 4 (u32 (out_error data))) |>) ;;
        send (tr 4 a 0 0 (Z.lor binderFlags TF_STATUS_CODE))
    | None => set_thread (λ t, t <| mLastError := out_error data |>) ;; mret (out_error data)
    end.

(** ** The functions of one level *)

(** Those of the level below: [waitForResponse], which takes and gives the
    variables that its arguments point to, programs, and the depth. *)
Record level : Type := mk_level {
  l_wait : option reply → option Z → M (Z * option reply * option Z);
  l_user : ∀ A : Type, user A → M A;
  l_depth : nat
}.

Section level.
Context (l : level).

Definition attemptIncStrongHandle (handle : Z) : M Z :=
  out_words [BC_ATTEMPT_ACQUIRE; 0; handle] ;;
  r ← l_wait l None (Some UNKNOWN_ERROR);
  mret (default UNKNOWN_ERROR r.2).

Definition run_died (r x : Z) : M unit := l_user l unit (binderDied r x).
Definition run_cleanup (id : Z) (e : entry) : M unit := l_user l unit (cleanup id e).
Definition count (x : Z) (c : Refs.op) : M bool := refs attemptIncStrongHandle run_cleanup x c.

(** [IPCThreadState::transact]; [rp] is the parcel for the reply, if there is one. *)
Definition transact (handle code : Z) (data : outgoing) (rp : option reply) (flags : Z) : M (Z * option reply) :=
  let flags := Z.lor flags TF_ACCEPT_FDS in
  err ← (if out_error data =? NO_ERROR then writeTransactionData BC_TRANSACTION flags handle code data None else mret (out_error data));
  if negb (err =? NO_ERROR) then
    set_thread (λ t, t <| mLastError := err |>) ;; mret (err, setError err <$> rp)
  else if negb (has_flag flags TF_ONE_WAY) then
    match rp with
    | Some _ => r ← l_wait l rp None; mret r.1
    | None =>
        r ← l_wait l (Some no_reply) None;
        (match r.1.2 with Some fake => free_data fake | None => mret tt end) ;;
        mret (r.1.1, None)
    end
  else r ← l_wait l None None; mret (r.1.1, rp).

Definition sendReply (rp : outgoing) (flags : Z) : M Z :=
  err ← writeTransactionData BC_REPLY flags (-1) 0 rp (Some (statusBuffer_at (l_depth l)));
  if err <? NO_ERROR then mret err else r ← l_wait l None None; mret r.1.1.

(** [BpBinder::transact]. *)
Definition proxy_transact (x code : Z) (data : outgoing) (rp : option reply) (flags : Z) : M (Z * option reply) :=
  b ← proxy_at x;
  if mAlive b then
    r ← transact (mHandle b) code data rp flags;
    when (r.1 =? DEAD_OBJECT) (set_proxy x (λ b, b <| mAlive := false |>)) ;;
    mret r
  else mret (DEAD_OBJECT, rp).

Definition load_word (a : Z) : M Z :=
  on_memory (λ s, match load32 a s.1 with Ok (w, mem) => Ok (w, (mem, s.2)) | Oops o => Oops o end).

(** [BpBinder::pingBinder]: the reply is a parcel of its own. *)
Definition pingBinder (x : Z) (data : outgoing) : M Z :=
  r ← proxy_transact x PING_TRANSACTION data (Some no_reply) 0;
  let rp := default no_reply r.2 in
  status ←
    (if negb (r.1 =? NO_ERROR) then mret r.1
     else
       match rp_data rp with
       | Some m =>
           if in_data_size m <? 4 then mret NOT_ENOUGH_DATA
           else w ← load_word (in_data m); mret (s32 w)
       | None => mret NOT_ENOUGH_DATA
       end);
  free_data rp ;; mret status.

(** ** Programs *)

Definition perform {B : Set} (c : call B) : M B :=
  match c in call B return M B with
  | Transact x code data want flags =>
      r ← proxy_transact x code data (if want then Some no_reply else None) flags; mret (r.1, default no_reply r.2)
  | Ping x data => pingBinder x data
  | Release_reply p => free_data p
  | Strong_proxy h => getStrongProxyForHandle attemptIncStrongHandle run_cleanup h
  | Weak_proxy h => getWeakProxyForHandle attemptIncStrongHandle run_cleanup h
  | Count_refs x c => count x c
  | Link_to_death x r cookie flags => linkToDeath attemptIncStrongHandle run_cleanup x r cookie flags
  | Unlink_to_death x r cookie flags want => unlinkToDeath x r cookie flags want
  | Is_alive x => isBinderAlive x
  | Attach_object x id e => attachObject x id e
  | Find_object x id => findObject x id
  | Detach_object x id => detachObject x id
  | Load_word a => load_word a
  | Store_word a w => on_memory (λ s, match store32 a w s.1 with Ok (_, mem) => Ok (tt, (mem, s.2)) | Oops o => Oops o end)
  | Calling_pid => t ← thr; mret (mCallingPid t)
  | Calling_uid => t ← thr; mret (mCallingUid t)
  | Clear_calling_identity => clearCallingIdentity
  | Restore_calling_identity token => restoreCallingIdentity token
  | Clear_last_error => clearLastError
  | Get_strict_mode_policy => t ← thr; mret (mStrictModePolicy t)
  | Set_strict_mode_policy policy => set_thread (λ t, t <| mStrictModePolicy := policy |>)
  | Get_last_transaction_flags => t ← thr; mret (mLastTransactionBinderFlags t)
  | Set_last_transaction_flags flags => set_thread (λ t, t <| mLastTransactionBinderFlags := flags |>)
  | Flush_commands => flushCommands
  | Stop_process => stopProcess
  | Start_thread_pool => startThreadPool
  | Become_context_manager check data => becomeContextManager check data
  | Set_thread_pool_max n => setThreadPoolMaxThreadCount n
  | Set_context_object x => set_ipc (λ i, i <| the_context_object := x |>)
  | Disable_background disable => set_ipc (λ i, i <| gDisableBackgroundScheduling := disable |>)
  end.

Fixpoint run_user {A : Type} (u : user A) : M A :=
  match u with
  | Return a => mret a
  | Call c k => b ← perform c; run_user (k b)
  end.

(** [BBinder::transact] of the object at [x]; the status and the reply. *)
Definition local_transact (x code : Z) (data : incoming) (flags : Z) : M (Z * outgoing) :=
  if code =? PING_TRANSACTION then mret (NO_ERROR, pong) else run_user (onTransact x code data flags).

(** ** Commands of the driver *)

Definition handle_transaction (tr : binder_transaction_data) : M unit :=
  let buffer := incoming_of tr in
  t ← thr;
  let origPid := mCallingPid t in let origUid := mCallingUid t in
  set_thread (λ t, t <| mCallingPid := s32 (tr_sender_pid tr) |> <| mCallingUid := tr_sender_euid tr |>) ;;
  curPrio ← on_device sys_getpriority;
  disabled ← gets (λ s, gDisableBackgroundScheduling s.1);
  (if (disabled : bool) then when (curPrio >? ANDROID_PRIORITY_NORMAL) (on_device (sys_setpriority ANDROID_PRIORITY_NORMAL))
   else when (curPrio >=? ANDROID_PRIORITY_BACKGROUND) (set_thread (λ t, t <| t_foreground := false |>))) ;;
  r ← (if negb (tr_target tr =? 0) then
         count (tr_cookie tr) Refs.incStrong ;;
         r ← local_transact (tr_cookie tr) (tr_code tr) buffer (tr_flags tr);
         count (tr_cookie tr) Refs.decStrong ;;
         mret r
       else
         x ← gets (λ s, the_context_object s.1);
         if x =? 0 then fail Null_deref else local_transact x (tr_code tr) buffer (tr_flags tr));
  let rp := if r.1 <? NO_ERROR then mk_outgoing r.1 (out_data r.2) (out_size r.2) (out_objects r.2) (out_count r.2) else r.2 in
  (if negb (has_flag (tr_flags tr) TF_ONE_WAY) then sendReply rp 0 ;; mret tt else mret tt) ;;
  set_thread (λ t, t <| mCallingPid := origPid |> <| mCallingUid := origUid |>) ;;
  freeBuffer true (in_data buffer) (in_data_size buffer) (in_objects buffer) (in_objects_count buffer).

(** Two pointers, to the [weakref_type] and to the object. *)
Definition read_refs_obj : M (Z * Z) := r ← in_int32; o ← in_int32; mret (u32 r, u32 o).

Definition executeCommand (cmd : Z) : M Z :=
  result ←
    (if cmd =? BR_ERROR then in_int32
     else if cmd =? BR_OK then mret NO_ERROR
     else if cmd =? BR_ACQUIRE then
       p ← read_refs_obj; let '(rf, obj) := p in
       count obj Refs.incStrong ;;
       out_words [BC_ACQUIRE_DONE; rf; obj] ;; mret NO_ERROR
     else if cmd =? BR_RELEASE then
       p ← read_refs_obj; let '(rf, obj) := p in
       set_thread (λ t, t <| mPendingStrongDerefs %= λ l, l ++ [obj] |>) ;; mret NO_ERROR
     else if cmd =? BR_INCREFS then
       p ← read_refs_obj; let '(rf, obj) := p in
       count (refBase rf) Refs.incWeakRef ;;
       out_words [BC_INCREFS_DONE; rf; obj] ;; mret NO_ERROR
     else if cmd =? BR_DECREFS then
       p ← read_refs_obj; let '(rf, obj) := p in
       set_thread (λ t, t <| mPendingWeakDerefs %= λ l, l ++ [rf] |>) ;; mret NO_ERROR
     else if cmd =? BR_ATTEMPT_ACQUIRE then
       p ← read_refs_obj; let '(rf, obj) := p in
       success ← count (refBase rf) Refs.attemptIncStrong;
       out_words [BC_ACQUIRE_RESULT; b2z success] ;; mret NO_ERROR
     else if cmd =? BR_TRANSACTION then
       bs ← in_read sizeof_transaction_data;
       match bs with
       | Some bs => handle_transaction (decode_tr bs) ;; mret NO_ERROR
       | None => mret NOT_ENOUGH_DATA
       end
     else if cmd =? BR_DEAD_BINDER then
       proxy ← in_int32;
       sendObituary run_died (u32 proxy) ;;
       out_words [BC_DEAD_BINDER_DONE; u32 proxy] ;; mret NO_ERROR
     else if cmd =? BR_CLEAR_DEATH_NOTIFICATION_DONE then
       proxy ← in_int32;
       count (u32 proxy) Refs.decWeak ;; mret NO_ERROR
     else if cmd =? BR_FINISHED then mret TIMED_OUT
     else if cmd =? BR_NOOP then mret NO_ERROR
     else if cmd =? BR_SPAWN_LOOPER then spawnPooledThread false ;; mret NO_ERROR
     else mret UNKNOWN_ERROR);
  when (negb (result =? NO_ERROR)) (set_thread (λ t, t <| mLastError := result |>)) ;;
  mret result.

(** The end of [waitForResponse]. *)
Definition finish (err : Z) (rp : option reply) (acquire : option Z) : M (Z * option reply * option Z) :=
  if err =? NO_ERROR then mret (err, rp, acquire)
  else set_thread (λ t, t <| mLastError := err |>) ;; mret (err, setError err <$> rp, (λ _, err) <$> acquire).

(** [BR_REPLY]; [None] is to go on waiting. *)
Definition take_reply (tr : binder_transaction_data) (rp : option reply) : M (option (Z * option reply)) :=
  let m := incoming_of tr in
  let free := freeBuffer false (in_data m) (in_data_size m) (in_objects m) (in_objects_count m) in
  match rp with
  | Some p =>
      if negb (has_flag (tr_flags tr) TF_STATUS_CODE) then p ← ipcSetDataReference m p; mret (Some (NO_ERROR, Some p))
      else err ← load_word (in_data m); free ;; mret (Some (s32 err, Some p))
  | None => free ;; mret None
  end.

(** The [switch] of [waitForResponse], and the loop from there. *)
Definition wait_command (cmd : Z) (rp : option reply) (acquire : option Z) : M (Z * option reply * option Z) :=
  if cmd =? BR_TRANSACTION_COMPLETE then
    if bool_decide (rp = None) && bool_decide (acquire = None) then finish NO_ERROR rp acquire else l_wait l rp acquire
  else if cmd =? BR_DEAD_REPLY then finish DEAD_OBJECT rp acquire
  else if cmd =? BR_FAILED_REPLY then finish FAILED_TRANSACTION rp acquire
  else if cmd =? BR_ACQUIRE_RESULT then
    result ← in_int32;
    if bool_decide (acquire = None) then l_wait l rp acquire
    else finish NO_ERROR rp (Some (if result =? 0 then INVALID_OPERATION else NO_ERROR))
  else if cmd =? BR_REPLY then
    bs ← in_read sizeof_transaction_data;
    match bs with
    | None => finish NOT_ENOUGH_DATA rp acquire
    | Some bs =>
        r ← take_reply (decode_tr bs) rp;
        match r with
        | Some (err, rp) => finish err rp acquire
        | None => l_wait l rp acquire
        end
    end
  else
    err ← executeCommand cmd;
    if negb (err =? NO_ERROR) then finish err rp acquire else l_wait l rp acquire.

(** One turn of its loop. *)
Definition wait_turn (rp : option reply) (acquire : option Z) : M (Z * option reply * option Z) :=
  err ← talkWithDriver true;
  if err <? NO_ERROR then finish err rp acquire
  else
    t ← thr;
    if in_avail t =? 0 then l_wait l rp acquire
    else cmd ← in_int32; wait_command (u32 cmd) rp acquire.
End level.

(** ** All levels *)

Definition next_level (l : level) (depth : nat) : level := mk_level (wait_turn l) (λ A u, run_user l u) depth.
(** [n] levels, below a stack of the given depth. *)
Fixpoint level_at (n depth : nat) : level :=
  match n with
  | O => mk_level (λ _ _, fail Fuel) (λ _ _, fail Fuel) depth
  | S n' => next_level (level_at n' (S depth)) depth
  end.

Definition waitForResponse (n : nat) := l_wait (level_at n 0).

(** ** The pool *)

Definition process_pending (l : level) : M unit :=
  t ← thr;
  if mInPos t >=? in_size t then
    for_each (λ rf, count l (refBase rf) Refs.decWeak ;; mret tt) (mPendingWeakDerefs t) ;;
    set_thread (λ t, t <| mPendingWeakDerefs := [] |>) ;;
    t ← thr;
    for_each (λ obj, count l obj Refs.decStrong ;; mret tt) (mPendingStrongDerefs t) ;;
    set_thread (λ t, t <| mPendingStrongDerefs := [] |>)
  else mret tt.

(** One turn of the loop of [joinThreadPool]: whether the thread stays. *)
Definition pool_turn (l : level) (isMain : bool) : M bool :=
  process_pending l ;;
  result ← talkWithDriver true;
  t ← thr;
  if (result >=? NO_ERROR) && (in_avail t <? 4) then mret true
  else
    result ←
      (if result >=? NO_ERROR then cmd ← in_int32; executeCommand l (u32 cmd)
       else if negb (result =? TIMED_OUT) && negb (result =? - ECONNREFUSED) && negb (result =? - EBADF) then fail Bug
       else mret result);
    set_thread (λ t, t <| t_foreground := true |>) ;;
    if (result =? TIMED_OUT) && negb isMain then mret false
    else mret (negb (result =? - ECONNREFUSED) && negb (result =? - EBADF)).

Fixpoint pool_loop (turns n : nat) (isMain : bool) : M unit :=
  match turns with
  | O => fail Fuel
  | S turns' => stay ← pool_turn (level_at n 0) isMain; if (stay : bool) then pool_loop turns' n isMain else mret tt
  end.

Definition joinThreadPool (turns n : nat) (isMain : bool) : M unit :=
  out_words [if isMain then BC_ENTER_LOOPER else BC_REGISTER_LOOPER] ;;
  set_thread (λ t, t <| t_foreground := true |>) ;;
  pool_loop turns n isMain ;;
  out_words [BC_EXIT_LOOPER] ;;
  talkWithDriver false ;; mret tt.
End thread.
End Threads.
