(* ===== verification/IpcThreadSpec.v ===== *)
(** The command loop of a thread: more levels only turn the outcome [Fuel] into
    an answer, and the identity of the caller is what it was when a call into
    the library returns. *)
From S2P Require Import Prelude UserMem BinderUapi RefBase IpcState BpBinder IpcThread.
Import Ipc Proxies Threads.

Module ThreadsSpec.

(** ** More fuel *)

Section approx.
Context {D : Type} {DV : Device D} {MA : Machine}.
Notation M := (M (D := D)).

(** [m'] answers what [m] answers, unless [m] runs out of fuel. *)
Definition approx {A} (m m' : M A) : Prop := ∀ s, m s = Oops Fuel ∨ m s = m' s.

Lemma approx_refl {A} (m : M A) : approx m m.
Proof. by right. Qed.
Lemma approx_fuel {A} (m : M A) : approx (fail Fuel) m.
Proof. by left. Qed.
Lemma approx_bind {A B} (m m' : M A) (f f' : A → M B) : approx m m' → (∀ a, approx (f a) (f' a)) → approx (m ≫= f) (m' ≫= f').
Proof.
  intros Hm Hf s. unfold mbind, st_bind. destruct (Hm s) as [->| ->]; [by left|]. destruct (m' s) as [[a s']|o]; [apply Hf|by right].
Qed.
Lemma approx_for_each {A} (f f' : A → M unit) l : (∀ a, approx (f a) (f' a)) → approx (for_each f l) (for_each f' l).
Proof. intros Hf. induction l as [|a l IH]; [apply approx_refl|]. cbn [for_each]. by apply approx_bind. Qed.
End approx.
Create HintDb approx discriminated.
#[export] Hint Constants Opaque : approx.
#[export] Hint Variables Opaque : approx.
#[export] Hint Resolve approx_for_each : approx.

(** Go through a program along its actions and cases. *)
Ltac approx_step :=
  match goal with
  | |- approx ?m ?m' => constr_eq m m'; apply approx_refl
  | |- approx (_ ≫= _) (_ ≫= _) => apply approx_bind; [|intros ?]
  | |- approx (for_each _ _) (for_each _ _) => apply approx_for_each; intros ?
  | |- approx (when ?b _) (when ?b _) => unfold when
  | |- approx (if ?b then _ else _) (if ?b then _ else _) => destruct b
  | |- approx (match ?x with _ => _ end) _ => destruct x
  end.
Ltac approximate := repeat (approx_step || (progress cbv zeta)); eauto with approx.

Section mono.
Context {D : Type} {DV : Device D} {MA : Machine}.
Notation M := (M (D := D)).

(** *** Proxies *)

Section proxies.
Context (attempt attempt' : Z → M Z) (Ha : ∀ h, approx (attempt h) (attempt' h)).
Context (cleanup cleanup' : Z → entry → M unit) (Hc : ∀ id e, approx (cleanup id e) (cleanup' id e)).
Context (died died' : Z → Z → M unit) (Hd : ∀ r x, approx (died r x) (died' r x)).

Lemma destroy_mono x : approx (destroy cleanup x) (destroy cleanup' x).
Proof. unfold destroy, kill. approximate. Qed.
Lemma virtual_call_mono x l : approx (virtual_call attempt cleanup x l) (virtual_call attempt' cleanup' x l).
Proof. pose proof destroy_mono. destruct l; unfold virtual_call, onIncStrongAttempted; approximate. Qed.
Lemma refs_mono x c : approx (refs attempt cleanup x c) (refs attempt' cleanup' x c).
Proof.
  unfold refs. approximate. generalize (Refs.start c). generalize 16%nat. intros n. induction n as [|n IH]; intros l.
  - destruct l; apply approx_refl.
  - pose proof virtual_call_mono. destruct l; cbn [refs_loop]; approximate.
Qed.
Lemma current_proxy_mono e : approx (current_proxy attempt cleanup e) (current_proxy attempt' cleanup' e).
Proof. pose proof refs_mono. unfold current_proxy. approximate. Qed.
Lemma getStrong_mono h : approx (getStrongProxyForHandle attempt cleanup h) (getStrongProxyForHandle attempt' cleanup' h).
Proof. pose proof refs_mono. pose proof current_proxy_mono. unfold getStrongProxyForHandle. approximate. Qed.
Lemma getWeak_mono h : approx (getWeakProxyForHandle attempt cleanup h) (getWeakProxyForHandle attempt' cleanup' h).
Proof. pose proof refs_mono. pose proof current_proxy_mono. unfold getWeakProxyForHandle. approximate. Qed.
Lemma link_mono x r cookie flags : approx (linkToDeath attempt cleanup x r cookie flags) (linkToDeath attempt' cleanup' x r cookie flags).
Proof. pose proof refs_mono. unfold linkToDeath. approximate. Qed.
Lemma obituary_mono x : approx (sendObituary died x) (sendObituary died' x).
Proof. unfold sendObituary, reportOneDeath. approximate. Qed.
End proxies.

(** *** Levels *)

Context (onTransact : Z → Z → incoming → Z → user (Z * outgoing)) (binderDied : Z → Z → user unit) (cleanup : Z → entry → user unit).
Context (pong : outgoing).
Notation level := (level (D := D)).

Record below (l l' : level) : Prop := {
  below_wait rp acquire : approx (l_wait l rp acquire) (l_wait l' rp acquire);
  below_user A (u : user A) : approx (l_user l A u) (l_user l' A u);
  below_depth : l_depth l = l_depth l'
}.

Section level.
Context (l l' : level) (Hl : below l l').

#[local] Hint Resolve below_wait below_user : approx.

Lemma attempt_mono h : approx (attemptIncStrongHandle l h) (attemptIncStrongHandle l' h).
Proof using Hl. unfold attemptIncStrongHandle. approximate. Qed.
#[local] Hint Resolve attempt_mono : approx.
Lemma count_mono x c : approx (count cleanup l x c) (count cleanup l' x c).
Proof using Hl. unfold count, run_cleanup. apply refs_mono; approximate. Qed.
#[local] Hint Resolve count_mono : approx.
Lemma transact_mono handle code data rp flags : approx (transact l handle code data rp flags) (transact l' handle code data rp flags).
Proof using Hl. unfold transact. approximate. Qed.
#[local] Hint Resolve transact_mono : approx.
Lemma proxy_transact_mono x code data rp flags : approx (proxy_transact l x code data rp flags) (proxy_transact l' x code data rp flags).
Proof using Hl. unfold proxy_transact. approximate. Qed.
#[local] Hint Resolve proxy_transact_mono : approx.
Lemma sendReply_mono rp flags : approx (sendReply l rp flags) (sendReply l' rp flags).
Proof using Hl. unfold sendReply. rewrite (below_depth _ _ Hl). approximate. Qed.
#[local] Hint Resolve sendReply_mono : approx.

Lemma perform_mono {B : Set} (c : call B) : approx (perform cleanup l c) (perform cleanup l' c).
Proof using Hl.
  destruct c; cbn [perform]; try (solve [approximate]).
  - unfold pingBinder. approximate.
  - apply getStrong_mono; unfold run_cleanup; approximate.
  - apply getWeak_mono; unfold run_cleanup; approximate.
  - apply link_mono; unfold run_cleanup; approximate.
Qed.
Lemma run_user_mono {A} (u : user A) : approx (run_user cleanup l u) (run_user cleanup l' u).
Proof using Hl.
  induction u as [a|B c k IH]; [apply approx_refl|]. cbn [run_user]. apply approx_bind; [apply perform_mono|apply IH].
Qed.
#[local] Hint Resolve run_user_mono : approx.
Lemma handle_transaction_mono tr : approx (handle_transaction onTransact cleanup pong l tr) (handle_transaction onTransact cleanup pong l' tr).
Proof using Hl. unfold handle_transaction, local_transact. approximate. Qed.
#[local] Hint Resolve handle_transaction_mono : approx.
Lemma obituary_run_mono x : approx (sendObituary (run_died binderDied l) x) (sendObituary (run_died binderDied l') x).
Proof using Hl. apply obituary_mono. intros r y. unfold run_died. approximate. Qed.
#[local] Hint Resolve obituary_run_mono : approx.
Lemma executeCommand_mono cmd :
  approx (executeCommand onTransact binderDied cleanup pong l cmd) (executeCommand onTransact binderDied cleanup pong l' cmd).
Proof using Hl. unfold executeCommand. approximate. Qed.
#[local] Hint Resolve executeCommand_mono : approx.
Lemma wait_turn_mono rp acquire :
  approx (wait_turn onTransact binderDied cleanup pong l rp acquire) (wait_turn onTransact binderDied cleanup pong l' rp acquire).
Proof using Hl. unfold wait_turn, wait_command. approximate. Qed.
End level.

Lemma level_depth n depth : l_depth (level_at onTransact binderDied cleanup pong n depth) = depth.
Proof. by destruct n. Qed.

Lemma level_mono n n' depth :
  (n <= n')%nat → below (level_at onTransact binderDied cleanup pong n depth) (level_at onTransact binderDied cleanup pong n' depth).
Proof.
  revert n' depth. induction n as [|n IH]; intros n' depth Hn.
  - split; [intros rp acquire s; by left|intros A u s; by left|by destruct n'].
  - destruct n' as [|n']; [lia|]. pose proof (IH n' (S depth) ltac:(lia)) as Hl. constructor.
    + intros rp acquire. exact (wait_turn_mono _ _ Hl rp acquire).
    + intros A u. exact (run_user_mono _ _ Hl u).
    + by rewrite !level_depth.
Qed.

(** The fuel of the model only bounds how long it looks: once a wait for the
    driver, however deeply nested the calls that come in meanwhile, has an
    answer with some number of levels, or a reason why it cannot go on, it has
    the same one with more. *)
Theorem waitForResponse_enough_fuel n n' rp acquire s r :
  waitForResponse onTransact binderDied cleanup pong n rp acquire s = r → r ≠ Oops Fuel → (n <= n')%nat →
  waitForResponse onTransact binderDied cleanup pong n' rp acquire s = r.
Proof.
  intros E Hr Hn. destruct (below_wait _ _ (level_mono n n' 0 Hn) rp acquire s) as [E'|E'].
  - unfold waitForResponse in E. congruence.
  - unfold waitForResponse in *. congruence.
Qed.
End mono.

(** ** The identity of the caller *)

Section caller.
Context {D : Type} {DV : Device D} {MA : Machine}.
Notation M := (M (D := D)).

(** [getCallingPid], [getCallingUid]. *)
Definition caller (s : ipc * D) : Z * Z := (mCallingPid (i_thread s.1), mCallingUid (i_thread s.1)).
Definition same_caller {A} (m : M A) : Prop := ∀ s, match m s with Ok (_, s') => caller s' = caller s | Oops _ => True end.

Lemma same_ret {A} (a : A) : same_caller (mret a).
Proof. done. Qed.
Lemma same_fail {A} o : same_caller (fail o : M A).
Proof. done. Qed.
Lemma same_gets {A} (f : ipc * D → A) : same_caller (gets f).
Proof. done. Qed.
Lemma same_bind {A B} (m : M A) (f : A → M B) : same_caller m → (∀ a, same_caller (f a)) → same_caller (m ≫= f).
Proof.
  intros Hm Hf s. unfold mbind, st_bind. specialize (Hm s). destruct (m s) as [[a s']|o]; [|done]. specialize (Hf a s').
  destruct (f a s') as [[b s'']|o]; congruence.
Qed.
Lemma same_for_each {A} (f : A → M unit) l : (∀ a, same_caller (f a)) → same_caller (for_each f l).
Proof. intros Hf. induction l as [|a l IH]; [apply same_ret|]. cbn [for_each]. by apply same_bind. Qed.
Lemma same_set_ipc f : (∀ i, mCallingPid (i_thread (f i)) = mCallingPid (i_thread i) ∧ mCallingUid (i_thread (f i)) = mCallingUid (i_thread i)) → same_caller (set_ipc f).
Proof. intros Hf [i d]. unfold caller. simpl. by destruct (Hf i) as [-> ->]. Qed.
Lemma same_on_device {A} (m : ST D A) : same_caller (on_device m).
Proof. intros [i d]. unfold on_device. simpl. by destruct (m d) as [[a d']|o]. Qed.
Lemma same_on_memory {A} (m : ST (gmap Z Z * D) A) : same_caller (on_memory m).
Proof. intros [i d]. unfold on_memory. simpl. destruct (m _) as [[a [mem d']]|o]; [|done]. by destruct i. Qed.
End caller.

Create HintDb caller discriminated.
#[export] Hint Constants Opaque : caller.
#[export] Hint Resolve same_on_device same_on_memory : caller.
Ltac caller_step :=
  match goal with
  | |- same_caller (_ ≫= _) => apply same_bind; [|intros ?]
  | |- same_caller (for_each _ _) => apply same_for_each; intros ?
  | |- same_caller (set_ipc _) => apply same_set_ipc; by intros [[] []]
  | |- same_caller (set_thread _) => unfold set_thread
  | |- same_caller (set_process _) => unfold set_process
  | |- same_caller (set_item _ _) => unfold set_item
  | |- same_caller (set_proxy _ _) => unfold set_proxy
  | |- same_caller (out_words _) => unfold out_words, out_bytes
  | |- same_caller (out_bytes _) => unfold out_bytes
  | |- same_caller (mret _) => apply same_ret
  | |- same_caller (fail _) => apply same_fail
  | |- same_caller (gets _) => apply same_gets
  | |- same_caller thr => apply same_gets
  | |- same_caller prc => apply same_gets
  | |- same_caller (bug_on _) => unfold bug_on
  | |- same_caller (when _ _) => unfold when
  | |- same_caller (if ?b then _ else _) => destruct b
  | |- same_caller (match ?x with _ => _ end) => destruct x
  end.
Ltac keep_caller := repeat (caller_step || (progress cbv zeta)); eauto with caller.

Section library.
Context {D : Type} {DV : Device D} {MA : Machine}.
Notation M := (M (D := D)).

Lemma write_read_caller n wbuf rsize : same_caller (write_read n wbuf rsize).
Proof. induction n as [|n IH]; cbn [write_read]; keep_caller. Qed.
#[local] Hint Resolve write_read_caller : caller.
Lemma talk_caller b : same_caller (talkWithDriver b).
Proof. unfold talkWithDriver. keep_caller. Qed.
#[local] Hint Resolve talk_caller : caller.
Lemma flush_caller : same_caller flushCommands.
Proof. unfold flushCommands. keep_caller. Qed.
#[local] Hint Resolve flush_caller : caller.
Lemma in_read_caller n : same_caller (in_read n : M _).
Proof. unfold in_read. keep_caller. Qed.
#[local] Hint Resolve in_read_caller : caller.
Lemma in_int32_caller : same_caller (in_int32 : M _).
Proof. unfold in_int32. keep_caller. Qed.
#[local] Hint Resolve in_int32_caller : caller.
Lemma freeBuffer_caller b data size objects n : same_caller (freeBuffer b data size objects n : M _).
Proof. unfold freeBuffer. keep_caller. Qed.
#[local] Hint Resolve freeBuffer_caller : caller.

(** *** Proxies *)

Lemma item_at_caller x : same_caller (item_at x : M _).
Proof. intros s. unfold item_at. by destruct (_ !! x). Qed.
#[local] Hint Resolve item_at_caller : caller.
Lemma proxy_at_caller x : same_caller (proxy_at x : M _).
Proof. unfold proxy_at. keep_caller. Qed.
#[local] Hint Resolve proxy_at_caller : caller.
Lemma on_refs_caller {A} x (m : ST Refs.object A) : same_caller (on_refs x m : M _).
Proof. unfold on_refs. keep_caller. Qed.
#[local] Hint Resolve on_refs_caller : caller.
Lemma program_refs_caller x c : same_caller (program_refs x c : M _).
Proof. unfold program_refs. keep_caller. Qed.
#[local] Hint Resolve program_refs_caller : caller.
Lemma lookup_caller h : same_caller (lookupHandleLocked h : M _).
Proof. unfold lookupHandleLocked. keep_caller. Qed.
#[local] Hint Resolve lookup_caller : caller.
Lemma new_proxy_caller h : same_caller (new_proxy h : M _).
Proof.
  intros s. unfold new_proxy. destruct (i_fresh s.1) as [|x l]; [done|].
  assert (H : same_caller (set_ipc (λ i, i <| i_fresh := l |> <| i_heap %= <[x := mk_item (Refs.new_object Refs.OBJECT_LIFETIME_WEAK)
    (Remote (mk_proxy h true false None []))]> |>) ;; incWeakHandle h ;; mret x : M _)) by (unfold incWeakHandle; keep_caller).
  apply H.
Qed.
#[local] Hint Resolve new_proxy_caller : caller.

Section proxies.
Context (attempt : Z → M Z) (Ha : ∀ h, same_caller (attempt h)) (cleanup : Z → entry → M unit) (Hc : ∀ id e, same_caller (cleanup id e)).
Context (died : Z → Z → M unit) (Hd : ∀ r x, same_caller (died r x)).

Lemma destroy_caller x : same_caller (destroy cleanup x).
Proof. unfold destroy, kill, expungeHandle, set_entry, clearDeathNotification, decWeakHandle, delete_obituaries. keep_caller. Qed.
Lemma refs_caller x c : same_caller (refs attempt cleanup x c).
Proof.
  pose proof destroy_caller. unfold refs. keep_caller. generalize (Refs.start c). generalize 16%nat. intros n. induction n as [|n IH]; intros l.
  - destruct l; cbn [refs_loop]; keep_caller.
  - assert (Hv : ∀ l, same_caller (virtual_call attempt cleanup x l)).
    { intros []; unfold virtual_call, onFirstRef, onLastStrongRef, onIncStrongAttempted, incStrongHandle, decStrongHandle; keep_caller. }
    destruct l; cbn [refs_loop]; keep_caller.
Qed.
#[local] Hint Resolve refs_caller : caller.
Lemma getStrong_caller h : same_caller (getStrongProxyForHandle attempt cleanup h).
Proof. unfold getStrongProxyForHandle, current_proxy, set_entry. keep_caller. Qed.
Lemma getWeak_caller h : same_caller (getWeakProxyForHandle attempt cleanup h).
Proof. unfold getWeakProxyForHandle, current_proxy, set_entry. keep_caller. Qed.
Lemma link_caller x r cookie flags : same_caller (linkToDeath attempt cleanup x r cookie flags).
Proof. unfold linkToDeath, requestDeathNotification. keep_caller. Qed.
Lemma unlink_caller x r cookie flags want : same_caller (unlinkToDeath x r cookie flags want : M _).
Proof. unfold unlinkToDeath, clearDeathNotification. keep_caller. Qed.
Lemma obituary_caller x : same_caller (sendObituary died x).
Proof. unfold sendObituary, clearDeathNotification, delete_obituaries, reportOneDeath. keep_caller. Qed.
End proxies.

(** *** Programs that leave the identity alone, or put it back *)

Inductive polite {A : Type} : user A → Prop :=
| polite_return a : polite (Return a)
| polite_call {B : Set} (c : call B) k :
    (match c with Clear_calling_identity | Restore_calling_identity _ => False | _ => True end) → (∀ b, polite (k b)) → polite (Call c k).

Context (onTransact : Z → Z → incoming → Z → user (Z * outgoing)) (binderDied : Z → Z → user unit) (cleanup : Z → entry → user unit).
Context (pong : outgoing) (Hdied : ∀ r x, polite (binderDied r x)) (Hcleanup : ∀ id e, polite (cleanup id e)).
Notation level := (level (D := D)).

(** The functions of a level, by those of the level below. *)
Record level_caller (l : level) : Prop := {
  lc_wait rp acquire : same_caller (l_wait l rp acquire);
  lc_user A (u : user A) : polite u → same_caller (l_user l A u)
}.

Section level.
Context (l : level) (Hl : level_caller l).
#[local] Hint Resolve lc_wait lc_user : caller.

Lemma attempt_caller h : same_caller (attemptIncStrongHandle l h).
Proof using Hl. unfold attemptIncStrongHandle. keep_caller. Qed.
#[local] Hint Resolve attempt_caller : caller.
Lemma run_cleanup_caller id e : same_caller (run_cleanup cleanup l id e).
Proof using Hl Hcleanup. unfold run_cleanup. keep_caller. Qed.
#[local] Hint Resolve run_cleanup_caller : caller.
Lemma count_caller x c : same_caller (count cleanup l x c).
Proof using Hl Hcleanup. unfold count. apply refs_caller; keep_caller. Qed.
#[local] Hint Resolve count_caller : caller.
Lemma writeTransactionData_caller cmd flags handle code data st : same_caller (writeTransactionData cmd flags handle code data st : M _).
Proof. unfold writeTransactionData. keep_caller. Qed.
#[local] Hint Resolve writeTransactionData_caller : caller.
Lemma free_data_caller p : same_caller (free_data p : M _).
Proof. unfold free_data. keep_caller. Qed.
#[local] Hint Resolve free_data_caller : caller.
Lemma transact_caller handle code data rp flags : same_caller (transact l handle code data rp flags).
Proof using Hl. unfold transact. keep_caller. Qed.
#[local] Hint Resolve transact_caller : caller.
Lemma sendReply_caller rp flags : same_caller (sendReply l rp flags).
Proof using Hl. unfold sendReply. keep_caller. Qed.
#[local] Hint Resolve sendReply_caller : caller.
Lemma proxy_transact_caller x code data rp flags : same_caller (proxy_transact l x code data rp flags).
Proof using Hl. unfold proxy_transact. keep_caller. Qed.
#[local] Hint Resolve proxy_transact_caller : caller.

Lemma perform_caller {B : Set} (c : call B) :
  (match c with Clear_calling_identity | Restore_calling_identity _ => False | _ => True end) → same_caller (perform cleanup l c).
Proof using Hl Hcleanup.
  destruct c; cbn [perform]; intros Hc; try done; try (solve [keep_caller]);
    try (solve [unfold isBinderAlive, attachObject, findObject, detachObject, load_word, stopProcess, startThreadPool, spawnPooledThread,
      becomeContextManager, setThreadPoolMaxThreadCount; keep_caller]).
  - unfold pingBinder, load_word. keep_caller.
  - apply getStrong_caller; keep_caller.
  - apply getWeak_caller; keep_caller.
  - apply link_caller; keep_caller.
  - apply unlink_caller.
Qed.
Lemma run_user_caller {A} (u : user A) : polite u → same_caller (run_user cleanup l u).
Proof using Hl Hcleanup.
  induction 1 as [a|B c k Hc Hk IH]; cbn [run_user]; [apply same_ret|]. apply same_bind; [by apply perform_caller|apply IH].
Qed.

(** Whatever is done first, the caller is [c] in the end. *)
Definition leaves_caller {A} (c : Z * Z) (m : M A) : Prop := ∀ s, match m s with Ok (_, s') => caller s' = c | Oops _ => True end.
Lemma leaves_bind {A B} c (m : M A) (f : A → M B) : (∀ a, leaves_caller c (f a)) → leaves_caller c (m ≫= f).
Proof. intros Hf s. unfold mbind, st_bind. destruct (m s) as [[a s']|o]; [apply Hf|done]. Qed.
Lemma leaves_restore {A} (t : thread) (m : M A) :
  same_caller m → leaves_caller (mCallingPid t, mCallingUid t)
    (set_thread (λ t', t' <| mCallingPid := mCallingPid t |> <| mCallingUid := mCallingUid t |>) ;; m).
Proof.
  intros Hm [i d]. unfold mbind, st_bind, set_thread, set_ipc, modify. cbn [fst snd]. set (s := (i <| i_thread %= _ |>, d)).
  specialize (Hm s). destruct (m s) as [[a s']|o]; [|done]. rewrite Hm. subst s. by destruct i as [p []].
Qed.

(** Whatever the handler does: who called before is the caller again. *)
Lemma handle_transaction_caller tr : same_caller (handle_transaction onTransact cleanup pong l tr).
Proof.
  intros s. unfold handle_transaction. unfold mbind at 1, st_bind at 1, thr at 1, gets at 1. cbv beta iota zeta. set (t := i_thread s.1).
  match goal with |- match ?m s with _ => _ end => assert (H : leaves_caller (mCallingPid t, mCallingUid t) m); [|exact (H s)] end.
  do 5 (apply leaves_bind; intros ?). apply leaves_bind. intros ?. apply leaves_restore. keep_caller.
Qed.

Lemma run_died_caller r x : same_caller (run_died binderDied l r x).
Proof using Hl Hdied. unfold run_died. keep_caller. Qed.
#[local] Hint Resolve handle_transaction_caller run_died_caller : caller.

Lemma executeCommand_caller cmd : same_caller (executeCommand onTransact binderDied cleanup pong l cmd).
Proof using Hl Hdied Hcleanup.
  unfold executeCommand, read_refs_obj, spawnPooledThread. keep_caller. apply obituary_caller. keep_caller.
Qed.
#[local] Hint Resolve executeCommand_caller : caller.
Lemma wait_turn_caller rp acquire : same_caller (wait_turn onTransact binderDied cleanup pong l rp acquire).
Proof using Hl Hdied Hcleanup. unfold wait_turn, wait_command, finish, take_reply, ipcSetDataReference, load_word. keep_caller. Qed.
End level.

Lemma level_at_caller n depth : level_caller (level_at onTransact binderDied cleanup pong n depth).
Proof using Hdied Hcleanup.
  revert depth. induction n as [|n IH]; intros depth; [by split|]. split.
  - intros rp acquire. exact (wait_turn_caller _ (IH (S depth)) rp acquire).
  - intros A u Hu. exact (run_user_caller _ (IH (S depth)) u Hu).
Qed.

(** C9: a thread that waits for the answer to a transaction may have to serve
    transactions of other processes meanwhile, nested to any depth.  When its
    own call returns, the identity of its caller is what it was, whatever the
    handlers did with it, provided that the functions that a death or the end of
    a proxy calls do not change it. *)
Theorem caller_survives_nested_calls n depth handle code data rp flags s r s' :
  transact (level_at onTransact binderDied cleanup pong n depth) handle code data rp flags s = Ok (r, s') →
  mCallingPid (i_thread s'.1) = mCallingPid (i_thread s.1) ∧ mCallingUid (i_thread s'.1) = mCallingUid (i_thread s.1).
Proof using Hdied Hcleanup.
  intros E. pose proof (transact_caller _ (level_at_caller n depth) handle code data rp flags s) as H. rewrite E in H. by injection H.
Qed.

(** *** The identity, cleared and restored *)

Fixpoint user_bind {A B} (u : user A) (f : A → user B) : user B :=
  match u with Return a => f a | Call c k => Call c (λ b, user_bind (k b) f) end.

Lemma run_user_bind l {A B} (u : user A) (f : A → user B) s :
  run_user cleanup l (user_bind u f) s = (run_user cleanup l u ≫= λ a, run_user cleanup l (f a)) s.
Proof.
  revert s. induction u as [a|B' c k IH]; intros s; [done|]. cbn [user_bind run_user]. unfold mbind, st_bind.
  destruct (perform cleanup l c s) as [[b s']|o]; [apply IH|done].
Qed.

Lemma token_uid pid uid : 0 <= pid < 2 ^ 31 → 0 <= uid < 2 ^ 32 → u32 (Z.shiftr (identity_token pid uid) 32) = uid ∧ s32 (identity_token pid uid) = pid.
Proof.
  intros Hp Hu. assert (E : Z.lor (Z.shiftl uid 32) pid = uid * 2 ^ 32 + pid).
  { rewrite Z.shiftl_mul_pow2 by lia. symmetry. rewrite <- Z.add_lor_land.
    assert (Hl : Z.land (uid * 2 ^ 32) pid = 0); [|lia]. apply Z.bits_inj'. intros n Hn. rewrite Z.land_spec, Z.bits_0.
    destruct (Z.ltb_spec n 32); [by rewrite Z.mul_pow2_bits_low|]. rewrite (Z.bits_above_log2 pid n); [by rewrite andb_false_r|lia|].
    destruct (decide (pid = 0)) as [->|]; [simpl; lia|]. apply Z.log2_lt_pow2; [lia|]. pose proof (Z.pow_le_mono_r 2 31 n). lia. }
  unfold identity_token, s64, u32, s32. rewrite E, Z.shiftr_div_pow2 by lia. Z.div_mod_to_equations. lia.
Qed.

(** C28: between [clearCallingIdentity] and [restoreCallingIdentity] the process
    itself is the caller; afterwards it is who it was, for a pid that is not
    negative and any uid, whatever else the program does. *)
Theorem calling_identity_roundtrip n depth (A : Type) (u : user A) s a s' :
  0 <= mCallingPid (i_thread s.1) < 2 ^ 31 → 0 <= mCallingUid (i_thread s.1) < 2 ^ 32 →
  run_user cleanup (level_at onTransact binderDied cleanup pong n depth)
    (Call Clear_calling_identity (λ token, Call Calling_pid (λ pid, Call Calling_uid (λ uid,
      user_bind u (λ a, Call (Restore_calling_identity token) (λ _, Return (pid, uid, a))))))) s = Ok (a, s') →
  a.1 = (own_pid, own_uid) ∧ caller s' = caller s.
Proof.
  intros Hp Hq. destruct s as [i d]. set (l := level_at _ _ _ _ n depth). cbn [run_user perform].
  unfold mbind at 1, st_bind at 1. unfold clearCallingIdentity at 1. unfold mbind at 1, st_bind at 1, thr at 1, gets at 1. cbn [fst].
  set (token := identity_token _ _). set (s1 := (i <| i_thread %= λ t, t <| mCallingPid := own_pid |> <| mCallingUid := own_uid |> |>, d)).
  change (run_user cleanup l (user_bind u (λ a, Call (Restore_calling_identity token) (λ _, Return (mCallingPid (i_thread s1.1), mCallingUid (i_thread s1.1), a)))) s1 = Ok (a, s') →
    a.1 = (own_pid, own_uid) ∧ caller s' = caller (i, d)).
  rewrite run_user_bind. unfold mbind, st_bind. destruct (run_user cleanup l u s1) as [[b [i2 d2]]|o]; [|done].
  cbn [run_user perform]. intros [= <- <-]. split; [by destruct i as [p []]|].
  destruct (token_uid _ _ Hp Hq) as [E1 E2]. unfold caller. cbn [fst]. destruct i2 as [p []]. unfold token.
  cbn -[identity_token u32 s32]. cbn [fst] in E1, E2. by rewrite E1, E2.
Qed.
End library.
End ThreadsSpec.
