(* ===== verification/IpcAnswers.v ===== *)
(** What a thread and the driver say to each other: a transaction is sent with
    all that was to be written before it, and its answer is what [transact]
    returns. *)
From S2P Require Import Prelude UserMem BinderUapi RefBase IpcState BpBinder IpcThread IpcThreadSpec.
Import Ipc Proxies Threads ThreadsSpec.

Module ThreadsAnswers.

Section answers.
Context {D : Type} {DV : Device D} {MA : Machine}.
Notation M := (M (D := D)).
Implicit Types (i : ipc) (d : D).

(** ** Talking *)

Definition moved (n : Z) i : ipc := i <| i_thread %= λ t, t <| mInPos %= Z.add n |> |>.
(** The driver took [mOut] and gave [bytes]. *)
Definition exchanged (bytes : list Z) (mem : gmap Z Z) i : ipc :=
  i <| i_mem := mem |> <| i_thread %= λ t, t <| mOut := [] |> <| mIn := bytes |> <| mInPos := 0 |> |>.

Lemma talk_exchange bytes mem i d d' :
  0 < mDriverFD (i_process i) → in_size (i_thread i) <= mInPos (i_thread i) → mInCapacity (i_thread i) ≠ 0 → bytes ≠ [] →
  sys_ioctl_write_read (mDriverFD (i_process i)) (mOut (i_thread i)) (mInCapacity (i_thread i)) (i_mem i, d) =
    Ok (0, Z.of_nat (length (mOut (i_thread i))), bytes, (mem, d')) →
  talkWithDriver true (i, d) = Ok (NO_ERROR, (exchanged bytes mem i, d')).
Proof.
  intros Hfd Hpos Hc Hb E. unfold talkWithDriver, prc, thr, mbind, st_bind, gets. cbn [fst]. rewrite (proj2 (Z.leb_gt _ _)) by done.
  rewrite Z.geb_leb, (proj2 (Z.leb_le _ _)) by done. cbn [negb orb andb]. rewrite (proj2 (Z.eqb_neq _ 0)), andb_false_r by done. cbn [write_read].
  unfold prc, on_memory, mbind, st_bind, gets. cbn [fst snd]. rewrite E. unfold mret, st_ret. cbn [fst snd].
  replace (i_process (i <| i_mem := mem |>)) with (i_process i) by (by destruct i). rewrite (proj2 (Z.leb_gt _ _)) by done.
  change (0 >=? 0) with true. cbv beta iota zeta. change (NO_ERROR =? - EINTR) with false. cbv beta iota. change (NO_ERROR >=? NO_ERROR) with true.
  cbv beta iota. rewrite (bool_decide_false (bytes = [])) by done. cbn [negb]. destruct i as [p [li lp lc o]]. cbn [i_thread mOut].
  destruct o as [|b o]; [done|]. rewrite Z.gtb_ltb, (proj2 (Z.ltb_lt 0 _)) by (simpl; lia).
  unfold when, mbind, st_bind, thr, gets. cbn [fst]. cbv [update field_i_mem]. cbn [i_thread mOut]. by rewrite Z.ltb_irrefl.
Qed.

(** Nothing is written while there is something to read. *)
Lemma talk_later i d :
  0 < mDriverFD (i_process i) → mInPos (i_thread i) < in_size (i_thread i) → talkWithDriver true (i, d) = Ok (NO_ERROR, (i, d)).
Proof.
  intros Hfd Hpos. unfold talkWithDriver, prc, thr, mbind, st_bind, gets. cbn [fst]. rewrite (proj2 (Z.leb_gt _ _)) by done.
  rewrite Z.geb_leb, (proj2 (Z.leb_gt _ _)) by done. done.
Qed.

Lemma in_read_eq pre bs post i d :
  mIn (i_thread i) = pre ++ bs ++ post → mInPos (i_thread i) = Z.of_nat (length pre) →
  in_read (Z.of_nat (length bs)) (i, d) = Ok (Some bs, (moved (Z.of_nat (length bs)) i, d)).
Proof.
  intros E Hp. unfold in_read, thr, mbind, st_bind, gets. cbn [fst]. unfold in_size. rewrite E, Hp, !length_app.
  rewrite (proj2 (Z.leb_le _ _)) by lia. unfold set_thread, set_ipc, modify, mret, st_ret. cbn [fst snd]. unfold slice.
  rewrite !Nat2Z.id, drop_app_length, take_app_length. done.
Qed.

Lemma in_int32_eq pre w post i d :
  0 <= w < 2 ^ 32 → mIn (i_thread i) = pre ++ le_bytes 4 w ++ post → mInPos (i_thread i) = Z.of_nat (length pre) →
  in_int32 (i, d) = Ok (s32 w, (moved 4 i, d)).
Proof.
  intros Hw E Hp. unfold in_int32. pose proof (in_read_eq pre (le_bytes 4 w) post i d E Hp) as H.
  rewrite length_le_bytes in H. change (Z.of_nat 4) with 4 in H. unfold mbind, st_bind. rewrite H. unfold mret, st_ret.
  rewrite le_value_bytes by done. done.
Qed.

(** ** Waiting *)

Context (onTransact : Z → Z → incoming → Z → user (Z * outgoing)) (binderDied : Z → Z → user unit) (cleanup : Z → entry → user unit).
Context (pong : outgoing).
Notation level := (level (D := D)).
Notation wait_turn := (wait_turn onTransact binderDied cleanup pong).
Notation wait_command := (wait_command onTransact binderDied cleanup pong).
Notation level_at := (level_at onTransact binderDied cleanup pong).

(** Commands that were read and not looked at yet. *)
Record pending (pre post : list Z) i : Prop := {
  pd_fd : 0 < mDriverFD (i_process i);
  pd_in : mIn (i_thread i) = pre ++ post;
  pd_pos : mInPos (i_thread i) = Z.of_nat (length pre)
}.

Lemma pending_moved pre bs post i : pending pre (bs ++ post) i → pending (pre ++ bs) post (moved (Z.of_nat (length bs)) i).
Proof.
  intros [H1 H2 H3]. split; [by destruct i|destruct i as [p []]; simpl in *; by rewrite H2, app_assoc|].
  destruct i as [p []]. simpl in *. cbv [update field_i_thread field_mInPos]. simpl. rewrite H3, length_app. lia.
Qed.

(** A turn that reads the next command. *)
Lemma turn_command (l : level) pre w post rp acquire i d :
  pending pre (le_bytes 4 w ++ post) i → 0 <= w < 2 ^ 32 →
  wait_turn l rp acquire (i, d) = wait_command l w rp acquire (moved 4 i, d).
Proof.
  intros [Hfd Hin Hpos] Hw. assert (Hs : mInPos (i_thread i) < in_size (i_thread i)).
  { unfold in_size. rewrite Hin, Hpos, !length_app, length_le_bytes. lia. }
  unfold Threads.wait_turn. unfold mbind at 1, st_bind at 1. rewrite (talk_later i d Hfd Hs).
  change (NO_ERROR <? NO_ERROR) with false. cbv beta iota. unfold mbind at 1, st_bind at 1, thr at 1, gets at 1. cbn [fst].
  unfold in_avail. rewrite (proj2 (Z.eqb_neq _ _)) by lia. unfold mbind, st_bind. rewrite (in_int32_eq pre w post i d Hw Hin Hpos).
  cbv beta iota. by rewrite BinderUapi.u32_s32, u32_small.
Qed.

(** Everything is read; the turn sends what there is, and goes on with what it reads. *)
Lemma turn_read (l : level) bytes mem rp acquire i d d' :
  0 < mDriverFD (i_process i) → in_size (i_thread i) <= mInPos (i_thread i) → mInCapacity (i_thread i) ≠ 0 → bytes ≠ [] →
  sys_ioctl_write_read (mDriverFD (i_process i)) (mOut (i_thread i)) (mInCapacity (i_thread i)) (i_mem i, d) =
    Ok (0, Z.of_nat (length (mOut (i_thread i))), bytes, (mem, d')) →
  wait_turn l rp acquire (i, d) = wait_turn l rp acquire (exchanged bytes mem i, d').
Proof.
  intros Hfd Hpos Hc Hb E. unfold Threads.wait_turn, mbind, st_bind. rewrite (talk_exchange bytes mem i d d') by done.
  rewrite talk_later; [done|by destruct i|]. destruct i as [p []]. unfold in_size. simpl. destruct bytes; [done|simpl; lia].
Qed.

(** ** A transaction and its answer *)

(** Commands that mean nothing to a thread that waits for a reply. *)
Definition quiet (w : Z) : Prop := w ∈ [BR_OK; BR_NOOP; BR_TRANSACTION_COMPLETE].
Definition commands (ws : list Z) : list Z := concat (le_bytes 4 <$> ws).

(** How the driver may answer a transaction. *)
Inductive answer : Type := Replied (tr : binder_transaction_data) | Dead | Failed.
Definition answer_bytes (a : answer) : list Z :=
  match a with
  | Replied tr => le_bytes 4 BR_REPLY ++ encode_tr tr
  | Dead => le_bytes 4 BR_DEAD_REPLY
  | Failed => le_bytes 4 BR_FAILED_REPLY
  end.
Definition whole_answer (a : answer) : list Z := commands [BR_NOOP; BR_TRANSACTION_COMPLETE] ++ answer_bytes a.

(** The driver takes [wbuf] and gives [reads], one in each call; nothing is written in the later ones. *)
Fixpoint gives (fd capacity : Z) (wbuf : list Z) (reads : list (list Z)) (s s' : gmap Z Z * D) : Prop :=
  match reads with
  | [] => s' = s
  | bytes :: reads' => ∃ s1, sys_ioctl_write_read fd wbuf capacity s = Ok (0, Z.of_nat (length wbuf), bytes, s1) ∧
      gives fd capacity [] reads' s1 s'
  end.

(** The status and the reply parcel, for a parcel that was empty. *)
Definition outcome (a : answer) (status : Z) : Z * reply :=
  match a with
  | Replied tr =>
      if has_flag (tr_flags tr) TF_STATUS_CODE then (status, if status =? 0 then no_reply else mk_reply status None)
      else (NO_ERROR, mk_reply NO_ERROR (Some (incoming_of tr)))
  | Dead => (DEAD_OBJECT, mk_reply DEAD_OBJECT None)
  | Failed => (FAILED_TRANSACTION, mk_reply FAILED_TRANSACTION None)
  end.
(** A reply that is only a status is read, and its buffer given back at once. *)
Definition status_in (a : answer) (mem : gmap Z Z) (status : Z) : Prop :=
  match a with
  | Replied tr => has_flag (tr_flags tr) TF_STATUS_CODE = true → bytes_at (tr_buffer tr) 4 mem = Some (le_bytes 4 (u32 status))
  | _ => True
  end.
Definition said_after (a : answer) : list Z :=
  match a with
  | Replied tr => if has_flag (tr_flags tr) TF_STATUS_CODE then concat (le_bytes 4 ∘ u32 <$> [BC_FREE_BUFFER; tr_buffer tr]) else []
  | _ => []
  end.

Lemma quiet_command (l : level) w p acquire s : quiet w → wait_command l w (Some p) acquire s = l_wait l (Some p) acquire s.
Proof. unfold quiet. rewrite !elem_of_cons. by intros [->|[->|[->|[]%not_elem_of_nil]]]. Qed.

Lemma quiet_range w : quiet w → 0 <= w < 2 ^ 32.
Proof. unfold quiet. rewrite !elem_of_cons. by intros [->|[->|[->|[]%not_elem_of_nil]]]. Qed.

Lemma length_commands ws : length (commands ws) = (4 * length ws)%nat.
Proof. unfold commands. induction ws as [|w ws IH]; [done|]. cbn [fmap list_fmap concat length]. rewrite length_app, IH, length_le_bytes. lia. Qed.

Lemma moved_moved n m i : moved m (moved n i) = moved (n + m) i.
Proof. unfold moved. destruct i as [p []]. cbv [update field_i_thread field_mInPos]. cbn. by rewrite (Z.add_comm n m), Z.add_assoc. Qed.
Lemma moved_0 i : moved 0 i = i.
Proof. by destruct i as [p []]. Qed.
Lemma exchanged_moved bytes mem n i : exchanged bytes mem (moved n i) = exchanged bytes mem i.
Proof. by destruct i as [p []]. Qed.
Lemma exchanged_twice bytes mem bytes' mem' i : exchanged bytes' mem' (exchanged bytes mem i) = exchanged bytes' mem' i.
Proof. by destruct i as [p []]. Qed.

(** Quiet commands are passed over, a level for each. *)
Lemma pass_quiet ws n depth pre post p acquire i d :
  Forall quiet ws → pending pre (commands ws ++ post) i →
  l_wait (level_at (length ws + n) depth) (Some p) acquire (i, d) =
    l_wait (level_at n (length ws + depth)) (Some p) acquire (moved (Z.of_nat (length (commands ws))) i, d).
Proof.
  intros Hq. revert pre depth i. induction Hq as [|w ws Hw Hq IH]; intros pre depth i Hpd; [by rewrite moved_0|].
  unfold commands in *. cbn [fmap list_fmap concat length Nat.add] in *. rewrite <- app_assoc in Hpd.
  change (l_wait (level_at (S (length ws + n)) depth)) with (wait_turn (level_at (length ws + n) (S depth))).
  rewrite (turn_command _ pre w _ _ _ i d Hpd (quiet_range w Hw)), quiet_command by done.
  pose proof (pending_moved pre (le_bytes 4 w) _ i Hpd) as H1. rewrite length_le_bytes in H1. change (Z.of_nat 4) with 4 in H1.
  rewrite (IH _ (S depth) _ H1), moved_moved, length_app, length_le_bytes, Nat.add_succ_r. do 3 f_equal. lia.
Qed.

Definition last_error (err : Z) (i : ipc) : ipc := if err =? 0 then i else i <| i_thread %= λ t, t <| mLastError := err |> |>.
Definition said_bytes (bs : list Z) (i : ipc) : ipc := i <| i_thread %= λ t, t <| mOut %= λ o, o ++ bs |> |>.

Definition answer_ok (a : answer) : Prop :=
  match a with
  | Replied tr => Forall is_u32 [tr_target tr; tr_cookie tr; tr_code tr; tr_flags tr; tr_sender_pid tr; tr_sender_euid tr; tr_data_size tr;
                    tr_offsets_size tr; tr_buffer tr; tr_offsets tr]
  | _ => True
  end.

Lemma answer_command (l : level) a pre rest status i d :
  pending pre (answer_bytes a ++ rest) i → answer_ok a → status_in a (i_mem i) status → - 2 ^ 31 <= status < 2 ^ 31 →
  ∃ j, wait_turn l (Some no_reply) None (i, d) = Ok (((outcome a status).1, Some (outcome a status).2, None), (j, d)) ∧
    j = last_error (outcome a status).1 (said_bytes (said_after a) (moved (Z.of_nat (length (answer_bytes a))) i)).
Proof.
  assert (Hsaid : ∀ j, said_bytes [] j = j).
  { intros [p [] h f sp m c g]. unfold said_bytes. cbv [update field_i_thread field_mOut]. simpl. by rewrite app_nil_r. }
  intros Hpd Hok Hst Hs. destruct a as [tr| |]; cbn [answer_bytes outcome said_after] in *.
  2, 3: eexists; split; [|reflexivity]; rewrite (turn_command l pre _ rest _ _ i d Hpd) by done; rewrite Hsaid; reflexivity.
  rewrite <- app_assoc in Hpd. rewrite (turn_command l pre BR_REPLY (encode_tr tr ++ rest) _ _ i d Hpd) by done.
  assert (Hpd1 : pending (pre ++ le_bytes 4 BR_REPLY) (encode_tr tr ++ rest) (moved 4 i)) by (by apply (pending_moved _ (le_bytes 4 BR_REPLY))).
  assert (E : in_read sizeof_transaction_data (moved 4 i, d) = Ok (Some (encode_tr tr), (moved 40 (moved 4 i), d))).
  { apply (in_read_eq (pre ++ le_bytes 4 BR_REPLY) (encode_tr tr) rest); apply Hpd1. }
  assert (Em : moved (Z.of_nat (length (le_bytes 4 BR_REPLY ++ encode_tr tr))) i = moved 40 (moved 4 i)).
  { change (Z.of_nat _) with 44. unfold moved. destruct i as [p []]. cbv [update field_i_thread field_mInPos]. cbn. by rewrite (Z.add_assoc 40 4). }
  rewrite Em. clear Em. set (j := moved 40 (moved 4 i)) in *.
  unfold wait_command. change (BR_REPLY =? BR_TRANSACTION_COMPLETE) with false. change (BR_REPLY =? BR_DEAD_REPLY) with false.
  change (BR_REPLY =? BR_FAILED_REPLY) with false. change (BR_REPLY =? BR_ACQUIRE_RESULT) with false. change (BR_REPLY =? BR_REPLY) with true.
  cbv beta iota. unfold mbind at 1, st_bind at 1. rewrite E. cbv beta iota. rewrite (transaction_data_roundtrip tr Hok).
  unfold take_reply, mbind at 1, st_bind at 1. destruct (has_flag (tr_flags tr) TF_STATUS_CODE) eqn:Hf; cbn [negb].
  2:{ eexists. split; [|reflexivity]. by rewrite Hsaid. }
  specialize (Hst Hf) as Hm.
  assert (El : load_word (tr_buffer tr) (j, d) = Ok (u32 status, (j, d))).
  { unfold load_word, on_memory. cbn [fst snd]. replace (i_mem j) with (i_mem i) by (by destruct i).
    rewrite (load32_word _ _ (u32 status)); [|apply u32_range|exact Hm]. by destruct i. }
  unfold mbind at 1, st_bind at 1. cbn [incoming_of in_data]. rewrite El. cbv beta iota.
  unfold freeBuffer. eexists. split; [|reflexivity].
  assert (Es : s32 (u32 status) = status) by (unfold s32, u32; Z.div_mod_to_equations; lia). rewrite Es.
  unfold finish, last_error, no_reply. change NO_ERROR with 0. cbn [fst snd].
  destruct (status =? 0) eqn:E0; unfold mbind, st_bind; cbn -[le_bytes concat Z.eqb said_bytes]; rewrite E0; reflexivity.
Qed.

Lemma pending_fd pre post i : pending pre post i → pending pre post i ∧ 0 < mDriverFD (i_process i).
Proof. intros H. split; [done|apply H]. Qed.

(** The state once the answer is read, with [rest] behind it. *)
Definition answered a status bytes rest mem i : ipc :=
  last_error (outcome a status).1 (said_bytes (said_after a) (moved (Z.of_nat (length bytes)) (exchanged (bytes ++ rest) mem i))).

Lemma answer_nonempty a : (0 < length (answer_bytes a))%nat.
Proof. destruct a; cbn [answer_bytes]; rewrite ?length_app, length_le_bytes; lia. Qed.

(** The last read, with the answer in it. *)
Lemma wait_last n depth last a rest status mem i d d' :
  0 < mDriverFD (i_process i) → in_size (i_thread i) <= mInPos (i_thread i) → mInCapacity (i_thread i) ≠ 0 → answer_ok a → Forall quiet last →
  sys_ioctl_write_read (mDriverFD (i_process i)) (mOut (i_thread i)) (mInCapacity (i_thread i)) (i_mem i, d) =
    Ok (0, Z.of_nat (length (mOut (i_thread i))), (commands last ++ answer_bytes a) ++ rest, (mem, d')) →
  status_in a mem status → - 2 ^ 31 <= status < 2 ^ 31 →
  l_wait (level_at (length last + S n) depth) (Some no_reply) None (i, d) =
    Ok (((outcome a status).1, Some (outcome a status).2, None), (answered a status (commands last ++ answer_bytes a) rest mem i, d')).
Proof.
  intros Hfd Hpos Hc Hok Hq E Hst Hs. set (bytes := (commands last ++ answer_bytes a) ++ rest) in *.
  assert (Hb : bytes ≠ []).
  { intros Hnil. apply (f_equal length) in Hnil. unfold bytes in Hnil. rewrite !length_app in Hnil.
    pose proof (answer_nonempty a). simpl in Hnil. lia. }
  set (j := exchanged bytes mem i). assert (Hj : pending [] bytes j) by (split; by destruct i as [[] []]).
  assert (E0 : l_wait (level_at (length last + S n) depth) (Some no_reply) None (i, d) =
    l_wait (level_at (length last + S n) depth) (Some no_reply) None (j, d')).
  { rewrite Nat.add_succ_r. by apply turn_read. }
  assert (Hj' : pending [] (commands last ++ (answer_bytes a ++ rest)) j) by (unfold bytes in Hj; by rewrite <- app_assoc in Hj).
  rewrite E0, (pass_quiet last (S n) depth [] _ _ _ _ _ Hq Hj').
  pose proof (pending_moved [] (commands last) _ j Hj') as H1.
  destruct (answer_command (level_at n (S (length last + depth))) a _ rest status (moved (Z.of_nat (length (commands last))) j) d' H1 Hok)
    as (k & E' & ->); [by destruct i|done|].
  change (l_wait (level_at (S n) (length last + depth))) with (wait_turn (level_at n (S (length last + depth)))).
  rewrite E'. unfold answered. fold bytes j. by rewrite moved_moved, length_app, Nat2Z.inj_add.
Qed.

(** Waiting for the answer, from the call to the driver on. *)
Lemma wait_answer early n depth last a rest status mem i d d' :
  0 < mDriverFD (i_process i) → in_size (i_thread i) <= mInPos (i_thread i) → mInCapacity (i_thread i) ≠ 0 → answer_ok a →
  Forall (λ ws, ws ≠ [] ∧ Forall quiet ws) early → Forall quiet last →
  gives (mDriverFD (i_process i)) (mInCapacity (i_thread i)) (mOut (i_thread i))
    ((commands <$> early) ++ [(commands last ++ answer_bytes a) ++ rest]) (i_mem i, d) (mem, d') →
  status_in a mem status → - 2 ^ 31 <= status < 2 ^ 31 →
  l_wait (level_at (length (concat early) + (length last + S n)) depth) (Some no_reply) None (i, d) =
    Ok (((outcome a status).1, Some (outcome a status).2, None), (answered a status (commands last ++ answer_bytes a) rest mem i, d')).
Proof.
  intros Hfd Hpos Hc Hok He Hq Hg Hst Hs. revert depth i d Hfd Hpos Hc Hg. induction He as [|ws early [Hne Hws] He IH]; intros depth i d Hfd Hpos Hc Hg.
  { cbn [fmap list_fmap app gives concat length Nat.add] in *. destruct Hg as (s1 & E & <-). by apply wait_last. }
  cbn [fmap list_fmap app gives concat] in *. destruct Hg as ([m1 d1] & E & Hg). rewrite length_app.
  assert (Hb : commands ws ≠ []).
  { intros Hnil. apply (f_equal length) in Hnil. rewrite length_commands in Hnil. destruct ws; [done|simpl in Hnil; lia]. }
  set (j := exchanged (commands ws) m1 i).
  assert (Hj : pending [] (commands ws ++ []) j) by (rewrite app_nil_r; split; by destruct i as [[] []]).
  set (r := (length (concat early) + (length last + S n))%nat).
  assert (E0 : l_wait (level_at (length ws + r) depth) (Some no_reply) None (i, d) =
    l_wait (level_at (length ws + r) depth) (Some no_reply) None (j, d1)).
  { destruct ws; [done|]. cbn [length Nat.add]. by apply turn_read. }
  replace (length ws + length (concat early) + (length last + S n))%nat with (length ws + r)%nat by lia.
  rewrite E0, (pass_quiet ws r depth [] [] _ _ _ _ Hws Hj). unfold r.
  rewrite (IH (length ws + depth)%nat (moved (Z.of_nat (length (commands ws))) j) d1).
  - unfold answered, j. by rewrite exchanged_moved, exchanged_twice.
  - by destruct i.
  - destruct i as [p []]. unfold in_size. cbn. lia.
  - by destruct i as [p []].
  - by destruct i as [p []].
Qed.

(** The transaction as it is sent. *)
Definition sent_transaction (handle code : Z) (data : outgoing) (flags : Z) : list Z :=
  le_bytes 4 BC_TRANSACTION ++
  encode_tr (mk_tr (u32 handle) 0 code (Z.lor flags TF_ACCEPT_FDS) 0 0 (u32 (out_size data)) (u32 (out_count data * 4)) (u32 (out_data data)) (u32 (out_objects data))).

Lemma sent_nonempty o handle code data flags : o ++ sent_transaction handle code data flags ≠ [].
Proof. unfold sent_transaction. intros Hnil. apply (f_equal length) in Hnil. rewrite !length_app, length_le_bytes in Hnil. simpl in Hnil. lia. Qed.

Lemma writes_transaction handle code data flags i d :
  out_error data = NO_ERROR →
  writeTransactionData BC_TRANSACTION (Z.lor flags TF_ACCEPT_FDS) handle code data None (i, d) =
  Ok (NO_ERROR, (i <| i_thread %= λ t, t <| mOut := mOut (i_thread i) ++ sent_transaction handle code data flags |> |>, d)).
Proof.
  intros Herr. unfold writeTransactionData. rewrite Herr. change (NO_ERROR =? NO_ERROR) with true. cbv beta iota zeta.
  unfold sent_transaction, out_words, out_bytes, set_thread, set_ipc, modify, mbind, st_bind, mret, st_ret. cbn [fst snd].
  set (tr := mk_tr _ _ _ _ _ _ _ _ _ _). assert (Eb : concat (le_bytes 4 ∘ u32 <$> [BC_TRANSACTION]) = le_bytes 4 BC_TRANSACTION) by done.
  rewrite Eb. destruct i as [p []]. cbv [update field_i_thread field_mOut]. cbn -[encode_tr le_bytes]. by rewrite <- app_assoc.
Qed.

Lemma transact_waits (l : level) handle code data p flags i d j :
  out_error data = NO_ERROR → has_flag flags TF_ONE_WAY = false →
  writeTransactionData BC_TRANSACTION (Z.lor flags TF_ACCEPT_FDS) handle code data None (i, d) = Ok (NO_ERROR, (j, d)) →
  transact l handle code data (Some p) flags (i, d) = (r ← l_wait l (Some p) None; mret r.1) (j, d).
Proof.
  intros Herr Hone Ew. assert (Hflag : has_flag (Z.lor flags TF_ACCEPT_FDS) TF_ONE_WAY = false).
  { unfold has_flag in *. rewrite Z.land_lor_distr_l. change (Z.land TF_ACCEPT_FDS TF_ONE_WAY) with 0. by rewrite Z.lor_0_r. }
  unfold transact. cbv zeta. rewrite Herr. change (NO_ERROR =? NO_ERROR) with true. cbv beta iota.
  unfold mbind at 1, st_bind at 1. rewrite Ew. change (negb (NO_ERROR =? NO_ERROR)) with false. cbv beta iota. by rewrite Hflag.
Qed.

(** C10: a two-way transaction of a thread that has nothing left to read.  The
    driver takes what was still to be written and the transaction after it in one
    piece, and answers in any number of reads: reads of [BR_NOOP], [BR_OK] and
    [BR_TRANSACTION_COMPLETE], and a last one in which the reply,
    [BR_DEAD_REPLY] or [BR_FAILED_REPLY] comes after any of these - an error
    right after [BR_NOOP], a reply once the transaction is complete.  [transact]
    reads so far and no further, with nothing more written; it returns the data of
    the answer, or the status that a reply of nothing but a status holds,
    [DEAD_OBJECT] or [FAILED_TRANSACTION].  A reply parcel refers to the driver's
    buffer, and a status reply gives it back; what comes behind the answer is left
    to be read, and the identity of the caller is as it was.  (Other commands
    before the answer are the subject of [caller_survives_nested_calls].) *)
Theorem transact_answered early n depth last handle code data flags a rest status mem i d d' :
  0 < mDriverFD (i_process i) → in_size (i_thread i) <= mInPos (i_thread i) → mInCapacity (i_thread i) ≠ 0 →
  out_error data = NO_ERROR → has_flag flags TF_ONE_WAY = false →
  answer_ok a → status_in a mem status → - 2 ^ 31 <= status < 2 ^ 31 →
  Forall (λ ws, ws ≠ [] ∧ Forall quiet ws) early → Forall quiet last →
  gives (mDriverFD (i_process i)) (mInCapacity (i_thread i)) (mOut (i_thread i) ++ sent_transaction handle code data flags)
    ((commands <$> early) ++ [(commands last ++ answer_bytes a) ++ rest]) (i_mem i, d) (mem, d') →
  ∃ i', transact (level_at (length (concat early) + (length last + S n)) depth) handle code data (Some no_reply) flags (i, d) =
      Ok (((outcome a status).1, Some (outcome a status).2), (i', d')) ∧
    mOut (i_thread i') = said_after a ∧ mIn (i_thread i') = (commands last ++ answer_bytes a) ++ rest ∧
    mInPos (i_thread i') = in_size (i_thread i') - Z.of_nat (length rest) ∧ i_mem i' = mem ∧
    mCallingPid (i_thread i') = mCallingPid (i_thread i) ∧ mCallingUid (i_thread i') = mCallingUid (i_thread i) ∧ i_heap i' = i_heap i ∧
    mLastError (i_thread i') = (if (outcome a status).1 =? 0 then mLastError (i_thread i) else (outcome a status).1).
Proof.
  intros Hfd Hpos Hc Herr Hone Hok Hst Hs He Hq Hg. set (wbuf := mOut _ ++ _) in *.
  set (j := i <| i_thread %= λ t, t <| mOut := wbuf |> |>).
  assert (Hj : i_process j = i_process i ∧ i_mem j = i_mem i ∧ mOut (i_thread j) = wbuf ∧ mInCapacity (i_thread j) = mInCapacity (i_thread i) ∧
    in_size (i_thread j) <= mInPos (i_thread j)) by (by destruct i as [p []]).
  destruct Hj as (J1 & J2 & J3 & J4 & J5). rewrite <- J1, <- J2, <- J3, <- J4 in Hg. rewrite <- J1 in Hfd. rewrite <- J4 in Hc.
  pose proof (wait_answer early n depth last a rest status mem j d d' Hfd J5 Hc Hok He Hq Hg Hst Hs) as Hwait. set (i' := answered _ _ _ _ _ _) in Hwait.
  pose proof (writes_transaction handle code data flags i d Herr) as Ew. fold wbuf j in Ew.
  exists i'. split.
  - rewrite (transact_waits _ _ _ _ _ _ _ _ j Herr Hone Ew). unfold mbind, st_bind. rewrite Hwait. reflexivity.
  - unfold i', answered, last_error, said_bytes. destruct ((outcome a status).1 =? 0); destruct i as [p []];
      cbn -[commands answer_bytes said_after outcome]; (split_and!; try done); unfold in_size; cbn -[commands answer_bytes];
      rewrite (length_app _ rest); lia.
Qed.

(** ** A call that the driver refuses *)

Definition refused (mem : gmap Z Z) i : ipc := i <| i_mem := mem |>.

Lemma talk_refused err written bytes mem i d d' :
  0 < mDriverFD (i_process i) → in_size (i_thread i) <= mInPos (i_thread i) → mOut (i_thread i) ≠ [] → err < 0 → err ≠ - EINTR →
  sys_ioctl_write_read (mDriverFD (i_process i)) (mOut (i_thread i)) (mInCapacity (i_thread i)) (i_mem i, d) = Ok (err, written, bytes, (mem, d')) →
  talkWithDriver true (i, d) = Ok (err, (refused mem i, d')).
Proof.
  intros Hfd Hpos Ho Herr Hint E. unfold talkWithDriver, prc, thr, mbind, st_bind, gets. cbn [fst]. rewrite (proj2 (Z.leb_gt _ _)) by done.
  rewrite Z.geb_leb, (proj2 (Z.leb_le _ _)) by done. cbn [negb orb andb]. rewrite bool_decide_false by done. cbn [andb write_read].
  unfold prc, on_memory, mbind, st_bind, gets. cbn [fst snd]. rewrite E. unfold mret, st_ret. cbn [fst snd].
  replace (i_process (i <| i_mem := mem |>)) with (i_process i) by (by destruct i). rewrite (proj2 (Z.leb_gt _ _)) by done.
  rewrite Z.geb_leb, (proj2 (Z.leb_gt _ _)) by done. rewrite (proj2 (Z.eqb_neq _ _)) by done. cbv beta iota zeta.
  rewrite Z.geb_leb. by rewrite (proj2 (Z.leb_gt _ _)).
Qed.

(** C27: a call that the driver refuses, after it took part of what was written
    or none of it: the error is returned and noted, in the reply parcel too, and
    everything that was to be written stays in [mOut], so that the next call
    writes it again, with the commands that were carried out. *)
Theorem transact_refused n depth handle code data flags err written bytes mem i d d' :
  0 < mDriverFD (i_process i) → in_size (i_thread i) <= mInPos (i_thread i) → out_error data = NO_ERROR → has_flag flags TF_ONE_WAY = false →
  err < 0 → err ≠ - EINTR →
  (let wbuf := mOut (i_thread i) ++ sent_transaction handle code data flags in
   sys_ioctl_write_read (mDriverFD (i_process i)) wbuf (mInCapacity (i_thread i)) (i_mem i, d) = Ok (err, written, bytes, (mem, d'))) →
  ∃ i', transact (level_at (1 + n) depth) handle code data (Some no_reply) flags (i, d) = Ok ((err, Some (mk_reply err None)), (i', d')) ∧
    mOut (i_thread i') = mOut (i_thread i) ++ sent_transaction handle code data flags ∧ mLastError (i_thread i') = err ∧
    in_size (i_thread i') <= mInPos (i_thread i').
Proof.
  intros Hfd Hpos Hok Hone Herr Hint E. cbv zeta in E. set (wbuf := mOut _ ++ _) in *. set (j := i <| i_thread %= λ t, t <| mOut := wbuf |> |>).
  assert (Hj : i_process j = i_process i ∧ i_mem j = i_mem i ∧ mOut (i_thread j) = wbuf ∧ mInCapacity (i_thread j) = mInCapacity (i_thread i) ∧
    in_size (i_thread j) <= mInPos (i_thread j)) by (by destruct i as [p []]).
  destruct Hj as (J1 & J2 & J3 & J4 & J5). rewrite <- J1, <- J2, <- J3, <- J4 in E. rewrite <- J1 in Hfd.
  assert (Ho : mOut (i_thread j) ≠ []) by (rewrite J3; apply sent_nonempty).
  pose proof (talk_refused err written bytes mem j d d' Hfd J5 Ho Herr Hint E) as Et.
  pose proof (writes_transaction handle code data flags i d Hok) as Ew. fold wbuf j in Ew.
  eexists. split; [rewrite (transact_waits _ _ _ _ _ _ _ _ j Hok Hone Ew)|].
  - change (l_wait (level_at (1 + n) depth)) with (wait_turn (level_at n (S depth))). unfold Threads.wait_turn, mbind, st_bind. rewrite Et.
    rewrite (proj2 (Z.ltb_lt _ _)) by done. unfold finish. rewrite (proj2 (Z.eqb_neq err NO_ERROR)) by (unfold NO_ERROR; lia). reflexivity.
  - by destruct i as [p []].
Qed.
End answers.

(** ** A driver that follows a script *)

Module AnswersDemo.

(** The answers to come: a result and the bytes read. *)
Definition script : Type := list (Z * list Z).
#[export] Instance script_device : Device script := {
  interruptions := 0;
  sys_open := mret 5;
  sys_close _ := mret tt;
  sys_mmap _ _ := mret true;
  sys_ioctl_version _ := mret (0, BINDER_CURRENT_PROTOCOL_VERSION);
  sys_ioctl_set_max_threads _ _ := mret 0;
  sys_ioctl_set_context_mgr _ := mret 0;
  sys_ioctl_thread_exit _ := mret tt;
  sys_ioctl_write_read _ wbuf _ := λ s,
    match s.2 with
    | (r, bs) :: l => Ok (r, if r <? 0 then 0 else Z.of_nat (length wbuf), bs, (s.1, l))
    | [] => Oops Bad_env
    end;
  sys_getpriority := mret 0;
  sys_setpriority _ := mret tt;
  sys_close_files _ _ _ _ := mret tt
}.
#[export] Instance script_machine : Machine := {
  getWeakRefs x := x + 8; refBase x := x - 8; max_handles := 100; own_pid := 42; own_uid := 1000; statusBuffer_at n := 9000 + 16 * Z.of_nat n
}.

(** A service that looks at its caller, clears the identity and forgets to
    restore it. *)
Definition careless (x code : Z) (data : incoming) (flags : Z) : user (Z * outgoing) :=
  Call Calling_uid (λ uid, Call Clear_calling_identity (λ _, Return (NO_ERROR, mk_outgoing NO_ERROR uid 4 0 0))).
Definition no_died (_ _ : Z) : user unit := Return tt.
Definition no_cleanup (_ : Z) (_ : entry) : user unit := Return tt.
Definition no_pong : outgoing := mk_outgoing NO_ERROR 0 0 0 0.
Lemma no_died_polite r x : polite (no_died r x).
Proof. constructor. Qed.
Lemma no_cleanup_polite id e : polite (no_cleanup id e).
Proof. constructor. Qed.

(** A thread that serves process 77 and has a command to write; the context
    object is the [careless] service. *)
Definition served : Refs.object :=
  match Refs.call (λ _, true) Refs.incStrong (Refs.new_object Refs.OBJECT_LIFETIME_STRONG) with Ok (_, o) => o | Oops _ => Refs.new_object 0 end.
Definition thread_of : ipc :=
  mk_ipc (mk_process 5 true false 0 0 false 1 []) (mk_thread [] 0 256 (le_bytes 4 BC_FREE_BUFFER ++ le_bytes 4 4096) [] [] NO_ERROR 77 10077 0 0 true)
    {[ 500 := mk_item served Program ]} [] [] (put_bytes 8192 (le_bytes 4 (u32 (-5))) ∅) 500 false.
Definition data_of : outgoing := mk_outgoing NO_ERROR 3000 12 0 0.
Notation levels := (level_at careless no_died no_cleanup no_pong).

(** Another process calls before the answer comes. *)
Definition incoming_call : list Z := le_bytes 4 BR_NOOP ++ le_bytes 4 BR_TRANSACTION ++ encode_tr (mk_tr 0 0 7 0 88 10088 4 0 12288 0).
Definition busy_script : script :=
  [(0, incoming_call); (0, le_bytes 4 BR_NOOP ++ le_bytes 4 BR_TRANSACTION_COMPLETE); (0, whole_answer Dead)].

Lemma waitForResponse_enough_fuel_witness :
  waitForResponse careless no_died no_cleanup no_pong 30 (Some no_reply) None (thread_of, busy_script) =
  waitForResponse careless no_died no_cleanup no_pong 9 (Some no_reply) None (thread_of, busy_script).
Proof.
  apply (waitForResponse_enough_fuel careless no_died no_cleanup no_pong 9 30 (Some no_reply) None (thread_of, busy_script) _ eq_refl);
    [vm_compute; discriminate|lia].
Defined.

Lemma caller_survives_nested_calls_witness : ∃ r s',
  transact (levels 9 0) 3 1 data_of (Some no_reply) 0 (thread_of, busy_script) = Ok (r, s') ∧ mCallingPid (i_thread s'.1) = 77 ∧ mCallingUid (i_thread s'.1) = 10077.
Proof.
  destruct (transact (levels 9 0) 3 1 data_of (Some no_reply) 0 (thread_of, busy_script)) as [[r s']|o] eqn:E; [|vm_compute in E; discriminate].
  exists r, s'. split; [reflexivity|].
  exact (caller_survives_nested_calls careless no_died no_cleanup no_pong no_died_polite no_cleanup_polite 9 0 3 1 data_of (Some no_reply) 0 _ r s' E).
Defined.

Definition cleared : user (Z * Z * Z) :=
  Call Clear_calling_identity (λ token, Call Calling_pid (λ pid, Call Calling_uid (λ uid,
    user_bind (Return 3) (λ a, Call (Restore_calling_identity token) (λ _, Return (pid, uid, a)))))).
Lemma calling_identity_roundtrip_witness : ∃ a s',
  run_user no_cleanup (levels 2 0) cleared (thread_of, []) = Ok (a, s') ∧ a.1 = (42, 1000) ∧ caller s' = (77, 10077).
Proof.
  destruct (run_user no_cleanup (levels 2 0) cleared (thread_of, [])) as [[a s']|o] eqn:E; [|vm_compute in E; discriminate].
  exists a, s'. split; [reflexivity|].
  refine (calling_identity_roundtrip careless no_died no_cleanup no_pong 2 0 Z (Return 3) (thread_of, []) a s' _ _ E); cbn; lia.
Defined.

(** A reply that is only a status, -5. *)
Definition status_reply : answer := Replied (mk_tr 0 0 0 TF_STATUS_CODE 0 0 4 0 8192 0).
Lemma transact_answered_witness : ∃ i',
  transact (levels 4 0) 3 1 data_of (Some no_reply) 0
    (thread_of, [(0, commands [BR_NOOP; BR_TRANSACTION_COMPLETE]); (0, commands [BR_NOOP] ++ answer_bytes status_reply)]) =
    Ok ((-5, Some (mk_reply (-5) None)), (i', [])) ∧
  mOut (i_thread i') = concat (le_bytes 4 ∘ u32 <$> [BC_FREE_BUFFER; 8192]).
Proof.
  destruct (transact_answered careless no_died no_cleanup no_pong [[BR_NOOP; BR_TRANSACTION_COMPLETE]] 0 0 [BR_NOOP] 3 1 data_of 0 status_reply []
    (-5) (i_mem thread_of) thread_of
    [(0, commands [BR_NOOP; BR_TRANSACTION_COMPLETE]); (0, commands [BR_NOOP] ++ answer_bytes status_reply)] []) as (i' & E & Eo & _).
  - reflexivity.
  - vm_compute. discriminate.
  - discriminate.
  - reflexivity.
  - reflexivity.
  - repeat (constructor; [vm_compute; split; [discriminate|reflexivity]|]). constructor.
  - intros _. vm_compute. reflexivity.
  - lia.
  - apply Forall_singleton. split; [discriminate|]. unfold quiet. repeat constructor; set_solver.
  - apply Forall_singleton. unfold quiet. set_solver.
  - eexists. split; [vm_compute; reflexivity|]. eexists. split; [vm_compute; reflexivity|reflexivity].
  - exists i'. split; [exact E|exact Eo].
Defined.

Lemma transact_refused_witness : ∃ i',
  transact (levels 1 0) 3 1 data_of (Some no_reply) 0 (thread_of, [(-22, [])]) = Ok ((-22, Some (mk_reply (-22) None)), (i', [])) ∧
  mOut (i_thread i') = mOut (i_thread thread_of) ++ sent_transaction 3 1 data_of 0.
Proof.
  destruct (transact_refused careless no_died no_cleanup no_pong 0 0 3 1 data_of 0 (-22) 0 [] (i_mem thread_of) thread_of [(-22, [])] [])
    as (i' & E & Eo & _).
  - reflexivity.
  - vm_compute. discriminate.
  - reflexivity.
  - reflexivity.
  - lia.
  - discriminate.
  - vm_compute. reflexivity.
  - exists i'. split; [exact E|exact Eo].
Defined.
End AnswersDemo.
End ThreadsAnswers.
