(* ===== verification/IpcSystem.v ===== *)
(** The library, the driver and the service manager put together: a C++ server
    and a C++ client, each a task with one thread of [libbinder], their messages
    made and read by [Parcel].  A call that would sleep lets the others run. *)
From Stdlib Require Import String.
From S2P Require Import Prelude RBTree BinderAlloc BinderAllocSpec UserMem BinderUapi BinderState BinderKernel BinderObject BinderTransaction BinderWrite BinderRead BinderLifecycle BinderExamples BinderIo BinderClient ServiceManager BinderSystem Parcel RefBase IpcState BpBinder IpcThread.
Import Client SvcMgr Example System.
Import Ipc Proxies Threads.
Open Scope list_scope.

Module IpcSystem.

(** ** The device of a task *)

(** An [ioctl] of one word. *)
Definition word_ioctl (t fd cmd word : Z) : K (Z * Z) :=
  as_task t ;; set_user ∅ ;; poke bwr_at (le_bytes 4 word) ;;
  r ← binder_ioctl 5 fd cmd bwr_at true;
  bs ← copy_from_user bwr_at 4;
  mret (r, le_value (default [] bs)).

(** What is read when the call would sleep, after what was to be written. *)
Definition quiet (r : Z * Z * list Z) : Z * Z * list Z := if r.1.1 =? - EAGAIN then (0, r.1.2, []) else r.

Definition task_device {W} (lift : ∀ A, ST system A → ST W A) (t : Z)
    (write_read : Z → list Z → Z → ST (gmap Z Z * W) (Z * Z * list Z)) : Ipc.Device W := {|
  Ipc.interruptions := 0;
  Ipc.sys_open := lift _ (Client.sys_open (Driver := blocking t));
  Ipc.sys_close fd := lift _ (Client.sys_close (Driver := blocking t) fd);
  Ipc.sys_mmap fd size := lift _ (a ← Client.sys_mmap (Driver := blocking t) fd size; mret (if a is Some _ then true else false));
  Ipc.sys_ioctl_version fd := lift _ (on_kernel (r ← word_ioctl t fd BINDER_VERSION 0; mret (if r.1 <? 0 then -1 else r.1, r.2)));
  Ipc.sys_ioctl_set_max_threads fd n := lift _ (on_kernel (r ← word_ioctl t fd BINDER_SET_MAX_THREADS n; mret r.1));
  Ipc.sys_ioctl_set_context_mgr fd := lift _ (r ← Client.ioctl_set_context_mgr (Driver := blocking t) fd; mret (if r <? 0 then -1 else r));
  Ipc.sys_ioctl_thread_exit fd := lift _ (on_kernel (word_ioctl t fd BINDER_THREAD_EXIT 0 ;; mret tt));
  Ipc.sys_ioctl_write_read fd wbuf rsize := r ← write_read fd wbuf rsize; mret (quiet r);
  Ipc.sys_getpriority := lift _ (on_kernel (as_task t ;; cur ← current; mret (tk_nice cur)));
  Ipc.sys_setpriority nice := lift _ (on_kernel (modify (λ k, k <| k_tasks %= alter (λ tk, tk <| tk_nice := nice |>) t |>)));
  Ipc.sys_close_files _ _ _ _ := mret tt
|}.

Definition machine_of (pid uid : Z) : Ipc.Machine := {|
  Ipc.getWeakRefs x := x + 8; Ipc.refBase x := x - 8; max_handles := 1000; own_pid := pid; own_uid := uid;
  statusBuffer_at n := 9000 + 16 * Z.of_nat n
|}.

(** ** Parcels as messages *)

#[export] Instance parcel_process : Parcel.Process := {|
  Parcel.junk _ := 0; Parcel.realloc_zero_frees := true; Parcel.getWeakRefs c := c + 8;
  Parcel.getStrongProxyForHandle _ := true; Parcel.getWeakProxyForHandle _ := true |}.
Definition no_world : Parcel.world := Parcel.mk_world (replicate 40 true) [] ∅ ∅ [].
Definition contents (b : Parcel.block) : list Z := match b with Parcel.Block l => l | _ => [] end.

(** A message made by the writers [m]: its bytes at [a], the positions of its
    objects 2048 bytes further. *)
Definition message {A} (m : Parcel.P A) (a : Z) (mem : gmap Z Z) : outgoing * gmap Z Z :=
  match m (Parcel.initState, no_world) with
  | Ok (_, (p, _)) =>
      (mk_outgoing (Parcel.mError p) a (Parcel.mDataSize p) (a + 2048) (Parcel.mObjectsSize p),
       put_bytes a (take (Z.to_nat (Parcel.mDataSize p)) (contents (Parcel.mData p)))
         (put_bytes (a + 2048) (concat (le_bytes 4 <$> take (Z.to_nat (Parcel.mObjectsSize p)) (contents (Parcel.mObjects p)))) mem))
  | Oops _ => (mk_outgoing Parcel.NO_MEMORY 0 0 0 0, mem)
  end.
(** A message that was received, read by [m]. *)
Definition opened {A} (m : Parcel.P A) (msg : incoming) (mem : gmap Z Z) : option A :=
  data ← bytes_at (in_data msg) (Z.to_nat (in_data_size msg)) mem;
  objs ← bytes_at (in_objects msg) (4 * Z.to_nat (in_objects_count msg)) mem;
  match (Parcel.ipcSetDataReference (in_data msg) data (to_words objs) ;; m) (Parcel.initState, no_world) with
  | Ok (a, _) => Some a
  | Oops _ => None
  end.

Section tasks.
Context {W : Type} {DV : Ipc.Device W} {MA : Ipc.Machine}.
Definition write_message {A} (m : Parcel.P A) (a : Z) : Ipc.M (D := W) outgoing := λ s,
  let '(out, mem) := message m a (i_mem s.1) in Ok (out, (s.1 <| i_mem := mem |>, s.2)).
Definition read_reply {A} (m : Parcel.P A) (r : reply) : Ipc.M (D := W) A := λ s,
  match rp_data r with
  | Some msg => match opened m msg (i_mem s.1) with Some a => Ok (a, s) | None => Oops Bad_access end
  | None => Oops Null_deref
  end.
(** An object of the program that holds it by a strong reference. *)
Definition new_object (x : Z) : Ipc.M (D := W) unit :=
  set_ipc (λ i, i <| i_heap %= <[x := mk_item (Refs.new_object Refs.OBJECT_LIFETIME_STRONG) Program]> |>) ;;
  program_refs x Refs.incStrong ;; mret tt.
End tasks.

Definition power_on : ipc :=
  mk_ipc (mk_process 0 false false 0 0 false 0 []) (mk_thread [] 0 0 [] [] [] NO_ERROR 0 0 0 0 true) ∅ [20000; 20100; 20200] [] ∅ 0 false.
Definition words_at (a : Z) (n : nat) : gmap Z Z := put_bytes a (replicate (4 * n) 0) ∅.

Definition token_name : list Z := chars "android.os.IServiceManager".
Definition nfc : list Z := chars "nfc".
Definition service : Z := 7000.

(** ** The server: task 2 *)

Section server.
#[local] Instance server_machine : Ipc.Machine := machine_of 22 1027.
#[local] Instance server_device : Ipc.Device system := task_device (λ A m, m) 2 (λ fd wbuf rsize, Client.ioctl_write_read (Driver := blocking 2) fd wbuf 0 rsize).

(** The service tells its caller who called it, with which code. *)
Definition serve (x code : Z) (data : incoming) (flags : Z) : user (Z * outgoing) :=
  Call Calling_pid (λ pid, Call Calling_uid (λ uid,
    Call (Store_word 60000 pid) (λ _, Call (Store_word 60004 uid) (λ _, Call (Store_word 60008 code) (λ _,
      Return (NO_ERROR, mk_outgoing NO_ERROR 60000 12 0 0)))))).
Definition no_died (_ _ : Z) : user unit := Return tt.
Definition no_cleanup (_ : Z) (_ : entry) : user unit := Return tt.
Definition pong : outgoing := mk_outgoing NO_ERROR 60016 4 0 0.
Definition server_level := level_at serve no_died no_cleanup pong 12 0.

Definition server_starts : Ipc.M (D := system) Z :=
  set_ipc (λ i, i <| i_mem := words_at 60000 8 |>) ;;
  ProcessState ;; IPCThreadState ;; new_object service ;;
  manager ← getStrongProxyForHandle (attemptIncStrongHandle server_level) (run_cleanup no_cleanup server_level) 0;
  data ← write_message (Parcel.writeInterfaceToken 0 token_name ;; Parcel.writeString16 (Some nfc) ;; Parcel.writeStrongBinder (Parcel.B_local service)) 70000;
  r ← proxy_transact server_level manager SVC_MGR_ADD_SERVICE data (Some no_reply) 0;
  status ← read_reply Parcel.readInt32 (default no_reply r.2);
  free_data (default no_reply r.2) ;;
  out_words [BC_ENTER_LOOPER] ;; mret status.

Fixpoint server_turns (n : nat) : Ipc.M (D := system) unit :=
  match n with O => mret tt | S n' => pool_turn serve no_died no_cleanup pong server_level false ;; server_turns n' end.
End server.

(** ** The client: task 3 *)

(** The system with the server's thread in it. *)
Definition both : Type := system * ipc.
Definition on_system {A} (m : ST system A) : ST both A := λ b,
  match m b.1 with Ok (a, s) => Ok (a, (s, b.2)) | Oops o => Oops o end.
Definition run_server {A} (m : Ipc.M (D := system) A) : ST both A := λ b,
  match m (b.2, b.1) with Ok (a, (i, s)) => Ok (a, (s, i)) | Oops o => Oops o end.

(** A call that sleeps after the service manager had its turns lets the server
    have some. *)
Definition client_write_read (fd : Z) (wbuf : list Z) (rsize : Z) : ST (gmap Z Z * both) (Z * Z * list Z) := λ mb,
  let call wbuf mb :=
    match Client.ioctl_write_read (Driver := blocking 3) fd wbuf 0 rsize (mb.1, mb.2.1) with
    | Ok (r, (mem, s)) => Ok (r, (mem, (s, mb.2.2)))
    | Oops o => Oops o
    end in
  match call wbuf mb with
  | Ok (r, (mem, b)) =>
      if r.1.1 =? - EAGAIN then
        match run_server (server_turns 6) b with
        | Ok (_, b) => match call [] (mem, b) with Ok (r', mb) => Ok ((r'.1.1, r.1.2, r'.2), mb) | Oops o => Oops o end
        | Oops o => Oops o
        end
      else Ok (r, (mem, b))
  | Oops o => Oops o
  end.

Section client.
#[local] Instance client_machine : Ipc.Machine := machine_of 33 10005.
#[local] Instance client_device : Ipc.Device both := task_device (λ A, on_system) 3 client_write_read.

Definition no_service (x code : Z) (data : incoming) (flags : Z) : user (Z * outgoing) := Return (UNKNOWN_TRANSACTION, pong).
(** The recipient counts the deaths of each proxy. *)
Definition note_death (r x : Z) : user unit := Call (Load_word 60000) (λ n, Call (Store_word 60000 (n + 1)) (λ _, Call (Store_word 60004 x) Return)).
Definition client_level := level_at no_service note_death no_cleanup pong 12 0.
Definition strong_proxy (h : Z) : Ipc.M (D := both) Z := getStrongProxyForHandle (attemptIncStrongHandle client_level) (run_cleanup no_cleanup client_level) h.
Definition handle_of (b : Parcel.ibinder) : Z := match b with Parcel.B_proxy h => h | _ => 0 end.

(** Look the service up, link to its death, call it and ping it. *)
Definition client_calls : Ipc.M (D := both) (Z * list Z * Z) :=
  set_ipc (λ i, i <| i_mem := words_at 60000 8 |>) ;;
  ProcessState ;; IPCThreadState ;; new_object 8000 ;;
  manager ← strong_proxy 0;
  data ← write_message (Parcel.writeInterfaceToken 0 token_name ;; Parcel.writeString16 (Some nfc)) 70000;
  r ← proxy_transact client_level manager SVC_MGR_CHECK_SERVICE data (Some no_reply) 0;
  b ← read_reply Parcel.readStrongBinder (default no_reply r.2);
  x ← strong_proxy (handle_of b);
  free_data (default no_reply r.2) ;;
  linkToDeath (attemptIncStrongHandle client_level) (run_cleanup no_cleanup client_level) x 8000 0 0 ;;
  data ← write_message (Parcel.writeInt32 5) 70000;
  r ← proxy_transact client_level x 77 data (Some no_reply) 0;
  seen ← read_reply (a ← Parcel.readInt32; b ← Parcel.readInt32; c ← Parcel.readInt32; mret [a; b; c]) (default no_reply r.2);
  free_data (default no_reply r.2) ;;
  data ← write_message (mret tt) 70000;
  ping ← pingBinder client_level x data;
  mret (handle_of b, seen, ping).
(** The pool of the client: the commands that wait for it. *)
Fixpoint client_turns (n : nat) : Ipc.M (D := both) unit :=
  match n with O => mret tt | S n' => pool_turn no_service note_death no_cleanup pong client_level false ;; client_turns n' end.

(** It gives the service up: nobody wants to know of its death, and the last
    strong reference goes. *)
Definition client_leaves (x : Z) : Ipc.M (D := both) Z :=
  r ← unlinkToDeath x 8000 0 0 false;
  refs (attemptIncStrongHandle client_level) (run_cleanup no_cleanup client_level) x Refs.decStrong ;;
  client_turns 4 ;; mret r.1.
(** Then it is told of the death of the service, and calls it once more. *)
Definition client_mourns (x : Z) : Ipc.M (D := both) (list Z * Z * Z) :=
  out_words [BC_ENTER_LOOPER] ;; client_turns 4 ;;
  a ← load_word 60000; b ← load_word 60004;
  data ← write_message (Parcel.writeInt32 5) 70000;
  r ← proxy_transact client_level x 77 data (Some no_reply) 0;
  l ← linkToDeath (attemptIncStrongHandle client_level) (run_cleanup no_cleanup client_level) x 8000 0 0;
  mret ([a; b], r.1, l).
(** A client that asks the driver whether a strong reference is to be had. *)
Definition client_attempts (x : Z) : Ipc.M (D := both) (Z * Z) :=
  p ← proxy_at x; incStrongHandle (mHandle p) ;;
  a ← attemptIncStrongHandle client_level (mHandle p);
  data ← write_message (Parcel.writeInt32 5) 70000;
  r ← proxy_transact client_level x 77 data (Some no_reply) 0;
  mret (a, r.1).

Definition client_runs {A} (m : Ipc.M (D := both) A) (s : ipc * both) : option (A * (ipc * both)) :=
  match m s with Ok r => Some r | Oops _ => None end.
End client.

Definition started : both := match server_starts (power_on, ready) with Ok (_, (i, s)) => (s, i) | Oops _ => (ready, power_on) end.
(** The end of the server: its area and its file are closed, and the driver
    does the work it put off. *)
Definition server_exits (s : ipc * both) : ipc * both :=
  match (Client.sys_munmap (Driver := dev 2) user_area BINDER_VM_SIZE ;; Client.sys_close (Driver := dev 2) (mDriverFD (i_process s.2.2)) ;; binder_deferred_func)
    (s_kernel s.2.1) with
  | Ok (_, k) => (s.1, (mk_system k (s_mem s.2.1) (s_svcs s.2.1) (s_fresh s.2.1) (s_readbuf s.2.1), s.2.2))
  | Oops _ => s
  end.
(** The strong and the weak count of the object at [x]. *)
Definition counts (x : Z) (i : ipc) : option (Z * Z) := (λ h, (Refs.mStrong (h_refs h), Refs.mWeak (h_refs h))) <$> i_heap i !! x.


(** A service of a C++ program is called by another C++ program through the
    whole stack: the parcels of [Parcel], the threads of [libbinder], the driver
    and the service manager.  The server registers "nfc" and is told 0; the
    client finds it as handle 1, and its call reaches the service, which sees the
    pid and the uid of the client, 33 and 10005, and the code 77, and whose reply
    the client reads; a ping answers 0.  When the server exits, the client's
    recipient is told, once and of that proxy; calls and links through the proxy
    then fail with [DEAD_OBJECT], and only the program's strong reference on the
    proxy is left. *)
Theorem service_called_through_library :
  (match server_starts (power_on, ready) with Ok (status, _) => Some status | Oops _ => None end) = Some 0 ∧
  (r ← client_runs client_calls (power_on, started); l ← client_runs (client_mourns 20100) (server_exits r.2); Some (r.1, l.1, counts 20100 (l.2).1)) =
    Some ((1, [33; 10005; 77], 0), ([1; 20100], DEAD_OBJECT, DEAD_OBJECT), Some (1, 1)).
Proof. split; vm_compute; reflexivity. Qed.

(** A thread that tries to get a strong reference from the driver does no
    more: the driver refuses [BC_ATTEMPT_ACQUIRE] with -EINVAL, and since a call
    that fails takes nothing out of [mOut], the next transaction begins with the
    refused command again and fails as well, while the commands before it, here a
    [BC_ACQUIRE] of handle 1, are carried out each time: the driver counts two
    strong references more where the thread asked for one. *)
Theorem attempt_acquire_wedges_thread :
  (r ← client_runs client_calls (power_on, started); l ← client_runs (client_attempts 20100) r.2;
   let strong (s : ipc * both) := r_strong ∘ snd <$> filter (λ e : Z * binder_ref, r_desc e.2 = 1 ∧ r_proc e.2 = mDriverFD (i_process s.1)) (map_to_list (k_refs (s_kernel s.2.1))) in
   Some (l.1, strong r.2, strong l.2)) = Some ((- 22, - 22), [1], [3]).
Proof. vm_compute. reflexivity. Qed.
End IpcSystem.
