(* ===== verification/MemoryDealer.v ===== *)
(** Shared memory for clients of [libbinder], [lib/binder/MemoryDealer.cpp]: the
    doubly linked list of chunks, the best fit allocator over it, and the
    allocations that are handed out.  Numbers are 32 bit wide; where a chunk lies
    is counted in units of [kMemoryAlign] bytes. *)
From S2P Require Import Prelude.

Module Dealer.

Definition kMemoryAlign : Z := 32.
Definition PAGE_ALIGNED : Z := 1.
Definition NO_ERROR : Z := 0.
Definition NO_MEMORY : Z := -12.
Definition NAME_NOT_FOUND : Z := -2.

(** The width of [chunk_t::size]. *)
Definition u28 (x : Z) : Z := x `mod` 2 ^ 28.

(** [chunk_t]; links are addresses, 0 is NULL. *)
Record chunk_t : Type := mk_chunk { start : Z; c_size : Z; c_free : bool; prev : Z; next : Z }.
#[export] Instance eta_chunk : Eta chunk_t := λ c, mk_chunk (start c) (c_size c) (c_free c) (prev c) (next c).
#[export] Instance field_start : Field start := ltac:(derive_field).
#[export] Instance field_c_size : Field c_size := ltac:(derive_field).
#[export] Instance field_c_free : Field c_free := ltac:(derive_field).
#[export] Instance field_prev : Field prev := ltac:(derive_field).
#[export] Instance field_next : Field next := ltac:(derive_field).

(** What the code does to the shared memory itself, by offset in the heap. *)
Inductive touch : Type :=
| Memset (from len byte : Z)
| Remove (from len : Z).

(** The chunks by address, the list's ends, [mHeapSize], whether the heap's
    [mmap] succeeded, and what was done to the memory, last first. *)
Record dealer : Type := mk_dealer {
  d_chunks : gmap Z chunk_t; mFirst : Z; mLast : Z; mHeapSize : Z; d_mapped : bool; d_touched : list touch
}.
#[export] Instance eta_dealer : Eta dealer :=
  λ d, mk_dealer (d_chunks d) (mFirst d) (mLast d) (mHeapSize d) (d_mapped d) (d_touched d).
#[export] Instance field_chunks : Field d_chunks := ltac:(derive_field).
#[export] Instance field_first : Field mFirst := ltac:(derive_field).
#[export] Instance field_last : Field mLast := ltac:(derive_field).
#[export] Instance field_heap_size : Field mHeapSize := ltac:(derive_field).
#[export] Instance field_touched : Field d_touched := ltac:(derive_field).

Notation MD := (ST dealer).

Definition chunk (a : Z) : MD chunk_t := gets (λ d, d_chunks d !! a) ≫= the Null_deref.
Definition set_chunk (a : Z) (f : chunk_t → chunk_t) : MD unit :=
  c ← chunk a; modify (λ d, d <| d_chunks %= <[a := f c]> |>).

(** ** [LinkedList<chunk_t>] *)

Definition insertAfter (node newNode : Z) : MD unit :=
  n ← chunk node;
  set_chunk newNode (λ c, c <| prev := node |> <| next := next n |>) ;;
  (if next n =? 0 then modify (λ d, d <| mLast := newNode |>)
   else set_chunk (next n) (λ c, c <| prev := newNode |>)) ;;
  set_chunk node (λ c, c <| next := newNode |>).

Definition insertBefore (node newNode : Z) : MD unit :=
  n ← chunk node;
  set_chunk newNode (λ c, c <| prev := prev n |> <| next := node |>) ;;
  (if prev n =? 0 then modify (λ d, d <| mFirst := newNode |>)
   else set_chunk (prev n) (λ c, c <| next := newNode |>)) ;;
  set_chunk node (λ c, c <| prev := newNode |>).

Definition insertHead (newNode : Z) : MD unit :=
  first ← gets mFirst;
  if first =? 0 then
    modify (λ d, d <| mFirst := newNode |> <| mLast := newNode |>) ;;
    set_chunk newNode (λ c, c <| prev := 0 |> <| next := 0 |>)
  else
    set_chunk newNode (λ c, c <| prev := 0 |> <| next := first |>) ;;
    set_chunk first (λ c, c <| prev := newNode |>) ;;
    modify (λ d, d <| mFirst := newNode |>).

Definition insertTail (newNode : Z) : MD unit :=
  lst ← gets mLast;
  if lst =? 0 then insertHead newNode
  else
    set_chunk newNode (λ c, c <| prev := lst |> <| next := 0 |>) ;;
    set_chunk lst (λ c, c <| next := newNode |>) ;;
    modify (λ d, d <| mLast := newNode |>).

(** [remove]; the caller deletes the node. *)
Definition unlink (node : Z) : MD unit :=
  n ← chunk node;
  (if prev n =? 0 then modify (λ d, d <| mFirst := next n |>)
   else set_chunk (prev n) (λ c, c <| next := next n |>)) ;;
  (if next n =? 0 then modify (λ d, d <| mLast := prev n |>)
   else set_chunk (next n) (λ c, c <| prev := prev n |>)).

Definition delete_chunk (node : Z) : MD unit := chunk node ;; modify (λ d, d <| d_chunks %= delete node |>).

(** ** [SimpleBestFitAllocator] *)

Section allocator.
(** The address [operator new] returns, [getpagesize()], and whether
    [LOG_FATAL_IF] is compiled out. *)
Context (operator_new : gmap Z chunk_t → Z) (pagesize : Z) (log_ndebug : bool).

Definition LOG_FATAL_IF (b : bool) : MD unit := if log_ndebug then mret tt else bug_on b.

Definition new_chunk (st sz : Z) : MD Z :=
  d ← gets d_chunks;
  modify (λ d, d <| d_chunks %= <[operator_new (d_chunks d) := mk_chunk st (u28 sz) true 0 0]> |>) ;;
  mret (operator_new d).

(** [-start & ((pagesize / kMemoryAlign) - 1)]. *)
Definition page_extra (flags st : Z) : Z :=
  if has_flag flags PAGE_ALIGNED then Z.land (u32 (- st)) (pagesize / kMemoryAlign - 1) else 0.

(** [(x + pagesize - 1) & ~(pagesize - 1)] and [x & ~(pagesize - 1)]. *)
Definition page_down (x : Z) : Z := Z.land x (Z.lnot (pagesize - 1)).
Definition page_up (x : Z) : Z := page_down (u32 (x + pagesize - 1)).

(** The constructor, on a new object. *)
Definition SimpleBestFitAllocator (size : Z) : MD unit :=
  modify (λ d, d <| mHeapSize := page_up size |>) ;;
  node ← new_chunk 0 (page_up size / kMemoryAlign);
  insertHead node.

(** The destructor. *)
Fixpoint delete_loop (fuel : nat) : MD unit :=
  first ← gets mFirst;
  if first =? 0 then mret tt
  else match fuel with
       | O => fail Fuel
       | S fuel' => unlink first ;; delete_chunk first ;; delete_loop fuel'
       end.
Definition delete_allocator : MD unit := d ← gets d_chunks; delete_loop (size d).

(** The search of [alloc], [free_chunk] is the best so far. *)
Fixpoint alloc_loop (fuel : nat) (size flags free_chunk cur : Z) : MD Z :=
  if cur =? 0 then mret free_chunk
  else
    match fuel with
    | O => fail Fuel
    | S fuel' =>
        c ← chunk cur;
        if c_free c && (c_size c >=? u32 (size + page_extra flags (start c))) then
          best ← (if free_chunk =? 0 then mret cur
                  else f ← chunk free_chunk; mret (if c_size c <? c_size f then cur else free_chunk));
          if c_size c =? size then mret best else alloc_loop fuel' size flags best (next c)
        else alloc_loop fuel' size flags free_chunk (next c)
    end.

(** The rest of a chunk that was larger than what was asked for. *)
Definition split_chunk (free_chunk free_size size flags : Z) : MD unit :=
  c ← chunk free_chunk;
  let extra := page_extra flags (start c) in
  when (negb (extra =? 0))
    (split ← new_chunk (start c) extra;
     set_chunk free_chunk (λ c, c <| start %= λ st, u32 (st + extra) |>) ;;
     insertBefore free_chunk split) ;;
  let tail_free := s32 (free_size - (size + extra)) in
  when (tail_free >? 0)
    (c ← chunk free_chunk;
     split ← new_chunk (u32 (start c + c_size c)) tail_free;
     insertAfter free_chunk split).

(** The number of units [alloc] looks for. *)
Definition units (size : Z) : Z := u32 (size + kMemoryAlign - 1) / kMemoryAlign.

Definition alloc (sz flags : Z) : MD Z :=
  if sz =? 0 then mret 0
  else
    let size := units sz in
    d ← gets id;
    free_chunk ← alloc_loop (stdpp.base.size (d_chunks d)) size flags 0 (mFirst d);
    if free_chunk =? 0 then mret NO_MEMORY
    else
      c ← chunk free_chunk;
      let free_size := c_size c in
      set_chunk free_chunk (λ c, c <| c_free := false |> <| c_size := u28 size |>) ;;
      when (free_size >? size) (split_chunk free_chunk free_size size flags) ;;
      c ← chunk free_chunk;
      mret (s32 (start c * kMemoryAlign)).

(** The loop that merges freed blocks together; it returns [freed]. *)
Fixpoint merge_loop (fuel : nat) (cur freed : Z) : MD Z :=
  match fuel with
  | O => fail Fuel
  | S fuel' =>
      c ← chunk cur;
      merge ← (if prev c =? 0 then mret false else p ← chunk (prev c); mret (c_free p || (c_size c =? 0)));
      freed ← (if merge : bool then
                 set_chunk (prev c) (λ p, p <| c_size %= λ n, u28 (n + c_size c) |>) ;;
                 unlink cur ;; delete_chunk cur ;; mret (prev c)
               else mret freed);
      if next c =? 0 then mret freed
      else n ← chunk (next c); if c_free n then merge_loop fuel' (next c) freed else mret freed
  end.

Fixpoint dealloc_loop (fuel : nat) (st cur : Z) : MD Z :=
  if cur =? 0 then mret 0
  else
    match fuel with
    | O => fail Fuel
    | S fuel' =>
        c ← chunk cur;
        if start c =? st then
          LOG_FATAL_IF (c_free c) ;;
          set_chunk cur (λ c, c <| c_free := true |>) ;;
          freed ← merge_loop (S fuel') cur cur;
          f ← chunk freed;
          LOG_FATAL_IF (negb (c_free f)) ;;
          mret freed
        else dealloc_loop fuel' st (next c)
    end.

Definition dealloc (st : Z) : MD Z :=
  d ← gets id;
  dealloc_loop (size (d_chunks d)) (st / kMemoryAlign) (mFirst d).

Definition allocate (size flags : Z) : MD Z := offset ← alloc size flags; mret (u32 offset).

Definition deallocate (offset : Z) : MD Z :=
  freed ← dealloc offset; mret (if freed =? 0 then NAME_NOT_FOUND else NO_ERROR).

(** ** [MemoryDealer] and [Allocation] *)

(** The [MemoryBase] part of an [Allocation]. *)
Record allocation : Type := mk_allocation { getOffset : Z; getSize : Z }.

Definition touches (t : touch) : MD unit := modify (λ d, d <| d_touched %= cons t |>).

(** [memset] of a part of the heap; nothing is there if it was not mapped. *)
Definition memset_heap (from byte len : Z) : MD unit :=
  ok ← gets d_mapped;
  if ok : bool then touches (Memset from len byte) else fail Bad_access.

(** [Allocation::Allocation]. *)
Definition new_allocation (offset size : Z) : MD allocation :=
  memset_heap offset 218 size ;; mret (mk_allocation offset size).

(** The pages of an allocation that go back to the kernel, as begin and end. *)
Definition excess_pages (freedOffset freedSize : Z) : Z * Z :=
  let start := freedOffset in
  let end_ := u32 (start + freedSize) in
  let start := page_down start in
  let end_ := page_up end_ in
  let free_start := freedOffset in
  let free_end := u32 (free_start + freedSize) in
  let start := if start <? free_start then free_start else start in
  let end_ := if free_end <? end_ then free_end else end_ in
  (page_up start, page_down end_).

(** [Allocation::~Allocation]. *)
Definition delete_allocation (a : allocation) : MD unit :=
  let freedOffset := u32 (getOffset a) in
  let freedSize := getSize a in
  when (negb (freedSize =? 0))
    (let (start, end_) := excess_pages freedOffset freedSize in
     when (start <? end_)
       (memset_heap start 223 (end_ - start) ;; touches (Remove start (end_ - start))) ;;
     deallocate freedOffset ;; mret tt).

(** [MemoryDealer::MemoryDealer] over a [MemoryHeapBase] that could be mapped or not. *)
Definition MemoryDealer (size : Z) (mapped : bool) : res (unit * dealer) :=
  SimpleBestFitAllocator size (mk_dealer ∅ 0 0 0 mapped []).

(** [MemoryDealer::allocate]; [None] is the null pointer. *)
Definition dealer_allocate (size : Z) : MD (option allocation) :=
  offset ← allocate size 0;
  let offset := s32 offset in
  if offset >=? 0 then a ← new_allocation offset size; mret (Some a) else mret None.

End allocator.
End Dealer.
