(* ===== verification/MemoryDealerList.v ===== *)
(** The linked list of the shared memory allocator: a list of chunks that the
    pointers represent, and what each operation of [LinkedList] does to it. *)
From S2P Require Import Prelude MemoryDealer.
Import Dealer.

Module DealerList.

(** A chunk without its links. *)
Record ext : Type := mk_ext { e_start : Z; e_size : Z; e_free : bool }.
Definition chunk_of (x : ext) (p n : Z) : chunk_t := mk_chunk (e_start x) (e_size x) (e_free x) p n.

Implicit Types (h : gmap Z chunk_t) (l : list (Z * ext)) (d : dealer) (x y z : ext).

Definition nxt l (n : Z) : Z := match l with [] => n | (a, _) :: _ => a end.
Fixpoint lst (p : Z) l : Z := match l with [] => p | (a, _) :: l' => lst a l' end.

(** The nodes of [l] one after the other in the heap, [p] before and [n] behind them. *)
Fixpoint seg h (p : Z) l (n : Z) : Prop :=
  match l with
  | [] => True
  | (a, x) :: l' => a ≠ 0 ∧ h !! a = Some (chunk_of x p (nxt l' n)) ∧ seg h a l' n
  end.

(** The list [l] is what the object holds. *)
Record rep d l : Prop := {
  rp_seg : seg (d_chunks d) 0 l 0;
  rp_nodup : NoDup l.*1;
  rp_first : mFirst d = nxt l 0;
  rp_last : mLast d = lst 0 l
}.

Lemma lst_app p l1 l2 : lst p (l1 ++ l2) = lst (lst p l1) l2.
Proof. revert p. induction l1 as [|[a x] l1 IH]; intros p; simpl; auto. Qed.

Lemma nxt_app l1 l2 n : nxt (l1 ++ l2) n = nxt l1 (nxt l2 n).
Proof. destruct l1 as [|[a x] l1]; done. Qed.

Lemma seg_app h p l1 l2 n : seg h p (l1 ++ l2) n ↔ seg h p l1 (nxt l2 n) ∧ seg h (lst p l1) l2 n.
Proof.
  revert p. induction l1 as [|[a x] l1 IH]; intros p; simpl; [tauto|].
  rewrite IH, nxt_app. tauto.
Qed.

Lemma seg_frame h h' p l n : (∀ a, a ∈ l.*1 → h' !! a = h !! a) → seg h p l n → seg h' p l n.
Proof.
  revert p. induction l as [|[a x] l IH]; intros p Hh; simpl; [done|].
  intros (Ha & E & Hs). split_and!; [done| |].
  - rewrite Hh; [done|]. by left.
  - apply IH; [|done]. intros b Hb. apply Hh. by right.
Qed.

Lemma seg_insert h p l n a c : a ∉ l.*1 → seg h p l n → seg (<[a := c]> h) p l n.
Proof. intros Ha. apply seg_frame. intros b Hb. apply lookup_insert_ne. by intros ->. Qed.

Lemma seg_delete h p l n a : a ∉ l.*1 → seg h p l n → seg (delete a h) p l n.
Proof. intros Ha. apply seg_frame. intros b Hb. apply lookup_delete_ne. by intros ->. Qed.

Lemma lst_elem p l : lst p l = p ∨ lst p l ∈ l.*1.
Proof.
  revert p. induction l as [|[a x] l IH]; intros p; simpl; [by left|].
  right. destruct (IH a) as [->|H]; [by left|by right].
Qed.

(** The last node of a list that is not empty. *)
Lemma list_end l : l = [] ∨ ∃ l' b y, l = l' ++ [(b, y)].
Proof. destruct l as [|[b y] l'] using rev_ind; [by left|right]. by exists l', b, y. Qed.

(** The node in the middle of a list. *)
Lemma rep_at d l1 a x l2 :
  rep d (l1 ++ (a, x) :: l2) → a ≠ 0 ∧ d_chunks d !! a = Some (chunk_of x (lst 0 l1) (nxt l2 0)).
Proof. intros [Hs _ _ _]. apply seg_app in Hs as [_ (Ha & E & _)]. done. Qed.

Lemma rep_fresh d l a : rep d l → d_chunks d !! a = None → a ∉ l.*1.
Proof.
  intros [Hs _ _ _] E Ha. apply list_elem_of_fmap in Ha as ([b x] & -> & Hin).
  apply list_elem_of_split in Hin as (l1 & l2 & ->). apply seg_app in Hs as [_ (_ & E' & _)]. simpl in E. congruence.
Qed.

Lemma rep_size d l : rep d l → (length l ≤ size (d_chunks d))%nat.
Proof.
  intros Hr. rewrite <- (length_fmap fst l), <- size_dom, <- (size_list_to_set (C := gset Z) l.*1) by apply Hr.
  apply subseteq_size. intros a Ha%elem_of_list_to_set. apply elem_of_dom.
  destruct (d_chunks d !! a) eqn:E; [by eexists|]. by apply (rep_fresh d l) in E.
Qed.

(** ** The accesses *)

Lemma chunk_eq a d c : d_chunks d !! a = Some c → chunk a d = Ok (c, d).
Proof. intros E. unfold chunk. unfold mbind, st_bind, gets. by rewrite E. Qed.

Lemma set_chunk_eq a f d c :
  d_chunks d !! a = Some c → set_chunk a f d = Ok (tt, d <| d_chunks %= <[a := f c]> |>).
Proof. intros E. unfold set_chunk. by rewrite (st_bind_eq _ _ _ _ _ (chunk_eq _ _ _ E)). Qed.

Lemma delete_chunk_eq a d c : d_chunks d !! a = Some c → delete_chunk a d = Ok (tt, d <| d_chunks %= delete a |>).
Proof. intros E. unfold delete_chunk. by rewrite (st_bind_eq _ _ _ _ _ (chunk_eq _ _ _ E)). Qed.

(** What every operation leaves alone. *)
Record same d d' : Prop := {
  sm_dom : dom (d_chunks d') = dom (d_chunks d);
  sm_size : mHeapSize d' = mHeapSize d;
  sm_mapped : d_mapped d' = d_mapped d;
  sm_touched : d_touched d' = d_touched d
}.

#[export] Instance same_preorder : PreOrder same.
Proof. split; [by split|]. intros d1 d2 d3 [] []. split; congruence. Qed.

(** Runs a short program over known chunks. *)
Ltac crun :=
  unfold insertBefore, insertAfter, insertHead, unlink, set_chunk, chunk, mbind, st_bind, gets, modify, mret, st_ret, the;
  repeat (cbn; simplify_map_eq).

Lemma dom_insert_present h a c c' : h !! a = Some c → dom (<[a := c']> h) = dom h.
Proof. intros E. apply dom_insert_lookup_L. by eexists. Qed.

Ltac same_solver :=
  split; [cbn; repeat (erewrite dom_insert_present; [|by simplify_map_eq]); done|done..].

(** Nodes that differ, from lists without duplicates. *)
Lemma nodup_mid (l1 l2 : list Z) a : NoDup (l1 ++ a :: l2) ↔ a ∉ l1 ∧ a ∉ l2 ∧ NoDup (l1 ++ l2).
Proof. rewrite <- Permutation_middle, NoDup_cons, elem_of_app. tauto. Qed.

(** The nodes apart that [H : NoDup l.*1] tells about. *)
Ltac node_facts H :=
  let N := fresh in pose proof H as N; rewrite ?fmap_app, ?fmap_cons, ?fmap_nil in N; cbn [fst snd] in N;
  rewrite <- ?app_assoc in N; cbn [app] in N;
  repeat match type of N with
  | NoDup (_ ++ _ :: _) => apply nodup_mid in N; destruct N as (? & ? & N)
  | NoDup (_ :: _) => apply NoDup_cons in N; destruct N as [? N]
  end;
  rewrite ?elem_of_app, ?elem_of_cons, ?elem_of_nil in *.

Ltac notin := rewrite ?elem_of_app, ?elem_of_cons, ?elem_of_nil; tauto.

(** The part of a list that a program left alone. *)
Ltac seg_same := repeat first [apply seg_insert; [notin|] | apply seg_delete; [notin|]]; done.

Lemma set_payload d l1 a x l2 f y :
  rep d (l1 ++ (a, x) :: l2) → (∀ p n, f (chunk_of x p n) = chunk_of y p n) →
  ∃ d', set_chunk a f d = Ok (tt, d') ∧ rep d' (l1 ++ (a, y) :: l2) ∧ same d d' ∧
    ∀ b, b ≠ a → d_chunks d' !! b = d_chunks d !! b.
Proof.
  intros Hr Hf. destruct (rep_at _ _ _ _ _ Hr) as [Ha E]. eexists. split; [by apply set_chunk_eq|].
  destruct Hr as [Hs Hn Hfi Hla]. split; [split; cbn|split].
  - apply seg_app in Hs as [H1 (_ & _ & H3)]. node_facts Hn. apply seg_app. cbn. split; [seg_same|].
    split_and!; [done|by rewrite lookup_insert_eq, Hf|seg_same].
  - by rewrite fmap_app in *.
  - rewrite Hfi. by rewrite !nxt_app.
  - rewrite Hla. by rewrite !lst_app.
  - split; cbn; [|done..]. by eapply dom_insert_present.
  - intros b Hb. cbn. by rewrite lookup_insert_ne.
Qed.

Definition ext_of (c : chunk_t) : ext := mk_ext (start c) (c_size c) (c_free c).

Lemma rep_nodup_insert d l1 a x l2 b y :
  rep d (l1 ++ (a, x) :: l2) → b ∉ (l1 ++ (a, x) :: l2).*1 →
  NoDup (l1 ++ (b, y) :: (a, x) :: l2).*1 ∧ NoDup (l1 ++ (a, x) :: (b, y) :: l2).*1.
Proof.
  intros [_ Hn _ _] Hb. assert (HP : (l1 ++ (b, y) :: (a, x) :: l2) ≡ₚ (l1 ++ (a, x) :: (b, y) :: l2)).
  { apply Permutation_app_head. constructor. }
  assert (NoDup (l1 ++ (b, y) :: (a, x) :: l2).*1).
  { rewrite fmap_app in *. apply nodup_mid. cbn in *. split_and!; [| |done]; intros ?; apply Hb, elem_of_app; tauto. }
  split; [done|]. by rewrite <- HP.
Qed.

Lemma insertBefore_ok d l1 a x l2 b c :
  rep d (l1 ++ (a, x) :: l2) → b ≠ 0 → d_chunks d !! b = Some c → b ∉ (l1 ++ (a, x) :: l2).*1 →
  ∃ d', insertBefore a b d = Ok (tt, d') ∧ rep d' (l1 ++ (b, ext_of c) :: (a, x) :: l2) ∧ same d d'.
Proof.
  intros Hr Hb Eb Hnb. destruct (rep_at _ _ _ _ _ Hr) as [Ha E].
  destruct (rep_nodup_insert _ _ _ _ _ b (ext_of c) Hr Hnb) as [Hn' _]. destruct Hr as [Hs Hn Hfi Hla].
  destruct d as [h f ls hs mp tr]. cbn in *. subst f ls. destruct (list_end l1) as [->|(l' & q & y & ->)].
  - destruct Hs as (_ & _ & Hs). cbn in E. node_facts Hn'. assert (b ≠ a) by tauto.
    eexists. split; [|split; [split|]]; [crun; done|cbn|done|done|done|same_solver].
    split_and!; [done|by simplify_map_eq|done|by simplify_map_eq|seg_same].
  - rewrite lst_app in E. cbn in E. apply seg_app in Hs as [H1 (_ & _ & H3)].
    apply seg_app in H1 as [H1 (Hq & Eq & _)]. rewrite <- !app_assoc in *. cbn [app] in *. node_facts Hn'.
    assert (q ≠ a) by tauto. assert (b ≠ q) by (intros ->; tauto). assert (b ≠ a) by tauto.
    eexists. split; [|split; [split|]].
    + crun. rewrite (proj2 (Z.eqb_neq q 0)) by done. crun. done.
    + cbn. apply seg_app. cbn. split; [seg_same|].
      split_and!; [done|by simplify_map_eq|done|by simplify_map_eq|done|by simplify_map_eq|seg_same].
    + done.
    + cbn. by rewrite !nxt_app.
    + cbn. by rewrite !lst_app.
    + same_solver.
Qed.

Lemma insertAfter_ok d l1 a x l2 b c :
  rep d (l1 ++ (a, x) :: l2) → b ≠ 0 → d_chunks d !! b = Some c → b ∉ (l1 ++ (a, x) :: l2).*1 →
  ∃ d', insertAfter a b d = Ok (tt, d') ∧ rep d' (l1 ++ (a, x) :: (b, ext_of c) :: l2) ∧ same d d'.
Proof.
  intros Hr Hb Eb Hnb. destruct (rep_at _ _ _ _ _ Hr) as [Ha E].
  destruct (rep_nodup_insert _ _ _ _ _ b (ext_of c) Hr Hnb) as [_ Hn']. destruct Hr as [Hs Hn Hfi Hla].
  apply seg_app in Hs as [H1 (_ & _ & H3)]. destruct d as [h f ls hs mp tr]. cbn in *. subst f ls.
  destruct l2 as [|[q y] l2]; cbn in E, H3; node_facts Hn'; assert (b ≠ a) by (intros ->; tauto).
  - eexists. split; [|split; [split|]]; [crun; done| |done| | |same_solver].
    + apply seg_app. cbn. split; [seg_same|]. split_and!; [done|by simplify_map_eq|done|by simplify_map_eq|done].
    + cbn. by rewrite !nxt_app.
    + cbn. by rewrite lst_app.
  - destruct H3 as (Hq & Eq & H3). assert (q ≠ a) by (intros ->; tauto). assert (b ≠ q) by (intros ->; tauto).
    eexists. split; [|split; [split|]].
    + crun. rewrite (proj2 (Z.eqb_neq q 0)) by done. crun. done.
    + apply seg_app. cbn. split; [seg_same|].
      split_and!; [done|by simplify_map_eq|done|by simplify_map_eq|done|by simplify_map_eq|seg_same].
    + done.
    + cbn. by rewrite !nxt_app.
    + cbn. by rewrite !lst_app.
    + same_solver.
Qed.

Lemma insertHead_ok d l b c :
  rep d l → b ≠ 0 → d_chunks d !! b = Some c → b ∉ l.*1 →
  ∃ d', insertHead b d = Ok (tt, d') ∧ rep d' ((b, ext_of c) :: l) ∧ same d d'.
Proof.
  intros [Hs Hn Hfi Hla] Hb Eb Hnb. destruct d as [h f ls hs mp tr]. cbn in *. subst f ls.
  destruct l as [|[a x] l]; cbn in Hs, Hnb.
  - eexists. split; [|split; [split|]]; [crun; done| | |done|done|same_solver].
    + cbn. split_and!; [done|by simplify_map_eq|done].
    + apply NoDup_cons. split; [done|constructor].
  - destruct Hs as (Ha & E & Hs). node_facts Hn. assert (b ≠ a) by tauto.
    eexists. split; [|split; [split|]].
    + crun. rewrite (proj2 (Z.eqb_neq a 0)) by done. crun. done.
    + cbn. split_and!; [done|by simplify_map_eq|done|by simplify_map_eq|seg_same].
    + apply NoDup_cons. split; [|done]. cbn. rewrite elem_of_cons. tauto.
    + done.
    + done.
    + same_solver.
Qed.

(** [remove], with the [delete] that follows it: the links go around the node. *)
Record removed d d' (a : Z) : Prop := {
  rm_dom : dom (d_chunks d') = dom (d_chunks d) ∖ {[a]};
  rm_size : mHeapSize d' = mHeapSize d;
  rm_mapped : d_mapped d' = d_mapped d;
  rm_touched : d_touched d' = d_touched d
}.

Ltac removed_solver :=
  split; [cbn; rewrite dom_delete_L; f_equal; repeat (erewrite dom_insert_present; [|by simplify_map_eq]); done|done..].

Lemma unlink_chunk_ok d l1 a x l2 :
  rep d (l1 ++ (a, x) :: l2) →
  ∃ d1 d', unlink a d = Ok (tt, d1) ∧ delete_chunk a d1 = Ok (tt, d') ∧ rep d' (l1 ++ l2) ∧ removed d d' a.
Proof.
  intros Hr. destruct (rep_at _ _ _ _ _ Hr) as [Ha E]. destruct Hr as [Hs Hn Hfi Hla].
  apply seg_app in Hs as [H1 (_ & _ & H3)]. destruct d as [h f ls hs mp tr]. cbn in *. subst f ls.
  assert (Hn' : NoDup (l1 ++ l2).*1) by (rewrite !fmap_app in *; by apply nodup_mid in Hn as (_ & _ & ?)).
  destruct (list_end l1) as [->|(l' & q & y & ->)]; destruct l2 as [|[r z] l2].
  - cbn in E. eexists _, _. split_and!; [crun; done|eapply delete_chunk_eq; cbn; done| |removed_solver].
    by split.
  - cbn in E, H3. destruct H3 as (Hr & Er & H3). node_facts Hn. assert (r ≠ a) by (intros ->; tauto).
    eexists _, _. split; [crun; rewrite (proj2 (Z.eqb_neq r 0)) by done; crun; done|].
    split_and!; [eapply delete_chunk_eq; cbn; by simplify_map_eq| |removed_solver].
    + split; [cbn|done..]. split_and!; [done|by simplify_map_eq|seg_same].
  - rewrite lst_app in E. cbn in E. apply seg_app in H1 as [H1 (Hq & Eq & _)]. node_facts Hn.
    assert (q ≠ a) by tauto.
    eexists _, _. split; [crun; rewrite (proj2 (Z.eqb_neq q 0)) by done; crun; done|].
    split_and!; [eapply delete_chunk_eq; cbn; by simplify_map_eq| |removed_solver].
    + rewrite app_nil_r in *. split; [|done|cbn; by rewrite !nxt_app|cbn; by rewrite !lst_app].
      apply seg_app. cbn. split; [seg_same|]. split_and!; [done|by simplify_map_eq|done].
  - rewrite lst_app in E. cbn in E, H3. apply seg_app in H1 as [H1 (Hq & Eq & _)]. destruct H3 as (Hr & Er & H3).
    node_facts Hn. assert (q ≠ a) by tauto. assert (r ≠ a) by (intros ->; tauto). assert (q ≠ r) by tauto.
    eexists _, _.
    split; [crun; rewrite (proj2 (Z.eqb_neq q 0)) by done; crun; rewrite (proj2 (Z.eqb_neq r 0)) by done; crun; done|].
    split_and!; [eapply delete_chunk_eq; cbn; by simplify_map_eq| |removed_solver].
    + rewrite <- !app_assoc in *. cbn [app] in *. split; [|done|cbn; by rewrite !nxt_app|cbn; by rewrite !lst_app].
      apply seg_app. cbn. split; [seg_same|].
      split_and!; [done|by simplify_map_eq|done|by simplify_map_eq|seg_same].
Qed.

End DealerList.
