(* ===== verification/MemoryDealerSpec.v ===== *)
(** What the shared memory allocator promises: its chunks tile the heap, free
    ones are merged, allocating takes the best fit, and allocations of clients
    never overlap, whatever they do with what they were given. *)
From S2P Require Import Prelude MemoryDealer MemoryDealerList.
Import Dealer DealerList.

Module DealerSpec.

Implicit Types (l : list (Z * ext)) (d : dealer) (x y z : ext) (xs : list ext).

(** ** The invariant *)

(** The chunks cover the units from [p] to [e] one after the other, none is empty. *)
Fixpoint tiles (p : Z) xs (e : Z) : Prop :=
  match xs with
  | [] => p = e
  | x :: xs' => e_start x = p ∧ 0 < e_size x ∧ tiles (p + e_size x) xs' e
  end.

(** No free chunk follows a free chunk; [b] if the one in front is free. *)
Fixpoint merged (b : bool) xs : Prop :=
  match xs with [] => True | x :: xs' => b && e_free x = false ∧ merged (e_free x) xs' end.

(** The chunks in use, as begin and length. *)
Definition used l : list (Z * Z) := (λ p : Z * ext, (e_start p.2, e_size p.2)) <$> filter (λ p : Z * ext, e_free p.2 = false) l.

Record wf d l : Prop := {
  wf_rep : rep d l;
  wf_dom : dom (d_chunks d) = list_to_set l.*1;
  wf_tiles : tiles 0 l.*2 (mHeapSize d / kMemoryAlign);
  wf_merged : merged false l.*2;
  wf_size : 0 < mHeapSize d < 2 ^ 31 ∧ mHeapSize d `mod` kMemoryAlign = 0
}.

Lemma tiles_app p xs1 xs2 e : tiles p (xs1 ++ xs2) e ↔ ∃ q, tiles p xs1 q ∧ tiles q xs2 e.
Proof.
  revert p. induction xs1 as [|x xs1 IH]; intros p; simpl; [by split; [exists p|intros (q & -> & ?)]|].
  rewrite IH. naive_solver.
Qed.

Lemma tiles_from p q xs e : tiles p xs e → p = q → tiles q xs e.
Proof. by intros ? <-. Qed.

Lemma tiles_range p xs e x : tiles p xs e → x ∈ xs → p ≤ e_start x ∧ 0 < e_size x ∧ e_start x + e_size x ≤ e.
Proof.
  intros Ht Hx. apply list_elem_of_split in Hx as (xs1 & xs2 & ->). apply tiles_app in Ht as (q & H1 & H2 & H3 & H4).
  assert (Hle : ∀ ys p' e', tiles p' ys e' → p' ≤ e').
  { clear. induction ys as [|y ys IH]; intros p' e'; simpl; [lia|]. intros (_ & ? & ?%IH). lia. }
  apply Hle in H1, H4. lia.
Qed.

Definition last_free (b : bool) xs : bool := match last xs with Some x => e_free x | None => b end.

Lemma merged_app b xs1 xs2 : merged b (xs1 ++ xs2) ↔ merged b xs1 ∧ merged (last_free b xs1) xs2.
Proof.
  revert b. induction xs1 as [|x xs1 IH]; intros b; simpl; [tauto|]. rewrite IH.
  replace (last_free b (x :: xs1)) with (last_free (e_free x) xs1); [tauto|].
  unfold last_free. rewrite last_cons. by destruct (last xs1).
Qed.

Lemma used_app l1 l2 : used (l1 ++ l2) = used l1 ++ used l2.
Proof. unfold used. by rewrite filter_app, fmap_app. Qed.

Lemma used_cons a x l : used ((a, x) :: l) = (if e_free x then [] else [(e_start x, e_size x)]) ++ used l.
Proof. unfold used. rewrite filter_cons. cbn. by destruct (e_free x). Qed.

Lemma wf_bound d l a x : wf d l → (a, x) ∈ l → 0 ≤ e_start x ∧ 0 < e_size x ∧ (e_start x + e_size x) * 32 ≤ mHeapSize d.
Proof.
  intros [_ _ Ht _ [Hs Hm]] Hin. destruct (tiles_range _ _ _ x Ht) as (H1 & H2 & H3).
  - by apply (list_elem_of_fmap_2 snd) in Hin.
  - unfold kMemoryAlign in *. split_and!; [done..|]. Z.div_mod_to_equations. lia.
Qed.

(** ** Arithmetic *)

(** The units of a request that does not wrap around. *)
Lemma units_eq size : 0 < size ≤ 2 ^ 32 - 32 → units size = (size + 31) / 32 ∧ 0 < units size < 2 ^ 28.
Proof.
  intros Hs. unfold units, kMemoryAlign. rewrite u32_small by lia.
  replace (size + 32 - 1) with (size + 31) by lia. split; [done|]. Z.div_mod_to_equations. lia.
Qed.

Lemma u28_small n : 0 ≤ n < 2 ^ 28 → u28 n = n.
Proof. apply Z.mod_small. Qed.

Section spec.
Context (operator_new : gmap Z chunk_t → Z) (pagesize : Z) (log_ndebug : bool).
Context (new_ok : ∀ h, operator_new h ≠ 0 ∧ h !! operator_new h = None).
Context (page_bits : Z) (pagesize_eq : pagesize = 2 ^ page_bits) (page_bits_range : 5 ≤ page_bits ≤ 30).

Notation alloc := (alloc operator_new pagesize).
Notation dealloc := (dealloc log_ndebug).
Notation page_extra := (page_extra pagesize).

(** Pages, in units. *)
Lemma page_units : pagesize / kMemoryAlign = 2 ^ (page_bits - 5).
Proof. subst pagesize. change kMemoryAlign with (2 ^ 5). by rewrite <- Z.pow_sub_r by lia. Qed.

Lemma page_units_pos : 0 < 2 ^ (page_bits - 5) ≤ 2 ^ 25.
Proof. split; [apply Z.pow_pos_nonneg; lia|apply Z.pow_le_mono_r; lia]. Qed.

Lemma page_extra_eq flags st :
  page_extra flags st = if has_flag flags PAGE_ALIGNED then (- st) `mod` 2 ^ (page_bits - 5) else 0.
Proof.
  unfold Dealer.page_extra. destruct (has_flag _ _); [|done]. rewrite page_units.
  replace (2 ^ (page_bits - 5) - 1) with (Z.ones (page_bits - 5)) by (rewrite Z.ones_equiv; lia).
  rewrite Z.land_ones by lia. unfold u32. symmetry. apply Znumtheory.Zmod_div_mod; [apply page_units_pos|lia|].
  exists (2 ^ (32 - (page_bits - 5))). rewrite <- Z.pow_add_r by lia. f_equal. lia.
Qed.

Lemma page_extra_range flags st : 0 ≤ page_extra flags st < 2 ^ 25.
Proof.
  rewrite page_extra_eq. pose proof page_units_pos. destruct (has_flag _ _); [|lia].
  pose proof (Z.mod_pos_bound (- st) (2 ^ (page_bits - 5))). lia.
Qed.

Lemma page_extra_aligned flags st :
  has_flag flags PAGE_ALIGNED = true → ((st + page_extra flags st) * kMemoryAlign) `mod` pagesize = 0.
Proof.
  intros Hf. rewrite page_extra_eq, Hf. pose proof page_units_pos.
  replace pagesize with (2 ^ (page_bits - 5) * kMemoryAlign)
    by (subst; change kMemoryAlign with (2 ^ 5); rewrite <- Z.pow_add_r by lia; f_equal; lia).
  rewrite Z.mul_mod_distr_r by (unfold kMemoryAlign; lia).
  rewrite Zplus_mod_idemp_r, Z.add_opp_diag_r, Zmod_0_l. done.
Qed.

(** ** The search *)

(** Whether a chunk is free and has room for [n] units from where they may begin. *)
Definition fits (n flags : Z) x : bool := e_free x && (e_size x >=? n + page_extra flags (e_start x)).

(** [fc] is the first of the smallest chunks that fit; 0 when none does. *)
Definition chosen (n flags : Z) l (fc : Z) : Prop :=
  (fc = 0 ∧ ∀ a x, (a, x) ∈ l → fits n flags x = false) ∨
  ∃ l1 x l2, l = l1 ++ (fc, x) :: l2 ∧ fits n flags x = true ∧
    (∀ a y, (a, y) ∈ l1 → fits n flags y = true → e_size x < e_size y) ∧
    (∀ a y, (a, y) ∈ l2 → fits n flags y = true → e_size x ≤ e_size y).

Lemma chosen_skip n flags l fc a x : chosen n flags l fc → fits n flags x = false → chosen n flags (l ++ [(a, x)]) fc.
Proof.
  intros [[-> Hn]|(l1 & y & l2 & -> & Hy & H1 & H2)] Hx; [left; split; [done|]|right].
  - intros b z [Hb|[= -> ->]%list_elem_of_singleton]%elem_of_app; [by apply (Hn b)|done].
  - exists l1, y, (l2 ++ [(a, x)]). rewrite <- app_assoc. split_and!; [done..|].
    intros b z [Hb|[= -> ->]%list_elem_of_singleton]%elem_of_app Hz; [by apply (H2 b)|congruence].
Qed.

Lemma alloc_loop_ok fuel n flags d l1 l2 fc :
  0 < n < 2 ^ 28 → rep d (l1 ++ l2) → (length l2 ≤ fuel)%nat → chosen n flags l1 fc →
  ∃ fc', alloc_loop pagesize fuel n flags fc (nxt l2 0) d = Ok (fc', d) ∧ chosen n flags (l1 ++ l2) fc'.
Proof.
  intros Hn. revert l1 fc fuel. induction l2 as [|[a x] l2 IH]; intros l1 fc fuel Hr Hf Hc.
  { exists fc. rewrite app_nil_r. by destruct fuel. }
  destruct fuel as [|fuel]; [simpl in Hf; lia|]. cbn [alloc_loop nxt].
  destruct (rep_at _ _ _ _ _ Hr) as [Ha E]. rewrite (proj2 (Z.eqb_neq a 0)) by done.
  rewrite (st_bind_eq _ _ _ _ _ (chunk_eq _ _ _ E)). cbn [chunk_of c_free c_size start next].
  pose proof (page_extra_range flags (e_start x)). rewrite u32_small by lia. fold (fits n flags x).
  assert (Hr' := Hr). rewrite cons_middle, app_assoc in Hr'.
  assert (Hf' : (length l2 ≤ fuel)%nat) by (simpl in Hf; lia).
  destruct (fits n flags x) eqn:Hx.
  2: { destruct (IH (l1 ++ [(a, x)]) fc fuel Hr' Hf') as (fc' & E' & Hc'); [by apply chosen_skip|].
       exists fc'. rewrite cons_middle, app_assoc. done. }
  assert (∃ b, ((if fc =? 0 then mret a
      else f ← chunk fc; mret (if e_size x <? c_size f then a else fc)) : MD Z) d = Ok (b, d) ∧
    chosen n flags (l1 ++ [(a, x)]) b ∧ (e_size x = n → chosen n flags (l1 ++ (a, x) :: l2) b)) as (b & Eb & Hb & Hbn).
  2: { rewrite (st_bind_eq _ _ _ _ _ Eb). destruct (Z.eqb_spec (e_size x) n) as [Hxn|Hxn]; [exists b; by auto|].
       destruct (IH _ b fuel Hr' Hf' Hb) as (fc' & E' & Hc'). exists fc'. rewrite cons_middle, app_assoc. done. }
  assert (Hmin : e_size x = n → ∀ y, fits n flags y = true → e_size x ≤ e_size y).
  { intros -> y [_ Hy]%andb_true_iff. pose proof (page_extra_range flags (e_start y)). lia. }
  destruct Hc as [[-> Hno]|(k1 & y & k2 & -> & Hy & H1 & H2)].
  - exists a. split; [done|]. split; [|intros Hxn]; right; exists l1, x; [exists []|exists l2]; (split_and!; [done..| |]).
    + intros b y Hb Hy. rewrite (Hno b y Hb) in Hy. done.
    + intros b y Hb. by apply elem_of_nil in Hb.
    + intros b y Hb Hy. rewrite (Hno b y Hb) in Hy. done.
    + eauto.
  - rewrite <- app_assoc in Hr. destruct (rep_at _ _ _ _ _ Hr) as [Hfc Ey]. rewrite (proj2 (Z.eqb_neq fc 0)) by done.
    rewrite (st_bind_eq _ _ _ _ _ (chunk_eq _ _ _ Ey)). cbn [chunk_of c_size].
    eexists. split; [done|]. destruct (Z.ltb_spec (e_size x) (e_size y)) as [Hlt|Hge].
    + assert (∀ b z, (b, z) ∈ k1 ++ (fc, y) :: k2 → fits n flags z = true → e_size x < e_size z).
      { intros b z Hb Hz. rewrite elem_of_app, elem_of_cons in Hb. destruct Hb as [Hb|[[= -> ->]|Hb]].
        - specialize (H1 b z Hb Hz). lia.
        - done.
        - specialize (H2 b z Hb Hz). lia. }
      split; [|intros Hxn]; right; exists (k1 ++ (fc, y) :: k2), x; [exists []|exists l2]; (split_and!; [done..|]); [|by eauto].
      intros b z Hb. by apply elem_of_nil in Hb.
    + assert (Hy2 : ∀ b z, (b, z) ∈ k2 ++ [(a, x)] → fits n flags z = true → e_size y ≤ e_size z).
      { intros b z [Hb|[= -> ->]%list_elem_of_singleton]%elem_of_app Hz; [by eapply H2|lia]. }
      split; [|intros Hxn]; right; exists k1, y; [exists (k2 ++ [(a, x)])|exists (k2 ++ (a, x) :: l2)];
        rewrite <- app_assoc; (split_and!; [done..|]); [done|].
      intros b z [Hb|Hb]%elem_of_app Hz; [by eapply H2|]. specialize (Hmin Hxn). specialize (Hmin z Hz). lia.
Qed.

(** ** Chunks that are made and taken away *)

(** The list is [l] and there are no other chunks. *)
Definition exact d l : Prop := rep d l ∧ dom (d_chunks d) = list_to_set l.*1.

(** Nothing but chunks changed. *)
Record env d d' : Prop := {
  ev_size : mHeapSize d' = mHeapSize d;
  ev_mapped : d_mapped d' = d_mapped d;
  ev_touched : d_touched d' = d_touched d
}.

#[local] Instance env_preorder : PreOrder env.
Proof. split; [by split|]. intros d1 d2 d3 [] []. split; congruence. Qed.

Lemma same_env d d' : same d d' → env d d'.
Proof. intros []. by split. Qed.

Lemma exact_set d l1 a x l2 f y :
  exact d (l1 ++ (a, x) :: l2) → (∀ p n, f (chunk_of x p n) = chunk_of y p n) →
  ∃ d', set_chunk a f d = Ok (tt, d') ∧ exact d' (l1 ++ (a, y) :: l2) ∧ env d d'.
Proof.
  intros [Hr Hd] Hf. destruct (set_payload _ _ _ _ _ _ _ Hr Hf) as (d' & E & Hr' & Hs & _).
  exists d'. split; [done|]. split; [split; [done|]|by apply same_env].
  rewrite (sm_dom _ _ Hs), Hd. by rewrite !fmap_app.
Qed.

Lemma new_chunk_ok d l st sz :
  exact d l → 0 ≤ sz < 2 ^ 28 →
  ∃ b d', new_chunk operator_new st sz d = Ok (b, d') ∧ b ≠ 0 ∧ b ∉ l.*1 ∧ rep d' l ∧ env d d' ∧
    d_chunks d' = <[b := mk_chunk st sz true 0 0]> (d_chunks d).
Proof.
  intros [Hr Hd] Hz. destruct (new_ok (d_chunks d)) as [Hb0 Hb]. assert (Hbl := rep_fresh _ _ _ Hr Hb).
  eexists _, _. split; [done|]. cbn. rewrite u28_small by done. split_and!; [done|done| |by split|done].
  destruct Hr as [Hs Hn Hf Hl]. split; [|done..]. by apply seg_insert.
Qed.

Lemma exact_insert d d1 d' l l' b c :
  exact d l → d_chunks d1 = <[b := c]> (d_chunks d) → same d1 d' → rep d' l' → l'.*1 ≡ₚ b :: l.*1 → exact d' l'.
Proof.
  intros [_ Hd] E1 Hs Hr HP. split; [done|]. rewrite (sm_dom _ _ Hs), E1, dom_insert_L, Hd.
  by rewrite HP.
Qed.

Lemma split_front d l1 a x l2 st sz f y :
  exact d (l1 ++ (a, x) :: l2) → 0 ≤ sz < 2 ^ 28 → (∀ p n, f (chunk_of x p n) = chunk_of y p n) →
  ∃ b d', (split ← new_chunk operator_new st sz; set_chunk a f ;; insertBefore a split) d = Ok (tt, d') ∧
    exact d' (l1 ++ (b, mk_ext st sz true) :: (a, y) :: l2) ∧ env d d'.
Proof.
  intros He Hz Hf. destruct (new_chunk_ok d _ st sz He Hz) as (b & d1 & E1 & Hb0 & Hb & Hr1 & Hv1 & D1).
  assert (a ≠ b) by (intros ->; apply Hb; rewrite fmap_app; apply elem_of_app; right; by left).
  destruct (set_payload _ _ _ _ _ _ _ Hr1 Hf) as (d2 & E2 & Hr2 & Hs2 & Ho2).
  destruct (insertBefore_ok d2 l1 a y l2 b (mk_chunk st sz true 0 0)) as (d3 & E3 & Hr3 & Hs3); [done|done| | |].
  { rewrite Ho2, D1 by done. apply lookup_insert_eq. }
  { by rewrite fmap_app in *. }
  exists b, d3. split; [|split].
  - rewrite (st_bind_eq _ _ _ _ _ E1). by rewrite (st_bind_eq _ _ _ _ _ E2).
  - eapply exact_insert; [exact He|exact D1|by etrans|done|]. rewrite !fmap_app. cbn. by rewrite <- Permutation_middle.
  - etrans; [done|]. etrans; by apply same_env.
Qed.

Lemma split_back d l1 a x l2 st sz :
  exact d (l1 ++ (a, x) :: l2) → 0 ≤ sz < 2 ^ 28 →
  ∃ b d', (split ← new_chunk operator_new st sz; insertAfter a split) d = Ok (tt, d') ∧
    exact d' (l1 ++ (a, x) :: (b, mk_ext st sz true) :: l2) ∧ env d d'.
Proof.
  intros He Hz. destruct (new_chunk_ok d _ st sz He Hz) as (b & d1 & E1 & Hb0 & Hb & Hr1 & Hv1 & D1).
  destruct (insertAfter_ok d1 l1 a x l2 b (mk_chunk st sz true 0 0)) as (d3 & E3 & Hr3 & Hs3); [done|done| |done|].
  { rewrite D1. apply lookup_insert_eq. }
  exists b, d3. split; [|split].
  - by rewrite (st_bind_eq _ _ _ _ _ E1).
  - eapply exact_insert; [exact He|exact D1|done|done|]. rewrite !fmap_app. cbn.
    rewrite <- Permutation_middle. rewrite <- (Permutation_middle l1.*1 l2.*1 a). rewrite perm_swap. f_equiv.
    by rewrite <- (Permutation_middle l1.*1).
  - etrans; [done|]. by apply same_env.
Qed.

Lemma exact_unlink d l1 a x l2 :
  exact d (l1 ++ (a, x) :: l2) →
  ∃ d1 d', unlink a d = Ok (tt, d1) ∧ delete_chunk a d1 = Ok (tt, d') ∧ exact d' (l1 ++ l2) ∧ env d d'.
Proof.
  intros [Hr Hd]. destruct (unlink_chunk_ok _ _ _ _ _ Hr) as (d1 & d' & E1 & E2 & Hr' & [Hdom ? ? ?]).
  exists d1, d'. split_and!; [done|done| |by split]. split; [done|]. rewrite Hdom, Hd.
  pose proof (rp_nodup _ _ Hr) as Hn. rewrite !fmap_app in *. cbn in *. apply nodup_mid in Hn as (N1 & N2 & _).
  apply set_eq. intros b. rewrite elem_of_difference, !elem_of_list_to_set, elem_of_singleton, !elem_of_app, elem_of_cons.
  split; [tauto|]. intros Hb. split; [tauto|]. intros ->. tauto.
Qed.

(** ** Allocating *)

(** What is left of a free chunk around the [n] units that were taken. *)
Definition rest_front (b st extra : Z) l : Prop := (extra = 0 ∧ l = []) ∨ (0 < extra ∧ l = [(b, mk_ext st extra true)]).

Lemma split_chunk_ok d l1 a st n l2 fs flags :
  exact d (l1 ++ (a, mk_ext st n false) :: l2) → 0 < n → 0 ≤ st → n + page_extra flags st ≤ fs → st + fs < 2 ^ 28 →
  ∃ d' b1 b2 k1 k2, split_chunk operator_new pagesize a fs n flags d = Ok (tt, d') ∧
    let e := page_extra flags st in
    exact d' (l1 ++ k1 ++ (a, mk_ext (st + e) n false) :: k2 ++ l2) ∧ env d d' ∧
    rest_front b1 st e k1 ∧ rest_front b2 (st + e + n) (fs - (n + e)) k2.
Proof.
  intros He Hn Hst Hfs Hlt. cbn zeta. pose proof (page_extra_range flags st) as Hx.
  unfold split_chunk. destruct (rep_at _ _ _ _ _ (proj1 He)) as [_ E].
  rewrite (st_bind_eq _ _ _ _ _ (chunk_eq _ _ _ E)). cbn [start chunk_of e_start].
  set (e := page_extra flags st) in *.
  assert (∃ b1 k1 d1, when (negb (e =? 0)) (split ← new_chunk operator_new st e;
      set_chunk a (λ c, c <| start %= λ s, u32 (s + e) |>) ;; insertBefore a split) d = Ok (tt, d1) ∧
    exact d1 (l1 ++ k1 ++ (a, mk_ext (st + e) n false) :: l2) ∧ env d d1 ∧ rest_front b1 st e k1)
    as (b1 & k1 & d1 & E1 & He1 & Hv1 & R1).
  { destruct (Z.eqb_spec e 0) as [H0|H0]; cbn [negb when].
    - exists 0, [], d. rewrite H0, Z.add_0_r. split_and!; [done|done|done|by left].
    - destruct (split_front d l1 a (mk_ext st n false) l2 st e (λ c, c <| start %= λ s, u32 (s + e) |>) (mk_ext (st + e) n false))
        as (b & d' & E' & He' & Hv'); [done|lia| |].
      + intros p q. change (mk_chunk (u32 (st + e)) n false p q = mk_chunk (st + e) n false p q). by rewrite u32_small by lia.
      + exists b, [(b, mk_ext st e true)], d'. split_and!; [done|done|done|right; split; [lia|done]]. }
  rewrite (st_bind_eq _ _ _ _ _ E1). unfold s32. rewrite Z.mod_small, Z.add_simpl_r by lia.
  destruct (Z.gtb_spec (fs - (n + e)) 0) as [Hpos|Hzero]; cbn [when].
  - rewrite app_assoc in He1. destruct (rep_at _ _ _ _ _ (proj1 He1)) as [_ Ea].
    rewrite (st_bind_eq _ _ _ _ _ (chunk_eq _ _ _ Ea)). cbn [start c_size chunk_of e_start e_size].
    rewrite u32_small by lia.
    destruct (split_back d1 (l1 ++ k1) a _ l2 (st + e + n) (fs - (n + e)) He1) as (b & d' & E' & He' & Hv'); [lia|].
    exists d', b1, b, k1, [(b, mk_ext (st + e + n) (fs - (n + e)) true)]. split_and!; [done| | |done|].
    + by rewrite <- app_assoc in He'.
    + by etrans.
    + right. split; [lia|done].
  - exists d1, b1, 0, k1, []. split_and!; [done|done|done|done|left; split; [lia|done]].
Qed.

(** The chunks that [alloc] leaves where it took [n] units of [x]. *)
Lemma alloc_tiles l1 a x b1 b2 k1 k2 l2 n flags e :
  fits n flags x = true → 0 < n →
  rest_front b1 (e_start x) (page_extra flags (e_start x)) k1 →
  rest_front b2 (e_start x + page_extra flags (e_start x) + n) (e_size x - (n + page_extra flags (e_start x))) k2 →
  let y := mk_ext (e_start x + page_extra flags (e_start x)) n false in
  tiles 0 (l1 ++ (a, x) :: l2).*2 e → merged false (l1 ++ (a, x) :: l2).*2 →
  tiles 0 (l1 ++ k1 ++ (a, y) :: k2 ++ l2).*2 e ∧ merged false (l1 ++ k1 ++ (a, y) :: k2 ++ l2).*2.
Proof.
  intros Hf Hn R1 R2 y. apply andb_true_iff in Hf as [Hx Hfit].
  rewrite !fmap_app, !fmap_cons, !fmap_app. cbn [snd].
  rewrite !tiles_app, !merged_app. intros (q & T1 & T2 & T3 & T4) (M1 & M2 & M3). pose proof (page_extra_range flags (e_start x)) as Hp.
  rewrite Hx, andb_true_r in M2. rewrite Hx in M3.
  set (ex := page_extra flags (e_start x)) in *. split; [exists q; split; [done|]|split; [done|]].
  - rewrite T2 in *. destruct R1 as [[R1 ->]|[R1 ->]]; destruct R2 as [[R2 ->]|[R2 ->]];
      cbn; rewrite ?T2; split_and!; try lia; (eapply tiles_from; [exact T4|lia]).
  - destruct R1 as [[R1 ->]|[R1 ->]]; destruct R2 as [[R2 ->]|[R2 ->]]; cbn; rewrite ?M2; split_and!; try done.
    all: destruct l2.*2 as [|z zs]; [done|]; cbn in *; tauto.
Qed.

(** [alloc] in a well-formed heap: the best fit, cut to size, or nothing fits. *)
Definition alloc_spec (n flags : Z) d l (r : res (Z * dealer)) : Prop :=
  (r = Ok (NO_MEMORY, d) ∧ ∀ a x, (a, x) ∈ l → fits n flags x = false) ∨
  ∃ l1 a x l2 d' l', l = l1 ++ (a, x) :: l2 ∧ fits n flags x = true ∧
    (∀ b y, (b, y) ∈ l1 → fits n flags y = true → e_size x < e_size y) ∧
    (∀ b y, (b, y) ∈ l2 → fits n flags y = true → e_size x ≤ e_size y) ∧
    let st := e_start x + page_extra flags (e_start x) in
    r = Ok (st * kMemoryAlign, d') ∧ wf d' l' ∧ env d d' ∧ used l' = used l1 ++ (st, n) :: used l2.

Lemma alloc_ok size flags d l : wf d l → 0 < size ≤ 2 ^ 32 - 32 → alloc_spec (units size) flags d l (alloc size flags d).
Proof.
  intros Hwf Hs. destruct (units_eq size Hs) as [_ Hn]. set (n := units size) in *.
  destruct (alloc_loop_ok (stdpp.base.size (d_chunks d)) n flags d [] l 0 Hn (wf_rep _ _ Hwf)) as (fc & E & Hc).
  { by apply rep_size, wf_rep. }
  { left. split; [done|]. intros a x Hin. by apply elem_of_nil in Hin. }
  unfold Dealer.alloc. rewrite (proj2 (Z.eqb_neq size 0)) by lia. fold n.
  unfold gets at 1. unfold mbind at 1. unfold st_bind at 1. cbn [id].
  rewrite (rp_first _ _ (wf_rep _ _ Hwf)), (st_bind_eq _ _ _ _ _ E).
  cbn [app] in Hc. destruct Hc as [[-> Hno]|(l1 & x & l2 & -> & Hx & H1 & H2)]; [by left|]. right.
  destruct (rep_at _ _ _ _ _ (wf_rep _ _ Hwf)) as [Hfc Efc]. rewrite (proj2 (Z.eqb_neq fc 0)) by done.
  rewrite (st_bind_eq _ _ _ _ _ (chunk_eq _ _ _ Efc)). cbn [c_size chunk_of].
  destruct (wf_bound d _ fc x Hwf) as (B1 & B2 & B3); [apply elem_of_app; right; by left|].
  destruct (wf_size _ _ Hwf) as [Hsz Hal]. pose proof (page_extra_range flags (e_start x)) as Hp.
  assert (Hfit := Hx). apply andb_true_iff in Hfit as [Hfree Hfit%Z.geb_le].
  destruct (exact_set d l1 fc x l2 (λ c, c <| c_free := false |> <| c_size := u28 n |>) (mk_ext (e_start x) n false))
    as (d1 & E1 & He1 & Hv1); [by split; apply Hwf| |].
  { intros p q. change (mk_chunk (e_start x) (u28 n) false p q = mk_chunk (e_start x) n false p q). by rewrite u28_small by lia. }
  rewrite (st_bind_eq _ _ _ _ _ E1).
  assert (∃ d' b1 b2 k1 k2, when (e_size x >? n) (split_chunk operator_new pagesize fc (e_size x) n flags) d1 = Ok (tt, d') ∧
    exact d' (l1 ++ k1 ++ (fc, mk_ext (e_start x + page_extra flags (e_start x)) n false) :: k2 ++ l2) ∧ env d1 d' ∧
    rest_front b1 (e_start x) (page_extra flags (e_start x)) k1 ∧
    rest_front b2 (e_start x + page_extra flags (e_start x) + n) (e_size x - (n + page_extra flags (e_start x))) k2)
    as (d' & b1 & b2 & k1 & k2 & E2 & He2 & Hv2 & R1 & R2).
  { destruct (Z.gtb_spec (e_size x) n) as [Hgt|Hle]; cbn [when].
    - apply split_chunk_ok; [done|lia..].
    - exists d1, 0, 0, [], []. assert (page_extra flags (e_start x) = 0) as -> by lia. rewrite Z.add_0_r.
      split_and!; [done|done|done|by left|left; split; [lia|done]]. }
  rewrite (st_bind_eq _ _ _ _ _ E2). assert (He3 := He2). rewrite app_assoc in He3.
  destruct (rep_at _ _ _ _ _ (proj1 He3)) as [_ Ef]. rewrite (st_bind_eq _ _ _ _ _ (chunk_eq _ _ _ Ef)). cbn [start chunk_of e_start].
  assert (Hv : env d d') by (by etrans).
  destruct (alloc_tiles l1 fc x b1 b2 k1 k2 l2 n flags (mHeapSize d / kMemoryAlign) Hx) as [T M]; [lia|done|done|apply Hwf|apply Hwf|].
  eexists l1, fc, x, l2, d', _. split_and!; [done..| | |done|].
  - unfold mret, st_ret, s32, kMemoryAlign in *. rewrite Z.mod_small; [do 3 f_equal; lia|]. lia.
  - split; [apply He2|apply He2|by rewrite (ev_size _ _ Hv)|done|by rewrite (ev_size _ _ Hv)].
  - rewrite !used_app, used_cons. cbn. rewrite used_app.
    destruct R1 as [[_ ->]|[_ ->]]; destruct R2 as [[_ ->]|[_ ->]]; done.
Qed.

(** ** Freeing *)

Lemma merged_tiles_join xs y x zs p e b :
  tiles p (xs ++ y :: x :: zs) e → merged b (xs ++ y :: zs) → e_free y = true →
  let w := mk_ext (e_start y) (e_size y + e_size x) true in
  tiles p (xs ++ w :: zs) e ∧ merged b (xs ++ w :: zs).
Proof.
  intros (q & T1 & T2 & T3 & T4 & T5 & T6)%tiles_app (M1 & M2 & M3)%merged_app Hy. cbn zeta.
  rewrite tiles_app, merged_app. cbn. rewrite Hy in *.
  split; [exists q; split_and!; [done|done|lia|]|by split_and!].
  by rewrite Z.add_assoc.
Qed.

(** What the merging loop does after a round. *)
Definition merge_next (fuel : nat) (n freed : Z) : MD Z :=
  if n =? 0 then mret freed else c ← chunk n; if c_free c then merge_loop fuel n freed else mret freed.

Lemma merge_step fuel d l1 p y a x l2 freed :
  exact d (l1 ++ (p, y) :: (a, x) :: l2) → e_free y = true → 0 ≤ e_size y + e_size x < 2 ^ 28 →
  ∃ d', merge_loop (S fuel) a freed d = merge_next fuel (nxt l2 0) p d' ∧
    exact d' (l1 ++ (p, mk_ext (e_start y) (e_size y + e_size x) true) :: l2) ∧ env d d'.
Proof.
  intros He Hy Hlt. assert (He' := He). rewrite cons_middle, app_assoc in He'.
  destruct (rep_at _ _ _ _ _ (proj1 He')) as [_ Ea]. destruct (rep_at _ _ _ _ _ (proj1 He)) as [Hp Ep].
  rewrite lst_app in Ea. cbn in Ea. cbn [merge_loop]. rewrite (st_bind_eq _ _ _ _ _ (chunk_eq _ _ _ Ea)).
  cbn [prev next c_size chunk_of]. rewrite (proj2 (Z.eqb_neq p 0)) by done.
  erewrite st_bind_eq by (rewrite (st_bind_eq _ _ _ _ _ (chunk_eq _ _ _ Ep)); done).
  cbn [c_free chunk_of]. rewrite Hy. cbn [orb].
  destruct (exact_set d l1 p y ((a, x) :: l2) (λ c, c <| c_size %= λ n, u28 (n + e_size x) |>)
    (mk_ext (e_start y) (e_size y + e_size x) true)) as (d1 & E1 & He1 & Hv1); [done| |].
  { intros q r. change (mk_chunk (e_start y) (u28 (e_size y + e_size x)) (e_free y) q r = mk_chunk (e_start y) (e_size y + e_size x) true q r).
    by rewrite u28_small, Hy by lia. }
  rewrite cons_middle, app_assoc in He1. destruct (exact_unlink _ _ _ _ _ He1) as (d2 & d3 & E2 & E3 & He3 & Hv3).
  exists d3. split; [|split; [by rewrite <- app_assoc in He3|by etrans]].
  erewrite st_bind_eq; [done|]. rewrite (st_bind_eq _ _ _ _ _ E1), (st_bind_eq _ _ _ _ _ E2), (st_bind_eq _ _ _ _ _ E3). done.
Qed.

Lemma merge_skip fuel d l1 a x l2 freed :
  exact d (l1 ++ (a, x) :: l2) → last_free false l1.*2 = false → e_size x ≠ 0 →
  merge_loop (S fuel) a freed d = merge_next fuel (nxt l2 0) freed d.
Proof.
  intros He Hl Hz. destruct (rep_at _ _ _ _ _ (proj1 He)) as [_ Ea]. cbn [merge_loop].
  rewrite (st_bind_eq _ _ _ _ _ (chunk_eq _ _ _ Ea)). cbn [prev next c_size chunk_of].
  destruct (list_end l1) as [->|(l' & p & y & ->)]; [done|]. rewrite <- app_assoc in He. cbn [app] in He.
  destruct (rep_at _ _ _ _ _ (proj1 He)) as [Hp Ep]. rewrite lst_app. cbn [lst].
  rewrite (proj2 (Z.eqb_neq p 0)) by done. unfold last_free in Hl. rewrite fmap_app, fmap_cons, fmap_nil, last_snoc in Hl. cbn in Hl.
  erewrite st_bind_eq by (rewrite (st_bind_eq _ _ _ _ _ (chunk_eq _ _ _ Ep)); done).
  cbn [c_free chunk_of]. rewrite Hl, (proj2 (Z.eqb_neq (e_size x) 0)) by done. done.
Qed.

Lemma merge_stop fuel d l1 f x l2 : exact d (l1 ++ (f, x) :: l2) → merged true l2.*2 → merge_next fuel (nxt l2 0) f d = Ok (f, d).
Proof.
  intros He Hm. destruct l2 as [|[n z] l2]; [done|]. cbn in Hm. rewrite cons_middle, app_assoc in He.
  destruct (rep_at _ _ _ _ _ (proj1 He)) as [Hn En]. unfold merge_next. cbn [nxt].
  rewrite (proj2 (Z.eqb_neq n 0)) by done. rewrite (st_bind_eq _ _ _ _ _ (chunk_eq _ _ _ En)). cbn [c_free chunk_of].
  by rewrite (proj1 Hm).
Qed.

(** What merging comes to: the list is well formed again and the same chunks are in use. *)
Definition merge_ok d l1 l2 e (r : res (Z * dealer)) : Prop :=
  ∃ f x d' l', r = Ok (f, d') ∧ exact d' l' ∧ env d d' ∧ tiles 0 l'.*2 e ∧ merged false l'.*2 ∧
    used l' = used l1 ++ used l2 ∧ (f, x) ∈ l' ∧ e_free x = true.

(** The second round, when the chunk in front is settled. *)
Lemma merge_right fuel d l1 f x l2 e :
  exact d (l1 ++ (f, x) :: l2) → e_free x = true → last_free false l1.*2 = false →
  tiles 0 (l1 ++ (f, x) :: l2).*2 e → e < 2 ^ 28 → merged false l1.*2 → merged false l2.*2 → (0 < fuel ∨ l2 = [])%nat →
  merge_ok d l1 l2 e (merge_next fuel (nxt l2 0) f d).
Proof.
  intros He Hx Hl Ht Hlt M1 M2 Hfuel.
  assert (Hbase : merged true l2.*2 → merge_ok d l1 l2 e (merge_next fuel (nxt l2 0) f d)).
  { intros M. rewrite (merge_stop fuel d l1 f x l2 He M). eexists f, x, d, _. split_and!; [done|done|done|done| | | |done].
    - rewrite fmap_app, fmap_cons. apply merged_app. cbn. rewrite Hl, Hx. by split_and!.
    - by rewrite used_app, used_cons, Hx.
    - apply elem_of_app. right. by left. }
  destruct l2 as [|[n z] l2]; [by apply Hbase|]. destruct (e_free z) eqn:Hz.
  2: { apply Hbase. cbn in *. tauto. }
  destruct fuel as [|fuel]; [destruct Hfuel; [lia|done]|].
  assert (He' := He). rewrite cons_middle, app_assoc in He'. destruct (rep_at _ _ _ _ _ (proj1 He')) as [Hn En].
  unfold merge_next. cbn [nxt]. rewrite (proj2 (Z.eqb_neq n 0)), (st_bind_eq _ _ _ _ _ (chunk_eq _ _ _ En)) by done.
  cbn [c_free chunk_of]. rewrite Hz. rewrite fmap_app, !fmap_cons in Ht. cbn [snd] in Ht.
  assert (B : 0 ≤ e_size x + e_size z < 2 ^ 28).
  { pose proof (tiles_range _ _ _ x Ht ltac:(set_solver)). pose proof (tiles_range _ _ _ z Ht ltac:(set_solver)).
    apply tiles_app in Ht as (q & _ & T1 & T2 & T3 & T4 & _). lia. }
  destruct (merge_step fuel d l1 f x n z l2 f He Hx B) as (d' & E & Hd' & Hv). rewrite E.
  cbn in M2. rewrite Hz in M2. rewrite (merge_stop _ _ _ _ _ _ Hd' (proj2 M2)).
  destruct (merged_tiles_join l1.*2 x z l2.*2 0 e false Ht) as [T M]; [|done|].
  { apply merged_app. cbn. rewrite Hl, Hx. split_and!; [done|done|apply M2]. }
  eexists f, _, d', _. split_and!; [done|exact Hd'|done|by rewrite fmap_app, fmap_cons|by rewrite fmap_app, fmap_cons| | |].
  - rewrite !used_app, !used_cons, Hz. done.
  - apply elem_of_app. right. by left.
  - done.
Qed.

Lemma merge_loop_ok fuel d l1 a x l2 e :
  exact d (l1 ++ (a, x) :: l2) → e_free x = true → tiles 0 (l1 ++ (a, x) :: l2).*2 e → e < 2 ^ 28 →
  merged false l1.*2 → merged false l2.*2 → (length l2 < fuel)%nat →
  merge_ok d l1 l2 e (merge_loop fuel a a d).
Proof.
  intros He Hx Ht Hlt M1 M2 Hfuel. destruct fuel as [|fuel]; [lia|].
  assert (Hfuel' : (0 < fuel ∨ l2 = [])%nat) by (destruct l2; simpl in *; [by right|left; lia]).
  assert (Hz : 0 < e_size x).
  { apply (tiles_range 0 (l1 ++ (a, x) :: l2).*2 e x Ht). apply list_elem_of_fmap. exists (a, x). split; [done|].
    apply elem_of_app. right. by left. }
  destruct (last_free false l1.*2) eqn:Hl.
  2: { rewrite (merge_skip _ _ _ _ _ _ _ He Hl) by lia. by apply (merge_right fuel d l1 a x l2 e). }
  destruct (list_end l1) as [->|(l' & p & y & ->)]; [done|].
  rewrite <- app_assoc in *. cbn [app] in *. unfold last_free in Hl. rewrite fmap_app, fmap_cons, fmap_nil, last_snoc in Hl.
  cbn [snd] in Hl. rewrite fmap_app, !fmap_cons in Ht. cbn [snd] in Ht. rewrite fmap_app in M1.
  assert (B : 0 ≤ e_size y + e_size x < 2 ^ 28).
  { pose proof (tiles_range _ _ _ x Ht ltac:(set_solver)). pose proof (tiles_range _ _ _ y Ht ltac:(set_solver)).
    apply tiles_app in Ht as (q & _ & T1 & T2 & T3 & T4 & _). lia. }
  destruct (merge_step fuel d l' p y a x l2 a He Hl B) as (d1 & E & He1 & Hv1). rewrite E.
  apply merged_app in M1 as (M1 & M3 & _). cbn in M3. rewrite Hl, andb_true_r in M3.
  assert (merge_ok d1 l' l2 e (merge_next fuel (nxt l2 0) p d1)) as (f & z & d' & k & E' & He' & Hv' & T & M & U & Hin & Hf).
  { eapply merge_right; [exact He1|done|done| |done|done|done|done].
    rewrite fmap_app, fmap_cons. cbn [snd]. apply tiles_app in Ht as (q & T1 & T2 & T3 & T4 & T5 & T6).
    apply tiles_app. exists q. split; [done|]. cbn. split_and!; [done|lia|]. by rewrite Z.add_assoc. }
  exists f, z, d', k. split_and!; [done|done|by etrans|done|done| |done|done].
  rewrite U, !used_app, !used_cons, Hl, app_nil_r. done.
Qed.

(** Where a chunk begins is at most one chunk. *)
Lemma tiles_start xs1 x xs2 p e y : tiles p (xs1 ++ x :: xs2) e → y ∈ xs1 → e_start y ≠ e_start x.
Proof.
  intros (q & T1 & T2 & _)%tiles_app Hy E. pose proof (tiles_range _ _ _ y T1 Hy). lia.
Qed.

Lemma dealloc_loop_ok fuel d l1 a x l2 k1 :
  wf d (l1 ++ (a, x) :: l2) → e_free x = false → ∀ k2, l1 = k1 ++ k2 → (length (k2 ++ (a, x) :: l2) ≤ fuel)%nat →
  ∃ f d' l', dealloc_loop log_ndebug fuel (e_start x) (nxt (k2 ++ (a, x) :: l2) 0) d = Ok (f, d') ∧ f ≠ 0 ∧
    wf d' l' ∧ env d d' ∧ used l' = used l1 ++ used l2.
Proof.
  intros Hwf Hx k2. revert fuel k1. induction k2 as [|[b y] k2 IH]; intros fuel k1 -> Hfuel.
  - cbn [app] in *. rewrite app_nil_r in *. destruct fuel as [|fuel]; [simpl in Hfuel; lia|].
    destruct (rep_at _ _ _ _ _ (wf_rep _ _ Hwf)) as [Ha E]. cbn [nxt dealloc_loop]. rewrite (proj2 (Z.eqb_neq a 0)) by done.
    rewrite (st_bind_eq _ _ _ _ _ (chunk_eq _ _ _ E)). cbn [start c_free chunk_of]. rewrite Z.eqb_refl, Hx.
    destruct (exact_set d k1 a x l2 (λ c, c <| c_free := true |>) (mk_ext (e_start x) (e_size x) true))
      as (d1 & E1 & He1 & Hv1); [by split; apply Hwf|done|].
    rewrite (st_bind_eq _ _ _ tt d) by (unfold LOG_FATAL_IF; by destruct log_ndebug).
    rewrite (st_bind_eq _ _ _ _ _ E1). pose proof (wf_tiles _ _ Hwf) as Ht. pose proof (wf_merged _ _ Hwf) as M.
    rewrite fmap_app, fmap_cons in Ht, M. apply merged_app in M as (M1 & _ & M2). cbn [snd] in *. rewrite Hx in M2.
    destruct (wf_size _ _ Hwf) as [Hsz Hal].
    destruct (merge_loop_ok (S fuel) d1 k1 a (mk_ext (e_start x) (e_size x) true) l2 (mHeapSize d / kMemoryAlign) He1)
      as (f & z & d2 & l' & E2 & He2 & Hv2 & T2 & M2' & U2 & Hin & Hz); [done| | |done|done| |].
    + rewrite fmap_app, fmap_cons. apply tiles_app in Ht as (q & T1 & T2 & T3 & T4). apply tiles_app. by exists q.
    + unfold kMemoryAlign. Z.div_mod_to_equations. lia.
    + simpl in Hfuel. lia.
    + rewrite (st_bind_eq _ _ _ _ _ E2). assert (Hv : env d d2) by (by etrans).
      apply list_elem_of_split in Hin as (m1 & m2 & ->).
      destruct (rep_at _ _ _ _ _ (proj1 He2)) as [Hf Ef]. rewrite (st_bind_eq _ _ _ _ _ (chunk_eq _ _ _ Ef)).
      cbn [c_free chunk_of]. rewrite Hz. rewrite (st_bind_eq _ _ _ tt d2) by (unfold LOG_FATAL_IF; by destruct log_ndebug).
      eexists f, d2, _. split_and!; [done|done| |done|done].
      split; [apply He2|apply He2|by rewrite (ev_size _ _ Hv)|done|by rewrite (ev_size _ _ Hv)].
  - destruct fuel as [|fuel]; [simpl in Hfuel; lia|]. cbn [app nxt dealloc_loop].
    assert (Hwf' := Hwf). rewrite <- app_assoc in Hwf'. cbn [app] in Hwf'.
    destruct (rep_at _ _ _ _ _ (wf_rep _ _ Hwf')) as [Hb E]. rewrite (proj2 (Z.eqb_neq b 0)) by done.
    rewrite (st_bind_eq _ _ _ _ _ (chunk_eq _ _ _ E)). cbn [start chunk_of next].
    rewrite (proj2 (Z.eqb_neq (e_start y) (e_start x))).
    + apply (IH fuel (k1 ++ [(b, y)])); [by rewrite <- app_assoc|simpl in *; lia].
    + pose proof (wf_tiles _ _ Hwf) as Ht. rewrite fmap_app in Ht. eapply tiles_start; [exact Ht|].
      rewrite fmap_app. apply elem_of_app. right. by left.
Qed.

(** Freeing a chunk in use by its offset. *)
Lemma deallocate_ok d l l1 a x l2 :
  wf d l → l = l1 ++ (a, x) :: l2 → e_free x = false →
  ∃ d' l', deallocate log_ndebug (e_start x * kMemoryAlign) d = Ok (NO_ERROR, d') ∧ wf d' l' ∧ env d d' ∧
    used l' = used l1 ++ used l2.
Proof.
  intros Hwf -> Hx.
  destruct (dealloc_loop_ok (size (d_chunks d)) d l1 a x l2 [] Hwf Hx l1 eq_refl) as (f & d' & l' & E & Hf & Hwf' & Hv & U).
  { by apply rep_size, wf_rep. }
  exists d', l'. split_and!; [|done..]. unfold deallocate, Dealer.dealloc.
  erewrite st_bind_eq; [|unfold gets; unfold mbind at 1; unfold st_bind at 1; cbn [id]].
  2: { rewrite (rp_first _ _ (wf_rep _ _ Hwf)), Z.div_mul by done. exact E. }
  by rewrite (proj2 (Z.eqb_neq f 0)).
Qed.

(** ** A new heap, and its end *)

Lemma page_down_eq v : page_down pagesize v = pagesize * (v / pagesize).
Proof. subst pagesize. apply land_lnot_ones. lia. Qed.

Lemma page_up_eq v : 0 ≤ v < 2 ^ 32 - pagesize → page_up pagesize v = pagesize * ((v + pagesize - 1) / pagesize).
Proof.
  intros Hv. unfold page_up. rewrite page_down_eq. pose proof page_units_pos.
  assert (0 < pagesize) by (subst; apply Z.pow_pos_nonneg; lia). by rewrite u32_small by lia.
Qed.

Lemma pagesize_range : pagesize = 32 * 2 ^ (page_bits - 5) ∧ 32 ≤ pagesize ≤ 2 ^ 30.
Proof.
  assert (pagesize = 32 * 2 ^ (page_bits - 5)) as E by (subst; change 32 with (2 ^ 5); rewrite <- Z.pow_add_r by lia; f_equal; lia).
  pose proof page_units_pos. split; [done|]. lia.
Qed.

Lemma MemoryDealer_ok size mapped :
  0 < size ≤ 2 ^ 31 - pagesize →
  ∃ d l, MemoryDealer operator_new pagesize size mapped = Ok (tt, d) ∧ wf d l ∧ used l = [] ∧ d_mapped d = mapped ∧
    d_touched d = [] ∧ size ≤ mHeapSize d < size + pagesize.
Proof.
  intros Hs. destruct pagesize_range as [Hp Hpr]. set (q := 2 ^ (page_bits - 5)) in *.
  set (d0 := mk_dealer ∅ 0 0 (page_up pagesize size) mapped []).
  assert (He : exact d0 []) by (split; [split; [done|constructor|done|done]|done]).
  assert (Hup : page_up pagesize size = 32 * (q * ((size + pagesize - 1) / pagesize))) by (rewrite page_up_eq by lia; lia).
  assert (Hsz : size ≤ page_up pagesize size < size + pagesize ∧ page_up pagesize size < 2 ^ 31).
  { rewrite page_up_eq by lia. Z.div_mod_to_equations. nia. }
  set (n := page_up pagesize size / kMemoryAlign).
  assert (Hn : n = q * ((size + pagesize - 1) / pagesize)) by (unfold n, kMemoryAlign; rewrite Hup, Z.mul_comm; by apply Z.div_mul).
  destruct (new_chunk_ok d0 [] 0 n He) as (b & d1 & E1 & Hb0 & Hb & Hr1 & Hv1 & D1); [lia|].
  destruct (insertHead_ok d1 [] b (mk_chunk 0 n true 0 0) Hr1 Hb0) as (d2 & E2 & Hr2 & Hs2); [|done|].
  { rewrite D1. apply lookup_insert_eq. }
  assert (Hv : env d0 d2) by (etrans; [done|by apply same_env]).
  exists d2, [(b, mk_ext 0 n true)]. split_and!.
  - unfold MemoryDealer, SimpleBestFitAllocator. rewrite (st_bind_eq _ _ _ tt d0) by done. by rewrite (st_bind_eq _ _ _ _ _ E1).
  - assert (mHeapSize d2 = page_up pagesize size) as Hh by apply Hv.
    split; [done| | |done|].
    + eapply (exact_insert d0 d1); [exact He|exact D1|done|done|done].
    + cbn. rewrite Hh. split_and!; [done|lia|done].
    + rewrite Hh. split; [lia|]. rewrite Hup. unfold kMemoryAlign. rewrite Z.mul_comm. by apply Z.mod_mul.
  - done.
  - apply Hv.
  - apply Hv.
  - rewrite (ev_size _ _ Hv). cbn. lia.
  - rewrite (ev_size _ _ Hv). cbn. lia.
Qed.

Lemma delete_loop_ok fuel d l : exact d l → (length l ≤ fuel)%nat → ∃ d', delete_loop fuel d = Ok (tt, d') ∧ d_chunks d' = ∅ ∧ env d d'.
Proof.
  revert d l. induction fuel as [|fuel IH]; intros d l He Hf; cbn [delete_loop]; unfold gets at 1; unfold mbind at 1; unfold st_bind at 1.
  - destruct l; [|simpl in Hf; lia]. rewrite (rp_first _ _ (proj1 He)). cbn. exists d. split_and!; [done| |done].
    apply dom_empty_iff_L. by rewrite (proj2 He).
  - rewrite (rp_first _ _ (proj1 He)). destruct l as [|[a x] l]; cbn [nxt].
    + cbn. exists d. split_and!; [done| |done]. apply dom_empty_iff_L. by rewrite (proj2 He).
    + destruct (rep_at d [] a x l (proj1 He)) as [Ha _]. rewrite (proj2 (Z.eqb_neq a 0)) by done.
      destruct (exact_unlink d [] a x l He) as (d1 & d2 & E1 & E2 & He2 & Hv2).
      rewrite (st_bind_eq _ _ _ _ _ E1), (st_bind_eq _ _ _ _ _ E2).
      destruct (IH d2 l He2) as (d' & E' & Hd' & Hv'); [simpl in Hf; lia|]. exists d'. split_and!; [done|done|by etrans].
Qed.

(** The destructor gives every chunk back. *)
Lemma delete_allocator_ok d l : wf d l → ∃ d', delete_allocator d = Ok (tt, d') ∧ d_chunks d' = ∅.
Proof.
  intros Hwf. destruct (delete_loop_ok (size (d_chunks d)) d l) as (d' & E & Hd & _).
  - split; apply Hwf.
  - by apply rep_size, wf_rep.
  - exists d'. unfold delete_allocator. by rewrite (st_bind_eq _ _ _ (d_chunks d) d).
Qed.

(** ** Clients *)

Lemma excess_pages_eq off size :
  0 ≤ off → 0 < size → off + size < 2 ^ 31 →
  ∃ s e, excess_pages pagesize off size = (s, e) ∧ (s < e → off ≤ s ∧ e ≤ off + size).
Proof.
  intros H1 H2 H3. destruct pagesize_range as [_ Hp]. unfold excess_pages.
  rewrite u32_small by lia. rewrite !page_down_eq.
  rewrite (page_up_eq (off + size)) by lia.
  replace (if pagesize * (off / pagesize) <? off then off else pagesize * (off / pagesize)) with off.
  2: { destruct (Z.ltb_spec (pagesize * (off / pagesize)) off); [done|]. Z.div_mod_to_equations. nia. }
  match goal with |- context [if ?b then off + size else ?v] => replace (if b then off + size else v) with (off + size) end.
  2: { destruct (Z.ltb_spec (off + size) (pagesize * ((off + size + pagesize - 1) / pagesize))); [done|].
       Z.div_mod_to_equations. nia. }
  rewrite page_up_eq by lia. eexists _, _. split; [done|]. intros _. Z.div_mod_to_equations. nia.
Qed.

End spec.
End DealerSpec.
