(* ===== verification/MemoryDealerRuns.v ===== *)
(** Clients of the shared memory allocator: in every run they can make, what
    they hold never overlaps, and nothing but the memory of the allocation at
    hand is touched; when all is given back the heap is whole again. *)
From S2P Require Import Prelude MemoryDealer MemoryDealerList MemoryDealerSpec.
Import Dealer DealerList DealerSpec.

Module DealerRuns.

Implicit Types (l : list (Z * ext)) (d : dealer) (x y z : ext) (held : list allocation) (a b : allocation) (k : Z).

(** ** Calls *)

(** A client asks for memory, or drops the allocation at an index of what it holds. *)
Inductive client_op : Type := Allocate (size : Z) | Release (i : nat).

(** Sizes that do not wrap around when they are rounded up. *)
Definition legal (op : client_op) : Prop :=
  match op with Allocate size => 0 ≤ size ≤ 2 ^ 32 - 32 | Release _ => True end.

Definition step (operator_new : gmap Z chunk_t → Z) (pagesize : Z) (log_ndebug : bool) (op : client_op) held : MD (list allocation) :=
  match op with
  | Allocate size =>
      a ← dealer_allocate operator_new pagesize size;
      mret (match a with Some a => held ++ [a] | None => held end)
  | Release i =>
      match held !! i with
      | Some a => delete_allocation pagesize log_ndebug a ;; mret (delete i held)
      | None => mret held
      end
  end.

Fixpoint run (operator_new : gmap Z chunk_t → Z) (pagesize : Z) (log_ndebug : bool) (ops : list client_op) held : MD (list allocation) :=
  match ops with
  | [] => mret held
  | op :: ops' => held' ← step operator_new pagesize log_ndebug op held; run operator_new pagesize log_ndebug ops' held'
  end.

(** ** What is held *)

Definition bytes_of a k : Prop := getOffset a ≤ k < getOffset a + getSize a.
Definition touched_byte (t : touch) k : Prop :=
  match t with Memset from len _ | Remove from len => from ≤ k < from + len end.

Definition extent a : Z * Z := (getOffset a / kMemoryAlign, units (getSize a)).
Definition extents held : list (Z * Z) := extent <$> filter (λ a, getSize a ≠ 0) held.

Definition sound a : Prop := getSize a = 0 ∨ 0 < getSize a ≤ 2 ^ 32 - 32 ∧ getOffset a `mod` kMemoryAlign = 0.

Record holds held d l : Prop := {
  hd_wf : wf d l;
  hd_mapped : d_mapped d = true;
  hd_used : used l ≡ₚ extents held;
  hd_sound : ∀ a, a ∈ held → sound a
}.

Lemma used_split l s n :
  (s, n) ∈ used l → ∃ l1 c x l2, l = l1 ++ (c, x) :: l2 ∧ e_free x = false ∧ s = e_start x ∧ n = e_size x.
Proof.
  unfold used. intros ([c x] & [= -> ->] & [Hf Hin]%list_elem_of_filter)%list_elem_of_fmap.
  apply list_elem_of_split in Hin as (l1 & l2 & ->). by exists l1, c, x, l2.
Qed.

(** Chunks in use are apart. *)
Lemma used_sorted d l : wf d l → StronglySorted (λ p q : Z * Z, p.1 + p.2 ≤ q.1) (used l).
Proof.
  intros [_ _ Ht _ _]. revert Ht. generalize 0, (mHeapSize d / kMemoryAlign). induction l as [|[c x] l IH]; intros p e Ht; [constructor|].
  cbn in Ht. destruct Ht as (H1 & H2 & Ht). rewrite used_cons. destruct (e_free x); cbn [app]; [by eapply IH|].
  constructor; [by eapply IH|]. apply Forall_forall. intros [s n] Hin. apply used_split in Hin as (l1 & c' & y & l2 & -> & _ & -> & _).
  rewrite fmap_app in Ht. cbn in *. pose proof (tiles_range _ _ _ y Ht) as Hr. destruct Hr as [Hr _]; [|lia].
  apply elem_of_app. right. by left.
Qed.

Lemma used_nodup d l : wf d l → NoDup (used l).
Proof.
  intros Hwf. pose proof (used_sorted d l Hwf) as Hs.
  assert (Hpos : ∀ p, p ∈ used l → 0 < p.2).
  { intros [s n] Hp. apply used_split in Hp as (l1 & c & x & l2 & -> & _ & _ & ->).
    destruct (wf_bound d _ c x Hwf) as (_ & H & _); [apply elem_of_app; right; by left|done]. }
  induction Hs as [|p u Hs IH Hp]; constructor.
  - intros Hin. rewrite Forall_forall in Hp. specialize (Hp p Hin). specialize (Hpos p ltac:(by left)). lia.
  - apply IH. intros q Hq. apply Hpos. by right.
Qed.

Lemma used_apart d l p q : wf d l → p ∈ used l → q ∈ used l → p ≠ q → p.1 + p.2 ≤ q.1 ∨ q.1 + q.2 ≤ p.1.
Proof.
  intros Hwf. pose proof (used_sorted d l Hwf) as Hs. induction Hs as [|r u Hs IH Hr]; [by intros ?%elem_of_nil|].
  rewrite Forall_forall in Hr. intros [->|Hp]%elem_of_cons [->|Hq]%elem_of_cons Hne; [done|left; by apply Hr|right; by apply Hr|by apply IH].
Qed.

Lemma extents_app h1 h2 : extents (h1 ++ h2) = extents h1 ++ extents h2.
Proof. unfold extents. by rewrite filter_app, fmap_app. Qed.

Lemma extents_delete held i a : held !! i = Some a → getSize a ≠ 0 → extents held ≡ₚ extent a :: extents (delete i held).
Proof.
  intros Hi Ha. unfold extents. rewrite (delete_Permutation held i a Hi) at 1. by rewrite filter_cons_True.
Qed.

Lemma extents_elem held a : a ∈ held → getSize a ≠ 0 → extent a ∈ extents held.
Proof. intros Hin Ha. apply list_elem_of_fmap. exists a. split; [done|]. by apply list_elem_of_filter. Qed.

(** The bytes of an allocation are in its chunk. *)
Lemma extent_bytes a k : sound a → bytes_of a k →
  getSize a ≠ 0 ∧ (extent a).1 * 32 = getOffset a ∧ (extent a).1 * 32 ≤ k < ((extent a).1 + (extent a).2) * 32.
Proof.
  unfold bytes_of, extent. intros [H0|[Hs Ha]] Hk; [lia|]. cbn. destruct (units_eq _ Hs) as [-> _].
  unfold kMemoryAlign in *. split_and!; [lia|..]; Z.div_mod_to_equations; lia.
Qed.

Lemma held_in_heap held d l a k : holds held d l → a ∈ held → bytes_of a k → 0 ≤ k < mHeapSize d.
Proof.
  intros [Hwf _ Hu Hs] Ha Hk. destruct (extent_bytes a k (Hs a Ha) Hk) as (Hz & E1 & E2).
  assert (Hin : extent a ∈ used l) by (rewrite Hu; by apply extents_elem).
  destruct (extent a) as [s n]. apply used_split in Hin as (l1 & c & x & l2 & -> & _ & -> & ->).
  destruct (wf_bound d _ c x Hwf) as (B1 & B2 & B3); [apply elem_of_app; right; by left|]. cbn in *. lia.
Qed.

Lemma held_apart held d l i j a b k :
  holds held d l → held !! i = Some a → held !! j = Some b → i ≠ j → bytes_of a k → ¬ bytes_of b k.
Proof.
  intros [Hwf _ Hu Hs] Hi Hj Hij Ha Hb. assert (Hai := list_elem_of_lookup_2 _ _ _ Hi). assert (Hbj := list_elem_of_lookup_2 _ _ _ Hj).
  destruct (extent_bytes a k (Hs a Hai) Ha) as (Hza & Ea & Ka). destruct (extent_bytes b k (Hs b Hbj) Hb) as (Hzb & Eb & Kb).
  assert (Hne : extent a ≠ extent b).
  { intros E. pose proof (used_nodup d l Hwf) as Hn. rewrite Hu, (extents_delete held i a Hi Hza) in Hn.
    apply NoDup_cons in Hn as [Hn _]. apply Hn. rewrite E. apply extents_elem; [|done].
    destruct (decide (j < i)%nat).
    - apply (list_elem_of_lookup_2 _ j). by rewrite list_lookup_delete_lt.
    - apply (list_elem_of_lookup_2 _ (j - 1)%nat). rewrite list_lookup_delete_ge by lia. by replace (S (j - 1)) with j by lia. }
  destruct (used_apart d l (extent a) (extent b)) as [H|H]; [done|rewrite Hu; by apply extents_elem..|done|lia|lia].
Qed.

(** ** Steps *)

Section runs.
Context (operator_new : gmap Z chunk_t → Z) (pagesize : Z) (log_ndebug : bool).
Context (new_ok : ∀ h, operator_new h ≠ 0 ∧ h !! operator_new h = None).
Context (page_bits : Z) (pagesize_eq : pagesize = 2 ^ page_bits) (page_bits_range : 5 ≤ page_bits ≤ 30).

Notation step := (step operator_new pagesize log_ndebug).
Notation run := (run operator_new pagesize log_ndebug).

(** Only memory that nobody keeps is touched on the way. *)
Definition touches_none_kept held held' d d' : Prop :=
  ∃ new, d_touched d' = new ++ d_touched d ∧
    ∀ t b k, t ∈ new → b ∈ held → b ∈ held' → touched_byte t k → ¬ bytes_of b k.

Definition step_ok (op : client_op) held d : Prop :=
  ∃ held' d' l', step op held d = Ok (held', d') ∧ holds held' d' l' ∧ mHeapSize d' = mHeapSize d ∧ touches_none_kept held held' d d'.

Lemma allocate_outcome size d l :
  wf d l → 0 ≤ size ≤ 2 ^ 32 - 32 →
  (size = 0 ∧ allocate operator_new pagesize size 0 d = Ok (0, d)) ∨
  (0 < size ∧ alloc_spec pagesize (units size) 0 d l (alloc operator_new pagesize size 0 d)).
Proof.
  intros Hwf Hs. destruct (Z.eq_dec size 0) as [->|Hz]; [by left|right]. split; [lia|].
  apply (alloc_ok operator_new pagesize new_ok page_bits pagesize_eq page_bits_range); [done|lia].
Qed.

Lemma new_allocation_eq off size d :
  d_mapped d = true → new_allocation off size d = Ok (mk_allocation off size, d <| d_touched %= cons (Memset off size 218) |>).
Proof. intros Hm. unfold new_allocation, memset_heap, mbind, st_bind, gets. by rewrite Hm. Qed.

(** The list of chunks does not see what was touched. *)
Lemma wf_touched d l f : wf d l → wf (d <| d_touched %= f |>) l.
Proof. intros [[] ? ? ? ?]. by split. Qed.

Lemma allocate_step size held d l : holds held d l → 0 ≤ size ≤ 2 ^ 32 - 32 → step_ok (Allocate size) held d.
Proof.
  intros Hh Hs. assert (Hh' := Hh). destruct Hh' as [Hwf Hm Hu Hsd]. unfold step_ok. cbn [DealerRuns.step].
  assert (Hend : ∀ d1 l1 off, allocate operator_new pagesize size 0 d = Ok (off, d1) → 0 ≤ off < 2 ^ 31 → env d d1 → wf d1 l1 →
    used l1 ≡ₚ extents (held ++ [mk_allocation off size]) → sound (mk_allocation off size) → step_ok (Allocate size) held d).
  { intros d1 l1 off E Hoff Hv Hw Hu1 Hsound. unfold step_ok. cbn [DealerRuns.step]. set (a := mk_allocation off size) in *.
    set (d2 := d1 <| d_touched %= cons (Memset off size 218) |>).
    assert (Hh2 : holds (held ++ [a]) d2 l1).
    { split; [by apply wf_touched|cbn; by rewrite (ev_mapped _ _ Hv)|done|].
      intros b [Hb| ->%list_elem_of_singleton]%elem_of_app; [by apply Hsd|done]. }
    exists (held ++ [a]), d2, l1. split_and!; [|done|apply Hv|].
    - rewrite (st_bind_eq _ _ _ (Some a) d2); [done|]. unfold dealer_allocate. rewrite (st_bind_eq _ _ _ _ _ E).
      unfold s32. rewrite Z.mod_small, Z.add_simpl_r by lia. destruct (Z.geb_spec off 0); [|lia].
      rewrite (st_bind_eq _ _ _ a d2); [done|]. apply new_allocation_eq. by rewrite (ev_mapped _ _ Hv).
    - exists [Memset off size 218]. split; [cbn; by rewrite (ev_touched _ _ Hv)|].
      intros t b k ->%list_elem_of_singleton Hb _ Hk. apply list_elem_of_lookup_1 in Hb as (i & Hi).
      apply (held_apart (held ++ [a]) d2 l1 (length held) i a b k Hh2); [| | |done].
      + rewrite lookup_app_r, Nat.sub_diag by lia. done.
      + by apply lookup_app_l_Some.
      + apply lookup_lt_Some in Hi. lia. }
  destruct (allocate_outcome size d l Hwf Hs) as [[-> E]|[Hpos [[E _]|(l1 & c & x & l2 & d' & l' & -> & Hx & _ & _ & E & Hw & Hv & Hu')]]].
  - apply (Hend d l 0); [done|lia|done|done| |by left]. rewrite extents_app. cbn. by rewrite app_nil_r.
  - exists held, d, l. split_and!; [|done|done|].
    + rewrite (st_bind_eq _ _ _ None d); [done|]. unfold dealer_allocate.
      rewrite (st_bind_eq _ _ _ (u32 NO_MEMORY) d); [done|]. unfold allocate. by rewrite (st_bind_eq _ _ _ _ _ E).
    + exists []. split; [done|]. by intros t b k ?%elem_of_nil.
  - set (st := e_start x + page_extra pagesize 0 (e_start x)) in *.
    assert (Hin : (st, units size) ∈ used l') by (rewrite Hu'; apply elem_of_app; right; by left).
    apply used_split in Hin as (m1 & c' & y & m2 & -> & _ & Hst & Hn).
    destruct (wf_bound d' _ c' y Hw) as (B1 & B2 & B3); [apply elem_of_app; right; by left|].
    destruct (wf_size _ _ Hw) as [Hsz _]. destruct (units_eq size) as [Heq Hpn]; [lia|].
    apply (Hend d' (m1 ++ (c', y) :: m2) (st * kMemoryAlign)).
    + unfold allocate. rewrite (st_bind_eq _ _ _ _ _ E). unfold kMemoryAlign. by rewrite u32_small by lia.
    + unfold kMemoryAlign. lia.
    + done.
    + exact Hw.
    + rewrite Hu', extents_app. unfold extents at 2. rewrite filter_cons_True by (cbn; lia). cbn.
      unfold extent. cbn. rewrite Z.div_mul by done. rewrite <- Hu, used_app, used_cons.
      apply andb_true_iff in Hx as [Hx _]. rewrite Hx. rewrite <- Permutation_middle. cbn [app]. apply Permutation_cons_append.
    + right. split; [cbn; lia|]. apply Z.mod_mul. done.
Qed.

Lemma release_step i held d l : holds held d l → step_ok (Release i) held d.
Proof.
  intros Hh. assert (Hh' := Hh). destruct Hh' as [Hwf Hm Hu Hsd]. unfold step_ok. cbn [DealerRuns.step].
  destruct (held !! i) as [a|] eqn:Hi.
  2: { exists held, d, l. split_and!; [done..|]. exists []. split; [done|]. by intros t b k ?%elem_of_nil. }
  assert (Hin := list_elem_of_lookup_2 _ _ _ Hi).
  assert (Hsub : ∀ b, b ∈ delete i held → b ∈ held) by (intros b Hb; rewrite (delete_Permutation held i a Hi); by right).
  destruct (Hsd a Hin) as [Hz|[Hs Hal]].
  { exists (delete i held), d, l. split_and!; [|split; [done|done| |auto]|done|].
    - unfold delete_allocation. by rewrite Hz.
    - rewrite Hu. unfold extents. rewrite (delete_Permutation held i a Hi) at 1. by rewrite filter_cons_False by tauto.
    - exists []. split; [done|]. by intros t b k ?%elem_of_nil. }
  assert (Hex : extents held ≡ₚ extent a :: extents (delete i held)) by (apply extents_delete; [done|lia]).
  assert (Hua : (getOffset a / kMemoryAlign, units (getSize a)) ∈ used l) by (rewrite Hu, Hex; by left).
  apply used_split in Hua as (l1 & c & x & l2 & -> & Hx & Est & Esz).
  destruct (wf_bound d _ c x Hwf) as (B1 & B2 & B3); [apply elem_of_app; right; by left|].
  destruct (wf_size _ _ Hwf) as [Hsz _]. destruct (units_eq _ Hs) as [Heq Hpn].
  assert (Hoff : getOffset a = e_start x * kMemoryAlign) by (unfold kMemoryAlign in *; Z.div_mod_to_equations; lia).
  assert (Hend : getOffset a + getSize a < 2 ^ 31) by (unfold kMemoryAlign in *; Z.div_mod_to_equations; lia).
  destruct (excess_pages_eq pagesize page_bits pagesize_eq page_bits_range (getOffset a) (getSize a)) as (s & e & Epg & Hpg); [unfold kMemoryAlign in *; lia..|].
  set (new := if s <? e then [Remove s (e - s); Memset s (e - s) 223] else []).
  set (d1 := d <| d_touched %= app new |>).
  destruct (deallocate_ok operator_new log_ndebug new_ok page_bits page_bits_range d1 _ l1 c x l2 (wf_touched d _ _ Hwf) eq_refl Hx) as (d' & l' & E & Hw' & Hv & U').
  exists (delete i held), d', l'. split_and!; [|split; [done|by rewrite (ev_mapped _ _ Hv)| |auto]|by rewrite (ev_size _ _ Hv)|].
  - rewrite (st_bind_eq _ _ _ tt d'); [done|]. unfold delete_allocation. rewrite (proj2 (Z.eqb_neq (getSize a) 0)) by lia. cbn [negb when].
    rewrite u32_small by (unfold kMemoryAlign in *; lia). rewrite Epg. rewrite (st_bind_eq _ _ _ tt d1).
    + rewrite Hoff. by rewrite (st_bind_eq _ _ _ _ _ E).
    + subst d1 new. destruct (s <? e); cbn [when]; [|by destruct d].
      unfold memset_heap, mbind, st_bind, gets. rewrite Hm. done.
  - rewrite U'. apply (Permutation_cons_inv (a := extent a)). rewrite <- Hex, <- Hu, used_app, used_cons, Hx.
    unfold extent. rewrite Est, Esz. cbn [app]. by rewrite Permutation_middle.
  - exists new. split; [by rewrite (ev_touched _ _ Hv)|]. intros t b k Ht _ Hb Hk Hbk.
    assert (Hka : bytes_of a k).
    { unfold bytes_of. subst new. destruct (Z.ltb_spec s e) as [Hse|Hse]; [|by apply elem_of_nil in Ht].
      specialize (Hpg Hse). rewrite !elem_of_cons, elem_of_nil in Ht. destruct Ht as [->|[->|[]]]; cbn in Hk; lia. }
    apply list_elem_of_lookup_1 in Hb as (j & Hj).
    destruct (decide (j < i)%nat).
    + rewrite list_lookup_delete_lt in Hj by done. by apply (held_apart held d _ i j a b k Hh Hi Hj ltac:(lia)).
    + rewrite list_lookup_delete_ge in Hj by lia. by apply (held_apart held d _ i (S j) a b k Hh Hi Hj ltac:(lia)).
Qed.

(** ** Runs *)

Lemma step_holds op held d l : legal op → holds held d l → step_ok op held d.
Proof. destruct op as [size|i]; intros Ho Hh; [by eapply allocate_step|by eapply release_step]. Qed.

Lemma run_holds ops held d l :
  Forall legal ops → holds held d l →
  ∃ held' d' l', run ops held d = Ok (held', d') ∧ holds held' d' l' ∧ mHeapSize d' = mHeapSize d.
Proof.
  intros Ho. revert held d l. induction Ho as [|op ops Hop _ IH]; intros held d l Hh; [by exists held, d, l|].
  destruct (step_holds op held d l Hop Hh) as (h1 & d1 & l1 & E & Hh1 & Hs & _).
  destruct (IH h1 d1 l1 Hh1) as (h2 & d2 & l2 & E2 & Hh2 & Hs2). exists h2, d2, l2. cbn [DealerRuns.run].
  rewrite (st_bind_eq _ _ _ _ _ E). split_and!; [done|done|congruence].
Qed.

(** When nothing is held the heap is one free chunk. *)
Lemma empty_heap d l : wf d l → used l = [] → ∃ c, l = [(c, mk_ext 0 (mHeapSize d / kMemoryAlign) true)].
Proof.
  intros [_ _ Ht Hm [Hs Hal]] Hu. destruct l as [|[a [s n f]] l].
  { cbn in Ht. unfold kMemoryAlign in *. exfalso. Z.div_mod_to_equations. lia. }
  rewrite used_cons in Hu. destruct f; [|done]. cbn in Hu, Ht, Hm. destruct Ht as (-> & _ & Ht). destruct l as [|[b y] l].
  - exists a. change (0 + n = mHeapSize d / kMemoryAlign) in Ht. by rewrite <- Ht, Z.add_0_l.
  - rewrite used_cons in Hu. cbn in Hm. destruct Hm as (_ & Hy & _). by rewrite Hy in Hu.
Qed.

Lemma whole_again d l size :
  holds [] d l → 0 < size ≤ mHeapSize d →
  ∃ d', dealer_allocate operator_new pagesize size d = Ok (Some (mk_allocation 0 size), d').
Proof.
  intros Hh Hs. assert (Hh' := Hh). destruct Hh' as [Hwf Hm Hu%Permutation_nil_r _].
  destruct (empty_heap d l Hwf Hu) as [a ->]. destruct (wf_size _ _ Hwf) as [Hsz Hal].
  destruct (units_eq size) as [Hue _]; [lia|].
  destruct (alloc_ok operator_new pagesize new_ok page_bits pagesize_eq page_bits_range size 0 d _ Hwf) as [[_ Hno]|H]; [lia| |].
  - exfalso. specialize (Hno a _ ltac:(by left)). unfold fits, page_extra in Hno. cbn in Hno. rewrite Z.add_0_r in Hno.
    apply Z.geb_leb in Hno || idtac. destruct (Z.geb_spec (mHeapSize d / kMemoryAlign) (units size)) as [|Hlt]; [done|].
    rewrite Hue in Hlt. unfold kMemoryAlign in *. Z.div_mod_to_equations. lia.
  - destruct H as (l1 & c & x & l2 & d' & l' & El & _ & _ & _ & E & _ & Hv & _).
    destruct l1 as [|? [|]]; [|done..]. injection El as _ <- _. cbn in E.
    eexists. unfold dealer_allocate. rewrite (st_bind_eq _ _ _ 0 d').
    + change (s32 0 >=? 0) with true. cbv iota zeta. rewrite (st_bind_eq _ _ _ _ _ (new_allocation_eq _ _ _ (eq_trans (ev_mapped _ _ Hv) Hm))). done.
    + unfold allocate. by rewrite (st_bind_eq _ _ _ _ _ E).
Qed.

(** C21: In a heap of up to 2^31 bytes less a page that could be mapped, and for
    requests of at most 2^32 - 32 bytes, in any order with what is given back: no
    call fails, the allocations a client holds lie in the heap, on multiples of 32
    bytes and apart from each other, and a call touches no memory of an allocation
    that is kept; when all is given back the whole heap can be allocated again.
    A larger request wraps around when it is rounded up ([huge_allocation]), and a
    heap that could not be mapped is used all the same ([unmapped_heap]). *)
Theorem allocations_never_overlap size ops :
  0 < size ≤ 2 ^ 31 - pagesize → Forall legal ops →
  ∃ d0 held d, MemoryDealer operator_new pagesize size true = Ok (tt, d0) ∧ run ops [] d0 = Ok (held, d) ∧
    size ≤ mHeapSize d ∧
    (∀ a k, a ∈ held → bytes_of a k → 0 ≤ k < mHeapSize d ∧ getOffset a `mod` kMemoryAlign = 0) ∧
    (∀ i j a b k, held !! i = Some a → held !! j = Some b → i ≠ j → bytes_of a k → ¬ bytes_of b k) ∧
    (∀ op, legal op → ∃ held' d', step op held d = Ok (held', d') ∧ touches_none_kept held held' d d') ∧
    (held = [] → ∀ n, 0 < n ≤ mHeapSize d →
       ∃ d', dealer_allocate operator_new pagesize n d = Ok (Some (mk_allocation 0 n), d')).
Proof.
  intros Hs Ho. destruct (MemoryDealer_ok operator_new pagesize new_ok page_bits pagesize_eq page_bits_range size true Hs)
    as (d0 & l0 & E0 & Hwf & Hu & Hm & _ & Hsz).
  destruct (run_holds ops [] d0 l0 Ho) as (held & d & l & E & Hh & Hd); [split; [done|done|by rewrite Hu|by intros a ?%elem_of_nil]|].
  exists d0, held, d. split_and!; [done|done|lia|..].
  - intros a k Ha Hk. split; [by apply (held_in_heap held d l a)|].
    destruct (hd_sound _ _ _ Hh a Ha) as [H0|[_ H]]; [unfold bytes_of in Hk; lia|done].
  - intros i j a b k. by apply (held_apart held d l).
  - intros op Hop. destruct (step_holds op held d l Hop Hh) as (h' & d' & l' & E' & _ & _ & Ht). by exists h', d'.
  - intros ->. intros n. by apply (whole_again d l).
Qed.

(** C22: Allocating takes the first of the smallest free chunks that have room,
    cuts it to size and leaves all others in use as they were, on a page boundary
    if that was asked for; it answers that there is no memory, and changes
    nothing, exactly when no free chunk has room. *)
Theorem allocate_best_fit size flags d l :
  wf d l → 0 < size ≤ 2 ^ 32 - 32 →
  alloc_spec pagesize (units size) flags d l (alloc operator_new pagesize size flags d) ∧
  ∀ off d', alloc operator_new pagesize size flags d = Ok (off, d') → has_flag flags PAGE_ALIGNED = true → 0 ≤ off →
    off `mod` pagesize = 0.
Proof.
  intros Hwf Hs. pose proof (alloc_ok operator_new pagesize new_ok page_bits pagesize_eq page_bits_range size flags d l Hwf Hs) as H.
  split; [done|]. intros off d' E Hf Hoff. destruct H as [[E' _]|(l1 & a & x & l2 & d1 & l1' & _ & _ & _ & _ & E' & _)].
  - rewrite E in E'. injection E' as -> _. done.
  - rewrite E in E'. injection E' as -> _. by apply (page_extra_aligned pagesize page_bits pagesize_eq page_bits_range).
Qed.

End runs.

(** ** Concrete runs *)

Module DealerDemo.

(** An address that is not in use. *)
Definition operator_new (h : gmap Z chunk_t) : Z := fresh ({[0]} ∪ dom h).

Lemma operator_new_ok h : operator_new h ≠ 0 ∧ h !! operator_new h = None.
Proof.
  pose proof (is_fresh ({[0]} ∪ dom h)) as H. fold (operator_new h) in H. rewrite elem_of_union, elem_of_singleton in H.
  split; [tauto|]. apply not_elem_of_dom. tauto.
Qed.

(** Two allocations, the first given back, and one that fits in its place. *)
Definition ops : list client_op := [Allocate 100; Allocate 5000; Release 0; Allocate 64].

Lemma allocations_never_overlap_witness : ∃ held d d0,
  MemoryDealer operator_new 4096 10000 true = Ok (tt, d0) ∧ run operator_new 4096 false ops [] d0 = Ok (held, d) ∧
  held = [mk_allocation 128 5000; mk_allocation 0 64].
Proof.
  destruct (allocations_never_overlap operator_new 4096 false operator_new_ok 12 eq_refl ltac:(lia) 10000 ops ltac:(lia))
    as (d0 & held & d & E0 & E & _).
  { repeat constructor; lia. }
  exists held, d, d0. split_and!; [done|done|]. vm_compute in E0. injection E0 as <-. vm_compute in E. by injection E as <- _.
Defined.

(** One free chunk; page alignment in the middle of it leaves a chunk in front. *)
Definition heap : dealer := mk_dealer {[8 := mk_chunk 0 100 false 0 9; 9 := mk_chunk 100 900 true 8 0]} 8 9 32000 true [].
Definition chunks : list (Z * ext) := [(8, mk_ext 0 100 false); (9, mk_ext 100 900 true)].

Lemma heap_wf : wf heap chunks.
Proof.
  split; [split; [cbn; by split_and!| |done|done]|done|cbn; by split_and!|cbn; by split_and!|split; [cbn; lia|done]].
  repeat constructor; set_solver.
Qed.

Lemma allocate_best_fit_witness : ∃ d', alloc operator_new 4096 100 PAGE_ALIGNED heap = Ok (4096, d') ∧ 4096 `mod` 4096 = 0.
Proof.
  destruct (alloc operator_new 4096 100 PAGE_ALIGNED heap) as [[off d']|] eqn:E; [|by vm_compute in E].
  destruct (allocate_best_fit operator_new 4096 operator_new_ok 12 eq_refl ltac:(lia) 100 PAGE_ALIGNED heap chunks heap_wf ltac:(lia)) as [_ H].
  assert (off = 4096) as -> by (vm_compute in E; by injection E). exists d'. split; [done|]. exact (H 4096 d' E eq_refl ltac:(lia)).
Defined.

(** A size that wraps around when it is rounded up gets no memory of its own:
    the allocation begins where the next one will, and filling it runs through the
    heap and beyond. *)
Lemma huge_allocation : ∃ d0 d1 d2 a,
  MemoryDealer operator_new 4096 8192 true = Ok (tt, d0) ∧
  dealer_allocate operator_new 4096 (2 ^ 32 - 1) d0 = Ok (Some (mk_allocation 0 (2 ^ 32 - 1)), d1) ∧
  d_touched d1 = [Memset 0 (2 ^ 32 - 1) 218] ∧
  dealer_allocate operator_new 4096 100 d1 = Ok (Some a, d2) ∧ getOffset a = 0.
Proof.
  eexists _, _, _, _. split; [vm_compute; reflexivity|]. split; [vm_compute; reflexivity|].
  split; [reflexivity|]. split; [vm_compute; reflexivity|reflexivity].
Qed.

(** The heap is used whether or not it could be mapped. *)
Lemma unmapped_heap : ∃ d0,
  MemoryDealer operator_new 4096 8192 false = Ok (tt, d0) ∧ dealer_allocate operator_new 4096 100 d0 = Oops Bad_access.
Proof. eexists. split; [vm_compute; reflexivity|]. vm_compute. reflexivity. Qed.

End DealerDemo.
End DealerRuns.
