(* ===== verification/Unicode.v ===== *)
(** Conversions of strings between UTF-8, UTF-16 and UTF-32, [lib/utils/Unicode.cpp].
    A string is the list of the units that can be read from its first one on; an
    output is a buffer of some length.  A read or a write outside is the outcome
    [Bad_access].  A source may be [None], the null pointer; an output is not NULL.  Sizes are counted without wrap-around: they are at most four
    times the length of a string in memory. *)
From S2P Require Import Prelude.

Module Unicode.

(** ** Constants *)

Definition kByteMask : Z := 0xBF.
Definition kByteMark : Z := 0x80.
Definition kUnicodeSurrogateStart : Z := 0xD800.
Definition kUnicodeSurrogateEnd : Z := 0xDFFF.
Definition kUnicodeMaxCodepoint : Z := 0x10FFFF.
Definition kFirstByteMark (bytes : nat) : Z := nth bytes [0; 0; 0xC0; 0xE0; 0xF0] 0.

(** ** Memory *)

(** Computations that write to an output. *)
Notation UW := (ST (list Z)).

Definition rd {T} (src : list Z) (i : nat) : ST T Z := the Bad_access (src !! i).

Definition store (i : nat) (v : Z) : UW unit :=
  λ dst, if decide (i < length dst)%nat then Ok (tt, <[i := v]> dst) else Oops Bad_access.

(** [x << n] of 32 bit numbers, which has no meaning when [n] is too large. *)
Definition shl32 {T} (x : Z) (n : nat) : ST T Z := if decide (n < 32)%nat then mret (u32 (Z.shiftl x (Z.of_nat n))) else fail Bug.

(** ** UTF-32 *)

Definition utf32_codepoint_utf8_length (srcChar : Z) : nat :=
  if srcChar <? 0x80 then 1
  else if srcChar <? 0x800 then 2
  else if srcChar <? 0x10000 then
    if (srcChar <? kUnicodeSurrogateStart) || (srcChar >? kUnicodeSurrogateEnd) then 3 else 0
  else if srcChar <=? kUnicodeMaxCodepoint then 4
  else 0.

(** The cases that fall through: [n] bytes in front of [dstP], last first. *)
Fixpoint trail_bytes (n : nat) (dstP : nat) (srcChar : Z) : UW Z :=
  match n with
  | O => mret srcChar
  | S n' =>
      store (dstP - 1) (u8 (Z.land (Z.lor srcChar kByteMark) kByteMask)) ;;
      trail_bytes n' (dstP - 1) (Z.shiftr srcChar 6)
  end.

Definition utf32_codepoint_to_utf8 (dstP : nat) (srcChar : Z) (bytes : nat) : UW unit :=
  match bytes with
  | O => mret tt
  | S n =>
      srcChar ← trail_bytes n (dstP + bytes) srcChar;
      store dstP (u8 (Z.lor srcChar (kFirstByteMark bytes)))
  end.

(** The loop of [strlen32] and [strlen16]. *)
Fixpoint strlen_loop (fuel : nat) (s : list Z) (ss : nat) : ST unit nat :=
  match fuel with
  | O => fail Fuel
  | S fuel' => c ← rd s ss; if c =? 0 then mret ss else strlen_loop fuel' s (S ss)
  end.
Definition strlen32 (s : list Z) : ST unit nat := strlen_loop (S (length s)) s 0.
Definition strlen16 (s : list Z) : ST unit nat := strlen_loop (S (length s)) s 0.

(** The loop of [strnlen32] and [strnlen16]. *)
Fixpoint strnlen_loop (s : list Z) (ss : nat) (maxlen : nat) : ST unit nat :=
  match maxlen with
  | O => mret ss
  | S maxlen' => c ← rd s ss; if c =? 0 then mret ss else strnlen_loop s (S ss) maxlen'
  end.
Definition strnlen32 (s : list Z) (maxlen : nat) : ST unit nat := strnlen_loop s 0 maxlen.
Definition strnlen16 (s : list Z) (maxlen : nat) : ST unit nat := strnlen_loop s 0 maxlen.

Section chars.
(** Whether [char] has a sign, as on x86, or not, as on ARM. *)
Context (char_signed : bool).

Definition char_of (b : Z) : Z := if char_signed && (b >=? 128) then b - 256 else b.

(** The loop of [utf32_at_internal] behind the first byte. *)
Fixpoint at_loop {T} (fuel : nat) (first_char : Z) (src : list Z) (cur num_to_read : nat) (mask to_ignore_mask utf32 : Z) :
    ST T (nat * Z * Z * Z) :=
  if negb (has_flag first_char mask) then mret (num_to_read, mask, to_ignore_mask, utf32)
  else
    match fuel with
    | O => fail Fuel
    | S fuel' =>
        b ← rd src cur;
        at_loop fuel' first_char src (cur + 1) (num_to_read + 1) (Z.shiftr mask 1) (Z.lor to_ignore_mask mask)
          (u32 (Z.shiftl utf32 6 + Z.land (char_of b) 0x3F))
    end.

(** The code point at [cur] as [int32_t], and the number of bytes it takes. *)
Definition utf32_at_internal {T} (src : list Z) (cur : nat) : ST T (Z * nat) :=
  b ← rd src cur;
  let first_char := char_of b in
  if negb (has_flag first_char 0x80) then mret (first_char, 1%nat)
  else
    r ← at_loop 8 (u32 first_char) src (cur + 1) 1 0x40 0xFFFFFF80 (u32 first_char);
    let '(num_to_read, mask, to_ignore_mask, utf32) := r in
    m ← shl32 (Z.lor to_ignore_mask mask) (6 * (num_to_read - 1));
    mret (s32 (Z.land utf32 (u32 (Z.lnot m))), num_to_read).

(** The code point at an index and the index of the next one, if it is set. *)
Definition utf32_from_utf8_at (src : list Z) (src_len index : nat) : ST unit (Z * option nat) :=
  if decide (src_len ≤ index)%nat then mret (-1, None)
  else
    r ← utf32_at_internal src index;
    mret (r.1, if r.1 >=? 0 then Some (index + r.2)%nat else None).

Fixpoint utf32_to_utf8_length_loop (fuel : nat) (src : list Z) (i end_ ret : nat) : ST unit nat :=
  if decide (i < end_)%nat then
    match fuel with
    | O => fail Fuel
    | S fuel' => c ← rd src i; utf32_to_utf8_length_loop fuel' src (S i) end_ (ret + utf32_codepoint_utf8_length c)
    end
  else mret ret.

(** [None] is the null pointer; [-1] for it and for an empty string. *)
Definition utf32_to_utf8_length (src : option (list Z)) (src_len : nat) : ST unit Z :=
  match src with
  | Some src => if decide (src_len = 0%nat) then mret (-1) else r ← utf32_to_utf8_length_loop src_len src 0 src_len 0; mret (Z.of_nat r)
  | None => mret (-1)
  end.

Fixpoint utf32_to_utf8_loop (fuel : nat) (src : list Z) (i end_ cur : nat) : UW nat :=
  if decide (i < end_)%nat then
    match fuel with
    | O => fail Fuel
    | S fuel' =>
        c ← rd src i;
        let len := utf32_codepoint_utf8_length c in
        utf32_codepoint_to_utf8 cur c len ;;
        utf32_to_utf8_loop fuel' src (S i) end_ (cur + len)
    end
  else mret cur.

Definition utf32_to_utf8 (src : option (list Z)) (src_len : nat) : UW unit :=
  match src with
  | Some src => if decide (src_len = 0%nat) then mret tt else cur ← utf32_to_utf8_loop src_len src 0 src_len 0; store cur 0
  | None => mret tt
  end.

(** ** UTF-16 *)

Fixpoint strcmp16_loop (fuel : nat) (s1 s2 : list Z) (i : nat) : ST unit Z :=
  match fuel with
  | O => fail Fuel
  | S fuel' =>
      ch ← rd s1 i; c2 ← rd s2 i;
      if negb (ch - c2 =? 0) || (ch =? 0) then mret (ch - c2) else strcmp16_loop fuel' s1 s2 (S i)
  end.
Definition strcmp16 (s1 s2 : list Z) : ST unit Z := strcmp16_loop (S (length s1)) s1 s2 0.

Fixpoint strncmp16_loop (n : nat) (s1 s2 : list Z) (i : nat) (d : Z) : ST unit Z :=
  match n with
  | O => mret d
  | S n' =>
      ch ← rd s1 i; c2 ← rd s2 i;
      if negb (ch - c2 =? 0) || (ch =? 0) then mret (ch - c2) else strncmp16_loop n' s1 s2 (S i) (ch - c2)
  end.
Definition strncmp16 (s1 s2 : list Z) (n : nat) : ST unit Z := strncmp16_loop n s1 s2 0 0.

Fixpoint strcpy16_loop (fuel : nat) (src : list Z) (i : nat) : UW unit :=
  match fuel with
  | O => fail Fuel
  | S fuel' => ch ← rd src i; store i ch ;; if ch =? 0 then mret tt else strcpy16_loop fuel' src (S i)
  end.
Definition strcpy16 (src : list Z) : UW unit := strcpy16_loop (S (length src)) src 0.

(** The copied character goes through a [char]. *)
Fixpoint strncpy16_loop (n : nat) (src : list Z) (i : nat) : UW nat :=
  match n with
  | O => mret i
  | S n' =>
      c ← rd src i;
      let ch := char_of (u8 c) in
      store i (u16 ch) ;;
      if ch =? 0 then mret (S i) else strncpy16_loop n' src (S i)
  end.
Definition strncpy16 (src : list Z) (n : nat) : UW unit := q ← strncpy16_loop n src 0; store q 0.

(** [conv] is [ntohs] for the second string of [strzcmp16_h_n]. *)
Fixpoint strzcmp16_loop (conv : Z → Z) (fuel : nat) (s1 : list Z) (n1 : nat) (s2 : list Z) (n2 i : nat) : ST unit Z :=
  if decide (i < n1 ∧ i < n2)%nat then
    match fuel with
    | O => fail Fuel
    | S fuel' =>
        c1 ← rd s1 i; c2 ← rd s2 i;
        let d := c1 - conv c2 in
        if negb (d =? 0) then mret d else strzcmp16_loop conv fuel' s1 n1 s2 n2 (S i)
    end
  else if decide (n1 < n2)%nat then c2 ← rd s2 i; mret (0 - conv c2)
  else if decide (n2 < n1)%nat then c1 ← rd s1 i; mret (c1 - 0)
  else mret 0.

Definition ntohs (x : Z) : Z := Z.lor (u16 (Z.shiftl x 8)) (Z.shiftr x 8).
Definition strzcmp16 (s1 : list Z) (n1 : nat) (s2 : list Z) (n2 : nat) : ST unit Z := strzcmp16_loop id n1 s1 n1 s2 n2 0.
Definition strzcmp16_h_n (s1H : list Z) (n1 : nat) (s2N : list Z) (n2 : nat) : ST unit Z := strzcmp16_loop ntohs n1 s1H n1 s2N n2 0.

(** The code point at [i] and where the next one begins: what follows a high
    surrogate is taken for a low one. *)
Definition utf16_next {T} (src : list Z) (i : nat) : ST T (Z * nat) :=
  c ← rd src i;
  if Z.land c 0xFC00 =? 0xD800 then
    d ← rd src (S i);
    let utf32 := u32 (Z.shiftl (c - 0xD800) 10) in
    let utf32 := Z.lor utf32 (u32 (d - 0xDC00)) in
    mret (u32 (utf32 + 0x10000), S (S i))
  else mret (c, S i).

Fixpoint utf16_to_utf8_loop (fuel : nat) (src : list Z) (i end_ cur : nat) : UW nat :=
  if decide (i < end_)%nat then
    match fuel with
    | O => fail Fuel
    | S fuel' =>
        r ← utf16_next src i;
        let len := utf32_codepoint_utf8_length r.1 in
        utf32_codepoint_to_utf8 cur r.1 len ;;
        utf16_to_utf8_loop fuel' src r.2 end_ (cur + len)
    end
  else mret cur.

Definition utf16_to_utf8 (src : option (list Z)) (src_len : nat) : UW unit :=
  match src with
  | Some src => if decide (src_len = 0%nat) then mret tt else cur ← utf16_to_utf8_loop src_len src 0 src_len 0; store cur 0
  | None => mret tt
  end.

Fixpoint utf16_to_utf8_length_loop (fuel : nat) (src : list Z) (i end_ ret : nat) : ST unit nat :=
  if decide (i < end_)%nat then
    match fuel with
    | O => fail Fuel
    | S fuel' =>
        c ← rd src i;
        if (Z.land c 0xFC00 =? 0xD800) && bool_decide (S i < end_)%nat then
          d ← rd src (S i);
          if Z.land d 0xFC00 =? 0xDC00 then utf16_to_utf8_length_loop fuel' src (S (S i)) end_ (ret + 4)
          else utf16_to_utf8_length_loop fuel' src (S (S i)) end_ (ret + utf32_codepoint_utf8_length d)
        else utf16_to_utf8_length_loop fuel' src (S i) end_ (ret + utf32_codepoint_utf8_length c)
    end
  else mret ret.

Definition utf16_to_utf8_length (src : option (list Z)) (src_len : nat) : ST unit Z :=
  match src with
  | Some src => if decide (src_len = 0%nat) then mret (-1) else r ← utf16_to_utf8_length_loop src_len src 0 src_len 0; mret (Z.of_nat r)
  | None => mret (-1)
  end.

(** ** UTF-8 *)

(** The inner loop of [utf8_length]; [None] when a byte is not 10xxxxxx. *)
Fixpoint utf8_length_inner (fuel : nat) (first_char : Z) (src : list Z) (cur num_to_read : nat) (mask to_ignore_mask utf32 : Z) :
    ST unit (option (nat * nat * Z * Z * Z)) :=
  if decide (num_to_read < 5)%nat then
    if has_flag first_char mask then
      match fuel with
      | O => fail Fuel
      | S fuel' =>
          b ← rd src cur;
          if negb (Z.land (char_of b) 0xC0 =? 0x80) then mret None
          else
            utf8_length_inner fuel' first_char src (cur + 1) (num_to_read + 1) (Z.shiftr mask 1) (Z.lor to_ignore_mask mask)
              (u32 (Z.shiftl utf32 6 + Z.land (char_of b) 0x3F))
      end
    else mret (Some (cur, num_to_read, mask, to_ignore_mask, utf32))
  else mret (Some (cur, num_to_read, mask, to_ignore_mask, utf32)).

Fixpoint utf8_length_loop (fuel : nat) (src : list Z) (cur ret : nat) : ST unit Z :=
  match fuel with
  | O => fail Fuel
  | S fuel' =>
      b ← rd src cur;
      if b =? 0 then mret (Z.of_nat ret)
      else
        let first_char := char_of b in
        if negb (has_flag first_char 0x80) then utf8_length_loop fuel' src (cur + 1) (ret + 1)
        else if negb (has_flag first_char 0x40) then mret (-1)
        else
          r ← utf8_length_inner 4 first_char src (cur + 1) 1 0x40 0x80 0;
          match r with
          | None => mret (-1)
          | Some (cur, num_to_read, mask, to_ignore_mask, utf32) =>
              if decide (num_to_read = 5%nat) then mret (-1)
              else
                let to_ignore_mask := Z.lor to_ignore_mask mask in
                let utf32 := Z.lor utf32 (u32 (Z.shiftl (Z.land (Z.lnot to_ignore_mask) first_char) (6 * (Z.of_nat num_to_read - 1)))) in
                if utf32 >? kUnicodeMaxCodepoint then mret (-1) else utf8_length_loop fuel' src cur (ret + num_to_read)
          end
  end.
Definition utf8_length (src : list Z) : ST unit Z := utf8_length_loop (S (length src)) src 0 0.

Definition utf8_codepoint_len (ch : Z) : nat :=
  Z.to_nat (Z.land (Z.shiftr 0xe5000000 (Z.land (Z.shiftr ch 3) 0x1e)) 3 + 1).

Definition utf8_shift_and_mask (codePoint byte : Z) : Z := Z.lor (u32 (Z.shiftl codePoint 6)) (Z.land 0x3F byte).

(** How many bytes to skip. *)
Fixpoint skip_loop (fuel : nat) (first_char mask : Z) (num_to_skip : nat) : nat :=
  match fuel with
  | O => num_to_skip
  | S fuel' => if has_flag first_char mask then skip_loop fuel' first_char (Z.shiftr mask 1) (S num_to_skip) else num_to_skip
  end.

Fixpoint utf8_to_utf32_length_loop (fuel : nat) (src : list Z) (cur end_ ret : nat) : ST unit nat :=
  if decide (cur < end_)%nat then
    match fuel with
    | O => fail Fuel
    | S fuel' =>
        b ← rd src cur;
        let first_char := char_of b in
        let num_to_skip := if negb (has_flag first_char 0x80) then 1%nat else skip_loop 8 (u32 first_char) 0x40 1 in
        utf8_to_utf32_length_loop fuel' src (cur + num_to_skip) end_ (S ret)
    end
  else mret ret.

Definition utf8_to_utf32_length (src : option (list Z)) (src_len : nat) : ST unit nat :=
  match src with
  | Some src => if decide (src_len = 0%nat) then mret 0%nat else utf8_to_utf32_length_loop src_len src 0 src_len 0
  | None => mret 0%nat
  end.

Fixpoint utf8_to_utf32_loop (fuel : nat) (src : list Z) (cur end_ cur_utf32 : nat) : UW nat :=
  if decide (cur < end_)%nat then
    match fuel with
    | O => fail Fuel
    | S fuel' =>
        r ← utf32_at_internal src cur;
        store cur_utf32 (u32 r.1) ;;
        utf8_to_utf32_loop fuel' src (cur + r.2) end_ (S cur_utf32)
    end
  else mret cur_utf32.

Definition utf8_to_utf32 (src : option (list Z)) (src_len : nat) : UW unit :=
  match src with
  | Some src =>
      if decide (src_len = 0%nat) then mret tt
      else cur_utf32 ← utf8_to_utf32_loop src_len src 0 src_len 0; store cur_utf32 0
  | None => mret tt
  end.

(** The bytes are [uint8_t] here. *)
Definition utf8_to_utf32_codepoint {T} (src : list Z) (cur length : nat) : ST T Z :=
  match length with
  | 1%nat => rd src cur
  | 2%nat =>
      b0 ← rd src cur; b1 ← rd src (cur + 1);
      mret (utf8_shift_and_mask (Z.land b0 0x1f) b1)
  | 3%nat =>
      b0 ← rd src cur; b1 ← rd src (cur + 1); b2 ← rd src (cur + 2);
      mret (utf8_shift_and_mask (utf8_shift_and_mask (Z.land b0 0x0f) b1) b2)
  | 4%nat =>
      b0 ← rd src cur; b1 ← rd src (cur + 1); b2 ← rd src (cur + 2); b3 ← rd src (cur + 3);
      mret (utf8_shift_and_mask (utf8_shift_and_mask (utf8_shift_and_mask (Z.land b0 0x07) b1) b2) b3)
  | _ => mret 0xffff
  end.

Fixpoint utf8_to_utf16_length_loop (fuel : nat) (u8str : list Z) (u8cur u8end u16measuredLen : nat) : ST unit (nat * nat) :=
  if decide (u8cur < u8end)%nat then
    match fuel with
    | O => fail Fuel
    | S fuel' =>
        b ← rd u8str u8cur;
        let u8charLen := utf8_codepoint_len b in
        codepoint ← utf8_to_utf32_codepoint u8str u8cur u8charLen;
        utf8_to_utf16_length_loop fuel' u8str (u8cur + u8charLen) u8end
          (if codepoint >? 0xFFFF then S (S u16measuredLen) else S u16measuredLen)
    end
  else mret (u8cur, u16measuredLen).

Definition utf8_to_utf16_length (u8str : list Z) (u8len : nat) : ST unit Z :=
  r ← utf8_to_utf16_length_loop u8len u8str 0 u8len 0;
  mret (if decide (r.1 = u8len) then Z.of_nat r.2 else -1).

Fixpoint utf8_to_utf16_loop (fuel : nat) (u8str : list Z) (u8cur u8end u16cur : nat) : UW nat :=
  if decide (u8cur < u8end)%nat then
    match fuel with
    | O => fail Fuel
    | S fuel' =>
        b ← rd u8str u8cur;
        let u8len := utf8_codepoint_len b in
        codepoint ← utf8_to_utf32_codepoint u8str u8cur u8len;
        if codepoint <=? 0xFFFF then
          store u16cur (u16 codepoint) ;;
          utf8_to_utf16_loop fuel' u8str (u8cur + u8len) u8end (S u16cur)
        else
          let codepoint := codepoint - 0x10000 in
          store u16cur (u16 (Z.shiftr codepoint 10 + 0xD800)) ;;
          store (S u16cur) (u16 (Z.land codepoint 0x3FF + 0xDC00)) ;;
          utf8_to_utf16_loop fuel' u8str (u8cur + u8len) u8end (S (S u16cur))
    end
  else mret u16cur.

Definition utf8_to_utf16_no_null_terminator (u8str : list Z) (u8len : nat) : UW nat := utf8_to_utf16_loop u8len u8str 0 u8len 0.

Definition utf8_to_utf16 (u8str : list Z) (u8len : nat) : UW unit :=
  end_ ← utf8_to_utf16_no_null_terminator u8str u8len; store end_ 0.

End chars.
End Unicode.
