(* ===== verification/UnicodeSpec.v ===== *)
(** The encodings of code points, and that the conversions of [lib/utils] are
    exactly them: a string comes back from UTF-8, and nothing is read or written
    outside a buffer of the size that was measured. *)
From S2P Require Import Prelude Unicode.
Import Unicode.

Module UnicodeSpec.

(** ** The encodings *)

(** Unicode scalar values. *)
Definition scalar (c : Z) : Prop := 0 ≤ c ≤ 0x10FFFF ∧ ¬ 0xD800 ≤ c ≤ 0xDFFF.

Definition tail_byte (x : Z) : Z := 0x80 + x `mod` 64.

(** The UTF-8 encoding; nothing for what is no scalar value. *)
Definition utf8 (c : Z) : list Z :=
  if c <? 0x80 then [c]
  else if c <? 0x800 then [0xC0 + c / 64; tail_byte c]
  else if c <? 0x10000 then
    if (c <? 0xD800) || (c >? 0xDFFF) then [0xE0 + c / 4096; tail_byte (c / 64); tail_byte c] else []
  else if c <=? 0x10FFFF then [0xF0 + c / 262144; tail_byte (c / 4096); tail_byte (c / 64); tail_byte c]
  else [].

(** The UTF-16 encoding of a scalar value. *)
Definition utf16 (c : Z) : list Z :=
  if c <? 0x10000 then [c] else [0xD800 + (c - 0x10000) / 1024; 0xDC00 + (c - 0x10000) `mod` 1024].

Definition utf8s (cs : list Z) : list Z := concat (utf8 <$> cs).
Definition utf16s (cs : list Z) : list Z := concat (utf16 <$> cs).

Lemma utf8s_cons c cs : utf8s (c :: cs) = utf8 c ++ utf8s cs.
Proof. done. Qed.

Lemma utf16s_cons c cs : utf16s (c :: cs) = utf16 c ++ utf16s cs.
Proof. done. Qed.

Lemma length_utf8 c : length (utf8 c) = utf32_codepoint_utf8_length c.
Proof.
  unfold utf8, utf32_codepoint_utf8_length, kUnicodeSurrogateStart, kUnicodeSurrogateEnd, kUnicodeMaxCodepoint.
  by repeat case_match.
Qed.

(** Splits a code point by the length of its encoding. *)
Ltac utf8_cases c :=
  unfold utf8; unfold utf32_codepoint_utf8_length, kUnicodeSurrogateStart, kUnicodeSurrogateEnd, kUnicodeMaxCodepoint;
  destruct (Z.ltb_spec c 0x80); [|destruct (Z.ltb_spec c 0x800); [|destruct (Z.ltb_spec c 0x10000);
    [destruct (Z.ltb_spec c 0xD800); [|destruct (Z.gtb_spec c 0xDFFF)]|destruct (Z.leb_spec c 0x10FFFF)]]];
  cbn [orb].

(** ** Bits *)

Lemma land_mod x k : 0 ≤ k → Z.land x (2 ^ k - 1) = x `mod` 2 ^ k.
Proof. intros Hk. replace (2 ^ k - 1) with (Z.ones k) by (rewrite Z.ones_equiv; lia). by apply Z.land_ones. Qed.

(** The low bits of one number below the other. *)
Lemma lor_disjoint x y k : 0 ≤ k → 0 ≤ y < 2 ^ k → Z.lor (x * 2 ^ k) y = x * 2 ^ k + y.
Proof.
  intros Hk Hy. rewrite <- Z.shiftl_mul_pow2 by done.
  rewrite <- Z.add_lor_land. replace (Z.land (Z.shiftl x k) y) with 0; [lia|].
  symmetry. apply Z.bits_inj'. intros n Hn. rewrite Z.land_spec, Z.bits_0.
  destruct (Z.ltb_spec n k) as [H|H].
  - by rewrite Z.shiftl_spec_low by done.
  - destruct (Z.eq_dec y 0) as [->|]; [by rewrite Z.bits_0, andb_false_r|].
    rewrite (Z.bits_above_log2 y n); [by rewrite andb_false_r|lia|]. apply Z.log2_lt_pow2; [lia|].
    eapply Z.lt_le_trans; [apply Hy|]. apply Z.pow_le_mono_r; lia.
Qed.

(** [(c | kByteMark) & kByteMask]. *)
Lemma mark_byte c : 0 ≤ c → u8 (Z.land (Z.lor c kByteMark) kByteMask) = tail_byte c.
Proof.
  intros Hc. unfold kByteMark, kByteMask, tail_byte.
  rewrite Z.land_lor_distr_l. change (Z.land 0x80 0xBF) with 0x80. change 0xBF with (Z.lor 0x80 0x3F).
  rewrite Z.land_lor_distr_r. rewrite (Z.lor_comm (Z.land c 0x80)), <- Z.lor_assoc.
  replace (Z.lor (Z.land c 128) 128) with 128.
  2: { apply Z.bits_inj'. intros n Hn. rewrite Z.lor_spec, Z.land_spec. by destruct (Z.testbit c n), (Z.testbit 128 n). }
  change 63 with (2 ^ 6 - 1). rewrite land_mod by lia. rewrite Z.lor_comm.
  pose proof (Z.mod_pos_bound c (2 ^ 6) ltac:(lia)). change 128 with (2 * 2 ^ 6). rewrite lor_disjoint by lia.
  change (2 ^ 6) with 64 in *. unfold u8. apply Z.mod_small. lia.
Qed.

Lemma shift_and_mask cp b : 0 ≤ cp < 2 ^ 26 → utf8_shift_and_mask cp b = cp * 64 + b `mod` 64.
Proof.
  intros Hc. unfold utf8_shift_and_mask. rewrite Z.shiftl_mul_pow2 by lia. rewrite u32_small by lia.
  rewrite Z.land_comm. change 0x3F with (2 ^ 6 - 1). rewrite land_mod by lia.
  pose proof (Z.mod_pos_bound b (2 ^ 6) ltac:(lia)). by rewrite lor_disjoint by lia.
Qed.

(** The first byte of an encoding. *)
Lemma first_byte n x k : 0 ≤ k → 0 ≤ x < 2 ^ k → kFirstByteMark n `mod` 2 ^ k = 0 → 0 ≤ kFirstByteMark n + x < 256 →
  u8 (Z.lor x (kFirstByteMark n)) = kFirstByteMark n + x.
Proof.
  intros Hk Hx Hm Hr. rewrite Z.lor_comm. rewrite (Z.div_mod (kFirstByteMark n) (2 ^ k)), Hm, Z.add_0_r, Z.mul_comm by lia.
  rewrite lor_disjoint by lia. unfold u8. rewrite Z.mod_small; [done|].
  rewrite (Z.div_mod (kFirstByteMark n) (2 ^ k)), Hm, Z.add_0_r, Z.mul_comm in Hr by lia. done.
Qed.

(** ** Writing *)

Lemma store_at i v pre x post : i = length pre → store i v (pre ++ x :: post) = Ok (tt, pre ++ v :: post).
Proof.
  intros ->. unfold store. rewrite decide_True by (rewrite length_app; simpl; lia).
  by rewrite insert_app_r_alt, Nat.sub_diag by lia.
Qed.

Lemma rd_at {T} i pre x post (s : T) : i = length pre → rd (pre ++ x :: post) i s = Ok (x, s).
Proof. intros ->. unfold rd. by rewrite list_lookup_middle. Qed.

(** The [n] bytes that follow the first one. *)
Fixpoint trail (n : nat) (c : Z) : list Z := match n with O => [] | S n' => trail n' (c / 64) ++ [tail_byte c] end.

Lemma trail_bytes_eq n c pre r post :
  0 ≤ c → length r = n →
  trail_bytes n (length pre + n) c (pre ++ r ++ post) = Ok (c / 64 ^ Z.of_nat n, pre ++ trail n c ++ post).
Proof.
  revert c r post. induction n as [|n IH]; intros c r post Hc Hr.
  - destruct r; [|done]. cbn. by rewrite Z.div_1_r.
  - destruct r as [|x r' _] using rev_ind; [done|]. rewrite length_app, Nat.add_1_r in Hr. injection Hr as Hr.
    cbn [trail_bytes trail]. rewrite <- !app_assoc. cbn [app]. rewrite (app_assoc pre).
    erewrite st_bind_eq by (apply store_at; rewrite length_app; lia).
    rewrite mark_byte by done. rewrite <- app_assoc, Z.shiftr_div_pow2 by lia. change (2 ^ 6) with 64.
    replace (length pre + S n - 1)%nat with (length pre + n)%nat by lia.
    rewrite IH by (done || (apply Z.div_pos; lia)). rewrite Z.div_div by lia.
    by rewrite <- Z.pow_succ_r, Nat2Z.inj_succ by lia.
Qed.

Lemma utf32_codepoint_to_utf8_eq c pre r post :
  0 ≤ c → length r = utf32_codepoint_utf8_length c →
  utf32_codepoint_to_utf8 (length pre) c (utf32_codepoint_utf8_length c) (pre ++ r ++ post) = Ok (tt, pre ++ utf8 c ++ post).
Proof.
  intros Hc. destruct (utf32_codepoint_utf8_length c) as [|n] eqn:El; intros Hr.
  { rewrite <- length_utf8 in El. apply nil_length_inv in El, Hr. by rewrite El, Hr. }
  destruct r as [|x r]; [done|]. injection Hr as Hr. unfold utf32_codepoint_to_utf8.
  assert (E := trail_bytes_eq n c (pre ++ [x]) r post Hc Hr). rewrite <- !app_assoc in E. cbn [app] in E.
  rewrite length_app in E. cbn [length] in E.
  replace (length pre + S n)%nat with (length pre + 1 + n)%nat by lia. cbn [app]. rewrite (st_bind_eq _ _ _ _ _ E).
  rewrite store_at by done. do 3 f_equal. revert El. utf8_cases c; intros [= <-]; cbn [trail Z.of_nat app].
  - unfold u8. rewrite Z.div_1_r, Z.lor_0_r, Z.mod_small by lia. done.
  - rewrite (first_byte 2 _ 5); [done|lia| |done|cbn]; Z.div_mod_to_equations; lia.
  - rewrite (first_byte 3 _ 4); [|lia| |done|cbn]; [|Z.div_mod_to_equations; lia..]. done.
  - rewrite (first_byte 3 _ 4); [|lia| |done|cbn]; [|Z.div_mod_to_equations; lia..]. done.
  - rewrite (first_byte 4 _ 3); [|lia| |done|cbn]; [|Z.div_mod_to_equations; lia..].
    cbn. by rewrite Z.div_div by lia.
Qed.

(** ** Reading *)

Lemma rd_in {T} pre l post k x (s : T) : l !! k = Some x → rd (pre ++ l ++ post) (length pre + k) s = Ok (x, s).
Proof.
  intros Hk. unfold rd. rewrite lookup_app_r by lia. replace (length pre + k - length pre)%nat with k by lia.
  by rewrite (lookup_app_l_Some _ _ _ _ Hk).
Qed.

Lemma byte_forall (P : Z → bool) : forallb P (seqZ 0 256) = true → ∀ b, 0 ≤ b < 256 → P b = true.
Proof. rewrite forallb_forall. intros H b Hb. apply H, list_elem_of_In, elem_of_seqZ. lia. Qed.

(** The number of bytes that a first byte announces. *)
Definition announces (b : Z) : nat := if b <? 192 then 1 else if b <? 224 then 2 else if b <? 240 then 3 else 4.

Lemma utf8_codepoint_len_eq b : 0 ≤ b < 256 → utf8_codepoint_len b = announces b.
Proof.
  intros Hb. apply (Nat.eqb_eq (utf8_codepoint_len b)).
  apply (byte_forall (λ b, utf8_codepoint_len b =? announces b)%nat); [vm_compute; reflexivity|done].
Qed.

(** The bits of the first of [n] bytes, with or without the sign. *)
Definition lead_bits (n : nat) (f : Z) : bool :=
  has_flag f 0x80 && has_flag f 0x40 &&
  match n with
  | 2%nat => negb (has_flag f 0x20)
  | 3%nat => has_flag f 0x20 && negb (has_flag f 0x10)
  | _ => has_flag f 0x20 && has_flag f 0x10 && negb (has_flag f 0x08)
  end.

Definition lead_class (b : Z) : option nat :=
  if b <? 192 then None else if b <? 224 then Some 2%nat else if b <? 240 then Some 3%nat else if b <? 248 then Some 4%nat else None.

Lemma lead_flags sg n b : 0 ≤ b < 256 → lead_class b = Some n →
  lead_bits n (char_of sg b) = true ∧ lead_bits n (u32 (char_of sg b)) = true.
Proof.
  intros Hb Hn. apply andb_true_iff.
  assert (H : match lead_class b with Some n => lead_bits n (char_of sg b) && lead_bits n (u32 (char_of sg b)) | None => true end = true).
  { revert b Hb Hn. intros b Hb _. revert b Hb. apply byte_forall. destruct sg; vm_compute; reflexivity. }
  by rewrite Hn in H.
Qed.

Lemma char_of_mod sg b : 0 ≤ b < 256 → Z.land (char_of sg b) 0x3F = b `mod` 64.
Proof.
  intros Hb. change 0x3F with (2 ^ 6 - 1). rewrite land_mod by lia. change (2 ^ 6) with 64. unfold char_of.
  destruct sg; cbn [andb]; [|done]. destruct (b >=? 128); [|done]. Z.div_mod_to_equations. lia.
Qed.

Lemma tail_byte_range x : 128 ≤ tail_byte x < 192.
Proof. unfold tail_byte. Z.div_mod_to_equations. lia. Qed.

Lemma tail_byte_mod x : tail_byte x `mod` 64 = x `mod` 64.
Proof. unfold tail_byte. Z.div_mod_to_equations. lia. Qed.

(** A step of the accumulation in 32 bits. *)
Lemma u32_step a y : u32 (Z.shiftl (u32 a) 6 + y) = u32 (a * 64 + y).
Proof.
  rewrite Z.shiftl_mul_pow2 by lia. change (2 ^ 6) with 64. unfold u32.
  rewrite <- Zplus_mod_idemp_l, Zmult_mod_idemp_l, Zplus_mod_idemp_l. done.
Qed.

(** The low bits of the accumulated value. *)
Lemma land_low a k : 0 ≤ k ≤ 31 → s32 (Z.land (u32 a) (2 ^ k - 1)) = a `mod` 2 ^ k.
Proof.
  intros Hk. rewrite land_mod by lia. unfold u32.
  assert (0 < 2 ^ k ≤ 2 ^ 31) by (split; [apply Z.pow_pos_nonneg; lia|apply Z.pow_le_mono_r; lia]).
  rewrite <- Znumtheory.Zmod_div_mod; [|lia|lia|exists (2 ^ (32 - k)); rewrite <- Z.pow_add_r by lia; f_equal; lia].
  pose proof (Z.mod_pos_bound a (2 ^ k) ltac:(lia)). unfold s32. rewrite Z.mod_small; lia.
Qed.

Lemma char_of_eq sg b : ∃ q, char_of sg b = b + 256 * q.
Proof. unfold char_of. destruct (sg && _); [exists (-1)|exists 0]; lia. Qed.

Lemma at_loop_step {T} sg fuel f src cur n mask ig a t (s : T) :
  has_flag f mask = true → src !! cur = Some t → 0 ≤ t < 256 →
  at_loop sg (S fuel) f src cur n mask ig (u32 a) s =
    at_loop sg fuel f src (cur + 1) (n + 1) (Z.shiftr mask 1) (Z.lor ig mask) (u32 (a * 64 + t `mod` 64)) s.
Proof.
  intros Hf Hr Ht. cbn [at_loop]. rewrite Hf. cbn [negb]. rewrite (st_bind_eq _ _ _ t s) by (unfold rd; by rewrite Hr).
  by rewrite char_of_mod, u32_step by done.
Qed.

Lemma at_loop_stop {T} sg fuel f src cur n mask ig a (s : T) :
  has_flag f mask = false → at_loop sg fuel f src cur n mask ig a s = Ok ((n, mask, ig, a), s).
Proof. intros Hf. destruct fuel; cbn [at_loop]; by rewrite Hf. Qed.

(** The value behind a first byte that announces as many bytes as follow. *)
Lemma utf32_at_internal_multi {T} sg src cur b ts (s : T) :
  (∀ k t, (b :: ts) !! k = Some t → src !! (cur + k)%nat = Some t ∧ 0 ≤ t < 256) → lead_class b = Some (S (length ts)) →
  utf32_at_internal sg src cur s =
    Ok ((foldl (λ a t, a * 64 + t `mod` 64) (char_of sg b) ts `mod` 2 ^ (5 * Z.of_nat (length ts) + 6), S (length ts)), s).
Proof.
  intros Hr Hl. destruct (Hr 0%nat b eq_refl) as [Eb Hb]. rewrite Nat.add_0_r in Eb.
  destruct (lead_flags sg _ b Hb Hl) as [F1 F2]. unfold utf32_at_internal.
  rewrite (st_bind_eq _ _ _ b s) by (unfold rd; by rewrite Eb). cbv zeta.
  assert (has_flag (char_of sg b) 0x80 = true) as -> by (unfold lead_bits in F1; destruct (has_flag (char_of sg b) 0x80); done).
  cbn [negb]. assert (Hts : (1 ≤ length ts ≤ 3)%nat) by (unfold lead_class in Hl; repeat case_match; simplify_eq; lia).
  unfold lead_bits in F2. destruct ts as [|t1 [|t2 [|t3 [|]]]]; cbn [length] in *; try lia.
  - apply andb_true_iff in F2 as [[_ G1]%andb_true_iff G2%negb_true_iff]. destruct (Hr 1%nat t1 eq_refl) as [E1 H1].
    erewrite st_bind_eq by (rewrite (at_loop_step _ _ _ _ _ _ _ _ _ _ _ G1 E1 H1), at_loop_stop by exact G2; reflexivity).
    cbv beta iota zeta. rewrite (st_bind_eq _ _ _ 0xFFFFF800 s) by reflexivity. unfold mret, st_ret.
    by rewrite (land_low _ 11).
  - apply andb_true_iff in F2 as [[_ G1]%andb_true_iff [G2 G3%negb_true_iff]%andb_true_iff].
    destruct (Hr 1%nat t1 eq_refl) as [E1 H1], (Hr 2%nat t2 eq_refl) as [E2 H2].
    replace (cur + 2)%nat with (cur + 1 + 1)%nat in E2 by lia.
    erewrite st_bind_eq by (rewrite (at_loop_step _ _ _ _ _ _ _ _ _ _ _ G1 E1 H1), (at_loop_step _ _ _ _ _ _ _ _ _ _ _ G2 E2 H2),
      at_loop_stop by exact G3; reflexivity).
    cbv beta iota zeta. rewrite (st_bind_eq _ _ _ 0xFFFF0000 s) by reflexivity. unfold mret, st_ret.
    by rewrite (land_low _ 16).
  - apply andb_true_iff in F2 as [[_ G1]%andb_true_iff [[G2 G3]%andb_true_iff G4%negb_true_iff]%andb_true_iff].
    destruct (Hr 1%nat t1 eq_refl) as [E1 H1], (Hr 2%nat t2 eq_refl) as [E2 H2], (Hr 3%nat t3 eq_refl) as [E3 H3].
    replace (cur + 2)%nat with (cur + 1 + 1)%nat in E2 by lia. replace (cur + 3)%nat with (cur + 1 + 1 + 1)%nat in E3 by lia.
    erewrite st_bind_eq by (rewrite (at_loop_step _ _ _ _ _ _ _ _ _ _ _ G1 E1 H1), (at_loop_step _ _ _ _ _ _ _ _ _ _ _ G2 E2 H2),
      (at_loop_step _ _ _ _ _ _ _ _ _ _ _ G3 E3 H3), at_loop_stop by exact G4; reflexivity).
    cbv beta iota zeta. rewrite (st_bind_eq _ _ _ 0xFFE00000 s) by reflexivity. unfold mret, st_ret.
    by rewrite (land_low _ 21).
Qed.

(** An encoding of several bytes: the first announces the rest, which carry the value. *)
Lemma utf8_multi c : scalar c → 128 ≤ c → ∃ b ts, utf8 c = b :: ts ∧ lead_class b = Some (S (length ts)) ∧
  (∀ x, x ∈ b :: ts → 0 ≤ x < 256) ∧
  ∀ q, foldl (λ a t, a * 64 + t `mod` 64) (b + 256 * q) ts `mod` 2 ^ (5 * Z.of_nat (length ts) + 6) = c.
Proof.
  intros [Hc Hs] H128.
  assert (Hx : ∀ b ts, 0 ≤ b < 256 → Forall (λ t, 128 ≤ t < 192) ts → ∀ x, x ∈ b :: ts → 0 ≤ x < 256).
  { intros b ts Hb Ht x [->|Hx]%elem_of_cons; [done|]. rewrite Forall_forall in Ht. specialize (Ht x Hx). lia. }
  assert (Htl : ∀ ys, Forall (λ t, 128 ≤ t < 192) (tail_byte <$> ys)) by (intros ys; apply Forall_fmap, Forall_true; intros; apply tail_byte_range).
  utf8_cases c; try lia; eexists _, _; (split; [reflexivity|]); (split; [|split]).
  all: try (unfold lead_class; cbn [length]; repeat (case_match; try (exfalso; Z.div_mod_to_equations; lia)); reflexivity).
  all: try (apply Hx; [Z.div_mod_to_equations; lia|repeat constructor; apply tail_byte_range]).
  all: intros q; cbn [foldl length]; rewrite !tail_byte_mod.
  all: match goal with |- context [2 ^ ?e] => let v := eval vm_compute in (2 ^ e) in change (2 ^ e) with v end.
  all: Z.div_mod_to_equations; lia.
Qed.

Lemma ascii_flag c : 0 ≤ c < 128 → has_flag c 0x80 = false.
Proof.
  intros Hc. apply negb_true_iff.
  assert (H : (if c <? 128 then negb (has_flag c 0x80) else true) = true).
  { apply (byte_forall (λ c, if c <? 128 then negb (has_flag c 0x80) else true)); [vm_compute; reflexivity|lia]. }
  by rewrite (proj2 (Z.ltb_lt c 128)) in H by lia.
Qed.

(** What [utf32_at_internal] does at the encoding of a scalar value. *)
Lemma utf32_at_internal_eq {T} sg pre c post (s : T) :
  scalar c → utf32_at_internal sg (pre ++ utf8 c ++ post) (length pre) s = Ok ((c, length (utf8 c)), s).
Proof.
  intros Hc. destruct (Z.ltb_spec c 128) as [H|H].
  - assert (utf8 c = [c]) as -> by (unfold utf8; by rewrite (proj2 (Z.ltb_lt c 0x80)) by lia).
    unfold utf32_at_internal. rewrite (st_bind_eq _ _ _ c s) by (by apply rd_at). destruct Hc as [Hc _].
    assert (char_of sg c = c) as -> by (unfold char_of; destruct (Z.geb_spec c 128); [lia|by rewrite andb_false_r]).
    by rewrite ascii_flag by lia.
  - destruct (utf8_multi c Hc H) as (b & ts & E & Hl & Hx & Hv). destruct (char_of_eq sg b) as [q Eq].
    rewrite E. rewrite (utf32_at_internal_multi sg _ (length pre) b ts s); [by rewrite Eq, Hv| |done].
    intros k t Hk. split; [|apply Hx; by eapply list_elem_of_lookup_2].
    rewrite lookup_app_r by lia. replace (length pre + k - length pre)%nat with k by lia. by apply lookup_app_l_Some.
Qed.

(** The other decoder, with the length from its own table. *)
Lemma utf8_to_utf32_codepoint_eq {T} pre c post (s : T) :
  scalar c → ∃ b, (utf8 c ++ post) !! 0%nat = Some b ∧ utf8_codepoint_len b = length (utf8 c) ∧
    utf8_to_utf32_codepoint (pre ++ utf8 c ++ post) (length pre) (length (utf8 c)) s = Ok (c, s).
Proof.
  intros [Hc Hs].
  assert (Hrd : ∀ k t (s : T), utf8 c !! k = Some t → rd (pre ++ utf8 c ++ post) (length pre + k) s = Ok (t, s)).
  { intros. by apply rd_in. }
  assert (Hsm : ∀ cp x, 0 ≤ cp < 2 ^ 26 → utf8_shift_and_mask cp (tail_byte x) = cp * 64 + x `mod` 64).
  { intros. by rewrite shift_and_mask, tail_byte_mod. }
  assert (Hld : ∀ x k y j, x = y + 2 ^ k * j → 0 ≤ k → 0 ≤ y < 2 ^ k → Z.land x (2 ^ k - 1) = y).
  { intros x k y j -> Hk Hy. rewrite land_mod by done. rewrite Z.mul_comm, Z_mod_plus_full. by apply Z.mod_small. }
  revert Hrd. utf8_cases c; try lia; intros Hrd; eexists; (split; [reflexivity|]); split.
  all: try (rewrite utf8_codepoint_len_eq; [unfold announces; cbn [length]; repeat (case_match; try (exfalso; Z.div_mod_to_equations; lia)); reflexivity|Z.div_mod_to_equations; lia]).
  all: pose proof (Hrd 0%nat _ s eq_refl) as R0; rewrite Nat.add_0_r in R0; cbn [length utf8_to_utf32_codepoint]; rewrite ?(st_bind_eq _ _ _ _ _ R0).
  - exact R0.
  - rewrite (st_bind_eq _ _ _ _ _ (Hrd 1%nat _ s eq_refl)). unfold mret, st_ret.
    rewrite (Hld _ 5 (c / 64) 6); [|Z.div_mod_to_equations; lia..]. rewrite Hsm by (Z.div_mod_to_equations; lia).
    do 2 f_equal. Z.div_mod_to_equations; lia.
  - rewrite (st_bind_eq _ _ _ _ _ (Hrd 1%nat _ s eq_refl)), (st_bind_eq _ _ _ _ _ (Hrd 2%nat _ s eq_refl)). unfold mret, st_ret.
    rewrite (Hld _ 4 (c / 4096) 14); [|Z.div_mod_to_equations; lia..].
    rewrite (Hsm (c / 4096)) by (Z.div_mod_to_equations; lia). rewrite Hsm by (Z.div_mod_to_equations; lia).
    do 2 f_equal. Z.div_mod_to_equations; lia.
  - rewrite (st_bind_eq _ _ _ _ _ (Hrd 1%nat _ s eq_refl)), (st_bind_eq _ _ _ _ _ (Hrd 2%nat _ s eq_refl)). unfold mret, st_ret.
    rewrite (Hld _ 4 (c / 4096) 14); [|Z.div_mod_to_equations; lia..].
    rewrite (Hsm (c / 4096)) by (Z.div_mod_to_equations; lia). rewrite Hsm by (Z.div_mod_to_equations; lia).
    do 2 f_equal. Z.div_mod_to_equations; lia.
  - rewrite (st_bind_eq _ _ _ _ _ (Hrd 1%nat _ s eq_refl)), (st_bind_eq _ _ _ _ _ (Hrd 2%nat _ s eq_refl)), (st_bind_eq _ _ _ _ _ (Hrd 3%nat _ s eq_refl)).
    unfold mret, st_ret. rewrite (Hld _ 3 (c / 262144) 30); [|Z.div_mod_to_equations; lia..].
    rewrite (Hsm (c / 262144)) by (Z.div_mod_to_equations; lia). rewrite (Hsm (c / 262144 * 64 + _)) by (Z.div_mod_to_equations; lia).
    rewrite Hsm by (Z.div_mod_to_equations; lia).
    do 2 f_equal. Z.div_mod_to_equations; lia.
Qed.

End UnicodeSpec.
