(* ===== verification/UnicodeRuns.v ===== *)
(** The conversions of whole strings, and the bounds of their buffers. *)
From S2P Require Import Prelude Unicode UnicodeSpec.
Import Unicode UnicodeSpec.

Module UnicodeRuns.

Lemma utf8_nonempty c : scalar c → (1 ≤ length (utf8 c))%nat.
Proof. intros [Hc Hs]. rewrite length_utf8. utf8_cases c; lia. Qed.

Lemma length_utf8s_le cs : Forall scalar cs → (length cs ≤ length (utf8s cs))%nat.
Proof.
  induction 1 as [|c cs Hc _ IH]; [done|]. rewrite utf8s_cons, length_app. pose proof (utf8_nonempty c Hc). simpl. lia.
Qed.

(** Where a loop stands in a string: behind [pre], with [rest] to go. *)
Lemma rd_here {T} pre x rest (s : T) : rd (pre ++ x :: rest) (length pre) s = Ok (x, s).
Proof. by apply rd_at. Qed.

(** A piece of an output that was written. *)
Lemma split_room {A} (r : list A) n m : length r = (n + m)%nat → ∃ r1 r2, r = r1 ++ r2 ∧ length r1 = n ∧ length r2 = m.
Proof. intros H. exists (take n r), (drop n r). rewrite take_drop, length_take, length_drop. split_and!; [done|lia|lia]. Qed.

(** ** From UTF-32 *)

Lemma utf32_to_utf8_length_loop_eq fuel pre cs post ret :
  (length cs ≤ fuel)%nat →
  utf32_to_utf8_length_loop fuel (pre ++ cs ++ post) (length pre) (length pre + length cs) ret tt = Ok ((ret + length (utf8s cs))%nat, tt).
Proof.
  revert fuel pre ret. induction cs as [|c cs IH]; intros fuel pre ret Hf.
  - cbn. rewrite !Nat.add_0_r. destruct fuel; cbn; by rewrite decide_False by lia.
  - destruct fuel as [|fuel]; [simpl in Hf; lia|]. cbn [utf32_to_utf8_length_loop length]. rewrite decide_True by lia.
    cbn [app]. rewrite (st_bind_eq _ _ _ _ _ (rd_here _ _ _ _)).
    specialize (IH fuel (pre ++ [c]) (ret + utf32_codepoint_utf8_length c)%nat). rewrite length_app, <- app_assoc in IH. cbn [length app] in IH.
    replace (S (length pre)) with (length pre + 1)%nat by lia. replace (length pre + S (length cs))%nat with (length pre + 1 + length cs)%nat by lia.
    rewrite IH by (simpl in Hf; lia). rewrite utf8s_cons, length_app, length_utf8. do 2 f_equal. lia.
Qed.

Lemma utf32_to_utf8_loop_eq fuel pre cs post done_ r rest :
  Forall (λ c, 0 ≤ c) cs → (length cs ≤ fuel)%nat → length r = length (utf8s cs) →
  utf32_to_utf8_loop fuel (pre ++ cs ++ post) (length pre) (length pre + length cs) (length done_) (done_ ++ r ++ rest) =
    Ok ((length done_ + length r)%nat, done_ ++ utf8s cs ++ rest).
Proof.
  intros Hcs. revert fuel pre done_ r. induction Hcs as [|c cs Hc _ IH]; intros fuel pre done_ r Hf Hr.
  - destruct r; [|done]. cbn. rewrite !Nat.add_0_r. destruct fuel; cbn; by rewrite decide_False by lia.
  - destruct fuel as [|fuel]; [simpl in Hf; lia|]. cbn [utf32_to_utf8_loop length]. rewrite decide_True by lia.
    cbn [app]. rewrite (st_bind_eq _ _ _ _ _ (rd_here _ _ _ _)). cbv zeta.
    rewrite utf8s_cons, length_app, length_utf8 in Hr. apply split_room in Hr as (r1 & r2 & -> & H1 & H2).
    rewrite <- app_assoc. rewrite (st_bind_eq _ _ _ _ _ (utf32_codepoint_to_utf8_eq c done_ r1 (r2 ++ rest) Hc H1)).
    specialize (IH fuel (pre ++ [c]) (done_ ++ utf8 c) r2). rewrite !length_app, <- !app_assoc, length_utf8 in IH. cbn [length app] in IH.
    replace (S (length pre)) with (length pre + 1)%nat by lia. replace (length pre + S (length cs))%nat with (length pre + 1 + length cs)%nat by lia.
    rewrite IH by (simpl in Hf; lia || done). rewrite utf8s_cons, <- app_assoc, length_app. do 2 f_equal. lia.
Qed.

(** ** To UTF-32 *)

Lemma utf8_to_utf32_loop_eq sg fuel pre cs post done_ r rest :
  Forall scalar cs → (length cs ≤ fuel)%nat → length r = length cs →
  utf8_to_utf32_loop sg fuel (pre ++ utf8s cs ++ post) (length pre) (length pre + length (utf8s cs)) (length done_) (done_ ++ r ++ rest) =
    Ok ((length done_ + length r)%nat, done_ ++ cs ++ rest).
Proof.
  intros Hcs. revert fuel pre done_ r. induction Hcs as [|c cs Hc Hcs IH]; intros fuel pre done_ r Hf Hr.
  - destruct r; [|done]. cbn. rewrite !Nat.add_0_r. destruct fuel; cbn; by rewrite decide_False by lia.
  - destruct r as [|x r]; [done|]. injection Hr as Hr. destruct fuel as [|fuel]; [simpl in Hf; lia|].
    pose proof (utf8_nonempty c Hc). rewrite utf8s_cons, length_app. cbn [utf8_to_utf32_loop]. rewrite decide_True by lia.
    rewrite <- (app_assoc (utf8 c)). rewrite (st_bind_eq _ _ _ _ _ (utf32_at_internal_eq sg pre c _ _ Hc)). cbn [fst snd].
    cbn [app]. rewrite (st_bind_eq _ _ _ _ _ (store_at _ _ done_ x (r ++ rest) eq_refl)).
    rewrite u32_small by (destruct Hc; lia).
    specialize (IH fuel (pre ++ utf8 c) (done_ ++ [c]) r). rewrite !length_app, <- !app_assoc in IH. cbn [length app] in IH.
    rewrite Nat.add_assoc. replace (S (length done_)) with (length done_ + 1)%nat by lia.
    rewrite IH by (simpl in Hf; lia || done). do 2 f_equal. simpl. lia.
Qed.

Lemma skip_eq sg b n : 0 ≤ b < 256 → lead_class b = Some n → skip_loop 8 (u32 (char_of sg b)) 0x40 1 = n.
Proof.
  intros Hb Hn. assert (H : match lead_class b with Some n => Nat.eqb (skip_loop 8 (u32 (char_of sg b)) 0x40 1) n | None => true end = true).
  { revert b Hb Hn. intros b Hb _. revert b Hb. apply byte_forall. destruct sg; vm_compute; reflexivity. }
  rewrite Hn in H. by apply Nat.eqb_eq.
Qed.

(** How far the length function goes at an encoding. *)
Lemma skip_utf8 sg c : scalar c → ∃ b l, utf8 c = b :: l ∧
  (if negb (has_flag (char_of sg b) 0x80) then 1%nat else skip_loop 8 (u32 (char_of sg b)) 0x40 1) = length (utf8 c).
Proof.
  intros Hc. destruct (Z.ltb_spec c 128) as [H|H].
  - exists c, []. assert (utf8 c = [c]) as -> by (unfold utf8; by rewrite (proj2 (Z.ltb_lt c 0x80)) by lia).
    assert (char_of sg c = c) as -> by (unfold char_of; destruct (Z.geb_spec c 128); [lia|by rewrite andb_false_r]).
    destruct Hc as [Hc _]. by rewrite ascii_flag by lia.
  - destruct (utf8_multi c Hc H) as (b & ts & E & Hl & Hx & _). exists b, ts. rewrite E. split; [done|].
    assert (Hb : 0 ≤ b < 256) by (apply Hx; by left). destruct (lead_flags sg _ b Hb Hl) as [F _].
    assert (has_flag (char_of sg b) 0x80 = true) as -> by (unfold lead_bits in F; by destruct (has_flag (char_of sg b) 0x80)).
    by apply skip_eq.
Qed.

Lemma utf8_to_utf32_length_loop_eq sg fuel pre cs post ret :
  Forall scalar cs → (length cs ≤ fuel)%nat →
  utf8_to_utf32_length_loop sg fuel (pre ++ utf8s cs ++ post) (length pre) (length pre + length (utf8s cs)) ret tt =
    Ok ((ret + length cs)%nat, tt).
Proof.
  intros Hcs. revert fuel pre ret. induction Hcs as [|c cs Hc Hcs IH]; intros fuel pre ret Hf.
  - cbn. rewrite !Nat.add_0_r. destruct fuel; cbn; by rewrite decide_False by lia.
  - destruct fuel as [|fuel]; [simpl in Hf; lia|]. pose proof (utf8_nonempty c Hc). rewrite utf8s_cons, length_app.
    cbn [utf8_to_utf32_length_loop]. rewrite decide_True by lia. destruct (skip_utf8 sg c Hc) as (b & l & E & Hsk).
    rewrite <- (app_assoc (utf8 c)). rewrite E at 1. cbn [app]. rewrite (st_bind_eq _ _ _ _ _ (rd_here _ _ _ _)). cbv zeta. rewrite Hsk.
    specialize (IH fuel (pre ++ utf8 c) (S ret)). rewrite !length_app, <- !app_assoc in IH.
    rewrite Nat.add_assoc, IH by (simpl in Hf; lia). do 2 f_equal. simpl. lia.
Qed.

(** ** UTF-16 *)

Lemma land_fc00 x : 0 ≤ x < 65536 → Z.land x 0xFC00 = 1024 * (x / 1024).
Proof.
  intros Hx. change 0xFC00 with (Z.land (2 ^ 16 - 1) (Z.lnot (2 ^ 10 - 1))). rewrite Z.land_assoc, land_mod by lia.
  rewrite (Z.mod_small x) by (change (2 ^ 16) with 65536; lia). by rewrite land_lnot_ones.
Qed.

Lemma utf16_nonempty c : (1 ≤ length (utf16 c))%nat.
Proof. unfold utf16. case_match; simpl; lia. Qed.

Lemma length_utf16s_le cs : (length cs ≤ length (utf16s cs))%nat.
Proof. induction cs as [|c cs IH]; [done|]. rewrite utf16s_cons, length_app. pose proof (utf16_nonempty c). simpl. lia. Qed.

(** A scalar value is one unit that is no surrogate, or a pair of surrogates. *)
Lemma utf16_shape c : scalar c →
  (c < 65536 ∧ utf16 c = [c] ∧ (Z.land c 0xFC00 =? 0xD800) = false) ∨
  (65536 ≤ c ∧ ∃ h l, utf16 c = [0xD800 + h; 0xDC00 + l] ∧ 0 ≤ h < 1024 ∧ 0 ≤ l < 1024 ∧ c = 0x10000 + h * 1024 + l ∧
    (Z.land (0xD800 + h) 0xFC00 =? 0xD800) = true ∧ (Z.land (0xDC00 + l) 0xFC00 =? 0xDC00) = true).
Proof.
  intros [Hc Hs]. unfold utf16. destruct (Z.ltb_spec c 0x10000) as [H|H]; [left|right].
  - split_and!; [done|done|]. rewrite land_fc00 by lia. apply Z.eqb_neq. Z.div_mod_to_equations. lia.
  - split; [done|]. exists ((c - 0x10000) / 1024), ((c - 0x10000) `mod` 1024).
    split_and!; [done|..]; rewrite ?land_fc00; rewrite ?Z.eqb_eq; Z.div_mod_to_equations; lia.
Qed.

Lemma utf16_next_eq {T} pre c post (s : T) :
  scalar c → utf16_next (pre ++ utf16 c ++ post) (length pre) s = Ok ((c, (length pre + length (utf16 c))%nat), s).
Proof.
  intros Hc. destruct (utf16_shape c Hc) as [(H & -> & E)|(H & h & l & -> & Hh & Hl & Ev & E1 & E2)]; unfold utf16_next; cbn [app length].
  - rewrite (st_bind_eq _ _ _ _ _ (rd_here _ _ _ _)). rewrite E. unfold mret, st_ret. do 3 f_equal. lia.
  - rewrite (st_bind_eq _ _ _ _ _ (rd_here _ _ _ _)). rewrite E1.
    rewrite (st_bind_eq _ _ _ (0xDC00 + l) s).
    2: { pose proof (rd_in pre [0xD800 + h; 0xDC00 + l] post 1 _ s eq_refl) as R. by rewrite Nat.add_1_r in R. }
    unfold mret, st_ret. rewrite !Z.add_simpl_l, Z.shiftl_mul_pow2 by lia.
    rewrite (u32_small (h * 2 ^ 10)), (u32_small l) by lia. rewrite lor_disjoint by lia. rewrite u32_small by lia.
    do 3 f_equal; lia.
Qed.

Lemma utf16_to_utf8_loop_eq fuel pre cs post done_ r rest :
  Forall scalar cs → (length cs ≤ fuel)%nat → length r = length (utf8s cs) →
  utf16_to_utf8_loop fuel (pre ++ utf16s cs ++ post) (length pre) (length pre + length (utf16s cs)) (length done_) (done_ ++ r ++ rest) =
    Ok ((length done_ + length r)%nat, done_ ++ utf8s cs ++ rest).
Proof.
  intros Hcs. revert fuel pre done_ r. induction Hcs as [|c cs Hc Hcs IH]; intros fuel pre done_ r Hf Hr.
  - destruct r; [|done]. cbn. rewrite !Nat.add_0_r. destruct fuel; cbn; by rewrite decide_False by lia.
  - destruct fuel as [|fuel]; [simpl in Hf; lia|]. pose proof (utf16_nonempty c). rewrite utf16s_cons, length_app.
    cbn [utf16_to_utf8_loop]. rewrite decide_True by lia. rewrite <- (app_assoc (utf16 c)).
    rewrite (st_bind_eq _ _ _ _ _ (utf16_next_eq pre c _ _ Hc)). cbv zeta. cbn [fst snd].
    rewrite utf8s_cons, length_app, length_utf8 in Hr. apply split_room in Hr as (r1 & r2 & -> & H1 & H2).
    rewrite <- (app_assoc r1). rewrite (st_bind_eq _ _ _ _ _ (utf32_codepoint_to_utf8_eq c done_ r1 (r2 ++ rest) ltac:(apply Hc) H1)).
    specialize (IH fuel (pre ++ utf16 c) (done_ ++ utf8 c) r2). rewrite !length_app, <- !app_assoc, length_utf8 in IH.
    rewrite Nat.add_assoc, IH by (simpl in Hf; lia || done). rewrite utf8s_cons, <- app_assoc, length_app. do 2 f_equal. lia.
Qed.

Lemma utf8_length_of_pair c : 65536 ≤ c → scalar c → length (utf8 c) = 4%nat.
Proof. intros H [Hc _]. rewrite length_utf8. utf8_cases c; lia. Qed.

Lemma utf16_to_utf8_length_loop_eq fuel pre cs post ret :
  Forall scalar cs → (length cs ≤ fuel)%nat →
  utf16_to_utf8_length_loop fuel (pre ++ utf16s cs ++ post) (length pre) (length pre + length (utf16s cs)) ret tt =
    Ok ((ret + length (utf8s cs))%nat, tt).
Proof.
  intros Hcs. revert fuel pre ret. induction Hcs as [|c cs Hc Hcs IH]; intros fuel pre ret Hf.
  - cbn. rewrite !Nat.add_0_r. destruct fuel; cbn; by rewrite decide_False by lia.
  - destruct fuel as [|fuel]; [simpl in Hf; lia|]. pose proof (utf16_nonempty c). rewrite utf16s_cons, length_app.
    cbn [utf16_to_utf8_length_loop]. rewrite decide_True by lia. rewrite <- (app_assoc (utf16 c)).
    specialize (IH fuel (pre ++ utf16 c)). rewrite !length_app, <- !app_assoc in IH. rewrite utf8s_cons, length_app.
    destruct (utf16_shape c Hc) as [(H16 & E & E1)|(H16 & h & l & E & Hh & Hl & Ev & E1 & E2)]; rewrite E in *; cbn [app length] in *.
    + rewrite (st_bind_eq _ _ _ _ _ (rd_here _ _ _ _)), E1. cbn [andb]. rewrite Nat.add_assoc. replace (S (length pre)) with (length pre + 1)%nat by lia.
      rewrite IH by (simpl in Hf; lia). rewrite <- length_utf8. do 2 f_equal. lia.
    + rewrite (st_bind_eq _ _ _ _ _ (rd_here _ _ _ _)), E1. rewrite bool_decide_true by lia. cbn [andb].
      rewrite (st_bind_eq _ _ _ (0xDC00 + l) tt).
      2: { pose proof (rd_in pre [0xD800 + h; 0xDC00 + l] (utf16s cs ++ post) 1 _ tt eq_refl) as R. by rewrite Nat.add_1_r in R. }
      rewrite E2, Nat.add_assoc. replace (S (S (length pre))) with (length pre + 2)%nat by lia.
      rewrite IH by (simpl in Hf; lia). rewrite (utf8_length_of_pair c) by done. do 2 f_equal. lia.
Qed.

Lemma utf8_to_utf16_length_loop_eq fuel pre cs post n :
  Forall scalar cs → (length cs ≤ fuel)%nat →
  utf8_to_utf16_length_loop fuel (pre ++ utf8s cs ++ post) (length pre) (length pre + length (utf8s cs)) n tt =
    Ok (((length pre + length (utf8s cs))%nat, (n + length (utf16s cs))%nat), tt).
Proof.
  intros Hcs. revert fuel pre n. induction Hcs as [|c cs Hc Hcs IH]; intros fuel pre n Hf.
  - cbn. rewrite !Nat.add_0_r. destruct fuel; cbn; by rewrite decide_False by lia.
  - destruct fuel as [|fuel]; [simpl in Hf; lia|]. pose proof (utf8_nonempty c Hc). rewrite utf8s_cons, length_app.
    cbn [utf8_to_utf16_length_loop]. rewrite decide_True by lia. rewrite <- (app_assoc (utf8 c)).
    destruct (utf8_to_utf32_codepoint_eq pre c (utf8s cs ++ post) tt Hc) as (b & E0 & El & Ec).
    rewrite (st_bind_eq _ _ _ b tt).
    2: { unfold rd. rewrite lookup_app_r, Nat.sub_diag by lia. by rewrite E0. }
    cbv zeta. rewrite El, (st_bind_eq _ _ _ _ _ Ec).
    specialize (IH fuel (pre ++ utf8 c)). rewrite !length_app, <- !app_assoc in IH. rewrite Nat.add_assoc, IH by (simpl in Hf; lia).
    rewrite utf16s_cons, length_app. do 3 f_equal. unfold utf16. destruct (Z.gtb_spec c 0xFFFF), (Z.ltb_spec c 0x10000); simpl; lia.
Qed.

Lemma utf8_to_utf16_loop_eq fuel pre cs post done_ r rest :
  Forall scalar cs → (length cs ≤ fuel)%nat → length r = length (utf16s cs) →
  utf8_to_utf16_loop fuel (pre ++ utf8s cs ++ post) (length pre) (length pre + length (utf8s cs)) (length done_) (done_ ++ r ++ rest) =
    Ok ((length done_ + length r)%nat, done_ ++ utf16s cs ++ rest).
Proof.
  intros Hcs. revert fuel pre done_ r. induction Hcs as [|c cs Hc Hcs IH]; intros fuel pre done_ r Hf Hr.
  - destruct r; [|done]. cbn. rewrite !Nat.add_0_r. destruct fuel; cbn; by rewrite decide_False by lia.
  - destruct fuel as [|fuel]; [simpl in Hf; lia|]. pose proof (utf8_nonempty c Hc). rewrite utf8s_cons, length_app.
    cbn [utf8_to_utf16_loop]. rewrite decide_True by lia. rewrite <- (app_assoc (utf8 c)).
    destruct (utf8_to_utf32_codepoint_eq pre c (utf8s cs ++ post) (done_ ++ r ++ rest) Hc) as (b & E0 & El & Ec).
    rewrite (st_bind_eq _ _ _ b (done_ ++ r ++ rest)).
    2: { unfold rd. rewrite lookup_app_r, Nat.sub_diag by lia. by rewrite E0. }
    cbv zeta. rewrite El, (st_bind_eq _ _ _ _ _ Ec). rewrite utf16s_cons, length_app in Hr.
    specialize (IH fuel (pre ++ utf8 c)). rewrite !length_app, <- !app_assoc in IH. rewrite Nat.add_assoc.
    destruct (utf16_shape c Hc) as [(H16 & E & _)|(H16 & h & l & E & Hh & Hl & Ev & _)]; rewrite utf16s_cons, E in *; cbn [length] in Hr.
    + destruct r as [|x r]; [done|]. injection Hr as Hr. cbn [app]. rewrite (proj2 (Z.leb_le c 0xFFFF)) by lia.
      rewrite (st_bind_eq _ _ _ _ _ (store_at _ _ done_ x (r ++ rest) eq_refl)).
      assert (u16 c = c) as -> by (apply Z.mod_small; destruct Hc; lia).
      specialize (IH (done_ ++ [c]) r). rewrite !length_app, <- !app_assoc in IH. cbn [length app] in IH.
      replace (S (length done_)) with (length done_ + 1)%nat by lia. rewrite IH by (simpl in Hf; lia || done). do 2 f_equal. simpl. lia.
    + destruct r as [|x [|y r]]; [done|done|]. injection Hr as Hr. cbn [app].
      destruct (Z.leb_spec c 0xFFFF); [lia|].
      assert (u16 (Z.shiftr (c - 0x10000) 10 + 0xD800) = 0xD800 + h) as ->.
      { rewrite Z.shiftr_div_pow2 by lia. change (2 ^ 10) with 1024. unfold u16. rewrite Z.mod_small; Z.div_mod_to_equations; lia. }
      assert (u16 (Z.land (c - 0x10000) 0x3FF + 0xDC00) = 0xDC00 + l) as ->.
      { change 0x3FF with (2 ^ 10 - 1). rewrite land_mod by lia. change (2 ^ 10) with 1024. unfold u16. rewrite Z.mod_small; Z.div_mod_to_equations; lia. }
      rewrite (st_bind_eq _ _ _ _ _ (store_at _ _ done_ x (y :: r ++ rest) eq_refl)).
      erewrite st_bind_eq by (rewrite cons_middle, app_assoc; apply store_at; rewrite length_app; simpl; lia).
      specialize (IH (done_ ++ [0xD800 + h; 0xDC00 + l]) r). rewrite !length_app, <- !app_assoc in IH. cbn [length app] in IH.
      rewrite <- app_assoc. cbn [app].
      replace (S (S (length done_))) with (length done_ + 2)%nat by lia. rewrite IH by (simpl in Hf; lia || done). do 2 f_equal. simpl. lia.
Qed.

(** ** Any bytes *)

Definition bytes (l : list Z) : Prop := Forall (λ b, 0 ≤ b < 256) l.

Lemma rd_ok {T} src i x (s s' : T) : rd src i s = Ok (x, s') ↔ src !! i = Some x ∧ s' = s.
Proof.
  unfold rd, the. destruct (src !! i); [|by split; [|intros [? _]]]. unfold mret, st_ret.
  split; [by intros [= -> ->]|by intros [[= ->] ->]].
Qed.

Lemma rd_take {T} src end_ i x (s : T) : src !! i = Some x → (i < end_)%nat → rd (take end_ src) i s = Ok (x, s).
Proof. intros Hi Hlt. apply rd_ok. by rewrite lookup_take_lt. Qed.

(** A code point that was read in one state is read in any, and needs only its own bytes. *)
Lemma codepoint_take {T T'} src cur n cp end_ (s s' : T) (s2 : T') :
  utf8_to_utf32_codepoint src cur n s = Ok (cp, s') → (1 ≤ n ≤ 4)%nat → (cur + n ≤ end_)%nat →
  utf8_to_utf32_codepoint (take end_ src) cur n s2 = Ok (cp, s2).
Proof.
  intros E Hn Hend. destruct n as [|[|[|[|[|]]]]]; try lia; cbn [utf8_to_utf32_codepoint] in *.
  1: apply rd_ok in E as [E ->]; apply rd_take; [done|lia].
  all: repeat match goal with
    | H : (rd _ _ ≫= _) _ = Ok _ |- _ => apply st_bind_ok in H as (? & ? & [? ->]%rd_ok & H)
    end; injection E as <- _.
  all: repeat match goal with
    | H : ?l !! ?i = Some ?x |- (rd (take ?e ?l) ?i ≫= _) ?s = _ =>
        rewrite (st_bind_eq _ _ _ _ _ (rd_take l e i x s H ltac:(lia)))
    end; done.
Qed.

Lemma utf8_codepoint_len_range b : 0 ≤ b < 256 → (1 ≤ utf8_codepoint_len b ≤ 4)%nat.
Proof. intros Hb. rewrite utf8_codepoint_len_eq by done. unfold announces. repeat case_match; lia. Qed.

(** What was measured is what is written, and nothing behind the bytes is read. *)
Lemma measured_loop fuel src cur end_ n n' :
  bytes src → utf8_to_utf16_length_loop fuel src cur end_ n tt = Ok ((end_, n'), tt) →
  (n ≤ n')%nat ∧ (cur ≤ end_)%nat ∧
  ∀ dst, (n' ≤ length dst)%nat →
    ∃ dst', utf8_to_utf16_loop fuel (take end_ src) cur end_ n dst = Ok (n', dst') ∧ length dst' = length dst.
Proof.
  intros Hb. assert (Hmono : ∀ fuel cur n e m, utf8_to_utf16_length_loop fuel src cur end_ n tt = Ok ((e, m), tt) → (cur ≤ e ∧ n ≤ m)%nat).
  { clear fuel cur n n'. induction fuel as [|fuel IH]; intros cur n e m; cbn [utf8_to_utf16_length_loop]; (destruct (decide _) as [Hlt|Hge]; [|by intros [= -> ->]]); [done|].
    intros (b & [] & _ & H)%st_bind_ok. apply st_bind_ok in H as (cp & [] & _ & H). apply IH in H. destruct (cp >? _); lia. }
  revert cur n. induction fuel as [|fuel IH]; intros cur n E; pose proof (Hmono _ _ _ _ _ E) as [M1 M2];
    (split; [done|]); (split; [done|]); intros dst Hd; cbn [utf8_to_utf16_length_loop utf8_to_utf16_loop] in *;
    (destruct (decide _) as [Hlt|Hge]; [|injection E as _ ->; by exists dst]); [done|].
  apply st_bind_ok in E as (b & [] & [Eb _]%rd_ok & E). apply st_bind_ok in E as (cp & [] & Ecp & E).
  assert (Hrange : (1 ≤ utf8_codepoint_len b ≤ 4)%nat) by (apply utf8_codepoint_len_range; apply (Forall_lookup_1 _ _ _ _ Hb Eb)).
  destruct (Hmono _ _ _ _ _ E) as [M3 M4].
  rewrite (st_bind_eq _ _ _ _ _ (rd_take _ _ _ _ dst Eb Hlt)). cbv zeta.
  rewrite (st_bind_eq _ _ _ _ _ (codepoint_take _ _ _ _ end_ _ _ dst Ecp Hrange M3)).
  destruct (IH _ _ E) as (_ & _ & Hw). destruct (Z.gtb_spec cp 0xFFFF) as [Hbig|Hsmall].
  - rewrite (proj2 (Z.leb_gt cp 0xFFFF)) by lia.
    rewrite (st_bind_eq _ _ _ tt (<[n := u16 (Z.shiftr (cp - 0x10000) 10 + 0xD800)]> dst)) by (unfold store; by rewrite decide_True by lia).
    erewrite st_bind_eq by (unfold store; rewrite decide_True by (rewrite length_insert; lia); reflexivity).
    edestruct Hw as (dst' & E' & L'); [|exists dst'; split; [exact E'|by rewrite L', !length_insert]].
    rewrite !length_insert. lia.
  - rewrite (proj2 (Z.leb_le cp 0xFFFF)) by lia.
    rewrite (st_bind_eq _ _ _ tt (<[n := u16 cp]> dst)) by (unfold store; by rewrite decide_True by lia).
    edestruct Hw as (dst' & E' & L'); [|exists dst'; split; [exact E'|by rewrite L', length_insert]].
    rewrite length_insert. lia.
Qed.

(** ** The theorems *)

Lemma writes_all cs post r8 :
  cs ≠ [] → Forall scalar cs → length r8 = S (length (utf8s cs)) →
  utf16_to_utf8 (Some (utf16s cs ++ post)) (length (utf16s cs)) r8 = Ok (tt, utf8s cs ++ [0]) ∧
  utf32_to_utf8 (Some (cs ++ post)) (length cs) r8 = Ok (tt, utf8s cs ++ [0]).
Proof.
  intros Hne Hcs Hr. rewrite <- Nat.add_1_r in Hr. apply split_room in Hr as (r1 & r2 & -> & H1 & H2). destruct r2 as [|x [|]]; try done.
  pose proof (length_utf16s_le cs). destruct cs as [|c cs]; [done|]. split.
  - unfold utf16_to_utf8. rewrite decide_False by (simpl in *; lia).
    pose proof (utf16_to_utf8_loop_eq (length (utf16s (c :: cs))) [] (c :: cs) post [] r1 [x] Hcs ltac:(done) H1) as E.
    cbn [app length Nat.add] in E. rewrite (st_bind_eq _ _ _ _ _ E). apply store_at. done.
  - unfold utf32_to_utf8. rewrite decide_False by done.
    pose proof (utf32_to_utf8_loop_eq (length (c :: cs)) [] (c :: cs) post [] r1 [x]) as E.
    cbn [app length Nat.add] in *. rewrite (st_bind_eq _ _ _ (length r1) (utf8s (c :: cs) ++ [x])); [by apply store_at|].
    apply E; [|done|done]. eapply Forall_impl; [exact Hcs|]. intros d [Hd _]. lia.
Qed.

(** C36: A UTF-16 string of scalar values, not empty and with a UTF-8 form below
    2^31 bytes, so that [ssize_t] holds its size, is measured exactly, its UTF-8 form is
    written to a buffer of that size and a NUL, and converting that back gives the
    string again, in a buffer of the size that is measured then. *)
Theorem utf16_roundtrip cs post16 post8 r8 r16 :
  cs ≠ [] → Forall scalar cs → length r8 = S (length (utf8s cs)) → length r16 = S (length (utf16s cs)) →
  utf16_to_utf8_length (Some (utf16s cs ++ post16)) (length (utf16s cs)) tt = Ok (Z.of_nat (length (utf8s cs)), tt) ∧
  utf16_to_utf8 (Some (utf16s cs ++ post16)) (length (utf16s cs)) r8 = Ok (tt, utf8s cs ++ [0]) ∧
  utf8_to_utf16_length (utf8s cs ++ post8) (length (utf8s cs)) tt = Ok (Z.of_nat (length (utf16s cs)), tt) ∧
  utf8_to_utf16 (utf8s cs ++ post8) (length (utf8s cs)) r16 = Ok (tt, utf16s cs ++ [0]).
Proof.
  intros Hne Hcs H8 H16. pose proof (length_utf16s_le cs). pose proof (length_utf8s_le cs Hcs).
  assert (0 < length cs)%nat by (destruct cs; [done|simpl; lia]). split_and!.
  - unfold utf16_to_utf8_length. rewrite decide_False by lia.
    pose proof (utf16_to_utf8_length_loop_eq (length (utf16s cs)) [] cs post16 0 Hcs ltac:(done)) as E. cbn [app length Nat.add] in E.
    by rewrite (st_bind_eq _ _ _ _ _ E).
  - by apply writes_all.
  - unfold utf8_to_utf16_length. pose proof (utf8_to_utf16_length_loop_eq (length (utf8s cs)) [] cs post8 0 Hcs ltac:(done)) as E. cbn [app length Nat.add] in E.
    rewrite (st_bind_eq _ _ _ _ _ E).
    cbn [fst snd length Nat.add]. by rewrite decide_True.
  - rewrite <- Nat.add_1_r in H16. apply split_room in H16 as (r1 & r2 & -> & L1 & L2). destruct r2 as [|x [|]]; try done.
    unfold utf8_to_utf16, utf8_to_utf16_no_null_terminator.
    pose proof (utf8_to_utf16_loop_eq (length (utf8s cs)) [] cs post8 [] r1 [x] Hcs ltac:(done) L1) as E. cbn [app length Nat.add] in E.
    rewrite (st_bind_eq _ _ _ _ _ E). by apply store_at.
Qed.

(** A UTF-32 string of scalar values is measured exactly, written as UTF-8 to
    a buffer of that size and a NUL, and read back as it was; [char] may have a
    sign or not. *)
Theorem utf32_roundtrip sg cs post32 post8 r8 r32 :
  cs ≠ [] → Forall scalar cs → length r8 = S (length (utf8s cs)) → length r32 = S (length cs) →
  utf32_to_utf8_length (Some (cs ++ post32)) (length cs) tt = Ok (Z.of_nat (length (utf8s cs)), tt) ∧
  utf32_to_utf8 (Some (cs ++ post32)) (length cs) r8 = Ok (tt, utf8s cs ++ [0]) ∧
  utf8_to_utf32_length sg (Some (utf8s cs ++ post8)) (length (utf8s cs)) tt = Ok (length cs, tt) ∧
  utf8_to_utf32 sg (Some (utf8s cs ++ post8)) (length (utf8s cs)) r32 = Ok (tt, cs ++ [0]).
Proof.
  intros Hne Hcs H8 H32. pose proof (length_utf8s_le cs Hcs). assert (0 < length cs)%nat by (destruct cs; [done|simpl; lia]). split_and!.
  - unfold utf32_to_utf8_length. rewrite decide_False by lia.
    pose proof (utf32_to_utf8_length_loop_eq (length cs) [] cs post32 0 ltac:(done)) as E. cbn [app length Nat.add] in E.
    by rewrite (st_bind_eq _ _ _ _ _ E).
  - by apply writes_all.
  - unfold utf8_to_utf32_length. rewrite decide_False by lia. pose proof (utf8_to_utf32_length_loop_eq sg (length (utf8s cs)) [] cs post8 0 Hcs ltac:(done)) as E. cbn [app length Nat.add] in E.
    by rewrite E.
  - rewrite <- Nat.add_1_r in H32. apply split_room in H32 as (r1 & r2 & -> & L1 & L2). destruct r2 as [|x [|]]; try done.
    unfold utf8_to_utf32. rewrite decide_False by lia.
    pose proof (utf8_to_utf32_loop_eq sg (length (utf8s cs)) [] cs post8 [] r1 [x] Hcs ltac:(done) L1) as E. cbn [app length Nat.add] in E.
    rewrite (st_bind_eq _ _ _ _ _ E). by apply store_at.
Qed.

(** C37: Whatever bytes a string consists of: if [utf8_to_utf16_length] accepts it,
    [utf8_to_utf16] writes just the units it measured and a NUL, and reads nothing
    behind the string. *)
Theorem utf8_to_utf16_in_bounds src u8len n dst :
  bytes src → utf8_to_utf16_length src u8len tt = Ok (n, tt) → 0 ≤ n → Z.of_nat (length dst) = n + 1 →
  ∃ out, utf8_to_utf16 (take u8len src) u8len dst = Ok (tt, out) ∧ length out = length dst.
Proof.
  intros Hb E Hn Hd. apply st_bind_ok in E as ([e m] & [] & E & [= Em]). cbn [fst snd] in Em.
  case_decide as He; [|lia]. subst e. destruct (measured_loop _ _ _ _ _ _ Hb E) as (_ & _ & Hw).
  destruct (Hw dst ltac:(lia)) as (d1 & E1 & L1). unfold utf8_to_utf16, utf8_to_utf16_no_null_terminator.
  rewrite (st_bind_eq _ _ _ _ _ E1). unfold store. rewrite decide_True by lia. eexists. split; [done|]. by rewrite length_insert.
Qed.

(** ** Concrete strings *)

Module UnicodeDemo.

(** A, e with an accent, a Chinese character and a smiling face. *)
Definition text : list Z := [0x41; 0xE9; 0x4E2D; 0x1F600].

Lemma text_scalar : Forall scalar text.
Proof. repeat constructor; lia. Qed.

Lemma utf16_roundtrip_witness :
  utf8s text = [0x41; 0xC3; 0xA9; 0xE4; 0xB8; 0xAD; 0xF0; 0x9F; 0x98; 0x80] ∧ utf16s text = [0x41; 0xE9; 0x4E2D; 0xD83D; 0xDE00] ∧
  utf8_to_utf16 (utf8s text ++ []) (length (utf8s text)) [9; 9; 9; 9; 9; 9] = Ok (tt, utf16s text ++ [0]).
Proof.
  split_and!; [reflexivity|reflexivity|].
  apply (utf16_roundtrip text [] [] (replicate 11 9) [9; 9; 9; 9; 9; 9]); [done|apply text_scalar|reflexivity|reflexivity].
Defined.

Lemma utf32_roundtrip_witness :
  utf8_to_utf32 true (Some (utf8s text ++ [])) (length (utf8s text)) [9; 9; 9; 9; 9] = Ok (tt, text ++ [0]).
Proof. apply (utf32_roundtrip true text [] [] (replicate 11 9) [9; 9; 9; 9; 9]); [done|apply text_scalar|reflexivity|reflexivity]. Defined.

(** Bytes that are no UTF-8. *)
Definition rubbish : list Z := [0xFF; 0x41; 0x42; 0x43; 0x80; 0xC0; 0x41; 7].

Lemma utf8_to_utf16_in_bounds_witness :
  utf8_to_utf16_length rubbish 7 tt = Ok (4, tt) ∧
  ∃ out, utf8_to_utf16 (take 7 rubbish) 7 [0; 0; 0; 0; 0] = Ok (tt, out) ∧ length out = 5%nat.
Proof.
  split; [reflexivity|]. apply (utf8_to_utf16_in_bounds rubbish 7 4 [0; 0; 0; 0; 0]); [repeat constructor; lia|reflexivity|lia|reflexivity].
Defined.

(** A high surrogate that is not followed by a low one is measured as one byte
    and written as three; at the end of a string, what is behind it is taken too. *)
Lemma unpaired_surrogate_overflows :
  utf16_to_utf8_length (Some [0xD800; 0x41; 0]) 2 tt = Ok (1, tt) ∧
  utf16_to_utf8 (Some [0xD800; 0x41; 0]) 2 [0; 0] = Oops Bad_access ∧
  utf16_to_utf8 (Some [0x41; 0xD800]) 2 (replicate 9 0) = Oops Bad_access.
Proof. split_and!; vm_compute; reflexivity. Qed.

(** [strncpy16] keeps 8 bits of a character, and writes one unit more than it was told. *)
Lemma strncpy16_truncates :
  strncpy16 true [0x4E2D; 0x6587; 0] 2 [9; 9; 9] = Ok (tt, [0x2D; 0xFF87; 0]) ∧
  strncpy16 true [0x41; 0x42; 0] 2 [9; 9] = Oops Bad_access.
Proof. split_and!; vm_compute; reflexivity. Qed.

(** Where [char] has a sign, [utf8_length] refuses every string that is not ASCII. *)
Lemma utf8_length_needs_unsigned_char :
  utf8_length false (utf8s text ++ [0]) tt = Ok (10, tt) ∧ utf8_length true (utf8s text ++ [0]) tt = Ok (-1, tt) ∧
  utf8_length true (utf8 0xE9 ++ [0]) tt = Ok (-1, tt).
Proof. split_and!; vm_compute; reflexivity. Qed.

(** A sequence that is cut off is read beyond the end before it is refused. *)
Lemma truncated_sequence_reads_on :
  utf8_to_utf16_length [0xE2; 0x82] 2 tt = Oops Bad_access ∧ utf8_to_utf16_length [0xE2; 0x82; 0xAC] 2 tt = Ok (-1, tt).
Proof. split_and!; vm_compute; reflexivity. Qed.

End UnicodeDemo.
End UnicodeRuns.
