(* ===== verification/VectorImpl.v ===== *)
(** Vectors that share their storage until one of them is edited,
    [lib/utils/VectorImpl.cpp], over the counted blocks of
    [lib/utils/SharedBuffer.cpp] and the object lifetimes of
    [include/utils/TypeHelpers.h].  A cell of a block is raw memory or holds an
    object; making an object where there is one, destroying what is none, reading
    raw memory and freeing a block with objects in it are the outcome [Bug].
    [ALOG_ASSERT] is compiled out, as in the default build. *)
From S2P Require Import Prelude.

Module Vectors.

Definition NO_ERROR : Z := 0.
Definition NO_MEMORY : Z := -12.
Definition BAD_VALUE : Z := -22.
Definition BAD_INDEX : Z := -75.
Definition NAME_NOT_FOUND : Z := -2.
Definition kMinVectorCapacity : Z := 4.

Section vectors.
Context {A : Type}.

(** The cells behind a [SharedBuffer], and its header. *)
Notation cells := (list (option A)).
Record buffer : Type := mk_buffer { mRefs : Z; mSize : Z; b_cells : cells }.

(** A [VectorImpl]: its storage by address, 0 is NULL. *)
Record vec : Type := mk_vec { mStorage : Z; mCount : Z }.

(** The blocks and the vectors of a program. *)
Record store : Type := mk_store { s_bufs : gmap Z buffer; s_vecs : gmap Z vec }.

#[export] Instance eta_buffer : Eta buffer := λ b, mk_buffer (mRefs b) (mSize b) (b_cells b).
#[export] Instance field_refs : Field mRefs := ltac:(derive_field).
#[export] Instance field_cells : Field b_cells := ltac:(derive_field).
#[export] Instance eta_vec : Eta vec := λ v, mk_vec (mStorage v) (mCount v).
#[export] Instance field_storage : Field mStorage := ltac:(derive_field).
#[export] Instance field_count : Field mCount := ltac:(derive_field).
#[export] Instance eta_store : Eta store := λ s, mk_store (s_bufs s) (s_vecs s).
#[export] Instance field_bufs : Field s_bufs := ltac:(derive_field).
#[export] Instance field_vecs : Field s_vecs := ltac:(derive_field).

Notation VM := (ST store).
Notation CM := (ST cells).

(** [malloc] by the blocks there are and the size that is asked for, 0 is NULL;
    [sizeof] the items; the value of an item that was made without arguments; the
    traits of the type of the items, of which the flags of the vector are made. *)
Context (malloc : gmap Z buffer → Z → Z) (itemSize : Z) (dflt : A).
Context (trivial_ctor trivial_dtor trivial_copy trivial_move : bool).

(** ** Objects in the cells of a block *)

Definition read_cell (i : nat) : CM A :=
  λ cs, match cs !! i with Some (Some x) => Ok (x, cs) | Some None => Oops Bug | None => Oops Bad_access end.

Definition construct_cell (i : nat) (x : A) : CM unit :=
  λ cs, match cs !! i with
        | Some c => if trivial_dtor || bool_decide (is_Some c → False) then Ok (tt, <[i := Some x]> cs) else Oops Bug
        | None => Oops Bad_access
        end.

Definition destroy_cell (i : nat) : CM unit :=
  if trivial_dtor then mret tt else read_cell i ;; modify (λ cs, <[i := None]> cs).

Fixpoint read_cells (i n : nat) : CM (list A) :=
  match n with O => mret [] | S n' => x ← read_cell i; xs ← read_cells (S i) n'; mret (x :: xs) end.

Fixpoint construct_cells (i : nat) (xs : list A) : CM unit :=
  match xs with [] => mret tt | x :: xs' => construct_cell i x ;; construct_cells (S i) xs' end.

Fixpoint destroy_cells (i n : nat) : CM unit :=
  match n with O => mret tt | S n' => destroy_cell i ;; destroy_cells (S i) n' end.

(** Memory that is taken away is raw, without a call of the destructor. *)
Definition abandon_cells (i n : nat) : CM unit :=
  if trivial_dtor then mret tt else modify (λ cs, take i cs ++ replicate n None ++ drop (i + n) cs).

Definition memmove_cells (d s n : nat) : CM unit := xs ← read_cells s n; abandon_cells s n ;; construct_cells d xs.

Definition move_cell (d s : nat) : CM unit := x ← read_cell s; construct_cell d x ;; destroy_cell s.

(** [move_forward_type]: the last item first. *)
Fixpoint move_forward_loop (d s n : nat) : CM unit :=
  match n with O => mret tt | S n' => move_cell (d + n') (s + n') ;; move_forward_loop d s n' end.
Definition move_forward_type (d s n : nat) : CM unit :=
  if trivial_dtor && trivial_copy || trivial_move then memmove_cells d s n else move_forward_loop d s n.

(** [move_backward_type]: the first item first. *)
Fixpoint move_backward_loop (d s n : nat) : CM unit :=
  match n with O => mret tt | S n' => move_cell d s ;; move_backward_loop (S d) (S s) n' end.
Definition move_backward_type (d s n : nat) : CM unit :=
  if trivial_dtor && trivial_copy || trivial_move then memmove_cells d s n else move_backward_loop d s n.

(** [_do_construct]: without a constructor the items are what was there. *)
Fixpoint construct_default (i n : nat) : CM unit :=
  match n with
  | O => mret tt
  | S n' =>
      (if trivial_ctor then λ cs, match cs !! i with
         | Some (Some _) => Ok (tt, cs) | Some None => Ok (tt, <[i := Some dflt]> cs) | None => Oops Bad_access end
       else construct_cell i dflt) ;;
      construct_default (S i) n'
  end.

(** ** [SharedBuffer] *)

Definition buf (b : Z) : VM buffer := gets (λ s, s_bufs s !! b) ≫= the Null_deref.
Definition set_buf (b : Z) (f : buffer → buffer) : VM unit := x ← buf b; modify (λ s, s <| s_bufs %= <[b := f x]> |>).

(** Runs on the cells of a block. *)
Definition in_buffer {B} (b : Z) (m : CM B) : VM B :=
  λ s, match s_bufs s !! b with
       | Some x => match m (b_cells x) with
                   | Ok (r, cs) => Ok (r, s <| s_bufs %= <[b := x <| b_cells := cs |>]> |>)
                   | Oops o => Oops o
                   end
       | None => Oops Null_deref
       end.

Definition new_cells (size : Z) : cells := replicate (Z.to_nat (size / itemSize)) None.

(** The header in front of the cells: [mRefs], [mSize] and two reserved words. *)
Definition sizeof_SharedBuffer : Z := 16.
(** What is asked of [malloc] for a block of [size] bytes, a [size_t]. *)
Definition block_bytes (size : Z) : Z := u32 (sizeof_SharedBuffer + size).

(** A sum that wraps around leaves no room for the header that is written then. *)
Definition SharedBuffer_alloc (size : Z) : VM Z :=
  h ← gets s_bufs;
  let sb := malloc h (block_bytes size) in
  if sb =? 0 then mret 0
  else if block_bytes size <? sizeof_SharedBuffer then fail Bad_access
  else modify (λ s, s <| s_bufs %= <[sb := mk_buffer 1 size (new_cells size)]> |>) ;; mret sb.

(** [free] of a block in which no objects are left. *)
Definition free_buffer (b : Z) : VM unit :=
  x ← buf b;
  bug_on (negb (trivial_dtor || forallb (λ c, match c with None => true | _ => false end) (b_cells x))) ;;
  modify (λ s, s <| s_bufs %= delete b |>).

Definition onlyOwner (b : Z) : VM bool := x ← buf b; mret (mRefs x =? 1).

Definition acquire (b : Z) : VM unit := set_buf b (λ x, x <| mRefs %= Z.succ |>).

Definition release (b : Z) (eKeepStorage : bool) : VM Z :=
  x ← buf b;
  let prev := if mRefs x =? 1 then 1 else mRefs x in
  set_buf b (λ x, x <| mRefs := if mRefs x =? 1 then 0 else mRefs x - 1 |>) ;;
  when ((prev =? 1) && negb eKeepStorage) (free_buffer b) ;;
  mret prev.

Definition dealloc_buffer (b : Z) : VM unit := x ← buf b; if negb (mRefs x =? 0) then mret tt else free_buffer b.

(** The cells of a block of another size. *)
Definition resize_cells (newSize : Z) (cs : cells) : cells :=
  take (length (new_cells newSize)) cs ++ drop (length cs) (new_cells newSize).

(** [editResize]; [realloc] moves the block, and leaves it where it is when there is
    no memory; of no bytes it frees the block, which is used on. *)
Definition editResize (b newSize : Z) : VM Z :=
  x ← buf b;
  h ← gets s_bufs;
  let sb := malloc (delete b h) (block_bytes newSize) in
  if (mRefs x =? 1) && (mSize x =? newSize) then mret b
  else if (mRefs x =? 1) && (negb (sb =? 0) || (block_bytes newSize =? 0)) then
    if block_bytes newSize <? sizeof_SharedBuffer then fail Bad_access
    else modify (λ s, s <| s_bufs := <[sb := mk_buffer (mRefs x) newSize (resize_cells newSize (b_cells x))]> (delete b h) |>) ;; mret sb
  else
    sb ← SharedBuffer_alloc newSize;
    if sb =? 0 then mret 0
    else set_buf sb (λ y, y <| b_cells := resize_cells newSize (b_cells x) |>) ;; release b false ;; mret sb.

(** ** [VectorImpl] *)

Definition vector (this : Z) : VM vec := gets (λ s, s_vecs s !! this) ≫= the Null_deref.
Definition set_vector (this : Z) (f : vec → vec) : VM unit :=
  v ← vector this; modify (λ s, s <| s_vecs %= <[this := f v]> |>).

(** A pointer to items: outside of all vectors, or into a block. *)
Inductive ptr : Type := Ext (xs : list A) | Cells (b : Z) (i : nat).

(** The [n] items at a pointer. *)
Definition items (p : ptr) (n : nat) : VM (list A) :=
  match p with
  | Ext xs => if decide (n ≤ length xs)%nat then mret (take n xs) else fail Bad_access
  | Cells b i => in_buffer b (read_cells i n)
  end.

Definition _do_copy (dest : Z) (i : nat) (from : ptr) (num : nat) : VM unit :=
  xs ← items from num; in_buffer dest (construct_cells i xs).
Definition _do_destroy (b : Z) (i num : nat) : VM unit := in_buffer b (destroy_cells i num).
Definition _do_splat (dest : Z) (i : nat) (item : ptr) (num : nat) : VM unit :=
  if decide (num = 0%nat) then mret tt
  else xs ← items item 1; in_buffer dest (construct_cells i (concat (replicate num xs))).

(** The constructor, of a new object. *)
Definition new_vector (this : Z) : VM unit :=
  s ← gets s_vecs; bug_on (bool_decide (is_Some (s !! this))) ;; modify (λ s, s <| s_vecs %= <[this := mk_vec 0 0]> |>).

(** The copy constructor. *)
Definition copy_vector (this rhs : Z) : VM unit :=
  r ← vector rhs;
  new_vector this ;;
  set_vector this (λ _, r) ;;
  when (negb (mStorage r =? 0)) (acquire (mStorage r)).

Definition release_storage (this : Z) : VM unit :=
  v ← vector this;
  when (negb (mStorage v =? 0))
    (prev ← release (mStorage v) true;
     when (prev =? 1) (_do_destroy (mStorage v) 0 (Z.to_nat (mCount v)) ;; dealloc_buffer (mStorage v))).

(** [operator =]. *)
Definition assign (this rhs : Z) : VM unit :=
  if this =? rhs then mret tt
  else
    release_storage this ;;
    r ← vector rhs;
    if negb (mCount r =? 0) then
      set_vector this (λ _, r) ;; acquire (mStorage r)
    else set_vector this (λ _, mk_vec 0 0).

Definition capacity (this : Z) : VM Z :=
  v ← vector this; if mStorage v =? 0 then mret 0 else x ← buf (mStorage v); mret (mSize x / itemSize).

(** [arrayImpl()]: the address of the items. *)
Definition arrayImpl (this : Z) : VM ptr := v ← vector this; mret (Cells (mStorage v) 0).

(** [editArrayImpl], the block of the array; without memory it is the one that is shared. *)
Definition editArrayImpl (this : Z) : VM Z :=
  v ← vector this;
  if mStorage v =? 0 then mret 0
  else
    only ← onlyOwner (mStorage v);
    if only : bool then mret (mStorage v)
    else
      cap ← capacity this;
      sb ← SharedBuffer_alloc (u32 (cap * itemSize));
      if sb =? 0 then mret (mStorage v)
      else
        _do_copy sb 0 (Cells (mStorage v) 0) (Z.to_nat (mCount v)) ;;
        release_storage this ;;
        set_vector this (λ v, v <| mStorage := sb |>) ;;
        mret sb.

(** [itemLocation], the block of the item if there is such a place. *)
Definition itemLocation (this index : Z) : VM Z :=
  cap ← capacity this; if index <? cap then v ← vector this; mret (mStorage v) else mret 0.

Definition editItemLocation (this index : Z) : VM Z :=
  cap ← capacity this; if index <? cap then editArrayImpl this else mret 0.

(** A new block with the items in front of [w1], and those from [w2] on at [to]. *)
Definition move_to_new (this new_capacity w1 w2 to num : Z) : VM unit :=
  v ← vector this;
  sb ← SharedBuffer_alloc (u32 (new_capacity * itemSize));
  when (negb (sb =? 0))
    (when (negb (w1 =? 0)) (_do_copy sb 0 (Cells (mStorage v) 0) (Z.to_nat w1)) ;;
     when (negb (num =? 0)) (_do_copy sb (Z.to_nat to) (Cells (mStorage v) (Z.to_nat w2)) (Z.to_nat num)) ;;
     release_storage this ;;
     set_vector this (λ v, v <| mStorage := sb |>)).

(** [editResize] of the storage; the vector uses what it returns. *)
Definition resize_storage (this new_capacity : Z) : VM unit :=
  v ← vector this;
  sb ← editResize (mStorage v) (u32 (new_capacity * itemSize));
  if sb =? 0 then fail Null_deref else set_vector this (λ v, v <| mStorage := sb |>).

Definition _grow (this where_ amount : Z) : VM Z :=
  v ← vector this;
  let new_size := u32 (mCount v + amount) in
  cap ← capacity this;
  (if cap <? new_size then
     let new_capacity := Z.max kMinVectorCapacity (u32 (u32 (new_size * 3) + 1) / 2) in
     if negb (mStorage v =? 0) && (mCount v =? where_) && trivial_copy && trivial_dtor then resize_storage this new_capacity
     else move_to_new this new_capacity where_ where_ (u32 (where_ + amount)) (mCount v - where_)
   else
     array ← editArrayImpl this;
     when (negb (where_ =? mCount v))
       (in_buffer array (move_forward_type (Z.to_nat (u32 (where_ + amount))) (Z.to_nat where_) (Z.to_nat (mCount v - where_))))) ;;
  set_vector this (λ v, v <| mCount := new_size |>) ;;
  itemLocation this where_.

Definition _shrink (this where_ amount : Z) : VM unit :=
  v ← vector this;
  if mStorage v =? 0 then mret tt
  else
    let new_size := u32 (mCount v - amount) in
    cap ← capacity this;
    (if u32 (new_size * 3) <? cap then
       let new_capacity := Z.max kMinVectorCapacity (u32 (new_size * 2)) in
       if (where_ =? new_size) && trivial_copy && trivial_dtor then resize_storage this new_capacity
       else move_to_new this new_capacity where_ (u32 (where_ + amount)) where_ (new_size - where_)
     else
       array ← editArrayImpl this;
       in_buffer array (destroy_cells (Z.to_nat where_) (Z.to_nat amount)) ;;
       when (negb (where_ =? new_size))
         (in_buffer array (move_backward_type (Z.to_nat where_) (Z.to_nat (u32 (where_ + amount))) (Z.to_nat (new_size - where_))))) ;;
    set_vector this (λ v, v <| mCount := new_size |>).

Definition insertArrayAt (this : Z) (array : ptr) (index length : Z) : VM Z :=
  v ← vector this;
  if index >? mCount v then mret BAD_INDEX
  else
    where_ ← _grow this index length;
    if where_ =? 0 then mret NO_MEMORY
    else _do_copy where_ (Z.to_nat index) array (Z.to_nat length) ;; mret index.

Definition insertVectorAt (this vector_ index : Z) : VM Z :=
  array ← arrayImpl vector_; r ← vector vector_; insertArrayAt this array index (mCount r).

Definition appendVector (this vector_ : Z) : VM Z := v ← vector this; insertVectorAt this vector_ (mCount v).

Definition appendArray (this : Z) (array : ptr) (length : Z) : VM Z := v ← vector this; insertArrayAt this array (mCount v) length.

(** [insertAt]; [None] is no item. *)
Definition insertAt (this : Z) (item : option ptr) (index numItems : Z) : VM Z :=
  v ← vector this;
  if index >? mCount v then mret BAD_INDEX
  else
    where_ ← _grow this index numItems;
    if where_ =? 0 then mret NO_MEMORY
    else
      match item with
      | Some item => _do_splat where_ (Z.to_nat index) item (Z.to_nat numItems)
      | None => in_buffer where_ (construct_default (Z.to_nat index) (Z.to_nat numItems))
      end ;;
      mret index.

(** [push] and [add]. *)
Definition add (this : Z) (item : option ptr) : VM Z := v ← vector this; insertAt this item (mCount v) 1.

Definition replaceAt (this : Z) (prototype : option ptr) (index : Z) : VM Z :=
  v ← vector this;
  if index >=? mCount v then mret BAD_INDEX
  else
    array ← editItemLocation this index;
    let same := match prototype with Some (Cells b i) => (b =? array) && (Z.of_nat i =? index) | _ => false end in
    if same then mret index
    else if array =? 0 then mret NO_MEMORY
    else
      _do_destroy array (Z.to_nat index) 1 ;;
      match prototype with
      | None => in_buffer array (construct_default (Z.to_nat index) 1)
      | Some p => _do_copy array (Z.to_nat index) p 1
      end ;;
      mret index.

Definition removeItemsAt (this index count : Z) : VM Z :=
  v ← vector this;
  if u32 (index + count) >? mCount v then mret BAD_VALUE else _shrink this index count ;; mret index.

Definition pop (this : Z) : VM unit :=
  v ← vector this; when (negb (mCount v =? 0)) (removeItemsAt this (mCount v - 1) 1 ;; mret tt).

Definition finish_vector (this : Z) : VM unit := release_storage this ;; set_vector this (λ _, mk_vec 0 0).

(** The destructor of [Vector]. *)
Definition delete_vector (this : Z) : VM unit := finish_vector this ;; modify (λ s, s <| s_vecs %= delete this |>).

Definition clear (this : Z) : VM unit := v ← vector this; _shrink this 0 (mCount v).

Definition setCapacity (this new_capacity : Z) : VM Z :=
  current_capacity ← capacity this;
  v ← vector this;
  if s32 (new_capacity - mCount v) <=? 0 then mret current_capacity
  else
    sb ← SharedBuffer_alloc (u32 (new_capacity * itemSize));
    if sb =? 0 then mret NO_MEMORY
    else
      when (negb (mCount v =? 0)) (_do_copy sb 0 (Cells (mStorage v) 0) (Z.to_nat (mCount v))) ;;
      release_storage this ;;
      set_vector this (λ v, v <| mStorage := sb |>) ;;
      mret new_capacity.

Definition resize (this size : Z) : VM Z :=
  v ← vector this;
  result ← (if size >? mCount v then insertAt this None (mCount v) (size - mCount v)
            else if size <? mCount v then removeItemsAt this size (mCount v - size)
            else mret NO_ERROR);
  mret (if result <? 0 then result else size).

(** The item at an index, as [Vector::operator []] returns it. *)
Definition itemAt (this index : Z) : VM A :=
  v ← vector this; in_buffer (mStorage v) (read_cell (Z.to_nat index)).

(** ** [sort], an insertion sort *)

Section sort.
(** The comparison; whether there is memory for the item that is set aside. *)
Context (cmp : A → A → Z) (temp_malloc : bool).

(** [_do_destroy] and [_do_copy] of one item. *)
Definition overwrite (i : nat) (x : A) : CM unit := destroy_cell i ;; construct_cell i x.

(** The inner loop, from the place that is free to the place of the item. *)
Fixpoint sort_shift (temp : A) (next : nat) : CM nat :=
  match next with
  | O => mret O
  | S j =>
      curr ← read_cell j;
      destroy_cell (S j) ;; construct_cell (S j) curr ;;
      match j with
      | O => mret O
      | S j' => c ← read_cell j'; if cmp c temp >? 0 then sort_shift temp j else mret j
      end
  end.

(** The outer loop; [temp] tells whether there is an item set aside. *)
Fixpoint sort_loop (this : Z) (n i : nat) (array : Z) (temp : bool) : VM Z :=
  match n with
  | O => mret NO_ERROR
  | S n' =>
      curr ← in_buffer array (read_cell (i - 1));
      item ← in_buffer array (read_cell i);
      if cmp curr item >? 0 then
        array ← (if temp then mret array else editArrayImpl this);
        if array =? 0 then mret NO_MEMORY
        else if negb (temp || temp_malloc) then mret NO_MEMORY
        else
          item ← in_buffer array (read_cell i);
          next ← in_buffer array (sort_shift item i);
          in_buffer array (overwrite next item) ;;
          sort_loop this n' (S i) array true
      else sort_loop this n' (S i) array temp
  end.

Definition sort (this : Z) : VM Z :=
  v ← vector this;
  let count := s32 (mCount v) in
  if count >? 1 then sort_loop this (Z.to_nat (count - 1)) 1 (mStorage v) false else mret NO_ERROR.
End sort.

(** ** [SortedVectorImpl] *)

Section sorted.
(** The order of the items. *)
Context (do_compare : A → A → Z).

Definition compare (p q : ptr) : VM Z :=
  x ← items p 1; y ← items q 1;
  match x, y with x :: _, y :: _ => mret (do_compare x y) | _, _ => fail Bad_access end.

Fixpoint search_loop (fuel : nat) (a : Z) (item : ptr) (l h : Z) : VM (Z * Z) :=
  if l <=? h then
    match fuel with
    | O => fail Fuel
    | S fuel' =>
        let mid := l + (h - l) / 2 in
        c ← compare (Cells a (Z.to_nat mid)) item;
        if c =? 0 then mret (mid, mid)
        else if c <? 0 then search_loop fuel' a item (mid + 1) h
        else search_loop fuel' a item l (mid - 1)
    end
  else mret (NAME_NOT_FOUND, l).

(** [_indexOrderOf]: the index or an error, and the place in the order. *)
Definition _indexOrderOf (this : Z) (item : ptr) : VM (Z * Z) :=
  v ← vector this; search_loop (S (Z.to_nat (mCount v))) (mStorage v) item 0 (s32 (mCount v - 1)).

Definition indexOf (this : Z) (item : ptr) : VM Z := r ← _indexOrderOf this item; mret (fst r).
Definition orderOf (this : Z) (item : ptr) : VM Z := r ← _indexOrderOf this item; mret (snd r).

Definition sorted_add (this : Z) (item : ptr) : VM Z :=
  '(index, order) ← _indexOrderOf this item;
  if index <? 0 then insertAt this (Some item) order 1 else replaceAt this (Some item) index.

(** [merge] of items of any order. *)
Fixpoint merge_items (this buffer : Z) (i n : nat) : VM Z :=
  match n with
  | O => mret NO_ERROR
  | S n' => err ← sorted_add this (Cells buffer i); if err <? 0 then mret err else merge_items this buffer (S i) n'
  end.
Definition merge (this vector_ : Z) : VM Z :=
  r ← vector vector_; merge_items this (mStorage r) 0 (Z.to_nat (mCount r)).

(** [merge] of a sorted vector. *)
Definition merge_sorted (this vector_ : Z) : VM Z :=
  r ← vector vector_;
  v ← vector this;
  if mCount r =? 0 then mret NO_ERROR
  else
    last ← compare (Cells (mStorage r) (Z.to_nat (mCount r - 1))) (Cells (mStorage v) 0);
    if last <=? 0 then insertVectorAt this vector_ 0
    else
      first ← compare (Cells (mStorage r) 0) (Cells (mStorage v) (Z.to_nat (mCount v - 1)));
      if first >=? 0 then appendVector this vector_ else merge this vector_.

Definition remove (this : Z) (item : ptr) : VM Z :=
  i ← indexOf this item; when (i >=? 0) (removeItemsAt this i 1 ;; mret tt) ;; mret i.
End sorted.

End vectors.
Arguments buffer A : clear implicits.
Arguments store A : clear implicits.
Arguments ptr A : clear implicits.
End Vectors.
