(* ===== verification/VectorSpec.v ===== *)
(** What a vector is for its user: a list of its own, whatever storage it shares.
    First the objects in the cells of a block: what making, destroying and moving
    them does when every object is made in raw memory and every destroyed item is
    one, for all traits of the type of the items.  Then the relation between the
    blocks and the vectors of a program and those lists, and what the operations on
    the storage do to it. *)
From S2P Require Import Prelude VectorImpl.
Import Vectors.

Section cells.
Context {A : Type} (td tc tm : bool).
Implicit Types (l m r : list (option A)) (xs : list A) (x : A).

(** Memory in which objects may be made: raw, or of a type without a destructor. *)
Definition free l : Prop := td = true ∨ l = replicate (length l) None.

(** What is left of an object. *)
Definition dead x : option A := if td then Some x else None.

Lemma free_nil : free [].
Proof. by right. Qed.

Lemma free_cons c l : free (c :: l) ↔ (td = true ∨ c = None) ∧ free l.
Proof.
  unfold free. cbn. split.
  - intros [?|[= -> H]]; [tauto|]. split; by right.
  - intros [[?| ->] [?|E]]; [tauto..|]. right. by rewrite <- E.
Qed.

Lemma free_app l m : free (l ++ m) ↔ free l ∧ free m.
Proof.
  induction l as [|c l IH]; cbn.
  - pose proof free_nil. tauto.
  - rewrite !free_cons, IH. tauto.
Qed.

Lemma free_dead xs : free (dead <$> xs).
Proof.
  induction xs as [|x xs IH]; [apply free_nil|]. rewrite fmap_cons, free_cons. split; [|done].
  unfold dead. destruct td; auto.
Qed.

Lemma free_replicate n : free (replicate n None).
Proof. right. by rewrite length_replicate. Qed.

Lemma free_take n l : free l → free (take n l).
Proof. intros H. rewrite <- (take_drop n l), free_app in H. tauto. Qed.

Lemma free_drop n l : free l → free (drop n l).
Proof. intros H. rewrite <- (take_drop n l), free_app in H. tauto. Qed.

Lemma set_middle {B} (l r : list B) c c' n : n = length l → <[n := c']> (l ++ c :: r) = l ++ c' :: r.
Proof. intros ->. rewrite <- (Nat.add_0_r (length l)), insert_app_r. done. Qed.

(** ** One cell *)

Lemma read_at l x r n : n = length l → read_cell n (l ++ Some x :: r) = Ok (x, l ++ Some x :: r).
Proof. intros ->. unfold read_cell. by rewrite list_lookup_middle. Qed.

Lemma construct_at l c x r n :
  n = length l → td = true ∨ c = None → construct_cell td n x (l ++ c :: r) = Ok (tt, l ++ Some x :: r).
Proof.
  intros -> Hc. unfold construct_cell. rewrite list_lookup_middle by done.
  destruct Hc as [->| ->].
  - cbn. by rewrite set_middle.
  - rewrite bool_decide_true by (by intros []). rewrite orb_true_r. by rewrite set_middle.
Qed.

Lemma destroy_at l x r n : n = length l → destroy_cell td n (l ++ Some x :: r) = Ok (tt, l ++ dead x :: r).
Proof.
  intros Hn. unfold destroy_cell, dead. destruct td; [done|].
  erewrite st_bind_eq by (by apply read_at). unfold modify. by rewrite set_middle.
Qed.

Lemma dead_raw x : td = true ∨ dead x = None.
Proof. unfold dead. destruct td; auto. Qed.

Lemma move_at l x m c r n n' :
  n = length l → n' = (length l + S (length m))%nat → td = true ∨ c = None →
  move_cell td n' n (l ++ Some x :: m ++ c :: r) = Ok (tt, l ++ dead x :: m ++ Some x :: r).
Proof.
  intros Hn Hn' Hc. unfold move_cell. erewrite st_bind_eq by (by apply read_at).
  rewrite app_comm_cons, app_assoc. erewrite st_bind_eq by (apply construct_at; [rewrite length_app; simpl; lia|done]).
  rewrite <- app_assoc, <- app_comm_cons. by apply destroy_at.
Qed.

Lemma move_back_at l c m x r n n' :
  n' = length l → n = (length l + S (length m))%nat → td = true ∨ c = None →
  move_cell td n' n (l ++ c :: m ++ Some x :: r) = Ok (tt, l ++ Some x :: m ++ dead x :: r).
Proof.
  intros Hn Hn' Hc. unfold move_cell.
  rewrite (app_comm_cons m _ c), app_assoc. erewrite st_bind_eq by (apply read_at; rewrite length_app; simpl; lia).
  rewrite <- app_assoc, <- app_comm_cons. erewrite st_bind_eq by (by apply construct_at).
  rewrite app_comm_cons, app_assoc. rewrite destroy_at by (rewrite length_app; simpl; lia). by rewrite <- app_assoc.
Qed.

(** ** Runs of cells *)

Lemma read_cells_at l xs r n k :
  n = length l → k = length xs → read_cells n k (l ++ (Some <$> xs) ++ r) = Ok (xs, l ++ (Some <$> xs) ++ r).
Proof.
  intros Hn ->. revert l n Hn. induction xs as [|x xs IH]; intros l n Hn; [done|]. cbn.
  erewrite st_bind_eq by (by apply read_at). rewrite cons_middle, app_assoc.
  erewrite st_bind_eq by (apply IH; rewrite length_app; simpl; lia). done.
Qed.

Lemma construct_cells_at l m xs r n :
  n = length l → free m → length m = length xs →
  construct_cells td n xs (l ++ m ++ r) = Ok (tt, l ++ (Some <$> xs) ++ r).
Proof.
  revert l m n. induction xs as [|x xs IH]; intros l [|c m] n Hn Hm Hl; [done..|]. cbn.
  apply free_cons in Hm as [Hc Hm]. erewrite st_bind_eq by (by apply construct_at).
  rewrite cons_middle, app_assoc. rewrite IH; [by rewrite <- app_assoc|rewrite length_app; simpl; lia|done|].
  simpl in Hl. lia.
Qed.

Lemma destroy_cells_at l xs r n k :
  n = length l → k = length xs →
  destroy_cells td n k (l ++ (Some <$> xs) ++ r) = Ok (tt, l ++ (dead <$> xs) ++ r).
Proof.
  intros Hn ->. revert l n Hn. induction xs as [|x xs IH]; intros l n Hn; [done|]. cbn.
  erewrite st_bind_eq by (by apply destroy_at). rewrite cons_middle, app_assoc.
  rewrite IH by (rewrite length_app; simpl; lia). by rewrite <- app_assoc.
Qed.

Lemma abandon_cells_at l xs r n k :
  n = length l → k = length xs → abandon_cells td n k (l ++ (Some <$> xs) ++ r) = Ok (tt, l ++ (dead <$> xs) ++ r).
Proof.
  intros -> ->. unfold abandon_cells, dead, free. destruct td; [done|]. unfold modify. do 2 f_equal.
  rewrite take_app_length, drop_app_ge, Nat.add_comm, Nat.add_sub by lia.
  rewrite drop_app_ge, length_fmap, Nat.sub_diag, drop_0 by (rewrite length_fmap; lia). do 2 f_equal.
  clear. induction xs as [|? ? IH]; [done|]. cbn. f_equal. exact IH.
Qed.
(** ** Moves *)

Lemma construct_in l m xs r n k :
  n = (length l + k)%nat → free m → (k + length xs ≤ length m)%nat →
  construct_cells td n xs (l ++ m ++ r) =
    Ok (tt, l ++ take k m ++ (Some <$> xs) ++ drop (k + length xs) m ++ r).
Proof.
  intros -> Hm Hk. rewrite <- (take_drop k m) at 1. rewrite <- (take_drop (length xs) (drop k m)), drop_drop, <- app_assoc.
  rewrite <- (app_assoc (take (length xs) _)), (app_assoc l).
  rewrite construct_cells_at; [by rewrite <- app_assoc|rewrite length_app, length_take; lia|by apply free_take, free_drop|].
  rewrite length_take, length_drop. lia.
Qed.

Lemma memmove_forward l xs m r :
  free m → ∃ m', length m' = length m ∧ free m' ∧
    memmove_cells td (length l + length m) (length l) (length xs) (l ++ (Some <$> xs) ++ m ++ r) =
      Ok (tt, l ++ m' ++ (Some <$> xs) ++ r).
Proof.
  intros Hm. exists (take (length m) ((dead <$> xs) ++ m)). split_and!.
  - rewrite length_take, length_app. lia.
  - apply free_take, free_app. split; [apply free_dead|done].
  - unfold memmove_cells. erewrite st_bind_eq by (by apply read_cells_at).
    erewrite st_bind_eq by (by apply abandon_cells_at). rewrite (app_assoc (dead <$> xs)).
    erewrite construct_in; [|done|apply free_app; split; [apply free_dead|done]|rewrite length_app, length_fmap; lia].
    rewrite (drop_ge _ (length m + length xs)) by (rewrite length_app, length_fmap; lia). done.
Qed.

Lemma memmove_backward l xs m r :
  free m → ∃ m', length m' = length m ∧ free m' ∧
    memmove_cells td (length l) (length l + length m) (length xs) (l ++ m ++ (Some <$> xs) ++ r) =
      Ok (tt, l ++ (Some <$> xs) ++ m' ++ r).
Proof.
  intros Hm. exists (drop (length xs) (m ++ (dead <$> xs))). split_and!.
  - rewrite length_drop, length_app, length_fmap. lia.
  - apply free_drop, free_app. split; [done|apply free_dead].
  - unfold memmove_cells. rewrite (app_assoc l).
    erewrite st_bind_eq by (apply read_cells_at; [by rewrite length_app|done]).
    erewrite st_bind_eq by (apply abandon_cells_at; [by rewrite length_app|done]).
    rewrite <- app_assoc, (app_assoc m). rewrite (construct_in l _ xs r _ 0);
      [done|lia|apply free_app; split; [done|apply free_dead]|rewrite length_app, length_fmap; lia].
Qed.

Lemma move_forward_loop_at l xs m r :
  free m → m ≠ [] → ∃ m', length m' = length m ∧ free m' ∧
    move_forward_loop td (length l + length m) (length l) (length xs) (l ++ (Some <$> xs) ++ m ++ r) =
      Ok (tt, l ++ m' ++ (Some <$> xs) ++ r).
Proof.
  revert m r. induction xs as [|x xs IH] using rev_ind; intros m r Hm Hne; [by exists m|].
  destruct m as [|c m _] using rev_ind; [done|]. apply free_app in Hm as [Hm Hc].
  destruct (IH (dead x :: m) (Some x :: r)) as (m' & Hl & Hf & E); [|done|].
  { apply free_cons. split; [apply dead_raw|done]. }
  exists m'. split_and!; [rewrite Hl, length_app; simpl; lia|done|].
  rewrite !length_app. cbn [length]. rewrite (Nat.add_1_r (length xs)). cbn [move_forward_loop].
  rewrite fmap_app, <- !app_assoc. cbn [fmap list_fmap app].
  rewrite (app_assoc l). erewrite st_bind_eq.
  2: { apply move_at; [rewrite length_app, length_fmap; lia|rewrite length_app, length_fmap; lia|].
       apply free_cons in Hc. tauto. }
  rewrite <- app_assoc. cbn [length] in E. replace (length l + (length m + 1))%nat with (length l + S (length m))%nat by lia.
  cbn in E. done.
Qed.

Lemma move_backward_loop_at l xs m r :
  free m → m ≠ [] → ∃ m', length m' = length m ∧ free m' ∧
    move_backward_loop td (length l) (length l + length m) (length xs) (l ++ m ++ (Some <$> xs) ++ r) =
      Ok (tt, l ++ (Some <$> xs) ++ m' ++ r).
Proof.
  revert l m. induction xs as [|x xs IH]; intros l m Hm Hne; [by exists m|].
  destruct m as [|c m]; [done|]. apply free_cons in Hm as [Hc Hm].
  destruct (IH (l ++ [Some x]) (m ++ [dead x])) as (m' & Hl & Hf & E).
  { apply free_app. split; [done|]. apply free_cons. split; [apply dead_raw|apply free_nil]. }
  { by destruct m. }
  exists m'. split_and!; [rewrite Hl, length_app; simpl; lia|done|].
  cbn [length move_backward_loop fmap list_fmap app].
  erewrite st_bind_eq by (by apply move_back_at).
  rewrite <- !app_assoc in E. cbn [app] in E.
  replace (length (l ++ [Some x])) with (S (length l)) in E by (rewrite length_app; simpl; lia).
  replace (S (length l) + length (m ++ [dead x]))%nat with (S (length l + S (length m))) in E by (rewrite length_app; simpl; lia).
  exact E.
Qed.

Lemma move_forward_at l xs m r d s n :
  d = (length l + length m)%nat → s = length l → n = length xs → free m → m ≠ [] →
  ∃ m', length m' = length m ∧ free m' ∧
    move_forward_type td tc tm d s n (l ++ (Some <$> xs) ++ m ++ r) = Ok (tt, l ++ m' ++ (Some <$> xs) ++ r).
Proof.
  intros -> -> -> Hm Hne. unfold move_forward_type. destruct (_ || _).
  - by apply memmove_forward.
  - by apply move_forward_loop_at.
Qed.

Lemma move_backward_at l xs m r d s n :
  d = length l → s = (length l + length m)%nat → n = length xs → free m → m ≠ [] →
  ∃ m', length m' = length m ∧ free m' ∧
    move_backward_type td tc tm d s n (l ++ m ++ (Some <$> xs) ++ r) = Ok (tt, l ++ (Some <$> xs) ++ m' ++ r).
Proof.
  intros -> -> -> Hm Hne. unfold move_backward_type. destruct (_ || _).
  - by apply memmove_backward.
  - by apply move_backward_loop_at.
Qed.
(** ** Objects made without arguments *)

Lemma construct_default_at (dflt : A) (tct : bool) l m r n k :
  n = length l → k = length m → free m →
  ∃ ys, length ys = k ∧ (tct = false → ys = replicate k dflt) ∧
    construct_default dflt tct td n k (l ++ m ++ r) = Ok (tt, l ++ (Some <$> ys) ++ r).
Proof.
  intros -> -> Hm. revert l. induction m as [|c m IH]; intros l; [by exists []|].
  apply free_cons in Hm as [Hc Hm]. cbn [length construct_default app].
  assert (∃ y, (tct = false → y = dflt) ∧
    (if tct then λ cs, match cs !! length l with
       | Some (Some _) => Ok (tt, cs) | Some None => Ok (tt, <[length l := Some dflt]> cs) | None => Oops Bad_access end
     else construct_cell td (length l) dflt) (l ++ c :: m ++ r) = Ok (tt, l ++ Some y :: m ++ r)) as (y & Hy & E).
  { destruct tct.
    - rewrite list_lookup_middle by done. destruct c as [y|]; [by exists y|]. exists dflt. by rewrite set_middle.
    - exists dflt. split; [done|]. by apply construct_at. }
  destruct (IH Hm (l ++ [Some y])) as (ys & Hl & Hys & E').
  exists (y :: ys). split_and!; [simpl; by rewrite Hl|intros H; simpl; by rewrite Hy, Hys|].
  erewrite st_bind_eq by exact E. rewrite length_app, <- !app_assoc in E'. cbn [length app] in E'.
  rewrite Nat.add_1_r in E'. exact E'.
Qed.
End cells.

Section spec.
Context {A : Type} (malloc : gmap Z (buffer A) → Z → Z) (itemSize : Z) (td tc tm : bool).
Context (itemSize_pos : 0 < itemSize).
(** There is memory. *)
Context (malloc_ok : ∀ h n, 0 ≤ n < 2 ^ 32 → malloc h n ≠ 0 ∧ h !! malloc h n = None).
Implicit Types (bufs : gmap Z (buffer A)) (vs : gmap Z vec) (m : gmap Z (list A)) (xs ys : list A) (b : buffer A).

Notation free := (free td).
Notation alloc := (SharedBuffer_alloc malloc itemSize).
Notation release_storage := (release_storage td).

(** ** The relation *)

(** A block of whole cells. *)
Definition sized b : Prop := mSize b = itemSize * Z.of_nat (length (b_cells b)) ∧ sizeof_SharedBuffer + mSize b < 2 ^ 32.

(** A block that holds the items [xs] and nothing else. *)
Definition good b xs : Prop := sized b ∧ ∃ g, b_cells b = (Some <$> xs) ++ g ∧ free g.

Definition held bufs (v : vec) xs : Prop :=
  mCount v = Z.of_nat (length xs) ∧
  (mStorage v = 0 ∧ xs = [] ∨ mStorage v ≠ 0 ∧ ∃ b, bufs !! mStorage v = Some b ∧ good b xs).

(** The vectors that use a block. *)
Definition sharers vs (a : Z) : Z := msum (λ v, b2z (mStorage v =? a)) vs.

(** Every vector holds its list, every block is counted, and none is left that no vector uses. *)
Record vectors_ok (s : store A) m : Prop := mk_vectors_ok {
  ok_vec : ∀ k v, s_vecs s !! k = Some v → ∃ xs, m !! k = Some xs ∧ held (s_bufs s) v xs;
  ok_dom : ∀ k, is_Some (m !! k) → is_Some (s_vecs s !! k);
  ok_buf : ∀ a b, s_bufs s !! a = Some b → a ≠ 0 ∧ mRefs b = sharers (s_vecs s) a ∧ 0 < mRefs b }.

Notation ok bufs vs m := (vectors_ok (mk_store bufs vs) m).

Lemma ok_held bufs vs m k v xs : ok bufs vs m → vs !! k = Some v → m !! k = Some xs → held bufs v xs.
Proof. intros Hok Hv Hx. destruct (ok_vec _ _ Hok k v Hv) as (ys & Hy & Hh). cbn in Hh. congruence. Qed.

Lemma ok_at bufs vs m k xs : ok bufs vs m → m !! k = Some xs → ∃ v, vs !! k = Some v ∧ held bufs v xs.
Proof.
  intros Hok Hx. destruct (ok_dom _ _ Hok k) as [v Hv]; [by eexists|]. cbn in Hv. exists v. split; [done|]. by eapply ok_held.
Qed.

Lemma ok_null bufs vs m : ok bufs vs m → bufs !! 0 = None.
Proof. intros Hok. destruct (bufs !! 0) as [b|] eqn:E; [|done]. by destruct (ok_buf _ _ Hok 0 b E). Qed.

(** ** The count of a block *)

Lemma sharers_insert vs k v a : vs !! k = None → sharers (<[k := v]> vs) a = b2z (mStorage v =? a) + sharers vs a.
Proof. apply (msum_insert (λ v, b2z (mStorage v =? a))). Qed.

Lemma sharers_delete vs k v a : vs !! k = Some v → sharers (delete k vs) a = sharers vs a - b2z (mStorage v =? a).
Proof. apply (msum_delete (λ v, b2z (mStorage v =? a))). Qed.

Lemma sharers_nonneg vs a : 0 ≤ sharers vs a.
Proof. apply msum_nonneg. intros k v _. destruct (_ =? _); cbn; lia. Qed.

Lemma sharers_pos vs k v a : vs !! k = Some v → mStorage v = a → 1 ≤ sharers vs a.
Proof.
  intros Hv <-. pose proof (sharers_delete vs k v (mStorage v) Hv) as E. rewrite Z.eqb_refl in E. cbn in E.
  pose proof (sharers_nonneg (delete k vs) (mStorage v)). lia.
Qed.

Lemma sharers_none bufs vs m a : ok bufs vs m → a ≠ 0 → bufs !! a = None → sharers vs a = 0.
Proof.
  intros Hok Ha Hb. apply msum_zero. intros k v Hv. destruct (Z.eqb_spec (mStorage v) a) as [E|]; [|done].
  destruct (ok_vec _ _ Hok k v Hv) as (xs & _ & _ & [[? _]|(_ & b & Hb' & _)]); cbn in *; congruence.
Qed.

(** The blocks when a user of [a] is gone. *)
Definition released (a : Z) bufs : gmap Z (buffer A) :=
  match bufs !! a with
  | Some b => if mRefs b =? 1 then delete a bufs else <[a := b <| mRefs := mRefs b - 1 |>]> bufs
  | None => bufs
  end.

Lemma released_null bufs : bufs !! 0 = None → released 0 bufs = bufs.
Proof. intros E. unfold released. by rewrite E. Qed.

Lemma released_ne a bufs c : c ≠ a → released a bufs !! c = bufs !! c.
Proof.
  intros Hc. unfold released. destruct (bufs !! a) as [b|]; [|done].
  destruct (_ =? _); [by rewrite lookup_delete_ne|by rewrite lookup_insert_ne].
Qed.

Lemma released_insert a bufs c b : c ≠ a → released a (<[c := b]> bufs) = <[c := b]> (released a bufs).
Proof.
  intros Hc. unfold released. rewrite lookup_insert_ne by done. destruct (bufs !! a) as [b'|]; [|done].
  destruct (_ =? _); [by rewrite delete_insert_ne|by rewrite insert_insert_ne].
Qed.
(** ** The relation when a vector comes or goes *)

Lemma good_same b b' xs : b_cells b' = b_cells b → mSize b' = mSize b → good b xs → good b' xs.
Proof. unfold good, sized. by intros -> ->. Qed.

Lemma held_same bufs bufs' v xs :
  (∀ b, mStorage v ≠ 0 → bufs !! mStorage v = Some b →
     ∃ b', bufs' !! mStorage v = Some b' ∧ b_cells b' = b_cells b ∧ mSize b' = mSize b) →
  held bufs v xs → held bufs' v xs.
Proof.
  intros H (Hc & [Hn|(Hn & b & Hb & Hg)]); (split; [done|]); [by left|right]. split; [done|].
  destruct (H b Hn Hb) as (b' & Hb' & E1 & E2). exists b'. split; [done|]. by eapply good_same.
Qed.

Lemma ok_remove bufs vs m k v :
  ok bufs vs m → vs !! k = Some v → ok (released (mStorage v) bufs) (delete k vs) (delete k m).
Proof.
  intros Hok Hv. split; cbn [s_vecs s_bufs].
  - intros k' w Hw. destruct (decide (k' = k)) as [->|Hne]; [by rewrite lookup_delete_eq in Hw|].
    rewrite lookup_delete_ne in Hw by done. rewrite lookup_delete_ne by done. destruct (ok_vec _ _ Hok k' w Hw) as (xs & Hx & Hh).
    exists xs. split; [done|]. revert Hh. apply held_same. cbn. intros b Hn Hb.
    destruct (decide (mStorage w = mStorage v)) as [E|?]; [|exists b; by rewrite released_ne].
    destruct (ok_buf _ _ Hok _ _ Hb) as (_ & Hr & _). cbn in Hr. unfold released. rewrite <- E, Hb.
    pose proof (sharers_pos (delete k vs) k' w (mStorage w) ltac:(by rewrite lookup_delete_ne) eq_refl) as Hp.
    rewrite (sharers_delete _ _ _ _ Hv), E, Z.eqb_refl in Hp. cbn in Hp. rewrite E in Hr.
    destruct (Z.eqb_spec (mRefs b) 1); [lia|]. rewrite E, lookup_insert_eq. by eexists.
  - intros k' Hk. destruct (decide (k' = k)) as [->|Hne]; [rewrite lookup_delete_eq in Hk; by destruct Hk|].
    rewrite lookup_delete_ne in Hk by done. rewrite lookup_delete_ne by done. by apply (ok_dom _ _ Hok).
  - intros a b Hb. rewrite (sharers_delete _ _ _ _ Hv). destruct (decide (a = mStorage v)) as [->|Hne].
    + unfold released in Hb. destruct (bufs !! mStorage v) as [b0|] eqn:E; [|congruence].
      destruct (ok_buf _ _ Hok _ _ E) as (Ha & Hr & Hp). cbn in Hr.
      destruct (Z.eqb_spec (mRefs b0) 1); [by rewrite lookup_delete_eq in Hb|].
      rewrite lookup_insert_eq in Hb. injection Hb as <-. rewrite Z.eqb_refl. cbn. split_and!; [done|lia..].
    + rewrite released_ne in Hb by done. destruct (ok_buf _ _ Hok _ _ Hb) as (Ha & Hr & Hp). cbn in Hr.
      rewrite (proj2 (Z.eqb_neq (mStorage v) a)) by congruence. cbn. split_and!; [done|lia..].
Qed.

Lemma ok_insert bufs bufs' vs m k v xs :
  ok bufs vs m → vs !! k = None → held bufs' v xs →
  (∀ a b, bufs !! a = Some b → ∃ b', bufs' !! a = Some b' ∧ b_cells b' = b_cells b ∧ mSize b' = mSize b) →
  (∀ a b, bufs' !! a = Some b → a ≠ 0 ∧ mRefs b = b2z (mStorage v =? a) + sharers vs a ∧ 0 < mRefs b) →
  ok bufs' (<[k := v]> vs) (<[k := xs]> m).
Proof.
  intros Hok Hk Hh Hs Hb. split; cbn [s_vecs s_bufs].
  - intros k' w. destruct (decide (k' = k)) as [->|Hne].
    + rewrite lookup_insert_eq. intros [= <-]. exists xs. by rewrite lookup_insert_eq.
    + rewrite !lookup_insert_ne by done. intros Hw. destruct (ok_vec _ _ Hok k' w Hw) as (ys & Hy & Hhy).
      exists ys. split; [done|]. revert Hhy. apply held_same. intros b _. apply Hs.
  - intros k'. destruct (decide (k' = k)) as [->|Hne]; [rewrite !lookup_insert_eq; by intros _; eexists|].
    rewrite !lookup_insert_ne by done. apply (ok_dom _ _ Hok).
  - intros a b Hb'. rewrite sharers_insert by done. by apply Hb.
Qed.

(** With a block of its own. *)
Lemma ok_insert_new bufs vs m k a b xs :
  ok bufs vs m → vs !! k = None → a ≠ 0 → bufs !! a = None → mRefs b = 1 → good b xs →
  ok (<[a := b]> bufs) (<[k := mk_vec a (Z.of_nat (length xs))]> vs) (<[k := xs]> m).
Proof.
  intros Hok Hk Ha Hba Hr Hg. apply (ok_insert bufs); [done..| | |].
  - split; [done|right]. split; [done|]. exists b. cbn. by rewrite lookup_insert_eq.
  - intros c b' Hc. exists b'. rewrite lookup_insert_ne; [done|congruence].
  - intros c b' Hc. cbn. destruct (decide (c = a)) as [->|Hne].
    + rewrite lookup_insert_eq in Hc. injection Hc as <-.
      rewrite (sharers_none _ _ _ _ Hok Ha Hba), Z.eqb_refl, Hr. by cbn.
    + rewrite lookup_insert_ne in Hc by done. rewrite (proj2 (Z.eqb_neq a c)) by done. by apply (ok_buf _ _ Hok).
Qed.

(** Without storage. *)
Lemma ok_insert_null bufs vs m k : ok bufs vs m → vs !! k = None → ok bufs (<[k := mk_vec 0 0]> vs) (<[k := []]> m).
Proof.
  intros Hok Hk. apply (ok_insert bufs); [done..| | |].
  - split; [done|]. by left.
  - intros c b' Hc. by exists b'.
  - intros c b' Hc. destruct (ok_buf _ _ Hok _ _ Hc) as (Hn & H). cbn [mStorage]. by rewrite (proj2 (Z.eqb_neq 0 c)).
Qed.

(** With the storage of another one. *)
Definition acquired (a : Z) bufs : gmap Z (buffer A) :=
  match bufs !! a with Some b => <[a := b <| mRefs %= Z.succ |>]> bufs | None => bufs end.

Lemma ok_insert_shared bufs vs m k rhs r xs :
  ok bufs vs m → vs !! k = None → vs !! rhs = Some r → m !! rhs = Some xs →
  ok (acquired (mStorage r) bufs) (<[k := r]> vs) (<[k := xs]> m).
Proof.
  intros Hok Hk Hr Hx. pose proof (ok_held _ _ _ _ _ _ Hok Hr Hx) as Hh.
  assert (Hs : ∀ a b, bufs !! a = Some b →
     ∃ b', acquired (mStorage r) bufs !! a = Some b' ∧ b_cells b' = b_cells b ∧ mSize b' = mSize b).
  { intros a b Hb. unfold acquired. destruct (bufs !! mStorage r) as [b0|] eqn:E; [|by exists b].
    destruct (decide (a = mStorage r)) as [->|Hne].
    - rewrite lookup_insert_eq. replace b with b0 by congruence. by eexists.
    - rewrite lookup_insert_ne by done. by exists b. }
  apply (ok_insert bufs); [done..| |done|].
  - revert Hh. apply held_same. intros b _. apply Hs.
  - intros a b. unfold acquired. destruct (decide (a = mStorage r)) as [->|Hne].
    + destruct (bufs !! mStorage r) as [b0|] eqn:E; [|congruence]. rewrite lookup_insert_eq. intros [= <-].
      destruct (ok_buf _ _ Hok _ _ E) as (Hn & Hrf & Hp). cbn in *. rewrite Z.eqb_refl. cbn. split_and!; [done|lia..].
    + intros Hb. assert (bufs !! a = Some b) as Hb'.
      { destruct (bufs !! mStorage r); [by rewrite lookup_insert_ne in Hb|done]. }
      destruct (ok_buf _ _ Hok _ _ Hb') as (Hn & Hrf & Hp). cbn in *.
      rewrite (proj2 (Z.eqb_neq (mStorage r) a)) by congruence. by cbn.
Qed.
End spec.
