(* ===== verification/VectorStorage.v ===== *)
(** What the operations on the storage of a vector do: after each of them the
    vector is the only user of a block with the cells it asked for. *)
From S2P Require Import Prelude VectorImpl VectorSpec.
Import Vectors.

Section storage.
Context {A : Type} (malloc : gmap Z (buffer A) → Z → Z) (itemSize : Z) (td tc tm : bool).
Context (itemSize_pos : 0 < itemSize).
(** There is memory. *)
Context (malloc_ok : ∀ h n, 0 ≤ n < 2 ^ 32 → malloc h n ≠ 0 ∧ h !! malloc h n = None).
Implicit Types (bufs : gmap Z (buffer A)) (vs : gmap Z vec) (m : gmap Z (list A)) (xs ys : list A) (b : buffer A).

Notation free := (free td).
Notation alloc := (SharedBuffer_alloc malloc itemSize).
Notation release_storage := (release_storage td).
Notation sized := (sized itemSize).
Notation good := (good itemSize td).
Notation held := (held itemSize td).
Notation ok bufs vs m := (vectors_ok itemSize td (mk_store bufs vs) m).

(** ** Access to blocks and vectors *)

Lemma buf_eq bufs vs a b : bufs !! a = Some b → buf a (mk_store bufs vs) = Ok (b, mk_store bufs vs).
Proof. intros E. unfold buf. erewrite st_bind_eq by done. cbn. by rewrite E. Qed.

Lemma set_buf_eq bufs vs a b f :
  bufs !! a = Some b → set_buf a f (mk_store bufs vs) = Ok (tt, mk_store (<[a := f b]> bufs) vs).
Proof. intros E. unfold set_buf. by erewrite st_bind_eq by (by apply buf_eq). Qed.

Lemma vector_eq bufs vs k v : vs !! k = Some v → vector k (mk_store bufs vs) = Ok (v, mk_store bufs vs).
Proof. intros E. unfold vector. erewrite st_bind_eq by done. cbn. by rewrite E. Qed.

Lemma set_vector_eq bufs vs k v f :
  vs !! k = Some v → set_vector k f (mk_store bufs vs) = Ok (tt, mk_store bufs (<[k := f v]> vs)).
Proof. intros E. unfold set_vector. by erewrite st_bind_eq by (by apply vector_eq). Qed.

Lemma in_buffer_eq {B} (p : ST (list (option A)) B) bufs vs a b r cs :
  bufs !! a = Some b → p (b_cells b) = Ok (r, cs) →
  in_buffer a p (mk_store bufs vs) = Ok (r, mk_store (<[a := b <| b_cells := cs |>]> bufs) vs).
Proof. intros E Ep. unfold in_buffer. cbn. by rewrite E, Ep. Qed.

Lemma in_buffer_read {B} (p : ST (list (option A)) B) bufs vs a b r :
  bufs !! a = Some b → p (b_cells b) = Ok (r, b_cells b) → in_buffer a p (mk_store bufs vs) = Ok (r, mk_store bufs vs).
Proof.
  intros E Ep. erewrite in_buffer_eq by done. do 3 f_equal. apply insert_id. rewrite E. by destruct b.
Qed.

Lemma items_cells bufs vs a b l xs r i n :
  bufs !! a = Some b → b_cells b = l ++ (Some <$> xs) ++ r → i = length l → n = length xs →
  items (Cells a i) n (mk_store bufs vs) = Ok (xs, mk_store bufs vs).
Proof. intros E Ec Hi Hn. cbn. eapply in_buffer_read; [done|]. rewrite Ec. by apply read_cells_at. Qed.

Lemma _do_copy_eq bufs vs a b p xs l g r i n :
  items p n (mk_store bufs vs) = Ok (xs, mk_store bufs vs) → bufs !! a = Some b →
  b_cells b = l ++ g ++ r → i = length l → free g → length g = length xs →
  _do_copy td a i p n (mk_store bufs vs) =
    Ok (tt, mk_store (<[a := b <| b_cells := l ++ (Some <$> xs) ++ r |>]> bufs) vs).
Proof.
  intros Hp Hb Hc Hi Hg Hl. unfold _do_copy. rewrite (st_bind_eq _ _ _ _ _ Hp).
  eapply in_buffer_eq; [done|]. rewrite Hc. by apply construct_cells_at.
Qed.

(** ** Blocks come and go *)

Lemma new_cells_length n : 0 ≤ n → length (new_cells (A := A) itemSize (n * itemSize)) = Z.to_nat n.
Proof. intros Hn. unfold new_cells. by rewrite Z.div_mul, length_replicate by lia. Qed.

(** The size of a block for [n] items, when it can be said with 32 bits. *)
Definition room (n : Z) : Prop := 0 ≤ n ∧ sizeof_SharedBuffer + n * itemSize < 2 ^ 32.

Definition new_block (n : Z) : buffer A := mk_buffer 1 (n * itemSize) (replicate (Z.to_nat n) None).

Lemma new_block_sized n : room n → sized (new_block n).
Proof. intros [H1 H2]. unfold VectorSpec.sized. cbn. rewrite length_replicate. lia. Qed.

Lemma block_bytes_small n :
  0 ≤ n → sizeof_SharedBuffer + n * itemSize < 2 ^ 32 → block_bytes (n * itemSize) = sizeof_SharedBuffer + n * itemSize.
Proof. intros H1 H2. apply u32_small. unfold sizeof_SharedBuffer in *. lia. Qed.

Lemma alloc_eq bufs vs n :
  room n → ∃ sb, sb ≠ 0 ∧ bufs !! sb = None ∧
    alloc (u32 (n * itemSize)) (mk_store bufs vs) = Ok (sb, mk_store (<[sb := new_block n]> bufs) vs).
Proof.
  intros [H1 H2]. pose proof (block_bytes_small _ H1 H2) as Eb. unfold sizeof_SharedBuffer in H2, Eb.
  rewrite u32_small by lia. destruct (malloc_ok bufs (16 + n * itemSize)) as [Hn Hf]; [lia|].
  exists (malloc bufs (16 + n * itemSize)). split_and!; [done..|]. unfold SharedBuffer_alloc, sizeof_SharedBuffer.
  erewrite st_bind_eq by done. cbn [s_bufs]. rewrite Eb, (proj2 (Z.eqb_neq _ 0)) by done.
  rewrite (proj2 (Z.ltb_ge _ 16)) by lia.
  unfold new_cells, new_block. by rewrite Z.div_mul by lia.
Qed.

Lemma release_eq bufs vs a b keep :
  bufs !! a = Some b → keep = true ∨ mRefs b ≠ 1 →
  release td a keep (mk_store bufs vs) = Ok (mRefs b, mk_store (<[a := b <| mRefs := mRefs b - 1 |>]> bufs) vs).
Proof.
  intros Hb Hk. unfold release. erewrite st_bind_eq by (by apply buf_eq).
  erewrite st_bind_eq by (by apply set_buf_eq).
  destruct (Z.eqb_spec (mRefs b) 1) as [E|Hne].
  - destruct Hk as [->|?]; [|done]. cbn. by rewrite E.
  - rewrite (proj2 (Z.eqb_neq (mRefs b) 1)) by done. done.
Qed.

Lemma release_storage_eq bufs vs k v xs :
  bufs !! 0 = None → vs !! k = Some v → held bufs v xs →
  release_storage k (mk_store bufs vs) = Ok (tt, mk_store (released (mStorage v) bufs) vs).
Proof.
  intros H0 Hv (Hc & Hs). unfold Vectors.release_storage. erewrite st_bind_eq by (by apply vector_eq).
  destruct Hs as [[-> _]|(Hn & b & Hb & _ & g & Hg & Hf)]; [by rewrite released_null|].
  rewrite (proj2 (Z.eqb_neq (mStorage v) 0)) by done. cbn [negb when].
  erewrite st_bind_eq by (apply release_eq; [done|by left]). unfold released. rewrite Hb.
  destruct (Z.eqb_spec (mRefs b) 1) as [E|Hne]; [|done].
  cbn [when]. erewrite st_bind_eq.
  2: { unfold _do_destroy. eapply in_buffer_eq; [apply lookup_insert_eq|]. cbn. rewrite Hg.
       apply (destroy_cells_at td [] xs g); [done|]. rewrite Hc. lia. }
  unfold dealloc_buffer. erewrite st_bind_eq by (apply buf_eq, lookup_insert_eq). cbn. rewrite E.
  change (negb (1 - 1 =? 0)) with false. cbn iota.
  unfold free_buffer. erewrite st_bind_eq by (apply buf_eq, lookup_insert_eq). cbn.
  assert (td || forallb (λ c, match c with None => true | _ => false end) ((dead td <$> xs) ++ g) = true) as ->.
  { destruct (proj2 (free_app td (dead td <$> xs) g) (conj (free_dead td xs) Hf)) as [->| ->]; [done|].
    rewrite orb_true_iff. right. apply forallb_forall. intros c Hin%list_elem_of_In%elem_of_replicate. by destruct Hin as [-> _]. }
  rewrite insert_insert_eq. apply (f_equal (λ x, Ok (tt, mk_store x vs))), delete_insert_eq.
Qed.
(** ** A vector that is the only user of a block *)

(** Whatever items the block [b] at [a] is filled with, they are those of the vector. *)
Record sole bufs vs (k : Z) m (a : Z) b : Prop := mk_sole {
  sole_ne : a ≠ 0;
  sole_at : bufs !! a = Some b;
  sole_refs : mRefs b = 1;
  sole_sized : sized b;
  sole_ok : ∀ b' ys, mRefs b' = 1 → good b' ys →
    ok (<[a := b']> bufs) (<[k := mk_vec a (Z.of_nat (length ys))]> vs) (<[k := ys]> m) }.

(** The blocks that come and go leave [vs] alone, but for the vector itself. *)
Lemma sole_insert bufs vs k m a b v : sole bufs vs k m a b → sole bufs (<[k := v]> vs) k m a b.
Proof. intros [H1 H2 H3 H4 H5]. split; [done..|]. intros b' ys. rewrite insert_insert_eq. apply H5. Qed.

Lemma sole_update bufs vs k m a b b' :
  sole bufs vs k m a b → mRefs b' = 1 → sized b' → sole (<[a := b']> bufs) vs k m a b'.
Proof.
  intros [H1 H2 H3 H4 H5] Hr Hs. split; [done|by rewrite lookup_insert_eq|done|done|].
  intros b2 ys. rewrite insert_insert_eq. apply H5.
Qed.

Lemma sole_done bufs vs k m a b ys v :
  sole bufs vs k m a b → good b ys → v = mk_vec a (Z.of_nat (length ys)) → ok bufs (<[k := v]> vs) (<[k := ys]> m).
Proof.
  intros [H1 H2 H3 H4 H5] Hg ->. rewrite <- (insert_id bufs a b) by done. by apply H5.
Qed.

(** A new block in the place of the old one. *)
Lemma sole_new bufs vs m k v a b :
  ok bufs vs m → vs !! k = Some v → a ≠ 0 → released (mStorage v) bufs !! a = None → mRefs b = 1 → sized b →
  sole (<[a := b]> (released (mStorage v) bufs)) vs k m a b.
Proof.
  intros Hok Hv Ha Hb Hr Hs. split; [done|by rewrite lookup_insert_eq|done|done|].
  intros b' ys Hr' Hg. rewrite insert_insert_eq, <- (insert_delete_eq vs), <- (insert_delete_eq m).
  apply ok_insert_new; [by apply ok_remove|by rewrite lookup_delete_eq|done..].
Qed.

Lemma released_none c bufs a : bufs !! a = None → released c bufs !! a = None.
Proof.
  intros Hb. destruct (decide (a = c)) as [->|?]; [|by rewrite released_ne]. unfold released. by rewrite Hb.
Qed.

(** The block of the vector, when no other one uses it. *)
Lemma sole_old bufs vs m k v b xs :
  ok bufs vs m → vs !! k = Some v → m !! k = Some xs → bufs !! mStorage v = Some b → mRefs b = 1 →
  sole bufs vs k m (mStorage v) b.
Proof.
  intros Hok Hv Hx Hb Hr. destruct (ok_buf _ _ _ _ Hok _ _ Hb) as (Ha & _).
  destruct (ok_held _ _ _ _ _ _ _ _ Hok Hv Hx) as (_ & [[? _]|(_ & b' & Hb' & [Hs _])]); [done|].
  replace b' with b in Hs by congruence.
  assert (E : released (mStorage v) bufs = delete (mStorage v) bufs) by (unfold released; by rewrite Hb, Hr).
  split; [done..|]. intros b2 ys Hr' Hg. rewrite <- (insert_delete_eq vs), <- (insert_delete_eq m), <- (insert_delete_eq bufs).
  apply ok_insert_new; [rewrite <- E; by apply ok_remove|by rewrite lookup_delete_eq|done| |done|done].
  by rewrite lookup_delete_eq.
Qed.

(** Other vectors have other blocks, as they were. *)
Lemma sole_other bufs vs m k a b k' w ys :
  sole bufs vs k m a b → k' ≠ k → vs !! k' = Some w → m !! k' = Some ys → mStorage w ≠ a ∧ held bufs w ys.
Proof.
  intros Hs Hk Hw Hy.
  pose proof (sole_ok _ _ _ _ _ _ Hs (new_block 0) [] eq_refl) as Hok.
  assert (good (new_block 0) []) as Hg.
  { split; [apply new_block_sized; unfold room, sizeof_SharedBuffer; lia|]. exists []. split; [done|]. by right. }
  specialize (Hok Hg).
  assert (mStorage w ≠ a) as Hne.
  { intros E. destruct (ok_buf _ _ _ _ Hok a (new_block 0)) as (_ & Hr & _); [by cbn; rewrite lookup_insert_eq|].
    cbn [s_vecs] in Hr. rewrite <- (insert_delete_eq vs), sharers_insert in Hr by (by rewrite lookup_delete_eq). cbn [mStorage] in Hr.
    rewrite Z.eqb_refl in Hr.
    pose proof (sharers_pos (delete k vs) k' w a ltac:(by rewrite lookup_delete_ne) E). cbn in Hr. lia. }
  split; [done|]. eapply (held_same itemSize td (<[a := new_block 0]> bufs)).
  - intros c _ Hc. rewrite lookup_insert_ne in Hc by done. by exists c.
  - eapply ok_held; [done|by rewrite lookup_insert_ne|by rewrite lookup_insert_ne].
Qed.
(** ** The operations on the storage *)

Lemma capacity_null bufs vs k v : vs !! k = Some v → mStorage v = 0 → capacity itemSize k (mk_store bufs vs) = Ok (0, mk_store bufs vs).
Proof. intros Hv E. unfold capacity. erewrite st_bind_eq by (by apply vector_eq). by rewrite E. Qed.

Lemma capacity_eq bufs vs k v b :
  vs !! k = Some v → mStorage v ≠ 0 → bufs !! mStorage v = Some b → sized b →
  capacity itemSize k (mk_store bufs vs) = Ok (Z.of_nat (length (b_cells b)), mk_store bufs vs).
Proof.
  intros Hv Hn Hb [Hs _]. unfold capacity. erewrite st_bind_eq by (by apply vector_eq).
  rewrite (proj2 (Z.eqb_neq (mStorage v) 0)) by done. erewrite st_bind_eq by (by apply buf_eq).
  rewrite Hs, Z.mul_comm, Z.div_mul by lia. done.
Qed.

(** The items of a vector, read while there is a new block. *)
Lemma held_items bufs vs v xs sb b i n :
  held bufs v xs → bufs !! sb = None → mStorage v ≠ 0 → (i + n ≤ length xs)%nat →
  items (Cells (mStorage v) i) n (mk_store (<[sb := b]> bufs) vs) =
    Ok (take n (drop i xs), mk_store (<[sb := b]> bufs) vs).
Proof.
  intros (_ & Hs) Hsb Hn Hle. destruct Hs as [[? _]|(_ & b' & Hb' & _ & g & Hg & _)]; [done|].
  eapply (items_cells _ _ _ b' (Some <$> take i xs) _ ((Some <$> drop (i + n) xs) ++ g)).
  - by rewrite lookup_insert_ne by congruence.
  - rewrite Hg, !app_assoc, <- !fmap_app, <- drop_drop, <- app_assoc, take_drop, take_drop. done.
  - rewrite length_fmap, length_take. lia.
  - rewrite length_take, length_drop. lia.
Qed.

(** A copy of the items [xs] at [i] of a new block. *)
Lemma copy_new bufs vs v xs sb b l g r i j n :
  held bufs v xs → bufs !! sb = None → mStorage v ≠ 0 → (j + n ≤ length xs)%nat →
  b_cells b = l ++ g ++ r → i = length l → free g → length g = n →
  _do_copy td sb i (Cells (mStorage v) j) n (mk_store (<[sb := b]> bufs) vs) =
    Ok (tt, mk_store (<[sb := b <| b_cells := l ++ (Some <$> take n (drop j xs)) ++ r |>]> bufs) vs).
Proof.
  intros Hh Hsb Hn Hle Hc Hi Hg Hl. erewrite _do_copy_eq; [by rewrite insert_insert_eq| | |exact Hc|done|done|].
  - by apply held_items.
  - by rewrite lookup_insert_eq.
  - rewrite length_take, length_drop. lia.
Qed.

(** The vector leaves its storage for a new block. *)
Lemma replace_storage bufs vs m k v xs sb b :
  ok bufs vs m → vs !! k = Some v → m !! k = Some xs → sb ≠ 0 → bufs !! sb = None →
  (release_storage k ;; set_vector k (λ v, v <| mStorage := sb |>)) (mk_store (<[sb := b]> bufs) vs) =
    Ok (tt, mk_store (<[sb := b]> (released (mStorage v) bufs)) (<[k := v <| mStorage := sb |>]> vs)).
Proof.
  intros Hok Hv Hx Hsb Hf. assert (Hh : held bufs v xs) by by eapply ok_held.
  erewrite st_bind_eq.
  2: { apply (release_storage_eq _ _ _ v xs); [rewrite lookup_insert_ne by done; by eapply ok_null|done|].
       revert Hh. apply held_same. intros b' _ Hb. exists b'. rewrite lookup_insert_ne by congruence. done. }
  rewrite released_insert; [by erewrite set_vector_eq|]. intros ->.
  destruct Hh as (_ & [[? _]|(_ & b' & Hb & _)]); congruence.
Qed.

Lemma good_storage bufs v xs : held bufs v xs → (0 < length xs)%nat → mStorage v ≠ 0.
Proof. intros (_ & [[_ ->]|[Hn _]]); [simpl; lia|done]. Qed.

Lemma replicate_split (c : option A) (a n : nat) : (a ≤ n)%nat → replicate n c = replicate a c ++ replicate (n - a) c.
Proof. intros H. rewrite <- replicate_add. f_equal. lia. Qed.

Lemma move_to_new_eq bufs vs m k v xs nc w1 w2 tt_ num :
  ok bufs vs m → vs !! k = Some v → m !! k = Some xs → room nc →
  (w1 ≤ w2)%nat → (w2 + num = length xs)%nat → (w1 ≤ tt_)%nat → Z.of_nat (tt_ + num) ≤ nc →
  ∃ sb b bufs', move_to_new malloc itemSize td k nc (Z.of_nat w1) (Z.of_nat w2) (Z.of_nat tt_) (Z.of_nat num) (mk_store bufs vs) =
      Ok (tt, mk_store bufs' (<[k := v <| mStorage := sb |>]> vs)) ∧
    sole bufs' vs k m sb b ∧ Z.of_nat (length (b_cells b)) = nc ∧
    ∃ r, free r ∧ b_cells b = (Some <$> take w1 xs) ++ replicate (tt_ - w1) None ++ (Some <$> drop w2 xs) ++ r.
Proof.
  intros Hok Hv Hx Hroom Hw Hnum Ht Hnc. assert (Hh : held bufs v xs) by by eapply ok_held.
  pose proof (proj1 Hroom) as Hnc0.
  destruct (alloc_eq bufs vs nc Hroom) as (sb & Hsb & Hf & E).
  set (b1 := new_block nc <| b_cells := (Some <$> take w1 xs) ++ replicate (Z.to_nat nc - w1) None |>).
  set (r := replicate (Z.to_nat nc - tt_ - num) None : list (option A)).
  set (b2 := new_block nc <| b_cells := (Some <$> take w1 xs) ++ replicate (tt_ - w1) None ++ (Some <$> drop w2 xs) ++ r |>).
  assert (Hlen : length (b_cells b2) = Z.to_nat nc).
  { cbn. unfold r. rewrite !length_app, !length_fmap, !length_replicate, length_take, length_drop. lia. }
  exists sb, b2, (<[sb := b2]> (released (mStorage v) bufs)). split_and!; [| |rewrite Hlen; lia|].
  2: { apply sole_new; [done..|by apply released_none|done|]. split; [rewrite Hlen; cbn; lia|]. cbn. destruct Hroom. lia. }
  2: { exists r. split; [apply free_replicate|done]. }
  unfold move_to_new. erewrite st_bind_eq by (by apply vector_eq). erewrite st_bind_eq by done.
  rewrite (proj2 (Z.eqb_neq sb 0)) by done. cbn [negb when].
  erewrite st_bind_eq.
  2: { instantiate (1 := mk_store (<[sb := b1]> bufs) vs). instantiate (1 := tt).
       destruct (decide (w1 = 0%nat)) as [->|Hw1]; [cbn; unfold b1; by rewrite Nat.sub_0_r|].
       rewrite (proj2 (Z.eqb_neq (Z.of_nat w1) 0)) by lia. cbn [negb when]. rewrite Nat2Z.id.
       erewrite (copy_new bufs vs v xs sb (new_block nc) [] (replicate w1 None) (replicate (Z.to_nat nc - w1) None));
         [done|done|done| |lia| |done|apply free_replicate|by rewrite length_replicate].
       - eapply good_storage; [done|lia].
       - cbn. apply replicate_split. lia. }
  erewrite st_bind_eq.
  2: { instantiate (1 := mk_store (<[sb := b2]> bufs) vs). instantiate (1 := tt).
       assert (Hsplit : b_cells b1 = ((Some <$> take w1 xs) ++ replicate (tt_ - w1) None) ++ replicate num None ++ r).
       { unfold b1, r. cbn. rewrite <- app_assoc. f_equal. rewrite <- !replicate_add. f_equal. lia. }
       destruct (decide (num = 0%nat)) as [->|Hn0].
       { cbn. unfold b1, b2. rewrite (drop_ge xs w2) by lia. cbn. unfold r. rewrite <- replicate_add.
         by replace (tt_ - w1 + (Z.to_nat nc - tt_ - 0))%nat with (Z.to_nat nc - w1)%nat by lia. }
       rewrite (proj2 (Z.eqb_neq (Z.of_nat num) 0)) by lia. cbn [negb when]. rewrite !Nat2Z.id.
       erewrite (copy_new bufs vs v xs sb b1); [|done|done| | |exact Hsplit| |apply free_replicate|by rewrite length_replicate].
       - rewrite (take_ge (drop w2 xs)) by (rewrite length_drop; lia). by rewrite <- app_assoc.
       - eapply good_storage; [done|lia].
       - lia.
       - rewrite length_app, length_fmap, length_take, length_replicate. lia. }
  by eapply replace_storage.
Qed.
(** A new block with the items of a vector. *)
Definition filled (nc : Z) xs : buffer A :=
  new_block nc <| b_cells := (Some <$> xs) ++ replicate (Z.to_nat nc - length xs) None |>.

Lemma filled_length nc xs : Z.of_nat (length xs) ≤ nc → Z.of_nat (length (b_cells (filled nc xs))) = nc.
Proof. intros H. cbn. rewrite length_app, length_fmap, length_replicate. lia. Qed.

Lemma filled_good nc xs : room nc → Z.of_nat (length xs) ≤ nc → good (filled nc xs) xs.
Proof.
  intros [H1 H2] H. split; [|by exists (replicate (Z.to_nat nc - length xs) None); split; [|apply free_replicate]].
  unfold VectorSpec.sized. rewrite filled_length by done. cbn. lia.
Qed.

Lemma copy_all bufs vs v xs sb nc :
  held bufs v xs → bufs !! sb = None → mStorage v ≠ 0 → Z.of_nat (length xs) ≤ nc →
  _do_copy td sb 0 (Cells (mStorage v) 0) (Z.to_nat (mCount v)) (mk_store (<[sb := new_block nc]> bufs) vs) =
    Ok (tt, mk_store (<[sb := filled nc xs]> bufs) vs).
Proof.
  intros Hh Hsb Hn Hle. rewrite (proj1 Hh), Nat2Z.id.
  erewrite (copy_new bufs vs v xs sb (new_block nc) [] (replicate (length xs) None) (replicate (Z.to_nat nc - length xs) None));
    [|done|done|done|lia| |done|apply free_replicate|by rewrite length_replicate].
  - by rewrite drop_0, take_ge by lia.
  - cbn. apply replicate_split. lia.
Qed.

Lemma held_block bufs v xs : held bufs v xs → mStorage v ≠ 0 → ∃ b, bufs !! mStorage v = Some b ∧ good b xs.
Proof. intros (_ & [[? _]|[_ H]]) Hn; [done|exact H]. Qed.

Lemma good_fits b xs : good b xs → (length xs ≤ length (b_cells b))%nat.
Proof. intros (_ & g & -> & _). rewrite length_app, length_fmap. lia. Qed.

Lemma sized_room b : sized b → room (Z.of_nat (length (b_cells b))).
Proof. intros [H1 H2]. split; lia. Qed.

Lemma same_storage vs k v : vs !! k = Some v → <[k := v <| mStorage := mStorage v |>]> vs = vs.
Proof. intros Hv. apply insert_id. rewrite Hv. by destruct v. Qed.

Lemma editArrayImpl_eq bufs vs m k v xs b0 :
  ok bufs vs m → vs !! k = Some v → m !! k = Some xs → bufs !! mStorage v = Some b0 →
  ∃ a b bufs', editArrayImpl malloc itemSize td k (mk_store bufs vs) =
      Ok (a, mk_store bufs' (<[k := v <| mStorage := a |>]> vs)) ∧
    sole bufs' vs k m a b ∧ good b xs ∧ length (b_cells b) = length (b_cells b0).
Proof.
  intros Hok Hv Hx Hb. assert (Hh : held bufs v xs) by by eapply ok_held.
  destruct (ok_buf _ _ _ _ Hok _ _ Hb) as (Hn & _ & _).
  destruct (held_block _ _ _ Hh Hn) as (b1 & Hb1 & Hg). replace b1 with b0 in Hg by congruence. clear b1 Hb1.
  unfold editArrayImpl. erewrite st_bind_eq by (by apply vector_eq). rewrite (proj2 (Z.eqb_neq (mStorage v) 0)) by done.
  unfold onlyOwner. erewrite st_bind_eq by (by erewrite st_bind_eq by (by apply buf_eq)).
  destruct (Z.eqb_spec (mRefs b0) 1) as [Hr|Hr].
  { exists (mStorage v), b0, bufs. rewrite same_storage by done. split_and!; [done|by eapply sole_old|done..]. }
  erewrite st_bind_eq by (apply (capacity_eq _ _ _ v b0); [done..|exact (proj1 Hg)]).
  set (nc := Z.of_nat (length (b_cells b0))). pose proof (good_fits _ _ Hg) as Hfit.
  assert (Hroom : room nc) by (apply sized_room, Hg).
  destruct (alloc_eq bufs vs nc Hroom) as (sb & Hsb & Hf & E). erewrite st_bind_eq by exact E.
  rewrite (proj2 (Z.eqb_neq sb 0)) by done.
  erewrite st_bind_eq by (apply (copy_all _ _ _ xs); [done..|lia]).
  exists sb, (filled nc xs), (<[sb := filled nc xs]> (released (mStorage v) bufs)).
  assert (Hgood : good (filled nc xs) xs) by (apply filled_good; [done|lia]). split_and!.
  - pose proof (replace_storage bufs vs m k v xs sb (filled nc xs) Hok Hv Hx Hsb Hf) as (u & s1 & E1 & E2)%st_bind_ok.
    erewrite st_bind_eq by exact E1. by erewrite st_bind_eq by exact E2.
  - apply sole_new; [done..|by apply released_none|done|apply Hgood].
  - done.
  - apply Nat2Z.inj. rewrite filled_length by lia. done.
Qed.

(** ** [editResize] *)

Lemma resize_cells_at nc ys g :
  room nc → Z.of_nat (length ys) ≤ nc →
  ∃ g', resize_cells itemSize (nc * itemSize) ((Some <$> ys) ++ g) = (Some <$> ys) ++ g' ∧
    Z.of_nat (length ((Some <$> ys) ++ g')) = nc.
Proof.
  intros [H1 H2] Hl. unfold resize_cells. rewrite new_cells_length by done. unfold new_cells.
  rewrite Z.div_mul by lia. rewrite drop_replicate.
  rewrite take_app_ge by (rewrite length_fmap; lia). rewrite <- app_assoc. eexists. split; [done|].
  rewrite !length_app, length_fmap, length_take, length_replicate. lia.
Qed.

Lemma editResize_eq bufs vs m k v ys g b0 nc :
  td = true → ok bufs vs m → vs !! k = Some v → bufs !! mStorage v = Some b0 → sized b0 →
  b_cells b0 = (Some <$> ys) ++ g → room nc → Z.of_nat (length ys) ≤ nc → is_Some (m !! k) →
  ∃ sb b bufs' g', editResize malloc itemSize td (mStorage v) (u32 (nc * itemSize)) (mk_store bufs vs) = Ok (sb, mk_store bufs' vs) ∧
    sole bufs' vs k m sb b ∧ Z.of_nat (length (b_cells b)) = nc ∧ b_cells b = (Some <$> ys) ++ g'.
Proof.
  intros Htd Hok Hv Hb Hs Hc Hroom Hl [xs Hx]. destruct (ok_buf _ _ _ _ Hok _ _ Hb) as (Hn & _ & _).
  rewrite u32_small by (destruct Hroom; unfold sizeof_SharedBuffer in *; nia). unfold editResize. erewrite st_bind_eq by (by apply buf_eq).
  erewrite st_bind_eq by done. cbn [s_bufs].
  destruct (resize_cells_at nc ys g Hroom Hl) as (g' & Eg & Hlen). rewrite <- Hc in Eg.
  destruct Hroom as [Hr1 Hr2]. pose proof (block_bytes_small nc Hr1 Hr2) as Eb. pose proof (conj Hr1 Hr2 : room nc) as Hroom.
  unfold sizeof_SharedBuffer in Hr2, Eb. rewrite Eb.
  destruct (malloc_ok (delete (mStorage v) bufs) (16 + nc * itemSize)) as [Hsb Hf]; [nia|].
  destruct (Z.eqb_spec (mRefs b0) 1) as [Hr|Hr]; [destruct (Z.eqb_spec (mSize b0) (nc * itemSize)) as [Hz|Hz]|]; cbn [andb].
  - exists (mStorage v), b0, bufs, g. split_and!; [done|by eapply sole_old| |done]. destruct Hs. nia.
  - rewrite (proj2 (Z.eqb_neq (malloc _ _) 0)) by done. cbn [negb orb]. unfold sizeof_SharedBuffer.
    rewrite (proj2 (Z.ltb_ge _ 16)) by nia.
    exists (malloc (delete (mStorage v) bufs) (16 + nc * itemSize)). do 2 eexists. exists g'. split_and!; [by erewrite st_bind_eq by done| | |].
    + assert (E : delete (mStorage v) bufs = released (mStorage v) bufs) by (unfold released; by rewrite Hb, Hr).
      cbn [s_bufs]. rewrite E in Hsb, Hf |- *. apply sole_new; [done..|]. unfold VectorSpec.sized. cbn [b_cells mSize].
      rewrite Eg, Hlen. destruct Hroom. lia.
    + cbn [b_cells]. by rewrite Eg.
    + done.
  - destruct (alloc_eq bufs vs nc Hroom) as (sb & Hsb' & Hf' & E). rewrite u32_small in E by (destruct Hroom; unfold sizeof_SharedBuffer in *; nia).
    erewrite st_bind_eq by exact E. rewrite (proj2 (Z.eqb_neq sb 0)) by done.
    erewrite st_bind_eq by (apply set_buf_eq, lookup_insert_eq).
    assert (sb ≠ mStorage v) by congruence.
    erewrite st_bind_eq by (apply release_eq; [by rewrite !lookup_insert_ne by done|by right]).
    set (b := new_block nc <| b_cells := resize_cells itemSize (nc * itemSize) (b_cells b0) |>).
    assert (Hcells : b_cells b = (Some <$> ys) ++ g') by (by rewrite <- Eg).
    exists sb, b, (<[sb := b]> (released (mStorage v) bufs)), g'. split_and!; [| |by rewrite Hcells|done].
    + unfold released. rewrite Hb, (proj2 (Z.eqb_neq (mRefs b0) 1)), insert_insert_eq by done. by rewrite insert_insert_ne.
    + apply sole_new; [done..|by apply released_none|done|]. unfold VectorSpec.sized.
      rewrite Hcells, Hlen. destruct Hroom. cbn. lia.
Qed.
End storage.
