(* ===== verification/VectorOps.v ===== *)
(** Room is made in a vector, and taken away: [_grow] and [_shrink], with
    storage of its own, shared storage or none. *)
From S2P Require Import Prelude VectorImpl VectorSpec VectorStorage.
Import Vectors.

Section ops.
Context {A : Type} (malloc : gmap Z (buffer A) → Z → Z) (itemSize : Z) (td tc tm : bool).
Context (itemSize_pos : 0 < itemSize).
(** There is memory. *)
Context (malloc_ok : ∀ h n, 0 ≤ n < 2 ^ 32 → malloc h n ≠ 0 ∧ h !! malloc h n = None).
Implicit Types (bufs : gmap Z (buffer A)) (vs : gmap Z vec) (m : gmap Z (list A)) (xs ys : list A) (b : buffer A).

Notation free := (free td).
Notation sized := (sized itemSize).
Notation good := (good itemSize td).
Notation held := (held itemSize td).
Notation ok bufs vs m := (vectors_ok itemSize td (mk_store bufs vs) m).
Notation sole := (sole itemSize td).
Notation room := (room itemSize).
Notation _grow := (_grow malloc itemSize td tc tm).
Notation _shrink := (_shrink malloc itemSize td tc tm).

(** The sizes of the code do not wrap around for [n] items. *)
Definition fits (n : Z) : Prop := 0 ≤ n ∧ 3 * n + 1 < 2 ^ 32 ∧ room (Z.max 4 ((3 * n + 1) / 2)).

Lemma fits_le n n' : 0 ≤ n' ≤ n → fits n → fits n'.
Proof.
  clear itemSize_pos. intros Hn (H0 & H1 & H2 & H3). split_and!; [lia..|]. split; [lia|]. unfold sizeof_SharedBuffer in *.
  assert ((3 * n' + 1) / 2 ≤ (3 * n + 1) / 2) by (apply Z.div_le_mono; lia). destruct (Z.le_ge_cases itemSize 0); nia.
Qed.

(** The count stays when the storage changes. *)
Lemma at_storage (v : vec) a n : mCount v = n → v <| mStorage := a |> = mk_vec a n.
Proof. by intros <-. Qed.

(** The room there is for the items of a vector. *)
Lemma capacity_ok bufs vs m k v xs :
  ok bufs vs m → vs !! k = Some v → m !! k = Some xs →
  ∃ cap, capacity itemSize k (mk_store bufs vs) = Ok (Z.of_nat cap, mk_store bufs vs) ∧
    (mStorage v = 0 ∧ cap = 0%nat ∧ xs = [] ∨
     mStorage v ≠ 0 ∧ ∃ b, bufs !! mStorage v = Some b ∧ good b xs ∧ cap = length (b_cells b)).
Proof.
  intros Hok Hv Hx. destruct (ok_held _ _ _ _ _ _ _ _ Hok Hv Hx) as (_ & [[Hn ->]|(Hn & b & Hb & Hg)]).
  - exists 0%nat. split; [by eapply capacity_null|by left].
  - exists (length (b_cells b)). split; [eapply capacity_eq; [done..|apply Hg]|right]. eauto.
Qed.

(** [resize_storage], when the block keeps the items [ys]. *)
Lemma resize_storage_eq bufs vs m k v xs ys g b0 nc :
  td = true → ok bufs vs m → vs !! k = Some v → m !! k = Some xs → bufs !! mStorage v = Some b0 → sized b0 →
  b_cells b0 = (Some <$> ys) ++ g → room nc → Z.of_nat (length ys) ≤ nc →
  ∃ a b bufs' g', resize_storage malloc itemSize td k nc (mk_store bufs vs) =
      Ok (tt, mk_store bufs' (<[k := v <| mStorage := a |>]> vs)) ∧
    sole bufs' vs k m a b ∧ Z.of_nat (length (b_cells b)) = nc ∧ b_cells b = (Some <$> ys) ++ g'.
Proof.
  intros Htd Hok Hv Hx Hb Hs Hc Hroom Hl. unfold resize_storage. erewrite st_bind_eq by (by apply vector_eq).
  edestruct (editResize_eq malloc itemSize td itemSize_pos malloc_ok bufs vs m k v ys g b0 nc)
    as (a & b & bufs' & g' & E & Hsole & H); [done..|by exists xs|].
  exists a, b, bufs', g'. split; [|done]. erewrite st_bind_eq by exact E.
  rewrite (proj2 (Z.eqb_neq a 0)) by apply Hsole. by erewrite set_vector_eq.
Qed.

(** The block of a vector with a gap for [n] items at [i]. *)
Definition gapped xs (i n : nat) b : Prop :=
  ∃ g r, b_cells b = (Some <$> take i xs) ++ g ++ (Some <$> drop i xs) ++ r ∧ length g = n ∧ free g ∧ free r.

Lemma gapped_end xs n b g :
  b_cells b = (Some <$> xs) ++ g → free g → (length xs + n ≤ length (b_cells b))%nat → gapped xs (length xs) n b.
Proof.
  intros Hc Hg Hl. rewrite Hc, length_app, length_fmap in Hl. exists (take n g), (drop n g).
  rewrite take_ge, drop_ge by lia. cbn. rewrite take_drop. split_and!; [done|rewrite length_take; lia|by apply free_take|by apply free_drop].
Qed.

(** Items are moved up to make a gap. *)
Lemma gap_ok bufs vs m k a b xs i n :
  sole bufs vs k m a b → good b xs → (i < length xs)%nat → (0 < n)%nat → (length xs + n ≤ length (b_cells b))%nat →
  ∃ b', in_buffer a (move_forward_type td tc tm (i + n) i (length xs - i)) (mk_store bufs (<[k := mk_vec a (Z.of_nat (length xs))]> vs)) =
      Ok (tt, mk_store (<[a := b']> bufs) (<[k := mk_vec a (Z.of_nat (length xs))]> vs)) ∧
    sole (<[a := b']> bufs) vs k m a b' ∧ gapped xs i n b' ∧ length (b_cells b') = length (b_cells b).
Proof.
  intros Hsole ([Hs1 Hs2] & g & Hc & Hg) Hi Hn Hl.
  assert (Hlg : (n ≤ length g)%nat) by (rewrite Hc, length_app, length_fmap in Hl; lia).
  destruct (move_forward_at td tc tm (Some <$> take i xs) (drop i xs) (take n g) (drop n g) (i + n) i (length xs - i))
    as (g' & Hl' & Hg' & E).
  - rewrite length_fmap, !length_take. lia.
  - rewrite length_fmap, length_take. lia.
  - by rewrite length_drop.
  - by apply free_take.
  - intros E. apply (f_equal length) in E. rewrite length_take in E. simpl in E. lia.
  - rewrite length_take in Hl'. rewrite take_drop, app_assoc, <- fmap_app, take_drop, <- Hc in E.
    set (b' := b <| b_cells := (Some <$> take i xs) ++ g' ++ (Some <$> drop i xs) ++ drop n g |>).
    assert (Hlen : length (b_cells b') = length (b_cells b)).
    { cbn. rewrite Hc, !length_app, !length_fmap, length_take, !length_drop. lia. }
    exists b'. split_and!; [| | |done].
    + apply in_buffer_eq; [apply Hsole|exact E].
    + eapply sole_update; [done|apply Hsole|]. split; [by rewrite Hlen|done].
    + exists g', (drop n g). split_and!; [done|lia|done|by apply free_drop].
Qed.

Lemma grow_eq bufs vs m k v xs i n :
  ok bufs vs m → vs !! k = Some v → m !! k = Some xs → (i ≤ length xs)%nat → (0 < n)%nat →
  fits (Z.of_nat (length xs + n)) →
  ∃ a b bufs', _grow k (Z.of_nat i) (Z.of_nat n) (mk_store bufs vs) =
      Ok (a, mk_store bufs' (<[k := mk_vec a (Z.of_nat (length xs + n))]> vs)) ∧
    sole bufs' vs k m a b ∧ gapped xs i n b.
Proof.
  intros Hok Hv Hx Hi Hn (Hf0 & Hf1 & Hroom). destruct (capacity_ok _ _ _ _ _ _ Hok Hv Hx) as (cap & Ecap & Hcap).
  pose proof (proj1 (ok_held _ _ _ _ _ _ _ _ Hok Hv Hx)) as Hcount.
  assert (Hbody : ∃ a b bufs', sole bufs' vs k m a b ∧ gapped xs i n b ∧ (length xs + n ≤ length (b_cells b))%nat ∧
    (if Z.of_nat cap <? Z.of_nat (length xs + n) then
       let new_capacity := Z.max kMinVectorCapacity (u32 (u32 (Z.of_nat (length xs + n) * 3) + 1) / 2) in
       if negb (mStorage v =? 0) && (mCount v =? Z.of_nat i) && tc && td then resize_storage malloc itemSize td k new_capacity
       else move_to_new malloc itemSize td k new_capacity (Z.of_nat i) (Z.of_nat i) (Z.of_nat i + Z.of_nat n) (mCount v - Z.of_nat i)
     else
       array ← editArrayImpl malloc itemSize td k;
       when (negb (Z.of_nat i =? mCount v))
         (in_buffer array (move_forward_type td tc tm (Z.to_nat (Z.of_nat i + Z.of_nat n)) (Z.to_nat (Z.of_nat i)) (Z.to_nat (mCount v - Z.of_nat i)))))
      (mk_store bufs vs) = Ok (tt, mk_store bufs' (<[k := v <| mStorage := a |>]> vs))).
  { destruct (Z.ltb_spec (Z.of_nat cap) (Z.of_nat (length xs + n))) as [Hlt|Hge].
    - rewrite (u32_small (_ * 3)), u32_small by lia.
      replace (Z.of_nat (length xs + n) * 3 + 1) with (3 * Z.of_nat (length xs + n) + 1) by lia.
      change kMinVectorCapacity with 4. cbn zeta. set (nc := Z.max 4 _) in *.
      assert (Z.of_nat (length xs + n) ≤ nc) by (subst nc; Z.to_euclidean_division_equations; lia).
      destruct (negb (mStorage v =? 0) && (mCount v =? Z.of_nat i) && tc && td) eqn:Htriv.
      + apply andb_prop in Htriv as [[[Hs0 Hci%Z.eqb_eq]%andb_prop Htc]%andb_prop Htd].
        assert (i = length xs) as -> by lia.
        destruct Hcap as [(E & _)|(Hs & b0 & Hb0 & [Hsz (g & Hg & _)] & _)]; [by rewrite E in Hs0|].
        edestruct (resize_storage_eq bufs vs m k v xs xs g b0 nc) as (a & b & bufs' & g' & E & Hsole & Hlen & Hc); [done..|lia|].
        exists a, b, bufs'. split_and!; [done| |lia|done]. eapply gapped_end; [done|by left|lia].
      + edestruct (move_to_new_eq malloc itemSize td itemSize_pos malloc_ok bufs vs m k v xs nc i i (i + n) (length xs - i))
          as (a & b & bufs' & E & Hsole & Hlen & r & Hr & Hc); [done..|lia|lia|lia|lia|].
        exists a, b, bufs'. split_and!; [done| |lia|].
        * exists (replicate (i + n - i) None), r. split_and!; [done|rewrite length_replicate; lia|apply free_replicate|done].
        * rewrite Nat2Z.inj_add in E. rewrite Hcount, <- Nat2Z.inj_sub by lia. exact E.
    - destruct Hcap as [(_ & -> & _)|(Hs & b0 & Hb0 & Hg0 & Hcap)]; [lia|].
      edestruct (editArrayImpl_eq malloc itemSize td itemSize_pos malloc_ok bufs vs m k v xs b0)
        as (a & b & bufs' & E & Hsole & Hg & Hlen); [done..|].
      rewrite Hcount. destruct (Z.eqb_spec (Z.of_nat i) (Z.of_nat (length xs))) as [Heq|Hne].
      + assert (i = length xs) as -> by lia. exists a, b, bufs'. destruct Hg as [_ (g & Hc & Hg)].
        split_and!; [done|eapply gapped_end; [done..|lia]|lia|]. by erewrite st_bind_eq by exact E.
      + destruct (gap_ok bufs' vs m k a b xs i n Hsole Hg) as (b' & E' & Hsole' & Hgap & Hlen'); [lia..|].
        exists a, b', (<[a := b']> bufs'). split_and!; [done..|lia|]. erewrite st_bind_eq by exact E. cbn [negb when].
        rewrite <- Nat2Z.inj_add, <- Nat2Z.inj_sub, !Nat2Z.id by lia.
        by rewrite (at_storage v a _ Hcount). }
  destruct Hbody as (a & b & bufs' & Hsole & Hgap & Hlen & E). exists a, b, bufs'. split; [|done].
  unfold Vectors._grow. erewrite st_bind_eq by (by apply vector_eq). erewrite st_bind_eq by exact Ecap.
  replace (u32 (mCount v + Z.of_nat n)) with (Z.of_nat (length xs + n)) by (rewrite u32_small; lia).
  rewrite (u32_small (Z.of_nat i + Z.of_nat n)) by lia.
  erewrite st_bind_eq by exact E. erewrite st_bind_eq by (apply set_vector_eq, lookup_insert_eq).
  rewrite insert_insert_eq. unfold itemLocation. erewrite st_bind_eq.
  2: { eapply (capacity_eq _ itemSize_pos _ _ _ _ b); [apply lookup_insert_eq|apply Hsole..]. }
  rewrite (proj2 (Z.ltb_lt _ _)) by lia. by erewrite st_bind_eq by (apply vector_eq, lookup_insert_eq).
Qed.
(** ** [_shrink] *)

(** The list of a vector without [n] items at [i]. *)
Definition without (i n : nat) xs : list A := take i xs ++ drop (i + n) xs.

Lemma length_without i n xs : (i + n ≤ length xs)%nat → length (without i n xs) = (length xs - n)%nat.
Proof. intros H. unfold without. rewrite length_app, length_take, length_drop. lia. Qed.

Lemma without_end n xs i : (i + n = length xs)%nat → without i n xs = take i xs.
Proof. intros H. unfold without. by rewrite drop_ge, app_nil_r by lia. Qed.

(** Items are destroyed and those behind them moved down. *)
Lemma close_ok bufs vs m k a b xs i n :
  sole bufs vs k m a b → good b xs → (i + n ≤ length xs)%nat → (0 < n ∨ i = length xs)%nat →
  ∃ b', (in_buffer a (destroy_cells td i n) ;;
      when (negb (Z.of_nat i =? Z.of_nat (length xs - n)))
        (in_buffer a (move_backward_type td tc tm i (i + n) (length xs - n - i)))) (mk_store bufs vs) =
      Ok (tt, mk_store (<[a := b']> bufs) vs) ∧
    sole (<[a := b']> bufs) vs k m a b' ∧ good b' (without i n xs).
Proof.
  intros Hsole ([Hs1 Hs2] & g & Hc & Hg) Hle Hn.
  assert (E1 : b_cells b = (Some <$> take i xs) ++ (Some <$> take n (drop i xs)) ++ (Some <$> drop (i + n) xs) ++ g).
  { rewrite Hc, !app_assoc, <- !fmap_app, <- drop_drop, <- app_assoc, !take_drop. done. }
  pose proof (destroy_cells_at td (Some <$> take i xs) (take n (drop i xs)) ((Some <$> drop (i + n) xs) ++ g) i n
    ltac:(rewrite length_fmap, length_take; lia) ltac:(rewrite length_take, length_drop; lia)) as E2.
  rewrite <- E1 in E2. set (d := dead td <$> take n (drop i xs)) in *.
  assert (Hd : free d) by apply free_dead.
  assert (Hdl : length d = n) by (unfold d; rewrite length_fmap, length_take, length_drop; lia).
  set (b1 := b <| b_cells := (Some <$> take i xs) ++ d ++ (Some <$> drop (i + n) xs) ++ g |>).
  assert (E3 : in_buffer a (destroy_cells td i n) (mk_store bufs vs) = Ok (tt, mk_store (<[a := b1]> bufs) vs)).
  { apply in_buffer_eq; [apply Hsole|exact E2]. }
  assert (Hfin : ∀ b' g', b' = b <| b_cells := (Some <$> without i n xs) ++ g' |> → free g' →
    length (b_cells b') = length (b_cells b) → sole (<[a := b']> bufs) vs k m a b' ∧ good b' (without i n xs)).
  { intros b' g' -> Hg' Hlen. assert (Hsz : sized (b <| b_cells := (Some <$> without i n xs) ++ g' |>)) by (split; [by rewrite Hlen|done]).
    split; [eapply sole_update; [done|apply Hsole|done]|]. split; [done|]. by exists g'. }
  assert (Hlens : ∀ g', length g' = (n + length g)%nat → length ((Some <$> without i n xs) ++ g') = length (b_cells b)).
  { intros g' Hg'. rewrite Hc, !length_app, !length_fmap, length_without by done. lia. }
  destruct (Z.eqb_spec (Z.of_nat i) (Z.of_nat (length xs - n))) as [He|Hne].
  - exists b1. split; [by erewrite st_bind_eq by exact E3|]. apply (Hfin _ (d ++ g)).
    + unfold b1. rewrite (drop_ge xs) by lia. by rewrite without_end by lia.
    + by apply free_app.
    + unfold b1. cbn. rewrite (drop_ge xs) by lia. rewrite <- (without_end n xs i) by lia. apply (Hlens (d ++ g)). rewrite length_app. lia.
  - destruct (move_backward_at td tc tm (Some <$> take i xs) (drop (i + n) xs) d g i (i + n) (length xs - n - i)) as (d' & Hl' & Hd' & E4).
    + rewrite length_fmap, length_take. lia.
    + rewrite length_fmap, length_take. lia.
    + rewrite length_drop. lia.
    + done.
    + intros ->. simpl in Hdl. lia.
    + set (b2 := b <| b_cells := (Some <$> without i n xs) ++ d' ++ g |>).
      exists b2. split.
      * erewrite st_bind_eq by exact E3. cbn [negb when]. erewrite in_buffer_eq; [|apply lookup_insert_eq|exact E4].
        rewrite insert_insert_eq. unfold b2, without. by rewrite fmap_app, <- app_assoc.
      * apply (Hfin _ (d' ++ g)); [done|by apply free_app|]. apply (Hlens (d' ++ g)). rewrite length_app. lia.
Qed.

Lemma shrink_eq bufs vs m k v xs i n :
  ok bufs vs m → vs !! k = Some v → m !! k = Some xs → (i + n ≤ length xs)%nat → (0 < n ∨ i = length xs)%nat →
  fits (Z.of_nat (length xs)) →
  ∃ bufs' v', _shrink k (Z.of_nat i) (Z.of_nat n) (mk_store bufs vs) = Ok (tt, mk_store bufs' (<[k := v']> vs)) ∧
    ok bufs' (<[k := v']> vs) (<[k := without i n xs]> m).
Proof.
  intros Hok Hv Hx Hle Hn (Hf0 & Hf1 & Hroom). destruct (capacity_ok _ _ _ _ _ _ Hok Hv Hx) as (cap & Ecap & Hcap).
  pose proof (proj1 (ok_held _ _ _ _ _ _ _ _ Hok Hv Hx)) as Hcount. unfold Vectors._shrink.
  erewrite st_bind_eq by (by apply vector_eq).
  destruct Hcap as [(E & -> & ->)|(Hs & b0 & Hb0 & Hg0 & ->)].
  { exists bufs, v. rewrite E. cbn [Z.eqb]. simpl in Hle. assert (i = 0%nat ∧ n = 0%nat) as [-> ->] by lia.
    rewrite !insert_id by done. by split. }
  rewrite (proj2 (Z.eqb_neq _ 0)) by done. erewrite st_bind_eq by exact Ecap.
  replace (u32 (mCount v - Z.of_nat n)) with (Z.of_nat (length xs - n)) by (rewrite Hcount, u32_small; lia).
  set (N := (length xs - n)%nat). rewrite (u32_small (Z.of_nat i + Z.of_nat n)) by lia. rewrite (u32_small (_ * 3)), (u32_small (_ * 2)) by lia. cbn zeta.
  assert (Hbody : ∃ a b bufs', sole bufs' vs k m a b ∧ good b (without i n xs) ∧
    (if Z.of_nat N * 3 <? Z.of_nat (length (b_cells b0)) then
       let new_capacity := Z.max kMinVectorCapacity (Z.of_nat N * 2) in
       if (Z.of_nat i =? Z.of_nat N) && tc && td then resize_storage malloc itemSize td k new_capacity
       else move_to_new malloc itemSize td k new_capacity (Z.of_nat i) (Z.of_nat i + Z.of_nat n) (Z.of_nat i) (Z.of_nat N - Z.of_nat i)
     else
       array ← editArrayImpl malloc itemSize td k;
       in_buffer array (destroy_cells td (Z.to_nat (Z.of_nat i)) (Z.to_nat (Z.of_nat n))) ;;
       when (negb (Z.of_nat i =? Z.of_nat N))
         (in_buffer array (move_backward_type td tc tm (Z.to_nat (Z.of_nat i)) (Z.to_nat (Z.of_nat i + Z.of_nat n)) (Z.to_nat (Z.of_nat N - Z.of_nat i)))))
      (mk_store bufs vs) = Ok (tt, mk_store bufs' (<[k := v <| mStorage := a |>]> vs))).
  { destruct (Z.ltb_spec (Z.of_nat N * 3) (Z.of_nat (length (b_cells b0)))) as [Hlt|Hge].
    - change kMinVectorCapacity with 4. cbn zeta. set (nc := Z.max 4 (Z.of_nat N * 2)).
      assert (Hnc : room nc).
      { destruct Hroom as [_ Hr], (proj1 Hg0) as [Hz1 Hz2]. split; [lia|]. subst nc.
        destruct (Z.max_spec 4 (Z.of_nat N * 2)) as [[? ->]|[? ->]]; nia. }
      destruct ((Z.of_nat i =? Z.of_nat N) && tc && td) eqn:Htriv.
      + apply andb_prop in Htriv as [[Hi%Z.eqb_eq Htc]%andb_prop Htd]. destruct Hg0 as [Hsz (g & Hg & _)].
        edestruct (resize_storage_eq bufs vs m k v xs (take i xs) ((Some <$> drop i xs) ++ g) b0 nc)
          as (a & b & bufs' & g' & E & Hsole & Hlen & Hc); [done..| |done| |].
        { by rewrite app_assoc, <- fmap_app, take_drop. }
        { rewrite length_take. lia. }
        exists a, b, bufs'. split_and!; [done| |done]. split; [apply Hsole|]. exists g'. rewrite without_end by lia. split; [done|by left].
      + edestruct (move_to_new_eq malloc itemSize td itemSize_pos malloc_ok bufs vs m k v xs nc i (i + n) i (N - i))
          as (a & b & bufs' & E & Hsole & Hlen & r & Hr & Hc); [done..|lia|lia|lia|lia|].
        exists a, b, bufs'. split_and!; [done| |].
        * split; [apply Hsole|]. exists r. split; [|done]. rewrite Hc, Nat.sub_diag. unfold without. by rewrite fmap_app, <- app_assoc.
        * rewrite Nat2Z.inj_add, Nat2Z.inj_sub in E by lia. exact E.
    - edestruct (editArrayImpl_eq malloc itemSize td itemSize_pos malloc_ok bufs vs m k v xs b0)
        as (a & b & bufs' & E & Hsole & Hg & Hlen); [done..|].
      destruct (close_ok bufs' (<[k := v <| mStorage := a |>]> vs) m k a b xs i n) as (b' & E' & Hsole' & Hg');
        [by apply sole_insert|done..|].
      exists a, b', (<[a := b']> bufs'). split_and!.
      + apply (sole_insert _ _ _ _ _ _ _ _ v) in Hsole'. rewrite (insert_insert_eq vs), (insert_id vs) in Hsole' by done. exact Hsole'.
      + done.
      + erewrite st_bind_eq by exact E. rewrite <- Nat2Z.inj_add, <- Nat2Z.inj_sub, !Nat2Z.id by lia. exact E'. }
  destruct Hbody as (a & b & bufs' & Hsole & Hg & E). erewrite st_bind_eq by exact E.
  erewrite set_vector_eq by apply lookup_insert_eq. rewrite insert_insert_eq. do 2 eexists. split; [done|].
  eapply sole_done; [done..|]. rewrite length_without by done. done.
Qed.
End ops.
