(* ===== verification/VectorRefine.v ===== *)
(** Vectors as lists: every operation on a vector does to its list what its
    name says, to no other vector anything, and no block is lost, whichever
    vectors share their storage. *)
From S2P Require Import Prelude VectorImpl VectorSpec VectorStorage VectorOps.
Import Vectors.

Section refine.
Context {A : Type} (malloc : gmap Z (buffer A) → Z → Z) (itemSize : Z) (dflt : A) (tct td tc tm : bool).
Context (itemSize_pos : 0 < itemSize).
(** There is memory. *)
Context (malloc_ok : ∀ h n, 0 ≤ n < 2 ^ 32 → malloc h n ≠ 0 ∧ h !! malloc h n = None).
Implicit Types (bufs : gmap Z (buffer A)) (vs : gmap Z vec) (m : gmap Z (list A)) (xs ys : list A) (b : buffer A) (s : store A).

Notation free := (free td).
Notation good := (good itemSize td).
Notation held := (held itemSize td).
Notation vok s m := (vectors_ok itemSize td s m).
Notation ok bufs vs m := (vectors_ok itemSize td (mk_store bufs vs) m).
Notation sole := (sole itemSize td).
Notation room := (room itemSize).
Notation fits := (fits itemSize).
Notation gapped := (gapped td).

(** ** Operations on one vector *)

(** [ys] at [i] of a list. *)
Definition inserted (i : nat) ys xs : list A := take i xs ++ ys ++ drop i xs.

Lemma length_inserted i ys xs : length (inserted i ys xs) = (length xs + length ys)%nat.
Proof. unfold inserted. rewrite !length_app, length_take, length_drop. lia. Qed.

Lemma fill_gap bufs vs m k a b xs ys i n (p : ST (list (option A)) unit) :
  sole bufs vs k m a b → gapped xs i n b → (i ≤ length xs)%nat → length ys = n →
  (∀ l g r, i = length l → n = length g → free g → p (l ++ g ++ r) = Ok (tt, l ++ (Some <$> ys) ++ r)) →
  ∃ s', in_buffer a p (mk_store bufs (<[k := mk_vec a (Z.of_nat (length xs + n))]> vs)) = Ok (tt, s') ∧
    vok s' (<[k := inserted i ys xs]> m).
Proof.
  intros Hsole (g & r & Hc & Hl & Hg & Hr) Hi Hys Hp.
  specialize (Hp (Some <$> take i xs) g ((Some <$> drop i xs) ++ r)
    ltac:(rewrite length_fmap, length_take; lia) (eq_sym Hl) Hg). rewrite <- Hc in Hp.
  eexists. split; [eapply in_buffer_eq; [apply Hsole|exact Hp]|]. rewrite app_assoc, app_assoc, <- !fmap_app, <- app_assoc.
  fold (inserted i ys xs).
  assert (Hsz : sized itemSize (b <| b_cells := (Some <$> inserted i ys xs) ++ r |>)).
  { destruct (sole_sized _ _ _ _ _ _ _ _ Hsole) as [H1 H2]. split; [|done]. cbn.
    rewrite Hc, !length_app, !length_fmap, Hl in H1. rewrite H1. f_equal. f_equal.
    rewrite length_app, length_fmap, length_inserted. rewrite length_take, length_drop. lia. }
  eapply sole_done.
  - eapply (sole_update _ _ _ _ _ _ _ b); [done|apply Hsole|exact Hsz].
  - split; [done|]. by exists r.
  - rewrite length_inserted. by rewrite Hys.
Qed.

Lemma insertArrayAt_Ext bufs vs m k xs ys i :
  ok bufs vs m → m !! k = Some xs → (i ≤ length xs)%nat → ys ≠ [] → fits (Z.of_nat (length xs + length ys)) →
  ∃ s', insertArrayAt malloc itemSize td tc tm k (Ext ys) (Z.of_nat i) (Z.of_nat (length ys)) (mk_store bufs vs) = Ok (Z.of_nat i, s') ∧
    vok s' (<[k := inserted i ys xs]> m).
Proof.
  intros Hok Hx Hi Hy Hf. destruct (ok_at _ _ _ _ _ _ _ Hok Hx) as (v & Hv & Hh).
  unfold insertArrayAt. erewrite st_bind_eq by (by apply vector_eq). rewrite (proj1 Hh).
  destruct (Z.gtb_spec (Z.of_nat i) (Z.of_nat (length xs))); [lia|].
  destruct (grow_eq malloc itemSize td tc tm itemSize_pos malloc_ok bufs vs m k v xs i (length ys))
    as (a & b & bufs' & E & Hsole & Hgap); [done..| |done|]; [destruct ys; [done|simpl; lia]|].
  erewrite st_bind_eq by exact E. rewrite (proj2 (Z.eqb_neq a 0)) by apply Hsole. rewrite !Nat2Z.id.
  destruct (fill_gap _ _ _ _ _ _ _ ys _ _ (construct_cells td i ys) Hsole Hgap) as (s' & E' & Hok'); [done..| |].
  { intros. by apply construct_cells_at. }
  exists s'. split; [|done]. unfold _do_copy. cbn [items]. rewrite decide_True by lia. rewrite take_ge by lia.
  erewrite st_bind_eq; [done|]. exact E'.
Qed.

(** The items of another vector are where they were while there is a gap. *)
Lemma other_items bufs vs m k a b v' k' w ys :
  sole bufs vs k m a b → k' ≠ k → vs !! k' = Some w → m !! k' = Some ys → ys ≠ [] →
  items (Cells (mStorage w) 0) (length ys) (mk_store bufs (<[k := v']> vs)) = Ok (ys, mk_store bufs (<[k := v']> vs)).
Proof.
  intros Hsole Hk Hw Hy Hne. destruct (sole_other _ _ itemSize_pos _ _ _ _ _ _ _ _ _ Hsole Hk Hw Hy) as [_ (_ & [[_ ?]|(_ & c & Hc & _ & g & Hg & _)])]; [done|].
  by eapply (items_cells _ _ _ c []).
Qed.

Lemma insertVectorAt_eq bufs vs m k k' xs ys i :
  ok bufs vs m → m !! k = Some xs → m !! k' = Some ys → k' ≠ k → (i ≤ length xs)%nat → ys ≠ [] →
  fits (Z.of_nat (length xs + length ys)) →
  ∃ s', insertVectorAt malloc itemSize td tc tm k k' (Z.of_nat i) (mk_store bufs vs) = Ok (Z.of_nat i, s') ∧
    vok s' (<[k := inserted i ys xs]> m).
Proof.
  intros Hok Hx Hy Hk Hi Hne Hf. destruct (ok_at _ _ _ _ _ _ _ Hok Hx) as (v & Hv & Hh).
  destruct (ok_at _ _ _ _ _ _ _ Hok Hy) as (w & Hw & Hhw).
  unfold insertVectorAt, arrayImpl. erewrite st_bind_eq by (by erewrite st_bind_eq by (by apply vector_eq)).
  erewrite st_bind_eq by (by apply vector_eq). unfold insertArrayAt. erewrite st_bind_eq by (by apply vector_eq).
  rewrite (proj1 Hh), (proj1 Hhw). destruct (Z.gtb_spec (Z.of_nat i) (Z.of_nat (length xs))); [lia|].
  destruct (grow_eq malloc itemSize td tc tm itemSize_pos malloc_ok bufs vs m k v xs i (length ys))
    as (a & b & bufs' & E & Hsole & Hgap); [done..| |done|]; [destruct ys; [done|simpl; lia]|].
  erewrite st_bind_eq by exact E. rewrite (proj2 (Z.eqb_neq a 0)) by apply Hsole. rewrite !Nat2Z.id.
  destruct (fill_gap _ _ _ _ _ _ _ ys _ _ (construct_cells td i ys) Hsole Hgap) as (s' & E' & Hok'); [done..| |].
  { intros. by apply construct_cells_at. }
  exists s'. split; [|done]. unfold _do_copy. erewrite st_bind_eq; [done|].
  erewrite st_bind_eq by (by eapply other_items). exact E'.
Qed.

Lemma concat_singles n (x : A) : concat (replicate n [x]) = replicate n x.
Proof. induction n as [|n IH]; simpl; congruence. Qed.

(** An item, or one that is made without arguments. *)
Definition proto (item : option A) : option (ptr A) := (λ x, Ext [x]) <$> item.

Lemma insertAt_eq bufs vs m k xs (item : option A) i n :
  ok bufs vs m → m !! k = Some xs → (i ≤ length xs)%nat → (0 < n)%nat → fits (Z.of_nat (length xs + n)) →
  (item = None → tct = false) →
  ∃ s', insertAt malloc itemSize dflt tct td tc tm k (proto item) (Z.of_nat i) (Z.of_nat n) (mk_store bufs vs) = Ok (Z.of_nat i, s') ∧
    vok s' (<[k := inserted i (replicate n (default dflt item)) xs]> m).
Proof.
  intros Hok Hx Hi Hn Hf Hd. destruct (ok_at _ _ _ _ _ _ _ Hok Hx) as (v & Hv & Hh).
  unfold insertAt. erewrite st_bind_eq by (by apply vector_eq). rewrite (proj1 Hh).
  destruct (Z.gtb_spec (Z.of_nat i) (Z.of_nat (length xs))); [lia|].
  destruct (grow_eq malloc itemSize td tc tm itemSize_pos malloc_ok bufs vs m k v xs i n)
    as (a & b & bufs' & E & Hsole & Hgap); [done..|].
  erewrite st_bind_eq by exact E. rewrite (proj2 (Z.eqb_neq a 0)) by apply Hsole. rewrite !Nat2Z.id.
  destruct item as [x|]; cbn [default proto fmap option_fmap option_map].
  - destruct (fill_gap _ _ _ _ _ _ _ (replicate n x) _ _ (construct_cells td i (replicate n x)) Hsole Hgap)
      as (s' & E' & Hok'); [done|apply length_replicate| |].
    { intros l g r Hl Hg Hfr. apply construct_cells_at; [done..|]. by rewrite length_replicate. }
    exists s'. split; [|done]. erewrite st_bind_eq; [done|]. unfold _do_splat. rewrite decide_False by lia.
    erewrite st_bind_eq; [|unfold items; rewrite decide_True by (simpl; lia); done].
    cbn [take]. by rewrite concat_singles.
  - destruct (fill_gap _ _ _ _ _ _ _ (replicate n dflt) _ _ (construct_default dflt tct td i n) Hsole Hgap)
      as (s' & E' & Hok'); [done|apply length_replicate| |].
    { intros l g r Hl Hg Hfr. destruct (construct_default_at td dflt tct l g r i n Hl Hg Hfr) as (ys & _ & Hys & E').
      by rewrite (Hys (Hd eq_refl)) in E'. }
    exists s'. split; [|done]. by erewrite st_bind_eq by exact E'.
Qed.

Lemma removeItemsAt_eq bufs vs m k xs i n :
  ok bufs vs m → m !! k = Some xs → (i + n ≤ length xs)%nat → (0 < n ∨ i = length xs)%nat → fits (Z.of_nat (length xs)) →
  ∃ s', removeItemsAt malloc itemSize td tc tm k (Z.of_nat i) (Z.of_nat n) (mk_store bufs vs) = Ok (Z.of_nat i, s') ∧
    vok s' (<[k := without i n xs]> m).
Proof.
  intros Hok Hx Hi Hn Hf. destruct (ok_at _ _ _ _ _ _ _ Hok Hx) as (v & Hv & Hh).
  unfold removeItemsAt. erewrite st_bind_eq by (by apply vector_eq). rewrite (proj1 Hh), u32_small by (destruct Hf; lia).
  destruct (Z.gtb_spec (Z.of_nat i + Z.of_nat n) (Z.of_nat (length xs))); [lia|].
  destruct (shrink_eq malloc itemSize td tc tm itemSize_pos malloc_ok bufs vs m k v xs i n) as (bufs' & v' & E & Hok'); [done..|].
  eexists. split; [by erewrite st_bind_eq by exact E|done].
Qed.

Lemma pop_eq bufs vs m k xs :
  ok bufs vs m → m !! k = Some xs → fits (Z.of_nat (length xs)) →
  ∃ s', pop malloc itemSize td tc tm k (mk_store bufs vs) = Ok (tt, s') ∧ vok s' (<[k := take (length xs - 1) xs]> m).
Proof.
  intros Hok Hx Hf. destruct (ok_at _ _ _ _ _ _ _ Hok Hx) as (v & Hv & Hh).
  unfold pop. erewrite st_bind_eq by (by apply vector_eq). rewrite (proj1 Hh).
  destruct (decide (length xs = 0%nat)) as [E|E].
  - apply nil_length_inv in E as ->. rewrite insert_id by done. by exists (mk_store bufs vs).
  - rewrite (proj2 (Z.eqb_neq _ 0)) by lia. cbn [negb when].
    destruct (removeItemsAt_eq bufs vs m k xs (length xs - 1) 1) as (s' & E' & Hok'); [done..|lia|lia|done|].
    exists s'. replace (Z.of_nat (length xs) - 1) with (Z.of_nat (length xs - 1)) by lia.
    rewrite without_end in Hok' by lia. split; [|done]. by erewrite st_bind_eq by exact E'.
Qed.

Lemma clear_eq bufs vs m k xs :
  ok bufs vs m → m !! k = Some xs → fits (Z.of_nat (length xs)) →
  ∃ s', clear malloc itemSize td tc tm k (mk_store bufs vs) = Ok (tt, s') ∧ vok s' (<[k := []]> m).
Proof.
  intros Hok Hx Hf. destruct (ok_at _ _ _ _ _ _ _ Hok Hx) as (v & Hv & Hh).
  unfold clear. erewrite st_bind_eq by (by apply vector_eq). rewrite (proj1 Hh).
  destruct (shrink_eq malloc itemSize td tc tm itemSize_pos malloc_ok bufs vs m k v xs 0 (length xs))
    as (bufs' & v' & E & Hok'); [done..|lia| |done|].
  { destruct xs; simpl; lia. }
  eexists. split; [exact E|]. by rewrite without_end in Hok'.
Qed.

Lemma release_ok bufs vs m k v :
  ok bufs vs m → vs !! k = Some v →
  release_storage td k (mk_store bufs vs) = Ok (tt, mk_store (released (mStorage v) bufs) vs) ∧
    ok (released (mStorage v) bufs) (delete k vs) (delete k m).
Proof.
  intros Hok Hv. split; [|by apply ok_remove]. destruct (ok_vec _ _ _ _ Hok _ _ Hv) as (xs & _ & Hh).
  eapply release_storage_eq; [by eapply ok_null|done..].
Qed.

Lemma acquire_eq bufs vs a b : bufs !! a = Some b → acquire a (mk_store bufs vs) = Ok (tt, mk_store (acquired a bufs) vs).
Proof. intros Hb. unfold acquire, acquired. rewrite Hb. by apply set_buf_eq. Qed.

Lemma assign_eq bufs vs m k k' xs ys :
  ok bufs vs m → m !! k = Some xs → m !! k' = Some ys →
  ∃ s', assign td k k' (mk_store bufs vs) = Ok (tt, s') ∧ vok s' (<[k := ys]> m).
Proof.
  intros Hok Hx Hy. unfold assign. destruct (Z.eqb_spec k k') as [<-|Hne].
  { rewrite insert_id by done. by exists (mk_store bufs vs). }
  destruct (ok_at _ _ _ _ _ _ _ Hok Hx) as (v & Hv & Hh). destruct (ok_at _ _ _ _ _ _ _ Hok Hy) as (w & Hw & Hhw).
  destruct (release_ok bufs vs m k v Hok Hv) as [E Hok1]. erewrite st_bind_eq by exact E.
  erewrite st_bind_eq by (by apply vector_eq). rewrite (proj1 Hhw).
  assert (Hw' : delete k vs !! k' = Some w) by (by rewrite lookup_delete_ne).
  assert (Hy' : delete k m !! k' = Some ys) by (by rewrite lookup_delete_ne).
  destruct (decide (length ys = 0%nat)) as [E0|E0].
  - apply nil_length_inv in E0 as ->. cbn [length]. change (negb (Z.of_nat 0 =? 0)) with false. cbn iota. rewrite (set_vector_eq _ _ _ _ _ Hv).
    eexists. split; [done|]. rewrite <- (insert_delete_eq vs), <- (insert_delete_eq m).
    apply ok_insert_null; [done|by rewrite lookup_delete_eq].
  - rewrite (proj2 (Z.eqb_neq _ 0)) by lia. cbn [negb]. rewrite (st_bind_eq _ _ _ _ _ (set_vector_eq _ _ _ _ _ Hv)).
    destruct (ok_held _ _ _ _ _ _ _ _ Hok1 Hw' Hy') as (_ & [[_ ->]|(_ & c & Hc & _)]); [done|].
    eexists. split; [by eapply acquire_eq|]. rewrite <- (insert_delete_eq vs), <- (insert_delete_eq m).
    eapply ok_insert_shared; [done|by rewrite lookup_delete_eq|done..].
Qed.

Lemma new_vector_eq bufs vs m k :
  ok bufs vs m → m !! k = None →
  ∃ s', new_vector k (mk_store bufs vs) = Ok (tt, s') ∧ s' = mk_store bufs (<[k := mk_vec 0 0]> vs) ∧ vok s' (<[k := []]> m).
Proof.
  intros Hok Hk. assert (Hv : vs !! k = None).
  { destruct (vs !! k) as [v|] eqn:E; [|done]. destruct (ok_vec _ _ _ _ Hok _ _ E) as (xs & ? & _). congruence. }
  eexists. split; [|split; [done|by apply ok_insert_null]]. unfold new_vector. erewrite st_bind_eq by done. cbn [s_vecs].
  rewrite Hv. by rewrite bool_decide_false by (by intros []).
Qed.

Lemma copy_vector_eq bufs vs m k k' ys :
  ok bufs vs m → m !! k = None → m !! k' = Some ys →
  ∃ s', copy_vector k k' (mk_store bufs vs) = Ok (tt, s') ∧ vok s' (<[k := ys]> m).
Proof.
  intros Hok Hk Hy. destruct (ok_at _ _ _ _ _ _ _ Hok Hy) as (w & Hw & Hh).
  destruct (new_vector_eq _ _ _ _ Hok Hk) as (s1 & E & -> & _). unfold copy_vector.
  erewrite st_bind_eq by (by apply vector_eq). erewrite st_bind_eq by exact E.
  erewrite st_bind_eq by (apply set_vector_eq, lookup_insert_eq). rewrite insert_insert_eq.
  assert (Hv : vs !! k = None).
  { destruct (vs !! k) as [v|] eqn:E'; [|done]. destruct (ok_vec _ _ _ _ Hok _ _ E') as (xs & ? & _). congruence. }
  pose proof (ok_insert_shared _ _ bufs vs m k k' w ys Hok Hv Hw Hy) as Hok'.
  destruct Hh as (_ & [[Hn _]|(Hn & c & Hc & _)]).
  - rewrite Hn in Hok' |- *. eexists. split; [done|]. unfold acquired in Hok'. by rewrite (ok_null _ _ _ _ _ Hok) in Hok'.
  - rewrite (proj2 (Z.eqb_neq _ 0)) by done. eexists. split; [by eapply acquire_eq|done].
Qed.

Lemma delete_vector_eq bufs vs m k xs :
  ok bufs vs m → m !! k = Some xs → ∃ s', delete_vector td k (mk_store bufs vs) = Ok (tt, s') ∧ vok s' (delete k m).
Proof.
  intros Hok Hx. destruct (ok_at _ _ _ _ _ _ _ Hok Hx) as (v & Hv & Hh).
  destruct (release_ok bufs vs m k v Hok Hv) as [E Hok1].
  exists (mk_store (released (mStorage v) bufs) (delete k vs)). split; [|done].
  unfold delete_vector, finish_vector. erewrite st_bind_eq.
  2: { erewrite st_bind_eq by exact E. apply (set_vector_eq _ _ _ _ _ Hv). }
  apply (f_equal (λ x, Ok (tt, mk_store _ x))), delete_insert_eq.
Qed.
(** A block of the vector, when it has items. *)
Lemma ok_block bufs vs m k v xs :
  ok bufs vs m → vs !! k = Some v → m !! k = Some xs → xs ≠ [] →
  mStorage v ≠ 0 ∧ ∃ b, bufs !! mStorage v = Some b ∧ good b xs.
Proof. intros Hok Hv Hx Hne. by destruct (ok_held _ _ _ _ _ _ _ _ Hok Hv Hx) as (_ & [[_ ?]|?]). Qed.

Lemma itemAt_eq bufs vs m k xs i x :
  ok bufs vs m → m !! k = Some xs → xs !! i = Some x →
  itemAt k (Z.of_nat i) (mk_store bufs vs) = Ok (x, mk_store bufs vs).
Proof.
  intros Hok Hx Hi. destruct (ok_at _ _ _ _ _ _ _ Hok Hx) as (v & Hv & Hh).
  destruct (ok_block _ _ _ _ _ _ Hok Hv Hx) as (Hn & b & Hb & _ & g & Hg & _); [by intros ->|].
  unfold itemAt. erewrite st_bind_eq by (by apply vector_eq). rewrite Nat2Z.id. eapply in_buffer_read; [done|].
  rewrite Hg. apply list_elem_of_split_length in Hi as (l & r & -> & ->). rewrite fmap_app, <- app_assoc. cbn.
  apply read_at. by rewrite length_fmap.
Qed.

(** An item is destroyed and another one made in its place. *)
Lemma set_cells_ok bufs vs m k a b xs i x (p : ST (list (option A)) unit) :
  sole bufs vs k m a b → good b xs → (i < length xs)%nat →
  (∀ l c r, i = length l → free [c] → p (l ++ c :: r) = Ok (tt, l ++ Some x :: r)) →
  ∃ bufs', (_do_destroy td a i 1 ;; in_buffer a p) (mk_store bufs (<[k := mk_vec a (Z.of_nat (length xs))]> vs)) =
      Ok (tt, mk_store bufs' (<[k := mk_vec a (Z.of_nat (length xs))]> vs)) ∧
    ok bufs' (<[k := mk_vec a (Z.of_nat (length xs))]> vs) (<[k := <[i := x]> xs]> m).
Proof.
  intros Hsole [[Hs1 Hs2] (g & Hc & Hg)] Hi Hp. destruct (lookup_lt_is_Some_2 _ _ Hi) as [y Hy].
  apply list_elem_of_split_length in Hy as (l & r & -> & Hil). rewrite fmap_app, <- app_assoc in Hc. cbn in Hc.
  assert (E1 : destroy_cells td i 1 (b_cells b) = Ok (tt, (Some <$> l) ++ dead td y :: (Some <$> r) ++ g)).
  { rewrite Hc. apply (destroy_cells_at td _ [y]); [by rewrite length_fmap|done]. }
  specialize (Hp (Some <$> l) (dead td y) ((Some <$> r) ++ g) ltac:(by rewrite length_fmap) (free_dead td [y])).
  set (b' := b <| b_cells := (Some <$> l) ++ Some x :: (Some <$> r) ++ g |>).
  exists (<[a := b']> bufs). split.
  - unfold _do_destroy. erewrite st_bind_eq by (eapply in_buffer_eq; [apply Hsole|exact E1]).
    erewrite in_buffer_eq; [|apply lookup_insert_eq|exact Hp]. by rewrite insert_insert_eq.
  - assert (Hb' : b_cells b' = (Some <$> <[i := x]> (l ++ y :: r)) ++ g).
    { rewrite set_middle by done. rewrite fmap_app, <- app_assoc. done. }
    assert (Hsz : sized itemSize b').
    { split; [|done]. cbn. rewrite Hs1. f_equal. f_equal. rewrite Hc, !length_app. done. }
    eapply sole_done; [eapply (sole_update _ _ _ _ _ _ _ b); [done|apply Hsole|exact Hsz]| |].
    + split; [done|]. exists g. split; [exact Hb'|done].
    + by rewrite length_insert.
Qed.

Lemma replaceAt_eq bufs vs m k xs (item : option A) i :
  ok bufs vs m → m !! k = Some xs → (i < length xs)%nat → (item = None → tct = false) →
  ∃ s', replaceAt malloc itemSize dflt tct td k (proto item) (Z.of_nat i) (mk_store bufs vs) = Ok (Z.of_nat i, s') ∧
    vok s' (<[k := <[i := default dflt item]> xs]> m).
Proof.
  intros Hok Hx Hi Hd. destruct (ok_at _ _ _ _ _ _ _ Hok Hx) as (v & Hv & Hh).
  destruct (ok_block _ _ _ _ _ _ Hok Hv Hx) as (Hn & b0 & Hb0 & Hg0); [by intros ->; simpl in Hi; lia|].
  unfold replaceAt. erewrite st_bind_eq by (by apply vector_eq). rewrite (proj1 Hh), Z.geb_leb.
  rewrite (proj2 (Z.leb_gt _ _)) by lia.
  destruct (editArrayImpl_eq malloc itemSize td itemSize_pos malloc_ok bufs vs m k v xs b0)
    as (a & b & bufs' & E & Hsole & Hg & Hlen); [done..|].
  assert (E1 : editItemLocation malloc itemSize td k (Z.of_nat i) (mk_store bufs vs) =
    Ok (a, mk_store bufs' (<[k := mk_vec a (Z.of_nat (length xs))]> vs))).
  { unfold editItemLocation. erewrite st_bind_eq by (eapply capacity_eq; [done..|apply Hg0]).
    pose proof (good_fits _ _ _ _ Hg0). rewrite (proj2 (Z.ltb_lt _ _)) by lia. by rewrite E, (at_storage v a _ (proj1 Hh)). }
  erewrite st_bind_eq by exact E1. rewrite Nat2Z.id.
  replace (match proto item with Some (Cells b1 i0) => (b1 =? a) && (Z.of_nat i0 =? Z.of_nat i) | _ => false end) with false
    by (by destruct item).
  cbn zeta. rewrite (proj2 (Z.eqb_neq a 0)) by apply Hsole.
  destruct (set_cells_ok bufs' vs m k a b xs i (default dflt item)
    (match item with Some x => construct_cells td i [x] | None => construct_default dflt tct td i 1 end) Hsole Hg Hi) as (bufs2 & E2 & Hok2).
  { intros l c r Hl Hf. destruct item as [x|].
    - by apply (construct_cells_at td l [c] [x] r).
    - destruct (construct_default_at td dflt tct l [c] r i 1 Hl eq_refl Hf) as (ys & _ & Hys & E'). by rewrite (Hys (Hd eq_refl)) in E'. }
  eexists. split; [|exact Hok2]. apply st_bind_ok in E2 as ([] & s1 & E2 & E3). erewrite st_bind_eq by exact E2.
  destruct item as [x|]; cbn [proto fmap option_fmap option_map].
  - erewrite st_bind_eq; [done|]. unfold _do_copy. cbn [items]. rewrite decide_True by (simpl; lia). exact E3.
  - by erewrite st_bind_eq by exact E3.
Qed.

Lemma setCapacity_eq bufs vs m k xs n :
  ok bufs vs m → m !! k = Some xs → fits (Z.of_nat (length xs)) → room n → n < 2 ^ 31 →
  ∃ r s', setCapacity malloc itemSize td k n (mk_store bufs vs) = Ok (r, s') ∧ vok s' m ∧ n ≤ Z.max r (Z.of_nat (length xs)).
Proof.
  intros Hok Hx (_ & Hf & _) Hroom Hn. destruct (ok_at _ _ _ _ _ _ _ Hok Hx) as (v & Hv & Hh).
  destruct (capacity_ok itemSize td itemSize_pos _ _ _ _ _ _ Hok Hv Hx) as (cap & Ecap & _).
  unfold setCapacity. erewrite st_bind_eq by exact Ecap. erewrite st_bind_eq by (by apply vector_eq).
  rewrite (proj1 Hh). replace (s32 (n - Z.of_nat (length xs))) with (n - Z.of_nat (length xs))
    by (destruct Hroom; unfold s32; rewrite Z.mod_small; lia).
  destruct (Z.leb_spec (n - Z.of_nat (length xs)) 0) as [Hle|Hgt]; [do 2 eexists; split_and!; [done|done|lia]|].
  destruct (alloc_eq malloc itemSize itemSize_pos malloc_ok bufs vs n Hroom) as (sb & Hsb & Hfr & E).
  erewrite st_bind_eq by exact E. rewrite (proj2 (Z.eqb_neq sb 0)) by done.
  assert (Hcopy : when (negb (Z.of_nat (length xs) =? 0)) (_do_copy td sb 0 (Cells (mStorage v) 0) (Z.to_nat (Z.of_nat (length xs))))
    (mk_store (<[sb := new_block itemSize n]> bufs) vs) = Ok (tt, mk_store (<[sb := filled itemSize n xs]> bufs) vs)).
  { destruct (decide (xs = [])) as [->|Hne]; [cbn; unfold filled; by rewrite Nat.sub_0_r|].
    destruct (ok_block _ _ _ _ _ _ Hok Hv Hx Hne) as [Hnz _].
    rewrite (proj2 (Z.eqb_neq _ 0)) by (destruct xs; [done|simpl; lia]). cbn [negb when].
    rewrite <- (proj1 Hh). apply (copy_all itemSize td _ _ _ xs); [done..|lia]. }
  erewrite st_bind_eq by exact Hcopy.
  pose proof (replace_storage itemSize td bufs vs m k v xs sb (filled itemSize n xs) Hok Hv Hx Hsb Hfr) as (u & s1 & E1 & E2)%st_bind_ok.
  erewrite st_bind_eq by exact E1. erewrite st_bind_eq by exact E2.
  assert (Hg : good (filled itemSize n xs) xs) by (apply filled_good; [done|lia]).
  do 2 eexists. split_and!; [done| |lia]. rewrite <- (insert_id m k xs) by done.
  eapply sole_done; [|exact Hg|exact (at_storage v sb _ (proj1 Hh))].
  apply sole_new; [done..|by apply released_none|done|apply Hg].
Qed.

(** [resize]: items are made or removed at the end. *)
Definition resized (n : nat) xs : list A := take n xs ++ replicate (n - length xs) dflt.

Lemma resize_eq bufs vs m k xs n :
  ok bufs vs m → m !! k = Some xs → fits (Z.of_nat (length xs)) → fits (Z.of_nat n) → tct = false →
  ∃ s', resize malloc itemSize dflt tct td tc tm k (Z.of_nat n) (mk_store bufs vs) = Ok (Z.of_nat n, s') ∧
    vok s' (<[k := resized n xs]> m).
Proof.
  intros Hok Hx Hf Hfn Hd. destruct (ok_at _ _ _ _ _ _ _ Hok Hx) as (v & Hv & Hh).
  unfold resize, resized. erewrite st_bind_eq by (by apply vector_eq). rewrite (proj1 Hh).
  destruct (Z.gtb_spec (Z.of_nat n) (Z.of_nat (length xs))) as [Hgt|Hle].
  - destruct (insertAt_eq bufs vs m k xs None (length xs) (n - length xs)) as (s' & E & Hok'); [done..|lia| |done|].
    { by replace (length xs + (n - length xs))%nat with n by lia. }
    exists s'. rewrite Nat2Z.inj_sub in E by lia. erewrite st_bind_eq by exact E.
    rewrite (proj2 (Z.ltb_ge _ 0)) by lia. split; [done|].
    unfold inserted in Hok'. rewrite take_ge, drop_ge, app_nil_r in Hok' by lia. by rewrite take_ge by lia.
  - replace (n - length xs)%nat with 0%nat by lia. cbn [replicate]. rewrite app_nil_r.
    destruct (Z.ltb_spec (Z.of_nat n) (Z.of_nat (length xs))) as [Hlt|Hge].
    + destruct (removeItemsAt_eq bufs vs m k xs n (length xs - n)) as (s' & E & Hok'); [done..|lia|lia|done|].
      exists s'. rewrite Nat2Z.inj_sub in E by lia. erewrite st_bind_eq by exact E.
      rewrite (proj2 (Z.ltb_ge _ 0)) by lia. split; [done|]. by rewrite without_end in Hok' by lia.
    + exists (mk_store bufs vs). split; [done|]. rewrite take_ge, insert_id by (lia || done). done.
Qed.
End refine.
