(* ===== verification/VectorPrograms.v ===== *)
(** Programs over vectors: any sequence of operations on any number of vectors,
    run by the code and said with lists. *)
From S2P Require Import Prelude VectorImpl VectorSpec VectorStorage VectorOps VectorRefine.
Import Vectors.

(** An operation on the vectors with these numbers. *)
Inductive vop (A : Type) : Type :=
| New (k : Z)
| Copy (k k' : Z)
| Assign (k k' : Z)
| Delete (k : Z)
| InsertArray (k : Z) (ys : list A) (i : Z)
| InsertVector (k k' i : Z)
| Insert (k : Z) (item : option A) (i n : Z)
| Replace (k : Z) (item : option A) (i : Z)
| RemoveItems (k i n : Z)
| Pop (k : Z)
| Clear (k : Z)
| Reserve (k n : Z)
| Resize (k n : Z).
Arguments New {A}. Arguments Copy {A}. Arguments Assign {A}. Arguments Delete {A}. Arguments InsertArray {A}.
Arguments InsertVector {A}. Arguments Insert {A}. Arguments Replace {A}. Arguments RemoveItems {A}. Arguments Pop {A}.
Arguments Clear {A}. Arguments Reserve {A}. Arguments Resize {A}.

Section programs.
Context {A : Type} (malloc : gmap Z (buffer A) → Z → Z) (itemSize : Z) (dflt : A) (tct td tc tm : bool).

(** What the code does. *)
Definition vop_run (op : vop A) : ST (store A) Z :=
  match op with
  | New k => new_vector k ;; mret 0
  | Copy k k' => copy_vector k k' ;; mret 0
  | Assign k k' => assign td k k' ;; mret 0
  | Delete k => delete_vector td k ;; mret 0
  | InsertArray k ys i => insertArrayAt malloc itemSize td tc tm k (Ext ys) i (Z.of_nat (length ys))
  | InsertVector k k' i => insertVectorAt malloc itemSize td tc tm k k' i
  | Insert k item i n => insertAt malloc itemSize dflt tct td tc tm k (proto item) i n
  | Replace k item i => replaceAt malloc itemSize dflt tct td k (proto item) i
  | RemoveItems k i n => removeItemsAt malloc itemSize td tc tm k i n
  | Pop k => pop malloc itemSize td tc tm k ;; mret 0
  | Clear k => clear malloc itemSize td tc tm k ;; mret 0
  | Reserve k n => setCapacity malloc itemSize td k n ;; mret 0
  | Resize k n => resize malloc itemSize dflt tct td tc tm k n
  end.

(** The sizes that can be said with 32 bits. *)
Definition fits_bool (n : Z) : bool := (3 * n + 1 <? 2 ^ 32) && (sizeof_SharedBuffer + Z.max 4 ((3 * n + 1) / 2) * itemSize <? 2 ^ 32).

Definition guarded {B} (b : bool) (x : option B) : option B := if b then x else None.
Definition has_item (item : option A) : bool := match item with Some _ => true | None => negb tct end.

Notation lists := (gmap Z (list A)).

(** [f] on the list of a vector, when the result fits. *)
Definition edit (m : lists) (k r : Z) (f : list A → list A) : option (Z * lists) :=
  xs ← m !! k; guarded (fits_bool (Z.of_nat (length (f xs)))) (Some (r, <[k := f xs]> m)).

(** What it means, where it means something: numbers are not negative, a vector is
    not inserted in itself, and something is inserted and removed. *)
Definition vop_spec (op : vop A) (m : lists) : option (Z * lists) :=
  match op with
  | New k => match m !! k with None => Some (0, <[k := []]> m) | _ => None end
  | Copy k k' => match m !! k, m !! k' with None, Some ys => Some (0, <[k := ys]> m) | _, _ => None end
  | Assign k k' => match m !! k, m !! k' with Some _, Some ys => Some (0, <[k := ys]> m) | _, _ => None end
  | Delete k => match m !! k with Some _ => Some (0, delete k m) | _ => None end
  | InsertArray k ys i =>
      xs ← m !! k;
      guarded (0 <=? i)
        (if i >? Z.of_nat (length xs) then Some (BAD_INDEX, m)
         else guarded (negb (bool_decide (length ys = 0%nat))) (edit m k i (inserted (Z.to_nat i) ys)))
  | InsertVector k k' i =>
      xs ← m !! k; ys ← m !! k';
      guarded (0 <=? i)
        (if i >? Z.of_nat (length xs) then Some (BAD_INDEX, m)
         else guarded (negb (k' =? k) && negb (bool_decide (length ys = 0%nat))) (edit m k i (inserted (Z.to_nat i) ys)))
  | Insert k item i n =>
      xs ← m !! k;
      guarded (0 <=? i)
        (if i >? Z.of_nat (length xs) then Some (BAD_INDEX, m)
         else guarded ((0 <? n) && has_item item) (edit m k i (inserted (Z.to_nat i) (replicate (Z.to_nat n) (default dflt item)))))
  | Replace k item i =>
      xs ← m !! k;
      guarded (0 <=? i)
        (if i >=? Z.of_nat (length xs) then Some (BAD_INDEX, m)
         else guarded (has_item item) (edit m k i (λ xs, <[Z.to_nat i := default dflt item]> xs)))
  | RemoveItems k i n =>
      xs ← m !! k;
      guarded ((0 <=? i) && (0 <? n) && (i + n <? 2 ^ 32))
        (if i + n >? Z.of_nat (length xs) then Some (BAD_VALUE, m) else edit m k i (without (Z.to_nat i) (Z.to_nat n)))
  | Pop k => edit m k 0 (λ xs, take (length xs - 1) xs)
  | Clear k => edit m k 0 (λ _, [])
  | Reserve k n => xs ← m !! k; guarded ((0 <=? n) && (n <? 2 ^ 31) && (sizeof_SharedBuffer + n * itemSize <? 2 ^ 32)) (Some (0, m))
  | Resize k n => guarded ((0 <=? n) && negb tct) (edit m k n (resized dflt (Z.to_nat n)))
  end.

Fixpoint run_all (ops : list (vop A)) : ST (store A) (list Z) :=
  match ops with [] => mret [] | op :: ops' => r ← vop_run op; rs ← run_all ops'; mret (r :: rs) end.

Fixpoint spec_all (ops : list (vop A)) (m : lists) : option (list Z * lists) :=
  match ops with
  | [] => Some ([], m)
  | op :: ops' => '(r, m1) ← vop_spec op m; '(rs, m2) ← spec_all ops' m1; Some (r :: rs, m2)
  end.

Definition no_vectors : store A := mk_store ∅ ∅.

(** ** The code does what it means *)

Context (itemSize_pos : 0 < itemSize) (itemSize_small : sizeof_SharedBuffer + 4 * itemSize < 2 ^ 32).
(** There is memory. *)
Context (malloc_ok : ∀ h n, 0 ≤ n < 2 ^ 32 → malloc h n ≠ 0 ∧ h !! malloc h n = None).

Notation vok s m := (vectors_ok itemSize td s m).
Notation fits := (fits itemSize).

Definition all_fit (m : lists) : Prop := ∀ k xs, m !! k = Some xs → fits (Z.of_nat (length xs)).

Lemma fits_bool_ok n : 0 ≤ n → fits_bool n = true → fits n.
Proof. intros Hn [H1%Z.ltb_lt H2%Z.ltb_lt]%andb_prop. split_and!; [done..|]. split; [lia|done]. Qed.

Lemma guarded_some {B} b (x : option B) y : guarded b x = Some y → b = true ∧ x = Some y.
Proof. by destruct b. Qed.

Lemma edit_some m k r f r' m' :
  edit m k r f = Some (r', m') → ∃ xs, m !! k = Some xs ∧ r' = r ∧ m' = <[k := f xs]> m ∧ fits (Z.of_nat (length (f xs))).
Proof.
  unfold edit. intros (xs & Hx & H)%bind_Some. apply guarded_some in H as [Hf [= <- <-]].
  exists xs. split_and!; [done..|]. apply fits_bool_ok; [lia|done].
Qed.

Lemma all_fit_insert m k xs : all_fit m → fits (Z.of_nat (length xs)) → all_fit (<[k := xs]> m).
Proof.
  intros Hm Hx k' ys. destruct (decide (k' = k)) as [->|?]; [rewrite lookup_insert_eq; by intros [= <-]|].
  rewrite lookup_insert_ne by done. apply Hm.
Qed.

Lemma run_unit (p : ST (store A) unit) s s' : p s = Ok (tt, s') → (p ;; mret 0) s = Ok (0, s').
Proof. intros E. by erewrite st_bind_eq by exact E. Qed.

(** One operation: the code ends, with the result and the lists it means, and
    they fit again. *)
Definition does (op : vop A) : Prop := ∀ s m r m',
  vok s m → all_fit m → vop_spec op m = Some (r, m') → all_fit m' ∧ ∃ s', vop_run op s = Ok (r, s') ∧ vok s' m'.

Lemma fits_nil : fits 0.
Proof. split_and!; [done..|]. change (Z.max 4 ((3 * 0 + 1) / 2)) with 4. split; lia. Qed.

Lemma all_fit_edit m k xs : all_fit m → m !! k = Some xs → fits (Z.of_nat (length xs)).
Proof. intros Hm Hx. by apply (Hm k). Qed.

Lemma does_lifetime k k' : does (New k) ∧ does (Copy k k') ∧ does (Assign k k') ∧ does (Delete k).
Proof.
  split_and!; intros [bufs vs] m r m' Hok Hm; cbn [vop_spec vop_run].
  - destruct (m !! k) eqn:Hk; [done|]. intros [= <- <-]. split; [apply all_fit_insert; [done|apply fits_nil]|].
    edestruct (new_vector_eq itemSize td bufs vs m k) as (s' & E & _ & Hok'); [done..|]. exists s'. split; [by apply run_unit|done].
  - destruct (m !! k) eqn:Hk; [done|]. destruct (m !! k') as [ys|] eqn:Hy; [|done]. intros [= <- <-].
    split; [apply all_fit_insert; [done|by apply (Hm k')]|].
    edestruct (copy_vector_eq itemSize td bufs vs m k k' ys) as (s' & E & Hok'); [done..|]. exists s'. split; [by apply run_unit|done].
  - destruct (m !! k) as [xs|] eqn:Hk; [|done]. destruct (m !! k') as [ys|] eqn:Hy; [|done]. intros [= <- <-].
    split; [apply all_fit_insert; [done|by apply (Hm k')]|].
    edestruct (assign_eq itemSize td bufs vs m k k' xs ys) as (s' & E & Hok'); [done..|]. exists s'. split; [by apply run_unit|done].
  - destruct (m !! k) as [xs|] eqn:Hk; [|done]. intros [= <- <-]. split.
    + intros k2 ys [_ H]%lookup_delete_Some. by apply (Hm k2).
    + edestruct (delete_vector_eq itemSize td bufs vs m k xs) as (s' & E & Hok'); [done..|]. exists s'. split; [by apply run_unit|done].
Qed.

(** An index behind the end. *)
Lemma bad_index bufs vs m k xs i :
  vok (mk_store bufs vs) m → m !! k = Some xs → Z.of_nat (length xs) < i →
  (∀ p n, insertArrayAt malloc itemSize td tc tm k p i n (mk_store bufs vs) = Ok (BAD_INDEX, mk_store bufs vs)) ∧
  (∀ p n, insertAt malloc itemSize dflt tct td tc tm k p i n (mk_store bufs vs) = Ok (BAD_INDEX, mk_store bufs vs)).
Proof.
  intros Hok Hx Hi. destruct (ok_at _ _ _ _ _ _ _ Hok Hx) as (v & Hv & Hh). split; intros p n.
  - unfold insertArrayAt. erewrite st_bind_eq by (by apply vector_eq). rewrite (proj1 Hh).
    destruct (Z.gtb_spec i (Z.of_nat (length xs))); [done|lia].
  - unfold insertAt. erewrite st_bind_eq by (by apply vector_eq). rewrite (proj1 Hh).
    destruct (Z.gtb_spec i (Z.of_nat (length xs))); [done|lia].
Qed.

Lemma does_insert k k' ys item i n : does (InsertArray k ys i) ∧ does (InsertVector k k' i) ∧ does (Insert k item i n).
Proof.
  split_and!; intros [bufs vs] m r m' Hok Hm; cbn [vop_spec vop_run].
  - intros (xs & Hx & H)%bind_Some. apply guarded_some in H as [Hi%Z.leb_le H].
    destruct (Z.gtb_spec i (Z.of_nat (length xs))) as [Hgt|Hle].
    { injection H as <- <-. split; [done|]. eexists. split; [eapply bad_index; done|done]. }
    apply guarded_some in H as [Hne%negb_true_iff%bool_decide_eq_false H].
    apply edit_some in H as (xs' & Hx' & -> & -> & Hf). rewrite Hx in Hx'. injection Hx' as <-.
    split; [by apply all_fit_insert|]. rewrite length_inserted in Hf.
    edestruct (insertArrayAt_Ext malloc itemSize td tc tm itemSize_pos malloc_ok bufs vs m k xs ys (Z.to_nat i)) as (s' & E & Hok');
      [done..|lia|by intros ->|done|]. rewrite Z2Nat.id in E by done. by exists s'.
  - intros (xs & Hx & H)%bind_Some. apply bind_Some in H as (zs & Hz & H). apply guarded_some in H as [Hi%Z.leb_le H].
    destruct (Z.gtb_spec i (Z.of_nat (length xs))) as [Hgt|Hle].
    { injection H as <- <-. split; [done|]. eexists. split; [|done].
      destruct (ok_at _ _ _ _ _ _ _ Hok Hz) as (w & Hw & _). unfold insertVectorAt, arrayImpl.
      erewrite st_bind_eq by (by erewrite st_bind_eq by (by apply vector_eq)). erewrite st_bind_eq by (by apply vector_eq).
      eapply bad_index; done. }
    apply guarded_some in H as [[Hk%negb_true_iff%Z.eqb_neq Hne%negb_true_iff%bool_decide_eq_false]%andb_prop H].
    apply edit_some in H as (xs' & Hx' & -> & -> & Hf). rewrite Hx in Hx'. injection Hx' as <-.
    split; [by apply all_fit_insert|]. rewrite length_inserted in Hf.
    edestruct (insertVectorAt_eq malloc itemSize td tc tm itemSize_pos malloc_ok bufs vs m k k' xs zs (Z.to_nat i)) as (s' & E & Hok');
      [done..|lia|by intros ->|done|]. rewrite Z2Nat.id in E by done. by exists s'.
  - intros (xs & Hx & H)%bind_Some. apply guarded_some in H as [Hi%Z.leb_le H].
    destruct (Z.gtb_spec i (Z.of_nat (length xs))) as [Hgt|Hle].
    { injection H as <- <-. split; [done|]. eexists. split; [eapply bad_index; done|done]. }
    apply guarded_some in H as [[Hn%Z.ltb_lt Hit]%andb_prop H].
    apply edit_some in H as (xs' & Hx' & -> & -> & Hf). rewrite Hx in Hx'. injection Hx' as <-.
    split; [by apply all_fit_insert|]. rewrite length_inserted, length_replicate in Hf.
    edestruct (insertAt_eq malloc itemSize dflt tct td tc tm itemSize_pos malloc_ok bufs vs m k xs item (Z.to_nat i) (Z.to_nat n)) as (s' & E & Hok');
      [done..|lia|lia|done| |]; [intros ->; by apply negb_true_iff|]. rewrite !Z2Nat.id in E by lia. by exists s'.
Qed.

Lemma does_change k item i : does (Replace k item i) ∧ does (Pop k) ∧ does (Clear k).
Proof.
  split_and!; intros [bufs vs] m r m' Hok Hm; cbn [vop_spec vop_run].
  - intros (xs & Hx & H)%bind_Some. apply guarded_some in H as [Hi%Z.leb_le H]. rewrite Z.geb_leb in H.
    destruct (Z.leb_spec (Z.of_nat (length xs)) i) as [Hge|Hlt].
    { injection H as <- <-. split; [done|]. eexists. split; [|done].
      destruct (ok_at _ _ _ _ _ _ _ Hok Hx) as (v & Hv & Hh). unfold replaceAt.
      erewrite st_bind_eq by (by apply vector_eq). by rewrite (proj1 Hh), Z.geb_leb, (proj2 (Z.leb_le _ _)). }
    apply guarded_some in H as [Hit H].
    apply edit_some in H as (xs' & Hx' & -> & -> & Hf). rewrite Hx in Hx'. injection Hx' as <-.
    split; [by apply all_fit_insert|].
    edestruct (replaceAt_eq malloc itemSize dflt tct td itemSize_pos malloc_ok bufs vs m k xs item (Z.to_nat i)) as (s' & E & Hok');
      [done..|lia| |]; [intros ->; by apply negb_true_iff|]. rewrite Z2Nat.id in E by lia. by exists s'.
  - intros (xs & Hx & -> & -> & Hf)%edit_some. split; [by apply all_fit_insert|].
    edestruct (pop_eq malloc itemSize td tc tm itemSize_pos malloc_ok bufs vs m k xs) as (s' & E & Hok'); [done..|by apply (Hm k)|].
    exists s'. split; [by apply run_unit|done].
  - intros (xs & Hx & -> & -> & Hf)%edit_some. split; [by apply all_fit_insert|].
    edestruct (clear_eq malloc itemSize td tc tm itemSize_pos malloc_ok bufs vs m k xs) as (s' & E & Hok'); [done..|by apply (Hm k)|].
    exists s'. split; [by apply run_unit|done].
Qed.

Lemma does_size k i n : does (RemoveItems k i n) ∧ does (Reserve k n) ∧ does (Resize k n).
Proof.
  split_and!; intros [bufs vs] m r m' Hok Hm; cbn [vop_spec vop_run].
  - intros (xs & Hx & H)%bind_Some. apply guarded_some in H as [[[Hi%Z.leb_le Hn%Z.ltb_lt]%andb_prop Hw%Z.ltb_lt]%andb_prop H].
    destruct (Z.gtb_spec (i + n) (Z.of_nat (length xs))) as [Hgt|Hle].
    { injection H as <- <-. split; [done|]. eexists. split; [|done].
      destruct (ok_at _ _ _ _ _ _ _ Hok Hx) as (v & Hv & Hh). unfold removeItemsAt.
      erewrite st_bind_eq by (by apply vector_eq). rewrite (proj1 Hh), u32_small by lia.
      destruct (Z.gtb_spec (i + n) (Z.of_nat (length xs))); [done|lia]. }
    apply edit_some in H as (xs' & Hx' & -> & -> & Hf). rewrite Hx in Hx'. injection Hx' as <-.
    split; [by apply all_fit_insert|].
    edestruct (removeItemsAt_eq malloc itemSize td tc tm itemSize_pos malloc_ok bufs vs m k xs (Z.to_nat i) (Z.to_nat n)) as (s' & E & Hok');
      [done..|lia|lia|by apply (Hm k)|]. rewrite !Z2Nat.id in E by lia. by exists s'.
  - intros (xs & Hx & H)%bind_Some. apply guarded_some in H as [[[Hn%Z.leb_le Hn2%Z.ltb_lt]%andb_prop Hz%Z.ltb_lt]%andb_prop [= <- <-]].
    split; [done|].
    edestruct (setCapacity_eq malloc itemSize td itemSize_pos malloc_ok bufs vs m k xs n) as (r & s' & E & Hok' & _); [done..|by apply (Hm k)|done|lia|].
    exists s'. split; [|done]. by erewrite st_bind_eq by exact E.
  - intros H. apply guarded_some in H as [[Hn%Z.leb_le Hd%negb_true_iff]%andb_prop H].
    apply edit_some in H as (xs & Hx & -> & -> & Hf). split; [by apply all_fit_insert|].
    edestruct (resize_eq malloc itemSize dflt tct td tc tm itemSize_pos malloc_ok bufs vs m k xs (Z.to_nat n)) as (s' & E & Hok');
      [done..|by apply (Hm k)| |done|].
    { unfold resized in Hf. rewrite length_app, length_take, length_replicate in Hf. revert Hf. apply fits_le. lia. }
    rewrite Z2Nat.id in E by lia. by exists s'.
Qed.

Lemma every_op_does op : does op.
Proof.
  destruct op; first [eapply does_lifetime|eapply does_insert|eapply does_change|eapply does_size].
  Unshelve. all: first [exact 0|exact []|exact None].
Qed.

Lemma run_all_ok ops s m rs m' :
  vok s m → all_fit m → spec_all ops m = Some (rs, m') → ∃ s', run_all ops s = Ok (rs, s') ∧ vok s' m'.
Proof.
  revert s m rs. induction ops as [|op ops IH]; intros s m rs Hok Hm; cbn [spec_all run_all].
  - intros [= <- <-]. by exists s.
  - intros ([r m1] & H1 & H)%bind_Some. apply bind_Some in H as ([rs' m2] & H2 & [= <- <-]).
    destruct (every_op_does op s m r m1 Hok Hm H1) as (Hm1 & s1 & E1 & Hok1).
    destruct (IH s1 m1 rs' Hok1 Hm1 H2) as (s2 & E2 & Hok2). exists s2. split; [|done].
    erewrite st_bind_eq by exact E1. by erewrite st_bind_eq by exact E2.
Qed.

Lemma no_vectors_ok : vok no_vectors ∅.
Proof. split; cbn; [intros k v H; by rewrite lookup_empty in H|intros k [xs H]; by rewrite lookup_empty in H|intros a b H; by rewrite lookup_empty in H]. Qed.

Lemma none_left (s : store A) : vok s ∅ → s_bufs s = ∅ ∧ s_vecs s = ∅.
Proof.
  intros [H1 H2 H3]. assert (Hv : s_vecs s = ∅).
  { apply map_eq. intros k. rewrite lookup_empty. destruct (s_vecs s !! k) as [v|] eqn:E; [|done]. by destruct (H1 k v E) as (xs & ? & _). }
  split; [|done]. apply map_eq. intros a. rewrite lookup_empty. destruct (s_bufs s !! a) as [b|] eqn:E; [|done].
  destruct (H3 a b E) as (_ & Hr & Hp). rewrite Hv in Hr. unfold sharers in Hr. rewrite msum_empty in Hr. lia.
Qed.

(** C6: Vectors are lists of their own, for every sequence of operations that
    [vop_spec] gives a meaning: operations that create, copy, assign, fill, edit and
    delete vectors, with types of items that do or do not need constructors,
    destructors and copies, where there is memory, items from outside of the vectors
    or from another vector are inserted, at least one is inserted or removed, the
    bytes of the block that is asked for and the end of what is removed fit a
    [size_t], and items made without arguments have a constructor.  (What the code
    does in the other cases are lemmas of [VectorRuns].)  The code ends every such
    operation without touching memory that is not its own, without making an object
    twice or destroying none, and with the result of the operation on lists, bad
    indices and ranges included; afterwards every vector reads as its list, although
    copies share storage, and when the last vector is gone no block is left. *)
Theorem vectors_are_lists ops rs m :
  spec_all ops ∅ = Some (rs, m) →
  ∃ s, run_all ops no_vectors = Ok (rs, s) ∧
    (∀ k xs, m !! k = Some xs → (∃ v, s_vecs s !! k = Some v ∧ mCount v = Z.of_nat (length xs)) ∧
       ∀ i x, xs !! i = Some x → itemAt k (Z.of_nat i) s = Ok (x, s)) ∧
    (m = ∅ → s_bufs s = ∅ ∧ s_vecs s = ∅).
Proof.
  intros H. destruct (run_all_ok ops no_vectors ∅ rs m) as ([bufs vs] & E & Hok); [apply no_vectors_ok|by intros ??|done|].
  exists (mk_store bufs vs). split_and!; [done| |].
  - intros k xs Hx. split; [|intros i x; by apply (itemAt_eq itemSize td bufs vs m)].
    destruct (ok_at _ _ _ _ _ _ _ Hok Hx) as (v & Hv & Hh). exists v. by split; [|apply Hh].
  - intros ->. by apply none_left.
Qed.
End programs.
