(* ===== verification/VectorSort.v ===== *)
(** [VectorImpl::sort] and [SortedVectorImpl]: the insertion sort is a stable
    sort of storage that is shared until the first item moves; the binary search
    ends and finds the place of an item; adding, merging and removing keep the order. *)
From S2P Require Import Prelude VectorImpl VectorSpec VectorStorage VectorOps VectorRefine.
Import Vectors.

(** ** Sorted lists *)

Section order.
Context {A : Type} (cmp : A → A → Z).
Implicit Types (x y z : A) (xs ys pre : list A).

(** A comparison of a total order, as far as it tells items apart. *)
Class Comparison : Prop := mk_comparison {
  cmp_flip x y : Z.sgn (cmp y x) = - Z.sgn (cmp x y);
  cmp_trans x y z : cmp x y ≤ 0 → cmp y z ≤ 0 → cmp x z ≤ 0 }.

Definition in_order xs : Prop := StronglySorted (λ x y, cmp x y ≤ 0) xs.

(** [x] has its place among the items in front of it: behind the last one that is not bigger. *)
Definition placed pre x ys : Prop :=
  ∃ p1 p2, pre = p1 ++ p2 ∧ ys = p1 ++ x :: p2 ∧ Forall (λ y, 0 < cmp y x) p2 ∧
    (p1 = [] ∨ ∃ q y, p1 = q ++ [y] ∧ cmp y x ≤ 0).

Inductive sorting : list A → list A → list A → Prop :=
| sorting_done pre : sorting pre [] pre
| sorting_item pre x rest pre' ys : placed pre x pre' → sorting pre' rest ys → sorting pre (x :: rest) ys.

(** The items that are equal to [z] to the comparison, in their order. *)
Definition same_as z xs : list A := filter (λ y, cmp y z = 0) xs.

Context `{HC : Comparison}.

Lemma placed_end pre x : (pre = [] ∨ ∃ q y, pre = q ++ [y] ∧ cmp y x ≤ 0) → placed pre x (pre ++ [x]).
Proof. intros H. exists pre, []. rewrite app_nil_r. by split_and!. Qed.

Lemma in_order_app xs ys : in_order (xs ++ ys) ↔ in_order xs ∧ in_order ys ∧ ∀ x y, x ∈ xs → y ∈ ys → cmp x y ≤ 0.
Proof.
  unfold in_order. induction xs as [|a xs IH]; cbn [app].
  - split; [|tauto]. intros H. split_and!; [constructor|done|]. by intros x y ?%elem_of_nil.
  - split.
    + intros [(H1 & H2 & H3)%IH Ha]%StronglySorted_inv. apply Forall_app in Ha as [Ha1 Ha2]. split_and!; [by constructor|done|].
      intros x y [->|Hx]%elem_of_cons Hy; [|by apply H3]. by eapply Forall_forall in Ha2.
    + intros ([H1 Ha]%StronglySorted_inv & H2 & H3). constructor.
      * apply IH. split_and!; [done..|]. intros x y Hx. apply H3. by right.
      * apply Forall_app. split; [done|]. apply Forall_forall. intros y Hy. apply H3; [by left|done].
Qed.

Lemma placed_in_order pre x ys : placed pre x ys → in_order pre → in_order ys.
Proof.
  intros (p1 & p2 & -> & -> & Hp2 & Hp1) (H1 & H2 & H12)%in_order_app.
  assert (Hx : ∀ y, y ∈ p2 → cmp x y ≤ 0).
  { intros y Hy. eapply Forall_forall in Hp2; [|exact Hy]. cbn in Hp2. pose proof (cmp_flip x y). lia. }
  apply in_order_app. split_and!; [done| |].
  - constructor; [done|]. by apply Forall_forall.
  - intros y z Hy [->|Hz]%elem_of_cons; [|by apply H12].
    destruct Hp1 as [->|(q & w & -> & Hw)]; [by apply elem_of_nil in Hy|].
    apply in_order_app in H1 as (_ & _ & H1). apply elem_of_app in Hy as [Hy| ->%list_elem_of_singleton]; [|done].
    eapply cmp_trans; [apply H1; [done|by left]|done].
Qed.

Lemma placed_perm pre x ys : placed pre x ys → ys ≡ₚ pre ++ [x].
Proof. intros (p1 & p2 & -> & -> & _). by rewrite <- app_assoc, Permutation_app_comm, (Permutation_app_comm p1), <- Permutation_cons_append. Qed.

Lemma placed_stable pre x ys z : placed pre x ys → same_as z ys = same_as z (pre ++ [x]).
Proof.
  intros (p1 & p2 & -> & -> & Hp2 & _). unfold same_as. rewrite <- app_assoc, !filter_app. f_equal.
  rewrite filter_cons. destruct (decide (cmp x z = 0)) as [E|Hne].
  - rewrite (list_filter_none _ p2); [by rewrite filter_cons_True|]. intros y Hy Ey.
    eapply Forall_forall in Hp2; [|exact Hy]. cbn in Hp2. pose proof (cmp_flip x z).
    assert (cmp y x ≤ 0); [apply (cmp_trans y z x)|]; lia.
  - by rewrite (filter_cons_False _ x), app_nil_r.
Qed.

Lemma sorting_sorts pre rest ys :
  sorting pre rest ys → in_order pre → in_order ys ∧ ys ≡ₚ pre ++ rest ∧ ∀ z, same_as z ys = same_as z (pre ++ rest).
Proof.
  induction 1 as [pre|pre x rest pre' ys Hp Hs IH]; intros Ho; [rewrite app_nil_r; by split_and!|].
  destruct (IH (placed_in_order _ _ _ Hp Ho)) as (H1 & H2 & H3). split_and!; [done| |].
  - rewrite H2, (placed_perm _ _ _ Hp), <- app_assoc. done.
  - intros z. rewrite H3, (cons_middle x). unfold same_as. rewrite app_assoc, filter_app, (filter_app _ (pre ++ [x])). f_equal.
    by apply placed_stable.
Qed.
End order.

(** ** [sort] *)

Section sort.
Context {A : Type} (malloc : gmap Z (buffer A) → Z → Z) (itemSize : Z) (td : bool).
Context (itemSize_pos : 0 < itemSize).
(** There is memory. *)
Context (malloc_ok : ∀ h n, 0 ≤ n < 2 ^ 32 → malloc h n ≠ 0 ∧ h !! malloc h n = None).
Context (cmp : A → A → Z) `{HC : !Comparison cmp}.
Implicit Types (bufs : gmap Z (buffer A)) (vs : gmap Z vec) (m : gmap Z (list A)) (xs ys pre rest : list A) (b : buffer A).
Implicit Types (x y z t : A) (l r g : list (option A)).

Notation vok s m := (vectors_ok itemSize td s m).
Notation ok bufs vs m := (vectors_ok itemSize td (mk_store bufs vs) m).
Notation good := (good itemSize td).
Notation sole := (sole itemSize td).
Notation sort_loop := (sort_loop malloc itemSize td cmp true).
Notation fits := (fits itemSize).

Lemma overwrite_at l y x r n : n = length l → overwrite td n x (l ++ Some y :: r) = Ok (tt, l ++ Some x :: r).
Proof.
  intros Hn. unfold overwrite. erewrite st_bind_eq by (by apply destroy_at). apply construct_at; [done|apply dead_raw].
Qed.

(** The items that are bigger move up, the place of the first of them is left. *)
Lemma sort_shift_at t pre y j r :
  0 < cmp y t →
  ∃ p1 p2 j', pre ++ [y] = p1 ++ p2 ∧ Forall (λ z, 0 < cmp z t) p2 ∧
    (p1 = [] ∨ ∃ q z, p1 = q ++ [z] ∧ cmp z t ≤ 0) ∧
    sort_shift td cmp t (S (length pre)) ((Some <$> pre ++ [y]) ++ Some j :: r) =
      Ok (length p1, (Some <$> p1) ++ Some j' :: (Some <$> p2) ++ r).
Proof.
  revert y j r. induction pre as [|z pre IH] using rev_ind; intros y j r Hy.
  - exists [], [y], y. split_and!; [done|by constructor|by left|]. cbn.
    erewrite st_bind_eq by (by apply (read_at [])). erewrite st_bind_eq by (by apply (destroy_at td [Some y])).
    erewrite st_bind_eq by (apply (construct_at td [Some y]); [done|apply dead_raw]). done.
  - rewrite length_app. cbn [length]. rewrite Nat.add_1_r, (fmap_app _ (pre ++ [z])), <- (app_assoc (Some <$> pre ++ [z])).
    assert (HL : length (Some <$> pre ++ [z]) = S (length pre)) by (rewrite length_fmap, length_app; simpl; lia).
    set (L := Some <$> pre ++ [z]) in *. cbn [sort_shift fmap list_fmap app].
    erewrite st_bind_eq by (by apply read_at). rewrite (cons_middle (Some y) L), (app_assoc L).
    erewrite st_bind_eq by (apply destroy_at; rewrite length_app, HL; simpl; lia).
    erewrite st_bind_eq by (apply construct_at; [rewrite length_app, HL; simpl; lia|apply dead_raw]).
    rewrite <- (app_assoc L). cbn [app]. unfold L. rewrite fmap_app, <- (app_assoc (Some <$> pre)). cbn [fmap list_fmap app].
    erewrite st_bind_eq by (apply read_at; by rewrite length_fmap).
    destruct (Z.gtb_spec (cmp z t) 0) as [Hz|Hz].
    + destruct (IH z y (Some y :: r)) as (p1 & p2 & j' & Hp & Hp2 & Hp1 & E); [lia|].
      exists p1, (p2 ++ [y]), j'. split_and!; [by rewrite Hp, <- app_assoc|apply Forall_app; by split; [|constructor]|done|].
      rewrite fmap_app, <- app_assoc in E. cbn [fmap list_fmap app] in E. cbn [sort_shift] in E. rewrite E.
      rewrite fmap_app, <- app_assoc. done.
    + exists (pre ++ [z]), [y], y. split_and!; [done|by constructor|right; eauto|].
      unfold mret, st_ret. rewrite length_app, fmap_app, <- app_assoc. cbn. by rewrite Nat.add_1_r.
Qed.

(** One item of the block of a vector that does not share it. *)
Lemma sort_step pre y t rest b g a bufs vs :
  b_cells b = (Some <$> pre ++ [y] ++ t :: rest) ++ g → 0 < cmp y t → bufs !! a = Some b →
  ∃ pre', placed cmp (pre ++ [y]) t pre' ∧ ∀ B (f : ST (store A) B),
    (item ← in_buffer a (read_cell (S (length pre)));
     next ← in_buffer a (sort_shift td cmp item (S (length pre)));
     in_buffer a (overwrite td next item) ;; f) (mk_store bufs vs) =
    f (mk_store (<[a := b <| b_cells := (Some <$> pre' ++ rest) ++ g |>]> bufs) vs).
Proof.
  intros Hc Hy Hb. destruct (sort_shift_at t pre y t ((Some <$> rest) ++ g) Hy) as (p1 & p2 & j' & Hp & Hp2 & Hp1 & E).
  exists (p1 ++ t :: p2). split; [by exists p1, p2|]. intros B f.
  assert (Hc' : b_cells b = (Some <$> pre ++ [y]) ++ Some t :: (Some <$> rest) ++ g).
  { rewrite Hc. rewrite app_assoc, (fmap_app _ (pre ++ [y])), <- app_assoc. done. }
  erewrite st_bind_eq.
  2: { eapply in_buffer_read; [done|]. rewrite Hc'. apply read_at. rewrite length_fmap, length_app. simpl. lia. }
  erewrite st_bind_eq by (eapply in_buffer_eq; [done|rewrite Hc'; exact E]).
  erewrite st_bind_eq.
  2: { eapply in_buffer_eq; [apply lookup_insert_eq|]. cbn. apply overwrite_at. by rewrite length_fmap. }
  rewrite insert_insert_eq. do 3 f_equal. unfold update, field_cells. cbn. f_equal. rewrite !fmap_app, <- !app_assoc. done.
Qed.

Lemma sort_loop_sole rest pre b bufs vs m k a :
  sole bufs vs k m a b → good b (pre ++ rest) → pre ≠ [] →
  ∃ ys s', sort_loop k (length rest) (length pre) a true (mk_store bufs (<[k := mk_vec a (Z.of_nat (length (pre ++ rest)))]> vs)) =
      Ok (NO_ERROR, s') ∧ sorting cmp pre rest ys ∧ vok s' (<[k := ys]> m).
Proof.
  revert pre b bufs. induction rest as [|t rest IH]; intros pre b bufs Hsole Hg Hne.
  - exists pre. rewrite app_nil_r in Hg |- *. eexists. split_and!; [done|constructor|]. by eapply sole_done.
  - destruct pre as [|y pre _] using rev_ind; [done|].
    pose proof (proj2 Hg) as (g & Hc & Hfr). cbn [length Vectors.sort_loop].
    rewrite <- app_assoc in Hc. cbn [app] in Hc.
    assert (Hc1 : b_cells b = (Some <$> pre) ++ Some y :: (Some <$> t :: rest) ++ g) by (rewrite Hc, fmap_app, <- app_assoc; done).
    assert (Hc2 : b_cells b = (Some <$> pre ++ [y]) ++ Some t :: (Some <$> rest) ++ g).
    { rewrite Hc, (cons_middle y), app_assoc, fmap_app, <- app_assoc. done. }
    assert (Hlen : length (pre ++ [y]) = S (length pre)) by (rewrite length_app; simpl; lia).
    erewrite st_bind_eq.
    2: { eapply in_buffer_read; [apply Hsole|]. rewrite Hc1. apply read_at. rewrite Hlen, length_fmap. lia. }
    erewrite st_bind_eq.
    2: { eapply in_buffer_read; [apply Hsole|]. rewrite Hc2. apply read_at. by rewrite length_fmap. }
    destruct (Z.gtb_spec (cmp y t) 0) as [Hgt|Hle].
    + erewrite st_bind_eq by done. rewrite (proj2 (Z.eqb_neq a 0)) by apply Hsole. cbn [orb negb]. rewrite Hlen.
      destruct (sort_step pre y t rest b g a bufs (<[k := mk_vec a (Z.of_nat (length ((pre ++ [y]) ++ t :: rest)))]> vs))
        as (pre' & Hpl & E); [exact Hc|lia|apply Hsole|].
      rewrite E. set (b' := b <| b_cells := (Some <$> pre' ++ rest) ++ g |>).
      pose proof (placed_perm _ _ _ _ Hpl) as Hperm. apply Permutation_length in Hperm as Hl.
      assert (Hl2 : length (pre' ++ rest) = length ((pre ++ [y]) ++ t :: rest)).
      { rewrite length_app, Hl, !length_app. simpl. lia. }
      assert (Hg' : good b' (pre' ++ rest)).
      { split; [|by exists g]. destruct (proj1 Hg) as [H1 H2]. split; [|done]. cbn. rewrite H1. f_equal. f_equal.
        rewrite Hc, !length_app, !length_fmap, !length_app. rewrite !length_app in Hl2. simpl in *. lia. }
      rewrite <- Hl2. replace (S (S (length pre))) with (length pre') by (rewrite Hl, !length_app; simpl; lia).
      destruct (IH pre' b' (<[a := b']> bufs)) as (ys & s' & E' & Hsort & Hok).
      * eapply sole_update; [done|apply Hsole|apply Hg'].
      * done.
      * intros ->. rewrite !length_app in Hl. simpl in Hl. lia.
      * exists ys, s'. split_and!; [exact E'|by econstructor|done].
    + destruct (IH ((pre ++ [y]) ++ [t]) b bufs Hsole) as (ys & s' & E' & Hsort & Hok).
      { rewrite <- app_assoc. exact Hg. }
      { intros E. apply (f_equal length) in E. rewrite !length_app in E. simpl in E. lia. }
      exists ys, s'. split_and!; [|eapply sorting_item; [apply placed_end; right; eauto|exact Hsort]|done].
      rewrite <- (app_assoc (pre ++ [y])) in E'. cbn [app] in E'. rewrite (length_app (pre ++ [y])) in E'. cbn [length] in E'.
      rewrite Nat.add_1_r in E'. exact E'.
Qed.
(** The two items the loop looks at. *)
Lemma sort_reads pre y t rest b a bufs vs :
  good b ((pre ++ [y]) ++ t :: rest) → bufs !! a = Some b →
  in_buffer a (read_cell (length (pre ++ [y]) - 1)) (mk_store bufs vs) = Ok (y, mk_store bufs vs) ∧
  in_buffer a (read_cell (length (pre ++ [y]))) (mk_store bufs vs) = Ok (t, mk_store bufs vs).
Proof.
  intros (_ & g & Hc & _) Hb. split; (eapply in_buffer_read; [done|]); rewrite Hc, fmap_app.
  - rewrite fmap_app, <- !app_assoc. apply read_at. rewrite length_fmap, length_app. simpl. lia.
  - rewrite <- app_assoc. apply read_at. by rewrite length_fmap.
Qed.

Lemma sort_loop_first rest pre bufs vs m k v :
  ok bufs vs m → vs !! k = Some v → m !! k = Some (pre ++ rest) → pre ≠ [] →
  ∃ ys s', sort_loop k (length rest) (length pre) (mStorage v) false (mk_store bufs vs) = Ok (NO_ERROR, s') ∧
    sorting cmp pre rest ys ∧ vok s' (<[k := ys]> m).
Proof.
  intros Hok Hv. revert pre. induction rest as [|t rest IH]; intros pre Hx Hne.
  - rewrite app_nil_r in Hx. exists pre, (mk_store bufs vs). rewrite insert_id by done. split_and!; [done|constructor|done].
  - destruct pre as [|y pre _] using rev_ind; [done|].
    destruct (ok_block _ _ _ _ _ _ _ _ Hok Hv Hx) as (Hn & b0 & Hb0 & Hg0); [by destruct pre|].
    destruct (sort_reads pre y t rest b0 (mStorage v) bufs vs Hg0 Hb0) as [E1 E2]. cbn [length Vectors.sort_loop].
    erewrite st_bind_eq by exact E1. erewrite st_bind_eq by exact E2.
    destruct (Z.gtb_spec (cmp y t) 0) as [Hgt|Hle].
    + destruct (editArrayImpl_eq malloc itemSize td itemSize_pos malloc_ok bufs vs m k v _ b0 Hok Hv Hx Hb0)
        as (a & b & bufs' & E & Hsole & Hg & _).
      rewrite (at_storage v a _ (proj1 (ok_held _ _ _ _ _ _ _ _ Hok Hv Hx))) in E.
      erewrite st_bind_eq by exact E. rewrite (proj2 (Z.eqb_neq a 0)) by apply Hsole. cbn [orb negb].
      destruct (sort_loop_sole (t :: rest) (pre ++ [y]) b bufs' vs m k a Hsole Hg Hne) as (ys & s' & E' & H).
      exists ys, s'. split; [|exact H]. cbn [length Vectors.sort_loop] in E'.
      destruct (sort_reads pre y t rest b a bufs' (<[k := mk_vec a (Z.of_nat (length ((pre ++ [y]) ++ t :: rest)))]> vs) Hg (sole_at _ _ _ _ _ _ _ _ Hsole)) as [E3 E4].
      rewrite (st_bind_eq _ _ _ _ _ E3), (st_bind_eq _ _ _ _ _ E4) in E'.
      rewrite (proj2 (Z.gtb_lt _ _)) in E' by lia. cbn [orb negb] in E'.
      erewrite (st_bind_eq (mret a)) in E' by done.
      rewrite (proj2 (Z.eqb_neq a 0)) in E' by apply Hsole. exact E'.
    + destruct (IH ((pre ++ [y]) ++ [t])) as (ys & s' & E' & Hsort & Hok').
      { by rewrite <- app_assoc. }
      { intros E. apply (f_equal length) in E. rewrite !length_app in E. simpl in E. lia. }
      exists ys, s'. split_and!; [|eapply sorting_item; [apply placed_end; right; eauto|exact Hsort]|done].
      rewrite (length_app (pre ++ [y])) in E'. cbn [length] in E'. by rewrite Nat.add_1_r in E'.
Qed.

(** C34: Sorting is a stable sort.  For every comparison of a total preorder,
    [VectorImpl::sort] ends, leaves the vector with the items it had in ascending
    order, those that compare equal in the order they were in, and the other vectors,
    the ones that shared its storage too, as they were. *)
Theorem sort_is_stable bufs vs m k xs :
  ok bufs vs m → m !! k = Some xs → fits (Z.of_nat (length xs)) →
  ∃ ys s', sort malloc itemSize td cmp true k (mk_store bufs vs) = Ok (NO_ERROR, s') ∧ vok s' (<[k := ys]> m) ∧
    in_order cmp ys ∧ ys ≡ₚ xs ∧ ∀ z, same_as cmp z ys = same_as cmp z xs.
Proof.
  intros Hok Hx (_ & Hf & _). destruct (ok_at _ _ _ _ _ _ _ Hok Hx) as (v & Hv & Hh).
  unfold sort. erewrite st_bind_eq by (by apply vector_eq). rewrite (proj1 Hh).
  replace (s32 (Z.of_nat (length xs))) with (Z.of_nat (length xs)) by (unfold s32; rewrite Z.mod_small; lia).
  assert (H1 : ∀ x, in_order cmp [x]) by (intros x; by repeat constructor).
  destruct xs as [|x rest]; [|destruct rest as [|y rest]].
  1, 2: eexists _, _; split_and!; [done|by rewrite insert_id|first [done|constructor]|done..].
  assert (Hc : Z.of_nat (length (x :: y :: rest)) >? 1 = true) by (apply Z.gtb_lt; simpl; lia). rewrite Hc.
  destruct (sort_loop_first (y :: rest) [x] bufs vs m k v Hok Hv Hx) as (ys & s' & E & Hsort & Hok'); [done|].
  exists ys, s'. split; [|split; [done|by apply (sorting_sorts cmp [x])]].
  replace (Z.to_nat (Z.of_nat (length (x :: y :: rest)) - 1)) with (length (y :: rest)) by (simpl; lia). exact E.
Qed.
End sort.
