(* ===== verification/VectorSorted.v ===== *)
(** [SortedVectorImpl]: the binary search ends and finds the place of an item in
    a vector that is in order; adding and removing keep one item of each kind. *)
From S2P Require Import Prelude VectorImpl VectorSpec VectorStorage VectorOps VectorRefine VectorSort.
Import Vectors.

(** ** Lists without equal items *)

Section strict.
Context {A : Type} (cmp : A → A → Z) `{HC : !Comparison cmp}.
Implicit Types (x y z : A) (xs ys p q : list A).

Definition strict xs : Prop := StronglySorted (λ x y, cmp x y < 0) xs.

(** What the comparison tells about an item after that about another one. *)
Lemma cmp_lt_flip x y : cmp x y < 0 ↔ 0 < cmp y x.
Proof. pose proof (cmp_flip cmp x y). lia. Qed.

Lemma cmp_lt_trans x y z : cmp x y < 0 → cmp y z ≤ 0 → cmp x z < 0.
Proof.
  intros H1 H2. pose proof (cmp_trans cmp x y z ltac:(lia) H2). destruct (decide (cmp x z = 0)) as [E|]; [|lia].
  pose proof (cmp_flip cmp x z). pose proof (cmp_flip cmp x y).
  pose proof (cmp_trans cmp y z x H2 ltac:(lia)). lia.
Qed.

Lemma cmp_gt_trans x y z : 0 < cmp x y → cmp z y ≤ 0 → 0 < cmp x z.
Proof. rewrite <- !cmp_lt_flip. intros H1 H2. pose proof (cmp_flip cmp z y).
  destruct (decide (cmp z x < 0)); [done|]. pose proof (cmp_flip cmp z x).
  assert (cmp x z ≤ 0) by lia. pose proof (cmp_trans cmp x z y ltac:(done) H2). pose proof (cmp_flip cmp y x). lia.
Qed.

Lemma strict_app p q : strict (p ++ q) ↔ strict p ∧ strict q ∧ ∀ x y, x ∈ p → y ∈ q → cmp x y < 0.
Proof.
  unfold strict. induction p as [|a p IH]; cbn [app].
  - split; [|tauto]. intros H. split_and!; [constructor|done|]. by intros x y ?%elem_of_nil.
  - split.
    + intros [(H1 & H2 & H3)%IH Ha]%StronglySorted_inv. apply Forall_app in Ha as [Ha1 Ha2]. split_and!; [by constructor|done|].
      intros x y [->|Hx]%elem_of_cons Hy; [|by apply H3]. by eapply Forall_forall in Ha2.
    + intros ([H1 Ha]%StronglySorted_inv & H2 & H3). constructor.
      * apply IH. split_and!; [done..|]. intros x y Hx. apply H3. by right.
      * apply Forall_app. split; [done|]. apply Forall_forall. intros y Hy. apply H3; [by left|done].
Qed.

Lemma strict_cons x q : strict (x :: q) ↔ strict q ∧ ∀ y, y ∈ q → cmp x y < 0.
Proof.
  split; [intros [H1 H2]%StronglySorted_inv; split; [done|by apply Forall_forall]|].
  intros [H1 H2]. constructor; [done|by apply Forall_forall].
Qed.

(** Where [x] is, or would be. *)
Inductive found xs x : Z * Z → Prop :=
| found_here p y q : xs = p ++ y :: q → cmp y x = 0 → found xs x (Z.of_nat (length p), Z.of_nat (length p))
| found_none p q : xs = p ++ q → (∀ y, y ∈ p → cmp y x < 0) → (∀ y, y ∈ q → 0 < cmp y x) →
    found xs x (NAME_NOT_FOUND, Z.of_nat (length p)).

(** An item in the place of one like it. *)
Lemma strict_replace p y q x : strict (p ++ y :: q) → cmp y x = 0 →
  strict (p ++ x :: q) ∧ ∀ z, z ∈ p ++ q → cmp z x ≠ 0.
Proof.
  intros (H1 & [H2 Hy]%strict_cons & H12)%strict_app E. pose proof (cmp_flip cmp y x).
  assert (Hp : ∀ z, z ∈ p → cmp z x < 0).
  { intros z Hz. apply (cmp_lt_trans z y x); [apply H12; [done|by left]|lia]. }
  assert (Hq : ∀ z, z ∈ q → cmp x z < 0).
  { intros z Hz. apply cmp_lt_flip, (cmp_gt_trans z y x); [by apply cmp_lt_flip, Hy|lia]. }
  split.
  - apply strict_app. split_and!; [done|by apply strict_cons|].
    intros z w Hz [->|Hw]%elem_of_cons; [by apply Hp|]. apply H12; [done|by right].
  - intros z [Hz|Hz]%elem_of_app; [apply Hp in Hz; lia|]. apply Hq, cmp_lt_flip in Hz. lia.
Qed.

Lemma strict_insert p q x :
  strict (p ++ q) → (∀ y, y ∈ p → cmp y x < 0) → (∀ y, y ∈ q → 0 < cmp y x) → strict (p ++ x :: q).
Proof.
  intros (H1 & H2 & H12)%strict_app Hp Hq. apply strict_app. split_and!; [done| |].
  - apply strict_cons. split; [done|]. intros y Hy. by apply cmp_lt_flip, Hq.
  - intros z w Hz [->|Hw]%elem_of_cons; [by apply Hp|by apply H12].
Qed.

Lemma strict_lookup xs i j x y : strict xs → xs !! i = Some x → xs !! j = Some y → (i < j)%nat → cmp x y < 0.
Proof.
  intros H. revert i j. induction H as [|z xs Hs IH Hz]; intros i j Hi Hj Hlt; [done|].
  destruct j as [|j]; [lia|]. cbn in Hj. destruct i as [|i]; cbn in Hi; [|apply (IH i j); [done..|lia]].
  injection Hi as <-. eapply Forall_forall in Hz; [exact Hz|]. by eapply list_elem_of_lookup_2.
Qed.
End strict.

Section sorted.
Context {A : Type} (malloc : gmap Z (buffer A) → Z → Z) (itemSize : Z) (dflt : A) (tct td tc tm : bool).
Context (itemSize_pos : 0 < itemSize).
(** There is memory. *)
Context (malloc_ok : ∀ h n, 0 ≤ n < 2 ^ 32 → malloc h n ≠ 0 ∧ h !! malloc h n = None).
Context (cmp : A → A → Z) `{HC : !Comparison cmp}.
Implicit Types (bufs : gmap Z (buffer A)) (vs : gmap Z vec) (m : gmap Z (list A)) (xs ys p q : list A) (x y z : A).

Notation vok s m := (vectors_ok itemSize td s m).
Notation ok bufs vs m := (vectors_ok itemSize td (mk_store bufs vs) m).
Notation fits := (fits itemSize).
Notation strict := (strict cmp).
Notation found := (found cmp).
Notation search_loop := (search_loop cmp).

Lemma compare_eq bufs vs m k v xs i y x :
  ok bufs vs m → vs !! k = Some v → m !! k = Some xs → xs !! i = Some y →
  compare cmp (Cells (mStorage v) i) (Ext [x]) (mk_store bufs vs) = Ok (cmp y x, mk_store bufs vs).
Proof.
  intros Hok Hv Hx Hi. destruct (ok_block _ _ _ _ _ _ _ _ Hok Hv Hx) as (Hn & b & Hb & _ & g & Hg & _); [by intros ->|].
  assert (E : items (Cells (mStorage v) i) 1 (mk_store bufs vs) = Ok ([y], mk_store bufs vs)).
  { apply list_elem_of_split_length in Hi as (l & r & -> & ->).
    eapply (items_cells bufs vs _ b (Some <$> l) [y] ((Some <$> r) ++ g)); [done| |by rewrite length_fmap|done].
    rewrite Hg, fmap_app, <- app_assoc. done. }
  unfold compare. erewrite st_bind_eq by exact E. cbn [items]. by rewrite decide_True by (simpl; lia).
Qed.

(** The search: everything in front of [l] is smaller, everything behind [h] is bigger. *)
Lemma search_loop_eq fuel bufs vs m k v xs x l h :
  ok bufs vs m → vs !! k = Some v → m !! k = Some xs → strict xs →
  0 ≤ l ≤ h + 1 → h < Z.of_nat (length xs) → h - l < Z.of_nat fuel →
  (∀ i y, xs !! i = Some y → Z.of_nat i < l → cmp y x < 0) →
  (∀ i y, xs !! i = Some y → h < Z.of_nat i → 0 < cmp y x) →
  ∃ r, search_loop fuel (mStorage v) (Ext [x]) l h (mk_store bufs vs) = Ok (r, mk_store bufs vs) ∧ found xs x r.
Proof.
  intros Hok Hv Hx Hs. revert l h. induction fuel as [|fuel IH]; intros l h Hl Hh Hf Hlo Hhi; cbn [Vectors.search_loop].
  all: destruct (Z.leb_spec l h) as [Hle|Hgt]; [try lia|].
  1, 3: eexists; split; [done|]; replace l with (Z.of_nat (length (take (Z.to_nat l) xs))) by (rewrite length_take; lia);
    apply (found_none cmp xs x _ (drop (Z.to_nat l) xs)); [by rewrite take_drop| |];
    [intros y (i & Hi)%list_elem_of_lookup; apply lookup_take_Some in Hi as [Hi ?]; apply (Hlo i); [done|lia]
    |intros y (i & Hi)%list_elem_of_lookup; rewrite lookup_drop in Hi; apply (Hhi _ _ Hi); lia].
  set (mid := l + (h - l) / 2). assert (Hmid : l ≤ mid ≤ h) by (subst mid; Z.to_euclidean_division_equations; lia).
  destruct (lookup_lt_is_Some_2 xs (Z.to_nat mid)) as [y Hy]; [lia|]. cbn zeta. fold mid.
  erewrite st_bind_eq by (by eapply compare_eq).
  destruct (Z.eqb_spec (cmp y x) 0) as [E|Hne].
  { eexists. split; [done|]. apply list_elem_of_split_length in Hy as (p & q & -> & Hp).
    replace mid with (Z.of_nat (length p)) by lia. by apply (found_here cmp _ x p y q). }
  destruct (Z.ltb_spec (cmp y x) 0) as [Hlt|Hge].
  - apply IH; [lia..| |done]. intros i z Hz Hi. destruct (decide (i = Z.to_nat mid)) as [->|]; [congruence|].
    apply (cmp_lt_trans cmp z y x); [|lia]. apply (strict_lookup cmp xs i (Z.to_nat mid)); [done..|lia].
  - apply IH; [lia..|done|]. intros i z Hz Hi. destruct (decide (i = Z.to_nat mid)) as [->|]; [assert (z = y) by congruence; subst; lia|].
    assert (Hyz : cmp y z < 0) by (apply (strict_lookup cmp xs (Z.to_nat mid) i); [done..|lia]).
    apply (cmp_lt_flip cmp), (cmp_lt_trans cmp x y z); [apply cmp_lt_flip; [done|lia]|lia].
Qed.

Lemma _indexOrderOf_eq bufs vs m k xs x :
  ok bufs vs m → m !! k = Some xs → strict xs → fits (Z.of_nat (length xs)) →
  ∃ r, _indexOrderOf cmp k (Ext [x]) (mk_store bufs vs) = Ok (r, mk_store bufs vs) ∧ found xs x r.
Proof.
  intros Hok Hx Hs (_ & Hf & _). destruct (ok_at _ _ _ _ _ _ _ Hok Hx) as (v & Hv & Hh).
  unfold _indexOrderOf. erewrite st_bind_eq by (by apply vector_eq). rewrite (proj1 Hh), Nat2Z.id.
  replace (s32 (Z.of_nat (length xs) - 1)) with (Z.of_nat (length xs) - 1) by (unfold s32; rewrite Z.mod_small; lia).
  eapply search_loop_eq; [done..|lia|lia|lia|intros; lia|].
  intros i y Hy Hi. apply lookup_lt_Some in Hy. lia.
Qed.

(** The comparison of the items at an index that is found is an error or an index. *)
Lemma index_negative (n : nat) : (Z.of_nat n <? 0) = false.
Proof. apply Z.ltb_ge. lia. Qed.

Lemma sorted_add_eq bufs vs m k xs x :
  ok bufs vs m → m !! k = Some xs → strict xs → fits (Z.of_nat (length xs + 1)) →
  ∃ i s' ys, sorted_add malloc itemSize dflt tct td tc tm cmp k (Ext [x]) (mk_store bufs vs) = Ok (Z.of_nat i, s') ∧
    vok s' (<[k := ys]> m) ∧ strict ys ∧ ys !! i = Some x ∧ ∀ y, y ∈ ys ↔ y = x ∨ y ∈ xs ∧ cmp y x ≠ 0.
Proof.
  intros Hok Hx Hs Hf. destruct (_indexOrderOf_eq bufs vs m k xs x) as (r & E & Hr); [done..| |].
  { revert Hf. apply fits_le. lia. }
  unfold sorted_add. erewrite st_bind_eq by exact E. destruct Hr as [p y q -> Hy|p q -> Hp Hq].
  - rewrite index_negative.
    destruct (replaceAt_eq malloc itemSize dflt tct td itemSize_pos malloc_ok bufs vs m k (p ++ y :: q) (Some x) (length p))
      as (s' & E' & Hok'); [done..|rewrite length_app; simpl; lia|done|].
    exists (length p), s', (p ++ x :: q). cbn [default] in Hok'. rewrite (set_middle p q) in Hok' by done.
    destruct (strict_replace cmp p y q x Hs Hy) as [Hs' Hne].
    split_and!; [exact E'|done|done|by rewrite list_lookup_middle|]. intros z. rewrite !elem_of_app, !elem_of_cons.
    specialize (Hne z). rewrite elem_of_app in Hne. split; [intros [?|[?|?]]; tauto|].
    intros [?|[[?|[->|?]] ?]]; tauto.
  - change (NAME_NOT_FOUND <? 0) with true. cbn iota.
    destruct (insertAt_eq malloc itemSize dflt tct td tc tm itemSize_pos malloc_ok bufs vs m k (p ++ q) (Some x) (length p) 1)
      as (s' & E' & Hok'); [done..|rewrite length_app; lia|lia|done|done|].
    exists (length p), s', (p ++ x :: q). unfold inserted in Hok'. rewrite take_app_length, drop_app_length in Hok'.
    split_and!; [exact E'|exact Hok'|by apply strict_insert|by rewrite list_lookup_middle|].
    intros z. rewrite !elem_of_app, !elem_of_cons. specialize (Hp z). specialize (Hq z). split; [|tauto].
    intros [H|[H|H]]; [right; split; [by left|]; apply Hp in H; lia|by left|right; split; [by right|]; apply Hq in H; lia].
Qed.

Lemma indexOf_eq bufs vs m k xs x :
  ok bufs vs m → m !! k = Some xs → strict xs → fits (Z.of_nat (length xs)) →
  (∃ i y, indexOf cmp k (Ext [x]) (mk_store bufs vs) = Ok (Z.of_nat i, mk_store bufs vs) ∧ xs !! i = Some y ∧ cmp y x = 0) ∨
  (indexOf cmp k (Ext [x]) (mk_store bufs vs) = Ok (NAME_NOT_FOUND, mk_store bufs vs) ∧ ∀ y, y ∈ xs → cmp y x ≠ 0).
Proof.
  intros Hok Hx Hs Hf. destruct (_indexOrderOf_eq bufs vs m k xs x) as (r & E & Hr); [done..|].
  unfold indexOf. destruct Hr as [p y q -> Hy|p q -> Hp Hq].
  - left. exists (length p), y. split_and!; [by erewrite st_bind_eq by exact E|by rewrite list_lookup_middle|done].
  - right. split; [by erewrite st_bind_eq by exact E|]. intros y [Hy|Hy]%elem_of_app; [apply Hp in Hy|apply Hq in Hy]; lia.
Qed.

Lemma remove_eq bufs vs m k xs x :
  ok bufs vs m → m !! k = Some xs → strict xs → fits (Z.of_nat (length xs)) →
  ∃ i s' ys, remove malloc itemSize td tc tm cmp k (Ext [x]) (mk_store bufs vs) = Ok (i, s') ∧
    vok s' (<[k := ys]> m) ∧ strict ys ∧ (∀ y, y ∈ ys ↔ y ∈ xs ∧ cmp y x ≠ 0) ∧ (i < 0 → ys = xs).
Proof.
  intros Hok Hx Hs Hf. unfold remove.
  destruct (indexOf_eq bufs vs m k xs x Hok Hx Hs Hf) as [(i & y & E & Hi & Hy)|[E Hne]]; erewrite st_bind_eq by exact E.
  - rewrite Z.geb_leb, (proj2 (Z.leb_le 0 _)) by lia. cbn [when].
    pose proof (lookup_lt_Some _ _ _ Hi).
    destruct (removeItemsAt_eq malloc itemSize td tc tm itemSize_pos malloc_ok bufs vs m k xs i 1) as (s' & E' & Hok');
      [done..|lia|lia|done|].
    apply list_elem_of_split_length in Hi as (p & q & -> & ->). unfold without in Hok'.
    rewrite take_app_length, <- drop_drop, drop_app_length in Hok'. cbn [drop] in Hok'.
    exists (Z.of_nat (length p)), s', (p ++ q). destruct (strict_replace cmp p y q x Hs Hy) as [_ Hne].
    split_and!; [|done| | |lia].
    + erewrite st_bind_eq; [done|]. by erewrite st_bind_eq by exact E'.
    + apply strict_app in Hs as (H1 & [H2 _]%strict_cons & H12). apply strict_app. split_and!; [done..|].
      intros z w Hz Hw. apply H12; [done|by right].
    + intros z. specialize (Hne z). rewrite !elem_of_app, !elem_of_cons in *. split; [tauto|]. intros [[?|[->|?]] ?]; tauto.
  - exists NAME_NOT_FOUND, (mk_store bufs vs), xs. rewrite insert_id by done. split_and!; [done..| |done].
    intros y. split; [intros Hy; split; [done|by apply Hne]|by intros [? _]].
Qed.

(** C33: A sorted vector keeps one item of each kind, in order.  On a vector whose
    items ascend strictly, the binary search ends and [indexOf] tells an item that
    compares equal or that there is none; [add] puts the item where its index says,
    in the place of the one that compared equal if there was one; [remove] takes that
    one away; the items ascend strictly again, no other item comes or goes, and the
    other vectors stay as they were. *)
Theorem sorted_vector_correct bufs vs m k xs x :
  ok bufs vs m → m !! k = Some xs → strict xs → fits (Z.of_nat (length xs + 1)) →
  (∃ i s' ys, sorted_add malloc itemSize dflt tct td tc tm cmp k (Ext [x]) (mk_store bufs vs) = Ok (Z.of_nat i, s') ∧
    vok s' (<[k := ys]> m) ∧ strict ys ∧ ys !! i = Some x ∧ ∀ y, y ∈ ys ↔ y = x ∨ y ∈ xs ∧ cmp y x ≠ 0) ∧
  (∃ i s' ys, remove malloc itemSize td tc tm cmp k (Ext [x]) (mk_store bufs vs) = Ok (i, s') ∧
    vok s' (<[k := ys]> m) ∧ strict ys ∧ (∀ y, y ∈ ys ↔ y ∈ xs ∧ cmp y x ≠ 0) ∧ (i < 0 → ys = xs)) ∧
  ((∃ i y, indexOf cmp k (Ext [x]) (mk_store bufs vs) = Ok (Z.of_nat i, mk_store bufs vs) ∧ xs !! i = Some y ∧ cmp y x = 0) ∨
   (indexOf cmp k (Ext [x]) (mk_store bufs vs) = Ok (NAME_NOT_FOUND, mk_store bufs vs) ∧ ∀ y, y ∈ xs → cmp y x ≠ 0)).
Proof.
  intros Hok Hx Hs Hf. assert (Hf' : fits (Z.of_nat (length xs))) by (revert Hf; apply fits_le; lia).
  split; [by apply sorted_add_eq|]. split; [by apply remove_eq|by apply (indexOf_eq bufs vs m)].
Qed.
End sorted.
