(* ===== verification/VectorRuns.v ===== *)
(** Vectors at work: runs of the operations on items with and without
    constructors, and the inputs for which the code does not do what it means. *)
From S2P Require Import Prelude VectorImpl VectorSpec VectorStorage VectorOps VectorRefine VectorPrograms VectorSort VectorSorted.
Import Vectors.

Module VectorRuns.

(** A memory that puts a block behind the other ones. *)
Definition next_block {B} (h : gmap Z B) (n : Z) : Z := map_fold (λ a _ r, Z.max a r) 0 h + 1.

Lemma next_block_ok {B} (h : gmap Z B) n : next_block h n ≠ 0 ∧ h !! next_block h n = None.
Proof.
  unfold next_block. assert (H : 0 ≤ map_fold (λ a _ r, Z.max a r) 0 h ∧ ∀ a, is_Some (h !! a) → a ≤ map_fold (λ a _ r, Z.max a r) 0 h).
  { apply (map_fold_weak_ind (λ r (g : gmap Z B), 0 ≤ r ∧ ∀ a, is_Some (g !! a) → a ≤ r)).
    - split; [done|]. intros a [x Hx]. by rewrite lookup_empty in Hx.
    - intros i x g r Hi [H0 H1]. split; [lia|]. intros a [y Hy]. destruct (decide (a = i)) as [->|?]; [lia|].
      rewrite lookup_insert_ne in Hy by done. specialize (H1 a ltac:(by eexists)). lia. }
  destruct H as [H0 H1]. split; [lia|]. destruct (h !! _) as [x|] eqn:E; [|done].
  specialize (H1 _ ltac:(by eexists)). lia.
Qed.

(** Memory for [k] blocks. *)
Definition few_blocks {B} (k : nat) (h : gmap Z B) (n : Z) : Z := if decide (size h < k)%nat then next_block h n else 0.

(** Vectors of strings, say, of four bytes, and of numbers. *)
Definition objects : vop Z → ST (store Z) Z := vop_run next_block 4 0 false false false false.
Definition numbers : vop Z → ST (store Z) Z := vop_run next_block 4 0 true true true true.

Fixpoint after (run : vop Z → ST (store Z) Z) (ops : list (vop Z)) (s : store Z) : store Z :=
  match ops with [] => s | op :: ops' => after run ops' (state_after (run op) s) end.

(** The items of a vector, as they are read. *)
Definition items_of (k : Z) (s : store Z) : list (res Z) :=
  match s_vecs s !! k with
  | Some v => (λ i, match itemAt k (Z.of_nat i) s with Ok (x, _) => Ok x | Oops o => Oops o end) <$> seq 0 (Z.to_nat (mCount v))
  | None => []
  end.
Definition count_of (k : Z) (s : store Z) : Z := default 0 (mCount <$> s_vecs s !! k).

(** What a computation returns, or why it cannot go on. *)
Definition outcome {B} (r : res (B * store Z)) : res B := match r with Ok (x, _) => Ok x | Oops o => Oops o end.

Lemma vectors_are_lists_witness :
  spec_all 4 0 false [New 1; InsertArray 1 [1; 2; 3] 0; Copy 2 1; Insert 2 (Some 9) 1 2; Replace 1 (Some 7) 0; Pop 2; Delete 1] ∅ =
    Some ([0; 0; 0; 1; 0; 0; 0], {[2 := [1; 9; 9; 2]]}) ∧
  ∃ s, run_all next_block 4 0 false false false false
      [New 1; InsertArray 1 [1; 2; 3] 0; Copy 2 1; Insert 2 (Some 9) 1 2; Replace 1 (Some 7) 0; Pop 2; Delete 1] no_vectors =
    Ok ([0; 0; 0; 1; 0; 0; 0], s) ∧
    (∀ k xs, ({[2 := [1; 9; 9; 2]]} : gmap Z (list Z)) !! k = Some xs →
       (∃ v, s_vecs s !! k = Some v ∧ mCount v = Z.of_nat (length xs)) ∧
       ∀ i x, xs !! i = Some x → itemAt k (Z.of_nat i) s = Ok (x, s)) ∧
    (({[2 := [1; 9; 9; 2]]} : gmap Z (list Z)) = ∅ → s_bufs s = ∅ ∧ s_vecs s = ∅).
Proof.
  split; [by vm_compute|].
  apply (vectors_are_lists next_block 4 0 false false false false); [lia|by vm_compute|intros; apply next_block_ok|by vm_compute].
Defined.

(** Pairs by their first number. *)
Definition by_key (x y : Z * Z) : Z := fst x - fst y.

#[export] Instance by_key_comparison : Comparison by_key.
Proof. split; unfold by_key; intros; lia. Qed.

(** Three vectors, two of them with the same storage. *)
Definition pairs : list (Z * Z) := [(3, 1); (1, 2); (3, 3); (2, 4); (1, 5)].
Definition ascending : list (Z * Z) := [(1, 0); (4, 0); (6, 0)].
Definition setup (xs : list (Z * Z)) : list (vop (Z * Z)) := [New 1; InsertArray 1 xs 0; Copy 2 1; New 3].
Definition lists_of (xs : list (Z * Z)) : gmap Z (list (Z * Z)) := {[1 := xs; 2 := xs; 3 := []]}.

Lemma setup_ok xs :
  spec_all 8 (0, 0) false (setup xs) ∅ = Some ([0; 0; 0; 0], lists_of xs) →
  ∃ bufs vs, vectors_ok 8 false (mk_store bufs vs) (lists_of xs).
Proof.
  intros H. destruct (run_all_ok next_block 8 (0, 0) false false false false ltac:(lia) ltac:(by vm_compute)
    (λ h n _, next_block_ok h n) (setup xs) no_vectors ∅ _ _ (no_vectors_ok 8 false) ltac:(by intros ??) H) as ([bufs vs] & _ & Hok).
  by exists bufs, vs.
Qed.

Lemma setup_pairs : spec_all 8 (0, 0) false (setup pairs) ∅ = Some ([0; 0; 0; 0], lists_of pairs).
Proof. by vm_compute. Qed.

Lemma setup_ascending : spec_all 8 (0, 0) false (setup ascending) ∅ = Some ([0; 0; 0; 0], lists_of ascending).
Proof. by vm_compute. Qed.

Lemma sort_is_stable_witness :
  ∃ bufs vs, vectors_ok 8 false (mk_store bufs vs) (lists_of pairs) ∧
    ∃ ys s', sort next_block 8 false by_key true 1 (mk_store bufs vs) = Ok (NO_ERROR, s') ∧
      vectors_ok 8 false s' (<[1 := ys]> (lists_of pairs)) ∧
      in_order by_key ys ∧ ys ≡ₚ pairs ∧ ∀ z, same_as by_key z ys = same_as by_key z pairs.
Proof.
  destruct (setup_ok pairs setup_pairs) as (bufs & vs & Hok). exists bufs, vs. split; [exact Hok|].
  apply (sort_is_stable next_block 8 false ltac:(lia) (λ h n _, next_block_ok h n) by_key bufs vs (lists_of pairs) 1 pairs Hok);
    [by vm_compute|by apply fits_bool_ok].
Defined.

Lemma sorted_vector_correct_witness :
  ∃ bufs vs, vectors_ok 8 false (mk_store bufs vs) (lists_of ascending) ∧ strict by_key ascending ∧
    ∃ i s' ys, sorted_add next_block 8 (0, 0) false false false false by_key 1 (Ext [(4, 9)]) (mk_store bufs vs) = Ok (Z.of_nat i, s') ∧
      vectors_ok 8 false s' (<[1 := ys]> (lists_of ascending)) ∧ strict by_key ys ∧ ys !! i = Some (4, 9) ∧
      ∀ y, y ∈ ys ↔ y = (4, 9) ∨ y ∈ ascending ∧ by_key y (4, 9) ≠ 0.
Proof.
  destruct (setup_ok ascending setup_ascending) as (bufs & vs & Hok).
  assert (Hs : strict by_key ascending).
  { apply strict_cons. split; [apply strict_cons; split; [by repeat constructor|]|];
      intros y; rewrite ?elem_of_cons, elem_of_nil; unfold by_key; intros; destruct_or?; simplify_eq; cbn; try lia. }
  exists bufs, vs. split_and!; [exact Hok|exact Hs|].
  apply (sorted_vector_correct next_block 8 (0, 0) false false false false ltac:(lia) (λ h n _, next_block_ok h n) by_key
    bufs vs (lists_of ascending) 1 ascending (4, 9) Hok); [by vm_compute|exact Hs|by apply fits_bool_ok].
Defined.

(** ** Where the code does not do what it means *)

(** A vector that is appended to itself is read after its storage is freed. *)
Lemma append_to_itself :
  outcome (appendVector next_block 4 false false false 1 1 (after objects [New 1; InsertArray 1 [1; 2; 3; 4] 0] no_vectors)) = Oops Null_deref.
Proof. by vm_compute. Qed.

(** So is an item of the vector that is added to it. *)
Lemma add_own_item :
  let s := after objects [New 1; InsertArray 1 [1; 2; 3; 4] 0; Insert 1 (Some 5) 4 2] no_vectors in
  match s_vecs s !! 1 with
  | Some v => outcome (Vectors.add next_block 4 0 false false false false 1 (Some (Cells (mStorage v) 0)) s) = Oops Null_deref
  | None => False
  end.
Proof. by vm_compute. Qed.

(** No items inserted in front of others: they are made where they are, and destroyed. *)
Lemma insert_nothing :
  outcome (insertArrayAt next_block 4 false false false 1 (Ext []) 0 0 (after objects [New 1; InsertArray 1 [1; 2; 3] 0] no_vectors)) = Oops Bug.
Proof. by vm_compute. Qed.

(** So do no items taken away. *)
Lemma remove_nothing :
  outcome (removeItemsAt next_block 4 false false false 1 0 0 (after objects [New 1; InsertArray 1 [1; 2; 3] 0] no_vectors)) = Oops Bug.
Proof. by vm_compute. Qed.

(** No items appended to a vector that is full or empty are too many for the memory. *)
Lemma append_nothing :
  outcome (appendVector next_block 4 false false false 1 2 (after objects [New 1; New 2] no_vectors)) = Ok NO_MEMORY.
Proof. by vm_compute. Qed.

(** A count that wraps around: items are to be taken away and one more is there. *)
Lemma remove_wraps :
  let s := after objects [New 1; InsertArray 1 [1; 2; 3] 0; Reserve 1 40] no_vectors in
  let r := removeItemsAt next_block 4 false false false 1 1 (2 ^ 32 - 1) s in
  outcome r = Ok 1 ∧ items_of 1 (state_after (removeItemsAt next_block 4 false false false 1 1 (2 ^ 32 - 1)) s) = [Ok 1; Ok 1; Ok 2; Ok 3].
Proof. by vm_compute. Qed.

(** A capacity whose bytes are a [size_t], but not with the header of the block: the
    block is too small for the header. *)
Lemma reserve_wraps :
  outcome (setCapacity next_block 4 false 1 (2 ^ 30 - 1) (after objects [New 1; InsertArray 1 [1; 2; 3] 0] no_vectors)) = Oops Bad_access.
Proof. by vm_compute. Qed.

(** Without memory the item is not added, but counted. *)
Lemma no_memory_counts :
  let add := insertAt (few_blocks 1) 4 0 false false false false 1 (Some (Ext [5])) 6 1 in
  let s := after objects [New 1; InsertArray 1 [1; 2; 3; 4] 0; Insert 1 (Some 5) 4 2] no_vectors in
  outcome (add s) = Ok NO_MEMORY ∧ count_of 1 (state_after add s) = 7 ∧ last (items_of 1 (state_after add s)) = Some (Oops Bad_access).
Proof. by vm_compute. Qed.

(** Without memory an edit of a copy is one of the original. *)
Lemma no_memory_edits_both :
  let edit := replaceAt (few_blocks 1) 4 0 false false 2 (Some (Ext [9])) 0 in
  let s := after objects [New 1; InsertArray 1 [1; 2; 3] 0; Copy 2 1] no_vectors in
  outcome (edit s) = Ok 0 ∧ items_of 1 (state_after edit s) = [Ok 9; Ok 2; Ok 3].
Proof. by vm_compute. Qed.

(** A sorted vector merged into one that is empty: its first item is not there. *)
Lemma merge_into_empty :
  outcome (merge_sorted next_block 4 0 false false false false Z.sub 1 2 (after objects [New 1; New 2; InsertArray 2 [1; 2] 0] no_vectors)) =
    Oops Null_deref.
Proof. by vm_compute. Qed.

(** A sorted vector that ends with the first item of the other one: the item is there twice. *)
Lemma merge_doubles :
  let merge := merge_sorted next_block 4 0 false false false false Z.sub 1 2 in
  let s := after objects [New 1; New 2; InsertArray 1 [5; 6] 0; InsertArray 2 [3; 5] 0] no_vectors in
  outcome (merge s) = Ok 0 ∧ items_of 1 (state_after merge s) = [Ok 3; Ok 5; Ok 5; Ok 6].
Proof. by vm_compute. Qed.
End VectorRuns.
