(* ===== verification/BlobCache.v ===== *)
(** A cache of blobs, [lib/utils/BlobCache.cpp]: keys and values of bytes, kept in
    a sorted vector, limited in size by the eviction of random entries, written to
    a buffer and read back.  The cache is a client of the interface [SortedVector]. *)
From S2P Require Import Prelude.

Module Cache.

Definition OK : Z := 0.
Definition BAD_VALUE : Z := -22.

(** ** What the cache uses of [SortedVector] *)

(** The operations on a vector of items of type [E]. *)
Class SortedVector (E : Type) : Type := {
  sv_state : Type;
  sv_size : ST sv_state Z;
  sv_item : Z → ST sv_state E;
  sv_indexOf : E → ST sv_state Z;
  sv_add : E → ST sv_state Z;
  sv_editItem : Z → (E → E) → ST sv_state unit;
  sv_removeAt : Z → ST sv_state Z;
  sv_clear : ST sv_state unit }.

(** ** Blobs and entries *)

(** A [Blob], by its bytes. *)
Definition blob : Type := list Z.
Definition getSize (b : blob) : Z := Z.of_nat (length b).

Fixpoint memcmp (a b : list Z) : Z :=
  match a, b with
  | x :: a', y :: b' => if x =? y then memcmp a' b' else x - y
  | _, _ => 0
  end.

(** [Blob::operator<]. *)
Definition blob_less (a b : blob) : bool := if getSize a =? getSize b then memcmp a b <? 0 else getSize a <? getSize b.

(** A [CacheEntry]. *)
Record entry : Type := mk_entry { mKey : blob; mValue : blob }.

#[export] Instance eta_entry : Eta entry := λ e, mk_entry (mKey e) (mValue e).
#[export] Instance field_value : Field mValue := ltac:(derive_field).

(** [compare_type] of [TypeHelpers.h], with [CacheEntry::operator<]. *)
Definition compare_entries (l r : entry) : Z := b2z (blob_less (mKey r) (mKey l)) - b2z (blob_less (mKey l) (mKey r)).

(** ** The cache *)

Section cache.
Context `{SV : SortedVector entry}.

Record cache : Type := mk_cache {
  mMaxKeySize : Z; mMaxValueSize : Z; mMaxTotalSize : Z; mTotalSize : Z; mRandState : Z; mCacheEntries : sv_state }.

#[export] Instance eta_cache : Eta cache :=
  λ c, mk_cache (mMaxKeySize c) (mMaxValueSize c) (mMaxTotalSize c) (mTotalSize c) (mRandState c) (mCacheEntries c).
#[export] Instance field_total : Field mTotalSize := ltac:(derive_field).
#[export] Instance field_rand : Field mRandState := ltac:(derive_field).
#[export] Instance field_entries : Field mCacheEntries := ltac:(derive_field).

Notation CM := (ST cache).

(** A call of the vector. *)
Definition entries {B} (m : ST sv_state B) : CM B :=
  λ c, match m (mCacheEntries c) with Ok (r, v) => Ok (r, c <| mCacheEntries := v |>) | Oops o => Oops o end.

(** The constructor; [now] is the time. *)
Definition new_cache (maxKeySize maxValueSize maxTotalSize now : Z) (v : sv_state) : cache :=
  mk_cache maxKeySize maxValueSize maxTotalSize 0 (now `mod` 2 ^ 48) v.

(** [nrand48]. *)
Definition next_rand (x : Z) : Z := (0x5DEECE66D * x + 0xB) `mod` 2 ^ 48.
Definition blob_random : CM Z := x ← gets mRandState; let y := next_rand x in modify (λ c, c <| mRandState := y |>) ;; mret (y / 2 ^ 17).

Definition isCleanable : CM bool := gets (λ c, mTotalSize c >? mMaxTotalSize c / 2).

(** The [clean] loop; a division by the number of no entries ends the process. *)
Fixpoint clean_loop (fuel : nat) : CM unit :=
  more ← isCleanable;
  if more : bool then
    match fuel with
    | O => fail Fuel
    | S fuel' =>
        r ← blob_random;
        n ← entries sv_size;
        if n =? 0 then fail Bug
        else
          let i := r `mod` n in
          e ← entries (sv_item i);
          modify (λ c, c <| mTotalSize %= λ t, u32 (t - u32 (getSize (mKey e) + getSize (mValue e))) |>) ;;
          entries (sv_removeAt i) ;;
          clean_loop fuel'
    end
  else mret tt.

Definition clean : CM unit := n ← entries sv_size; clean_loop (S (Z.to_nat n)).

(** The bytes at a pointer, by the memory from there on. *)
Definition mem_read (p : list Z) (n : Z) : CM blob := if n <=? Z.of_nat (length p) then mret (take (Z.to_nat n) p) else fail Bad_access.

Fixpoint set_loop (fuel : nat) (key value : blob) : CM unit :=
  match fuel with
  | O => fail Fuel
  | S fuel' =>
      index ← entries (sv_indexOf (mk_entry key []));
      if index <? 0 then
        newTotalSize ← gets (λ c, u32 (u32 (mTotalSize c + getSize key) + getSize value));
        max ← gets mMaxTotalSize;
        if max <? newTotalSize then
          cleanable ← isCleanable;
          if cleanable : bool then clean ;; set_loop fuel' key value else mret tt
        else
          entries (sv_add (mk_entry key value)) ;;
          modify (λ c, c <| mTotalSize := newTotalSize |>)
      else
        old ← entries (sv_item index);
        newTotalSize ← gets (λ c, u32 (u32 (mTotalSize c + getSize value) - getSize (mValue old)));
        max ← gets mMaxTotalSize;
        if max <? newTotalSize then
          cleanable ← isCleanable;
          if cleanable : bool then clean ;; set_loop fuel' key value else mret tt
        else
          entries (sv_editItem index (λ e, e <| mValue := value |>)) ;;
          modify (λ c, c <| mTotalSize := newTotalSize |>)
  end.

(** [set]; the loop is entered again after [clean], when nothing is left to clean. *)
Definition set (key : list Z) (keySize : Z) (value : list Z) (valueSize : Z) : CM unit :=
  c ← gets id;
  if mMaxKeySize c <? keySize then mret tt
  else if mMaxValueSize c <? valueSize then mret tt
  else if mMaxTotalSize c <? u32 (keySize + valueSize) then mret tt
  else if keySize =? 0 then mret tt
  else if valueSize <=? 0 then mret tt
  else
    k ← mem_read key keySize;
    v ← mem_read value valueSize;
    set_loop 2 k v.

(** [get], into a buffer of the caller; NULL is no memory. *)
Definition get (key : list Z) (keySize : Z) (value : list Z) (valueSize : Z) : CM (Z * list Z) :=
  c ← gets id;
  if mMaxKeySize c <? keySize then mret (0, value)
  else
    k ← mem_read key keySize;
    index ← entries (sv_indexOf (mk_entry k []));
    if index <? 0 then mret (0, value)
    else
      e ← entries (sv_item index);
      let valueBlobSize := getSize (mValue e) in
      if valueBlobSize <=? valueSize then
        if valueBlobSize <=? Z.of_nat (length value) then mret (valueBlobSize, splice 0 (mValue e) value) else fail Bad_access
      else mret (valueBlobSize, value).

(** ** In a buffer *)

Definition align4 (size : Z) : Z := u32 (ALIGN size 4).
Definition sizeof_Header : Z := 16.
Definition sizeof_EntryHeader : Z := 8.
(** ['_Bb$']. *)
Definition blobCacheMagic : Z := 0x5F426224.
Definition blobCacheVersion : Z := 1.
Definition blobCacheDeviceVersion : Z := 1.

Fixpoint flattened_loop (n : nat) (i size : Z) : CM Z :=
  match n with
  | O => mret size
  | S n' =>
      e ← entries (sv_item i);
      flattened_loop n' (i + 1) (u32 (align4 size + u32 (u32 (sizeof_EntryHeader + getSize (mKey e)) + getSize (mValue e))))
  end.

Definition getFlattenedSize : CM Z := n ← entries sv_size; flattened_loop (Z.to_nat n) 0 sizeof_Header.

Definition mem_write (off : Z) (bs buf : list Z) : CM (list Z) :=
  if (0 <=? off) && (off + Z.of_nat (length bs) <=? Z.of_nat (length buf)) then mret (splice (Z.to_nat off) bs buf) else fail Bad_access.

Definition mem_word (off : Z) (buf : list Z) : CM Z :=
  if (0 <=? off) && (off + 4 <=? Z.of_nat (length buf)) then mret (get32 (Z.to_nat off) buf) else fail Bad_access.

(** The memory from an offset on; behind the end there is none. *)
Definition mem_at (off : Z) (buf : list Z) : list Z := drop (Z.to_nat (Z.min off (Z.of_nat (length buf)))) buf.

Definition entry_size (keySize valueSize : Z) : Z := u32 (u32 (sizeof_EntryHeader + keySize) + valueSize).

Fixpoint flatten_loop (n : nat) (i size byteOffset : Z) (buf : list Z) : CM (Z * list Z) :=
  match n with
  | O => mret (OK, buf)
  | S n' =>
      e ← entries (sv_item i);
      let keySize := getSize (mKey e) in
      let valueSize := getSize (mValue e) in
      let entrySize := entry_size keySize valueSize in
      if u32 (byteOffset + entrySize) >? size then mret (BAD_VALUE, buf)
      else
        buf ← mem_write byteOffset (le_bytes 4 keySize) buf;
        buf ← mem_write (byteOffset + 4) (le_bytes 4 valueSize) buf;
        buf ← mem_write (byteOffset + 8) (mKey e) buf;
        buf ← mem_write (byteOffset + 8 + keySize) (mValue e) buf;
        flatten_loop n' (i + 1) size (s32 (byteOffset + align4 entrySize)) buf
  end.

(** [flatten] to a buffer; the result, and what the buffer holds then. *)
Definition flatten (buf : list Z) (size count : Z) : CM (Z * list Z) :=
  if negb (count =? 0) then mret (BAD_VALUE, buf)
  else if size <? sizeof_Header then mret (BAD_VALUE, buf)
  else
    n ← entries sv_size;
    buf ← mem_write 0 (le_bytes 4 blobCacheMagic) buf;
    buf ← mem_write 4 (le_bytes 4 blobCacheVersion) buf;
    buf ← mem_write 8 (le_bytes 4 blobCacheDeviceVersion) buf;
    buf ← mem_write 12 (le_bytes 4 n) buf;
    flatten_loop (Z.to_nat n) 0 size (align4 sizeof_Header) buf.

Fixpoint unflatten_loop (n : nat) (size byteOffset : Z) (buf : list Z) : CM Z :=
  match n with
  | O => mret OK
  | S n' =>
      if u32 (byteOffset + sizeof_EntryHeader) >? size then entries sv_clear ;; mret BAD_VALUE
      else
        keySize ← mem_word byteOffset buf;
        valueSize ← mem_word (byteOffset + 4) buf;
        let entrySize := entry_size keySize valueSize in
        if u32 (byteOffset + entrySize) >? size then entries sv_clear ;; mret BAD_VALUE
        else
          set (mem_at (byteOffset + 8) buf) keySize (mem_at (byteOffset + 8 + keySize) buf) valueSize ;;
          unflatten_loop n' size (s32 (byteOffset + align4 entrySize)) buf
  end.

Definition unflatten (buf : list Z) (size count : Z) : CM Z :=
  entries sv_clear ;;
  if negb (count =? 0) then mret BAD_VALUE
  else if size <? sizeof_Header then mret BAD_VALUE
  else
    magic ← mem_word 0 buf;
    version ← mem_word 4 buf;
    device ← mem_word 8 buf;
    numEntries ← mem_word 12 buf;
    if negb (magic =? blobCacheMagic) then mret BAD_VALUE
    else if negb (version =? blobCacheVersion) || negb (device =? blobCacheDeviceVersion) then mret OK
    else unflatten_loop (Z.to_nat numEntries) size (align4 sizeof_Header) buf.
End cache.
Arguments cache {SV}.
End Cache.
