(* ===== verification/BlobCacheSpec.v ===== *)
(** What the cache of blobs promises: its size is that of its entries and within
    the limit, an entry per key, and what [set] and [get] do. *)
From S2P Require Import Prelude VectorSort VectorSorted BlobCache.
Import Cache.

Module CacheSpec.

(** ** The order of the entries *)

Implicit Types (a b k v : blob) (e l r : entry) (es : list entry).

Lemma memcmp_flip a b : length a = length b → memcmp b a = - memcmp a b.
Proof.
  revert b. induction a as [|x a IH]; intros [|y b] H; try done. cbn. injection H as H.
  destruct (Z.eqb_spec x y) as [->|?]; [rewrite Z.eqb_refl; by apply IH|].
  rewrite (proj2 (Z.eqb_neq y x)) by done. lia.
Qed.

Lemma memcmp_zero a b : length a = length b → memcmp a b = 0 → a = b.
Proof.
  revert b. induction a as [|x a IH]; intros [|y b] H; try done. cbn. injection H as H.
  destruct (Z.eqb_spec x y) as [->|?]; [|lia]. intros E. f_equal. by apply IH.
Qed.

Lemma memcmp_refl a : memcmp a a = 0.
Proof. induction a as [|x a IH]; [done|]. cbn. by rewrite Z.eqb_refl. Qed.

Lemma memcmp_trans a b k :
  length a = length b → length b = length k → memcmp a b ≤ 0 → memcmp b k ≤ 0 → memcmp a k ≤ 0.
Proof.
  revert b k. induction a as [|x a IH]; intros [|y b] [|z k] H1 H2; try done. cbn. injection H1 as H1. injection H2 as H2.
  destruct (Z.eqb_spec x y) as [->|?], (Z.eqb_spec y z) as [->|?]; try (rewrite ?Z.eqb_refl).
  - by apply IH.
  - lia.
  - rewrite (proj2 (Z.eqb_neq x z)) by done. lia.
  - intros. destruct (Z.eqb_spec x z); lia.
Qed.

(** The comparison by size and then by bytes. *)
Lemma compare_entries_spec l r :
  (compare_entries l r < 0 ↔ getSize (mKey l) < getSize (mKey r) ∨ getSize (mKey l) = getSize (mKey r) ∧ memcmp (mKey l) (mKey r) < 0) ∧
  (compare_entries l r = 0 ↔ mKey l = mKey r).
Proof.
  unfold compare_entries, blob_less, getSize. destruct (Z.eqb_spec (Z.of_nat (length (mKey r))) (Z.of_nat (length (mKey l)))) as [E|Hne].
  - rewrite E, Z.eqb_refl. assert (El : length (mKey l) = length (mKey r)) by lia.
    pose proof (memcmp_flip (mKey l) (mKey r) El) as Hf.
    assert (Hz : mKey l = mKey r → memcmp (mKey l) (mKey r) = 0) by (intros ->; apply memcmp_refl).
    destruct (Z.ltb_spec (memcmp (mKey r) (mKey l)) 0), (Z.ltb_spec (memcmp (mKey l) (mKey r)) 0); cbn;
      (split; [lia|]); split; try lia.
    all: intros Heq; first [specialize (Hz Heq); lia|apply memcmp_zero; [done|lia]].
  - rewrite (proj2 (Z.eqb_neq _ _)) by congruence.
    destruct (Z.ltb_spec (Z.of_nat (length (mKey r))) (Z.of_nat (length (mKey l)))),
      (Z.ltb_spec (Z.of_nat (length (mKey l))) (Z.of_nat (length (mKey r)))); cbn; (split; [lia|]); (split; [lia|intros Heq; assert (length (mKey l) = length (mKey r)) by (by rewrite Heq); lia]).
Qed.

Lemma compare_flip l r : compare_entries r l = - compare_entries l r.
Proof. unfold compare_entries. lia. Qed.

#[export] Instance compare_entries_comparison : Comparison compare_entries.
Proof.
  split; [intros x y; rewrite compare_flip; lia|]. intros x y z H1 H2.
  destruct (decide (compare_entries x z ≤ 0)) as [|Hgt]; [done|]. exfalso.
  assert (H3 : compare_entries z x < 0) by (rewrite compare_flip; lia).
  destruct (compare_entries_spec y x) as [[_ Hyx] _], (compare_entries_spec z y) as [[_ Hzy] _], (compare_entries_spec z x) as [[Hzx _] _].
  specialize (Hzx H3). rewrite (compare_flip x y) in Hyx. rewrite (compare_flip y z) in Hzy.
  assert (Hyx' : ¬ (getSize (mKey y) < getSize (mKey x) ∨ getSize (mKey y) = getSize (mKey x) ∧ memcmp (mKey y) (mKey x) < 0)) by (intros ?%Hyx; lia).
  assert (Hzy' : ¬ (getSize (mKey z) < getSize (mKey y) ∨ getSize (mKey z) = getSize (mKey y) ∧ memcmp (mKey z) (mKey y) < 0)) by (intros ?%Hzy; lia).
  unfold getSize in *.
  assert (E1 : length (mKey x) = length (mKey y)) by lia. assert (E2 : length (mKey y) = length (mKey z)) by lia.
  pose proof (memcmp_flip _ _ E1). pose proof (memcmp_flip _ _ E2). pose proof (memcmp_flip (mKey x) (mKey z) ltac:(congruence)).
  pose proof (memcmp_trans _ _ _ E1 E2). lia.
Qed.

Lemma compare_same l r : compare_entries l r = 0 ↔ mKey l = mKey r.
Proof. apply compare_entries_spec. Qed.

(** ** What a sorted vector promises *)

(** The vector stands for a list; [sv_fits] tells how long the list may become. *)
Class SortedVectorLaws {E : Type} `{SV : SortedVector E} (cmp : E → E → Z) : Type := {
  sv_rep : sv_state → list E → Prop;
  sv_fits : nat → Prop;
  size_law s xs : sv_rep s xs → sv_size s = Ok (Z.of_nat (length xs), s);
  item_law s xs i x : sv_rep s xs → xs !! i = Some x → sv_item (Z.of_nat i) s = Ok (x, s);
  indexOf_law s xs x : sv_rep s xs → strict cmp xs →
    (∃ i y, sv_indexOf x s = Ok (Z.of_nat i, s) ∧ xs !! i = Some y ∧ cmp y x = 0) ∨
    (∃ err, sv_indexOf x s = Ok (err, s) ∧ err < 0 ∧ ∀ y, y ∈ xs → cmp y x ≠ 0);
  add_law s xs x : sv_rep s xs → strict cmp xs → sv_fits (S (length xs)) →
    ∃ i s' ys, sv_add x s = Ok (i, s') ∧ sv_rep s' ys ∧ strict cmp ys ∧ ∀ y, y ∈ ys ↔ y = x ∨ y ∈ xs ∧ cmp y x ≠ 0;
  edit_law s xs i x f : sv_rep s xs → xs !! i = Some x →
    ∃ s', sv_editItem (Z.of_nat i) f s = Ok (tt, s') ∧ sv_rep s' (<[i := f x]> xs);
  remove_law s xs i : sv_rep s xs → (i < length xs)%nat →
    ∃ err s', sv_removeAt (Z.of_nat i) s = Ok (err, s') ∧ sv_rep s' (delete i xs);
  clear_law s xs : sv_rep s xs → ∃ s', sv_clear s = Ok (tt, s') ∧ sv_rep s' [] }.

(** ** The invariant *)

Definition entry_bytes e : Z := getSize (mKey e) + getSize (mValue e).
Fixpoint total es : Z := match es with [] => 0 | e :: es' => entry_bytes e + total es' end.

Lemma total_app es es' : total (es ++ es') = total es + total es'.
Proof. induction es as [|e es IH]; cbn; [done|]. lia. Qed.

Lemma total_ge0 es : 0 ≤ total es.
Proof. induction es as [|e es IH]; cbn; [done|]. unfold entry_bytes, getSize. lia. Qed.

Lemma total_perm es es' : es ≡ₚ es' → total es = total es'.
Proof. induction 1; cbn; lia. Qed.

Lemma total_split es i e : es !! i = Some e → total es = entry_bytes e + total (delete i es).
Proof. intros H. rewrite (total_perm _ _ (delete_Permutation _ _ _ H)). done. Qed.

Lemma total_replace es i e e' : es !! i = Some e → total (<[i := e']> es) = total es - entry_bytes e + entry_bytes e'.
Proof.
  intros (p & q & -> & ->)%list_elem_of_split_length. rewrite <- (Nat.add_0_r (length p)), insert_app_r, !total_app. cbn. lia.
Qed.

(** Every entry has bytes, so there are no more of them than bytes. *)
Lemma total_length es : (∀ e, e ∈ es → 0 < getSize (mKey e) ∧ 0 < getSize (mValue e)) → 2 * Z.of_nat (length es) ≤ total es.
Proof.
  induction es as [|e es IH]; intros H; cbn; [lia|]. destruct (H e) as [H1 H2]; [by left|].
  unfold entry_bytes. pose proof (IH ltac:(intros; apply H; by right)). lia.
Qed.
Section spec.
Context `{SVL : SortedVectorLaws entry compare_entries}.
Implicit Types (c : cache) (i : nat).

Definition same_limits c c' : Prop :=
  mMaxKeySize c' = mMaxKeySize c ∧ mMaxValueSize c' = mMaxValueSize c ∧ mMaxTotalSize c' = mMaxTotalSize c.

(** The limits of a cache, for sums that do not wrap around and a vector that holds the entries. *)
Record limits c : Prop := {
  l_key : 0 ≤ mMaxKeySize c;
  l_value : 0 ≤ mMaxValueSize c;
  l_total : 0 ≤ mMaxTotalSize c;
  l_sum : mMaxKeySize c + mMaxValueSize c + mMaxTotalSize c < 2 ^ 32;
  l_fits n : 2 * Z.of_nat n ≤ mMaxTotalSize c → sv_fits n }.

Definition sized c e : Prop := 0 < getSize (mKey e) ≤ mMaxKeySize c ∧ 0 < getSize (mValue e) ≤ mMaxValueSize c.

Record cache_ok c es : Prop := mk_cache_ok {
  c_limits : limits c;
  c_rep : sv_rep (mCacheEntries c) es;
  c_strict : strict compare_entries es;
  c_sized e : e ∈ es → sized c e;
  c_total : mTotalSize c = total es;
  c_max : total es ≤ mMaxTotalSize c }.

Lemma same_limits_refl c : same_limits c c.
Proof. done. Qed.

Lemma same_limits_trans c1 c2 c3 : same_limits c1 c2 → same_limits c2 c3 → same_limits c1 c3.
Proof. unfold same_limits. intros (-> & -> & ->) (-> & -> & ->). done. Qed.

Lemma limits_same c c' : same_limits c c' → limits c → limits c'.
Proof. intros (E1 & E2 & E3) [H1 H2 H3 H4 H5]. split; rewrite ?E1, ?E2, ?E3; [lia..|done]. Qed.

Lemma sized_same c c' e : same_limits c c' → sized c e → sized c' e.
Proof. unfold sized, same_limits. by intros (-> & -> & _). Qed.

(** Calls of the vector. *)
Lemma entries_eq {B} (p : ST sv_state B) c x s : p (mCacheEntries c) = Ok (x, s) → entries p c = Ok (x, c <| mCacheEntries := s |>).
Proof. intros E. unfold entries. by rewrite E. Qed.

Lemma entries_read {B} (p : ST sv_state B) c x : p (mCacheEntries c) = Ok (x, mCacheEntries c) → entries p c = Ok (x, c).
Proof. intros E. rewrite (entries_eq _ _ _ _ E). by destruct c. Qed.

(** Other entries, of the same vector. *)
Lemma cache_ok_change c es c' es' :
  cache_ok c es → same_limits c c' → sv_rep (mCacheEntries c') es' → strict compare_entries es' →
  (∀ e, e ∈ es' → sized c e) → mTotalSize c' = total es' → total es' ≤ mMaxTotalSize c → cache_ok c' es'.
Proof.
  intros Hok Hs Hr Ho Hz Ht Hm. split; [by eapply limits_same; [|apply Hok]|done|done| |done|].
  - intros e He. eapply sized_same; [done|by apply Hz].
  - by destruct Hs as (_ & _ & ->).
Qed.

Lemma strict_delete es i : (i < length es)%nat → strict compare_entries es → strict compare_entries (delete i es).
Proof.
  intros Hi H.
  destruct (lookup_lt_is_Some_2 _ _ Hi) as [e He]. apply list_elem_of_split_length in He as (p & q & -> & ->).
  rewrite delete_middle. apply strict_app in H as (H1 & [H2 _]%strict_cons & H12). apply strict_app. split_and!; [done..|].
  intros x y Hx Hy. apply H12; [done|by right].
Qed.

Lemma strict_NoDup es : strict compare_entries es → NoDup es.
Proof.
  induction 1 as [|e es Hs IH He]; [constructor|]. constructor; [|done]. intros Hin.
  eapply Forall_forall in He; [|exact Hin]. cbn in He. pose proof (compare_flip e e). lia.
Qed.

(** An entry per key. *)
Lemma strict_key es e e' : strict compare_entries es → e ∈ es → e' ∈ es → mKey e = mKey e' → e = e'.
Proof.
  intros Hs (i & Hi)%list_elem_of_lookup (j & Hj)%list_elem_of_lookup E. pose proof (compare_same e e') as Hc.
  destruct (lt_eq_lt_dec i j) as [[Hlt| ->]|Hlt]; [|congruence|].
  - pose proof (strict_lookup compare_entries es i j e e' Hs Hi Hj Hlt). apply Hc in E. lia.
  - pose proof (strict_lookup compare_entries es j i e' e Hs Hj Hi Hlt) as H. rewrite compare_flip in H. apply Hc in E. lia.
Qed.

(** ** [clean] *)

Lemma rand_index c n : 0 < n → ∃ y, blob_random c = Ok (y, c <| mRandState := next_rand (mRandState c) |>) ∧ 0 ≤ y `mod` n < n.
Proof. intros Hn. exists (next_rand (mRandState c) / 2 ^ 17). split; [reflexivity|]. by apply Z.mod_pos_bound. Qed.

Lemma clean_loop_ok fuel c es :
  cache_ok c es → (length es < fuel)%nat →
  ∃ c' es', clean_loop fuel c = Ok (tt, c') ∧ cache_ok c' es' ∧ same_limits c c' ∧ es' `sublist_of` es ∧
    total es' ≤ mMaxTotalSize c / 2.
Proof.
  revert c es. induction fuel as [|fuel IH]; intros c es Hok Hl; [lia|]. cbn [clean_loop].
  erewrite st_bind_eq by done. rewrite (c_total _ _ Hok). destruct (Z.gtb_spec (total es) (mMaxTotalSize c / 2)) as [Hgt|Hle].
  2: { exists c, es. split_and!; [done..|lia]. }
  assert (Hne : (0 < length es)%nat).
  { destruct es; [|simpl; lia]. cbn in Hgt. assert (0 ≤ mMaxTotalSize c / 2) by (apply Z.div_pos; [apply Hok|lia]). lia. }
  destruct (rand_index c (Z.of_nat (length es))) as (y & Ey & Hy); [lia|]. erewrite st_bind_eq by exact Ey.
  set (c1 := c <| mRandState := next_rand (mRandState c) |>). assert (Hr1 : sv_rep (mCacheEntries c1) es) by apply Hok.
  erewrite st_bind_eq by (apply entries_read, size_law, Hr1). rewrite (proj2 (Z.eqb_neq _ 0)) by lia.
  set (i := Z.to_nat (y `mod` Z.of_nat (length es))). cbn zeta.
  replace (y `mod` Z.of_nat (length es)) with (Z.of_nat i) by lia.
  destruct (lookup_lt_is_Some_2 es i) as [e He]; [lia|].
  erewrite st_bind_eq by (apply entries_read; by eapply item_law). erewrite st_bind_eq by done.
  set (c2 := c1 <| mTotalSize %= λ t, u32 (t - u32 (getSize (mKey e) + getSize (mValue e))) |>).
  destruct (remove_law (mCacheEntries c2) es i Hr1) as (err & s' & Er & Hr'); [lia|].
  erewrite st_bind_eq by (by apply entries_eq). set (c3 := c2 <| mCacheEntries := s' |>).
  pose proof (total_split _ _ _ He) as Hsplit. pose proof (total_ge0 (delete i es)).
  assert (Hok3 : cache_ok c3 (delete i es)).
  { eapply cache_ok_change; [exact Hok|done|exact Hr'|apply strict_delete; [lia|apply Hok]| | |].
    - intros e' He'. apply (c_sized _ _ Hok). by eapply list_elem_of_delete_inv.
    - destruct (c_limits _ _ Hok). pose proof (c_max _ _ Hok).
      destruct (c_sized _ _ Hok e ltac:(by eapply list_elem_of_lookup_2)) as [He1 He2].
      unfold c3, c2, c1. cbn. rewrite (c_total _ _ Hok). unfold entry_bytes in Hsplit.
      rewrite (u32_small (getSize (mKey e) + getSize (mValue e))), u32_small by lia. lia.
    - pose proof (c_max _ _ Hok). destruct (c_sized _ _ Hok e ltac:(by eapply list_elem_of_lookup_2)). unfold entry_bytes in Hsplit. lia. }
  destruct (IH c3 (delete i es) Hok3) as (c' & es' & E & Hok' & Hsl & Hsub & Hmax).
  { rewrite length_delete by (by eexists). lia. }
  exists c', es'. split_and!; [exact E|done|by eapply same_limits_trans; [|exact Hsl]| |exact Hmax].
  etrans; [exact Hsub|]. apply sublist_delete.
Qed.

Lemma clean_ok c es :
  cache_ok c es →
  ∃ c' es', clean c = Ok (tt, c') ∧ cache_ok c' es' ∧ same_limits c c' ∧ es' `sublist_of` es ∧ total es' ≤ mMaxTotalSize c / 2.
Proof.
  intros Hok. unfold clean. erewrite st_bind_eq by (apply entries_read, size_law, Hok). rewrite Nat2Z.id.
  apply clean_loop_ok; [done|lia].
Qed.
(** ** [set] *)

(** Keys and values the limits admit. *)
Definition fitting c k v : Prop :=
  0 < getSize k ≤ mMaxKeySize c ∧ 0 < getSize v ≤ mMaxValueSize c ∧ getSize k + getSize v ≤ mMaxTotalSize c.

(** The bytes of the entries once key [k] has value [v]: an older value gives way. *)
Definition others k es : list entry := filter (λ e, mKey e ≠ k) es.
Definition needed k v es : Z := total (others k es) + getSize k + getSize v.

(** What is left when room was made: everything, if [v] fits or there is nothing to
    clean; otherwise some entries, of at most half of what there may be. *)
Definition evicted c k v es es1 : Prop :=
  if bool_decide (mMaxTotalSize c < needed k v es ∧ mMaxTotalSize c / 2 < total es)
  then es1 `sublist_of` es ∧ total es1 ≤ mMaxTotalSize c / 2
  else es1 = es.

(** The entries after [set]. *)
Inductive set_result c k v es : list entry → Prop :=
| set_rejected : ¬ fitting c k v → set_result c k v es es
| set_stored es1 es' : fitting c k v → evicted c k v es es1 → needed k v es1 ≤ mMaxTotalSize c →
    (∀ e, e ∈ es' ↔ e = mk_entry k v ∨ e ∈ es1 ∧ mKey e ≠ k) → set_result c k v es es'
| set_no_room es1 : fitting c k v → evicted c k v es es1 → mMaxTotalSize c < needed k v es1 →
    set_result c k v es es1.

Lemma others_all k es : (∀ e, e ∈ es → mKey e ≠ k) → others k es = es.
Proof.
  unfold others. induction es as [|e es IH]; intros H; [done|]. rewrite filter_cons_True by (apply H; by left).
  f_equal. apply IH. intros e' He'. apply H. by right.
Qed.

Lemma others_delete es i old : strict compare_entries es → es !! i = Some old → others (mKey old) es = delete i es.
Proof.
  intros Hs Hi. pose proof (strict_NoDup _ Hs) as Hnd.
  assert (Hin : ∀ e, e ∈ es → mKey e = mKey old → e = old) by (intros e He; apply (strict_key es); [done|done|by eapply list_elem_of_lookup_2]).
  clear Hs. apply list_elem_of_split_length in Hi as (p & q & -> & ->). rewrite delete_middle.
  apply NoDup_app in Hnd as (_ & Hp & [Hq _]%NoDup_cons). unfold others. rewrite filter_app, filter_cons_False by tauto.
  f_equal; apply others_all; intros e He Hk.
  - apply (Hp e He). rewrite (Hin e); [by left|apply elem_of_app; by left|done].
  - apply Hq. rewrite <- (Hin e); [done|apply elem_of_app; right; by right|done].
Qed.

Lemma needed_new k v es : (∀ e, e ∈ es → mKey e ≠ k) → needed k v es = total es + getSize k + getSize v.
Proof. intros H. unfold needed. by rewrite others_all. Qed.

Lemma needed_old v es i old :
  strict compare_entries es → es !! i = Some old → needed (mKey old) v es = total es + getSize v - getSize (mValue old).
Proof.
  intros Hs Hi. unfold needed. rewrite (others_delete _ _ _ Hs Hi), (total_split _ _ _ Hi). unfold entry_bytes. lia.
Qed.

Lemma needed_le k v es : needed k v es ≤ total es + getSize k + getSize v.
Proof.
  unfold needed, others. assert (total (filter (λ e, mKey e ≠ k) es) ≤ total es); [|lia].
  induction es as [|e es IH]; [done|]. rewrite filter_cons. cbn. assert (0 ≤ entry_bytes e) by (unfold entry_bytes, getSize; lia).
  case_decide; cbn; lia.
Qed.

(** Half of the cache is enough for a small pair. *)
Lemma set_result_small c k v es es' :
  set_result c k v es es' → fitting c k v → getSize k + getSize v ≤ mMaxTotalSize c - mMaxTotalSize c / 2 → mk_entry k v ∈ es'.
Proof.
  intros [Hno|es1 ? _ _ _ Hin|es1 _ Hev Hbig] Hfit Hsm; [done|apply Hin; by left|]. exfalso.
  pose proof (needed_le k v es1). unfold evicted in Hev. case_bool_decide as Hd; [destruct Hev; lia|]. subst es1.
  destruct (Z.le_gt_cases (total es) (mMaxTotalSize c / 2)); [lia|]. apply Hd. lia.
Qed.

Lemma set_new c es k v :
  cache_ok c es → sized c (mk_entry k v) → (∀ e, e ∈ es → mKey e ≠ k) → total es + getSize k + getSize v ≤ mMaxTotalSize c →
  ∃ c' es', (entries (sv_add (mk_entry k v)) ;; modify (λ c, c <| mTotalSize := total es + getSize k + getSize v |>)) c = Ok (tt, c') ∧
    cache_ok c' es' ∧ same_limits c c' ∧ ∀ e, e ∈ es' ↔ e = mk_entry k v ∨ e ∈ es ∧ mKey e ≠ k.
Proof.
  intros Hok Hz Hk Hm. pose proof (c_strict _ _ Hok) as Hs.
  assert (Hlen : 2 * Z.of_nat (length es) ≤ total es).
  { apply total_length. intros e He. destruct (c_sized _ _ Hok e He). lia. }
  destruct (add_law (mCacheEntries c) es (mk_entry k v) (c_rep _ _ Hok) Hs) as (i & s' & es' & E & Hr & Hs' & Hin).
  { apply (l_fits _ (c_limits _ _ Hok)). unfold sized in Hz. cbn in Hz. lia. }
  assert (Hin' : ∀ e, e ∈ es' ↔ e = mk_entry k v ∨ e ∈ es ∧ mKey e ≠ k).
  { intros e. rewrite Hin. by rewrite compare_same. }
  assert (Hp : es' ≡ₚ mk_entry k v :: es).
  { apply NoDup_Permutation; [by apply strict_NoDup| |].
    - constructor; [intros He; by apply (Hk _ He)|by apply strict_NoDup].
    - intros e. rewrite Hin', elem_of_cons. specialize (Hk e). tauto. }
  eexists _, es'. split_and!; [by erewrite st_bind_eq by (by apply entries_eq)| |done|exact Hin'].
  pose proof (total_perm _ _ Hp) as Ht. cbn [total] in Ht. unfold entry_bytes in Ht at 1. cbn [mKey mValue] in Ht.
  eapply cache_ok_change; [exact Hok|done|exact Hr|exact Hs'| | |].
  - intros e [->|[He _]]%Hin'; [done|by apply (c_sized _ _ Hok)].
  - cbn. lia.
  - lia.
Qed.

Lemma set_old c es k v i old :
  cache_ok c es → sized c (mk_entry k v) → es !! i = Some old → mKey old = k →
  total es + getSize v - getSize (mValue old) ≤ mMaxTotalSize c →
  ∃ c' es', (entries (sv_editItem (Z.of_nat i) (λ e, e <| mValue := v |>)) ;;
      modify (λ c, c <| mTotalSize := total es + getSize v - getSize (mValue old) |>)) c = Ok (tt, c') ∧
    cache_ok c' es' ∧ same_limits c c' ∧ ∀ e, e ∈ es' ↔ e = mk_entry k v ∨ e ∈ es ∧ mKey e ≠ k.
Proof.
  intros Hok Hz Hi Hk Hm. pose proof (c_strict _ _ Hok) as Hs.
  destruct (edit_law (mCacheEntries c) es i old (λ e, e <| mValue := v |>) (c_rep _ _ Hok) Hi) as (s' & E & Hr).
  replace (old <| mValue := v |>) with (mk_entry k v) in Hr by (by rewrite <- Hk).
  pose proof (total_replace es i old (mk_entry k v) Hi) as Ht. unfold entry_bytes in Ht. cbn [mKey mValue] in Ht. rewrite Hk in Ht.
  assert (Hin : ∀ e, e ∈ <[i := mk_entry k v]> es ↔ e = mk_entry k v ∨ e ∈ es ∧ mKey e ≠ k).
  { intros e. split.
    - intros (j & Hj)%list_elem_of_lookup. destruct (decide (i = j)) as [<-|Hne].
      + rewrite list_lookup_insert_eq in Hj by (by eapply lookup_lt_Some). left. congruence.
      + rewrite list_lookup_insert_ne in Hj by done. right. split; [by eapply list_elem_of_lookup_2|]. intros He.
        assert (e = old) as ->; [|pose proof (strict_NoDup _ Hs) as Hnd; by apply (Hne (NoDup_lookup _ _ _ _ Hnd Hi Hj))].
        apply (strict_key es); [done|by eapply list_elem_of_lookup_2|by eapply list_elem_of_lookup_2|congruence].
    - intros [->|[(j & Hj)%list_elem_of_lookup He]]; apply list_elem_of_lookup.
      + exists i. apply list_lookup_insert_eq. by eapply lookup_lt_Some.
      + exists j. rewrite list_lookup_insert_ne; [done|]. intros ->. congruence. }
  assert (Hs' : strict compare_entries (<[i := mk_entry k v]> es)).
  { clear Hin Ht. apply list_elem_of_split_length in Hi as (p & q & -> & ->).
    rewrite <- (Nat.add_0_r (length p)), insert_app_r. cbn.
    apply (strict_replace compare_entries p old q); [done|by apply compare_same]. }
  eexists _, _. split_and!; [by erewrite st_bind_eq by (by apply entries_eq)| |done|exact Hin].
  eapply cache_ok_change; [exact Hok|done|exact Hr|exact Hs'| | |].
  - intros e [->|[He _]]%Hin; [done|by apply (c_sized _ _ Hok)].
  - cbn. lia.
  - lia.
Qed.

Lemma fitting_sized c k v : fitting c k v → sized c (mk_entry k v).
Proof. intros (H1 & H2 & _). by split. Qed.

(** No room: [clean] when it would find something. *)
Lemma no_room fuel c es k v :
  cache_ok c es →
  (total es ≤ mMaxTotalSize c / 2 ∧
    (cleanable ← isCleanable; if cleanable : bool then clean ;; set_loop fuel k v else mret tt) c = Ok (tt, c)) ∨
  (mMaxTotalSize c / 2 < total es ∧
    (cleanable ← isCleanable; if cleanable : bool then clean ;; set_loop fuel k v else mret tt) c = (clean ;; set_loop fuel k v) c).
Proof.
  intros Hok. unfold isCleanable. destruct (Z.gtb_spec (mTotalSize c) (mMaxTotalSize c / 2)) as [Hgt|Hle];
    rewrite (c_total _ _ Hok) in *; [right|left]; (split; [lia|]); erewrite st_bind_eq by done; rewrite (c_total _ _ Hok).
  - by rewrite (proj2 (Z.gtb_lt _ _)) by lia.
  - by destruct (Z.gtb_spec (total es) (mMaxTotalSize c / 2)); [lia|].
Qed.

Lemma set_step fuel c es k v :
  cache_ok c es → fitting c k v →
  (∃ c' es', set_loop (S fuel) k v c = Ok (tt, c') ∧ cache_ok c' es' ∧ same_limits c c' ∧
    (needed k v es ≤ mMaxTotalSize c ∧ (∀ e, e ∈ es' ↔ e = mk_entry k v ∨ e ∈ es ∧ mKey e ≠ k) ∨
     es' = es ∧ total es ≤ mMaxTotalSize c / 2 ∧ mMaxTotalSize c < needed k v es)) ∨
  (mMaxTotalSize c < needed k v es ∧ mMaxTotalSize c / 2 < total es ∧
    set_loop (S fuel) k v c = (clean ;; set_loop fuel k v) c).
Proof.
  intros Hok Hfit. pose proof (fitting_sized _ _ _ Hfit) as Hz. destruct Hfit as (Hk & Hv & Hkv).
  destruct (c_limits _ _ Hok) as [L1 L2 L3 L4 _]. pose proof (c_max _ _ Hok) as Hmax. pose proof (total_ge0 es).
  cbn [set_loop]. destruct (indexOf_law (mCacheEntries c) es (mk_entry k []) (c_rep _ _ Hok) (c_strict _ _ Hok))
    as [(i & old & E & Hi & Hcmp)|(err & E & Herr & Hcmp)].
  - apply compare_same in Hcmp. cbn in Hcmp. assert (Hin : old ∈ es) by (by eapply list_elem_of_lookup_2).
    erewrite st_bind_eq by (by apply entries_read). rewrite (proj2 (Z.ltb_ge (Z.of_nat i) 0)) by lia.
    erewrite st_bind_eq by (apply entries_read; by eapply item_law, Hi; apply Hok).
    erewrite st_bind_eq by done. erewrite st_bind_eq by done. rewrite (c_total _ _ Hok).
    destruct (c_sized _ _ Hok old Hin) as [Hok1 Hok2].
    assert (Hle : entry_bytes old ≤ total es).
    { rewrite (total_split _ _ _ Hi). pose proof (total_ge0 (delete i es)). lia. }
    pose proof (needed_old v es i old (c_strict _ _ Hok) Hi) as Hn. rewrite Hcmp in Hn.
    unfold entry_bytes in Hle. rewrite (u32_small (total es + getSize v)), u32_small by lia.
    destruct (Z.ltb_spec (mMaxTotalSize c) (total es + getSize v - getSize (mValue old))) as [Hlt|Hge].
    + destruct (no_room fuel c es k v Hok) as [[Hr ->]|[Hr ->]]; [|right; split_and!; [lia|done..]].
      left. exists c, es. split_and!; [done..|]. right. split_and!; [done..|lia].
    + left. destruct (set_old c es k v i old Hok Hz Hi Hcmp Hge) as (c' & es' & E' & Hok' & Hs & Hin').
      exists c', es'. split_and!; [done..|]. left. split; [lia|done].
  - assert (Hno : ∀ e, e ∈ es → mKey e ≠ k) by (intros e He Hke; apply (Hcmp e He); by apply compare_same).
    pose proof (needed_new k v es Hno) as Hn.
    erewrite st_bind_eq by (by apply entries_read). rewrite (proj2 (Z.ltb_lt err 0)) by lia.
    erewrite st_bind_eq by done. erewrite st_bind_eq by done. rewrite (c_total _ _ Hok).
    rewrite (u32_small (total es + getSize k)), u32_small by lia.
    destruct (Z.ltb_spec (mMaxTotalSize c) (total es + getSize k + getSize v)) as [Hlt|Hge].
    + destruct (no_room fuel c es k v Hok) as [[Hr ->]|[Hr ->]]; [|right; split_and!; [lia|done..]].
      left. exists c, es. split_and!; [done..|]. right. split_and!; [done..|lia].
    + left. destruct (set_new c es k v Hok Hz) as (c' & es' & E' & Hok' & Hs & Hin'); [done..|].
      exists c', es'. split_and!; [done..|]. left. split; [lia|done].
Qed.

Lemma set_loop_ok c es k v :
  cache_ok c es → fitting c k v →
  ∃ c' es', set_loop 2 k v c = Ok (tt, c') ∧ cache_ok c' es' ∧ same_limits c c' ∧ set_result c k v es es'.
Proof.
  intros Hok Hfit. destruct (set_step 1 c es k v Hok Hfit) as [(c' & es' & E & Hok' & Hs & Hres)|(Hneed & Hbig & ->)].
  - exists c', es'. split_and!; [done..|].
    assert (Hev : needed k v es ≤ mMaxTotalSize c ∨ total es ≤ mMaxTotalSize c / 2 → evicted c k v es es).
    { intros Hor. unfold evicted. rewrite bool_decide_false; [done|]. lia. }
    destruct Hres as [[Hle Hin]|(-> & H1 & H2)].
    + apply (set_stored _ _ _ _ es); auto.
    + apply set_no_room; auto.
  - destruct (clean_ok c es Hok) as (c1 & es1 & E1 & Hok1 & Hs1 & Hsub & Hm1). erewrite st_bind_eq by exact E1.
    assert (Hmax1 : mMaxTotalSize c1 = mMaxTotalSize c) by apply Hs1.
    assert (Hfit1 : fitting c1 k v) by (unfold fitting; destruct Hs1 as (-> & -> & ->); exact Hfit).
    assert (Hev : evicted c k v es es1) by (unfold evicted; by rewrite bool_decide_true).
    destruct (set_step 0 c1 es1 k v Hok1 Hfit1) as [(c' & es' & E & Hok' & Hs & Hres)|(_ & Hbig1 & _)]; [|rewrite Hmax1 in Hbig1; lia].
    exists c', es'. split_and!; [done..|by eapply same_limits_trans|]. rewrite Hmax1 in Hres. destruct Hres as [[Hle Hin]|(-> & H1 & H2)].
    + by apply (set_stored _ _ _ _ es1).
    + by apply set_no_room.
Qed.

(** The bytes at a pointer are there. *)
Definition bytes_at (p : list Z) (n : Z) : Prop := 0 ≤ n ≤ Z.of_nat (length p).

Lemma mem_read_eq p n c : bytes_at p n → mem_read p n c = Ok (take (Z.to_nat n) p, c).
Proof. intros H. unfold mem_read. by rewrite (proj2 (Z.leb_le _ _)) by apply H. Qed.

Lemma getSize_take p n : bytes_at p n → getSize (take (Z.to_nat n) p) = n.
Proof. intros [H1 H2]. unfold getSize. rewrite length_take. lia. Qed.

Lemma take_getSize (p : blob) : take (Z.to_nat (getSize p)) p = p.
Proof. unfold getSize. by rewrite Nat2Z.id, firstn_all. Qed.

Lemma set_ok c es key keySize value valueSize :
  cache_ok c es → 0 ≤ keySize → 0 ≤ valueSize →
  (keySize ≤ mMaxKeySize c → valueSize ≤ mMaxValueSize c → bytes_at key keySize ∧ bytes_at value valueSize) →
  ∃ c' es', set key keySize value valueSize c = Ok (tt, c') ∧ cache_ok c' es' ∧ same_limits c c' ∧
    (es' = es ∨ set_result c (take (Z.to_nat keySize) key) (take (Z.to_nat valueSize) value) es es') ∧
    (bytes_at key keySize → bytes_at value valueSize → set_result c (take (Z.to_nat keySize) key) (take (Z.to_nat valueSize) value) es es').
Proof.
  intros Hok Hk0 Hv0 Hmem. unfold set. erewrite st_bind_eq by done. cbn [id].
  assert (Hrej : (mMaxKeySize c < keySize ∨ mMaxValueSize c < valueSize ∨ mMaxTotalSize c < keySize + valueSize ∨ keySize = 0 ∨ valueSize = 0) →
    ∃ c' es', (mret tt : ST cache unit) c = Ok (tt, c') ∧ cache_ok c' es' ∧ same_limits c c' ∧
    (es' = es ∨ set_result c (take (Z.to_nat keySize) key) (take (Z.to_nat valueSize) value) es es') ∧
    (bytes_at key keySize → bytes_at value valueSize → set_result c (take (Z.to_nat keySize) key) (take (Z.to_nat valueSize) value) es es')).
  { intros H. exists c, es. split_and!; [done..|by left|]. intros H1 H2. apply set_rejected. unfold fitting.
    rewrite (getSize_take key), (getSize_take value) by done. lia. }
  destruct (Z.ltb_spec (mMaxKeySize c) keySize); [apply Hrej; lia|].
  destruct (Z.ltb_spec (mMaxValueSize c) valueSize); [apply Hrej; lia|].
  destruct (c_limits _ _ Hok) as [L1 L2 L3 L4 _]. rewrite u32_small by lia.
  destruct (Z.ltb_spec (mMaxTotalSize c) (keySize + valueSize)); [apply Hrej; lia|].
  destruct (Z.eqb_spec keySize 0); [apply Hrej; lia|]. destruct (Z.leb_spec valueSize 0); [apply Hrej; lia|].
  destruct Hmem as [Hmk Hmv]; [lia..|].
  erewrite st_bind_eq by (by apply mem_read_eq). erewrite st_bind_eq by (by apply mem_read_eq).
  destruct (set_loop_ok c es (take (Z.to_nat keySize) key) (take (Z.to_nat valueSize) value) Hok) as (c' & es' & E & Hok' & Hs & Hres).
  { unfold fitting. rewrite (getSize_take key), (getSize_take value) by done. lia. }
  exists c', es'. split_and!; [done..|by right|done].
Qed.


(** ** [get] *)

(** C40: [get] returns what is in the cache.  When the cache has an entry with the key
    its size is the result, and its bytes are in front of the buffer if the caller
    says the buffer is large enough, as it must be; otherwise the result is 0; the
    rest of the buffer and the cache stay as they were. *)
Theorem blob_get_correct c es key buffer size :
  cache_ok c es → size ≤ Z.of_nat (length buffer) →
  (∃ v, mk_entry key v ∈ es ∧ get key (getSize key) buffer size c =
      Ok ((getSize v, if getSize v <=? size then v ++ drop (length v) buffer else buffer), c)) ∨
  ((∀ e, e ∈ es → mKey e ≠ key) ∧ get key (getSize key) buffer size c = Ok ((0, buffer), c)).
Proof.
  intros Hok Hsize. unfold get. erewrite st_bind_eq by done. cbn [id].
  destruct (Z.ltb_spec (mMaxKeySize c) (getSize key)) as [Hlt|Hge].
  { right. split; [|done]. intros e He <-. destruct (c_sized _ _ Hok e He). lia. }
  erewrite st_bind_eq by (apply mem_read_eq; unfold bytes_at, getSize; lia). rewrite take_getSize.
  destruct (indexOf_law (mCacheEntries c) es (mk_entry key []) (c_rep _ _ Hok) (c_strict _ _ Hok))
    as [(i & e & E & Hi & Hcmp)|(err & E & Herr & Hcmp)].
  - apply compare_same in Hcmp. cbn in Hcmp. left. exists (mValue e). split.
    { replace (mk_entry key (mValue e)) with e by (rewrite <- Hcmp; by destruct e). by eapply list_elem_of_lookup_2. }
    erewrite st_bind_eq by (by apply entries_read). rewrite (proj2 (Z.ltb_ge (Z.of_nat i) 0)) by lia.
    erewrite st_bind_eq by (apply entries_read; by eapply item_law, Hi; apply Hok).
    cbn zeta. destruct (Z.leb_spec (getSize (mValue e)) size); [|done].
    rewrite (proj2 (Z.leb_le _ _)) by lia. done.
  - right. split; [intros e He Hk; apply (Hcmp e He); by apply compare_same|].
    erewrite st_bind_eq by (by apply entries_read). by rewrite (proj2 (Z.ltb_lt err 0)) by lia.
Qed.
End spec.
End CacheSpec.
