(* ===== verification/BlobCacheRead.v ===== *)
(** The cache in a buffer: [flatten] writes the entries behind a header; [unflatten]
    reads back what was written, and any other bytes without leaving the buffer. *)
From S2P Require Import Prelude VectorSort VectorSorted BlobCache BlobCacheSpec.
Import Cache CacheSpec.

Module CacheFlat.

Implicit Types (k v : blob) (e : entry) (es : list entry) (buf : list Z) (o : Z).

(** ** Bytes of a buffer *)

Lemma slice_take a len n buf : (a + len ≤ n)%nat → slice a len (take n buf) = slice a len buf.
Proof.
  intros H. unfold slice. rewrite skipn_firstn_comm, take_take. f_equal. lia.
Qed.

Lemma slice_same a len n buf buf' : (a + len ≤ n)%nat → take n buf' = take n buf → slice a len buf' = slice a len buf.
Proof. intros H E. rewrite <- (slice_take a len n buf'), E by done. by apply slice_take. Qed.

Lemma take_splice n off bs buf : (n ≤ off)%nat → (off ≤ length buf)%nat → take n (splice off bs buf) = take n buf.
Proof. intros H1 H2. unfold splice. rewrite take_app_le by (rewrite length_take; lia). rewrite take_take. f_equal. lia. Qed.

Lemma take_same n n' buf buf' : (n ≤ n')%nat → take n' buf' = take n' buf → take n buf' = take n buf.
Proof. intros H E. rewrite <- (Nat.min_l n n'), <- !take_take, E by done. done. Qed.

(** A write: the bytes are there, those in front are as they were. *)
Definition written (off : Z) (bs : list Z) buf buf' : Prop :=
  length buf' = length buf ∧ slice (Z.to_nat off) (length bs) buf' = bs ∧
  ∀ n, Z.of_nat n ≤ off → take n buf' = take n buf.

Section flat.
Context `{SVL : SortedVectorLaws entry compare_entries}.
Implicit Types (c : cache).

Lemma mem_write_eq off bs buf c :
  0 ≤ off → off + Z.of_nat (length bs) ≤ Z.of_nat (length buf) →
  ∃ buf', mem_write off bs buf c = Ok (buf', c) ∧ written off bs buf buf'.
Proof.
  intros H1 H2. unfold mem_write. rewrite (proj2 (Z.leb_le 0 off)), (proj2 (Z.leb_le _ _)) by done. cbn [andb].
  eexists. split; [done|]. split_and!; [apply length_splice; lia|apply slice_splice; lia|].
  intros n Hn. apply take_splice; lia.
Qed.

Lemma mem_word_eq off buf c : 0 ≤ off → off + 4 ≤ Z.of_nat (length buf) → mem_word off buf c = Ok (get32 (Z.to_nat off) buf, c).
Proof. intros H1 H2. unfold mem_word. by rewrite (proj2 (Z.leb_le 0 off)), (proj2 (Z.leb_le _ _)) by done. Qed.

Lemma get32_of off buf x : slice off 4 buf = le_bytes 4 x → 0 ≤ x < 2 ^ 32 → get32 off buf = x.
Proof. intros E Hx. unfold get32. rewrite E. by apply le_value_bytes. Qed.

(** ** The layout *)

Definition entry_space e : Z := 8 + getSize (mKey e) + getSize (mValue e).
Definition padded e : Z := ALIGN (entry_space e) 4.

(** The size of what is written for entries, behind [size] bytes. *)
Fixpoint flat_size (size : Z) es : Z :=
  match es with [] => size | e :: es' => flat_size (ALIGN size 4 + entry_space e) es' end.

(** The entries in the buffer, from an offset on. *)
Fixpoint encoded (o : Z) es buf : Prop :=
  match es with
  | [] => True
  | e :: es' =>
      slice (Z.to_nat o) 4 buf = le_bytes 4 (getSize (mKey e)) ∧
      slice (Z.to_nat (o + 4)) 4 buf = le_bytes 4 (getSize (mValue e)) ∧
      slice (Z.to_nat (o + 8)) (length (mKey e)) buf = mKey e ∧
      slice (Z.to_nat (o + 8 + getSize (mKey e))) (length (mValue e)) buf = mValue e ∧
      encoded (o + padded e) es' buf
  end.

Lemma entry_space_pos e : 8 ≤ entry_space e.
Proof. unfold entry_space, getSize. lia. Qed.

Lemma align_ge x : x ≤ ALIGN x 4.
Proof. rewrite ALIGN4_div. Z.to_euclidean_division_equations. lia. Qed.

Lemma align_aligned x y : x `mod` 4 = 0 → ALIGN (x + y) 4 = x + ALIGN y 4.
Proof. rewrite !ALIGN4_div. intros. Z.to_euclidean_division_equations. lia. Qed.

Lemma padded_mod e : padded e `mod` 4 = 0.
Proof. unfold padded. rewrite ALIGN4_div, Z.mul_comm. by apply Z.mod_mul. Qed.

Lemma flat_size_ge size es : size ≤ flat_size size es.
Proof.
  revert size. induction es as [|e es IH]; intros size; cbn; [lia|].
  specialize (IH (ALIGN size 4 + entry_space e)). pose proof (align_ge size). pose proof (entry_space_pos e). lia.
Qed.

(** Where the next entry begins. *)
Lemma flat_size_next o e es n :
  o `mod` 4 = 0 → flat_size o (e :: es) ≤ n →
  o + entry_space e ≤ n ∧ (o + padded e) `mod` 4 = 0 ∧ (es = [] ∨ flat_size (o + padded e) es ≤ n).
Proof.
  intros Ho H. cbn in H. replace (ALIGN o 4) with o in H.
  2: { pose proof (align_aligned o 0 Ho) as E. rewrite Z.add_0_r in E. rewrite E. change (ALIGN 0 4) with 0. lia. }
  pose proof (flat_size_ge (o + entry_space e) es). split_and!; [lia| |].
  - pose proof (padded_mod e). Z.to_euclidean_division_equations. lia.
  - destruct es as [|e' es]; [by left|right]. cbn in H |- *.
    rewrite align_aligned in H by done. fold (padded e) in H.
    replace (ALIGN (o + padded e) 4) with (o + padded e); [done|].
    rewrite ALIGN4_div. pose proof (padded_mod e). Z.to_euclidean_division_equations. lia.
Qed.

Lemma entry_size_eq e : entry_space e < 2 ^ 32 → entry_size (getSize (mKey e)) (getSize (mValue e)) = entry_space e.
Proof. intros H. unfold entry_size, entry_space, sizeof_EntryHeader, getSize in *. rewrite (u32_small (8 + _)), u32_small by lia. done. Qed.

Lemma padded_range e : entry_space e ≤ padded e < entry_space e + 4.
Proof. unfold padded. rewrite ALIGN4_div. Z.to_euclidean_division_equations. lia. Qed.

(** ** [flatten] *)

(** What is in front of an offset does not matter to what is behind it. *)
Lemma flatten_loop_ok es1 es c o size buf :
  cache_ok c (es1 ++ es) → 0 ≤ o → o `mod` 4 = 0 → (es = [] ∨ flat_size o es ≤ size) → size = Z.of_nat (length buf) → size < 2 ^ 31 - 4 →
  ∃ buf', flatten_loop (length es) (Z.of_nat (length es1)) size o buf c = Ok ((OK, buf'), c) ∧
    length buf' = length buf ∧ (∀ n, Z.of_nat n ≤ o → take n buf' = take n buf) ∧ encoded o es buf'.
Proof.
  revert es1 o buf. induction es as [|e es IH]; intros es1 o buf Hok H0 Ho Hsz -> Hlt; [by exists buf|].
  destruct Hsz as [?|Hsz]; [done|]. destruct (flat_size_next _ _ _ _ Ho Hsz) as (Hfit & Ho' & Hsz').
  pose proof (entry_space_pos e). pose proof (padded_range e) as Hpad. cbn [length flatten_loop].
  erewrite st_bind_eq by (apply entries_read; eapply item_law; [apply Hok|by apply list_lookup_middle]).
  rewrite entry_size_eq by lia. cbn zeta. rewrite u32_small by lia.
  destruct (Z.gtb_spec (o + entry_space e) (Z.of_nat (length buf))); [lia|].
  unfold entry_space in Hfit.
  destruct (mem_write_eq o (le_bytes 4 (getSize (mKey e))) buf c) as (b1 & E1 & L1 & W1 & P1); [lia|rewrite length_le_bytes; unfold getSize in *; lia|].
  destruct (mem_write_eq (o + 4) (le_bytes 4 (getSize (mValue e))) b1 c) as (b2 & E2 & L2 & W2 & P2); [lia|rewrite length_le_bytes; unfold getSize in *; lia|].
  destruct (mem_write_eq (o + 8) (mKey e) b2 c) as (b3 & E3 & L3 & W3 & P3); [lia|unfold getSize in *; lia|].
  destruct (mem_write_eq (o + 8 + getSize (mKey e)) (mValue e) b3 c) as (b4 & E4 & L4 & W4 & P4); [unfold getSize in *; lia|unfold getSize in *; lia|].
  erewrite st_bind_eq by exact E1. erewrite st_bind_eq by exact E2. erewrite st_bind_eq by exact E3. erewrite st_bind_eq by exact E4.
  assert (Hnext : s32 (o + align4 (entry_space e)) = o + padded e).
  { unfold align4. fold (padded e). unfold s32. rewrite u32_small by lia. rewrite Z.mod_small by lia. lia. }
  rewrite Hnext. rewrite cons_middle, app_assoc in Hok. pose proof Hok as Hok2.
  destruct (IH (es1 ++ [e]) (o + padded e) b4 Hok2) as (b5 & E5 & L5 & P5 & W5); [lia|done| |lia|lia|].
  { destruct Hsz'; [by left|right; lia]. }
  exists b5. rewrite length_app in E5. cbn [length] in E5. rewrite Nat2Z.inj_add in E5. split_and!.
  - exact E5.
  - congruence.
  - intros n Hn. rewrite P5, P4, P3, P2, P1 by (unfold getSize in *; lia). done.
  - rewrite length_le_bytes in W1, W2. cbn [encoded].
    assert (Hk : Z.of_nat (length (mKey e)) = getSize (mKey e)) by done. assert (Hv : Z.of_nat (length (mValue e)) = getSize (mValue e)) by done.
    unfold entry_space in Hpad. split_and!; [| | | |exact W5].
    + etrans; [|exact W1]. apply (slice_same _ _ (Z.to_nat (o + 4))); [lia|]. rewrite P5, P4, P3, P2 by lia. done.
    + etrans; [|exact W2]. apply (slice_same _ _ (Z.to_nat (o + 8))); [lia|]. rewrite P5, P4, P3 by lia. done.
    + etrans; [|exact W3]. apply (slice_same _ _ (Z.to_nat (o + 8 + getSize (mKey e)))); [lia|]. rewrite P5, P4 by lia. done.
    + etrans; [|exact W4]. apply (slice_same _ _ (Z.to_nat (o + padded e))); [lia|]. rewrite P5 by lia. done.
Qed.

Definition has_header (n : Z) buf : Prop :=
  slice 0 4 buf = le_bytes 4 blobCacheMagic ∧ slice 4 4 buf = le_bytes 4 blobCacheVersion ∧
  slice 8 4 buf = le_bytes 4 blobCacheDeviceVersion ∧ slice 12 4 buf = le_bytes 4 n.

Lemma header_loop c n buf :
  16 ≤ Z.of_nat (length buf) →
  ∃ buf', (∀ f : list Z → ST cache (Z * list Z),
      (buf ← mem_write 0 (le_bytes 4 blobCacheMagic) buf;
       buf ← mem_write 4 (le_bytes 4 blobCacheVersion) buf;
       buf ← mem_write 8 (le_bytes 4 blobCacheDeviceVersion) buf;
       buf ← mem_write 12 (le_bytes 4 n) buf; f buf) c = f buf' c) ∧ length buf' = length buf ∧ has_header n buf'.
Proof.
  intros Hl.
  destruct (mem_write_eq 0 (le_bytes 4 blobCacheMagic) buf c) as (b1 & E1 & L1 & W1 & P1); [lia|rewrite length_le_bytes; lia|].
  destruct (mem_write_eq 4 (le_bytes 4 blobCacheVersion) b1 c) as (b2 & E2 & L2 & W2 & P2); [lia|rewrite length_le_bytes; lia|].
  destruct (mem_write_eq 8 (le_bytes 4 blobCacheDeviceVersion) b2 c) as (b3 & E3 & L3 & W3 & P3); [lia|rewrite length_le_bytes; lia|].
  destruct (mem_write_eq 12 (le_bytes 4 n) b3 c) as (b4 & E4 & L4 & W4 & P4); [lia|rewrite length_le_bytes; lia|].
  exists b4. split_and!; [|congruence|].
  - intros f. by rewrite (st_bind_eq _ _ _ _ _ E1), (st_bind_eq _ _ _ _ _ E2), (st_bind_eq _ _ _ _ _ E3), (st_bind_eq _ _ _ _ _ E4).
  - rewrite length_le_bytes in W1, W2, W3, W4. split_and!; [| | |exact W4].
    + etrans; [|exact W1]. apply (slice_same _ _ 4); [lia|]. rewrite P4, P3, P2 by lia. done.
    + etrans; [|exact W2]. apply (slice_same _ _ 8); [lia|]. rewrite P4, P3 by lia. done.
    + etrans; [|exact W3]. apply (slice_same _ _ 12); [lia|]. rewrite P4 by lia. done.
Qed.

Lemma header_same n buf buf' : take 16 buf' = take 16 buf → has_header n buf → has_header n buf'.
Proof.
  intros E (H1 & H2 & H3 & H4).
  split_and!; [etrans; [|exact H1]|etrans; [|exact H2]|etrans; [|exact H3]|etrans; [|exact H4]];
    apply (slice_same _ _ 16); (done || lia).
Qed.

Lemma flatten_ok c es buf :
  cache_ok c es → flat_size 16 es ≤ Z.of_nat (length buf) → Z.of_nat (length buf) < 2 ^ 31 - 4 →
  ∃ buf', flatten buf (Z.of_nat (length buf)) 0 c = Ok ((OK, buf'), c) ∧ length buf' = length buf ∧
    has_header (Z.of_nat (length es)) buf' ∧ encoded 16 es buf'.
Proof.
  intros Hok Hsz Hlt. pose proof (flat_size_ge 16 es). unfold flatten. cbn [negb Z.eqb].
  unfold sizeof_Header. destruct (Z.ltb_spec (Z.of_nat (length buf)) 16); [lia|].
  erewrite st_bind_eq by (apply entries_read, size_law, Hok). rewrite Nat2Z.id.
  destruct (header_loop c (Z.of_nat (length es)) buf) as (b1 & E1 & L1 & H1); [lia|]. rewrite E1.
  destruct (flatten_loop_ok [] es c 16 (Z.of_nat (length buf)) b1 Hok) as (b2 & E2 & L2 & P2 & W2); [lia|done|by right|lia|lia|].
  exists b2. split_and!; [exact E2|congruence| |exact W2]. eapply header_same; [|exact H1]. by apply P2.
Qed.

Lemma flattened_loop_ok es1 es c size :
  cache_ok c (es1 ++ es) → 0 ≤ size → flat_size size es < 2 ^ 31 →
  flattened_loop (length es) (Z.of_nat (length es1)) size c = Ok (flat_size size es, c).
Proof.
  revert es1 size. induction es as [|e es IH]; intros es1 size Hok H0 Hlt; [done|]. cbn [length flattened_loop flat_size].
  erewrite st_bind_eq by (apply entries_read; eapply item_law; [apply Hok|by apply list_lookup_middle]).
  cbn [flat_size] in Hlt. pose proof (flat_size_ge (ALIGN size 4 + entry_space e) es). pose proof (align_ge size).
  pose proof (entry_space_pos e).
  replace (u32 (align4 size + u32 (u32 (sizeof_EntryHeader + getSize (mKey e)) + getSize (mValue e)))) with (ALIGN size 4 + entry_space e).
  2: { pose proof (entry_size_eq e ltac:(lia)) as E. unfold entry_size in E. rewrite E. unfold align4. rewrite (u32_small (ALIGN size 4)), u32_small by lia. done. }
  rewrite cons_middle, app_assoc in Hok. specialize (IH (es1 ++ [e]) (ALIGN size 4 + entry_space e) Hok ltac:(lia) Hlt).
  rewrite length_app, Nat2Z.inj_add in IH. exact IH.
Qed.

Lemma getFlattenedSize_ok c es : cache_ok c es → flat_size 16 es < 2 ^ 31 → getFlattenedSize c = Ok (flat_size 16 es, c).
Proof.
  intros Hok Hlt. unfold getFlattenedSize. erewrite st_bind_eq by (apply entries_read, size_law, Hok). rewrite Nat2Z.id.
  apply (flattened_loop_ok [] es); [done|lia|done].
Qed.
End flat.
End CacheFlat.

Import CacheFlat.

Module CacheRead.

Implicit Types (k v : blob) (e : entry) (es : list entry) (buf : list Z) (o : Z).

Section read.
Context `{SVL : SortedVectorLaws entry compare_entries}.
Implicit Types (c : cache).

(** ** Memory *)

Lemma nat_getSize (p : blob) : Z.to_nat (getSize p) = length p.
Proof. apply Nat2Z.id. Qed.

Lemma mem_at_take off n buf : 0 ≤ off → take n (mem_at off buf) = slice (Z.to_nat off) n buf.
Proof.
  intros H. unfold mem_at, slice. destruct (Z.le_ge_cases off (Z.of_nat (length buf))).
  - by rewrite Z.min_l by lia.
  - rewrite Z.min_r, Nat2Z.id by lia. rewrite !drop_ge by lia. done.
Qed.

Lemma mem_at_bytes off n buf : 0 ≤ off → 0 ≤ n → off + n ≤ Z.of_nat (length buf) → bytes_at (mem_at off buf) n.
Proof. intros H1 H2 H3. unfold bytes_at, mem_at. rewrite length_drop. lia. Qed.

(** ** What was written *)

(** Two lists in order with the same items. *)
Lemma strict_ext es es' : strict compare_entries es → strict compare_entries es' → (∀ e, e ∈ es ↔ e ∈ es') → es = es'.
Proof.
  intros H1 H2 Hin. eapply (StronglySorted_unique_strong (λ x y, compare_entries x y < 0)); [|exact H1|exact H2|].
  - intros x y _ _ Hxy Hyx. rewrite compare_flip in Hyx. lia.
  - apply NoDup_Permutation; [by apply strict_NoDup..|done].
Qed.

Lemma set_last c es e :
  cache_ok c es → strict compare_entries (es ++ [e]) → sized c e → total es + entry_bytes e ≤ mMaxTotalSize c →
  ∀ es', cache_ok c es → strict compare_entries es' → set_result c (mKey e) (mValue e) es es' → es' = es ++ [e].
Proof.
  intros Hok Hs Hz Hm es' _ Hs' Hres. unfold entry_bytes in Hm. pose proof (total_ge0 es).
  pose proof (needed_le (mKey e) (mValue e) es) as Hn.
  assert (Hall : ∀ es1, evicted c (mKey e) (mValue e) es es1 → es1 = es).
  { unfold evicted. intros es1. case_bool_decide; [lia|done]. }
  destruct Hres as [Hno|es1 es' Hfit Hev _ Hin|es1 Hfit Hev Hbig].
  - destruct Hno. destruct Hz. unfold fitting. lia.
  - rewrite (Hall es1 Hev) in Hin. clear Hev. apply strict_ext; [done..|]. intros e'. rewrite Hin, elem_of_app, list_elem_of_singleton.
    replace (mk_entry (mKey e) (mValue e)) with e by (by destruct e). split; [tauto|]. intros [He'| ->]; [|by left].
    right. split; [done|]. intros Hk. apply strict_app in Hs as (_ & _ & H12).
    specialize (H12 e' e He' ltac:(by left)). apply compare_same in Hk. lia.
  - rewrite (Hall es1 Hev) in Hbig. lia.
Qed.

Lemma unflatten_loop_written es es1 c o size buf :
  cache_ok c es1 → strict compare_entries (es1 ++ es) → (∀ e, e ∈ es → sized c e) → total (es1 ++ es) ≤ mMaxTotalSize c →
  0 ≤ o → o `mod` 4 = 0 → (es = [] ∨ flat_size o es ≤ size) → size = Z.of_nat (length buf) → size < 2 ^ 31 - 4 → encoded o es buf →
  ∃ c', unflatten_loop (length es) size o buf c = Ok (OK, c') ∧ cache_ok c' (es1 ++ es).
Proof.
  revert es1 o c. induction es as [|e es IH]; intros es1 o c Hok Hs Hz Hm H0 Ho Hsz Hlen Hlt Henc.
  { exists c. by rewrite app_nil_r. }
  destruct Hsz as [?|Hsz]; [done|]. destruct (flat_size_next _ _ _ _ Ho Hsz) as (Hfit & Ho' & Hsz').
  pose proof (entry_space_pos e). pose proof (padded_range e) as Hpad. destruct Henc as (W1 & W2 & W3 & W4 & Henc).
  cbn [length unflatten_loop]. unfold sizeof_EntryHeader. rewrite u32_small by lia.
  destruct (Z.gtb_spec (o + 8) size); [lia|]. unfold entry_space in Hfit, Hpad.
  assert (Hk : 0 ≤ getSize (mKey e)) by (unfold getSize; lia). assert (Hv : 0 ≤ getSize (mValue e)) by (unfold getSize; lia).
  erewrite st_bind_eq by (apply mem_word_eq; lia). erewrite st_bind_eq by (apply mem_word_eq; lia).
  rewrite (get32_of _ _ _ W1), (get32_of _ _ _ W2) by lia. rewrite entry_size_eq by (unfold entry_space; lia). cbn zeta.
  fold (entry_space e) in Hfit, Hpad. rewrite u32_small by lia. destruct (Z.gtb_spec (o + entry_space e) size); [lia|].
  unfold entry_space in Hfit.
  assert (Hkey : take (Z.to_nat (getSize (mKey e))) (mem_at (o + 8) buf) = mKey e).
  { rewrite mem_at_take by lia. by rewrite nat_getSize. }
  assert (Hval : take (Z.to_nat (getSize (mValue e))) (mem_at (o + 8 + getSize (mKey e)) buf) = mValue e).
  { rewrite mem_at_take by lia. by rewrite nat_getSize. }
  assert (Hb1 : bytes_at (mem_at (o + 8) buf) (getSize (mKey e))) by (apply mem_at_bytes; lia).
  assert (Hb2 : bytes_at (mem_at (o + 8 + getSize (mKey e)) buf) (getSize (mValue e))) by (apply mem_at_bytes; lia).
  destruct (set_ok c es1 _ _ _ _ Hok Hk Hv (λ _ _, conj Hb1 Hb2)) as (c1 & es2 & E & Hok1 & Hsl & _ & Hres).
  specialize (Hres Hb1 Hb2). rewrite Hkey, Hval in Hres.
  assert (Hs1 : strict compare_entries (es1 ++ [e])).
  { rewrite cons_middle, app_assoc in Hs. by apply strict_app in Hs as (? & _). }
  rewrite total_app in Hm. cbn [total] in Hm. pose proof (total_ge0 es).
  assert (es2 = es1 ++ [e]) as ->.
  { eapply set_last; [done|done|apply Hz; by left|lia|done|apply Hok1|done]. }
  erewrite st_bind_eq by exact E.
  assert (Hnext : s32 (o + align4 (entry_space e)) = o + padded e).
  { unfold align4. fold (padded e). unfold s32. rewrite u32_small by lia. rewrite Z.mod_small by lia. lia. }
  rewrite Hnext. destruct (IH (es1 ++ [e]) (o + padded e) c1) as (c2 & E2 & Hok2); [done| | | |lia|done| |done|done|done|].
  - by rewrite <- app_assoc.
  - intros e' He'. eapply sized_same; [done|apply Hz; by right].
  - destruct Hsl as (_ & _ & ->). rewrite <- app_assoc, total_app. cbn. lia.
  - destruct Hsz'; [by left|right; lia].
  - exists c2. rewrite <- app_assoc in Hok2. by split.
Qed.

(** C7: What is flattened is read back.  [getFlattenedSize] tells a size that is
    enough: a buffer of that size or a larger one is filled by [flatten] without a
    byte beyond its end being written and without a change of the cache; and a cache
    with the same limits that reads the buffer holds the same entries afterwards. *)
Theorem flatten_roundtrip c es buf c0 :
  cache_ok c es → flat_size 16 es < 2 ^ 31 - 4 → flat_size 16 es ≤ Z.of_nat (length buf) < 2 ^ 31 - 4 →
  cache_ok c0 [] → same_limits c c0 →
  getFlattenedSize c = Ok (flat_size 16 es, c) ∧
  ∃ buf' c1, flatten buf (Z.of_nat (length buf)) 0 c = Ok ((OK, buf'), c) ∧ length buf' = length buf ∧
    unflatten buf' (Z.of_nat (length buf)) 0 c0 = Ok (OK, c1) ∧ cache_ok c1 es.
Proof.
  intros Hok Hf [Hsz Hlt] Hok0 Hsl. split; [apply getFlattenedSize_ok; [done|lia]|].
  destruct (flatten_ok c es buf Hok Hsz Hlt) as (buf' & E & Hlen & (H1 & H2 & H3 & H4) & Henc).
  pose proof (flat_size_ge 16 es). unfold unflatten.
  destruct (clear_law (mCacheEntries c0) [] (c_rep _ _ Hok0)) as (s' & Ec & Hr).
  set (c1 := c0 <| mCacheEntries := s' |>).
  assert (Hok1 : cache_ok c1 []).
  { eapply cache_ok_change; [exact Hok0|done|exact Hr|by constructor|by intros e ?%elem_of_nil|exact (c_total _ _ Hok0)|exact (c_max _ _ Hok0)]. }
  assert (Hn : Z.of_nat (length es) < 2 ^ 32).
  { pose proof (total_length es ltac:(intros e He; destruct (c_sized _ _ Hok e He); lia)).
    pose proof (c_max _ _ Hok). pose proof (c_limits _ _ Hok) as [L1 L2 L3 L4 _]. lia. }
  destruct (unflatten_loop_written es [] c1 16 (Z.of_nat (length buf)) buf') as (c2 & E2 & Hok2);
    [done|apply Hok|intros e He; eapply sized_same; [exact Hsl|by apply (c_sized _ _ Hok)]
    | |lia|done|by right|by rewrite Hlen|done|done|].
  { destruct Hsl as (_ & _ & Hsl). cbn. rewrite Hsl. apply Hok. }
  exists buf', c2. split_and!; [done..| |done]. erewrite st_bind_eq by (by apply entries_eq). cbn [Z.eqb negb].
  unfold sizeof_Header. destruct (Z.ltb_spec (Z.of_nat (length buf)) 16); [lia|].
  do 4 (erewrite st_bind_eq by (apply mem_word_eq; lia)).
  change (Z.to_nat 0) with 0%nat. change (Z.to_nat 4) with 4%nat. change (Z.to_nat 8) with 8%nat. change (Z.to_nat 12) with 12%nat.
  rewrite (get32_of _ _ _ H1), (get32_of _ _ _ H2), (get32_of _ _ _ H3), (get32_of _ _ _ H4) by (done || lia).
  rewrite Nat2Z.id. exact E2.
Qed.

(** ** Any bytes *)

Lemma get32_range off buf : Forall (λ b, 0 ≤ b < 256) buf → 0 ≤ get32 off buf < 2 ^ 32.
Proof.
  intros H. unfold get32. pose proof (le_value_range (slice off 4 buf) ltac:(by apply Forall_take, Forall_drop)) as Hr.
  assert (Hl : Z.of_nat (length (slice off 4 buf)) ≤ 4) by (unfold slice; rewrite length_take; lia).
  assert (256 ^ Z.of_nat (length (slice off 4 buf)) ≤ 256 ^ 4) by (apply Z.pow_le_mono_r; lia). lia.
Qed.

(** The offset stays in the buffer, or just behind it, whatever the sizes are. *)
Lemma next_offset o size entrySize :
  0 ≤ o → o `mod` 4 = 0 → o ≤ size + 3 → size < 2 ^ 31 - 4 → 0 ≤ entrySize < 2 ^ 32 → u32 (o + entrySize) ≤ size →
  0 ≤ s32 (o + align4 entrySize) ≤ size + 3 ∧ s32 (o + align4 entrySize) `mod` 4 = 0.
Proof.
  intros H0 Ho Hle Hs He Hu. unfold s32, align4, u32 in *. rewrite ALIGN4_div.
  Z.to_euclidean_division_equations. lia.
Qed.

(** An entry whose sizes fit the limits and the buffer is in it. *)
Lemma entry_inside o size keySize valueSize :
  0 ≤ o → o + 8 ≤ size → size < 2 ^ 31 - 4 → 0 ≤ keySize → 0 ≤ valueSize → keySize + valueSize ≤ 2 ^ 31 - 8 →
  u32 (o + entry_size keySize valueSize) ≤ size → o + 8 + keySize + valueSize ≤ size.
Proof.
  intros H0 Ho Hs Hk Hv Hkv Hu. unfold entry_size, sizeof_EntryHeader in Hu.
  rewrite (u32_small (8 + keySize)), (u32_small (8 + keySize + valueSize)), u32_small in Hu by lia. lia.
Qed.

Lemma unflatten_loop_ok n c es o buf :
  cache_ok c es → mMaxKeySize c + mMaxValueSize c ≤ 2 ^ 31 - 8 → Forall (λ b, 0 ≤ b < 256) buf → Z.of_nat (length buf) < 2 ^ 31 - 4 →
  0 ≤ o → o `mod` 4 = 0 → o ≤ Z.of_nat (length buf) + 3 →
  ∃ r c', unflatten_loop n (Z.of_nat (length buf)) o buf c = Ok (r, c') ∧
    (r = OK ∧ (∃ es', cache_ok c' es') ∨ r = BAD_VALUE ∧ sv_rep (mCacheEntries c') []).
Proof.
  intros Hok Hkv Hb Hlt. revert c es o Hok Hkv. induction n as [|n IH]; intros c es o Hok Hkv H0 Ho Hle; cbn [unflatten_loop].
  { exists OK, c. split; [done|]. left. split; [done|by exists es]. }
  assert (Hbad : ∃ r c', (entries sv_clear ;; mret BAD_VALUE) c = Ok (r, c') ∧
    (r = OK ∧ (∃ es', cache_ok c' es') ∨ r = BAD_VALUE ∧ sv_rep (mCacheEntries c') [])).
  { destruct (clear_law (mCacheEntries c) es (c_rep _ _ Hok)) as (s' & E & Hr).
    do 2 eexists. split; [by erewrite st_bind_eq by (by apply entries_eq)|]. by right. }
  unfold sizeof_EntryHeader. rewrite u32_small by lia.
  destruct (Z.gtb_spec (o + 8) (Z.of_nat (length buf))) as [|Hin]; [exact Hbad|].
  erewrite st_bind_eq by (apply mem_word_eq; lia). erewrite st_bind_eq by (apply mem_word_eq; lia).
  pose proof (get32_range (Z.to_nat o) buf Hb) as Hk. pose proof (get32_range (Z.to_nat (o + 4)) buf Hb) as Hv.
  set (keySize := get32 (Z.to_nat o) buf) in *. set (valueSize := get32 (Z.to_nat (o + 4)) buf) in *. cbn zeta.
  destruct (Z.gtb_spec (u32 (o + entry_size keySize valueSize)) (Z.of_nat (length buf))) as [|Hsz]; [exact Hbad|].
  destruct (set_ok c es (mem_at (o + 8) buf) keySize (mem_at (o + 8 + keySize) buf) valueSize Hok) as (c1 & es1 & E & Hok1 & Hsl & _); [lia|lia| |].
  { intros Hk1 Hv1. pose proof (entry_inside o _ keySize valueSize H0 Hin Hlt ltac:(lia) ltac:(lia) ltac:(lia) Hsz).
    split; apply mem_at_bytes; lia. }
  erewrite st_bind_eq by exact E.
  destruct (next_offset o (Z.of_nat (length buf)) (entry_size keySize valueSize)) as [Hn1 Hn2]; [lia..| |done|].
  { apply u32_range. }
  apply (IH c1 es1); [done| |lia|done|lia]. destruct Hsl as (-> & -> & _). done.
Qed.

(** C35: [unflatten] reads any bytes safely.  Whatever a buffer holds, sizes that
    wrap around and counts that promise more than there is included, a cache without
    entries reads it to an end and no byte outside of it; the result is an error and
    an empty vector, or a cache that is as well formed as if its entries had been set. *)
Theorem unflatten_reads_inside c buf count :
  cache_ok c [] → mMaxKeySize c + mMaxValueSize c ≤ 2 ^ 31 - 8 → Forall (λ b, 0 ≤ b < 256) buf → Z.of_nat (length buf) < 2 ^ 31 - 4 →
  ∃ r c', unflatten buf (Z.of_nat (length buf)) count c = Ok (r, c') ∧
    (r = OK ∧ (∃ es, cache_ok c' es) ∨ r = BAD_VALUE ∧ sv_rep (mCacheEntries c') []).
Proof.
  intros Hok Hkv Hb Hlt. unfold unflatten. destruct (clear_law (mCacheEntries c) [] (c_rep _ _ Hok)) as (s' & Ec & Hr).
  erewrite st_bind_eq by (by apply entries_eq). set (c1 := c <| mCacheEntries := s' |>).
  assert (Hok1 : cache_ok c1 []).
  { eapply cache_ok_change; [exact Hok|done|exact Hr|by constructor|by intros e ?%elem_of_nil|exact (c_total _ _ Hok)|exact (c_max _ _ Hok)]. }
  assert (Hbad : ∃ r c', (mret BAD_VALUE : ST cache Z) c1 = Ok (r, c') ∧
    (r = OK ∧ (∃ es, cache_ok c' es) ∨ r = BAD_VALUE ∧ sv_rep (mCacheEntries c') [])) by (exists BAD_VALUE, c1; split; [done|by right]).
  destruct (negb (count =? 0)); [exact Hbad|]. unfold sizeof_Header.
  destruct (Z.ltb_spec (Z.of_nat (length buf)) 16); [exact Hbad|].
  do 4 (erewrite st_bind_eq by (apply mem_word_eq; lia)).
  destruct (negb (_ =? blobCacheMagic)); [exact Hbad|]. destruct (_ || _).
  { exists OK, c1. split; [done|]. left. split; [done|by exists []]. }
  change (align4 16) with 16. apply (unflatten_loop_ok _ c1 []); [done..|lia].
Qed.
End read.
End CacheRead.
