(* ===== verification/BlobCacheVector.v ===== *)
(** The cache over the vectors of [VectorImpl]: what the cache asks of a sorted
    vector is what the storage that is shared until it is edited provides. *)
From S2P Require Import Prelude VectorImpl VectorSpec VectorStorage VectorOps VectorRefine VectorSort VectorSorted BlobCache BlobCacheSpec.
Import Vectors Cache CacheSpec.

Module CacheVector.

(** [SortedVector::editItemAt] and an assignment to a part of the item. *)
Definition editItemAt {A} (malloc : gmap Z (buffer A) → Z → Z) (itemSize : Z) (td : bool) (this index : Z) (f : A → A) : ST (store A) unit :=
  array ← editItemLocation malloc itemSize td this index;
  if array =? 0 then fail Null_deref
  else in_buffer array (x ← read_cell (Z.to_nat index); modify (λ cs, <[Z.to_nat index := Some (f x)]> cs)).

(** Two references, and no traits that would save their constructors. *)
Definition sizeof_CacheEntry : Z := 8.
Definition entry_item : entry := mk_entry [] [].

Section vector.
Context (malloc : gmap Z (buffer entry) → Z → Z).

(** [mCacheEntries], the vector 1 of a store. *)
#[export] Instance cache_vector : SortedVector entry := {|
  sv_state := store entry;
  sv_size := v ← vector 1; mret (mCount v);
  sv_item := itemAt 1;
  sv_indexOf e := indexOf compare_entries 1 (Ext [e]);
  sv_add e := sorted_add malloc sizeof_CacheEntry entry_item false false false false compare_entries 1 (Ext [e]);
  sv_editItem := editItemAt malloc sizeof_CacheEntry false 1;
  sv_removeAt i := removeItemsAt malloc sizeof_CacheEntry false false false 1 i 1;
  sv_clear := clear malloc sizeof_CacheEntry false false false 1 |}.

(** There is memory. *)
Context (malloc_ok : ∀ h n, 0 ≤ n < 2 ^ 32 → malloc h n ≠ 0 ∧ h !! malloc h n = None).

Notation ok bufs vs m := (vectors_ok sizeof_CacheEntry false (mk_store bufs vs) m).

Lemma sizeof_pos : 0 < sizeof_CacheEntry.
Proof. done. Qed.

(** The vector holds the list; the store may hold other vectors. *)
Definition holds (s : store entry) (es : list entry) : Prop :=
  ∃ m, vectors_ok sizeof_CacheEntry false s m ∧ m !! 1 = Some es ∧ fits sizeof_CacheEntry (Z.of_nat (length es)).

Lemma holds_intro s m es : vectors_ok sizeof_CacheEntry false s (<[1 := es]> m) → fits sizeof_CacheEntry (Z.of_nat (length es)) → holds s es.
Proof. intros H1 H2. exists (<[1 := es]> m). by rewrite lookup_insert_eq. Qed.

Lemma editItemAt_eq bufs vs m es i x f :
  ok bufs vs m → m !! 1 = Some es → es !! i = Some x →
  ∃ s', editItemAt malloc sizeof_CacheEntry false 1 (Z.of_nat i) f (mk_store bufs vs) = Ok (tt, s') ∧
    vectors_ok sizeof_CacheEntry false s' (<[1 := <[i := f x]> es]> m).
Proof.
  intros Hok Hx Hi. destruct (ok_at _ _ _ _ _ _ _ Hok Hx) as (v & Hv & Hh).
  destruct (ok_block _ _ _ _ _ _ _ _ Hok Hv Hx) as (Hn & b0 & Hb0 & Hg0); [by intros ->|].
  pose proof (lookup_lt_Some _ _ _ Hi) as Hlt. pose proof (good_fits _ _ _ _ Hg0) as Hfit.
  destruct (editArrayImpl_eq malloc sizeof_CacheEntry false sizeof_pos malloc_ok bufs vs m 1 v es b0)
    as (a & b & bufs' & E & Hsole & [[Hs1 Hs2] (g & Hc & Hg)] & Hlen); [done..|].
  rewrite (at_storage v a _ (proj1 Hh)) in E.
  unfold editItemAt, editItemLocation. erewrite st_bind_eq.
  2: { erewrite st_bind_eq by (eapply (capacity_eq sizeof_CacheEntry sizeof_pos); [done..|apply Hg0]).
       rewrite (proj2 (Z.ltb_lt _ _)) by lia. exact E. }
  rewrite (proj2 (Z.eqb_neq a 0)) by apply Hsole. rewrite Nat2Z.id.
  apply list_elem_of_split_length in Hi as (p & q & -> & Hp).
  assert (Hc' : b_cells b = (Some <$> p) ++ Some x :: (Some <$> q) ++ g) by (rewrite Hc, fmap_app, <- app_assoc; done).
  set (b' := b <| b_cells := (Some <$> p) ++ Some (f x) :: (Some <$> q) ++ g |>).
  assert (Hb' : b_cells b' = (Some <$> <[i := f x]> (p ++ x :: q)) ++ g).
  { rewrite set_middle by done. rewrite fmap_app, <- app_assoc. done. }
  exists (mk_store (<[a := b']> bufs') (<[1 := mk_vec a (Z.of_nat (length (p ++ x :: q)))]> vs)). split.
  - eapply in_buffer_eq; [apply Hsole|]. rewrite Hc'. erewrite st_bind_eq by (apply read_at; by rewrite length_fmap).
    unfold modify. by rewrite set_middle by (by rewrite length_fmap).
  - assert (Hsz : VectorSpec.sized sizeof_CacheEntry b').
    { split; [|done]. cbn. rewrite Hs1. f_equal. f_equal. rewrite Hc', !length_app. done. }
    eapply sole_done; [eapply (sole_update _ _ _ _ _ _ _ b); [done|apply Hsole|exact Hsz]| |].
    + split; [done|]. exists g. split; [exact Hb'|done].
    + by rewrite length_insert.
Qed.

#[export] Instance cache_vector_laws : SortedVectorLaws compare_entries.
Proof.
  refine {| sv_rep := holds : sv_state → list entry → Prop; sv_fits n := fits sizeof_CacheEntry (Z.of_nat n) |}.
  - intros [bufs vs] es (m & Hok & Hx & Hf). destruct (ok_at _ _ _ _ _ _ _ Hok Hx) as (v & Hv & Hh).
    cbn. erewrite st_bind_eq by (by apply vector_eq). by rewrite (proj1 Hh).
  - intros [bufs vs] es i x (m & Hok & Hx & Hf) Hi. exact (itemAt_eq _ _ bufs vs m 1 es i x Hok Hx Hi).
  - intros [bufs vs] es x (m & Hok & Hx & Hf) Hs.
    destruct (indexOf_eq sizeof_CacheEntry false sizeof_pos compare_entries bufs vs m 1 es x Hok Hx Hs Hf) as [?|[E Hne]]; [by left|right].
    by exists NAME_NOT_FOUND.
  - intros [bufs vs] es x (m & Hok & Hx & Hf) Hs Hf'.
    destruct (sorted_add_eq malloc sizeof_CacheEntry entry_item false false false false sizeof_pos malloc_ok compare_entries
      bufs vs m 1 es x Hok Hx Hs) as (i & s' & ys & E & Hok' & Hs' & _ & Hin); [by rewrite Nat.add_1_r|].
    exists (Z.of_nat i), s', ys. split_and!; [exact E| |done|done]. eapply holds_intro; [exact Hok'|]. revert Hf'. apply fits_le.
    split; [lia|]. apply Nat2Z.inj_le. apply (submseteq_length ys (x :: es)). apply NoDup_submseteq; [by apply strict_NoDup|].
    intros y Hy. apply elem_of_cons. apply Hin in Hy. tauto.
  - intros [bufs vs] es i x f (m & Hok & Hx & Hf) Hi.
    destruct (editItemAt_eq bufs vs m es i x f Hok Hx Hi) as (s' & E & Hok'). exists s'. split; [exact E|].
    eapply holds_intro; [exact Hok'|]. by rewrite length_insert.
  - intros [bufs vs] es i (m & Hok & Hx & Hf) Hi.
    destruct (removeItemsAt_eq malloc sizeof_CacheEntry false false false sizeof_pos malloc_ok bufs vs m 1 es i 1) as (s' & E & Hok');
      [done..|lia|lia|done|].
    exists (Z.of_nat i), s'. split; [exact E|]. replace (delete i es) with (without i 1 es).
    + eapply holds_intro; [exact Hok'|]. revert Hf. apply fits_le. rewrite length_without by lia. lia.
    + unfold without. by rewrite delete_take_drop, Nat.add_1_r.
  - intros [bufs vs] es (m & Hok & Hx & Hf).
    destruct (clear_eq malloc sizeof_CacheEntry false false false sizeof_pos malloc_ok bufs vs m 1 es Hok Hx Hf) as (s' & E & Hok').
    exists s'. split; [exact E|]. eapply holds_intro; [exact Hok'|]. revert Hf. apply fits_le. simpl. lia.
Defined.

End vector.
End CacheVector.
