(* ===== verification/BlobCacheRuns.v ===== *)
(** Caches over vectors at work, and what goes wrong when a cache is read from a
    buffer that is damaged, or is not empty when it is read. *)
From S2P Require Import Prelude VectorImpl VectorSpec VectorStorage VectorOps VectorRefine VectorPrograms VectorSorted VectorRuns BlobCache BlobCacheSpec BlobCacheRead BlobCacheVector.
Import Vectors Cache CacheSpec CacheFlat CacheRead CacheVector.

Module CacheRuns.

Notation fresh_block := (VectorRuns.next_block (B := buffer entry)).
#[local] Existing Instance cache_vector.

Lemma memory_ok (h : gmap Z (buffer entry)) n : 0 ≤ n < 2 ^ 32 → fresh_block h n ≠ 0 ∧ h !! fresh_block h n = None.
Proof. intros _. apply VectorRuns.next_block_ok. Qed.

Notation vcache := (@cache (cache_vector fresh_block)).
Notation vector_laws := (cache_vector_laws fresh_block memory_ok).
Notation ok := (@cache_ok (cache_vector fresh_block) vector_laws).

(** A store with the vector of a new cache. *)
Definition new_store : store entry := mk_store ∅ {[1 := mk_vec 0 0]}.

Definition create (maxKeySize maxValueSize maxTotalSize : Z) : vcache :=
  new_cache (SV := cache_vector fresh_block) maxKeySize maxValueSize maxTotalSize 12345 new_store.

Lemma new_store_holds : holds new_store [].
Proof.
  destruct (new_vector_eq (A := entry) sizeof_CacheEntry false ∅ ∅ ∅ 1 (no_vectors_ok sizeof_CacheEntry false) eq_refl) as (s' & _ & -> & Hok).
  eapply holds_intro; [exact Hok|]. apply fits_nil. done.
Qed.

Lemma create_ok k v t : 0 ≤ k → 0 ≤ v → 0 ≤ t ≤ 2 ^ 28 → k + v + t < 2 ^ 32 → ok (create k v t) [].
Proof.
  intros Hk Hv Ht Hs. split.
  - split; [done|done|by cbn; lia|done|]. cbn. intros n Hn. split_and!; [lia|lia|]. split; [lia|]. unfold sizeof_CacheEntry, Vectors.sizeof_SharedBuffer.
    Z.to_euclidean_division_equations. lia.
  - exact new_store_holds.
  - constructor.
  - by intros e ?%elem_of_nil.
  - done.
  - cbn. lia.
Qed.

(** Entries that are set one after the other. *)
Fixpoint set_all (kvs : list (blob * blob)) : ST vcache unit :=
  match kvs with [] => mret tt | (k, v) :: kvs' => set k (getSize k) v (getSize v) ;; set_all kvs' end.

Lemma set_all_ok kvs c es :
  ok c es → ∃ c' es', set_all kvs c = Ok (tt, c') ∧ ok c' es' ∧ @same_limits (cache_vector fresh_block) c c'.
Proof.
  revert c es. induction kvs as [|[k v] kvs IH]; intros c es Hok; [by exists c, es|]. cbn [set_all].
  assert (Hb : ∀ p : list Z, bytes_at p (getSize p)) by (intros p; unfold bytes_at, getSize; lia).
  destruct (set_ok (SVL := vector_laws) c es k (getSize k) v (getSize v) Hok) as (c1 & es1 & E & Hok1 & Hs & _ & _);
    [unfold getSize; lia|unfold getSize; lia|done|].
  destruct (IH c1 es1 Hok1) as (c2 & es2 & E2 & Hok2 & Hs2). exists c2, es2. split_and!; [by erewrite st_bind_eq by exact E|done|].
  by eapply same_limits_trans.
Qed.

(** ** The cache keeps its promises *)


Lemma blob_get_correct_witness :
  ∃ c es, set_all [([1], [2; 3]); ([4; 5], [6])] (create 4 8 10) = Ok (tt, c) ∧ ok c es ∧
    ((∃ v, mk_entry [1] v ∈ es ∧ get [1] (getSize [1]) [0; 0; 0] 3 c = Ok ((getSize v, if getSize v <=? 3 then v ++ drop (length v) [0; 0; 0] else [0; 0; 0]), c)) ∨
     ((∀ e, e ∈ es → mKey e ≠ [1]) ∧ get [1] (getSize [1]) [0; 0; 0] 3 c = Ok ((0, [0; 0; 0]), c))).
Proof.
  destruct (set_all_ok [([1], [2; 3]); ([4; 5], [6])] (create 4 8 10) []) as (c & es & E & Hok & _); [by apply create_ok|].
  exists c, es. split; [exact E|]. split; [exact Hok|]. apply (blob_get_correct (SVL := vector_laws) c es [1] [0; 0; 0] 3 Hok). done.
Defined.

Lemma few_entries es : total es ≤ 100 → (∀ e, e ∈ es → 0 < getSize (mKey e) ∧ 0 < getSize (mValue e)) → flat_size 16 es ≤ 2000.
Proof.
  intros Ht Hz. assert (H : ∀ n, flat_size n es ≤ n + total es + 12 * Z.of_nat (length es)).
  { clear Ht Hz. induction es as [|e es IH]; intros n; cbn; [lia|]. specialize (IH (ALIGN n 4 + entry_space e)).
    unfold entry_space, entry_bytes in *. rewrite ALIGN4_div in *. Z.to_euclidean_division_equations. lia. }
  specialize (H 16). pose proof (total_length es Hz). lia.
Qed.

Lemma flatten_roundtrip_witness :
  ∃ c es, set_all [([1], [2; 3]); ([4; 5], [6])] (create 4 8 10) = Ok (tt, c) ∧ ok c es ∧
    getFlattenedSize c = Ok (flat_size 16 es, c) ∧
    ∃ buf' c1, flatten (replicate 2000 0) (Z.of_nat (length (replicate 2000 0))) 0 c = Ok ((OK, buf'), c) ∧ length buf' = length (replicate 2000 0) ∧
      unflatten buf' (Z.of_nat (length (replicate 2000 0))) 0 (create 4 8 10) = Ok (OK, c1) ∧ ok c1 es.
Proof.
  destruct (set_all_ok [([1], [2; 3]); ([4; 5], [6])] (create 4 8 10) []) as (c & es & E & Hok & Hs); [by apply create_ok|].
  assert (Hf : flat_size 16 es ≤ 2000).
  { apply few_entries.
    - pose proof (c_max (SVL := vector_laws) _ _ Hok) as Hm. destruct Hs as (_ & _ & Hs). rewrite Hs in Hm. cbn in Hm. lia.
    - intros e He. destruct (c_sized (SVL := vector_laws) _ _ Hok e He). lia. }
  exists c, es. split; [exact E|]. split; [exact Hok|].
  apply (flatten_roundtrip (SVL := vector_laws) c es (replicate 2000 0) (create 4 8 10) Hok); [lia| |by apply create_ok|].
  - rewrite length_replicate. lia.
  - destruct Hs as (E1 & E2 & E3). split_and!; by rewrite ?E1, ?E2, ?E3.
Defined.

(** A header with a number of entries. *)
Definition header (n : Z) : list Z := le_bytes 4 blobCacheMagic ++ le_bytes 4 1 ++ le_bytes 4 1 ++ le_bytes 4 n.
(** An entry with sizes, and what there is of it. *)
Definition raw_entry (k v : Z) (bs : list Z) : list Z := le_bytes 4 k ++ le_bytes 4 v ++ bs.

(** An entry, and one whose sizes wrap around. *)
Definition odd_buffer : list Z := header 3 ++ raw_entry 2 2 [1; 2; 3; 4] ++ raw_entry (2 ^ 32 - 8) 4 [5; 6; 7; 8].

Lemma unflatten_reads_inside_witness :
  ∃ r c', unflatten odd_buffer (Z.of_nat (length odd_buffer)) 0 (create 4 8 10) = Ok (r, c') ∧
    (r = OK ∧ (∃ es, ok c' es) ∨ r = BAD_VALUE ∧ holds (mCacheEntries c') []).
Proof.
  apply (unflatten_reads_inside (SVL := vector_laws) (create 4 8 10) odd_buffer 0); [by apply create_ok|done| |done].
  by repeat (constructor; [done|]).
Defined.

(** ** Where the cache breaks them *)

(** What a computation ends with. *)
Definition outcome {B} (r : res (B * vcache)) : res B := match r with Ok (x, _) => Ok x | Oops o => Oops o end.
Definition entries_of (c : vcache) : list (res entry) :=
  match s_vecs (mCacheEntries c) !! 1 with
  | Some v => (λ i, match itemAt 1 (Z.of_nat i) (mCacheEntries c) with Ok (x, _) => Ok x | Oops o => Oops o end) <$> seq 0 (Z.to_nat (mCount v))
  | None => []
  end.

(** A buffer with an entry of eight bytes, in which a second entry is cut off. *)
Definition cut_off : list Z := header 2 ++ raw_entry 2 6 [1; 2; 3; 4; 5; 6; 7; 8] ++ [0; 0; 0; 0].

(** The cache is empty then, but counts the entry; the next [set] that is not small
    divides by the number of entries. *)
Lemma stale_total_divides_by_zero :
  let c := state_after (unflatten cut_off (Z.of_nat (length cut_off)) 0) (create 4 8 10) in
  outcome (unflatten cut_off (Z.of_nat (length cut_off)) 0 (create 4 8 10)) = Ok BAD_VALUE ∧
  entries_of c = [] ∧ mTotalSize c = 8 ∧ outcome (set [9] 1 [1; 2; 3] 3 c) = Oops Bug.
Proof. by vm_compute. Qed.

(** A cache that reads back what it wrote counts its entries twice, and does the same. *)
Lemma reload_divides_by_zero :
  let c := state_after (set_all [([1; 2], [3; 4; 5; 6; 7; 8])]) (create 4 8 10) in
  match flatten (replicate 32 0) 32 0 c with
  | Ok ((r, buf), c1) => r = OK ∧ outcome (unflatten buf 32 0 c1) = Oops Bug
  | Oops _ => False
  end.
Proof. by vm_compute. Qed.

(** A small key and value are not cached when less than half of the cache is used, and
    there is no room: they are not in the cache after [set] returns. *)
Lemma small_pair_not_cached :
  let c := state_after (set_all [([1; 2], [3; 4; 5])]) (create 4 8 10) in
  entries_of (state_after (set [9] 1 [1; 2; 3; 4; 5] 5) c) = [Ok (mk_entry [1; 2] [3; 4; 5])] ∧
  fitting c [9] [1; 2; 3; 4; 5] ∧ outcome (set [9] 1 [1; 2; 3; 4; 5] 5 c) = Ok tt.
Proof. split_and!; by vm_compute. Qed.

(** A value as large as the buffer is copied to it. *)
Lemma get_equal_size :
  outcome (get [1] 1 [0; 0] 2 (state_after (set_all [([1], [2; 3])]) (create 4 8 10))) = Ok (2, [2; 3]).
Proof. by vm_compute. Qed.
End CacheRuns.
